(* ===== verification/_CoqProject ===== *)
-Q . S2P
Prelude.v
Types.v
FixedString.v
Timestamp.v
RingBuffer.v
Orders.v
Binary64.v
Decimals.v
Messages.v
MarketData.v
L3Interface.v
L3Lemmas.v
L3Reference.v
OrderBook.v
OrderBookInv.v
Concrete.v
OrderBookOps.v
Sweep.v
MatchCommon.v
MatchLemmas.v
FifoEngine.v
FifoProofs.v
FifoOrders.v
ProRata.v
Allocation.v
ProRataSweep.v
ProRataProofs.v
MatchingConfig.v
MatchContract.v
BookState.v
Symbol.v
SymbolProofs.v
SymbolManager.v
Exchange.v
DeskState.v
ExchangeProofs.v
VenueProofs.v
MarketProofs.v
Reconcile.v
SystemProofs.v
Instruments.v
OrderStore.v
PendingResponses.v
RetransmitRing.v
ClOrdIdIndex.v
TcpGateway.v
MdPublisher.v
MessageParsers.v
JsonAccess.v
InstanceExpansion.v
L2Diff.v
HyperliquidPublisher.v
PublisherProofs.v
CoinbaseFeed.v
CoinbaseOrder.v
CoinbaseProofs.v
CoinbasePublisher.v
CoinbasePublisherProofs.v
CoinbaseSubscribers.v
CoinbaseClients.v
CoinbaseSubscriptions.v
CoinbaseFeeds.v
CoinbaseVenue.v
MulticastFeed.v
RestGateway.v
CoinbaseOrderJson.v
CoinbaseRest.v
CoinbaseRestProofs.v
CoinbaseRestSafety.v
HyperliquidExchange.v
HyperliquidLevels.v
HyperliquidMirror.v
HyperliquidVenue.v
HyperliquidTrades.v
HyperliquidSubscriptions.v
HyperliquidSamples.v
HyperliquidRest.v
HyperliquidRestProofs.v
CoinbaseReports.v
CoinbaseReportsProofs.v
