(* ===== verification/Prelude.v ===== *)
(** * slick-sim: a verification development

    slick-sim is an exchange simulator: it mirrors the order book of a real venue as
    "phantom" liquidity, lets clients trade against it through the venue's own protocols,
    and publishes the resulting market data back to them. The development models its core
    in Rocq as executable definitions and proves what makes each part correct. Paths below
    are relative to [src/src/] of the repository.

    ** How a request travels

    A gateway decodes a client's message into a [Request] and queues it; the exchange thread
    ([exchange/exchange.cpp]) takes it, finds the instrument ([exchange/symbol.cpp]), which
    matches the order through its engine ([matching_engine/]) against its book
    ([order_book/order_book.hpp]), and rests what is left. Responses go back on the response
    queue, market data on the market-data queue, where the venue's publisher picks it up.
    The venue's feed drives the same thread: its events trade against the book as aggressors
    and its level updates are mirrored.

    ** Parts and files

    - Data. [Types] (fixed-point prices and quantities, decimal text, venue names:
      [common/types.hpp], [utils/decimal.hpp], [utils/math.hpp]), [FixedString]
      ([utils/fixed_string.hpp]), [RingBuffer] ([utils/ring_buffer.hpp]), [Orders]
      ([common/order.hpp], [utils/order.hpp]), [Messages] ([common/messages.hpp]),
      [MarketData] ([common/market_data.hpp]).
    - The book. [L3Interface] states what the code relies on in the library's
      [OrderBookL3]: the class [L3Ops] of its operations and the class [L3Laws] of their
      documented behaviour. [L3Reference] is a concrete book that satisfies the laws, so
      every theorem over them can be evaluated. [OrderBook] models
      [order_book/order_book.hpp]: orders in a pool, reached through pointers, the three
      lookup maps, the observers and phantom accounting. [L3Lemmas],
      [OrderBookInv] and [OrderBookOps] hold its invariant and that every operation keeps it
      ([reachable_book]).
    - The engines. [MatchCommon] ([match_common.hpp], [matching_engine.cpp]),
      [FifoEngine] ([fifo_matching_engine.cpp]) and [ProRata] ([pro_rata_matching_engine.hpp]
      and [.cpp]). Specifications: [Sweep] walks the queue of a side, [ProRataSweep] its
      levels. [FifoProofs], [FifoOrders], [ProRataProofs] prove that the loops return within
      their fuel and are exactly these sweeps; [Allocation] that a level's split neither
      creates nor loses quantity and is proportional; [MatchLemmas] is shared.
      [MatchingConfig] reads, checks and instantiates the configuration. [MatchContract] is
      the interface the exchange is proved against, with an instance per engine.
    - The instrument. [Symbol] ([exchange/symbol.cpp]), its credits for trades the venue has
      not yet reflected (in [Symbol] too), [SymbolManager] ([common/symbol_manager.hpp],
      [exchange/exchange_registry.cpp]), and [SymbolProofs] over the engines' contract.
    - The exchange. [Exchange] models the handlers of [exchange/exchange.cpp]. A [Desk] is an
      instrument at its exchange, a [System] the process. [DeskState] says what holds of a
      desk between two handlers; [ExchangeProofs] and [MarketProofs] are the handlers of
      requests and of market events; [Reconcile] is the mirror of one price; [VenueProofs]
      is the venue's own members; [SystemProofs] puts everything together: no event sticks,
      and a subscriber that replays the published frames holds the book's depth.
    - Configuration. [InstanceExpansion] is [exchange/instance_expansion.hpp]: the instances an
      entry of the configuration lists and the resources they claim.
    - Gateways. [OrderStore], [PendingResponses], [RetransmitRing] and [ClOrdIdIndex] are
      the headers of the same names in [order_gateway/]; [TcpGateway] is
      [tcp_order_gateway.cpp], [MessageParsers] the JSON and FIX parsers with their factory.
      [Decimals] is the reading of decimals by [std::stod] over the binary64 facts of
      [Binary64]; [JsonAccess] is nlohmann's accessors. [RestGateway] is what
      the HTTP gateways share: a handler is an [Action], its [try] block, that queues requests
      and polls the exchange's answers. [CoinbaseOrderJson] and [CoinbaseRest] model
      [venues/coinbase/coinbase_common.hpp] and [coinbase_rest_order_gateway.cpp];
      [CoinbaseRestProofs] composes order entry with the exchange and [CoinbaseRestSafety]
      traces what the gateway sends back to what it told its callers. [CoinbaseReports] is
      [coinbase_ws_order_gateway.cpp], and [CoinbaseReportsProofs] who is told of which order.
      [HyperliquidRest] and [HyperliquidRestProofs] are
      [venues/hyperliquid/hyperliquid_rest_order_gateway.cpp].
    - Publishing. [Timestamp] is [utils/timestamp.hpp]; [MdPublisher] the parts the venues'
      publishers share ([market_data_publisher/sequenced_message.hpp] and the drain of the
      queue in [ws_md_publisher.cpp]).
    - Feeds. [MulticastFeed] is [md_feed/multicast_packet_feed.hpp].
    - Hyperliquid. [L2Diff], [HyperliquidPublisher] and [PublisherProofs] model
      [venues/hyperliquid/hyperliquid_l2_diff.cpp] and [hyperliquid_publisher.cpp].
      [HyperliquidExchange] is [hyperliquid_exchange.cpp] with the live feed
      ([hyperliquid_live_ws_feed.hpp] and [.cpp]): what a snapshot, a diff or a message of
      trades does to an instrument, and who is answered when. [HyperliquidLevels] is one
      level, [HyperliquidMirror] diffs and snapshots, [HyperliquidVenue] whole messages,
      [HyperliquidTrades] prints, [HyperliquidSubscriptions] the subscribers, and
      [HyperliquidSamples] a venue at work.
    - Coinbase. [CoinbaseFeed], [CoinbaseOrder] and [CoinbaseProofs] are the live feed of
      [venues/coinbase/coinbase_exchange.cpp] and [coinbase_feed_callbacks.cpp];
      [CoinbaseSubscriptions], [CoinbaseFeeds] and [CoinbaseVenue] its subscriptions and the
      feeds they start; [CoinbasePublisher] is [coinbase_publisher.cpp] with the trade
      encoder, its sequence numbers are [CoinbasePublisherProofs], what subscribers hold is
      [CoinbaseSubscribers], and [CoinbaseClients] composes it with the exchange: the texts
      a client is sent show the exchange's book.
    - [Instruments] is what a venue does to open an instrument ([common/symbol_manager.hpp],
      [exchange/symbol.hpp]), shared by both venues. [Concrete], and the ends of [BookState]
      and [DeskState], are closed worlds on which the theorems with hypotheses are applied.

    ** What the theorems show

    Refinement: each matching loop is its sweep ([fifo_order_refines], [pr_order_refines],
    [fifo_feed_refines], [pr_feed_refines]); credits are the log of trades
    ([credits_refine_log]); a ring buffer is a queue ([ring_refines_queue]); the gateway's
    store is the projection of its reports ([order_store_projects]); subscribers of the
    market data, of Hyperliquid's diffs and of Coinbase's updates hold the book
    ([subscribers_follow], [l2_subscribers_hold_book], [coinbase_subscribers_hold],
    [client_shows_the_book]); the Hyperliquid mirror shows the venue's own book
    ([l2_message_mirrored], [hyperliquid_mirror_follows]); the multicast feed's bit masks are one machine per line
    ([membership_machine]). Invariants: the book ([reachable_book]), sequence numbers without
    a gap ([coinbase_numbers_gapless]), feeds and products in step
    ([coinbase_feeds_match]). Safety: price-time priority, conservation in the pro-rata
    split, venue order of Coinbase's events, exactly-once completion of waiting requests,
    and a REST gateway that only ever touches orders it reported
    ([gateway_keeps_to_its_orders]), and a websocket gateway that only writes to open sockets
    ([clients_stay_open]). Function: what each handler answers, publishes and leaves, on every
    branch. Configuration: the instances of an entry are its patched elements
    ([instances_expanded]) and no resource belongs to two ([claims_exclusive]). Termination and liveness: every loop's fuel is proved enough, every handler
    returns, a failed membership is tried again
    ([membership_recovers]), a Hyperliquid subscriber is answered by the first snapshot
    ([hyperliquid_subscriber_served]). Round trips: diffs, timestamps and decimal prices
    ([stod_reads_decimals]). Composition: the client of a REST order is told what the
    exchange answered ([create_follows_exchange], [hyperliquid_order_follows_exchange]), the
    owner of an order of every report of it ([reports_delivered]). Errors: rejections,
    fill-or-kill, self matches, and where the code loses a subscriber: the response that
    strands those already served ([l2_response_strands]), the feed that is never restarted
    ([coinbase_unfed_stays]), the snapshot nobody is sent after a disconnection
    ([coinbase_reconnect_strands]), the FIX order that is never parsed
    ([fix_orders_never_parsed]), the accepted order whose client is told of a timeout
    ([long_client_id_times_out]), the amendment that names one value only
    ([partial_edits_misfire]), the subscriber answered before there is a book
    ([hyperliquid_second_channel_empty]), the client's order ahead of the venue's
    ([client_before_venue]), the cancellation a recycled slot redirects
    ([recycled_slot_is_cancelled]) and the second socket that silences the first
    ([second_socket_silences]).

    ** Modelling choices

    A w-bit integer is a [Z] with its wrap written out ([u64], [i64] and so on); doubles are
    the standard library's specification of binary64. A pointer into a pool is a number into
    a heap, so aliasing is explicit. A [while] loop is a [Fixpoint] on fuel computed from the
    state it consumes - the resting orders of the side swept, the events queued - and a
    theorem shows that the fuel is never exhausted. Code that may dereference null, throw or
    assert returns an [option] or a [result].

    Code outside the repository is a class parameter with laws - [OrderBookL3], the object
    pool, the JSON library, the Coinbase SDK's channels, QuickFIX, a venue's TCP [Protocol],
    JWT - and each law class has an instance,
    so no hypothesis is vacuous. Sockets, SDK clients and SDK feeds are numbers; what was
    sent to them or asked of them is kept in order.
    The clock, fresh identifiers and what recycled queue slots hold are the class
    [Environment]; a gateway's are [GatewayEnv], where the exchange's turns between two polls
    are part of it. A [std::unordered_map] is a finite map; where the code iterates over one,
    the order is the map's own and no theorem depends on it.

    ** Not modelled

    Threads and their queues ([slick::queue] is a list of what was published), sockets, HTTP
    and websocket serving, logging, start and stop, the process entry [sim/main.cpp], and the
    encoders of SDKs outside the repository: they are input and output around the modelled
    handlers. *)

From stdpp Require Export functions gmap list fin_maps.
From Stdlib Require Export ZArith Lia Ascii String SpecFloat.

Declare Scope sim_scope.
Delimit Scope sim_scope with sim.
#[global] Open Scope Z_scope.
#[global] Open Scope sim_scope.

(** ** Functional record update

    [r <| f := v |>] is [r] with field [f] replaced by [v]. A record joins by
    giving its eta expansion; the setter of a field is computed from it. *)

Class Eta (R : Type) := eta : R -> R.
Class Setter {R T} (proj : R -> T) := upd : (T -> T) -> R -> R.
Arguments upd {R T} proj {Setter} _ _ /.

Ltac solve_setter :=
  match goal with
  | |- @Setter ?R ?T ?p =>
      tryif has_evar p then fail else idtac;
      let h := constr:(_ : Eta R) in
      let e := constr:(fun r : R =>
        ltac:(let b := eval hnf in (h r) in
              lazymatch b with context [p r] => idtac end;
              let b' := eval pattern (p r) in b in
              match b' with ?g _ => exact (fun f : T -> T => g (f (p r))) end)) in
      let e := eval cbv beta in (fun (f : T -> T) (r : R) => e r f) in
      exact e
  end.
#[export] Hint Extern 1 (Setter _) => solve_setter : typeclass_instances.

Notation "r <| f := v |>" := (upd f (fun _ => v) r)
  (at level 1, left associativity, f at next level, v at level 200) : sim_scope.
Notation "r <| f ::= g |>" := (upd f g r)
  (at level 1, left associativity, f at next level, g at level 200) : sim_scope.

(** ** Machine integers

    A [w]-bit unsigned value is the [Z] in [0, 2^w); arithmetic that wraps in the
    code is written with the wrap. *)

Definition wrap (w z : Z) : Z := z mod 2 ^ w.
Abbreviation u8 := (wrap 8).
Abbreviation u16 := (wrap 16).
Abbreviation u32 := (wrap 32).
Abbreviation u64 := (wrap 64).
Abbreviation u128 := (wrap 128).

(** Two's complement reading of the low [w] bits. *)
Definition swrap (w z : Z) : Z := (z + 2 ^ (w - 1)) mod 2 ^ w - 2 ^ (w - 1).
Abbreviation i64 := (swrap 64).

Lemma wrap_range w z : 0 <= w -> 0 <= wrap w z < 2 ^ w.
Proof. intros. unfold wrap. apply Z.mod_pos_bound. lia. Qed.

Lemma wrap_small w z : 0 <= z < 2 ^ w -> wrap w z = z.
Proof. apply Z.mod_small. Qed.

Lemma swrap_small w z : 1 <= w -> - 2 ^ (w - 1) <= z < 2 ^ (w - 1) -> swrap w z = z.
Proof.
  intros Hw Hz. unfold swrap.
  assert (2 ^ w = 2 * 2 ^ (w - 1)) by (rewrite <- Z.pow_succ_r by lia; f_equal; lia).
  rewrite Z.mod_small; lia.
Qed.

(** ** Byte strings

    A [std::string] or [char] array is a list of characters; [str] injects a
    literal. *)

Abbreviation bytes := (list ascii).
Definition str (s : string) : bytes := list_ascii_of_string s.
Definition NUL : ascii := Ascii.zero.

Definition char_code (c : ascii) : Z := Z.of_N (N_of_ascii c).
Definition char_of (z : Z) : ascii := ascii_of_N (Z.to_N z).

Lemma char_code_of z : 0 <= z < 256 -> char_code (char_of z) = z.
Proof.
  intros Hz. unfold char_code, char_of. rewrite N_ascii_embedding by lia. lia.
Qed.

(** [bytes_eqb] decides equality of two strings. *)
Definition bytes_eqb (a b : bytes) : bool := bool_decide (a = b).

Lemma bytes_eqb_eq a b : bytes_eqb a b = true <-> a = b.
Proof. unfold bytes_eqb. apply bool_decide_eq_true. Qed.

(** ** Sums of integers over a list *)

Fixpoint zsum (l : list Z) : Z :=
  match l with
  | [] => 0
  | x :: r => x + zsum r
  end.

Lemma zsum_app l1 l2 : zsum (l1 ++ l2) = zsum l1 + zsum l2.
Proof. induction l1 as [|x l1 IH]; simpl; lia. Qed.

Lemma zsum_nonneg l : Forall (fun x => 0 <= x) l -> 0 <= zsum l.
Proof. induction 1; simpl; lia. Qed.

Lemma zsum_permutation l1 l2 : l1 ≡ₚ l2 -> zsum l1 = zsum l2.
Proof. induction 1; simpl; lia. Qed.

Lemma zsum_map_ext {A} (f g : A -> Z) l :
  Forall (fun x => f x = g x) l -> zsum (map f l) = zsum (map g l).
Proof. induction 1; simpl; lia. Qed.

Lemma zsum_map_le {A} (f g : A -> Z) l :
  Forall (fun x => f x <= g x) l -> zsum (map f l) <= zsum (map g l).
Proof. induction 1; simpl; lia. Qed.

(** ** Automation shared by the components *)

Create HintDb sim discriminated.
Create Rewrite HintDb sim.
#[export] Hint Rewrite zsum_app : sim.
#[export] Hint Resolve zsum_nonneg : sim.

(** Case analysis on the first test of the goal or of a hypothesis. *)
Ltac case_test :=
  match goal with
  | |- context [if ?b then _ else _] =>
      lazymatch b with context [if _ then _ else _] => fail | _ => destruct b eqn:? end
  | H : context [if ?b then _ else _] |- _ =>
      lazymatch b with context [if _ then _ else _] => fail | _ => destruct b eqn:? end
  end.

(** Boolean comparisons to propositions. *)
Ltac bool_to_prop :=
  repeat match goal with
  | H : (_ && _)%bool = true |- _ => apply andb_true_iff in H; destruct H
  | H : (_ && _)%bool = false |- _ => apply andb_false_iff in H
  | H : (_ || _)%bool = true |- _ => apply orb_true_iff in H
  | H : (_ || _)%bool = false |- _ => apply orb_false_iff in H; destruct H
  | H : negb _ = true |- _ => apply negb_true_iff in H
  | H : negb _ = false |- _ => apply negb_false_iff in H
  | H : (_ =? _) = true |- _ => apply Z.eqb_eq in H
  | H : (_ =? _) = false |- _ => apply Z.eqb_neq in H
  | H : (_ <? _) = true |- _ => apply Z.ltb_lt in H
  | H : (_ <? _) = false |- _ => apply Z.ltb_ge in H
  | H : (_ <=? _) = true |- _ => apply Z.leb_le in H
  | H : (_ <=? _) = false |- _ => apply Z.leb_gt in H
  | H : (_ >? _) = _ |- _ => rewrite Z.gtb_ltb in H
  | H : (_ >=? _) = _ |- _ => rewrite Z.geb_leb in H
  | H : bool_decide _ = true |- _ => apply bool_decide_eq_true in H
  | H : bool_decide _ = false |- _ => apply bool_decide_eq_false in H
  end.

(** ** Loops

    A [while] loop is a step on its state: [Continue] for another iteration, [Break] to
    leave it, [Return] to leave the function around it. [None] is out of fuel. *)

Inductive flow := Continue | Break | Return.

Fixpoint while_loop {S} (step : S -> flow * S) (fuel : nat) (s : S) : option (flow * S) :=
  match fuel with
  | O => None
  | Datatypes.S fuel =>
      match step s with
      | (Continue, s') => while_loop step fuel s'
      | out => Some out
      end
  end.

(** A loop whose every iteration lowers a measure needs no more fuel than the measure. *)
Lemma while_loop_terminates {S} (step : S -> flow * S) (P : S -> Prop) (m : S -> nat) :
  (forall s s', P s -> step s = (Continue, s') -> P s' /\ (m s' < m s)%nat) ->
  forall fuel s, P s -> (m s < fuel)%nat -> exists out, while_loop step fuel s = Some out.
Proof.
  intros Hstep. induction fuel as [|fuel IH]; intros s Hs Hm; [lia|]. cbn.
  destruct (step s) as [[] s'] eqn:E; [|by eexists..].
  destruct (Hstep s s' Hs E) as [Hs' Hlt]. apply IH; [done|lia].
Qed.

(** More fuel does not change a result. *)
Lemma while_loop_mono {S} (step : S -> flow * S) fuel fuel' s out :
  while_loop step fuel s = Some out -> (fuel <= fuel')%nat -> while_loop step fuel' s = Some out.
Proof.
  revert fuel' s. induction fuel as [|fuel IH]; intros fuel' s Hout Hle; [done|].
  destruct fuel' as [|fuel']; [lia|]. cbn in *.
  destruct (step s) as [[] s'] eqn:E; [|done..]. apply IH; [done|lia].
Qed.
