(* ===== verification/Types.v ===== *)
(** * Fixed-point numbers, decimal rendering and venue names

    Models [src/common/types.hpp] and the arithmetic helpers [src/utils/decimal.hpp],
    [src/utils/math.hpp] and [src/utils/price.hpp]. *)

From S2P Require Import Prelude.

(** [price_t] and [qty_t] are [int_fast64_t], [time_t] is [uint_fast64_t]; all are
    64-bit on the platforms the code builds on. *)
Abbreviation price_t := Z (only parsing).
Abbreviation qty_t := Z (only parsing).
Abbreviation time_t := Z (only parsing).

Definition NULL_PRICE : price_t := 2 ^ 63 - 1.
Definition INVALID_SYMBOL_ID : Z := 2 ^ 16 - 1.
Definition DOUBLE_MULTIPLIER : Z := 100000000.

(** ** [double] conversions, in IEEE binary64 *)

Definition double : Type := spec_float.
Definition prec : Z := 53.
Definition emax : Z := 1024.

Definition double_of_Z (z : Z) : double := binary_normalize prec emax z 0 false.

(** The value a finite double truncates to, [static_cast<int64_t>] of it where that is
    in range; the cast of anything else is undefined in C++ and [None] here. *)
Definition trunc_Z (d : double) : option Z :=
  match d with
  | S754_zero _ => Some 0
  | S754_finite s m e =>
      let a := if 0 <=? e then Z.pos m * 2 ^ e else Z.pos m / 2 ^ (- e) in
      let v := if s then - a else a in
      if (- 2 ^ 63 <=? v) && (v <? 2 ^ 63) then Some v else None
  | _ => None
  end.

Definition half : double := SFdiv prec emax (double_of_Z 1) (double_of_Z 2).

Definition to_price_t (price : double) : option price_t :=
  let r := if SFltb price (double_of_Z 0) then SFopp half else half in
  trunc_Z (SFadd prec emax (SFmul prec emax price (double_of_Z DOUBLE_MULTIPLIER)) r).

Definition to_price_double (price : price_t) : double :=
  SFdiv prec emax (double_of_Z price) (double_of_Z DOUBLE_MULTIPLIER).

Definition to_qty_t (qty : double) : option qty_t :=
  let r := if SFltb qty (double_of_Z 0) then SFopp half else half in
  trunc_Z (SFadd prec emax (SFmul prec emax qty (double_of_Z DOUBLE_MULTIPLIER)) r).

Definition to_qty_double (qty : qty_t) : double :=
  SFdiv prec emax (double_of_Z qty) (double_of_Z DOUBLE_MULTIPLIER).

(** ** Decimal rendering *)

Definition digit_char (d : Z) : ascii := char_of (48 + d).
Definition digit_val (c : ascii) : Z := char_code c - 48.
Definition is_digit (c : ascii) : bool := (48 <=? char_code c) && (char_code c <=? 57).

(** [std::to_string] of an unsigned 64-bit value: 20 digits always suffice. *)
Fixpoint dec_digits (fuel : nat) (n : Z) (acc : bytes) : bytes :=
  match fuel with
  | O => acc
  | S f =>
      let acc := digit_char (n mod 10) :: acc in
      if n / 10 =? 0 then acc else dec_digits f (n / 10) acc
  end.

Definition to_string_u64 (n : Z) : bytes := dec_digits 20 n [].

(** The loop that fills [digits[7]] down to [digits[0]]. *)
Fixpoint frac_digits (n : nat) (fraction : Z) (acc : bytes) : bytes :=
  match n with
  | O => acc
  | S n => frac_digits n (fraction / 10) (digit_char (fraction mod 10) :: acc)
  end.

(** [while (significant.size() > min && significant.back() == '0') remove_suffix(1)],
    on the reversed view. *)
Fixpoint trim_rev (min : Z) (l : bytes) : bytes :=
  match l with
  | [] => []
  | c :: r =>
      if (min <? Z.of_nat (List.length l)) && (char_code c =? 48) then trim_rev min r else l
  end.

Definition trim_zeros (min : Z) (l : bytes) : bytes := rev (trim_rev min (rev l)).

Definition to_fixed_string (value : Z) (min_frac_digits : Z) : bytes :=
  let negative := value <? 0 in
  let magnitude := if negative then u64 (0 - u64 value) else u64 value in
  let fraction := magnitude mod DOUBLE_MULTIPLIER in
  let out := (if negative then str "-" else []) ++ to_string_u64 (magnitude / DOUBLE_MULTIPLIER) in
  if (fraction =? 0) && (min_frac_digits =? 0) then out
  else out ++ str "." ++ trim_zeros min_frac_digits (frac_digits 8 fraction []).

Definition to_price_string (price : price_t) : bytes := to_fixed_string price 0.
Definition to_qty_string (qty : qty_t) : bytes := to_fixed_string qty 0.

(** ** Wire decimals with exponent -9 *)

Definition DECIMAL9_PER_FIXED : Z := 1000000000 / DOUBLE_MULTIPLIER.

(** [None] is the [false] return, where [out] is not written. C++ division and
    remainder truncate towards zero. *)
Definition from_decimal9 (mantissa : Z) : option Z :=
  if Z.rem mantissa DECIMAL9_PER_FIXED =? 0
  then Some (Z.quot mantissa DECIMAL9_PER_FIXED)
  else None.

Definition to_decimal9 (fixed : Z) : Z := fixed * DECIMAL9_PER_FIXED.

(** ** 128-bit product *)

Definition mul_div_floor (a b c : Z) : Z := u64 (u128 (a * b) / c).

(** ** Venue names *)

Definition upper (c : ascii) : ascii :=
  if (97 <=? char_code c) && (char_code c <=? 122) then char_of (char_code c - 32) else c.

Fixpoint iequals_from (a b : bytes) : bool :=
  match a, b with
  | ca :: a, cb :: b => if bool_decide (upper ca = upper cb) then iequals_from a b else false
  | _, _ => true
  end.

Definition iequals (a b : bytes) : bool :=
  if negb (Nat.eqb (List.length a) (List.length b)) then false else iequals_from a b.

Inductive Venue := UNKNOWN_VENUE | CME | ICE | COINBASE | HYPERLIQUID | STOCK.

#[export] Instance Venue_eq_dec : EqDecision Venue.
Proof. solve_decision. Defined.

#[export] Instance Venue_countable : Countable Venue.
Proof.
  refine (inj_countable'
    (fun v => match v with UNKNOWN_VENUE => 0 | CME => 1 | ICE => 2 | COINBASE => 3
                         | HYPERLIQUID => 4 | STOCK => 5 end)
    (fun n => match n with 1 => CME | 2 => ICE | 3 => COINBASE | 4 => HYPERLIQUID
                         | 5 => STOCK | _ => UNKNOWN_VENUE end) _).
  by intros [].
Defined.

Definition venue_to_string (v : Venue) : bytes :=
  match v with
  | CME => str "CME"
  | ICE => str "ICE"
  | COINBASE => str "COINBASE"
  | HYPERLIQUID => str "HYPERLIQUID"
  | STOCK => str "STOCK"
  | UNKNOWN_VENUE => str "UNKNOWN"
  end.

Definition to_venue (exch : bytes) : Venue :=
  if iequals exch (str "CME") then CME
  else if iequals exch (str "ICE") then ICE
  else if iequals exch (str "COINBASE") then COINBASE
  else if iequals exch (str "HYPERLIQUID") then HYPERLIQUID
  else if iequals exch (str "STOCK") then STOCK
  else UNKNOWN_VENUE.

(** ** The reference reading of a rendered decimal *)

Definition dec_value (l : bytes) : Z := fold_left (fun v c => 10 * v + digit_val c) l 0.

(** The text before the first '.' and the text after it. *)
Fixpoint split_point (l : bytes) : bytes * option bytes :=
  match l with
  | [] => ([], None)
  | c :: r =>
      if char_code c =? 46 then ([], Some r)
      else let '(a, b) := split_point r in (c :: a, b)
  end.

Definition parse_unsigned (l : bytes) : option Z :=
  let '(ip, fp) := split_point l in
  let fp := default [] fp in
  if bool_decide (ip <> []) && forallb is_digit ip && forallb is_digit fp
       && (Z.of_nat (List.length fp) <=? 8)
  then Some (dec_value ip * DOUBLE_MULTIPLIER
             + dec_value fp * 10 ^ (8 - Z.of_nat (List.length fp)))
  else None.

Definition parse_fixed (l : bytes) : option Z :=
  match l with
  | c :: r => if char_code c =? 45 then Z.opp <$> parse_unsigned r else parse_unsigned l
  | [] => None
  end.

(** ** Digits *)

Lemma digit_char_spec d :
  0 <= d < 10 -> digit_val (digit_char d) = d /\ is_digit (digit_char d) = true.
Proof.
  intros Hd. unfold digit_val, is_digit, digit_char. rewrite char_code_of by lia.
  split; [lia|]. apply andb_true_iff; split; apply Z.leb_le; lia.
Qed.

Lemma dec_value_acc l v :
  fold_left (fun v c => 10 * v + digit_val c) l v
  = v * 10 ^ Z.of_nat (List.length l) + dec_value l.
Proof.
  unfold dec_value. revert v. induction l as [|c l IH]; intros v; cbn [fold_left List.length].
  - rewrite Z.pow_0_r. lia.
  - rewrite IH, (IH (10 * 0 + _)), Nat2Z.inj_succ, Z.pow_succ_r by lia. ring.
Qed.

Lemma dec_value_cons c l :
  dec_value (c :: l) = digit_val c * 10 ^ Z.of_nat (List.length l) + dec_value l.
Proof. unfold dec_value at 1. cbn [fold_left]. rewrite dec_value_acc. f_equal; lia. Qed.

Lemma dec_value_app l1 l2 :
  dec_value (l1 ++ l2) = dec_value l1 * 10 ^ Z.of_nat (List.length l2) + dec_value l2.
Proof. unfold dec_value at 1. rewrite fold_left_app, dec_value_acc. reflexivity. Qed.

(** A rendered number: only digits, at least one, of the given value. *)
Definition renders (l : bytes) (v : Z) : Prop :=
  l <> [] /\ forallb is_digit l = true /\ dec_value l = v.

Lemma dec_digits_spec fuel n acc :
  (0 < fuel)%nat -> 0 <= n < 10 ^ Z.of_nat fuel ->
  exists ds, dec_digits fuel n acc = ds ++ acc /\ renders ds n.
Proof.
  revert n acc. induction fuel as [|f IH]; intros n acc Hf Hn; [lia|].
  cbn [dec_digits].
  assert (Hm : 0 <= n mod 10 < 10) by (apply Z.mod_pos_bound; lia).
  destruct (digit_char_spec _ Hm) as [Hv Hd].
  destruct (n / 10 =? 0) eqn:E; bool_to_prop.
  - exists [digit_char (n mod 10)]. split; [done|]. split; [done|].
    cbn [forallb]. rewrite Hd. split; [done|].
    unfold dec_value. cbn [fold_left]. rewrite Hv.
    pose proof (Z.div_mod n 10). lia.
  - assert (0 <= n / 10) by (apply Z.div_pos; lia).
    rewrite Nat2Z.inj_succ, Z.pow_succ_r in Hn by lia.
    assert (n / 10 < 10 ^ Z.of_nat f) by (apply Z.div_lt_upper_bound; lia).
    assert ((0 < f)%nat) by (destruct f; [simpl in *; lia|lia]).
    destruct (IH (n / 10) (digit_char (n mod 10) :: acc)) as (ds & -> & Hne & Hds & Hval);
      [lia..|].
    exists (ds ++ [digit_char (n mod 10)]). split; [by rewrite <- app_assoc|].
    split; [by destruct ds|]. split.
    + rewrite forallb_app. cbn [forallb]. by rewrite Hds, Hd.
    + rewrite dec_value_app, Hval, dec_value_cons, Hv. cbn.
      change (dec_value []) with 0. pose proof (Z.div_mod n 10). lia.
Qed.

Lemma to_string_u64_renders n : 0 <= n < 2 ^ 64 -> renders (to_string_u64 n) n.
Proof.
  intros Hn. destruct (dec_digits_spec 20 n []) as (ds & Heq & Hr); [lia|simpl; lia|].
  unfold to_string_u64. rewrite Heq, app_nil_r. exact Hr.
Qed.

Lemma frac_digits_spec k f acc :
  0 <= f ->
  exists ds, frac_digits k f acc = ds ++ acc /\ List.length ds = k
             /\ forallb is_digit ds = true /\ dec_value ds = f mod 10 ^ Z.of_nat k.
Proof.
  revert f acc. induction k as [|k IH]; intros f acc Hf; cbn [frac_digits].
  - exists []. repeat split. change (10 ^ Z.of_nat 0) with 1. by rewrite Z.mod_1_r.
  - assert (Hm : 0 <= f mod 10 < 10) by (apply Z.mod_pos_bound; lia).
    destruct (digit_char_spec _ Hm) as [Hv Hd].
    destruct (IH (f / 10) (digit_char (f mod 10) :: acc)) as (ds & -> & Hl & Hds & Hval).
    { apply Z.div_pos; lia. }
    exists (ds ++ [digit_char (f mod 10)]).
    rewrite length_app, forallb_app, dec_value_app, Hval, dec_value_cons, Hv, Hds.
    cbn [forallb List.length]. rewrite Hd. repeat split.
    { by rewrite <- app_assoc. } { lia. }
    change (dec_value []) with 0. change (10 ^ Z.of_nat 1) with 10.
    change (10 ^ Z.of_nat 0) with 1.
    rewrite Nat2Z.inj_succ, Z.pow_succ_r by lia.
    rewrite (Z.rem_mul_r f 10 (10 ^ Z.of_nat k)) by lia. lia.
Qed.

(** ** Trimming *)

Lemma trim_rev_spec m l :
  exists k, l = repeat (digit_char 0) k ++ trim_rev m l
            /\ (Z.of_nat (List.length (trim_rev m l)) >= Z.min m (Z.of_nat (List.length l))).
Proof.
  induction l as [|c l IH]; [exists O; split; [done|simpl; lia]|]. cbn [trim_rev].
  destruct ((m <? Z.of_nat (List.length (c :: l))) && (char_code c =? 48)) eqn:E.
  - bool_to_prop. destruct IH as (k & Hk & Hlen). exists (S k). cbn [repeat app List.length] in *.
    split; [|lia]. f_equal; [|done].
    unfold digit_char. change (48 + 0) with 48. unfold char_code, char_of in *.
    replace 48 with (Z.of_N (N_of_ascii c)) by lia. rewrite N2Z.id.
    symmetry. apply ascii_N_embedding.
  - exists O. split; [done|lia].
Qed.

Lemma trim_zeros_spec m l :
  exists k, l = trim_zeros m l ++ repeat (digit_char 0) k
            /\ (Z.of_nat (List.length (trim_zeros m l)) >= Z.min m (Z.of_nat (List.length l))).
Proof.
  unfold trim_zeros. destruct (trim_rev_spec m (rev l)) as (k & Hk & Hlen).
  exists k. rewrite !length_rev in *. split; [|done].
  rewrite <- (rev_involutive l) at 1. rewrite Hk at 1. rewrite rev_app_distr. f_equal.
  clear. induction k as [|k IH]; [done|]. cbn [repeat rev]. rewrite IH.
  symmetry. apply (repeat_cons k (digit_char 0)).
Qed.

Lemma dec_value_zeros k : dec_value (repeat (digit_char 0) k) = 0.
Proof.
  induction k as [|k IH]; [done|]. cbn [repeat]. rewrite dec_value_cons, IH.
  destruct (digit_char_spec 0) as [-> _]; lia.
Qed.

(** ** Splitting at the point *)

Lemma split_point_digits ip rest :
  forallb is_digit ip = true ->
  split_point (ip ++ rest)
  = (ip ++ fst (split_point rest), snd (split_point rest)).
Proof.
  induction ip as [|c ip IH]; intros Hd; cbn [app split_point].
  - by destruct (split_point rest).
  - cbn [forallb] in Hd. bool_to_prop. unfold is_digit in *. bool_to_prop.
    destruct (char_code c =? 46) eqn:E; bool_to_prop; [lia|].
    rewrite IH by done. by destruct (split_point rest).
Qed.

Lemma parse_unsigned_whole ip v :
  renders ip v -> parse_unsigned ip = Some (v * DOUBLE_MULTIPLIER).
Proof.
  intros (Hne & Hd & Hv). unfold parse_unsigned.
  pose proof (split_point_digits ip [] Hd) as Hs. rewrite app_nil_r in Hs. rewrite Hs.
  cbn [split_point fst snd from_option]. rewrite app_nil_r, Hd, Hv.
  rewrite bool_decide_eq_true_2 by done. cbn. f_equal. lia.
Qed.

Lemma parse_unsigned_frac ip fp v :
  renders ip v -> forallb is_digit fp = true -> (List.length fp <= 8)%nat ->
  parse_unsigned (ip ++ str "." ++ fp)
  = Some (v * DOUBLE_MULTIPLIER + dec_value fp * 10 ^ (8 - Z.of_nat (List.length fp))).
Proof.
  intros (Hne & Hd & Hv) Hfd Hl. unfold parse_unsigned.
  rewrite (split_point_digits _ _ Hd). cbn [str list_ascii_of_string app split_point].
  change (char_code "." =? 46) with true. cbn [fst snd from_option id].
  rewrite app_nil_r, Hd, Hfd, Hv, bool_decide_eq_true_2 by done.
  cbn [andb]. destruct (Z.of_nat (List.length fp) <=? 8) eqn:E; bool_to_prop; [done|lia].
Qed.

Lemma parse_fixed_neg v l :
  parse_unsigned l = Some v -> parse_fixed (str "-" ++ l) = Some (- v).
Proof. intros H. cbn. by rewrite H. Qed.

Lemma parse_fixed_pos v ip rest :
  forallb is_digit ip = true -> ip <> [] -> parse_unsigned (ip ++ rest) = Some v ->
  parse_fixed (ip ++ rest) = Some v.
Proof.
  destruct ip as [|c ip]; [done|]. cbn [forallb]. intros Hd _ H.
  bool_to_prop. unfold is_digit in *. bool_to_prop. cbn [app parse_fixed] in *.
  destruct (char_code c =? 45) eqn:E; bool_to_prop; [lia|done].
Qed.

(** What follows the sign: the magnitude's own rendering. *)
Definition fixed_body (magnitude min : Z) : bytes :=
  let fraction := magnitude mod DOUBLE_MULTIPLIER in
  let ip := to_string_u64 (magnitude / DOUBLE_MULTIPLIER) in
  if (fraction =? 0) && (min =? 0) then ip
  else ip ++ str "." ++ trim_zeros min (frac_digits 8 fraction []).

Lemma to_fixed_string_body v m :
  to_fixed_string v m
  = if v <? 0 then str "-" ++ fixed_body (u64 (0 - u64 v)) m else fixed_body (u64 v) m.
Proof.
  unfold to_fixed_string, fixed_body. destruct (v <? 0); case_match; try done.
Qed.

Lemma fixed_body_spec w m :
  0 <= w < 2 ^ 64 ->
  exists ip rest, fixed_body w m = ip ++ rest /\ forallb is_digit ip = true /\ ip <> []
                  /\ parse_unsigned (ip ++ rest) = Some w.
Proof.
  intros Hw. unfold fixed_body.
  pose proof (Z.div_mod w DOUBLE_MULTIPLIER ltac:(done)) as Hdiv.
  pose proof (Z.mod_pos_bound w DOUBLE_MULTIPLIER ltac:(done)) as Hf.
  assert (0 <= w / DOUBLE_MULTIPLIER < 2 ^ 64).
  { split; [apply Z.div_pos; [lia|done]|].
    apply Z.le_lt_trans with w; [|lia].
    apply Z.div_le_upper_bound; [done|]. unfold DOUBLE_MULTIPLIER. lia. }
  pose proof (to_string_u64_renders _ H) as Hr.
  set (ip := to_string_u64 (w / DOUBLE_MULTIPLIER)) in *.
  set (f := w mod DOUBLE_MULTIPLIER) in *.
  destruct ((f =? 0) && (m =? 0)) eqn:E.
  - exists ip, []. bool_to_prop. rewrite app_nil_r. destruct Hr as (Hne & Hd & Hv).
    repeat split; try done. rewrite (parse_unsigned_whole ip _ (conj Hne (conj Hd Hv))).
    f_equal. lia.
  - destruct (frac_digits_spec 8 f []) as (ds & Hds & Hlen & Hdig & Hval); [lia|].
    rewrite app_nil_r in Hds. rewrite Hds.
    destruct (trim_zeros_spec m ds) as (k & Hk & _).
    set (t := trim_zeros m ds) in *.
    exists ip, (str "." ++ t). destruct Hr as (Hne & Hd & Hv). repeat split; try done.
    pose proof Hdig as Hdig'. rewrite Hk, forallb_app in Hdig'. bool_to_prop.
    pose proof (f_equal (@List.length ascii) Hk) as Hl.
    rewrite length_app, repeat_length in Hl.
    rewrite (parse_unsigned_frac ip t _ (conj Hne (conj Hd Hv))) by (done || lia).
    f_equal. rewrite Hk, dec_value_app, dec_value_zeros, repeat_length in Hval.
    replace (8 - Z.of_nat (List.length t)) with (Z.of_nat k) by lia.
    rewrite Z.mod_small in Hval by (unfold DOUBLE_MULTIPLIER in *; simpl; lia). lia.
Qed.

Lemma fixed_string_parses v m :
  - 2 ^ 63 <= v < 2 ^ 63 -> parse_fixed (to_fixed_string v m) = Some v.
Proof.
  intros Hv. rewrite to_fixed_string_body. destruct (v <? 0) eqn:E; bool_to_prop.
  - assert (Hw : u64 (0 - u64 v) = - v).
    { unfold wrap. rewrite Zminus_mod_idemp_r.
      replace (0 - v) with (- v) by lia. apply Z.mod_small. lia. }
    rewrite Hw. destruct (fixed_body_spec (- v) m) as (ip & rest & -> & _ & _ & Hp); [lia|].
    rewrite (parse_fixed_neg _ _ Hp). f_equal. lia.
  - assert (Hw : u64 v = v) by (apply wrap_small; lia).
    rewrite Hw. destruct (fixed_body_spec v m) as (ip & rest & -> & Hd & Hne & Hp); [lia|].
    by apply parse_fixed_pos.
Qed.

(** [to_fixed_string] is exact for every 64-bit fixed-point value and every
    [min_frac_digits]: reading the text back as a decimal gives the value that was
    rendered, the most negative value included, with no digit lost to trimming. *)
Lemma to_fixed_string_roundtrip v m :
  - 2 ^ 63 <= v < 2 ^ 63 -> parse_fixed (to_fixed_string v m) = Some v.
Proof. apply fixed_string_parses. Qed.

Lemma to_fixed_string_roundtrip_witness :
  parse_fixed (to_fixed_string (- 2 ^ 63) 1) = Some (- 2 ^ 63).
Proof. apply (to_fixed_string_roundtrip (- 2 ^ 63) 1). lia. Defined.

(** ** Venue names *)

Lemma iequals_from_upper a b :
  List.length a = List.length b ->
  iequals_from a b = true <-> map upper a = map upper b.
Proof.
  revert b. induction a as [|ca a IH]; intros [|cb b] Hl; try done. cbn in *.
  case_bool_decide as Hc.
  - rewrite IH by lia. split; [intros ->; congruence|congruence].
  - split; congruence.
Qed.

Lemma iequals_upper a b : iequals a b = true <-> map upper a = map upper b.
Proof.
  unfold iequals. destruct (Nat.eqb_spec (List.length a) (List.length b)) as [Hl|Hl]; cbn.
  - by apply iequals_from_upper.
  - split; [done|]. intros H%(f_equal (@List.length ascii)). rewrite !length_map in H. done.
Qed.

Lemma iequals_iff_not a b : iequals a b = false <-> map upper a <> map upper b.
Proof. rewrite <- iequals_upper. destruct (iequals a b); split; congruence. Qed.

Definition canonical (v : Venue) : bytes := map upper (venue_to_string v).

Lemma to_venue_cases s :
  let v := to_venue s in
  (v <> UNKNOWN_VENUE -> map upper s = venue_to_string v)
  /\ (v = UNKNOWN_VENUE ->
      forall w, w <> UNKNOWN_VENUE -> map upper s <> venue_to_string w).
Proof.
  cbv zeta. unfold to_venue.
  repeat match goal with
  | |- context [if iequals s ?t then _ else _] =>
      let E := fresh "E" in destruct (iequals s t) eqn:E;
      [apply iequals_upper in E|apply iequals_iff_not in E]
  end; cbn [map] in *; split; try done; intros _; try done.
  intros [] Hw; done.
Qed.

(** [to_venue] accepts exactly the case variants of the canonical name:
    it returns a named venue [v] if and only if the input, upper-cased in ASCII, is the
    name [to_string v] prints. In particular it inverts [to_string]. *)
Lemma to_venue_spec (s : bytes) (v : Venue) (Hv : v <> UNKNOWN_VENUE) :
  to_venue s = v <-> map upper s = venue_to_string v.
Proof.
  destruct (to_venue_cases s) as [H1 H2]. split.
  - intros <-. by apply H1.
  - intros Hs. destruct (decide (to_venue s = UNKNOWN_VENUE)) as [Hu|Hu].
    + exfalso. by apply (H2 Hu v).
    + apply H1 in Hu. rewrite Hs in Hu. clear -Hu Hv.
      destruct v, (to_venue s); done.
Qed.

Lemma to_venue_spec_witness : to_venue (str "Coinbase") = COINBASE.
Proof. apply (to_venue_spec (str "Coinbase") COINBASE); [done|reflexivity]. Defined.

(** ** Arithmetic helpers *)

(** [from_decimal9] and [to_decimal9] are mutually inverse, and
    [from_decimal9] refuses exactly the mantissas with a digit at 1e-9. *)
Lemma from_decimal9_spec m f : from_decimal9 m = Some f <-> m = to_decimal9 f.
Proof.
  unfold from_decimal9, to_decimal9. change DECIMAL9_PER_FIXED with 10.
  destruct (Z.rem m 10 =? 0) eqn:E; bool_to_prop; split; intros H.
  - simplify_eq. pose proof (Z.quot_rem' m 10). lia.
  - subst. f_equal. by rewrite Z.quot_mul.
  - done.
  - subst. exfalso. apply E. by rewrite Z.rem_mul.
Qed.

Lemma mul_div_floor_value a b c :
  0 <= a < 2 ^ 64 -> 0 <= b <= c -> 0 < c < 2 ^ 64 ->
  mul_div_floor a b c = a * b / c /\ 0 <= a * b / c <= a.
Proof.
  intros Ha Hb Hc. assert (Hp : 0 <= a * b / c <= a).
  { split; [apply Z.div_pos; nia|]. apply Z.div_le_upper_bound; nia. }
  split; [|done]. unfold mul_div_floor. rewrite (wrap_small 128).
  - apply wrap_small. lia.
  - split; [nia|]. change (2 ^ 128) with (2 ^ 64 * 2 ^ 64). nia.
Qed.

(** On 64-bit operands with [b <= c] and [c] positive, [mul_div_floor] is
    the exact floor of [a * b / c] and never exceeds [a], so nothing is lost either in
    the 128-bit product or in the narrowing to 64 bits. *)
Lemma mul_div_floor_exact a b c :
  0 <= a < 2 ^ 64 -> 0 <= b <= c -> 0 < c < 2 ^ 64 ->
  mul_div_floor a b c = a * b / c /\ 0 <= a * b / c <= a.
Proof. apply mul_div_floor_value. Qed.

Lemma mul_div_floor_exact_witness :
  mul_div_floor 10 3 7 = 10 * 3 / 7 /\ 0 <= 10 * 3 / 7 <= 10.
Proof. apply (mul_div_floor_exact 10 3 7); lia. Defined.
