(* ===== verification/FixedString.v ===== *)
(** * Inline fixed-width strings

    Models [src/utils/fixed_string.hpp]: [copy_wire_field] and the [fixed_string<N>]
    buffer that orders, symbols and wire frames hold their identity fields in. *)

From S2P Require Import Prelude.

(** The [char[N]] buffer itself. *)
Definition fixed_string : Type := bytes.

(** [copy_wire_field(dst, src)] for a [char[N]] destination: the new buffer and the
    "did not fit" result. *)
Definition copy_wire_field (N : nat) (src : bytes) : fixed_string * bool :=
  let len := Nat.min (List.length src) (N - 1) in
  (take len src ++ repeat NUL (N - len), Nat.ltb len (List.length src)).

Definition assign (N : nat) (value : bytes) : fixed_string := fst (copy_wire_field N value).

Definition clear (N : nat) : fixed_string := repeat NUL N.

(** [strnlen]: the bytes before the first NUL, at most the whole buffer. *)
Fixpoint view (data : fixed_string) : bytes :=
  match data with
  | [] => []
  | c :: r => if bool_decide (c = NUL) then [] else c :: view r
  end.

Definition size (data : fixed_string) : nat := List.length (view data).

(** [data_[0] == '\0']. *)
Definition empty (data : fixed_string) : bool :=
  match data with
  | [] => true
  | c :: _ => bool_decide (c = NUL)
  end.

(** The two equalities: against a view, and [memcmp] of two buffers. *)
Definition eq_view (lhs : fixed_string) (rhs : bytes) : bool := bytes_eqb (view lhs) rhs.
Definition eq_buffer (lhs rhs : fixed_string) : bool := bytes_eqb lhs rhs.

(** [StringViewHash]/[StringViewEq] key a map by this. *)
Definition string_key (data : fixed_string) : bytes := view data.

(** ** Properties *)

Definition nul_free (s : bytes) : Prop := Forall (fun c => c <> NUL) s.

Lemma view_zeros k : view (repeat NUL k) = [].
Proof. by destruct k. Qed.

Lemma view_app_nul_free s k : nul_free s -> view (s ++ repeat NUL k) = s.
Proof.
  induction 1 as [|c s Hc _ IH]; cbn [app view]; [apply view_zeros|].
  by rewrite bool_decide_eq_false_2, IH by done.
Qed.

Lemma assign_length N value : (1 < N)%nat -> List.length (assign N value) = N.
Proof.
  intros HN. unfold assign, copy_wire_field. cbn [fst].
  rewrite length_app, length_take, repeat_length. lia.
Qed.

Lemma assign_last N value : (1 < N)%nat -> last (assign N value) = Some NUL.
Proof.
  intros HN. unfold assign, copy_wire_field. cbn [fst].
  set (len := Nat.min _ _). destruct (N - len)%nat as [|k] eqn:E; [lia|].
  cbn [repeat]. rewrite repeat_cons, app_assoc. apply last_snoc.
Qed.

Lemma nul_free_take n s : nul_free s -> nul_free (take n s).
Proof. apply Forall_take. Qed.

Lemma assign_view N value :
  (1 < N)%nat -> nul_free value -> view (assign N value) = take (N - 1) value.
Proof.
  intros HN Hs. unfold assign, copy_wire_field. cbn [fst].
  rewrite view_app_nul_free by by apply nul_free_take.
  destruct (decide (List.length value <= N - 1)%nat).
  - rewrite !take_ge by lia. done.
  - f_equal. lia.
Qed.

Lemma empty_spec data : empty data = true <-> view data = [].
Proof. destruct data as [|c r]; cbn; [done|]. by case_bool_decide. Qed.

Lemma nul_free_decide s : {nul_free s} + {~ nul_free s}.
Proof. unfold nul_free. apply (decide (Forall (fun c => c <> NUL) s)). Defined.

(** A wire field is always written whole and NUL-terminated; a value that
    fits is read back unchanged and reported as fitting, a longer one keeps exactly its
    first [N - 1] characters and is reported as truncated. *)
Lemma copy_wire_field_spec N src :
  (1 < N)%nat -> nul_free src ->
  let '(dst, truncated) := copy_wire_field N src in
  List.length dst = N /\ last dst = Some NUL
  /\ view dst = take (N - 1) src
  /\ (truncated = true <-> (N - 1 < List.length src)%nat)
  /\ (truncated = false -> view dst = src).
Proof.
  intros HN Hs. pose proof (assign_length N src HN) as Hl.
  pose proof (assign_last N src HN) as Hlast. pose proof (assign_view N src HN Hs) as Hv.
  unfold assign in *. destruct (copy_wire_field N src) as [dst b] eqn:E.
  cbn [fst] in *. unfold copy_wire_field in E. simplify_eq.
  repeat split; try done.
  - rewrite Nat.ltb_lt. lia.
  - rewrite Nat.ltb_lt. lia.
  - rewrite Nat.ltb_ge, Hv. intros. apply take_ge. lia.
Qed.

Lemma copy_wire_field_spec_witness :
  let '(dst, truncated) := copy_wire_field 4 (str "BTC-USD") in
  List.length dst = 4%nat /\ last dst = Some NUL
  /\ view dst = take 3 (str "BTC-USD")
  /\ (truncated = true <-> (4 - 1 < List.length (str "BTC-USD"))%nat)
  /\ (truncated = false -> view dst = str "BTC-USD").
Proof.
  apply (copy_wire_field_spec 4 (str "BTC-USD")); [lia|].
  unfold nul_free. apply (bool_decide_unpack _). reflexivity.
Defined.

(** Byte-wise equality of two assigned buffers agrees with equality of the
    text they show, so a map keyed by a buffer and looked up by a view can never
    disagree with [memcmp]. *)
Lemma assign_eq_iff_view N a b :
  (1 < N)%nat -> nul_free a -> nul_free b ->
  eq_buffer (assign N a) (assign N b) = true
  <-> eq_view (assign N a) (view (assign N b)) = true.
Proof.
  intros HN Ha Hb. unfold eq_buffer, eq_view. rewrite !bytes_eqb_eq. split; [by intros ->|].
  rewrite !assign_view by done. intros Ht.
  assert (Hn : forall s, assign N s = take (N - 1) s ++ repeat NUL (N - Nat.min (List.length s) (N - 1))).
  { intros s. unfold assign, copy_wire_field. cbn [fst]. f_equal.
    destruct (decide (List.length s <= N - 1)%nat); [rewrite !take_ge by lia|f_equal]; done || lia. }
  rewrite !Hn, Ht. f_equal. f_equal.
  pose proof (f_equal (@List.length ascii) Ht) as Hl. rewrite !length_take in Hl. lia.
Qed.

Lemma assign_eq_iff_view_witness :
  eq_buffer (assign 37 (str "a")) (assign 37 (str "b")) = true
  <-> eq_view (assign 37 (str "a")) (view (assign 37 (str "b"))) = true.
Proof.
  apply (assign_eq_iff_view 37 (str "a") (str "b")); [lia| |];
    unfold nul_free; apply (bool_decide_unpack _); reflexivity.
Defined.
