(* ===== verification/Timestamp.v ===== *)
(** * Timestamps on the wire

    Models [src/utils/timestamp.hpp]: the ISO 8601 and the heartbeat renderings. A
    [system_clock::time_point] is its 64-bit count of nanoseconds; the calendar is the one
    [std::chrono] and [gmtime] define, by Hinnant's [civil_from_days]. The reader of a
    timestamp is the specification: what was rendered to nine digits reads back. *)

From S2P Require Import Prelude Types.

Definition NANOS : Z := 1000000000.
Definition SECONDS_PER_DAY : Z := 86400.

(** ** The civil calendar *)

Record Civil := mkCivil {
  cv_year : Z;
  cv_month : Z;
  cv_day : Z
}.

Definition DAYS_PER_ERA : Z := 146097.
(** Days from 0000-03-01 to the epoch. *)
Definition EPOCH_SHIFT : Z := 719468.

(** A day of a 400-year era that starts on the first of March. *)
Definition civil_of_era_day (doe : Z) : Civil :=
  let yoe := (doe - doe / 1460 + doe / 36524 - doe / 146096) / 365 in
  let doy := doe - (365 * yoe + yoe / 4 - yoe / 100) in
  let mp := (5 * doy + 2) / 153 in
  let m := if mp <? 10 then mp + 3 else mp - 9 in
  mkCivil (if m <=? 2 then yoe + 1 else yoe) m (doy - (153 * mp + 2) / 5 + 1).

Definition civil_from_days (days : Z) : Civil :=
  let z := days + EPOCH_SHIFT in
  let c := civil_of_era_day (z mod DAYS_PER_ERA) in
  mkCivil (cv_year c + 400 * (z / DAYS_PER_ERA)) (cv_month c) (cv_day c).

(** ** Rendering *)

(** [{:0wd}]: the zeros go between the sign and the digits. *)
Definition padded (w : nat) (n : Z) : bytes :=
  let sign := if n <? 0 then str "-" else [] in
  let s := to_string_u64 (Z.abs n) in
  sign ++ repeat (digit_char 0) (w - List.length sign - List.length s) ++ s.

(** [%Y-%m-%d] and [%H:%M:%S], around the separator of the two. *)
Definition render_seconds (sep : bytes) (seconds : Z) : bytes :=
  let c := civil_from_days (seconds / SECONDS_PER_DAY) in
  let s := seconds mod SECONDS_PER_DAY in
  padded 4 (cv_year c) ++ str "-" ++ padded 2 (cv_month c) ++ str "-" ++ padded 2 (cv_day c) ++ sep
  ++ padded 2 (s / 3600) ++ str ":" ++ padded 2 (s / 60 mod 60) ++ str ":" ++ padded 2 (s mod 60).

(** [format_timestamp_iso8601(tp, num_subsecond_digits)]. *)
Definition format_time_point (tp num_subsecond_digits : Z) : bytes :=
  let seconds := tp / NANOS in
  let sub := tp mod NANOS in
  render_seconds (str "T") seconds ++
  (if 6 <? num_subsecond_digits then str "." ++ padded 9 sub
   else if 3 <? num_subsecond_digits then str "." ++ padded 6 (sub / 1000)
   else if 0 <? num_subsecond_digits then str "." ++ padded 3 (sub / 1000000)
   else []) ++ str "Z".

Definition YEAR_2100_MS : Z := 4102444800000.
Definition YEAR_2100_US : Z := 4102444800000000.

(** The unit is guessed from the magnitude. *)
Definition time_point_of (timestamp : Z) : Z :=
  if timestamp <? YEAR_2100_MS then timestamp * 1000000
  else if timestamp <? YEAR_2100_US then timestamp * 1000
  else i64 timestamp.

(** [format_timestamp_iso8601(timestamp, num_subsecond_digits)] of a [uint64_t]. *)
Definition format_timestamp_iso8601 (timestamp num_subsecond_digits : Z) : bytes :=
  format_time_point (time_point_of timestamp) num_subsecond_digits.

(** [start_time] is when the function was first called; durations truncate. *)
Definition format_heatbeat_timestamp (start_time now : Z) : bytes :=
  let elapsed := now - start_time in
  render_seconds (str " ") (now / NANOS) ++ str "." ++ padded 9 (Z.rem now NANOS) ++ str " +0000 UTC m=+"
  ++ padded 0 (Z.quot elapsed NANOS) ++ str "." ++ padded 9 (Z.rem elapsed NANOS).

(** ** Reading one back *)

Fixpoint read_digits (n : nat) (acc : Z) (l : bytes) : option (Z * bytes) :=
  match n, l with
  | O, _ => Some (acc, l)
  | S n, c :: l => if is_digit c then read_digits n (acc * 10 + digit_val c) l else None
  | S _, [] => None
  end.

Definition read_char (c : ascii) (l : bytes) : option bytes :=
  match l with x :: l => if bool_decide (x = c) then Some l else None | [] => None end.

Definition days_from_civil (c : Civil) : Z :=
  let y := if cv_month c <=? 2 then cv_year c - 1 else cv_year c in
  let yoe := y mod 400 in
  let mp := if 2 <? cv_month c then cv_month c - 3 else cv_month c + 9 in
  let doy := (153 * mp + 2) / 5 + cv_day c - 1 in
  365 * yoe + yoe / 4 - yoe / 100 + doy + DAYS_PER_ERA * (y / 400) - EPOCH_SHIFT.

Definition parse_seconds (sep : ascii) (l : bytes) : option (Z * bytes) :=
  '(year, l) ← read_digits 4 0 l; l ← read_char "-" l;
  '(month, l) ← read_digits 2 0 l; l ← read_char "-" l;
  '(day, l) ← read_digits 2 0 l; l ← read_char sep l;
  '(h, l) ← read_digits 2 0 l; l ← read_char ":" l;
  '(m, l) ← read_digits 2 0 l; l ← read_char ":" l;
  '(s, l) ← read_digits 2 0 l;
  Some (days_from_civil (mkCivil year month day) * SECONDS_PER_DAY + h * 3600 + m * 60 + s, l).

Definition parse_nanos (l : bytes) : option Z :=
  '(seconds, l) ← parse_seconds "T" l; l ← read_char "." l;
  '(sub, l) ← read_digits 9 0 l; l ← read_char "Z" l;
  match l with [] => Some (seconds * NANOS + sub) | _ => None end.

(** ** What is rendered reads back *)

(** A day of an era is a day of one of its years, counted from the first of March. *)
Lemma year_of_era doe : 0 <= doe < DAYS_PER_ERA ->
  let yoe := (doe - doe / 1460 + doe / 36524 - doe / 146096) / 365 in
  0 <= yoe < 400 /\ 0 <= doe - (365 * yoe + yoe / 4 - yoe / 100) <= 365.
Proof.
  intros Hd yoe. unfold yoe, DAYS_PER_ERA in *.
  split; Z.to_euclidean_division_equations; lia.
Qed.

Lemma month_of_year doy : 0 <= doy <= 365 ->
  let mp := (5 * doy + 2) / 153 in 0 <= mp <= 11 /\ 1 <= doy - (153 * mp + 2) / 5 + 1 <= 31.
Proof. intros Hd mp. unfold mp. split; Z.to_euclidean_division_equations; lia. Qed.

Lemma days_of_era_day doe : 0 <= doe < DAYS_PER_ERA ->
  let c := civil_of_era_day doe in
  let y := if cv_month c <=? 2 then cv_year c - 1 else cv_year c in
  0 <= y < 400 /\ days_from_civil c = doe - EPOCH_SHIFT /\ 1 <= cv_month c <= 12 /\ 1 <= cv_day c <= 31.
Proof.
  intros Hd. destruct (year_of_era doe Hd) as [Hy Hr]. cbv zeta. unfold civil_of_era_day, days_from_civil.
  set (yoe := (_ - _) / 365) in *. set (doy := doe - (365 * yoe + _ - _)) in *. destruct (month_of_year doy Hr) as [Hm Hday]. cbv zeta in Hday |- *.
  set (mp := (5 * doy + 2) / 153) in *. cbn [cv_year cv_month cv_day].
  assert (E : forall m, m = (if mp <? 10 then mp + 3 else mp - 9) ->
    1 <= m <= 12 /\ (if 2 <? m then m - 3 else m + 9) = mp
    /\ (if m <=? 2 then (if m <=? 2 then yoe + 1 else yoe) - 1 else (if m <=? 2 then yoe + 1 else yoe)) = yoe).
  { intros m ->. repeat case_test; bool_to_prop; lia. }
  destruct (E _ eq_refl) as (E1 & E2 & E3). rewrite E2, E3, (Z.mod_small yoe 400), (Z.div_small yoe 400) by done.
  repeat split; try done; lia.
Qed.

Lemma days_era_shift y m d e :
  days_from_civil (mkCivil (y + 400 * e) m d) = days_from_civil (mkCivil y m d) + DAYS_PER_ERA * e.
Proof.
  unfold days_from_civil. cbn [cv_year cv_month cv_day]. generalize DAYS_PER_ERA EPOCH_SHIFT. intros D S.
  assert (E : (if m <=? 2 then y + 400 * e - 1 else y + 400 * e) = (if m <=? 2 then y - 1 else y) + e * 400) by (case_test; lia).
  rewrite E, Z_mod_plus_full, Z_div_plus_full by lia. lia.
Qed.

Lemma days_from_civil_from_days days : days_from_civil (civil_from_days days) = days.
Proof.
  unfold civil_from_days. set (z := days + EPOCH_SHIFT). rewrite days_era_shift.
  destruct (days_of_era_day (z mod DAYS_PER_ERA)) as (_ & Hd & _); [by apply Z.mod_pos_bound|].
  destruct (civil_of_era_day (z mod DAYS_PER_ERA)) as [y m d]. cbn [cv_year cv_month cv_day]. rewrite Hd.
  assert (Ez : z = DAYS_PER_ERA * (z / DAYS_PER_ERA) + z mod DAYS_PER_ERA) by (by apply Z.div_mod). unfold z in *. lia.
Qed.

(** *** Digits *)

Lemma dec_digits_length fuel n : forall acc w, (0 < w)%nat -> 0 <= n < 10 ^ Z.of_nat w ->
  (List.length (dec_digits fuel n acc) <= w + List.length acc)%nat.
Proof.
  revert n. induction fuel as [|f IH]; intros n acc w Hw Hn; cbn [dec_digits]; [lia|]. case_test; bool_to_prop; [cbn; lia|].
  destruct w as [|w]; [lia|]. rewrite Nat2Z.inj_succ, Z.pow_succ_r in Hn by lia.
  assert (0 <= n / 10 < 10 ^ Z.of_nat w) by (split; [apply Z.div_pos; lia|apply Z.div_lt_upper_bound; lia]).
  destruct w as [|w]; [cbn in *; lia|]. etrans; [apply (IH (n / 10) _ (S w)); [lia|done]|cbn; lia].
Qed.

(** [w] digits of value [n]. *)
Definition digits_of (w : nat) (n : Z) (l : bytes) : Prop :=
  List.length l = w /\ forallb is_digit l = true /\ dec_value l = n.

Lemma zeros_value k : forallb is_digit (repeat (digit_char 0) k) = true /\ dec_value (repeat (digit_char 0) k) = 0.
Proof.
  induction k as [|k [IH1 IH2]]; [done|]. cbn [repeat]. split; [done|]. by rewrite dec_value_cons, IH2.
Qed.

Lemma padded_digits w n : (0 < w)%nat -> 0 <= n < 10 ^ Z.of_nat w -> n < 2 ^ 64 -> digits_of w n (padded w n).
Proof.
  intros Hw Hn Hn'. unfold padded. rewrite (proj2 (Z.ltb_ge n 0)), Z.abs_eq by lia.
  destruct (to_string_u64_renders n) as (_ & Hd & Hv); [lia|].
  pose proof (dec_digits_length 20 n [] w Hw Hn) as Hl. fold (to_string_u64 n) in Hl. cbn [List.length] in Hl |- *.
  destruct (zeros_value (w - 0 - List.length (to_string_u64 n))) as [Z1 Z2]. cbn [app]. split; [|split].
  - rewrite length_app, repeat_length. lia.
  - by rewrite forallb_app, Z1, Hd.
  - rewrite dec_value_app, Z2, Hv. lia.
Qed.

Lemma read_digits_of w n l rest : digits_of w n l -> forall acc,
  read_digits w acc (l ++ rest) = Some (acc * 10 ^ Z.of_nat w + n, rest).
Proof.
  revert w n. induction l as [|c l IH]; intros w n (Hl & Hd & Hv) acc; destruct w as [|w]; try done; cbn [app read_digits].
  - do 2 f_equal. cbn in Hv |- *. lia.
  - cbn [forallb] in Hd. apply andb_true_iff in Hd as [Hc Hd]. rewrite Hc. cbn in Hl. injection Hl as Hl.
    rewrite dec_value_cons, Hl in Hv. rewrite (IH w (dec_value l)) by done. do 2 f_equal.
    rewrite Nat2Z.inj_succ, Z.pow_succ_r by lia. lia.
Qed.

Lemma read_padded w n rest : (0 < w)%nat -> 0 <= n < 10 ^ Z.of_nat w -> n < 2 ^ 64 ->
  read_digits w 0 (padded w n ++ rest) = Some (n, rest).
Proof. intros Hw Hn Hn'. rewrite (read_digits_of w n) by by apply padded_digits. do 2 f_equal. Qed.

Lemma read_char_same c l : read_char c (c :: l) = Some l.
Proof. unfold read_char. by rewrite bool_decide_eq_true_2. Qed.

(** Years of four digits. *)
Lemma civil_fields days : -719468 <= days < 2786860 ->
  let c := civil_from_days days in 0 <= cv_year c < 10000 /\ 1 <= cv_month c <= 12 /\ 1 <= cv_day c <= 31.
Proof.
  cbv zeta. intros Hd. unfold civil_from_days. set (z := days + EPOCH_SHIFT).
  destruct (days_of_era_day (z mod DAYS_PER_ERA)) as (Hy & _ & Hm & Hday); [by apply Z.mod_pos_bound|].
  cbn [cv_year cv_month cv_day]. split; [|done].
  assert (Hz : 0 <= z < 3506328) by (unfold z, EPOCH_SHIFT; lia).
  assert (He : 0 <= z / DAYS_PER_ERA <= 23) by (unfold DAYS_PER_ERA; Z.to_euclidean_division_equations; lia).
  destruct (cv_month _ <=? 2); lia.
Qed.

Lemma render_seconds_reads sep seconds rest : -719468 * SECONDS_PER_DAY <= seconds < 2786860 * SECONDS_PER_DAY ->
  parse_seconds sep (render_seconds [sep] seconds ++ rest) = Some (seconds, rest).
Proof.
  intros Hs. unfold render_seconds, parse_seconds. set (days := seconds / SECONDS_PER_DAY).
  assert (Hdays : -719468 <= days < 2786860) by (unfold days, SECONDS_PER_DAY in *; Z.to_euclidean_division_equations; lia).
  destruct (civil_fields days Hdays) as (Hy & Hm & Hd). pose proof (days_from_civil_from_days days) as Hback.
  destruct (civil_from_days days) as [y m d]. cbn [cv_year cv_month cv_day] in *.
  pose proof (Z.mod_pos_bound seconds SECONDS_PER_DAY eq_refl) as Hr. set (s := seconds mod SECONDS_PER_DAY) in *.
  unfold SECONDS_PER_DAY in Hr.
  assert (Hf : 0 <= s / 3600 < 100 /\ 0 <= s / 60 mod 60 < 100 /\ 0 <= s mod 60 < 100
    /\ s / 3600 * 3600 + s / 60 mod 60 * 60 + s mod 60 = s) by (Z.to_euclidean_division_equations; lia).
  destruct Hf as (F1 & F2 & F3 & F4). cbn [str list_ascii_of_string].
  repeat (rewrite <- app_assoc || rewrite <- app_comm_cons || rewrite app_nil_l).
  repeat (rewrite read_padded by (cbn; lia); cbn [mbind option_bind]; rewrite ?read_char_same; cbn [mbind option_bind]).
  rewrite Hback. do 2 f_equal. pose proof (Z.div_mod seconds SECONDS_PER_DAY ltac:(done)). lia.
Qed.

(** A time point rendered to nine digits reads back. *)
Lemma time_point_reads tp : -719468 * SECONDS_PER_DAY * NANOS <= tp < 2786860 * SECONDS_PER_DAY * NANOS ->
  parse_nanos (format_time_point tp 9) = Some tp.
Proof.
  intros Ht. unfold format_time_point, parse_nanos. cbn [Z.ltb Z.compare Pos.compare Pos.compare_cont].
  rewrite (render_seconds_reads "T" (tp / NANOS)) by (unfold SECONDS_PER_DAY, NANOS in *; Z.to_euclidean_division_equations; lia).
  cbn [mbind option_bind app str list_ascii_of_string]. rewrite read_char_same. cbn [mbind option_bind].
  pose proof (Z.mod_pos_bound tp NANOS eq_refl). unfold NANOS in *.
  rewrite read_padded by (cbn; lia). cbn [mbind option_bind]. rewrite read_char_same. cbn [mbind option_bind].
  f_equal. pose proof (Z.div_mod tp 1000000000 ltac:(done)). lia.
Qed.

(** A venue time in nanoseconds, from 18 February 1970 until the clock overflows in 2262. *)
Lemma nanoseconds_read timestamp : YEAR_2100_US <= timestamp < 2 ^ 63 ->
  parse_nanos (format_timestamp_iso8601 timestamp 9) = Some timestamp.
Proof.
  intros Ht. unfold format_timestamp_iso8601, time_point_of, YEAR_2100_MS, YEAR_2100_US in *. rewrite !(proj2 (Z.ltb_ge _ _)) by lia.
  rewrite swrap_small by lia. apply time_point_reads. unfold SECONDS_PER_DAY, NANOS. lia.
Qed.

(** The heuristic misreads a count of nanoseconds below [YEAR_2100_US]: one second after the
    epoch renders as a day of January 1970 a thousand times later. *)
Lemma small_nanoseconds_misread :
  parse_nanos (format_timestamp_iso8601 1000000000 9) = Some 1000000000000000.
Proof. vm_compute. reflexivity. Qed.

(** The time of a level or of a message, a count of nanoseconds from 18 February 1970 until
    the clock overflows in 2262, is rendered to a text that reads back as the same count:
    date, time of day and nine digits. *)
Lemma timestamps_read_back timestamp : YEAR_2100_US <= timestamp < 2 ^ 63 ->
  parse_nanos (format_timestamp_iso8601 timestamp 9) = Some timestamp.
Proof. apply nanoseconds_read. Qed.

Lemma timestamps_read_back_witness :
  parse_nanos (format_timestamp_iso8601 1709164800123456789 9) = Some 1709164800123456789
  /\ format_timestamp_iso8601 1709164800123456789 9 = str "2024-02-29T00:00:00.123456789Z".
Proof. split; [apply (timestamps_read_back 1709164800123456789); unfold YEAR_2100_US; lia|vm_compute; reflexivity]. Defined.
