(* ===== verification/RingBuffer.v ===== *)
(** * The power-of-two ring buffer

    Models [src/utils/ring_buffer.hpp]. Positions run free in [size_t] and are masked
    on access; the storage of [new T[capacity]] starts with arbitrary contents. *)

From S2P Require Import Prelude.

Section RingBuffer.
Context {T : Type}.

Record RingBuffer := mkRing {
  rb_capacity : Z;
  rb_buffer : list T;
  rb_head : Z;
  rb_tail : Z;
  rb_mask : Z
}.

#[export] Instance RingBuffer_eta : Eta RingBuffer :=
  fun r => mkRing (rb_capacity r) (rb_buffer r) (rb_head r) (rb_tail r) (rb_mask r).

(** The constructor; [storage] is what [new T[capacity]] returned. *)
Definition new_ring (capacity : Z) (storage : list T) : RingBuffer :=
  mkRing capacity storage 0 0 (capacity - 1).

Definition slot_of (r : RingBuffer) (pos : Z) : nat := Z.to_nat (Z.land pos (rb_mask r)).

Definition rb_size (r : RingBuffer) : Z := u64 (rb_head r - rb_tail r).
Definition isEmpty (r : RingBuffer) : bool := rb_head r =? rb_tail r.
Definition isFull (r : RingBuffer) : bool := rb_size r =? rb_capacity r.

(** [buffer_[head_++ & mask_] = item]. *)
Definition store (r : RingBuffer) (item : T) : RingBuffer :=
  r <| rb_buffer := <[slot_of r (rb_head r) := item]> (rb_buffer r) |>
    <| rb_head := u64 (rb_head r + 1) |>.

Definition push (r : RingBuffer) (item : T) : RingBuffer :=
  let r := store r item in
  if Z.land (rb_head r) (rb_mask r) =? Z.land (rb_tail r) (rb_mask r)
  then r <| rb_tail := u64 (rb_tail r + 1) |>
  else r.

(** [None] when the buffer is full. *)
Definition try_push (r : RingBuffer) (item : T) : option RingBuffer :=
  if rb_size r =? rb_capacity r then None else Some (store r item).

Definition pop_front (r : RingBuffer) : option (option T * RingBuffer) :=
  if isEmpty r then None
  else Some (rb_buffer r !! slot_of r (rb_tail r), r <| rb_tail := u64 (rb_tail r + 1) |>).

Definition pop_back (r : RingBuffer) : option (option T * RingBuffer) :=
  if isEmpty r then None
  else
    let r := r <| rb_head := u64 (rb_head r - 1) |> in
    Some (rb_buffer r !! slot_of r (rb_head r), r).

Definition front (r : RingBuffer) : option T := rb_buffer r !! slot_of r (rb_tail r).
Definition back (r : RingBuffer) : option T := rb_buffer r !! slot_of r (u64 (rb_head r - 1)).

(** [operator[]]: null past the end. *)
Definition ring_at (r : RingBuffer) (index : Z) : option T :=
  if rb_size r <=? index then None
  else rb_buffer r !! slot_of r (u64 (rb_tail r + index)).

(** What a reader walking [0 .. size()) sees, oldest first. *)
Definition contents (r : RingBuffer) : list T :=
  omap (fun i => ring_at r (Z.of_nat i)) (seq 0 (Z.to_nat (rb_size r))).

(** ** Well-formedness and the abstract queue *)

Definition pow2_capacity (c : Z) : Prop := exists k, 0 <= k < 64 /\ c = 2 ^ k.

Record ring_wf (r : RingBuffer) : Prop := {
  wf_capacity : pow2_capacity (rb_capacity r);
  wf_mask : rb_mask r = rb_capacity r - 1;
  wf_buffer : Z.of_nat (List.length (rb_buffer r)) = rb_capacity r;
  wf_head : 0 <= rb_head r < 2 ^ 64;
  wf_tail : 0 <= rb_tail r < 2 ^ 64;
  wf_size : rb_size r <= rb_capacity r
}.

Lemma slot_of_mod r pos :
  ring_wf r -> slot_of r pos = Z.to_nat (pos mod rb_capacity r).
Proof.
  intros [(k & Hk & Hc) Hm _ _ _ _]. unfold slot_of.
  rewrite Hm, Hc.
  replace (2 ^ k - 1) with (Z.ones k) by (rewrite Z.ones_equiv; lia).
  rewrite Z.land_ones by lia. done.
Qed.

Lemma u64_mod_capacity r z : ring_wf r -> u64 z mod rb_capacity r = z mod rb_capacity r.
Proof.
  intros [(k & Hk & Hc) _ _ _ _ _]. rewrite Hc. unfold wrap.
  rewrite (Z.mod_mod_divide z (2 ^ 64) (2 ^ k)); [done|].
  exists (2 ^ (64 - k)). rewrite <- Z.pow_add_r by lia. f_equal; lia.
Qed.

Lemma capacity_pos r : ring_wf r -> 0 < rb_capacity r.
Proof. intros [(k & Hk & ->) _ _ _ _ _]. lia. Qed.

Lemma slot_of_lt r pos : ring_wf r -> (slot_of r pos < List.length (rb_buffer r))%nat.
Proof.
  intros H. rewrite slot_of_mod by done. pose proof (capacity_pos r H).
  pose proof (Z.mod_pos_bound pos (rb_capacity r)). destruct H. lia.
Qed.

(** The position of the [i]-th entry, relative to the tail. *)
Lemma head_as_tail r :
  ring_wf r -> u64 (rb_tail r + rb_size r) = rb_head r.
Proof.
  intros H. destruct H. unfold rb_size, wrap in *.
  rewrite Zplus_mod_idemp_r. replace (rb_tail r + (rb_head r - rb_tail r)) with (rb_head r) by lia.
  by apply Z.mod_small.
Qed.

Lemma size_range r : 0 <= rb_size r < 2 ^ 64.
Proof. apply wrap_range. lia. Qed.

Lemma contents_lookup r i :
  ring_wf r -> 
  contents r !! i = if bool_decide (Z.of_nat i < rb_size r) then ring_at r (Z.of_nat i) else None.
Proof.
  intros H. unfold contents.
  assert (Hall : forall n, (n <= Z.to_nat (rb_size r))%nat ->
    omap (fun i => ring_at r (Z.of_nat i)) (seq 0 n) !! i
    = if bool_decide (i < n)%nat then ring_at r (Z.of_nat i) else None).
  { intros n. induction n as [|n IH]; intros Hn; [done|].
    rewrite seq_S, omap_app. cbn [omap list_omap Nat.add].
    assert (Hlen : List.length (omap (fun i => ring_at r (Z.of_nat i)) (seq 0 n)) = n).
    { clear IH. induction n as [|n IH]; [done|].
      rewrite seq_S, omap_app, length_app, IH by lia. cbn [omap list_omap Nat.add].
      unfold ring_at. destruct (rb_size r <=? Z.of_nat n) eqn:E; bool_to_prop; [lia|].
      destruct (lookup_lt_is_Some_2 (rb_buffer r) _ (slot_of_lt r (u64 (rb_tail r + Z.of_nat n)) H))
        as [x ->]. cbn. lia. }
    destruct (decide (i < n)%nat).
    - rewrite lookup_app_l by lia. rewrite IH by lia. by rewrite !bool_decide_eq_true_2 by lia.
    - rewrite lookup_app_r, Hlen by lia. destruct (decide (i = n)) as [->|].
      + rewrite Nat.sub_diag, bool_decide_eq_true_2 by lia. by destruct (ring_at r _).
      + rewrite bool_decide_eq_false_2 by lia.
        destruct (i - n)%nat as [|k] eqn:E; [lia|].
        unfold mbind, option_bind. destruct (ring_at r (Z.of_nat n)); [by destruct k|done]. }
  rewrite Hall by lia. pose proof (size_range r).
  repeat case_bool_decide; done || lia.
Qed.

(** Two positions whose distance is positive and below the capacity use different slots. *)
Lemma slot_of_ne r p q :
  ring_wf r -> 0 < q - p < rb_capacity r -> slot_of r p <> slot_of r q.
Proof.
  intros H Hd. rewrite !slot_of_mod by done. pose proof (capacity_pos r H) as Hc.
  generalize dependent (rb_capacity r). intros c Hd Hc E.
  pose proof (Z.mod_pos_bound p c Hc) as Hp. pose proof (Z.mod_pos_bound q c Hc) as Hq.
  assert (Em : p mod c = q mod c) by lia.
  assert (Hz : (q - p) mod c = 0) by (rewrite Zminus_mod, Em, Z.sub_diag; apply Z.mod_0_l; lia).
  rewrite Z.mod_small in Hz; lia.
Qed.

Lemma slot_of_u64 r p : ring_wf r -> slot_of r (u64 p) = slot_of r p.
Proof. intros H. rewrite !slot_of_mod by done. by rewrite u64_mod_capacity. Qed.

Lemma store_wf_size r x :
  ring_wf r -> rb_size r < rb_capacity r ->
  rb_size (store r x) = rb_size r + 1 /\ ring_wf (store r x).
Proof.
  intros H Hs. assert (Hsz : rb_size (store r x) = rb_size r + 1).
  { destruct (wf_capacity r H) as (k & Hk & Hc).
    assert (2 ^ k < 2 ^ 64) by (apply Z.pow_lt_mono_r; lia).
    pose proof (size_range r). unfold rb_size at 1, store. cbn [rb_head rb_tail upd].
    unfold wrap at 1 2. rewrite Zminus_mod_idemp_l.
    replace (rb_head r + 1 - rb_tail r) with (rb_head r - rb_tail r + 1) by lia.
    rewrite <- Zplus_mod_idemp_l. change ((rb_head r - rb_tail r) mod 2 ^ 64) with (rb_size r).
    apply Z.mod_small. lia. }
  split; [done|]. destruct H. split; try done.
  - cbn. by rewrite length_insert.
  - cbn. apply wrap_range. lia.
  - rewrite Hsz. change (rb_capacity (store r x)) with (rb_capacity r). lia.
Qed.

Lemma contents_length r : ring_wf r -> Z.of_nat (List.length (contents r)) = rb_size r.
Proof.
  intros H. pose proof (size_range r).
  assert (Hall : forall i, is_Some (contents r !! i) <-> (i < Z.to_nat (rb_size r))%nat).
  { intros i. rewrite contents_lookup by done. case_bool_decide.
    - split; [lia|]. intros _. unfold ring_at. destruct (rb_size r <=? Z.of_nat i) eqn:E; bool_to_prop; [lia|].
      apply lookup_lt_is_Some_2, slot_of_lt, H.
    - split; [by intros []|lia]. }
  apply dec_stable. intros Hne.
  destruct (decide (List.length (contents r) < Z.to_nat (rb_size r))%nat) as [Hlt|].
  - apply Hall, lookup_lt_is_Some in Hlt. lia.
  - assert (Hlt : (Z.to_nat (rb_size r) < List.length (contents r))%nat) by lia.
    apply lookup_lt_is_Some, Hall in Hlt. lia.
Qed.

(** Appending in the abstract queue is storing in the concrete one. *)
Lemma store_contents r x :
  ring_wf r -> rb_size r < rb_capacity r -> contents (store r x) = contents r ++ [x].
Proof.
  intros H Hs. destruct (store_wf_size r x H Hs) as [Hsz Hwf'].
  pose proof (contents_length r H) as Hlen. pose proof (size_range r).
  apply list_eq. intros i. rewrite contents_lookup, Hsz by done.
  assert (Hhead : slot_of r (rb_head r) = slot_of r (rb_tail r + rb_size r)).
  { rewrite <- (head_as_tail r H) at 1. by apply slot_of_u64. }
  unfold ring_at. rewrite Hsz.
  change (rb_buffer (store r x)) with (<[slot_of r (rb_head r) := x]> (rb_buffer r)).
  change (slot_of (store r x)) with (slot_of r). change (rb_tail (store r x)) with (rb_tail r).
  rewrite slot_of_u64, Hhead by done.
  destruct (decide (Z.of_nat i < rb_size r)); [|destruct (decide (Z.of_nat i = rb_size r))].
  - rewrite bool_decide_eq_true_2 by lia.
    destruct (rb_size r + 1 <=? Z.of_nat i) eqn:E; bool_to_prop; [lia|].
    rewrite list_lookup_insert_ne.
    + rewrite lookup_app_l, contents_lookup by (done || lia).
      rewrite bool_decide_eq_true_2 by lia. unfold ring_at.
      destruct (rb_size r <=? Z.of_nat i) eqn:E2; bool_to_prop; [lia|]. by rewrite slot_of_u64.
    + symmetry. apply slot_of_ne; [done|lia].
  - rewrite bool_decide_eq_true_2 by lia.
    destruct (rb_size r + 1 <=? Z.of_nat i) eqn:E; bool_to_prop; [lia|].
    rewrite <- e, list_lookup_insert_eq by by apply slot_of_lt.
    rewrite lookup_app_r by lia. replace (i - List.length (contents r))%nat with O by lia. done.
  - rewrite bool_decide_eq_false_2 by lia. symmetry. apply lookup_ge_None. rewrite length_app. cbn. lia.
Qed.

(** Dropping the oldest is advancing the tail. *)
Lemma advance_contents r :
  ring_wf r -> 0 < rb_size r ->
  let r' := r <| rb_tail := u64 (rb_tail r + 1) |> in
  ring_wf r' /\ rb_size r' = rb_size r - 1 /\ contents r' = tail (contents r).
Proof.
  intros H Hs r'. pose proof (size_range r).
  assert (Hsz : rb_size r' = rb_size r - 1).
  { unfold rb_size, r', wrap. cbn. rewrite Zminus_mod_idemp_r.
    replace (rb_head r - (rb_tail r + 1)) with (rb_head r - rb_tail r + (-1)) by lia.
    rewrite <- Zplus_mod_idemp_l. unfold rb_size, wrap in *. apply Z.mod_small. lia. }
  assert (Hwf : ring_wf r').
  { destruct H. split; try done; cbn; [apply wrap_range; lia|]. fold r'. lia. }
  split; [done|]. split; [done|]. pose proof (contents_length r H).
  apply list_eq. intros i. rewrite lookup_tail, !contents_lookup, Hsz by done.
  case_bool_decide; case_bool_decide; try done || lia.
  unfold ring_at. rewrite Hsz.
  repeat (case_match; bool_to_prop; try lia; try done).
  change (rb_buffer r') with (rb_buffer r). change (slot_of r') with (slot_of r).
  change (rb_tail r') with (u64 (rb_tail r + 1)).
  rewrite !slot_of_mod, !u64_mod_capacity by done.
  rewrite <- (Zplus_mod_idemp_l (u64 _)), u64_mod_capacity, Zplus_mod_idemp_l by done.
  do 2 f_equal. f_equal. lia.
Qed.

(** Dropping the newest is retreating the head. *)
Lemma retreat_contents r :
  ring_wf r -> 0 < rb_size r ->
  let r' := r <| rb_head := u64 (rb_head r - 1) |> in
  ring_wf r' /\ rb_size r' = rb_size r - 1
  /\ contents r = contents r' ++ option_list (rb_buffer r !! slot_of r (rb_head r')).
Proof.
  intros H Hs r'. pose proof (size_range r).
  assert (Hsz : rb_size r' = rb_size r - 1).
  { unfold rb_size, r', wrap. cbn. rewrite Zminus_mod_idemp_l.
    replace (rb_head r - 1 - rb_tail r) with (rb_head r - rb_tail r + (-1)) by lia.
    rewrite <- Zplus_mod_idemp_l. unfold rb_size, wrap in *. apply Z.mod_small. lia. }
  assert (Hwf : ring_wf r').
  { destruct H. split; try done; cbn; [apply wrap_range; lia|]. fold r'. lia. }
  split; [done|]. split; [done|].
  destruct (lookup_lt_is_Some_2 _ _ (slot_of_lt r (rb_head r') H)) as [x Hx].
  rewrite Hx. cbn [option_list].
  pose proof (contents_length r H). pose proof (contents_length r' Hwf).
  apply list_eq. intros i. rewrite contents_lookup by done.
  destruct (decide (Z.of_nat i < rb_size r - 1)).
  - rewrite bool_decide_eq_true_2, lookup_app_l, contents_lookup by (done || lia).
    rewrite bool_decide_eq_true_2 by lia. unfold ring_at. rewrite Hsz.
    repeat (case_match; bool_to_prop; try lia; try done).
  - destruct (decide (Z.of_nat i = rb_size r - 1)) as [E|].
    + rewrite bool_decide_eq_true_2, lookup_app_r by lia.
      replace (i - List.length (contents r'))%nat with O by lia.
      transitivity (rb_buffer r !! slot_of r (rb_head r')); [|by rewrite Hx].
      unfold ring_at. case_match; bool_to_prop; [lia|].
      rewrite slot_of_u64, E by done. change (rb_head r') with (u64 (rb_head r - 1)).
      rewrite slot_of_u64 by done.
      rewrite <- (head_as_tail r H), <- (slot_of_u64 r (rb_tail r + _)),
        <- (slot_of_u64 r (u64 _ - 1)) by done.
      f_equal. f_equal. unfold wrap. rewrite Zminus_mod_idemp_l. f_equal. lia.
    + rewrite bool_decide_eq_false_2 by lia. symmetry. apply lookup_ge_None.
      rewrite length_app. cbn. lia.
Qed.

(** ** What [push] keeps *)

Lemma lands_equal r p q :
  ring_wf r -> (Z.land p (rb_mask r) =? Z.land q (rb_mask r))
               = (p mod rb_capacity r =? q mod rb_capacity r).
Proof.
  intros H. destruct (wf_capacity r H) as (k & Hk & Hc).
  rewrite (wf_mask r H), Hc. replace (2 ^ k - 1) with (Z.ones k) by (rewrite Z.ones_equiv; lia).
  by rewrite !Z.land_ones by lia.
Qed.

(** The overwrite test holds exactly when the stored item fills the last slot. *)
Lemma overwrite_test r x :
  ring_wf r -> rb_size r < rb_capacity r ->
  (Z.land (rb_head (store r x)) (rb_mask (store r x))
   =? Z.land (rb_tail (store r x)) (rb_mask (store r x))) = (rb_size r + 1 =? rb_capacity r).
Proof.
  intros H Hs. destruct (store_wf_size r x H Hs) as [Hsz Hwf].
  rewrite lands_equal by done. change (rb_tail (store r x)) with (rb_tail r).
  rewrite <- (head_as_tail _ Hwf), u64_mod_capacity, Hsz by done.
  change (rb_tail (store r x)) with (rb_tail r). change (rb_capacity (store r x)) with (rb_capacity r).
  pose proof (size_range r). pose proof (capacity_pos r H) as Hc.
  generalize dependent (rb_capacity r). intros c Hs Hc.
  generalize dependent (rb_size r). intros s _ Hs Hs0.
  apply eq_true_iff_eq. rewrite !Z.eqb_eq. split; intros E.
  - assert (Hz : (s + 1) mod c = 0).
    { replace (s + 1) with (rb_tail r + (s + 1) - rb_tail r) by lia.
      rewrite Zminus_mod, E, Z.sub_diag. apply Z.mod_0_l. lia. }
    destruct (decide (s + 1 = c)); [done|]. rewrite Z.mod_small in Hz; lia.
  - rewrite E. replace (rb_tail r + c) with (rb_tail r + 1 * c) by lia. apply Z.mod_add. lia.
Qed.

(** The items a ring of capacity [n] keeps of a queue. *)
Definition keep_last (n : Z) (l : list T) : list T := drop (List.length l - Z.to_nat (n - 1)) l.

Lemma push_contents r x :
  ring_wf r -> rb_size r < rb_capacity r ->
  ring_wf (push r x) /\ rb_size (push r x) < rb_capacity r
  /\ rb_capacity (push r x) = rb_capacity r
  /\ contents (push r x) = keep_last (rb_capacity r) (contents r ++ [x]).
Proof.
  intros H Hs. destruct (store_wf_size r x H Hs) as [Hsz Hwf].
  pose proof (store_contents r x H Hs) as Hc. pose proof (contents_length r H).
  pose proof (size_range r). unfold push, keep_last.
  rewrite overwrite_test, length_app by done. cbn [List.length].
  destruct (rb_size r + 1 =? rb_capacity r) eqn:E; bool_to_prop.
  - destruct (advance_contents (store r x) Hwf) as (Hwf' & Hsz' & Hc'); [lia|].
    rewrite Hc', Hc, Hsz'. split; [done|]. split; [lia|]. split; [done|].
    replace (List.length (contents r) + 1 - Z.to_nat (rb_capacity r - 1))%nat with 1%nat by lia.
    by destruct (contents r ++ [x]).
  - split; [done|]. split; [lia|]. split; [done|]. rewrite Hc.
    by replace (List.length (contents r) + 1 - Z.to_nat (rb_capacity r - 1))%nat with O by lia.
Qed.

(** ** Sequences of operations against the abstract queue *)

Inductive RingOp := OpPush (x : T) | OpPopFront | OpPopBack.

(** One call; the output is the item a successful pop copies out. *)
Definition ring_step (r : RingBuffer) (o : RingOp) : RingBuffer * option T :=
  match o with
  | OpPush x => (push r x, None)
  | OpPopFront => match pop_front r with Some (y, r') => (r', y) | None => (r, None) end
  | OpPopBack => match pop_back r with Some (y, r') => (r', y) | None => (r, None) end
  end.

Definition queue_step (n : Z) (q : list T) (o : RingOp) : list T * option T :=
  match o with
  | OpPush x => (keep_last n (q ++ [x]), None)
  | OpPopFront => (tail q, head q)
  | OpPopBack => (removelast q, last q)
  end.

Fixpoint run_steps {S} (f : S -> RingOp -> S * option T) (s : S) (ops : list RingOp)
  : S * list (option T) :=
  match ops with
  | [] => (s, [])
  | o :: ops =>
      let '(s, out) := f s o in
      let '(s, outs) := run_steps f s ops in (s, out :: outs)
  end.

Lemma ring_step_refines r o :
  ring_wf r -> rb_size r < rb_capacity r ->
  let '(r', out) := ring_step r o in
  ring_wf r' /\ rb_size r' < rb_capacity r' /\ rb_capacity r' = rb_capacity r
  /\ (contents r', out) = queue_step (rb_capacity r) (contents r) o.
Proof.
  intros H Hs. pose proof (size_range r). pose proof (contents_length r H).
  assert (He : isEmpty r = true -> contents r = []).
  { unfold isEmpty. intros E. bool_to_prop. apply nil_length_inv.
    unfold rb_size, wrap in *. rewrite E, Z.sub_diag, Z.mod_0_l in * by lia. lia. }
  assert (Hne : isEmpty r = false -> 0 < rb_size r).
  { unfold isEmpty. intros E. bool_to_prop.
    destruct (decide (rb_size r = 0)) as [E0|]; [|lia]. exfalso. apply E.
    rewrite <- (head_as_tail r H), E0, Z.add_0_r. apply wrap_small, H. }
  destruct o as [x| |]; cbn [ring_step queue_step].
  - destruct (push_contents r x H Hs) as (? & ? & -> & ->). done.
  - unfold pop_front. destruct (isEmpty r) eqn:E.
    { rewrite (He eq_refl) in *. cbn. done. }
    specialize (Hne eq_refl). destruct (advance_contents r H Hne) as (? & Hsz & Hc).
    split; [done|]. split; [cbn [rb_capacity upd] in *; lia|]. split; [done|]. rewrite Hc. f_equal.
    rewrite head_lookup, contents_lookup, bool_decide_eq_true_2 by (done || lia).
    unfold ring_at. case_match; bool_to_prop; [lia|].
    rewrite slot_of_u64 by done. do 2 f_equal. lia.
  - unfold pop_back. destruct (isEmpty r) eqn:E.
    { rewrite (He eq_refl) in *. cbn. done. }
    specialize (Hne eq_refl). destruct (retreat_contents r H Hne) as (? & Hsz & Hc).
    split; [done|]. split; [cbn [rb_capacity upd] in *; lia|]. split; [done|].
    change (slot_of (r <| rb_head := u64 (rb_head r - 1) |>)) with (slot_of r).
    destruct (lookup_lt_is_Some_2 _ _ (slot_of_lt r (u64 (rb_head r - 1)) H)) as [y Hy].
    cbn [rb_buffer rb_head upd] in *. rewrite Hy in Hc |- *. change (option_list (Some y)) with [y] in Hc.
    rewrite Hc. rewrite removelast_last, last_snoc. done.
Qed.

Lemma new_ring_wf n storage :
  pow2_capacity n -> Z.of_nat (List.length storage) = n ->
  ring_wf (new_ring n storage) /\ rb_size (new_ring n storage) = 0 /\ contents (new_ring n storage) = [].
Proof.
  intros Hn Hl. split; [|done]. destruct Hn as (k & Hk & ->). split; cbn; try done; try lia.
  - exists k. lia.
  - change (rb_size _) with 0. lia.
Qed.

Lemma run_refines ops r :
  ring_wf r -> rb_size r < rb_capacity r ->
  let '(r', outs) := run_steps ring_step r ops in
  ring_wf r' /\ (contents r', outs) = run_steps (queue_step (rb_capacity r)) (contents r) ops.
Proof.
  revert r. induction ops as [|o ops IH]; intros r Hwf Hs; cbn [run_steps]; [done|].
  pose proof (ring_step_refines r o Hwf Hs) as Hstep.
  destruct (ring_step r o) as [r1 out]. destruct Hstep as (Hwf1 & Hs1 & Hc1 & Hq).
  rewrite <- Hq. specialize (IH r1 Hwf1 Hs1). rewrite Hc1 in IH.
  destruct (run_steps ring_step r1 ops) as [r2 outs]. destruct IH as [? IH].
  split; [done|]. rewrite <- IH. done.
Qed.

(** A ring of a power-of-two capacity, driven by any sequence of pushes and
    pops from either end, behaves as the double-ended queue that keeps the last
    [capacity - 1] items: every pop yields the same item (or reports empty at the same
    calls), whatever the storage held at the start and however often the positions wrap. *)
Lemma ring_refines_queue n storage ops :
  pow2_capacity n -> Z.of_nat (List.length storage) = n ->
  let '(r, outs) := run_steps ring_step (new_ring n storage) ops in
  ring_wf r /\ (contents r, outs) = run_steps (queue_step n) [] ops.
Proof.
  intros Hn Hl. destruct (new_ring_wf n storage Hn Hl) as (Hwf & Hsz & Hc).
  pose proof (run_refines ops (new_ring n storage) Hwf) as Hrun. rewrite Hc in Hrun.
  apply Hrun. pose proof (capacity_pos _ Hwf). lia.
Qed.

Lemma push_all_contents xs r :
  ring_wf r -> rb_size r < rb_capacity r ->
  contents (fold_left push xs r) = keep_last (rb_capacity r) (contents r ++ xs).
Proof.
  revert r. induction xs as [|x xs IH]; intros r H Hs; cbn [fold_left].
  - pose proof (contents_length r H). rewrite app_nil_r. unfold keep_last.
    by replace (List.length (contents r) - Z.to_nat (rb_capacity r - 1))%nat with O by lia.
  - destruct (push_contents r x H Hs) as (H' & Hs' & Hcap & Hc).
    rewrite IH, Hcap, Hc by (done || lia). unfold keep_last.
    rewrite !length_app, length_drop, length_app. cbn [List.length].
    replace (contents r ++ x :: xs) with ((contents r ++ [x]) ++ xs) by by rewrite <- app_assoc.
    pose proof (contents_length r H). pose proof (capacity_pos r H).
    assert (Hk : (List.length (contents r) <= Z.to_nat (rb_capacity r - 1))%nat) by lia.
    clear Hc. generalize dependent (Z.to_nat (rb_capacity r - 1)). intros k Hk.
    destruct (decide (List.length (contents r) + 1 <= k)%nat).
    + replace (List.length (contents r) + 1 - k)%nat with O by lia. rewrite drop_0. f_equal. lia.
    + replace k with (List.length (contents r)) by lia.
      rewrite <- drop_app_le by (rewrite length_app; cbn; lia).
      rewrite drop_drop. f_equal. lia.
Qed.

End RingBuffer.

Arguments RingBuffer : clear implicits.
Arguments RingOp : clear implicits.

(** Pushing any history onto a fresh ring keeps exactly its last
    [capacity - 1] entries, in order: one slot of the storage is never readable, because
    the tail moves as soon as the head catches up with it. *)
Lemma push_keeps_one_less {T} n (storage : list T) xs :
  pow2_capacity n -> Z.of_nat (List.length storage) = n ->
  contents (fold_left push xs (new_ring n storage))
  = drop (List.length xs - Z.to_nat (n - 1)) xs.
Proof.
  intros Hn Hl. destruct (new_ring_wf n storage Hn Hl) as (Hwf & Hsz & Hc).
  rewrite push_all_contents; [by rewrite Hc|done|].
  pose proof (capacity_pos _ Hwf). lia.
Qed.

Lemma ring_refines_queue_witness :
  let ops := [OpPush 1; OpPush 2; OpPush 3; OpPush 4; OpPopFront; OpPopBack; OpPush 5] in
  let '(r, outs) := run_steps ring_step (new_ring 4 [0; 0; 0; 0]) ops in
  ring_wf r /\ (contents r, outs) = run_steps (queue_step 4) [] ops.
Proof.
  apply (ring_refines_queue 4 [0; 0; 0; 0]); [|reflexivity]. exists 2. split; [lia|reflexivity].
Defined.

Lemma push_keeps_one_less_witness :
  contents (fold_left push [1; 2; 3; 4; 5] (new_ring 4 [0; 0; 0; 0])) = [3; 4; 5].
Proof.
  apply (push_keeps_one_less 4 [0; 0; 0; 0] [1; 2; 3; 4; 5]); [|reflexivity].
  exists 2. split; [lia|reflexivity].
Defined.
