(* ===== verification/Orders.v ===== *)
(** * Orders: enumerations, the [Order] record and fill accounting

    Models [src/common/order.hpp], [src/utils/order.hpp] and [src/utils/price.hpp].
    [Order::edit_history] (a JSON array no operation below touches) is left out. *)

From S2P Require Import Prelude Types FixedString.

(** ** Enumerations *)

Inductive Side := BUY | SELL | UNKNOWN_SIDE.

#[export] Instance Side_eq_dec : EqDecision Side.
Proof. solve_decision. Defined.

Definition opposite_side (side : Side) : Side :=
  match side with
  | BUY => SELL
  | SELL => BUY
  | UNKNOWN_SIDE => UNKNOWN_SIDE
  end.

Definition side_to_string (side : Side) : bytes :=
  match side with
  | BUY => str "BUY"
  | SELL => str "SELL"
  | UNKNOWN_SIDE => str "UNKNOWN"
  end.

Module OrderType.
Inductive order_type :=
  UNKNOWN | MARKET | LIMIT | STOP | STOP_LIMIT | BRACKET | TWAP | ROLL_OPEN | ROLL_CLOSE
| LIQUIDATION | SCALED.

Definition order_type_code (t : order_type) : ascii :=
  match t with
  | UNKNOWN => "0" | MARKET => "1" | LIMIT => "2" | STOP => "3" | STOP_LIMIT => "4"
  | BRACKET => "5" | TWAP => "6" | ROLL_OPEN => "7" | ROLL_CLOSE => "8" | LIQUIDATION => "9"
  | SCALED => "A"
  end%char.

Definition order_type_to_string (t : order_type) : bytes :=
  match t with
  | MARKET => str "MARKET"
  | LIMIT => str "LIMIT"
  | STOP => str "STOP"
  | STOP_LIMIT => str "STOP_LIMIT"
  | BRACKET => str "BRAKET"
  | TWAP => str "TWAP"
  | ROLL_OPEN => str "ROLL_OPEN"
  | ROLL_CLOSE => str "ROLL_CLOSE"
  | LIQUIDATION => str "LIQUIDATION"
  | SCALED => str "SCALED"
  | UNKNOWN => str "UNKNOWN"
  end.

#[export] Instance order_type_eq_dec : EqDecision order_type.
Proof. solve_decision. Defined.
End OrderType.
Export (hints) OrderType.
Abbreviation OrderType := OrderType.order_type.

Module ExecType.
Inductive exec_type :=
  NEW | CANCELED | REPLACED | PENDING_CANCEL | REJECTED | EXPIRED | PENDING_REPLACE | TRADE
| TRADE_CORRECT | TRADE_CANCEL | ORDER_STATUS | RESTATED.

Definition exec_type_code (t : exec_type) : ascii :=
  match t with
  | NEW => "0" | CANCELED => "4" | REPLACED => "5" | PENDING_CANCEL => "6" | REJECTED => "8"
  | EXPIRED => "C" | PENDING_REPLACE => "E" | TRADE => "F" | TRADE_CORRECT => "G"
  | TRADE_CANCEL => "H" | ORDER_STATUS => "I" | RESTATED => "D"
  end%char.

Definition exec_type_to_string (t : exec_type) : bytes :=
  match t with
  | NEW => str "NEW"
  | CANCELED => str "CANCELED"
  | REPLACED => str "REPLACED"
  | PENDING_CANCEL => str "PENDING_CANCEL"
  | REJECTED => str "REJECTED"
  | EXPIRED => str "EXPIRED"
  | PENDING_REPLACE => str "PENDING_REPLACE"
  | TRADE => str "TRADE"
  | TRADE_CORRECT => str "TRADE_CORRECT"
  | TRADE_CANCEL => str "TRADE_CANCEL"
  | ORDER_STATUS => str "ORDER_STATUS"
  | RESTATED => str "RESTATED"
  end.

#[export] Instance exec_type_eq_dec : EqDecision exec_type.
Proof. solve_decision. Defined.
End ExecType.
Export (hints) ExecType.
Abbreviation ExecType := ExecType.exec_type.

Module OrderStatus.
Inductive order_status :=
  NEW | PARTIALLY_FILLED | FILLED | DONE_FOR_DAY | CANCELED | REPLACED | PENDING_CANCEL | STOPPED
| REJECTED | SUSPENDED | PENDING_NEW | CALCULATED | EXPIRED | ACCEPTED_FOR_BIDDING
| PENDING_REPLACE.

Definition order_status_code (s : order_status) : ascii :=
  match s with
  | NEW => "0" | PARTIALLY_FILLED => "1" | FILLED => "2" | DONE_FOR_DAY => "3" | CANCELED => "4"
  | REPLACED => "5" | PENDING_CANCEL => "6" | STOPPED => "7" | REJECTED => "8" | SUSPENDED => "9"
  | PENDING_NEW => "A" | CALCULATED => "B" | EXPIRED => "C" | ACCEPTED_FOR_BIDDING => "D"
  | PENDING_REPLACE => "E"
  end%char.

Definition order_status_to_string (s : order_status) : bytes :=
  match s with
  | NEW => str "NEW"
  | PARTIALLY_FILLED => str "PARTIALLY_FILLED"
  | FILLED => str "FILLED"
  | DONE_FOR_DAY => str "DONE_FOR_DAY"
  | CANCELED => str "CANCELLED"
  | REPLACED => str "REPLACED"
  | PENDING_CANCEL => str "PENDING_CANCEL"
  | STOPPED => str "STOPPED"
  | REJECTED => str "REJECTED"
  | SUSPENDED => str "SUSPENDED"
  | PENDING_NEW => str "PENDING_NEW"
  | CALCULATED => str "CALCULATED"
  | EXPIRED => str "EXPIRED"
  | ACCEPTED_FOR_BIDDING => str "ACCEPTED_FOR_BIDDING"
  | PENDING_REPLACE => str "PENDING_REPLACE"
  end.

#[export] Instance order_status_eq_dec : EqDecision order_status.
Proof. solve_decision. Defined.
End OrderStatus.
Export (hints) OrderStatus.
Abbreviation OrderStatus := OrderStatus.order_status.

Module TimeInForce.
Inductive time_in_force :=
  DAY | GOOD_TILL_CANCEL | AT_THE_OPENING | IMMEDIATE_OR_CANCEL | FILL_OR_KILL
| GOOD_TILL_CROSSING | GOOD_TILL_DATE.

Definition time_in_force_code (t : time_in_force) : ascii :=
  match t with
  | DAY => "0" | GOOD_TILL_CANCEL => "1" | AT_THE_OPENING => "2" | IMMEDIATE_OR_CANCEL => "3"
  | FILL_OR_KILL => "4" | GOOD_TILL_CROSSING => "5" | GOOD_TILL_DATE => "6"
  end%char.

Definition time_in_force_to_string (t : time_in_force) : bytes :=
  match t with
  | DAY => str "DAY"
  | GOOD_TILL_CANCEL => str "GOOD_TILL_CANCEL"
  | AT_THE_OPENING => str "AT_THE_OPENING"
  | IMMEDIATE_OR_CANCEL => str "IMMEDIATE_OR_CANCEL"
  | FILL_OR_KILL => str "FILL_OR_KILL"
  | GOOD_TILL_CROSSING => str "GOOD_TILL_CROSSING"
  | GOOD_TILL_DATE => str "GOOD_TILL_DATE"
  end.

#[export] Instance time_in_force_eq_dec : EqDecision time_in_force.
Proof. solve_decision. Defined.
End TimeInForce.
Export (hints) TimeInForce.
Abbreviation TimeInForce := TimeInForce.time_in_force.

Module SMP.
Inductive SelfMatchPreventionMode := NONE | CANCEL_RESTING | CANCEL_NEWEST.

Definition smp_mode_to_string (m : SelfMatchPreventionMode) : bytes :=
  match m with
  | NONE => str "none"
  | CANCEL_RESTING => str "cancel_resting"
  | CANCEL_NEWEST => str "cancel_newest"
  end.

Definition to_smp_mode (name : bytes) : SelfMatchPreventionMode :=
  if bytes_eqb name (str "cancel_resting") then CANCEL_RESTING
  else if bytes_eqb name (str "cancel_newest") then CANCEL_NEWEST
  else NONE.

#[export] Instance smp_mode_eq_dec : EqDecision SelfMatchPreventionMode.
Proof. solve_decision. Defined.
End SMP.
Export (hints) SMP.
Abbreviation SelfMatchPreventionMode := SMP.SelfMatchPreventionMode.

Module ProductType.
Inductive product_type := UNKNOWN | SPOT | FUTURE.

Definition product_type_to_string (t : product_type) : bytes :=
  match t with
  | SPOT => str "SPOT"
  | FUTURE => str "FUTURE"
  | UNKNOWN => str "UNKNOWN_PRODUCT_TYPE"
  end.

#[export] Instance product_type_eq_dec : EqDecision product_type.
Proof. solve_decision. Defined.
End ProductType.
Export (hints) ProductType.
Abbreviation ProductType := ProductType.product_type.

(** ** Price comparison, with the side as template or run-time argument *)

Definition isPriceBetter (s : Side) (a b : price_t) : bool :=
  match s with BUY => b <? a | _ => a <? b end.

Definition isPriceBetterOrEqual (s : Side) (a b : price_t) : bool :=
  match s with BUY => b <=? a | _ => a <=? b end.

(** ** The order *)

(** The four identity buffers, copied as one block onto the wire. *)
Record OrderIdentity := mkIdentity {
  id_symbol : fixed_string;
  id_user_id : fixed_string;
  id_client_order_id : fixed_string;
  id_order_id : fixed_string
}.

#[export] Instance OrderIdentity_eta : Eta OrderIdentity :=
  fun i => mkIdentity (id_symbol i) (id_user_id i) (id_client_order_id i) (id_order_id i).

Record Order := mkOrder {
  o_identity : OrderIdentity;
  o_id : Z;
  o_priority : Z;
  o_request_tag : Z;
  o_side : Side;
  o_type : OrderType;
  o_status : OrderStatus;
  o_time_in_force : TimeInForce;
  o_product_type : ProductType;
  o_post_only : bool;
  o_pending_cancel : bool;
  o_size_in_quote : bool;
  o_price : price_t;
  o_quantity : qty_t;
  o_leaves_quantity : qty_t;
  o_avg_fill_price : price_t;
  o_cum_quantity : qty_t;
  o_cum_value : Z;
  o_last_fill_price : price_t;
  o_last_fill_qty : qty_t;
  o_num_fills : Z;
  o_fee : double;
  o_filled_value : double;
  o_client_id : Z;
  o_created_time : time_t;
  o_last_update_time : time_t;
  o_last_fill_time : option time_t;
  o_end_time : bytes;
  o_reject_message : bytes;
  o_cancel_message : bytes
}.

#[export] Instance Order_eta : Eta Order := fun o =>
  mkOrder (o_identity o) (o_id o) (o_priority o) (o_request_tag o) (o_side o) (o_type o)
    (o_status o) (o_time_in_force o) (o_product_type o) (o_post_only o) (o_pending_cancel o)
    (o_size_in_quote o) (o_price o) (o_quantity o) (o_leaves_quantity o) (o_avg_fill_price o)
    (o_cum_quantity o) (o_cum_value o) (o_last_fill_price o) (o_last_fill_qty o) (o_num_fills o)
    (o_fee o) (o_filled_value o) (o_client_id o) (o_created_time o) (o_last_update_time o)
    (o_last_fill_time o) (o_end_time o) (o_reject_message o) (o_cancel_message o).

Definition o_symbol (o : Order) : fixed_string := id_symbol (o_identity o).
Definition o_user_id (o : Order) : fixed_string := id_user_id (o_identity o).
Definition o_client_order_id (o : Order) : fixed_string := id_client_order_id (o_identity o).
Definition o_order_id (o : Order) : fixed_string := id_order_id (o_identity o).

(** [fee = 0.0], [filled_value = 0.0]. *)
Definition double_zero : double := S754_zero false.

(** A default-constructed [Order]; [id] is left uninitialised there, so its value is an
    argument, as is the clock reading the member initialisers take. *)
Definition default_order (garbage_id now : Z) : Order :=
  mkOrder (mkIdentity (clear 32) (clear 37) (clear 37) (clear 37))
    garbage_id 0 0 BUY OrderType.MARKET OrderStatus.NEW TimeInForce.DAY ProductType.UNKNOWN
    false false false 0 0 0 0 0 0 0 0 0 double_zero double_zero (-1) now now None [] [] [].

Definition resetFillAccounting (o : Order) (new_qty : qty_t) : Order :=
  o <| o_quantity := new_qty |> <| o_leaves_quantity := new_qty |>
    <| o_avg_fill_price := 0 |> <| o_cum_quantity := 0 |> <| o_cum_value := 0 |>
    <| o_last_fill_price := 0 |> <| o_last_fill_qty := 0 |> <| o_num_fills := 0 |>
    <| o_fee := double_zero |> <| o_filled_value := double_zero |>
    <| o_last_fill_time := None |>.

Definition restsRemainder (o : Order) : bool :=
  negb (o_price o =? NULL_PRICE)
  && (bool_decide (o_time_in_force o = TimeInForce.DAY)
      || bool_decide (o_time_in_force o = TimeInForce.GOOD_TILL_CANCEL)
      || bool_decide (o_time_in_force o = TimeInForce.GOOD_TILL_DATE)).

Definition price_double (o : Order) : double := to_price_double (o_price o).
Definition qty_double (o : Order) : double := to_qty_double (o_quantity o).
Definition cum_qty_double (o : Order) : double := to_qty_double (o_cum_quantity o).
Definition leaves_qty_double (o : Order) : double := to_qty_double (o_leaves_quantity o).
Definition last_fill_qty_double (o : Order) : double := to_qty_double (o_last_fill_qty o).
Definition last_fill_price_double (o : Order) : double := to_price_double (o_last_fill_price o).
Definition avg_fill_price_double (o : Order) : double := to_price_double (o_avg_fill_price o).

(** [utils::executeOrder]: books one fill on the order's own accounting. The two
    assertions of the code ([executed_quantity > 0], [leaves_quantity >= 0] after the
    subtraction) are not part of the function; callers establish them. *)
Definition executeOrder (order : Order) (price : price_t) (executed_quantity : qty_t)
  (timestamp : time_t) : Order :=
  let order := order <| o_leaves_quantity ::= fun q => q - executed_quantity |>
                     <| o_last_update_time := timestamp |>
                     <| o_cum_value ::= fun v => u128 (v + u128 (u128 price * u128 executed_quantity)) |>
                     <| o_cum_quantity ::= fun q => q + executed_quantity |> in
  order <| o_avg_fill_price :=
             if 0 <? o_cum_quantity order
             then i64 (o_cum_value order / u128 (o_cum_quantity order)) else 0 |>
        <| o_last_fill_price := price |>
        <| o_last_fill_qty := executed_quantity |>
        <| o_last_fill_time := Some timestamp |>
        <| o_num_fills ::= fun n => u32 (n + 1) |>.

(** [struct Fill] of the gateways. *)
Record Fill := mkFill {
  fill_order_id : bytes;
  filled_price : price_t;
  filled_qty : qty_t;
  fill_timestamp : time_t
}.

(** ** Properties *)

(** The executions booked on one order: price, quantity, time. *)
Definition book_fills (o : Order) (fills : list (price_t * qty_t * time_t)) : Order :=
  fold_left (fun o '(p, q, t) => executeOrder o p q t) fills o.

Definition fills_qty (fills : list (price_t * qty_t * time_t)) : Z :=
  zsum (map (fun '(p, q, t) => q) fills).
Definition fills_value (fills : list (price_t * qty_t * time_t)) : Z :=
  zsum (map (fun '(p, q, t) => p * q) fills).

(** A fill at a price a book can show and a positive quantity. *)
Definition valid_fill (lo hi : price_t) (f : price_t * qty_t * time_t) : Prop :=
  let '(p, q, t) := f in lo <= p <= hi /\ 0 < q.

Lemma fills_qty_app a b : fills_qty (a ++ b) = fills_qty a + fills_qty b.
Proof. unfold fills_qty. by rewrite map_app, zsum_app. Qed.

Lemma fills_value_app a b : fills_value (a ++ b) = fills_value a + fills_value b.
Proof. unfold fills_value. by rewrite map_app, zsum_app. Qed.

Lemma fills_bounds lo hi fills :
  Forall (valid_fill lo hi) fills ->
  0 <= fills_qty fills /\ lo * fills_qty fills <= fills_value fills <= hi * fills_qty fills.
Proof.
  unfold fills_qty, fills_value.
  induction 1 as [|[[p q] t] fills [Hp Hq] _ IH]; cbn; [lia|nia].
Qed.

(** What an order's accounting holds after a sequence of fills. *)
Record accounts_for (n : qty_t) (fills : list (price_t * qty_t * time_t)) (o : Order) : Prop := {
  acc_quantity : o_quantity o = n;
  acc_leaves : o_leaves_quantity o = n - fills_qty fills;
  acc_cum : o_cum_quantity o = fills_qty fills;
  acc_value : o_cum_value o = fills_value fills;
  acc_avg : o_avg_fill_price o = fills_value fills / fills_qty fills;
  acc_num : o_num_fills o = u32 (Z.of_nat (List.length fills));
  acc_last_price : o_last_fill_price o = default 0 ((fun f => f.1.1) <$> last fills);
  acc_last_qty : o_last_fill_qty o = default 0 ((fun f => f.1.2) <$> last fills);
  acc_last_time : o_last_fill_time o = snd <$> last fills
}.

Lemma executeOrder_accounts n hi fills o p q t :
  0 <= n < 2 ^ 63 -> hi < 2 ^ 63 ->
  Forall (valid_fill 0 hi) (fills ++ [(p, q, t)]) ->
  fills_qty (fills ++ [(p, q, t)]) <= n ->
  accounts_for n fills o ->
  accounts_for n (fills ++ [(p, q, t)]) (executeOrder o p q t).
Proof.
  intros Hn Hhi Hall Hsum Hacc.
  pose proof (fills_bounds 0 hi _ Hall) as [Hq0 Hv0].
  apply Forall_app in Hall as [Hall [Hp Hq]%Forall_singleton].
  pose proof (fills_bounds 0 hi _ Hall) as [Hq1 Hv1].
  rewrite fills_qty_app, fills_value_app in *.
  change (fills_qty [(p, q, t)]) with (q + 0) in *.
  change (fills_value [(p, q, t)]) with (p * q + 0) in *.
  assert (Hpq : 0 <= p * q < 2 ^ 126) by (change (2 ^ 126) with (2 ^ 63 * 2 ^ 63); nia).
  assert (Hpow : 2 ^ 126 < 2 ^ 128) by reflexivity.
  assert (Hbig : 0 <= fills_value fills + p * q < 2 ^ 126).
  { change (2 ^ 126) with (2 ^ 63 * 2 ^ 63). nia. }
  assert (Hcv : u128 (o_cum_value o + u128 (u128 p * u128 q)) = fills_value fills + p * q).
  { rewrite (wrap_small 128 p), (wrap_small 128 q), (wrap_small 128 (p * q)), (acc_value _ _ _ Hacc)
      by (change (2 ^ 128) with (2 ^ 63 * 2 ^ 65); lia).
    apply wrap_small. lia. }
  assert (Eq : fills_qty (fills ++ [(p, q, t)]) = fills_qty fills + q).
  { rewrite fills_qty_app. cbn. lia. }
  assert (Ev : fills_value (fills ++ [(p, q, t)]) = fills_value fills + p * q).
  { rewrite fills_value_app. cbn. lia. }
  destruct Hacc. split; rewrite ?Eq, ?Ev, ?last_snoc; try done.
  - cbn. lia.
  - cbn. lia.
  - unfold executeOrder. cbn. rewrite Hcv, acc_cum0.
    destruct (0 <? fills_qty fills + q) eqn:E; bool_to_prop; [|lia].
    rewrite (wrap_small 128) by (change (2 ^ 128) with (2 ^ 63 * 2 ^ 65); lia).
    apply swrap_small; [lia|].
    assert (0 <= (fills_value fills + p * q) / (fills_qty fills + q) <= hi); [|lia].
    split; [apply Z.div_pos; lia|].
    apply Z.div_le_upper_bound; nia.
  - unfold executeOrder. cbn. rewrite acc_num0, length_app. cbn [List.length]. unfold wrap.
    rewrite Zplus_mod_idemp_l. f_equal. lia.
Qed.

(** From an order reset for [n], any sequence of fills at non-negative
    64-bit prices whose quantities fit in [n] leaves the exact accounting: filled and
    remaining quantities add up to [n], the 128-bit turnover is the exact sum of price
    times quantity, the average is its floor and lies between the best and worst fill
    price, and the last-fill fields are those of the last fill. *)
Lemma fills_account o n lo hi fills :
  0 <= n < 2 ^ 63 -> 0 <= lo -> hi < 2 ^ 63 ->
  Forall (valid_fill lo hi) fills -> fills_qty fills <= n ->
  let o' := book_fills (resetFillAccounting o n) fills in
  accounts_for n fills o'
  /\ 0 <= o_leaves_quantity o'
  /\ o_cum_quantity o' + o_leaves_quantity o' = o_quantity o'
  /\ (fills <> [] -> lo <= o_avg_fill_price o' <= hi).
Proof.
  intros Hn Hlo Hhi Hall Hsum o'.
  assert (Hacc : accounts_for n fills o').
  { subst o'. revert Hall Hsum. induction fills as [|[[p q] t] fills IH] using rev_ind; intros Hall Hsum.
    - cbn. split; cbn; try done; lia.
    - pose proof Hall as [Hall1 [Hp Hq]%Forall_singleton]%Forall_app.
      rewrite fills_qty_app in Hsum. change (fills_qty [(p, q, t)]) with (q + 0) in Hsum.
      unfold book_fills. rewrite fold_left_app. cbn [fold_left].
      apply (executeOrder_accounts n hi); try done.
      + eapply Forall_impl; [exact Hall|]. intros [[p' q'] t'] [? ?]. split; lia.
      + rewrite fills_qty_app. exact Hsum.
      + apply IH; [done|lia]. }
  pose proof (fills_bounds lo hi fills Hall) as [Hq Hv].
  split; [done|]. destruct Hacc. rewrite acc_leaves0, acc_cum0, acc_quantity0, acc_avg0.
  split; [lia|]. split; [lia|]. intros Hne.
  assert (0 < fills_qty fills).
  { destruct fills as [|[[p q] t] fills]; [done|]. apply Forall_cons in Hall as [[Hp Hq'] Hrest].
    pose proof (fills_bounds lo hi fills Hrest). unfold fills_qty in *. cbn. lia. }
  split; [apply Z.div_le_lower_bound; lia|apply Z.div_le_upper_bound; lia].
Qed.

Lemma fills_account_witness :
  let fills := [(100, 3, 1); (102, 4, 2)] in
  let o' := book_fills (resetFillAccounting (default_order 0 0) 10) fills in
  accounts_for 10 fills o'
  /\ 0 <= o_leaves_quantity o'
  /\ o_cum_quantity o' + o_leaves_quantity o' = o_quantity o'
  /\ (fills <> [] -> 100 <= o_avg_fill_price o' <= 102).
Proof.
  apply (fills_account (default_order 0 0) 10 100 102); try lia.
  - repeat constructor; lia.
  - vm_compute. discriminate.
Defined.
