(* ===== verification/Binary64.v ===== *)
(** * How far binary64 arithmetic is from the real numbers

    The doubles of [Types] are the standard library's specification of binary64. Here the
    magnitude of a double is read as a real number, and every operation the code uses is
    shown to be within one part in 2^53 of the exact result, as long as that is between
    2^-900 and 2^900. *)

From S2P Require Import Prelude Types.
From Stdlib Require Import Reals Lra.
#[local] Open Scope Z_scope.

(** ** Powers of two *)

Definition pow2 (e : Z) : R := powerRZ 2 e.

Lemma pow2_pos e : (0 < pow2 e)%R.
Proof. apply powerRZ_lt. lra. Qed.

Lemma pow2_add a b : pow2 (a + b) = (pow2 a * pow2 b)%R.
Proof. apply powerRZ_add. lra. Qed.

Lemma pow2_IZR e : 0 <= e -> pow2 e = IZR (2 ^ e).
Proof.
  intros He. rewrite <- (Z2Nat.id e) by done. unfold pow2. by rewrite <- pow_powerRZ, <- pow_IZR.
Qed.

Lemma pow2_neg e : 0 <= e -> pow2 (- e) = (/ IZR (2 ^ e))%R.
Proof.
  intros He. rewrite <- pow2_IZR by done. apply Rmult_eq_reg_r with (pow2 e); [|pose proof (pow2_pos e); lra].
  rewrite <- pow2_add, Z.add_opp_diag_l, Rinv_l; [done|]. pose proof (pow2_pos e). lra.
Qed.

Lemma pow2_1 : pow2 1 = 2%R.
Proof. by rewrite pow2_IZR. Qed.

Lemma pow2_lt a b : a < b -> (pow2 a < pow2 b)%R.
Proof.
  intros H. replace b with (a + (b - a)) by lia. rewrite pow2_add.
  assert (1 < pow2 (b - a))%R as Hb.
  { rewrite pow2_IZR by lia. apply (IZR_lt 1). apply Z.pow_gt_1; lia. }
  pose proof (pow2_pos a). nra.
Qed.

Lemma pow2_le a b : a <= b -> (pow2 a <= pow2 b)%R.
Proof. intros H. destruct (decide (a = b)) as [->|]; [lra|]. left. apply pow2_lt. lia. Qed.

Lemma pow2_lt_inv a b : (pow2 a < pow2 b)%R -> a < b.
Proof. intros H. apply Z.nle_gt. intros Hle%pow2_le. lra. Qed.

Lemma pow2_half e : pow2 e = (2 * pow2 (e - 1))%R.
Proof. rewrite <- pow2_1, <- pow2_add. f_equal. lia. Qed.

(** Half a unit of a number of 53 bits is a 2^53rd of it. *)
Lemma half_unit e x : (pow2 (52 + e) <= x)%R -> (pow2 e / 2 <= x * pow2 (- 53))%R.
Proof.
  intros H. pose proof (pow2_pos (- 53)).
  assert (pow2 e / 2 = pow2 (52 + e) * pow2 (- 53))%R as ->; [|nra].
  rewrite <- pow2_add, (pow2_half e). replace (52 + e + -53) with (e - 1) by lia. lra.
Qed.

Lemma digits2_bounds p : 2 ^ (Zpos (digits2_pos p) - 1) <= Zpos p < 2 ^ Zpos (digits2_pos p).
Proof.
  induction p as [p IH|p IH|]; cbn [digits2_pos]; [..|done].
  all: rewrite Pos2Z.inj_succ; replace (Z.succ (Zpos (digits2_pos p)) - 1) with (Z.succ (Zpos (digits2_pos p) - 1)) by lia;
    rewrite !Z.pow_succ_r by lia; lia.
Qed.

Lemma digits2_le p k : 0 <= k -> Zpos p < 2 ^ k -> Zpos (digits2_pos p) <= k.
Proof.
  intros Hk Hp. destruct (digits2_bounds p) as [H _]. apply Z.nlt_ge. intros Hlt.
  assert (2 ^ k <= 2 ^ (Zpos (digits2_pos p) - 1)) by (apply Z.pow_le_mono_r; lia). lia.
Qed.

Lemma digits2_ge p k : 0 <= k -> 2 ^ k <= Zpos p -> k < Zpos (digits2_pos p).
Proof.
  intros Hk Hp. destruct (digits2_bounds p) as [_ H]. apply Z.nle_gt. intros Hle.
  assert (2 ^ Zpos (digits2_pos p) <= 2 ^ k) by (apply Z.pow_le_mono_r; lia). lia.
Qed.

(** ** A number on a grid

    [stands x mrs e]: the record's mantissa, with what its two sticky bits say of the rest,
    is [x] in units of [2^e]. *)

Definition at_loc (l : location) (f : R) : Prop :=
  match l with
  | loc_Exact => f = 0%R
  | loc_Inexact Lt => (0 < f < 1 / 2)%R
  | loc_Inexact Eq => (f = 1 / 2)%R
  | loc_Inexact Gt => (1 / 2 < f < 1)%R
  end.

Definition stands (x : R) (mrs : shr_record) (e : Z) : Prop :=
  0 <= shr_m mrs /\ exists f, at_loc (loc_of_shr_record mrs) f /\ x = ((IZR (shr_m mrs) + f) * pow2 e)%R.

Lemma loc_record m l : shr_m (shr_record_of_loc m l) = m /\ loc_of_shr_record (shr_record_of_loc m l) = l.
Proof. by destruct l as [|[]]. Qed.

Lemma stands_bounds x mrs e : stands x mrs e -> (IZR (shr_m mrs) * pow2 e <= x < (IZR (shr_m mrs) + 1) * pow2 e)%R.
Proof.
  intros (_ & f & Hf & ->). pose proof (pow2_pos e).
  assert (0 <= f < 1)%R by (destruct (loc_of_shr_record mrs) as [|[]]; cbn in Hf; lra). nra.
Qed.

Lemma IZR_double_1 p : IZR (Zpos p~1) = (2 * IZR (Zpos p) + 1)%R.
Proof. rewrite Pos2Z.inj_xI, plus_IZR, mult_IZR. done. Qed.

Lemma IZR_double_0 p : IZR (Zpos p~0) = (2 * IZR (Zpos p))%R.
Proof. rewrite Pos2Z.inj_xO, mult_IZR. done. Qed.

Lemma stands_shr_1 x mrs e : stands x mrs e -> stands x (shr_1 mrs) (e + 1).
Proof.
  destruct mrs as [m r s]. intros (Hm & f & Hf & ->). cbn [shr_m] in *.
  assert (forall m' g, 0 <= m' -> (IZR m + f = 2 * (IZR m' + g))%R -> at_loc (loc_of_shr_record (shr_1 (Build_shr_record m r s))) g ->
            shr_m (shr_1 (Build_shr_record m r s)) = m' ->
            stands ((IZR m + f) * pow2 e) (shr_1 (Build_shr_record m r s)) (e + 1)) as K.
  { intros m' g Hm' E Hg Hs. split; [by rewrite Hs|]. exists g. split; [done|]. rewrite Hs, pow2_add, pow2_1, E. ring. }
  destruct m as [|[p|p|]|p]; [..|lia].
  - apply (K 0 (f / 2)%R); [lia|lra| |done]. destruct r, s; cbn in *; lra.
  - apply (K (Zpos p) ((f + 1) / 2)%R); [lia|rewrite IZR_double_1; lra| |done]. destruct r, s; cbn in *; lra.
  - apply (K (Zpos p) (f / 2)%R); [lia|rewrite IZR_double_0; lra| |done]. destruct r, s; cbn in *; lra.
  - apply (K 0 ((f + 1) / 2)%R); [lia|lra| |done]. destruct r, s; cbn in *; lra.
Qed.

Lemma iter_pos_inv {A} (f : A -> A) (P : Z -> A -> Prop) :
  (forall k a, P k a -> P (k + 1) (f a)) -> forall n k a, P k a -> P (k + Zpos n) (SpecFloat.iter_pos f n a).
Proof.
  intros Hf. induction n as [n IH|n IH|]; intros k a H; cbn [SpecFloat.iter_pos]; [..|by apply Hf].
  - replace (k + Zpos n~1) with (k + 1 + Zpos n + Zpos n) by lia. by apply IH, IH, Hf.
  - replace (k + Zpos n~0) with (k + Zpos n + Zpos n) by lia. by apply IH, IH.
Qed.

Lemma stands_shr x mrs e n : stands x mrs e ->
  stands x (fst (shr mrs e n)) (snd (shr mrs e n)) /\ snd (shr mrs e n) = e + Z.max 0 n.
Proof.
  intros H. destruct n as [|n|n]; cbn [shr fst snd]; [split; [done|lia]| |split; [done|lia]].
  split; [|lia]. revert H. apply (iter_pos_inv _ (fun k mrs => stands x mrs k)). intros k a. apply stands_shr_1.
Qed.

(** The nearest grid point, to half a unit. *)
Lemma nearest_even x mrs e : stands x mrs e ->
  let m := round_nearest_even (shr_m mrs) (loc_of_shr_record mrs) in
  shr_m mrs <= m <= shr_m mrs + 1 /\ (Rabs (IZR m * pow2 e - x) <= pow2 e / 2)%R.
Proof.
  intros (Hm & f & Hf & ->). pose proof (pow2_pos e).
  assert (forall m, (Rabs (IZR m - (IZR (shr_m mrs) + f)) <= 1 / 2)%R ->
            (Rabs (IZR m * pow2 e - (IZR (shr_m mrs) + f) * pow2 e) <= pow2 e / 2)%R) as K.
  { intros m HK. rewrite <- Rmult_minus_distr_r, Rabs_mult, (Rabs_pos_eq (pow2 e)) by lra. nra. }
  destruct (loc_of_shr_record mrs) as [|[]]; cbn [at_loc round_nearest_even] in *; [| |split; [lia|]|split; [lia|]].
  - split; [lia|]. apply K. subst f. rewrite Rplus_0_r, Rminus_diag, Rabs_R0. lra.
  - split; [by destruct (Z.even _); lia|]. apply K. destruct (Z.even _); rewrite ?plus_IZR; apply Rabs_le; lra.
  - apply K. apply Rabs_le. lra.
  - apply K. rewrite plus_IZR. apply Rabs_le. lra.
Qed.

(** ** Rounding *)

Abbreviation round_aux := (binary_round_aux prec emax).
Abbreviation shr_fexp64 := (shr_fexp prec emax).

(** Within one part in 2^53. *)
Definition near (x' x : R) : Prop := (Rabs (x' - x) <= x * pow2 (- 53))%R.
Definition normal (x : R) : Prop := (pow2 (- 900) <= x <= pow2 900)%R.

Definition magnitude (m : positive) (e : Z) : R := (IZR (Zpos m) * pow2 e)%R.

Lemma fexp_normal d : - 1000 <= d -> fexp prec emax d = d - 53.
Proof. intros H. unfold fexp, emin, prec, emax. lia. Qed.

(** A mantissa of at most 53 bits, or one too many of which are zero, loses nothing. *)
Lemma shr_fits m e : 0 < m <= 2 ^ 53 -> - 1000 <= e ->
  exists p e', shr_fexp64 m e loc_Exact = (Build_shr_record (Zpos p) false false, e')
    /\ magnitude p e' = (IZR m * pow2 e)%R /\ e <= e' <= e + 1 /\ (2 ^ 52 <= m -> 2 ^ 52 <= Zpos p).
Proof.
  intros Hm He. destruct (decide (m = 2 ^ 53)) as [->|Hne].
  - exists (2 ^ 52)%positive, (e + 1). unfold shr_fexp. change (Zdigits2 (2 ^ 53)) with 54.
    rewrite fexp_normal by lia. replace (54 + e - 53 - e) with 1 by lia. split; [done|]. split; [|split; [lia|done]].
    unfold magnitude. rewrite pow2_add, pow2_1. change (2 ^ 53) with (2 * Zpos (2 ^ 52)). rewrite mult_IZR. ring.
  - destruct m as [|p|p]; [lia| |lia]. exists p, e. unfold shr_fexp. cbn [Zdigits2].
    pose proof (digits2_le p 53 ltac:(lia) ltac:(lia)). rewrite fexp_normal by lia.
    split; [|split; [done|split; [lia|done]]]. by destruct (_ - e) eqn:E; [|lia|].
Qed.

(** The second normalisation, after a carry, and the overflow test. *)
Definition finish (s : bool) (m e : Z) : Types.double :=
  let '(mrs, e) := shr_fexp64 m e loc_Exact in
  match shr_m mrs with
  | Z0 => S754_zero s
  | Zpos p => if e <=? emax - prec then S754_finite s p e else S754_infinity s
  | _ => S754_nan
  end.

Lemma round_aux_finish s m e l :
  round_aux s m e l = (let '(mrs, e) := shr_fexp64 m e l in finish s (round_nearest_even (shr_m mrs) (loc_of_shr_record mrs)) e).
Proof. reflexivity. Qed.

Lemma finish_fits s m e : 0 < m <= 2 ^ 53 -> - 1000 <= e <= 950 ->
  exists p e', finish s m e = S754_finite s p e' /\ magnitude p e' = (IZR m * pow2 e)%R
    /\ (2 ^ 52 <= m -> 2 ^ 52 <= Zpos p).
Proof.
  intros Hm He. destruct (shr_fits m e Hm ltac:(lia)) as (p & e' & E & Hp & He' & Hd). exists p, e'.
  unfold finish. rewrite E. cbn [shr_m]. destruct (Z.leb_spec e' (emax - prec)); [done|]. unfold emax, prec in *. lia.
Qed.

(** Where a number's exponent puts it. *)
Lemma exponent_range q e x : (pow2 (Zpos (digits2_pos q) - 1 + e) <= x < pow2 (Zpos (digits2_pos q) + e))%R -> normal x ->
  - 900 < Zpos (digits2_pos q) + e <= 901.
Proof.
  intros Hx [Hlo Hhi]. split; [apply pow2_lt_inv; lra|].
  assert (Zpos (digits2_pos q) - 1 + e < 901); [|lia]. apply pow2_lt_inv. pose proof (pow2_lt 900 901 ltac:(lia)). lra.
Qed.

Lemma mantissa_range q e x : (IZR (Zpos q) * pow2 e <= x < (IZR (Zpos q) + 1) * pow2 e)%R ->
  (pow2 (Zpos (digits2_pos q) - 1 + e) <= x < pow2 (Zpos (digits2_pos q) + e))%R.
Proof.
  intros Hx. destruct (digits2_bounds q) as [Hd1 Hd2]. rewrite !pow2_add, (pow2_IZR (_ - 1)), (pow2_IZR (Zpos (digits2_pos q))) by lia.
  pose proof (pow2_pos e). apply IZR_le in Hd1.
  assert (IZR (Zpos q) + 1 <= IZR (2 ^ Zpos (digits2_pos q)))%R by (rewrite <- (plus_IZR _ 1); apply IZR_le; lia). nra.
Qed.

(** An exact number of at most 53 bits is kept. *)
Lemma round_short s q e : Zpos q < 2 ^ 53 -> normal (magnitude q e) ->
  exists p e', round_aux s (Zpos q) e loc_Exact = S754_finite s p e' /\ magnitude p e' = magnitude q e
    /\ (2 ^ 52 <= Zpos q -> 2 ^ 52 <= Zpos p).
Proof.
  intros Hq Hn. pose proof (digits2_le q 53 ltac:(lia) Hq).
  assert (- 900 < Zpos (digits2_pos q) + e <= 901).
  { apply (exponent_range q e (magnitude q e)); [|done]. apply mantissa_range. unfold magnitude. pose proof (pow2_pos e). nra. }
  rewrite round_aux_finish. unfold shr_fexp at 1. cbn [Zdigits2]. rewrite fexp_normal by lia.
  assert (shr (shr_record_of_loc (Zpos q) loc_Exact) e (Zpos (digits2_pos q) + e - 53 - e) = (Build_shr_record (Zpos q) false false, e)) as ->
    by (destruct (_ - e) eqn:E; [done|lia|done]).
  cbn. apply finish_fits; lia.
Qed.

(** A number of at least 53 bits, and what is known of the rest of it. *)
Lemma round_long s q e l x : 2 ^ 52 <= Zpos q -> stands x (shr_record_of_loc (Zpos q) l) e -> normal x ->
  exists p e', round_aux s (Zpos q) e l = S754_finite s p e' /\ near (magnitude p e') x /\ 2 ^ 52 <= Zpos p.
Proof.
  intros Hq Hs Hn. pose proof (stands_bounds _ _ _ Hs) as Hx. rewrite (proj1 (loc_record _ l)) in Hx.
  apply mantissa_range in Hx. pose proof (exponent_range _ _ _ Hx Hn) as He. pose proof (digits2_ge q 52 ltac:(lia) Hq).
  rewrite round_aux_finish. unfold shr_fexp at 1. cbn [Zdigits2]. rewrite fexp_normal by lia.
  set (d := Zpos (digits2_pos q)) in *. destruct (stands_shr _ _ _ (d + e - 53 - e) Hs) as [Hs' He1].
  destruct (shr _ e _) as [mrs e1]. cbn [fst snd] in Hs', He1. destruct (nearest_even x mrs e1 Hs') as [Hr Herr].
  pose proof (stands_bounds _ _ _ Hs') as Hb. pose proof (pow2_pos e1) as Hp.
  replace (d - 1 + e) with (52 + e1) in Hx by lia. replace (d + e) with (53 + e1) in Hx by lia.
  assert (2 ^ 52 <= shr_m mrs < 2 ^ 53) as Hm.
  { rewrite !pow2_add, (pow2_IZR 52), (pow2_IZR 53) in Hx by lia. split.
    - assert (2 ^ 52 < shr_m mrs + 1); [|lia]. apply lt_IZR. rewrite plus_IZR. nra.
    - apply lt_IZR. nra. }
  destruct (finish_fits s (round_nearest_even (shr_m mrs) (loc_of_shr_record mrs)) e1) as (p & e' & E & Ep & Hd); [lia..|].
  exists p, e'. split; [done|]. split; [|lia]. unfold near. rewrite Ep. eapply Rle_trans; [apply Herr|]. apply half_unit. lra.
Qed.

Lemma stands_exact q e : stands (magnitude q e) (shr_record_of_loc (Zpos q) loc_Exact) e.
Proof. split; [done|]. exists 0%R. split; [done|]. cbn. unfold magnitude. by rewrite Rplus_0_r. Qed.

Lemma near_refl x : (0 <= x)%R -> near x x.
Proof. intros H. unfold near. rewrite Rminus_diag, Rabs_R0. pose proof (pow2_pos (- 53)). nra. Qed.

Lemma normal_pos x : normal x -> (0 < x)%R.
Proof. intros [H _]. pose proof (pow2_pos (- 900)). lra. Qed.

(** ** The operations *)

Lemma round_exact_near s q e : normal (magnitude q e) ->
  exists p e', round_aux s (Zpos q) e loc_Exact = S754_finite s p e' /\ near (magnitude p e') (magnitude q e).
Proof.
  intros Hn. destruct (Z.lt_ge_cases (Zpos q) (2 ^ 53)) as [Hq|Hq].
  - destruct (round_short s q e Hq Hn) as (p & e' & E & Hp & _). exists p, e'. split; [done|]. rewrite Hp.
    apply near_refl. pose proof (normal_pos _ Hn). lra.
  - destruct (round_long s q e loc_Exact _ ltac:(lia) (stands_exact q e) Hn) as (p & e' & E & Hp & _). by exists p, e'.
Qed.

Lemma SFmul_near s1 m1 e1 s2 m2 e2 : normal (magnitude m1 e1 * magnitude m2 e2) ->
  exists p e', SFmul prec emax (S754_finite s1 m1 e1) (S754_finite s2 m2 e2) = S754_finite (xorb s1 s2) p e'
    /\ near (magnitude p e') (magnitude m1 e1 * magnitude m2 e2).
Proof.
  assert (magnitude m1 e1 * magnitude m2 e2 = magnitude (m1 * m2) (e1 + e2))%R as ->
    by (unfold magnitude; rewrite Pos2Z.inj_mul, mult_IZR, pow2_add; ring).
  apply round_exact_near.
Qed.

Lemma shl_align_magnitude m e e0 : magnitude (fst (shl_align m e e0)) (snd (shl_align m e e0)) = magnitude m e.
Proof.
  unfold shl_align. destruct (e0 - e) as [|d|d] eqn:E; [done..|]. cbn [fst snd]. replace e with (e0 + Zpos d) by lia.
  unfold magnitude. rewrite (Z.add_comm e0), pow2_add, (pow2_IZR (Zpos d)) by lia.
  assert (Zpos (Pos.iter xO m d) = Zpos m * 2 ^ Zpos d) as ->; [|rewrite mult_IZR; ring].
  clear. induction d as [|d IH] using Pos.peano_ind; [change (2 ^ 1) with 2; cbn [Pos.iter]; lia|].
  rewrite Pos.iter_succ, Pos2Z.inj_succ, Z.pow_succ_r, Pos2Z.inj_xO, IH by lia. lia.
Qed.

Lemma shl_align_up m e e0 : e0 <= e -> snd (shl_align m e e0) = e0.
Proof. intros H. unfold shl_align. destruct (e0 - e) eqn:E; cbn; lia. Qed.

Lemma binary_round_near s q e : normal (magnitude q e) ->
  exists p e', binary_round prec emax s q e = S754_finite s p e' /\ near (magnitude p e') (magnitude q e).
Proof.
  intros Hn. unfold binary_round. rewrite <- (shl_align_magnitude q e (fexp prec emax (Zpos (digits2_pos q) + e))) in *.
  destruct (shl_align q e _) as [mz ez]. by apply round_exact_near.
Qed.

Lemma SFadd_near s m1 e1 m2 e2 : normal (magnitude m1 e1 + magnitude m2 e2) ->
  exists p e', SFadd prec emax (S754_finite s m1 e1) (S754_finite s m2 e2) = S754_finite s p e'
    /\ near (magnitude p e') (magnitude m1 e1 + magnitude m2 e2).
Proof.
  unfold SFadd. set (ez := Z.min e1 e2). pose proof (shl_align_magnitude m1 e1 ez) as H1. pose proof (shl_align_magnitude m2 e2 ez) as H2.
  rewrite shl_align_up in H1, H2 by (subst ez; lia). rewrite <- H1, <- H2.
  set (p1 := fst (shl_align m1 e1 ez)). set (p2 := fst (shl_align m2 e2 ez)).
  assert (magnitude p1 ez + magnitude p2 ez = magnitude (p1 + p2) ez)%R as -> by (unfold magnitude; rewrite Pos2Z.inj_add, plus_IZR; ring).
  destruct s; apply binary_round_near.
Qed.

(** An integer of at most 53 bits is a double. *)
Lemma double_of_Z_exact m : 0 < Zpos m < 2 ^ 53 -> forall s, exists p e',
  double_of_Z (if s : bool then Zneg m else Zpos m) = S754_finite s p e' /\ magnitude p e' = IZR (Zpos m)
  /\ 2 ^ 52 <= Zpos p.
Proof.
  intros Hm s. assert (normal (IZR (Zpos m))) as Hn.
  { split.
    - apply Rle_trans with (pow2 0); [apply pow2_le; lia|]. apply IZR_le. lia.
    - rewrite pow2_IZR by lia. apply IZR_le. assert (2 ^ 53 <= 2 ^ 900) by (apply Z.pow_le_mono_r; lia). lia. }
  assert (exists p e', binary_round prec emax s m 0 = S754_finite s p e' /\ magnitude p e' = IZR (Zpos m)
          /\ 2 ^ 52 <= Zpos p) as (p & e' & E & Hp & Hd).
  2: { exists p, e'. by destruct s. }
  assert (IZR (Zpos m) = magnitude m 0) as Em by (unfold magnitude; change (pow2 0) with 1%R; ring).
  unfold binary_round. pose proof (digits2_le m 53 ltac:(lia) ltac:(lia)) as Hd. rewrite fexp_normal by lia.
  pose proof (shl_align_magnitude m 0 (Zpos (digits2_pos m) + 0 - 53)) as Hs. rewrite shl_align_up in Hs by lia.
  rewrite (surjective_pairing (shl_align _ _ _)), shl_align_up by lia. set (q := fst _) in *.
  assert (Zpos q < 2 ^ 53).
  { apply lt_IZR. rewrite <- pow2_IZR by lia. destruct (digits2_bounds m) as [_ Hb]. apply IZR_lt in Hb.
    rewrite Em, <- Hs, <- pow2_IZR in Hb by lia. unfold magnitude in Hb.
    replace (Zpos (digits2_pos m)) with (53 + (Zpos (digits2_pos m) + 0 - 53)) in Hb at 2 by lia. rewrite pow2_add in Hb.
    pose proof (pow2_pos (Zpos (digits2_pos m) + 0 - 53)). nra. }
  assert (2 ^ 52 <= Zpos q).
  { apply le_IZR. rewrite <- pow2_IZR by lia. destruct (digits2_bounds m) as [Hb _]. apply IZR_le in Hb.
    rewrite Em, <- Hs, <- pow2_IZR in Hb by lia. unfold magnitude in Hb.
    replace (Zpos (digits2_pos m) - 1) with (52 + (Zpos (digits2_pos m) + 0 - 53)) in Hb by lia. rewrite pow2_add in Hb.
    pose proof (pow2_pos (Zpos (digits2_pos m) + 0 - 53)). nra. }
  rewrite Em in *. rewrite <- Hs in *. destruct (round_short s q (Zpos (digits2_pos m) + 0 - 53)) as (p & e' & E & Hp & Hd'); [done..|].
  exists p, e'. auto.
Qed.

(** What a remainder says of the rest of a quotient. *)
Lemma new_location_at n r : 0 <= r < Zpos n -> at_loc (new_location (Zpos n) r) (IZR r / IZR (Zpos n)).
Proof.
  intros Hr. assert (0 < IZR (Zpos n))%R as Hn by (apply IZR_lt; lia).
  assert (forall c, (c = Lt -> 2 * r < Zpos n) -> (c = Eq -> 2 * r = Zpos n) -> (c = Gt -> Zpos n < 2 * r) -> r <> 0 ->
            at_loc (loc_Inexact c) (IZR r / IZR (Zpos n))) as K.
  { intros c HL HE HG Hz. assert (0 < IZR r < IZR (Zpos n))%R by (split; apply IZR_lt; lia).
    destruct c; cbn [at_loc].
    - apply Rmult_eq_reg_r with (IZR (Zpos n)); [|lra]. unfold Rdiv. rewrite Rmult_assoc, Rinv_l by lra.
      rewrite <- HE, mult_IZR by done. lra.
    - specialize (HL eq_refl). apply IZR_lt in HL. rewrite mult_IZR in HL.
      split; [apply Rdiv_lt_0_compat; lra|]. apply Rmult_lt_reg_r with (IZR (Zpos n)); [lra|].
      unfold Rdiv. rewrite Rmult_assoc, Rinv_l by lra. lra.
    - specialize (HG eq_refl). apply IZR_lt in HG. rewrite mult_IZR in HG.
      split; (apply Rmult_lt_reg_r with (IZR (Zpos n)); [lra|]); unfold Rdiv; rewrite !Rmult_assoc, Rinv_l by lra; lra. }
  assert (r = 0 -> at_loc loc_Exact (IZR r / IZR (Zpos n))) as K0 by (intros ->; cbn; lra).
  unfold new_location, new_location_even, new_location_odd.
  destruct (Z.even (Zpos n)) eqn:Ev; (destruct (Z.eqb_spec r 0) as [Ez|Ez]; [by apply K0|]); apply K; try done.
  1: by intros ?%Z.compare_eq_iff.
  1: by intros ?%Z.compare_gt_iff.
  all: assert (2 * r <> Zpos n) by (intros E2; rewrite <- E2, Z.even_mul in Ev; done).
  all: destruct (Z.compare_spec (2 * r + 1) (Zpos n)); intros; done || lia.
Qed.

Lemma magnitude_range m e :
  (pow2 (Zpos (digits2_pos m) - 1 + e) <= magnitude m e < pow2 (Zpos (digits2_pos m) + e))%R.
Proof. apply mantissa_range. unfold magnitude. pose proof (pow2_pos e). nra. Qed.

Lemma magnitude_pos m e : (0 < magnitude m e)%R.
Proof. unfold magnitude. pose proof (pow2_pos e). pose proof (IZR_lt 0 (Zpos m) ltac:(lia)). nra. Qed.

(** The quotient, and the location of the rest, on a grid fine enough for 53 bits. *)
Lemma div_core m1 e1 m2 e2 : normal (magnitude m1 e1 / magnitude m2 e2) ->
  exists q e' l, SFdiv_core_binary prec emax (Zpos m1) e1 (Zpos m2) e2 = (Zpos q, e', l)
    /\ 2 ^ 52 <= Zpos q /\ stands (magnitude m1 e1 / magnitude m2 e2) (shr_record_of_loc (Zpos q) l) e'.
Proof.
  intros Hn. set (x := (magnitude m1 e1 / magnitude m2 e2)%R) in *.
  destruct (magnitude_range m1 e1) as [Ha1 Hb1], (magnitude_range m2 e2) as [Ha2 Hb2].
  pose proof (magnitude_pos m1 e1) as P1. pose proof (magnitude_pos m2 e2) as P2.
  set (d1 := Zpos (digits2_pos m1)) in *. set (d2 := Zpos (digits2_pos m2)) in *.
  set (D := d1 + e1 - (d2 + e2)).
  assert (x * magnitude m2 e2 = magnitude m1 e1)%R as Ex by (subst x; unfold Rdiv; rewrite Rmult_assoc, Rinv_l by lra; ring).
  assert (pow2 (D - 1) < x < pow2 (D + 1))%R as Hx.
  { split; apply Rmult_lt_reg_r with (magnitude m2 e2); try done; rewrite Ex.
    - apply Rlt_le_trans with (pow2 (D - 1) * pow2 (d2 + e2))%R; [pose proof (pow2_pos (D - 1)); nra|].
      rewrite <- pow2_add. replace (D - 1 + (d2 + e2)) with (d1 - 1 + e1) by lia. done.
    - apply Rlt_le_trans with (pow2 (D + 1) * pow2 (d2 - 1 + e2))%R; [|pose proof (pow2_pos (D + 1)); nra].
      rewrite <- pow2_add. replace (D + 1 + (d2 - 1 + e2)) with (d1 + e1) by lia. done. }
  assert (- 901 < D) by (destruct Hn; assert (- 900 < D + 1); [apply pow2_lt_inv; lra|lia]).
  unfold SFdiv_core_binary. cbn [Zdigits2]. fold d1 d2. fold D. rewrite fexp_normal by lia.
  set (e' := Z.min (D - 53) (e1 - e2)). set (s := e1 - e2 - e').
  assert (match s with 0 => Zpos m1 | Zpos _ => Z.shiftl (Zpos m1) s | Zneg _ => 0 end = Zpos m1 * 2 ^ s) as ->.
  { assert (0 <= s) by (subst s e'; lia). destruct s as [|s'|s']; [rewrite Z.pow_0_r; lia|apply Z.shiftl_mul_pow2; lia|lia]. }
  set (M := Zpos m1 * 2 ^ s). assert (0 <= s) by (subst s e'; lia).
  pose proof (Z_div_mod M (Zpos m2) ltac:(lia)) as Hdiv. destruct (Z.div_eucl M (Zpos m2)) as [q r]. destruct Hdiv as [HM Hr].
  assert (0 < IZR (Zpos m2))%R as Hm2 by (apply IZR_lt; lia).
  assert (x = (IZR q + IZR r / IZR (Zpos m2)) * pow2 e')%R as Eq.
  { apply Rmult_eq_reg_r with (magnitude m2 e2); [|lra]. rewrite Ex. unfold magnitude.
    replace ((IZR q + IZR r / IZR (Zpos m2)) * pow2 e' * (IZR (Zpos m2) * pow2 e2))%R
      with ((IZR (Zpos m2) * IZR q + IZR r) * (pow2 e' * pow2 e2))%R by (field; lra).
    rewrite <- mult_IZR, <- plus_IZR, <- HM, <- pow2_add. subst M. rewrite mult_IZR, <- pow2_IZR, Rmult_assoc, <- pow2_add by done.
    do 2 f_equal. subst s. lia. }
  assert (0 <= IZR r / IZR (Zpos m2) < 1)%R as Hf.
  { split; [apply Rmult_le_pos; [apply IZR_le; lia|left; by apply Rinv_0_lt_compat]|].
    apply Rmult_lt_reg_r with (IZR (Zpos m2)); [done|]. unfold Rdiv. rewrite Rmult_assoc, Rinv_l by lra.
    rewrite Rmult_1_r, Rmult_1_l. apply IZR_lt. lia. }
  assert (2 ^ 52 <= q) as Hq.
  { assert (2 ^ 52 < q + 1); [|lia]. apply lt_IZR. rewrite plus_IZR. pose proof (pow2_pos e').
    apply Rmult_lt_reg_r with (pow2 e'); [done|]. rewrite <- pow2_IZR, <- pow2_add by lia.
    apply Rle_lt_trans with (pow2 (D - 1)); [apply pow2_le; subst e'; lia|]. nra. }
  destruct q as [|q|q]; [lia| |lia]. exists q, e', (new_location (Zpos m2) r). split; [done|]. split; [done|].
  destruct (loc_record (Zpos q) (new_location (Zpos m2) r)) as [E1 E2]. split; [by rewrite E1|]. rewrite E1, E2.
  exists (IZR r / IZR (Zpos m2))%R. split; [by apply new_location_at|done].
Qed.

Lemma SFdiv_near s1 m1 e1 s2 m2 e2 : normal (magnitude m1 e1 / magnitude m2 e2) ->
  exists p e', SFdiv prec emax (S754_finite s1 m1 e1) (S754_finite s2 m2 e2) = S754_finite (xorb s1 s2) p e'
    /\ near (magnitude p e') (magnitude m1 e1 / magnitude m2 e2) /\ 2 ^ 52 <= Zpos p.
Proof.
  intros Hn. destruct (div_core m1 e1 m2 e2 Hn) as (q & e' & l & E & Hq & Hs).
  unfold SFdiv. rewrite E. by apply round_long.
Qed.

(** ** The scale of a price

    A double near [v / 10^8], scaled and rounded by [to_price_t], is [v]. *)

Lemma trunc_between s m e k : 0 <= k < 2 ^ 62 -> (IZR k <= magnitude m e < IZR (k + 1))%R ->
  trunc_Z (S754_finite s m e) = Some (if s then - k else k).
Proof.
  intros Hk Hm. unfold trunc_Z, magnitude in *.
  assert ((if 0 <=? e then Zpos m * 2 ^ e else Zpos m / 2 ^ (- e)) = k) as ->.
  { destruct (Z.leb_spec 0 e).
    - rewrite pow2_IZR, <- mult_IZR in Hm by done. destruct Hm as [H1%le_IZR H2%lt_IZR]. lia.
    - symmetry. assert (0 < 2 ^ (- e)) by (apply Z.pow_pos_nonneg; lia).
      assert (pow2 e * IZR (2 ^ (- e)) = 1)%R as Ee by (rewrite <- pow2_IZR, <- pow2_add, Z.add_opp_diag_r by lia; done).
      assert (0 < IZR (2 ^ (- e)))%R by (apply IZR_lt; lia).
      assert (k * 2 ^ (- e) <= Zpos m < (k + 1) * 2 ^ (- e)) as Hb.
      { assert (IZR (Zpos m) = IZR (Zpos m) * pow2 e * IZR (2 ^ (- e)))%R as Em by (rewrite Rmult_assoc, Ee; ring).
        split; [apply le_IZR|apply lt_IZR]; rewrite mult_IZR, Em; [apply Rmult_le_compat_r|apply Rmult_lt_compat_r]; lra. }
      apply Z.div_unique with (Zpos m - 2 ^ (- e) * k); lia. }
  destruct s; [destruct (Z.leb_spec (- 2 ^ 63) (- k)), (Z.ltb_spec (- k) (2 ^ 63))
              |destruct (Z.leb_spec (- 2 ^ 63) k), (Z.ltb_spec k (2 ^ 63))]; (done || lia).
Qed.

Abbreviation u := (pow2 (- 53)).

Lemma near_between x' x y : near x' x -> (0 <= x <= y)%R -> (x - y * u <= x' <= x + y * u)%R.
Proof.
  unfold near. intros H Hx. assert (x * u <= y * u)%R by (pose proof (pow2_pos (- 53)); nra).
  unfold Rabs in H. destruct (Rcase_abs _); lra.
Qed.

Lemma half_value : half = S754_finite false 4503599627370496 (- 53) /\ magnitude 4503599627370496 (- 53) = (1 / 2)%R.
Proof.
  split; [vm_compute; reflexivity|]. unfold magnitude. change 4503599627370496 with (2 ^ 52).
  rewrite <- pow2_IZR, <- pow2_add by lia. change (52 + - 53) with (0 - 1).
  pose proof (pow2_half 0) as H. change (pow2 0) with 1%R in H. lra.
Qed.

Lemma SFltb_zero s m e : SFltb (S754_finite s m e) (double_of_Z 0) = s.
Proof. by destruct s. Qed.

Lemma normal_between x : (1 / 2 <= x <= IZR (2 ^ 52))%R -> normal x.
Proof.
  intros Hx. rewrite <- pow2_IZR in Hx by lia. pose proof (pow2_half 0) as H. change (pow2 0) with 1%R in H.
  pose proof (pow2_le (- 900) (0 - 1) ltac:(lia)). pose proof (pow2_le 52 900 ltac:(lia)). split; lra.
Qed.

Lemma scaled_rounds s m e v : 0 < v < 2 ^ 50 -> near (magnitude m e) (IZR v / IZR DOUBLE_MULTIPLIER) ->
  to_price_t (S754_finite s m e) = Some (if s then - v else v).
Proof.
  intros Hv Hm. destruct (double_of_Z_exact 100000000 ltac:(lia) false) as (ps & es & Es & Vs & _). cbn iota in Es.
  assert (IZR v * u <= 1 / 8)%R as Hu.
  { assert (pow2 (- 3) = 1 / 8)%R as <-.
    { change (- 3) with (Z.opp 3); rewrite (pow2_neg 3) by lia. change (2 ^ 3) with 8. lra. }
    change (- 3) with (50 + - 53). rewrite pow2_add. apply Rmult_le_compat_r; [left; apply pow2_pos|].
    rewrite pow2_IZR by lia. apply IZR_le. lia. }
  assert (0 < u < 1 / 1000)%R as Hu1.
  { split; [apply pow2_pos|]. apply Rle_lt_trans with (pow2 (- 10)); [apply pow2_le; lia|].
    change (- 10) with (Z.opp 10); rewrite (pow2_neg 10) by lia. change (2 ^ 10) with 1024. lra. }
  assert (1 <= IZR v <= IZR (2 ^ 50))%R as Hv' by (split; apply IZR_le; lia).
  assert (IZR (2 ^ 50) + 10 <= IZR (2 ^ 52))%R as H52 by (rewrite <- (plus_IZR _ 10); apply IZR_le; lia).
  unfold to_price_t. rewrite SFltb_zero. unfold DOUBLE_MULTIPLIER in *. rewrite Es.
  assert (IZR v - 1 / 8 <= magnitude m e * magnitude ps es <= IZR v + 1 / 8)%R as Hprod.
  { rewrite Vs. apply (near_between _ _ (IZR v / 100000000)) in Hm; [|lra]. nra. }
  destruct (SFmul_near s m e false ps es) as (p & ep & Ep & Np); [apply normal_between; lra|]. rewrite Ep, xorb_false_r.
  apply (near_between _ _ (IZR v + 1 / 8)%R) in Np; [|lra].
  destruct half_value as [Eh Vh].
  assert ((if s then SFopp half else half) = S754_finite s 4503599627370496 (- 53)) as -> by (rewrite Eh; by destruct s).
  destruct (SFadd_near s p ep 4503599627370496 (- 53)) as (q & eq & Eq & Nq); [rewrite Vh; apply normal_between; lra|].
  rewrite Eq. rewrite Vh in Nq. apply (near_between _ _ (IZR v + 1)%R) in Nq; [|lra].
  apply trunc_between; [lia|]. rewrite plus_IZR. lra.
Qed.

(** A double within one part in 2^53 of a decimal is scaled to it. *)
Lemma to_price_double_reads s v : 0 < Zpos v < 2 ^ 50 ->
  to_price_t (to_price_double (if s : bool then Zneg v else Zpos v)) = Some (if s then Zneg v else Zpos v).
Proof.
  intros Hv. destruct (double_of_Z_exact 100000000 ltac:(lia) false) as (ps & es & Es & Vs & _). cbn iota in Es.
  destruct (double_of_Z_exact v ltac:(lia) s) as (pv & ev & Ev & Vv & _).
  assert (1 <= IZR (Zpos v) <= IZR (2 ^ 50))%R as Hv' by (split; apply IZR_le; lia).
  unfold to_price_double. unfold DOUBLE_MULTIPLIER. rewrite Ev, Es.
  destruct (SFdiv_near s pv ev false ps es) as (p & ep & Ep & Np & _).
  - rewrite Vv, Vs. split.
    + apply Rle_trans with (pow2 (- 30)); [apply pow2_le; lia|]. change (- 30) with (Z.opp 30); rewrite (pow2_neg 30) by lia. change (2 ^ 30) with 1073741824. lra.
    + apply Rle_trans with (pow2 50); [rewrite pow2_IZR by lia; lra|apply pow2_le; lia].
  - rewrite Ep, xorb_false_r. rewrite Vv, Vs in Np. by apply (scaled_rounds s p ep (Zpos v)) in Np as ->; [destruct s|].
Qed.
