(* ===== verification/Decimals.v ===== *)
(** * Reading the numbers clients and venues send as text

    The code reads prices and sizes with the standard library's [std::stod] (in the gateways,
    the JSON parser and Hyperliquid's feed) and integers with [std::stoull]; both are modelled
    here, with the conversions of [src/common/types.hpp] applied to what they return. *)

From S2P Require Import Prelude Types Binary64.
From Stdlib Require Import Reals Lra.
#[local] Open Scope Z_scope.

Inductive StdRead (A : Type) := Read (a : A) | InvalidArgument | OutOfRange.
Arguments Read {A} a.
Arguments InvalidArgument {A}.
Arguments OutOfRange {A}.

(** ** The pieces of a number *)

Definition is_space (c : ascii) : bool := (char_code c =? 32) || ((9 <=? char_code c) && (char_code c <=? 13)).

Fixpoint skip_spaces (l : bytes) : bytes :=
  match l with
  | c :: r => if is_space c then skip_spaces r else l
  | [] => []
  end.

Definition split_sign (l : bytes) : bool * bytes :=
  match l with
  | c :: r => if char_code c =? 45 then (true, r) else if char_code c =? 43 then (false, r) else (false, l)
  | [] => (false, [])
  end.

(** The longest run of characters [ok] accepts, and the rest. *)
Fixpoint span (ok : ascii -> bool) (l : bytes) : bytes * bytes :=
  match l with
  | c :: r => if ok c then let '(a, b) := span ok r in (c :: a, b) else ([], l)
  | [] => ([], [])
  end.

Definition fraction (ok : ascii -> bool) (l : bytes) : bytes * bytes :=
  match l with
  | c :: r => if char_code c =? 46 then span ok r else ([], l)
  | [] => ([], [])
  end.

(** An exponent after [marker] counts only if it has digits. *)
Definition exponent (marker : ascii) (l : bytes) : Z :=
  match l with
  | c :: r =>
      if bool_decide (upper c = marker) then
        let '(s, r) := split_sign r in
        let ds := fst (span is_digit r) in
        if s then - dec_value ds else dec_value ds
      else 0
  | [] => 0
  end.

(** Digits, a point and digits, an exponent: the digits' value and the power of ten. *)
Definition decimal_body (l : bytes) : option (Z * Z) :=
  let '(ip, l) := span is_digit l in
  let '(fp, l) := fraction is_digit l in
  if bool_decide (ip ++ fp = []) then None
  else Some (dec_value (ip ++ fp), exponent "E" l - Z.of_nat (List.length fp)).

Definition is_hex_digit (c : ascii) : bool :=
  is_digit c || ((65 <=? char_code (upper c)) && (char_code (upper c) <=? 70)).
Definition hex_val (c : ascii) : Z := if is_digit c then digit_val c else char_code (upper c) - 55.
Definition hex_value (l : bytes) : Z := fold_left (fun v c => 16 * v + hex_val c) l 0.

(** The same in base sixteen, after [0x]; the exponent is of two. *)
Definition hex_body (l : bytes) : option (Z * Z) :=
  match l with
  | z :: x :: l =>
      if (char_code z =? 48) && bool_decide (upper x = "X"%char) then
        let '(ip, l) := span is_hex_digit l in
        let '(fp, l) := fraction is_hex_digit l in
        if bool_decide (ip ++ fp = []) then None
        else Some (hex_value (ip ++ fp), exponent "P" l - 4 * Z.of_nat (List.length fp))
      else None
  | _ => None
  end.

(** ** [std::stod] *)

(** The double nearest to [m * 10^e]. *)
Definition of_decimal (s : bool) (m : Z) (e : Z) : Types.double :=
  match m with
  | Zpos p =>
      if 0 <=? e then double_of_Z (cond_Zopp s (m * 10 ^ e))
      else SFdiv prec emax (S754_finite s p 0) (S754_finite false (Z.to_pos (10 ^ (- e))) 0)
  | _ => S754_zero s
  end.

Definition of_binary (s : bool) (m : Z) (e : Z) : Types.double :=
  match m with Zpos p => binary_round prec emax s p e | _ => S754_zero s end.

(** Whether a finite double is [m * 10^e], or [m * 2^e]. *)
Definition is_decimal (p : positive) (pe m e : Z) : bool :=
  Zpos p * 2 ^ Z.max 0 pe * 10 ^ Z.max 0 (- e) =? m * 10 ^ Z.max 0 e * 2 ^ Z.max 0 (- pe).
Definition is_binary (p : positive) (pe m e : Z) : bool :=
  Zpos p * 2 ^ Z.max 0 (pe - e) =? m * 2 ^ Z.max 0 (e - pe).

(** An overflow, or an underflow that loses something, is [ERANGE]. *)
Definition in_range (exact : positive -> Z -> bool) (m : Z) (d : Types.double) : StdRead Types.double :=
  match d with
  | S754_infinity _ => OutOfRange
  | S754_zero _ => if m =? 0 then Read d else OutOfRange
  | S754_finite _ p e => if (Zpos (digits2_pos p) <? prec) && negb (exact p e) then OutOfRange else Read d
  | S754_nan => Read d
  end.

Definition stod (text : bytes) : StdRead Types.double :=
  let '(s, l) := split_sign (skip_spaces text) in
  if iequals (take 3 l) (str "INF") then Read (S754_infinity s)
  else if iequals (take 3 l) (str "NAN") then Read S754_nan
  else
    match hex_body l with
    | Some (m, e) => in_range (fun p pe => is_binary p pe m e) m (of_binary s m e)
    | None =>
        match decimal_body l with
        | Some (m, e) => in_range (fun p pe => is_decimal p pe m e) m (of_decimal s m e)
        | None => InvalidArgument
        end
    end.

(** ** [std::stoull]: a minus sign is taken, and the value negated modulo 2^64 *)

Definition stoull (text : bytes) : StdRead Z :=
  let '(s, l) := split_sign (skip_spaces text) in
  let ds := fst (span is_digit l) in
  if bool_decide (ds = []) then InvalidArgument
  else if 2 ^ 64 <=? dec_value ds then OutOfRange
  else Read (if s then u64 (- dec_value ds) else dec_value ds).

(** ** A decimal of at most eight places *)

Lemma digit_range c : is_digit c = true -> 48 <= char_code c <= 57.
Proof. unfold is_digit. rewrite andb_true_iff, !Z.leb_le. done. Qed.

Lemma digits_nonneg l : forallb is_digit l = true -> 0 <= dec_value l.
Proof.
  induction l as [|c l IH]; [done|]. cbn [forallb]. intros [Hc Hl]%andb_true_iff. rewrite dec_value_cons.
  apply digit_range in Hc. specialize (IH Hl). unfold digit_val.
  pose proof (Z.pow_nonneg 10 (Z.of_nat (List.length l)) ltac:(lia)). nia.
Qed.

Lemma span_digits ds rest : forallb is_digit ds = true ->
  (match rest with c :: _ => is_digit c = false | [] => True end) -> span is_digit (ds ++ rest) = (ds, rest).
Proof.
  intros Hd Hr. induction ds as [|c ds IH]; cbn [app span].
  - destruct rest as [|c rest]; [done|]. cbn. by rewrite Hr.
  - cbn [forallb] in Hd. apply andb_true_iff in Hd as [-> Hd]. by rewrite (IH Hd).
Qed.

Lemma split_point_app l ip fp : split_point l = (ip, fp) -> l = ip ++ match fp with Some f => "."%char :: f | None => [] end.
Proof.
  revert ip. induction l as [|c l IH]; intros ip; cbn [split_point]; [by intros [= <- <-]|].
  destruct (Z.eqb_spec (char_code c) 46) as [Hc|Hc].
  - intros [= <- <-]. cbn. f_equal. apply (f_equal char_of) in Hc. unfold char_of, char_code in Hc.
    by rewrite N2Z.id, ascii_N_embedding in Hc.
  - destruct (split_point l) as [a b]. intros [= <- <-]. cbn. f_equal. by apply IH.
Qed.

(** A text of digits, with at most eight of them after a point, as [parse_unsigned] reads it. *)
Lemma parse_unsigned_shape l v : parse_unsigned l = Some v -> exists ip fp,
  l = ip ++ match fp with Some f => "."%char :: f | None => [] end /\ ip <> []
  /\ forallb is_digit ip = true /\ forallb is_digit (default [] fp) = true
  /\ (List.length (default [] fp) <= 8)%nat
  /\ v = dec_value (ip ++ default [] fp) * 10 ^ (8 - Z.of_nat (List.length (default [] fp))).
Proof.
  unfold parse_unsigned. destruct (split_point l) as [ip fp] eqn:E. apply split_point_app in E.
  destruct (bool_decide (ip <> [])) eqn:E0; [|done]. destruct (forallb is_digit ip) eqn:E1; [|done].
  destruct (forallb is_digit (default [] fp)) eqn:E2; [|done]. destruct (_ <=? 8) eqn:E3; [|done].
  apply Z.leb_le in E3. apply bool_decide_eq_true in E0. intros [= <-]. exists ip, fp.
  repeat split; try done; [lia|]. rewrite dec_value_app.
  unfold DOUBLE_MULTIPLIER. change 100000000 with (10 ^ 8).
  replace (10 ^ 8) with (10 ^ Z.of_nat (List.length (default [] fp)) * 10 ^ (8 - Z.of_nat (List.length (default [] fp)))); [ring|].
  rewrite <- Z.pow_add_r by lia. f_equal. lia.
Qed.

(** A text that starts with a digit has no sign, no space and no name in front. *)
Definition starts_digit (l : bytes) : Prop := match l with c :: _ => is_digit c = true | [] => False end.

Ltac digit_cases c := destruct c as [[] [] [] [] [] [] [] []]; try (discriminate || contradiction).

Lemma skip_spaces_digit l : starts_digit l -> skip_spaces l = l.
Proof. destruct l as [|c l]; [done|]. cbn. intros H. by digit_cases c. Qed.

Lemma split_sign_digit l : starts_digit l -> split_sign l = (false, l).
Proof. destruct l as [|c l]; [done|]. cbn. intros H. by digit_cases c. Qed.

Lemma iequals_digit l n x name : starts_digit l -> is_digit (upper x) = false -> iequals (take (S n) l) (x :: name) = false.
Proof.
  destruct l as [|c l]; [done|]. intros H Hx. apply iequals_iff_not. cbn. intros [= E _]. rewrite <- E in Hx.
  cbn in H. by digit_cases c.
Qed.

Lemma exponent_end marker : exponent marker [] = 0.
Proof. done. Qed.

(** The part of [stod] a plain decimal goes through. *)
Lemma decimal_body_plain ip fp : ip <> [] -> forallb is_digit ip = true -> forallb is_digit (default [] fp) = true ->
  let l := ip ++ match fp with Some f => "."%char :: f | None => [] end in
  hex_body l = None /\ decimal_body l = Some (dec_value (ip ++ default [] fp), - Z.of_nat (List.length (default [] fp))).
Proof.
  intros Hne Hip Hfp l. split.
  - unfold l. destruct ip as [|c [|c' ip]]; [done| |].
    + cbn. destruct fp as [f|]; cbn; [|done]. by destruct (_ =? 48).
    + cbn in Hip. apply andb_true_iff in Hip as [_ [Hc' _]%andb_true_iff]. cbn. destruct (_ =? 48); [|done].
      by digit_cases c'.
  - unfold decimal_body, l. rewrite span_digits by (done || by destruct fp).
    assert (fraction is_digit match fp with Some f => "."%char :: f | None => [] end = (default [] fp, [])) as ->.
    { destruct fp as [f|]; [|done]. cbn [fraction]. change (char_code "." =? 46) with true. cbn iota.
      rewrite <- (app_nil_r f) at 1. by apply span_digits. }
    rewrite bool_decide_eq_false_2 by (by destruct ip). done.
Qed.

Lemma stod_digits (s : bool) l m e : starts_digit l -> hex_body l = None -> decimal_body l = Some (m, e) ->
  stod (if s then "-"%char :: l else l) = in_range (fun p pe => is_decimal p pe m e) m (of_decimal s m e).
Proof.
  intros Hl Hh Hd. unfold stod.
  assert (iequals (take 3 l) (str "INF") = false) as HI by by apply (iequals_digit l 2 "I"%char (str "NF")).
  assert (iequals (take 3 l) (str "NAN") = false) as HN by by apply (iequals_digit l 2 "N"%char (str "AN")).
  destruct s.
  - change (skip_spaces ("-"%char :: l)) with ("-"%char :: l). change (split_sign ("-"%char :: l)) with (true, l).
    cbn iota beta. by rewrite HI, HN, Hh, Hd.
  - rewrite skip_spaces_digit, split_sign_digit by done. by rewrite HI, HN, Hh, Hd.
Qed.

(** ** The double read, and the price it is scaled to *)

Lemma in_range_full exact m s p e : 2 ^ 52 <= Zpos p -> in_range exact m (S754_finite s p e) = Read (S754_finite s p e).
Proof.
  intros Hp. cbn. pose proof (digits2_ge p 52 ltac:(lia) Hp).
  destruct (Z.ltb_spec (Zpos (digits2_pos p)) prec); [unfold prec in *; lia|done].
Qed.

Lemma to_qty_t_price d : to_qty_t d = to_price_t d.
Proof. done. Qed.

(** [m / 10^k], at most eight places and below [2^50] units of [10^-8]. *)
Lemma of_decimal_scaled (s : bool) p (k : nat) exact : (k <= 8)%nat -> Zpos p * 10 ^ (8 - Z.of_nat k) < 2 ^ 50 ->
  exists d, in_range exact (Zpos p) (of_decimal s (Zpos p) (- Z.of_nat k)) = Read d
    /\ to_price_t d = Some (if s then - (Zpos p * 10 ^ (8 - Z.of_nat k)) else Zpos p * 10 ^ (8 - Z.of_nat k)).
Proof.
  intros Hk Hp. set (v := Zpos p * 10 ^ (8 - Z.of_nat k)) in *.
  assert (1 <= 10 ^ (8 - Z.of_nat k)) by (apply Z.lt_pred_le, Z.pow_pos_nonneg; lia). assert (Zpos p <= v) by nia.
  assert (0 < 10 ^ Z.of_nat k) as Hten by (apply Z.pow_pos_nonneg; lia).
  assert (IZR v / IZR DOUBLE_MULTIPLIER = IZR (Zpos p) / IZR (10 ^ Z.of_nat k))%R as Ev.
  { unfold DOUBLE_MULTIPLIER. change 100000000 with (10 ^ 8).
    replace (10 ^ 8) with (10 ^ (8 - Z.of_nat k) * 10 ^ Z.of_nat k) by (rewrite <- Z.pow_add_r by lia; f_equal; lia).
    subst v. rewrite !mult_IZR. assert (0 < IZR (10 ^ Z.of_nat k))%R by (apply IZR_lt; lia).
    assert (0 < IZR (10 ^ (8 - Z.of_nat k)))%R by (apply IZR_lt; lia). field. lra. }
  unfold of_decimal. destruct (Z.leb_spec 0 (- Z.of_nat k)) as [Hk0|Hk0].
  - assert (k = 0%nat) as -> by lia. rewrite Z.pow_0_r, Z.mul_1_r.
    destruct (double_of_Z_exact p ltac:(lia) s) as (q & e & E & Vq & Hq).
    replace (cond_Zopp s (Zpos p)) with (if s then Zneg p else Zpos p) by (by destruct s). rewrite E.
    exists (S754_finite s q e). split; [by apply in_range_full|]. apply scaled_rounds; [lia|].
    rewrite Vq, Ev. cbn [Z.of_nat]. rewrite Z.pow_0_r, Rdiv_1_r. apply near_refl, IZR_le. lia.
  - rewrite Z.opp_involutive. assert (1 <= IZR (Zpos p) <= IZR (2 ^ 50))%R by (split; apply IZR_le; lia).
    assert (1 <= IZR (10 ^ Z.of_nat k) <= 100000000)%R as Hk10.
    { split; apply IZR_le; [lia|]. change 100000000 with (10 ^ 8). apply Z.pow_le_mono_r; lia. }
    assert (magnitude p 0 / magnitude (Z.to_pos (10 ^ Z.of_nat k)) 0 = IZR v / IZR DOUBLE_MULTIPLIER)%R as Em.
    { rewrite Ev. unfold magnitude. change (pow2 0) with 1%R. rewrite !Rmult_1_r, Z2Pos.id by lia. done. }
    destruct (SFdiv_near s p 0 false (Z.to_pos (10 ^ Z.of_nat k)) 0) as (q & e & E & Nq & Hq).
    + rewrite Em. assert (1 <= IZR v <= IZR (2 ^ 50))%R by (split; apply IZR_le; lia). unfold DOUBLE_MULTIPLIER. split.
      * apply Rle_trans with (pow2 (- 30)); [apply pow2_le; lia|]. change (-30) with (Z.opp 30).
        rewrite (pow2_neg 30) by lia. change (2 ^ 30) with 1073741824. lra.
      * apply Rle_trans with (pow2 50); [rewrite pow2_IZR by lia; lra|apply pow2_le; lia].
    + rewrite E, xorb_false_r, in_range_full by done. eexists. split; [done|]. apply scaled_rounds; [lia|]. by rewrite Em in Nq.
Qed.

Lemma of_decimal_zero (s : bool) e exact : exists d, in_range exact 0 (of_decimal s 0 e) = Read d /\ to_price_t d = Some 0.
Proof. exists (S754_zero s). by destruct s. Qed.

Lemma stod_unsigned (s : bool) l v : parse_unsigned l = Some v -> v < 2 ^ 50 ->
  exists d, stod (if s then "-"%char :: l else l) = Read d /\ to_price_t d = Some (if s then - v else v).
Proof.
  intros (ip & fp & -> & Hne & Hip & Hfp & Hlen & Ev)%parse_unsigned_shape Hv.
  destruct (decimal_body_plain ip fp Hne Hip Hfp) as [Hh Hd].
  assert (starts_digit (ip ++ match fp with Some f => "."%char :: f | None => [] end)) as Hs.
  { destruct ip as [|c ip]; [done|]. cbn in *. by apply andb_true_iff in Hip as [? _]. }
  rewrite (stod_digits s _ _ _ Hs Hh Hd). set (k := List.length (default [] fp)) in *.
  set (m := dec_value (ip ++ default [] fp)) in *.
  assert (0 <= m) by (apply digits_nonneg; by rewrite forallb_app, Hip, Hfp).
  destruct m as [|p|p] eqn:Em; [|rewrite Ev in *; by apply of_decimal_scaled|lia].
  destruct (of_decimal_zero s (- Z.of_nat k) (fun p pe => is_decimal p pe 0 (- Z.of_nat k))) as (d & -> & Hd0).
  exists d. split; [done|]. rewrite Hd0. f_equal. destruct s; lia.
Qed.

(** C27. A decimal with at most eight places, read with [std::stod] and scaled by
    [to_price_t] or [to_qty_t], is the fixed-point number it spells, as long as that is below
    2^50 in magnitude (about eleven million): no rounding of the text, of the product or of
    the half added to it moves it. In particular a price or quantity the simulator itself
    wrote is read back exactly, and so is one that was handed on as a double. *)
Theorem stod_reads_decimals : forall l v, parse_fixed l = Some v -> - 2 ^ 50 < v < 2 ^ 50 ->
  (exists d, stod l = Read d /\ to_price_t d = Some v /\ to_qty_t d = Some v)
  /\ (forall min, exists d, stod (to_fixed_string v min) = Read d /\ to_price_t d = Some v /\ to_qty_t d = Some v)
  /\ to_price_t (to_price_double v) = Some v /\ to_qty_t (to_qty_double v) = Some v.
Proof.
  assert (forall l v, parse_fixed l = Some v -> - 2 ^ 50 < v < 2 ^ 50 ->
            exists d, stod l = Read d /\ to_price_t d = Some v /\ to_qty_t d = Some v) as K.
  { intros [|c r] v H Hv; [done|]. cbn [parse_fixed] in H. destruct (Z.eqb_spec (char_code c) 45) as [Hc|Hc].
    - apply (f_equal char_of) in Hc. unfold char_of, char_code in Hc. rewrite N2Z.id, ascii_N_embedding in Hc. subst c.
      destruct (parse_unsigned r) as [w|] eqn:E; [|done]. injection H as <-.
      destruct (stod_unsigned true r w E ltac:(lia)) as (d & Hd & Hp). by exists d.
    - destruct (stod_unsigned false (c :: r) v H ltac:(lia)) as (d & Hd & Hp). by exists d. }
  intros l v H Hv. split; [by apply K|]. split; [intros min; apply K; [apply fixed_string_parses; lia|done]|].
  assert (to_price_t (to_price_double v) = Some v) as E; [|by split].
  destruct v as [|p|p]; [done|apply (to_price_double_reads false p); lia|apply (to_price_double_reads true p); lia].
Qed.

Lemma stod_reads_decimals_witness :
  parse_fixed (str "-11.005") = Some (-1100500000) /\
  (exists d, stod (str "-11.005") = Read d /\ to_price_t d = Some (-1100500000) /\ to_qty_t d = Some (-1100500000))
  /\ (forall min, exists d, stod (to_fixed_string (-1100500000) min) = Read d /\ to_price_t d = Some (-1100500000)
         /\ to_qty_t d = Some (-1100500000))
  /\ to_price_t (to_price_double (-1100500000)) = Some (-1100500000) /\ to_qty_t (to_qty_double (-1100500000)) = Some (-1100500000).
Proof. split; [reflexivity|]. apply (stod_reads_decimals (str "-11.005")); [reflexivity|lia]. Defined.

(** Beyond 2^53 units a decimal of eight places need not be a double's nearest tick. *)
Example stod_wide :
  match stod (str "90071992.54740993") with Read d => to_price_t d | _ => None end = Some 9007199254740994.
Proof. vm_compute. reflexivity. Qed.

Example stod_forms :
  map (fun s => match stod (str s) with Read d => to_price_t d | _ => None end)
    ["1.5"%string; " +2.50abc"%string; "1e-3"%string; "0x10"%string; "-.25"%string; "1e999"%string; "abc"%string; "inf"%string]
  = [Some 150000000; Some 250000000; Some 100000; Some 1600000000; Some (-25000000); None; None; None].
Proof. vm_compute. reflexivity. Qed.

Example stoull_forms :
  map (fun s => stoull (str s)) ["42"%string; "0.5"%string; "-1"%string; "99999999999999999999"%string; "x"%string]
  = [Read 42; Read 0; Read (2 ^ 64 - 1); OutOfRange; InvalidArgument].
Proof. vm_compute. reflexivity. Qed.
