(* ===== verification/Messages.v ===== *)
(** * Requests, responses and trade summaries

    Models [src/common/messages.hpp]. A wire struct is a record; the union inside
    [Request] is the inductive [RequestBody], so reading the wrong member of the union
    is not expressible. The zero-length arrays at the end of frames are lists. *)

From S2P Require Import Prelude Types FixedString Orders.

(** ** Reject reasons *)

Module ExecMessage.
Inductive ExecutionMessageType :=
  UNKNOWN | LOGON_REQUEST | TRADER_LOGON_REQUEST | LOGON_REPLY | LOGON_REJECT
| TRADER_LOGON_REPLY | SESSION_REJECT | NEW_ORDER_REQUEST | ORDER_CANCEL_REPLACE_REQUEST
| ORDER_CANCEL_REQUEST | ORDER_MASS_STATUS_REQUEST | BUSINESS_REJECT | EXECUTION_REPORT
| ORDER_CANCEL_REJECT | ORDER_CANCEL_REPLACE_REJECT | HEARTBEAT | NEWS | RETRANSMIT_REQUEST
| RETRANSMIT_RESPONSE.
End ExecMessage.

Module BusinessReject.
Inductive BusinessRejectReason := UNKNOWN | UNKNOWN_SECURITY_ID | DUPLICATE_REQUEST_ID.

Definition business_reject_to_string (r : BusinessRejectReason) : bytes :=
  match r with
  | UNKNOWN_SECURITY_ID => str "UNKNOWN_SECURITY_ID"
  | DUPLICATE_REQUEST_ID => str "DUPLICATE_REQUEST_ID"
  | UNKNOWN => str "UNKNOWN"
  end.
End BusinessReject.

Module SessionReject.
Inductive SessionRejectReason :=
  NONE | ALREADY_LOGGED_IN | NOT_LOGGED_IN | INVALID_SESSION_ID | UNKNOWN.

Definition session_reject_to_string (r : SessionRejectReason) : bytes :=
  match r with
  | NONE => str "NONE"
  | ALREADY_LOGGED_IN => str "ALREADY_LOGGED_IN"
  | NOT_LOGGED_IN => str "NOT_LOGGED_IN"
  | INVALID_SESSION_ID => str "INVALID_SESSION_ID"
  | UNKNOWN => str "UNKNOWN"
  end.
End SessionReject.

Module OrdReject.
Inductive OrdRejectReason :=
  NONE | UNKNOWN | UNKNOWN_CONTRACT | UNKNOWN_ORDER | MARKET_CLOSED | MARKET_HALTED | SMP
| INVALID_DISPLAY_QTY | FAK_MUST_BE_LIMIT | ICEBERG_MUST_BE_LIMIT | ICEBERG_MUST_BE_DAY_OR_GTC
| PRICE_CANT_BE_BELOW_STOP_PRICE | PRICE_CANT_BE_ABOVE_STOP_PRICE
| STOP_PRICE_MUST_BE_BELOW_LAST_TRADE_PRICE | STOP_PRICE_MUST_BE_ABOVE_LAST_TRADE_PRICE
| TIME_IN_FORCE_NOT_ALLOWED_IN_CURRENT_MARKET_STATE
| ORDER_TYPE_NOT_ALLOWED_IN_CURRENT_MARKET_STATE | INVALID_TICK_SIZE | INVALID_QTY
| INVALID_MIN_QTY | CLIENT_ORDER_ID_ALREADY_EXISTS | FOK_CANNOT_FILL.

#[export] Instance ord_reject_eq_dec : EqDecision OrdRejectReason.
Proof. solve_decision. Defined.

Definition ord_reject_to_string (r : OrdRejectReason) : bytes :=
  match r with
  | NONE => str "NONE"
  | UNKNOWN => str "UNKNOWN"
  | UNKNOWN_CONTRACT => str "UNKNOWN_CONTRACT"
  | UNKNOWN_ORDER => str "UNKNOWN_ORDER"
  | MARKET_CLOSED => str "MARKET_CLOSED"
  | MARKET_HALTED => str "MARKET_HALTED"
  | SMP => str "SMP"
  | INVALID_DISPLAY_QTY => str "INVALID_DISPLAY_QTY"
  | FAK_MUST_BE_LIMIT => str "FAK_MUST_BE_LIMIT"
  | ICEBERG_MUST_BE_LIMIT => str "ICEBERG_MUST_BE_LIMIT"
  | ICEBERG_MUST_BE_DAY_OR_GTC => str "ICEBERG_MUST_BE_DAY_OR_GTC"
  | PRICE_CANT_BE_BELOW_STOP_PRICE => str "PRICE_CANT_BE_BELOW_STOP_PRICE"
  | PRICE_CANT_BE_ABOVE_STOP_PRICE => str "PRICE_CANT_BE_ABOVE_STOP_PRICE"
  | STOP_PRICE_MUST_BE_BELOW_LAST_TRADE_PRICE => str "STOP_PRICE_MUST_BE_BELOW_LAST_TRADE_PRICE"
  | STOP_PRICE_MUST_BE_ABOVE_LAST_TRADE_PRICE => str "STOP_PRICE_MUST_BE_ABOVE_LAST_TRADE_PRICE"
  | TIME_IN_FORCE_NOT_ALLOWED_IN_CURRENT_MARKET_STATE =>
      str "TIME_IN_FORCE_NOT_ALLOWED_IN_CURRENT_MARKET_STATE"
  | ORDER_TYPE_NOT_ALLOWED_IN_CURRENT_MARKET_STATE =>
      str "ORDER_TYPE_NOT_ALLOWED_IN_CURRENT_MARKET_STATE"
  | INVALID_TICK_SIZE => str "INVALID_TICK_SIZE"
  | INVALID_QTY => str "INVALID_QTY"
  | INVALID_MIN_QTY => str "INVALID_MIN_QTY"
  | CLIENT_ORDER_ID_ALREADY_EXISTS => str "CLIENT_ORDER_ID_ALREADY_EXISTS"
  | FOK_CANNOT_FILL => str "FOK_CANNOT_FILL"
  end.
End OrdReject.
Export (hints) OrdReject.
Abbreviation OrdRejectReason := OrdReject.OrdRejectReason.

Module CxlReject.
Inductive CxlRejectReason :=
  NONE | UNKNOWN | MARKET_CLOSED | MARKET_HALTED | PREOPEN | ORDER_NOT_FOUND
| INVALID_DISPLAY_QTY | ICEBERG_REQUEST_ON_NON_ICEBERG | NON_ICEBERG_REQUEST_ON_ICEBERG
| ORDER_TYPE_MISMATCH | TIME_IN_FORCE_MISMATCH | PRICE_CANT_BE_BELOW_STOP_PRICE
| PRICE_CANT_BE_ABOVE_STOP_PRICE | STOP_PRICE_MUST_BE_BELOW_LAST_TRADE_PRICE
| STOP_PRICE_MUST_BE_ABOVE_LAST_TRADE_PRICE | INVALID_TICK_SIZE | INVALID_QTY
| INVALID_MIN_QTY | INTERCEPTED.

Definition cxl_reject_to_string (r : CxlRejectReason) : bytes :=
  match r with
  | NONE => str "NONE"
  | UNKNOWN => str "UNKNOWN"
  | MARKET_CLOSED => str "MARKET_CLOSED"
  | MARKET_HALTED => str "MARKET_HALTED"
  | PREOPEN => str "PREOPEN"
  | ORDER_NOT_FOUND => str "ORDER_NOT_FOUND"
  | INVALID_DISPLAY_QTY => str "INVALID_DISPLAY_QTY"
  | ICEBERG_REQUEST_ON_NON_ICEBERG => str "ICEBERG_REQUEST_ON_NON_ICEBERG"
  | NON_ICEBERG_REQUEST_ON_ICEBERG => str "NON_ICEBERG_REQUEST_ON_ICEBERG"
  | ORDER_TYPE_MISMATCH => str "ORDER_TYPE_MISMATCH"
  | TIME_IN_FORCE_MISMATCH => str "TIME_IN_FORCE_MISMATCH"
  | PRICE_CANT_BE_BELOW_STOP_PRICE => str "PRICE_CANT_BE_BELOW_STOP_PRICE"
  | PRICE_CANT_BE_ABOVE_STOP_PRICE => str "PRICE_CANT_BE_ABOVE_STOP_PRICE"
  | STOP_PRICE_MUST_BE_BELOW_LAST_TRADE_PRICE => str "STOP_PRICE_MUST_BE_BELOW_LAST_TRADE_PRICE"
  | STOP_PRICE_MUST_BE_ABOVE_LAST_TRADE_PRICE => str "STOP_PRICE_MUST_BE_ABOVE_LAST_TRADE_PRICE"
  | INVALID_TICK_SIZE => str "INVALID_TICK_SIZE"
  | INVALID_QTY => str "INVALID_QTY"
  | INVALID_MIN_QTY => str "INVALID_MIN_QTY"
  | INTERCEPTED => str "INTERCEPTED"
  end.
End CxlReject.

(** ** Requests *)

Module Msg.
Inductive MessageType :=
  UNKNOWN | NEW_ORDER_SINGLE | ORDER_CANCEL_REQUEST | ORDER_REPLACE_REQUEST | EXECUTION_REPORT
| ORDER_CANCEL_REJECT | HEARTBEAT | TEST_REQUEST | RE_SEND_REQUEST | REJECT | MD_SUBSCRIPTION
| MD_UNSUBSCRIPTION.

#[export] Instance message_type_eq_dec : EqDecision MessageType.
Proof. solve_decision. Defined.
End Msg.
Export (hints) Msg.
Abbreviation MessageType := Msg.MessageType.

Record AddOrderMessage := mkAddOrder {
  add_user_id : fixed_string;
  add_client_order_id : fixed_string;
  add_side : Side;
  add_type : OrderType;
  add_time_in_force : TimeInForce;
  add_price : price_t;
  add_qty : qty_t;
  add_take_profit_price : price_t;
  add_stop_loss_price : price_t;
  add_expire_time : time_t
}.

Record ModifyOrderMessage := mkModifyOrder {
  mod_user_id : fixed_string;
  mod_order_id : fixed_string;
  mod_client_order_id : fixed_string;
  mod_new_price : price_t;
  mod_new_qty : qty_t
}.

Record CancelOrderMessage := mkCancelOrder {
  cxl_user_id : fixed_string;
  cxl_order_id : fixed_string;
  cxl_client_order_id : fixed_string
}.

(** [client] is an opaque pointer. *)
Record MDSubscriptionMessage := mkMDSubscription {
  mds_channel : Z;
  mds_client : Z
}.

(** The union together with the [msg_type] that selects its member. *)
Inductive RequestBody :=
  ReqAdd (m : AddOrderMessage)
| ReqModify (m : ModifyOrderMessage)
| ReqCancel (m : CancelOrderMessage)
| ReqSubscribe (m : MDSubscriptionMessage)
| ReqUnsubscribe (m : MDSubscriptionMessage)
| ReqOther (t : MessageType).

Record Request := mkRequest {
  req_time_stamp : time_t;
  req_symbol : fixed_string;
  req_request_tag : Z;
  req_body : RequestBody
}.

Definition req_msg_type (r : Request) : MessageType :=
  match req_body r with
  | ReqAdd _ => Msg.NEW_ORDER_SINGLE
  | ReqModify _ => Msg.ORDER_REPLACE_REQUEST
  | ReqCancel _ => Msg.ORDER_CANCEL_REQUEST
  | ReqSubscribe _ => Msg.MD_SUBSCRIPTION
  | ReqUnsubscribe _ => Msg.MD_UNSUBSCRIPTION
  | ReqOther t => t
  end.

(** ** Responses *)

Record OrderResponse := mkResponse {
  r_identity : OrderIdentity;
  r_error_message : bytes;
  r_response_type : MessageType;
  r_exec_type : ExecType;
  r_order_status : OrderStatus;
  r_order_type : OrderType;
  r_time_in_force : TimeInForce;
  r_price : price_t;
  r_last_fill_price : price_t;
  r_avg_fill_price : price_t;
  r_qty : qty_t;
  r_last_qty : qty_t;
  r_cum_qty : qty_t;
  r_leaves_qty : qty_t;
  r_reject_reason : OrdRejectReason;
  r_creation_time : time_t;
  r_request_time : time_t;
  r_timestamp : time_t;
  r_side : Side;
  r_post_only : bool;
  r_order_num : Z;
  r_request_tag : Z;
  r_aggressor : bool
}.

#[export] Instance OrderResponse_eta : Eta OrderResponse := fun r =>
  mkResponse (r_identity r) (r_error_message r) (r_response_type r) (r_exec_type r)
    (r_order_status r) (r_order_type r) (r_time_in_force r) (r_price r) (r_last_fill_price r)
    (r_avg_fill_price r) (r_qty r) (r_last_qty r) (r_cum_qty r) (r_leaves_qty r)
    (r_reject_reason r) (r_creation_time r) (r_request_time r) (r_timestamp r) (r_side r)
    (r_post_only r) (r_order_num r) (r_request_tag r) (r_aggressor r).

(** The member initialisers of [OrderResponse]. *)
Definition default_response : OrderResponse :=
  mkResponse (mkIdentity (clear 32) (clear 37) (clear 37) (clear 37)) (repeat NUL 256)
    Msg.UNKNOWN ExecType.NEW OrderStatus.NEW OrderType.UNKNOWN TimeInForce.DAY
    NULL_PRICE NULL_PRICE NULL_PRICE 0 0 0 0 OrdReject.NONE 0 0 0 UNKNOWN_SIDE false 0 0 false.

(** One [memcpy] of the identity block, the numeric id, the tag, and the aggressor flag. *)
Definition setOrderIdentity (response : OrderResponse) (order : Order) : OrderResponse :=
  response <| r_identity := o_identity order |>
           <| r_order_num := o_id order |>
           <| r_request_tag := o_request_tag order |>
           <| r_aggressor := false |>.

(** ** Trades *)

Record Trade := mkTrade {
  trd_order_id : Z;
  trd_qty : qty_t
}.

#[export] Instance Trade_eta : Eta Trade := fun t => mkTrade (trd_order_id t) (trd_qty t).

(** The wire frame; [trades] is its trailing array. *)
Record TradeSummary := mkTradeSummary {
  wts_timestamp : time_t;
  wts_trade_id : Z;
  wts_security_id : Z;
  wts_aggressor_side : Side;
  wts_price : price_t;
  wts_qty : qty_t;
  wts_num_orders : Z;
  wts_trades : list Trade
}.

Record TradeSummaryInfo := mkSummary {
  ts_timestamp : time_t;
  ts_trade_id : Z;
  ts_aggressor_side : Side;
  ts_price : price_t;
  ts_qty : qty_t;
  ts_phantom_qty : qty_t;
  ts_num_orders : Z;
  ts_Trades : list Trade
}.

#[export] Instance TradeSummaryInfo_eta : Eta TradeSummaryInfo := fun s =>
  mkSummary (ts_timestamp s) (ts_trade_id s) (ts_aggressor_side s) (ts_price s) (ts_qty s)
    (ts_phantom_qty s) (ts_num_orders s) (ts_Trades s).
