(* ===== verification/MarketData.v ===== *)
(** * Market-data frames

    Models [src/common/market_data.hpp]: the packed frames of the md queue as records,
    each trailing array as a list, and the queue's payloads as one inductive. *)

From S2P Require Import Prelude Types FixedString Orders Messages.

Inductive MDUpdateType :=
  BOOK | LEVEL | ORDER | TRADE_SUMMARY | TRADE | BOOK_SNAPSHOT | ORDER_SNAPSHOT | SUB_RESPONSE.

#[export] Instance MDUpdateType_eq_dec : EqDecision MDUpdateType.
Proof. solve_decision. Defined.

(** [UpdateFlags] is a bit set. *)
Definition F_NONE : Z := 0.
Definition F_IS_SNAPSHOT : Z := 1.
Definition F_END_EVENT : Z := Z.shiftl 1 1.
Definition F_NOT_IN_BOOK : Z := Z.shiftl 1 2.

Inductive MDUpdateAction := ACTION_NEW | ACTION_CHANGE | ACTION_DELETE.

#[export] Instance MDUpdateAction_eq_dec : EqDecision MDUpdateAction.
Proof. solve_decision. Defined.

Record MDLevel := mkMDLevel {
  ml_event_time : Z;
  ml_seq_num : Z;
  ml_price : price_t;
  ml_qty : qty_t;
  ml_num_orders : Z;
  ml_level_index : Z;
  ml_update_action : MDUpdateAction;
  ml_flags : Z;
  ml_side : Side
}.

#[export] Instance MDLevel_eta : Eta MDLevel := fun l =>
  mkMDLevel (ml_event_time l) (ml_seq_num l) (ml_price l) (ml_qty l) (ml_num_orders l)
    (ml_level_index l) (ml_update_action l) (ml_flags l) (ml_side l).

(** The two ten-entry arrays and the update indices. *)
Record MDBookUpdate := mkMDBookUpdate {
  mbu_sell : list MDLevel;
  mbu_buy : list MDLevel;
  mbu_update_index : Z * Z
}.

#[export] Instance MDBookUpdate_eta : Eta MDBookUpdate := fun u =>
  mkMDBookUpdate (mbu_sell u) (mbu_buy u) (mbu_update_index u).

Record MDOrder := mkMDOrder {
  mo_order_id : Z;
  mo_event_time : Z;
  mo_priority : Z;
  mo_price : price_t;
  mo_qty : qty_t;
  mo_side : Side;
  mo_update_action : MDUpdateAction
}.

Record MDTrade := mkMDTrade {
  mt_trade_id : Z;
  mt_event_time : Z;
  mt_seq_num : Z;
  mt_price : price_t;
  mt_qty : qty_t;
  mt_flags : Z;
  mt_side : Side
}.

Module MDReject.
Inductive MDSubscriptionRejectReason := NONE | UNKNOWN_CONTRACT | MARKET_CLOSED.

Definition md_reject_to_string (r : MDSubscriptionRejectReason) : bytes :=
  match r with
  | NONE => str "NONE"
  | UNKNOWN_CONTRACT => str "UNKNOWN_CONTRACT"
  | MARKET_CLOSED => str "MARKET_CLOSED"
  end.
End MDReject.
Abbreviation MDSubscriptionRejectReason := MDReject.MDSubscriptionRejectReason.

#[export] Instance MDSubscriptionRejectReason_eq_dec : EqDecision MDSubscriptionRejectReason.
Proof. solve_decision. Defined.

Record BookSnapshot := mkBookSnapshot {
  snap_num_bid : Z;
  snap_num_ask : Z;
  snap_levels : list MDLevel
}.

(** [trades] holds the snapshot block, then the update block. *)
Record MDTradeSnapshotResponse := mkTradeSnapshot {
  tsr_num_snapshot : Z;
  tsr_num_update : Z;
  tsr_trades : list MDTrade
}.

(** What follows the [MarketDataUpdate] header: [MDLevelUpdate], [MDOrderUpdate],
    [TradeSummary], [BookSnapshot], or an [MDSubscriptionResponse] and its own data. *)
Inductive MDPayload :=
  PBook (u : MDBookUpdate)
| PLevels (num_level_update : Z) (levels : list MDLevel)
| POrders (num_orders : Z) (orders : list MDOrder)
| PTradeSummary (s : TradeSummary)
| PSnapshot (s : BookSnapshot)
| PSubReject (channel : Z) (reject_reason : MDSubscriptionRejectReason)
| PSubBook (channel : Z) (reject_reason : MDSubscriptionRejectReason) (s : BookSnapshot)
| PSubTrades (channel : Z) (reject_reason : MDSubscriptionRejectReason)
    (s : MDTradeSnapshotResponse).

Record MarketDataUpdate := mkMDUpdate {
  mdu_symbol : fixed_string;
  mdu_venue : Venue;
  mdu_type : MDUpdateType;
  mdu_data : MDPayload
}.
