(* ===== verification/L3Interface.v ===== *)
(** * What the simulator relies on in slick-orderbook's [OrderBookL3]

    [OrderBookL3] is a library outside [src/]: its operations are the class [L3Ops],
    and what the order book, the engines and the exchange rely on is the class
    [L3Laws]. Clients of a book are proved against these classes alone. A mutation
    returns the new book, the observer notifications in the order they fire, and
    whether it was accepted. *)

From Stdlib Require Export Sorted.
From S2P Require Import Prelude Types Orders.

(** ** What a book shows *)

(** One resting order of a level's queue. *)
Record L3Order := mkL3Order {
  l3_order_id : Z;
  l3_quantity : qty_t;
  l3_priority : Z
}.

#[export] Instance L3Order_eta : Eta L3Order := fun o =>
  mkL3Order (l3_order_id o) (l3_quantity o) (l3_priority o).

Record Level := mkLevel {
  lv_price : price_t;
  lv_orders : list L3Order;
  lv_total_quantity : qty_t
}.

(** Notifications. [ou_old_price] and [ou_old_qty] are both 0 on an add;
    [ou_quantity] is 0 on a removal. *)
Record OrderUpdate := mkOrderUpdate {
  ou_order_id : Z;
  ou_side : Side;
  ou_price : price_t;
  ou_quantity : qty_t;
  ou_old_price : price_t;
  ou_old_qty : qty_t;
  ou_timestamp : Z;
  ou_priority : Z
}.

Definition isDelete (u : OrderUpdate) : bool := ou_quantity u =? 0.

Record PriceLevelUpdate := mkPriceLevelUpdate {
  pu_side : Side;
  pu_price : price_t;
  pu_quantity : qty_t;
  pu_num_orders : Z;
  pu_level_index : Z;
  pu_timestamp : Z;
  pu_seq_num : Z;
  pu_last_in_batch : bool
}.

Inductive BookEvent :=
  EvOrder (u : OrderUpdate)
| EvLevel (u : PriceLevelUpdate).

Definition order_updates (evs : list BookEvent) : list OrderUpdate :=
  omap (fun e => match e with EvOrder u => Some u | EvLevel _ => None end) evs.

Definition level_updates (evs : list BookEvent) : list PriceLevelUpdate :=
  omap (fun e => match e with EvOrder _ => None | EvLevel u => Some u end) evs.

(** ** The operations *)

Class L3Ops (L3 : Type) := {
  getLevelsL3 : L3 -> Side -> list Level;
  getBestLevel : L3 -> Side -> option Level;
  getLevel : L3 -> Side -> price_t -> option Level;
  l3_findOrder : L3 -> Z -> option L3Order;
  getLastSeqNum : L3 -> Z;
  (** id, side, price, quantity, timestamp, priority, sequence, last in batch *)
  l3_addOrder : L3 -> Z -> Side -> price_t -> qty_t -> Z -> Z -> Z -> bool -> L3 * list BookEvent * bool;
  (** id, new price, new quantity, timestamp, priority, sequence, last in batch *)
  l3_modifyOrder : L3 -> Z -> price_t -> qty_t -> Z -> Z -> Z -> bool -> L3 * list BookEvent * bool;
  (** id, timestamp, sequence, last in batch *)
  l3_deleteOrder : L3 -> Z -> Z -> Z -> bool -> L3 * list BookEvent * bool;
  (** id, quantity, timestamp, sequence, last in batch *)
  l3_executeOrder : L3 -> Z -> qty_t -> Z -> Z -> bool -> L3 * list BookEvent * bool;
  l3_clear : L3 -> L3 * list BookEvent
}.

(** ** Vocabulary of the laws: a side as a list of levels *)

Definition order_ids (ls : list Level) : list Z :=
  map l3_order_id (List.concat (map lv_orders ls)).

Definition queue_total (os : list L3Order) : qty_t := zsum (map l3_quantity os).

Definition make_level (p : price_t) (os : list L3Order) : Level := mkLevel p os (queue_total os).

(** Set the quantity of an order in its queue; 0 removes it. *)
Definition queue_set_qty (id : Z) (q : qty_t) (os : list L3Order) : list L3Order :=
  omap (fun o => if l3_order_id o =? id
                 then if q =? 0 then None else Some (o <| l3_quantity := q |>)
                 else Some o) os.

Definition levels_set_qty (id : Z) (q : qty_t) (ls : list Level) : list Level :=
  omap (fun l => match queue_set_qty id q (lv_orders l) with
                 | [] => None
                 | os => Some (make_level (lv_price l) os)
                 end) ls.

(** Behind every order of a lower or equal priority number. *)
Fixpoint queue_insert (o : L3Order) (os : list L3Order) : list L3Order :=
  match os with
  | [] => [o]
  | x :: r => if l3_priority x <=? l3_priority o then x :: queue_insert o r else o :: os
  end.

Fixpoint levels_insert (s : Side) (p : price_t) (o : L3Order) (ls : list Level) : list Level :=
  match ls with
  | [] => [make_level p [o]]
  | l :: r =>
      if lv_price l =? p then make_level p (queue_insert o (lv_orders l)) :: r
      else if isPriceBetter s (lv_price l) p then l :: levels_insert s p o r
      else make_level p [o] :: ls
  end.

(** The two sides a book has. *)
Definition book_side (s : Side) : Prop := s = BUY \/ s = SELL.

(** The order [o] rests at price [p] of the side. *)
Definition rests_at (ls : list Level) (p : price_t) (o : L3Order) : Prop :=
  exists l, l ∈ ls /\ lv_price l = p /\ o ∈ lv_orders l.

Definition level_qty (ls : list Level) (p : price_t) : qty_t :=
  match List.find (fun l => lv_price l =? p) ls with
  | Some l => lv_total_quantity l
  | None => 0
  end.

(** What a subscriber applying level updates in order ends up showing at one price. *)
Definition apply_level_updates (us : list PriceLevelUpdate) (s : Side) (p : price_t) (q : qty_t)
  : qty_t :=
  fold_left (fun q u => if bool_decide (pu_side u = s) && (pu_price u =? p)
                        then pu_quantity u else q) us q.

(** A well-formed side and a well-formed book. *)
Definition level_ok (l : Level) : Prop :=
  lv_orders l <> [] /\ Forall (fun o => 0 < l3_quantity o) (lv_orders l)
  /\ lv_total_quantity l = queue_total (lv_orders l).

Definition better_level (s : Side) (a b : Level) : Prop :=
  isPriceBetter s (lv_price a) (lv_price b) = true.

Record side_ok (s : Side) (ls : list Level) : Prop := {
  so_levels : Forall level_ok ls;
  so_sorted : StronglySorted (better_level s) ls
}.

Section Laws.
Context {L3 : Type} `{L3Ops L3}.

Record book_ok (b : L3) : Prop := {
  bo_buy : side_ok BUY (getLevelsL3 b BUY);
  bo_sell : side_ok SELL (getLevelsL3 b SELL);
  bo_unique : NoDup (order_ids (getLevelsL3 b BUY) ++ order_ids (getLevelsL3 b SELL))
}.

(** A mutation carrying this sequence is not discarded: 0 is "no sequence". *)
Definition seq_accepted (b : L3) (seq : Z) : bool :=
  negb ((0 <? seq) && (seq <? getLastSeqNum b)).

(** [b'] differs from [b] on side [s] only, where it shows [ls]. *)
Definition side_becomes (b b' : L3) (s : Side) (ls : list Level) : Prop :=
  getLevelsL3 b' s = ls /\ getLevelsL3 b' (opposite_side s) = getLevelsL3 b (opposite_side s).

(** The outcome of an accepted mutation that changed an order: what the side shows, the
    one order update fired, and level updates that account for every level change. *)
Record mutated (b : L3) (out : L3 * list BookEvent * bool) (s : Side) (ls : list Level)
    (u : OrderUpdate) (seq : Z) : Prop := {
  mut_accepted : out.2 = true;
  mut_side : side_becomes b out.1.1 s ls;
  mut_seq : getLastSeqNum out.1.1 <= Z.max (getLastSeqNum b) seq;
  mut_order : order_updates out.1.2 = [u];
  mut_levels : forall s' p, book_side s' ->
    level_qty (getLevelsL3 out.1.1 s') p
    = apply_level_updates (level_updates out.1.2) s' p (level_qty (getLevelsL3 b s') p)
}.

Class L3Laws := {
  law_best b s : getBestLevel b s = head (getLevelsL3 b s);
  law_level b s p : book_ok b -> book_side s ->
    getLevel b s p = List.find (fun l => lv_price l =? p) (getLevelsL3 b s);
  law_find b id : book_ok b ->
    l3_findOrder b id
    = List.find (fun o => l3_order_id o =? id)
        (List.concat (map lv_orders (getLevelsL3 b BUY ++ getLevelsL3 b SELL)));
  law_execute_stale b id q ts seq last :
    seq_accepted b seq = false -> l3_executeOrder b id q ts seq last = (b, [], false);
  law_execute b s p o q ts seq last :
    book_ok b -> book_side s -> seq_accepted b seq = true ->
    rests_at (getLevelsL3 b s) p o -> 0 < q <= l3_quantity o ->
    mutated b (l3_executeOrder b (l3_order_id o) q ts seq last) s
      (levels_set_qty (l3_order_id o) (l3_quantity o - q) (getLevelsL3 b s))
      (mkOrderUpdate (l3_order_id o) s p (l3_quantity o - q) p (l3_quantity o) ts (l3_priority o)) seq;
  law_add b s p id q ts prio seq last :
    book_ok b -> book_side s -> seq_accepted b seq = true ->
    id ∉ order_ids (getLevelsL3 b BUY) ++ order_ids (getLevelsL3 b SELL) -> 0 < q -> prio <> 0 ->
    mutated b (l3_addOrder b id s p q ts prio seq last) s
      (levels_insert s p (mkL3Order id q prio) (getLevelsL3 b s))
      (mkOrderUpdate id s p q 0 0 ts prio) seq;
  law_delete b s p o ts seq last :
    book_ok b -> book_side s -> seq_accepted b seq = true ->
    rests_at (getLevelsL3 b s) p o ->
    mutated b (l3_deleteOrder b (l3_order_id o) ts seq last) s
      (levels_set_qty (l3_order_id o) 0 (getLevelsL3 b s))
      (mkOrderUpdate (l3_order_id o) s p 0 p (l3_quantity o) ts (l3_priority o)) seq;
  law_delete_absent b id ts seq last :
    book_ok b -> id ∉ order_ids (getLevelsL3 b BUY) ++ order_ids (getLevelsL3 b SELL) ->
    l3_deleteOrder b id ts seq last = (b, [], false);
  law_modify_zero b id p ts prio seq last :
    l3_modifyOrder b id p 0 ts prio seq last = l3_deleteOrder b id ts seq last;
  law_modify_same b s p o ts seq last :
    book_ok b -> book_side s -> seq_accepted b seq = true ->
    rests_at (getLevelsL3 b s) p o ->
    exists b', l3_modifyOrder b (l3_order_id o) p (l3_quantity o) ts (l3_priority o) seq last
               = (b', [], true)
      /\ (forall s', getLevelsL3 b' s' = getLevelsL3 b s')
      /\ getLastSeqNum b' <= Z.max (getLastSeqNum b) seq;
  law_modify_qty b s p o q ts seq last :
    book_ok b -> book_side s -> seq_accepted b seq = true ->
    rests_at (getLevelsL3 b s) p o -> 0 < q -> q <> l3_quantity o ->
    mutated b (l3_modifyOrder b (l3_order_id o) p q ts (l3_priority o) seq last) s
      (levels_set_qty (l3_order_id o) q (getLevelsL3 b s))
      (mkOrderUpdate (l3_order_id o) s p q p (l3_quantity o) ts (l3_priority o)) seq;
  law_modify_move b s p o np q ts prio seq last :
    book_ok b -> book_side s -> seq_accepted b seq = true ->
    rests_at (getLevelsL3 b s) p o -> 0 < q -> np <> p \/ prio <> l3_priority o -> prio <> 0 ->
    mutated b (l3_modifyOrder b (l3_order_id o) np q ts prio seq last) s
      (levels_insert s np (mkL3Order (l3_order_id o) q prio)
         (levels_set_qty (l3_order_id o) 0 (getLevelsL3 b s)))
      (mkOrderUpdate (l3_order_id o) s np q p (l3_quantity o) ts prio) seq;
  law_clear b :
    let '(b', evs) := l3_clear b in
    (forall s, getLevelsL3 b' s = []) /\ getLastSeqNum b' = getLastSeqNum b
    /\ order_updates evs = []
}.

(** An order added without a priority ranks by its timestamp. *)
Class DefaultPriority := law_default_priority b id s p q ts seq last :
  l3_addOrder b id s p q ts 0 seq last = l3_addOrder b id s p q ts ts seq last.

End Laws.

Arguments L3Laws L3 {_}.
Arguments DefaultPriority L3 {_}.
