(* ===== verification/L3Lemmas.v ===== *)
(** * Lemmas on books that obey the laws

    The queue view [flat] of a side - every resting order with its price, best level
    first, front of the queue first - how each mutation changes it, and preservation of
    well-formedness. Everything is derived from [L3Laws]. *)

From S2P Require Import Prelude Types Orders L3Interface.

(** ** The queue view *)

Definition flat (ls : list Level) : list (price_t * L3Order) :=
  List.concat (map (fun l => map (pair (lv_price l)) (lv_orders l)) ls).

Definition flat_id (x : price_t * L3Order) : Z := l3_order_id x.2.
Definition flat_qty (x : price_t * L3Order) : Z := l3_quantity x.2.

Definition flat_set (id q : Z) (fl : list (price_t * L3Order)) : list (price_t * L3Order) :=
  omap (fun x => if flat_id x =? id
                 then if q =? 0 then None else Some (x.1, x.2 <| l3_quantity := q |>)
                 else Some x) fl.

Lemma flat_cons l ls : flat (l :: ls) = map (pair (lv_price l)) (lv_orders l) ++ flat ls.
Proof. done. Qed.

Lemma flat_app a b : flat (a ++ b) = flat a ++ flat b.
Proof. unfold flat. by rewrite map_app, concat_app. Qed.

Lemma order_ids_flat ls : order_ids ls = map flat_id (flat ls).
Proof.
  unfold order_ids, flat. induction ls as [|l ls IH]; [done|].
  cbn. rewrite !map_app, IH, map_map. done.
Qed.

Lemma rests_at_flat ls p o : rests_at ls p o <-> (p, o) ∈ flat ls.
Proof.
  unfold rests_at. induction ls as [|l ls IH].
  { split; [intros (l & Hl & _); by apply elem_of_nil in Hl|intros H; by apply elem_of_nil in H]. }
  rewrite flat_cons, elem_of_app, <- IH. split.
  - intros (l' & [->|Hl]%elem_of_cons & <- & Ho); [left|right; eauto].
    apply list_elem_of_fmap. eauto.
  - intros [Hm|(l' & ? & ? & ?)].
    + apply list_elem_of_fmap in Hm as (o' & [= -> ->] & Ho).
      exists l. split; [apply elem_of_cons; by left|done].
    + exists l'. split; [apply elem_of_cons; by right|done].
Qed.

Lemma map_omap_pair (p id q : Z) os :
  map (pair p) (queue_set_qty id q os) = flat_set id q (map (pair p) os).
Proof.
  induction os as [|o os IH]; [done|].
  change (map (pair p) (o :: os)) with ((p, o) :: map (pair p) os).
  unfold queue_set_qty, flat_set in *. cbn [omap list_omap].
  unfold flat_id at 1. cbn [snd fst]. destruct (l3_order_id o =? id); [|cbn [map]; by rewrite IH].
  destruct (q =? 0); [exact IH|]. cbn [map]. by rewrite IH.
Qed.

Lemma flat_set_app id q a b : flat_set id q (a ++ b) = flat_set id q a ++ flat_set id q b.
Proof. apply omap_app. Qed.

Lemma flat_set_cons id q x fl :
  flat_set id q (x :: fl)
  = (if flat_id x =? id
     then if q =? 0 then [] else [(x.1, x.2 <| l3_quantity := q |>)]
     else [x]) ++ flat_set id q fl.
Proof.
  unfold flat_set. cbn [omap list_omap]. by destruct (flat_id x =? id); [destruct (q =? 0)|].
Qed.

(** Setting a quantity in the levels is setting it in the queue view. *)
Lemma flat_levels_set id q ls : flat (levels_set_qty id q ls) = flat_set id q (flat ls).
Proof.
  unfold levels_set_qty. induction ls as [|l ls IH]; [done|].
  rewrite flat_cons, flat_set_app, <- map_omap_pair, <- IH. cbn [omap list_omap].
  by destruct (queue_set_qty id q (lv_orders l)).
Qed.

Lemma flat_set_absent id q fl : id ∉ map flat_id fl -> flat_set id q fl = fl.
Proof.
  induction fl as [|x fl IH]; [done|]. cbn [map]. rewrite not_elem_of_cons. intros [Hx Hfl].
  rewrite flat_set_cons, IH by done.
  destruct (flat_id x =? id) eqn:E; bool_to_prop; [congruence|done].
Qed.

Lemma flat_set_head id q p o fl :
  l3_order_id o = id -> id ∉ map flat_id fl ->
  flat_set id q ((p, o) :: fl)
  = (if q =? 0 then [] else [(p, o <| l3_quantity := q |>)]) ++ fl.
Proof.
  intros Ho Hfl. rewrite flat_set_cons, flat_set_absent by done.
  unfold flat_id. cbn [snd fst]. by rewrite Ho, Z.eqb_refl.
Qed.

(** Wherever it stands in the queue. *)
Lemma flat_set_at id q pre p o post :
  NoDup (map flat_id (pre ++ (p, o) :: post)) -> l3_order_id o = id ->
  flat_set id q (pre ++ (p, o) :: post)
  = pre ++ (if q =? 0 then [] else [(p, o <| l3_quantity := q |>)]) ++ post
  /\ id ∉ map flat_id (pre ++ post).
Proof.
  intros Hnd Hid. rewrite map_app in Hnd. cbn [map] in Hnd. rewrite <- Permutation_middle in Hnd.
  apply NoDup_cons in Hnd as [Hnin _]. change (flat_id (p, o)) with (l3_order_id o) in Hnin.
  rewrite Hid, <- map_app in Hnin. split; [|done]. rewrite map_app, not_elem_of_app in Hnin.
  rewrite flat_set_app, flat_set_absent, flat_set_head by (done || apply Hnin). done.
Qed.

(** ** Weighted sums over the resting orders of a side *)

Definition fsum (f : price_t * L3Order -> Z) (fl : list (price_t * L3Order)) : Z :=
  zsum (map f fl).

Lemma fsum_cons f x fl : fsum f (x :: fl) = f x + fsum f fl.
Proof. done. Qed.

Lemma fsum_app f a b : fsum f (a ++ b) = fsum f a + fsum f b.
Proof. unfold fsum. by rewrite map_app, zsum_app. Qed.

Lemma fsum_permutation f a b : a ≡ₚ b -> fsum f a = fsum f b.
Proof. intros Hp. apply zsum_permutation. by apply Permutation_map. Qed.

Lemma fsum_ext f g fl : Forall (fun x => f x = g x) fl -> fsum f fl = fsum g fl.
Proof. apply zsum_map_ext. Qed.

Lemma flat_set_split id q fl p o :
  NoDup (map flat_id fl) -> (p, o) ∈ fl -> l3_order_id o = id ->
  exists a b, fl = a ++ (p, o) :: b /\ (id ∉ map flat_id a) /\ (id ∉ map flat_id b)
    /\ flat_set id q fl
       = a ++ (if q =? 0 then [] else [(p, o <| l3_quantity := q |>)]) ++ b.
Proof.
  intros Hnd Hin Hid. apply list_elem_of_split in Hin as (a & b & ->).
  rewrite map_app in Hnd. apply NoDup_app in Hnd as (_ & Hd & Hb).
  cbn in Hb. apply NoDup_cons in Hb as [Hb _]. change (flat_id (p, o)) with (l3_order_id o) in *.
  rewrite Hid in *. exists a, b. assert (Ha : id ∉ map flat_id a).
  { intros Ha. apply (Hd id Ha). cbn. apply elem_of_cons. left.
    change (flat_id (p, o)) with (l3_order_id o). by rewrite Hid. }
  split; [done|]. split; [done|]. split; [done|].
  rewrite flat_set_app, flat_set_absent, flat_set_head by done. done.
Qed.

Lemma fsum_set f id q fl p o :
  NoDup (map flat_id fl) -> (p, o) ∈ fl -> l3_order_id o = id ->
  fsum f (flat_set id q fl)
  = fsum f fl - f (p, o) + (if q =? 0 then 0 else f (p, o <| l3_quantity := q |>)).
Proof.
  intros Hnd Hin Hid. destruct (flat_set_split id q fl p o Hnd Hin Hid) as (a & b & -> & _ & _ & ->).
  rewrite !fsum_app, fsum_cons. destruct (q =? 0); cbn [fsum map zsum]; unfold fsum; cbn; lia.
Qed.

Lemma flat_ids_set id q fl p o :
  NoDup (map flat_id fl) -> (p, o) ∈ fl -> l3_order_id o = id ->
  (map flat_id fl ≡ₚ (id :: map flat_id (flat_set id 0 fl)))
  /\ (q <> 0 -> map flat_id (flat_set id q fl) = map flat_id fl).
Proof.
  intros Hnd Hin Hid. split.
  - destruct (flat_set_split id 0 fl p o Hnd Hin Hid) as (a & b & -> & _ & _ & ->).
    rewrite !map_app. cbn. change (flat_id (p, o)) with (l3_order_id o). rewrite Hid.
    by rewrite Permutation_middle.
  - intros Hq. destruct (flat_set_split id q fl p o Hnd Hin Hid) as (a & b & -> & _ & _ & ->).
    rewrite (proj2 (Z.eqb_neq q 0) Hq), !map_app. cbn. done.
Qed.

(** ** Insertion *)

Lemma queue_insert_perm o os : queue_insert o os ≡ₚ o :: os.
Proof.
  induction os as [|x os IH]; [done|]. cbn. case_test; [|done].
  rewrite IH. apply Permutation_swap.
Qed.

Lemma flat_levels_insert s p o ls : flat (levels_insert s p o ls) ≡ₚ (p, o) :: flat ls.
Proof.
  induction ls as [|l ls IH]; [done|]. cbn [levels_insert]. case_test; [|case_test].
  - bool_to_prop. rewrite !flat_cons. cbn [lv_price lv_orders make_level].
    rewrite queue_insert_perm, Heqb. done.
  - rewrite !flat_cons, IH. by rewrite Permutation_middle.
  - done.
Qed.

(** ** Well-formedness of a side *)

Lemma queue_total_nonneg os : Forall (fun o => 0 < l3_quantity o) os -> 0 <= queue_total os.
Proof. induction 1; cbn; unfold queue_total in *; lia. Qed.

Lemma level_ok_make p os :
  os <> [] -> Forall (fun o => 0 < l3_quantity o) os -> level_ok (make_level p os).
Proof. done. Qed.

Lemma queue_set_qty_pos id q os :
  0 <= q -> Forall (fun o => 0 < l3_quantity o) os ->
  Forall (fun o => 0 < l3_quantity o) (queue_set_qty id q os).
Proof.
  intros Hq. unfold queue_set_qty. induction 1 as [|o os Ho _ IH]; [constructor|].
  cbn. destruct (l3_order_id o =? id); [destruct (q =? 0) eqn:E|]; cbn; bool_to_prop; try done.
  - constructor; [cbn; lia|done].
  - by constructor.
Qed.

Lemma StronglySorted_omap_levels s id q ls :
  StronglySorted (better_level s) ls -> StronglySorted (better_level s) (levels_set_qty id q ls).
Proof.
  unfold levels_set_qty. induction 1 as [|l ls _ IH Hall]; [constructor|].
  cbn. destruct (queue_set_qty id q (lv_orders l)) as [|o os]; [done|].
  cbn. constructor; [done|]. clear IH. induction Hall as [|x ls Hx _ IH]; [constructor|].
  cbn. destruct (queue_set_qty id q (lv_orders x)); [done|]. cbn. by constructor.
Qed.

Lemma side_ok_set s id q ls : 0 <= q -> side_ok s ls -> side_ok s (levels_set_qty id q ls).
Proof.
  intros Hq [Hl Hs]. split; [|by apply StronglySorted_omap_levels].
  unfold levels_set_qty. clear Hs. induction Hl as [|l ls (Hne & Hpos & _) _ IH]; [constructor|].
  cbn. pose proof (queue_set_qty_pos id q _ Hq Hpos) as Hpos'.
  destruct (queue_set_qty id q (lv_orders l)) as [|o os]; [done|].
  cbn. constructor; [|done]. by apply level_ok_make.
Qed.

Lemma isPriceBetter_trans s a b c :
  isPriceBetter s a b = true -> isPriceBetter s b c = true -> isPriceBetter s a c = true.
Proof. destruct s; cbn; rewrite !Z.ltb_lt; lia. Qed.

Lemma isPriceBetter_total s a b : a <> b -> isPriceBetter s a b = false -> isPriceBetter s b a = true.
Proof. destruct s; cbn; rewrite Z.ltb_ge, Z.ltb_lt; lia. Qed.

Lemma levels_insert_prices s p o ls l :
  l ∈ levels_insert s p o ls -> lv_price l = p \/ exists l', l' ∈ ls /\ lv_price l' = lv_price l.
Proof.
  induction ls as [|x ls IH]; cbn.
  - intros ->%list_elem_of_singleton. by left.
  - case_test; [|case_test].
    + intros [->|Hin]%elem_of_cons; [by left|]. right. exists l. split; [by apply elem_of_cons; right|done].
    + intros [->|Hin]%elem_of_cons.
      * right. exists x. split; [by apply elem_of_cons; left|done].
      * destruct (IH Hin) as [?|(l' & ? & ?)]; [by left|].
        right. exists l'. split; [by apply elem_of_cons; right|done].
    + intros [->|Hin]%elem_of_cons; [by left|]. right. eauto.
Qed.

Lemma side_ok_insert s p o ls :
  0 < l3_quantity o -> side_ok s ls -> side_ok s (levels_insert s p o ls).
Proof.
  intros Ho [Hl Hs]. split.
  - clear Hs. induction Hl as [|l ls Hok Hall IH]; cbn.
    { constructor; [|constructor]. apply level_ok_make; [done|by constructor]. }
    case_test; [|case_test].
    + constructor; [|done]. destruct Hok as (_ & Hpos & _). apply level_ok_make.
      * intros E. pose proof (queue_insert_perm o (lv_orders l)) as Hp. rewrite E in Hp.
        by apply Permutation_nil_l in Hp.
      * rewrite queue_insert_perm. by constructor.
    + by constructor.
    + constructor; [|by constructor]. apply level_ok_make; [done|by constructor].
  - clear Hl. induction Hs as [|l ls Hs IH Hall]; cbn; [repeat constructor|].
    case_test; [|case_test].
    + bool_to_prop. constructor; [done|]. eapply Forall_impl; [exact Hall|].
      unfold better_level. cbn. by rewrite Heqb.
    + constructor; [done|]. rewrite Forall_forall in Hall |- *. intros x Hx.
      apply levels_insert_prices in Hx as [Hx|(x' & Hx' & Hp)]; unfold better_level.
      * by rewrite Hx.
      * rewrite <- Hp. by apply Hall.
    + bool_to_prop. assert (Hlt : isPriceBetter s p (lv_price l) = true) by by apply isPriceBetter_total.
      constructor; [by constructor|]. constructor; [exact Hlt|].
      eapply Forall_impl; [exact Hall|]. intros x Hx. by eapply isPriceBetter_trans.
Qed.

(** Every order of a well-formed side has a positive quantity. *)
Lemma flat_pos s ls x : side_ok s ls -> x ∈ flat ls -> 0 < flat_qty x.
Proof.
  intros [Hl _]. induction Hl as [|l ls (_ & Hpos & _) _ IH]; [by intros ?%elem_of_nil|].
  rewrite flat_cons, elem_of_app. intros [Hx|Hx]; [|by apply IH].
  apply list_elem_of_fmap in Hx as (o & -> & Ho). rewrite Forall_forall in Hpos. by apply Hpos.
Qed.

(** The front of the best level is the front of the queue view. *)
Lemma best_level_front s ls l r :
  side_ok s ls -> ls = l :: r ->
  exists o os, lv_orders l = o :: os
    /\ flat ls = (lv_price l, o) :: map (pair (lv_price l)) os ++ flat r.
Proof.
  intros [Hl _] ->. apply Forall_cons in Hl as [(Hne & _ & _) _].
  destruct (lv_orders l) as [|o os] eqn:E; [done|]. exists o, os. split; [done|].
  rewrite flat_cons, E. done.
Qed.

Lemma flat_nil s ls : side_ok s ls -> flat ls = [] -> ls = [].
Proof.
  intros Hs Hf. destruct ls as [|l r]; [done|].
  destruct (best_level_front s (l :: r) l r Hs eq_refl) as (o & os & _ & E). by rewrite E in Hf.
Qed.

(** A level's total is the sum of what rests at its price. *)
Definition at_price (p : price_t) (x : price_t * L3Order) : Z := if x.1 =? p then flat_qty x else 0.

Lemma fsum_at_price_map p p' os :
  fsum (at_price p) (map (pair p') os) = if p' =? p then queue_total os else 0.
Proof.
  unfold fsum, at_price, flat_qty, queue_total. induction os as [|o os IH]; cbn; [by case_test|].
  rewrite IH. cbn. destruct (p' =? p); lia.
Qed.

Lemma level_qty_sum s ls p : side_ok s ls -> level_qty ls p = fsum (at_price p) (flat ls).
Proof.
  intros [Hl Hs]. unfold level_qty. induction Hs as [|l ls Hs IH Hall]; [done|].
  apply Forall_cons in Hl as [(_ & _ & Ht) Hl]. specialize (IH Hl).
  rewrite flat_cons, fsum_app, fsum_at_price_map. cbn [List.find].
  destruct (lv_price l =? p) eqn:E; [|exact IH]. bool_to_prop.
  rewrite Ht. enough (fsum (at_price p) (flat ls) = 0) by lia.
  clear - Hall E. induction Hall as [|x ls Hx _ IH]; [done|].
  rewrite flat_cons, fsum_app, fsum_at_price_map, IH.
  destruct (lv_price x =? p) eqn:E'; [|done]. bool_to_prop.
  unfold better_level in Hx. rewrite E, E' in Hx. destruct s; cbn in Hx; rewrite Z.ltb_irrefl in Hx; done.
Qed.

(** ** Well-formedness of the book *)

Section Books.
Context {L3 : Type} {ops : L3Ops L3} {laws : L3Laws L3}.

Definition book_ids (b : L3) : list Z :=
  order_ids (getLevelsL3 b BUY) ++ order_ids (getLevelsL3 b SELL).

Lemma book_side_ok b s : book_ok b -> book_side s -> side_ok s (getLevelsL3 b s).
Proof. by intros [? ? _] [-> | ->]. Qed.

Lemma opposite_book_side s : book_side s -> book_side (opposite_side s).
Proof. intros [-> | ->]; [by right|by left]. Qed.

Lemma other_side s s' : book_side s -> book_side s' -> s' <> s -> s' = opposite_side s.
Proof. intros [-> | ->] [-> | ->] Hne; done || by destruct Hne. Qed.

(** The ids of the book, the side [s] first. *)
Lemma book_ids_side b s :
  book_side s ->
  book_ids b ≡ₚ map flat_id (flat (getLevelsL3 b s))
                ++ map flat_id (flat (getLevelsL3 b (opposite_side s))).
Proof.
  unfold book_ids. rewrite !order_ids_flat.
  intros [-> | ->]; cbn [opposite_side]; [done|apply Permutation_app_comm].
Qed.

Lemma side_ids_nodup b s :
  book_ok b -> book_side s -> NoDup (map flat_id (flat (getLevelsL3 b s))).
Proof.
  intros [_ _ Hu] Hs. change (NoDup (book_ids b)) in Hu. rewrite (book_ids_side b s Hs) in Hu.
  by apply NoDup_app in Hu as (? & _ & _).
Qed.

Lemma flat_in_book b s p o :
  book_side s -> (p, o) ∈ flat (getLevelsL3 b s) -> l3_order_id o ∈ book_ids b.
Proof.
  intros Hs Hin. rewrite (book_ids_side b s Hs), elem_of_app. left.
  apply list_elem_of_fmap. by exists (p, o).
Qed.

(** A book of which one side is replaced is well-formed when the new side is and brings
    no id that the other side has. *)
Lemma book_ok_replace b b' s ls :
  book_ok b -> book_side s -> side_becomes b b' s ls -> side_ok s ls ->
  NoDup (map flat_id (flat ls) ++ map flat_id (flat (getLevelsL3 b (opposite_side s)))) ->
  book_ok b'.
Proof.
  intros Hb Hs [E1 E2] Hok Hnd.
  pose proof (book_side_ok b _ Hb (opposite_book_side s Hs)) as Hopp. rewrite <- E2 in Hopp, Hnd.
  rewrite <- E1 in Hok, Hnd.
  destruct Hs as [-> | ->]; cbn [opposite_side] in *; split; try done; rewrite !order_ids_flat; [done|].
  rewrite Permutation_app_comm. done.
Qed.

Lemma book_ids_replace b b' s ls :
  book_side s -> side_becomes b b' s ls ->
  book_ids b' ≡ₚ map flat_id (flat ls) ++ map flat_id (flat (getLevelsL3 b (opposite_side s))).
Proof. intros Hs [E1 E2]. by rewrite (book_ids_side b' s Hs), E1, E2. Qed.

(** Setting a quantity, removing when it is 0. *)
Lemma set_qty_ok b b' s p o q :
  book_ok b -> book_side s -> (p, o) ∈ flat (getLevelsL3 b s) -> 0 <= q ->
  side_becomes b b' s (levels_set_qty (l3_order_id o) q (getLevelsL3 b s)) ->
  book_ok b'
  /\ (if q =? 0 then book_ids b ≡ₚ l3_order_id o :: book_ids b' else book_ids b' ≡ₚ book_ids b).
Proof.
  intros Hb Hs Hin Hq Hbec. pose proof (side_ids_nodup b s Hb Hs) as Hnd.
  pose proof (bo_unique b Hb) as Hu. change (NoDup (book_ids b)) in Hu.
  rewrite (book_ids_side b s Hs) in Hu.
  destruct (flat_ids_set (l3_order_id o) q _ p o Hnd Hin eq_refl) as [H0 Hne].
  assert (Hids : if q =? 0
    then book_ids b ≡ₚ l3_order_id o :: book_ids b' else book_ids b' ≡ₚ book_ids b).
  { destruct (q =? 0) eqn:E; bool_to_prop;
      rewrite (book_ids_side b s Hs), (book_ids_replace b b' s _ Hs Hbec), flat_levels_set.
    - rewrite E, H0. done.
    - by rewrite Hne. }
  split; [|done]. eapply book_ok_replace; [done|done|exact Hbec| |].
  - apply side_ok_set; [done|]. by apply book_side_ok.
  - rewrite <- (book_ids_replace b b' s _ Hs Hbec).
    destruct (q =? 0).
    + rewrite <- (book_ids_side b s Hs), Hids in Hu. by apply NoDup_cons in Hu as [_ ?].
    + rewrite Hids. by rewrite (book_ids_side b s Hs).
Qed.

Lemma insert_ok b b' s p o ls :
  book_ok b -> book_side s -> 0 < l3_quantity o -> side_ok s ls ->
  NoDup (l3_order_id o :: map flat_id (flat ls) ++ map flat_id (flat (getLevelsL3 b (opposite_side s)))) ->
  side_becomes b b' s (levels_insert s p o ls) ->
  book_ok b'
  /\ book_ids b' ≡ₚ l3_order_id o :: map flat_id (flat ls)
                    ++ map flat_id (flat (getLevelsL3 b (opposite_side s))).
Proof.
  intros Hb Hs Ho Hls Hnd Hbec.
  assert (Hp : map flat_id (flat (levels_insert s p o ls)) ≡ₚ l3_order_id o :: map flat_id (flat ls)).
  { rewrite flat_levels_insert. done. }
  split.
  - eapply book_ok_replace; [done|done|exact Hbec|by apply side_ok_insert|]. by rewrite Hp.
  - by rewrite (book_ids_replace b b' s _ Hs Hbec), Hp.
Qed.

Lemma seq_accepted_keeps b b' seq :
  seq_accepted b seq = true -> getLastSeqNum b' <= Z.max (getLastSeqNum b) seq ->
  seq_accepted b' seq = true.
Proof.
  unfold seq_accepted. intros Ha Hle. bool_to_prop. apply negb_true_iff, andb_false_iff.
  destruct (0 <? seq) eqn:E; [right|by left]. apply Z.ltb_ge.
  destruct Ha as [Ha|Ha]; bool_to_prop; lia.
Qed.

(** Executing the front of a side: the step every matching loop takes. *)
Lemma execute_front b s p o rest q ts seq last :
  book_ok b -> book_side s -> seq_accepted b seq = true ->
  flat (getLevelsL3 b s) = (p, o) :: rest -> 0 < q <= l3_quantity o ->
  exists b' evs, l3_executeOrder b (l3_order_id o) q ts seq last = (b', evs, true)
    /\ flat (getLevelsL3 b' s)
       = (if l3_quantity o - q =? 0 then [] else [(p, o <| l3_quantity := l3_quantity o - q |>)]) ++ rest
    /\ getLevelsL3 b' (opposite_side s) = getLevelsL3 b (opposite_side s)
    /\ book_ok b' /\ seq_accepted b' seq = true
    /\ order_updates evs = [mkOrderUpdate (l3_order_id o) s p (l3_quantity o - q) p
                              (l3_quantity o) ts (l3_priority o)].
Proof.
  intros Hb Hs Ha Hflat Hq.
  assert (Hin : (p, o) ∈ flat (getLevelsL3 b s)) by (rewrite Hflat; by apply elem_of_cons; left).
  pose proof (law_execute b s p o q ts seq last Hb Hs Ha (proj2 (rests_at_flat _ _ _) Hin) Hq) as Hm.
  destruct (l3_executeOrder b (l3_order_id o) q ts seq last) as [[b' evs] r].
  destruct Hm as [Hr Hside Hseq Hou _]. cbn [fst snd] in *. subst r. exists b', evs.
  pose proof (side_ids_nodup b s Hb Hs) as Hnd. rewrite Hflat in Hnd.
  apply NoDup_cons in Hnd as [Hnotin _].
  destruct (set_qty_ok b b' s p o (l3_quantity o - q) Hb Hs Hin ltac:(lia) Hside) as [Hok _].
  destruct Hside as [E1 E2].
  repeat split; try done; try apply Hok.
  - rewrite E1, flat_levels_set, Hflat, flat_set_head; done.
  - eapply seq_accepted_keeps; done.
Qed.

(** The best level and its queue, read off the queue view. *)
Lemma best_front b s :
  book_ok b -> book_side s ->
  match flat (getLevelsL3 b s) with
  | [] => getBestLevel b s = None
  | (p, o) :: _ => exists l os, getBestLevel b s = Some l /\ lv_price l = p /\ lv_orders l = o :: os
  end.
Proof.
  intros Hb Hs. rewrite law_best. pose proof (book_side_ok b s Hb Hs) as Hok.
  destruct (getLevelsL3 b s) as [|l r] eqn:E; [done|].
  destruct (best_level_front s (l :: r) l r Hok eq_refl) as (o & os & Ho & Hf).
  rewrite Hf. eauto.
Qed.

End Books.
