(* ===== verification/L3Reference.v ===== *)
(** * A concrete book that obeys the laws

    A two-list order book implementing [L3Ops] and satisfying [L3Laws]: it shows the laws
    are consistent and lets every theorem proved against the interface be evaluated on
    concrete inputs. It is not a model of slick-orderbook's own data structures. *)

From S2P Require Import Prelude Types Orders L3Interface L3Lemmas.

Record RefBook := mkRefBook {
  rf_bids : list Level;
  rf_asks : list Level;
  rf_seq : Z
}.

Definition ref_empty : RefBook := mkRefBook [] [] 0.

Definition ref_levels (b : RefBook) (s : Side) : list Level :=
  match s with BUY => rf_bids b | SELL => rf_asks b | UNKNOWN_SIDE => [] end.

Definition ref_with (b : RefBook) (s : Side) (ls : list Level) (seq : Z) : RefBook :=
  match s with
  | BUY => mkRefBook ls (rf_asks b) (Z.max (rf_seq b) seq)
  | SELL => mkRefBook (rf_bids b) ls (Z.max (rf_seq b) seq)
  | UNKNOWN_SIDE => b
  end.

Definition find_flat (id : Z) (ls : list Level) : option (price_t * L3Order) :=
  List.find (fun x => flat_id x =? id) (flat ls).

(** The side, price and queue entry of an id. *)
Definition ref_locate (b : RefBook) (id : Z) : option (Side * price_t * L3Order) :=
  match find_flat id (rf_bids b) with
  | Some (p, o) => Some (BUY, p, o)
  | None => match find_flat id (rf_asks b) with
            | Some (p, o) => Some (SELL, p, o)
            | None => None
            end
  end.

Definition ref_accepts (b : RefBook) (seq : Z) : bool := negb ((0 <? seq) && (seq <? rf_seq b)).

Definition level_event (s : Side) (ls : list Level) (ts seq : Z) (last : bool) (p : price_t)
  : BookEvent :=
  let l := List.find (fun l => lv_price l =? p) ls in
  EvLevel (mkPriceLevelUpdate s p (level_qty ls p)
             (Z.of_nat (List.length (default [] (lv_orders <$> l)))) 0 ts seq last).

Definition ref_change (b : RefBook) (s : Side) (ls : list Level) (u : OrderUpdate)
  (prices : list price_t) (ts seq : Z) (last : bool) : RefBook * list BookEvent * bool :=
  (ref_with b s ls seq, EvOrder u :: map (level_event s ls ts seq last) prices, true).

(** No priority is the timestamp's. *)
Definition ref_add (b : RefBook) (id : Z) (s : Side) (p : price_t) (q : qty_t)
  (ts prio seq : Z) (last : bool) : RefBook * list BookEvent * bool :=
  let prio := if prio =? 0 then ts else prio in
  if ref_accepts b seq && (0 <? q) && negb (bool_decide (is_Some (ref_locate b id)))
  then ref_change b s (levels_insert s p (mkL3Order id q prio) (ref_levels b s))
         (mkOrderUpdate id s p q 0 0 ts prio) [p] ts seq last
  else (b, [], false).

Definition ref_set (b : RefBook) (id : Z) (s : Side) (p : price_t) (o : L3Order) (q : qty_t)
  (ts seq : Z) (last : bool) : RefBook * list BookEvent * bool :=
  ref_change b s (levels_set_qty id q (ref_levels b s))
    (mkOrderUpdate id s p q p (l3_quantity o) ts (l3_priority o)) [p] ts seq last.

Definition ref_delete (b : RefBook) (id : Z) (ts seq : Z) (last : bool)
  : RefBook * list BookEvent * bool :=
  match ref_locate b id with
  | Some (s, p, o) => if ref_accepts b seq then ref_set b id s p o 0 ts seq last else (b, [], false)
  | None => (b, [], false)
  end.

Definition ref_modify (b : RefBook) (id : Z) (np : price_t) (q : qty_t)
  (ts prio seq : Z) (last : bool) : RefBook * list BookEvent * bool :=
  if q =? 0 then ref_delete b id ts seq last
  else
    match ref_locate b id with
    | Some (s, p, o) =>
        if negb (ref_accepts b seq) then (b, [], false)
        else if (np =? p) && (prio =? l3_priority o) then
          if q =? l3_quantity o then (b, [], true) else ref_set b id s p o q ts seq last
        else
          ref_change b s
            (levels_insert s np (mkL3Order id q prio) (levels_set_qty id 0 (ref_levels b s)))
            (mkOrderUpdate id s np q p (l3_quantity o) ts prio) [p; np] ts seq last
    | None => (b, [], false)
    end.

Definition ref_execute (b : RefBook) (id : Z) (q : qty_t) (ts seq : Z) (last : bool)
  : RefBook * list BookEvent * bool :=
  if negb (ref_accepts b seq) then (b, [], false)
  else match ref_locate b id with
       | Some (s, p, o) => ref_set b id s p o (l3_quantity o - Z.min q (l3_quantity o)) ts seq last
       | None => (b, [], false)
       end.

#[export] Instance ref_ops : L3Ops RefBook := {
  getLevelsL3 := ref_levels;
  getBestLevel b s := head (ref_levels b s);
  getLevel b s p := List.find (fun l => lv_price l =? p) (ref_levels b s);
  l3_findOrder b id :=
    List.find (fun o => l3_order_id o =? id)
      (List.concat (map lv_orders (ref_levels b BUY ++ ref_levels b SELL)));
  getLastSeqNum := rf_seq;
  l3_addOrder := ref_add;
  l3_modifyOrder := ref_modify;
  l3_deleteOrder := ref_delete;
  l3_executeOrder := ref_execute;
  l3_clear b := (mkRefBook [] [] (rf_seq b), [])
}.

(** ** It obeys the laws *)

Lemma ref_with_becomes b s ls seq : book_side s -> side_becomes b (ref_with b s ls seq) s ls.
Proof. by intros [-> | ->]. Qed.

Lemma ref_with_seq b s ls seq : book_side s -> rf_seq (ref_with b s ls seq) = Z.max (rf_seq b) seq.
Proof. by intros [-> | ->]. Qed.

Lemma find_flat_unique id p o ls :
  NoDup (map flat_id (flat ls)) -> (p, o) ∈ flat ls -> l3_order_id o = id ->
  find_flat id ls = Some (p, o).
Proof.
  unfold find_flat. intros Hnd Hin <-. induction (flat ls) as [|x fl IH]; [by apply elem_of_nil in Hin|].
  cbn [map] in Hnd. apply NoDup_cons in Hnd as [Hx Hnd]. cbn [List.find].
  apply elem_of_cons in Hin as [<-|Hin].
  - by rewrite Z.eqb_refl.
  - destruct (flat_id x =? l3_order_id o) eqn:E; bool_to_prop; [|by apply IH].
    exfalso. apply Hx. rewrite E. apply list_elem_of_fmap. by exists (p, o).
Qed.

Lemma find_flat_absent id ls : id ∉ map flat_id (flat ls) -> find_flat id ls = None.
Proof.
  unfold find_flat. induction (flat ls) as [|x fl IH]; [done|]. cbn [map List.find].
  rewrite not_elem_of_cons. intros [Hx Hfl].
  destruct (flat_id x =? id) eqn:E; bool_to_prop; [congruence|by apply IH].
Qed.

Lemma ref_locate_rests b s p o :
  book_ok b -> book_side s -> rests_at (ref_levels b s) p o ->
  ref_locate b (l3_order_id o) = Some (s, p, o).
Proof.
  intros Hb Hs Hr. apply rests_at_flat in Hr. pose proof (side_ids_nodup b s Hb Hs) as Hnd.
  pose proof (find_flat_unique _ p o _ Hnd Hr eq_refl) as Hf. unfold ref_locate.
  destruct Hs as [-> | ->]; cbn [getLevelsL3 ref_ops ref_levels] in *; [by rewrite Hf|].
  rewrite Hf. assert (Ha : find_flat (l3_order_id o) (rf_bids b) = None); [|by rewrite Ha].
  apply find_flat_absent. intros Hin. pose proof (bo_unique b Hb) as Hu.
  rewrite !order_ids_flat in Hu. apply NoDup_app in Hu as (_ & Hu & _).
  apply (Hu _ Hin). apply list_elem_of_fmap. by exists (p, o).
Qed.

Lemma ref_locate_absent b id :
  id ∉ order_ids (ref_levels b BUY) ++ order_ids (ref_levels b SELL) -> ref_locate b id = None.
Proof.
  rewrite !order_ids_flat, not_elem_of_app. intros [H1 H2]. unfold ref_locate.
  cbn [ref_levels] in *. by rewrite !find_flat_absent.
Qed.

(** The level updates of a change name every price whose quantity the change moves. *)
Lemma ref_change_mutated b s ls u prices ts seq last :
  book_side s ->
  (forall p, ~ p ∈ prices -> level_qty ls p = level_qty (ref_levels b s) p) ->
  mutated b (ref_change b s ls u prices ts seq last) s ls u seq.
Proof.
  intros Hs Hq. destruct (ref_with_becomes b s ls seq Hs) as [E1 E2].
  assert (Hnone : order_updates (map (level_event s ls ts seq last) prices) = []).
  { clear Hq. by induction prices. }
  split.
  - done.
  - split; [exact E1|exact E2].
  - cbn [fst snd ref_change]. change (getLastSeqNum (ref_with b s ls seq)) with (rf_seq (ref_with b s ls seq)).
    rewrite ref_with_seq by done. done.
  - cbn. f_equal. exact Hnone.
  - intros s' p Hs'. cbn [fst snd ref_change].
    change (level_updates (EvOrder u :: ?l)) with (level_updates l).
    destruct (decide (s' = s)) as [->|Hne].
    + rewrite E1. clear Hnone.
      assert (Hgen : forall q0, (~ p ∈ prices -> q0 = level_qty ls p) ->
        level_qty ls p = apply_level_updates
          (level_updates (map (level_event s ls ts seq last) prices)) s p q0).
      { clear Hq. induction prices as [|x prices IH]; intros q0 Hq0.
        { cbn. symmetry. apply Hq0. apply not_elem_of_nil. }
        cbn. rewrite bool_decide_eq_true_2 by done. cbn [andb].
        apply IH. intros Hnin. destruct (x =? p) eqn:E; bool_to_prop; [by subst|].
        apply Hq0. rewrite not_elem_of_cons. done. }
      apply Hgen. intros Hnin. symmetry. by apply Hq.
    + assert (E : getLevelsL3 (ref_with b s ls seq) s' = getLevelsL3 b s').
      { destruct Hs as [-> | ->]; destruct Hs' as [-> | ->]; try reflexivity; by destruct Hne. }
      rewrite E. symmetry. clear Hnone Hq. generalize (level_qty (getLevelsL3 b s') p).
      induction prices as [|x prices IH]; intros q0; [done|]. cbn.
      rewrite bool_decide_eq_false_2 by congruence. apply IH.
Qed.

Lemma level_qty_set_other s id q ls p o p' :
  side_ok s ls -> NoDup (map flat_id (flat ls)) -> (p, o) ∈ flat ls -> l3_order_id o = id ->
  0 <= q -> p' <> p -> level_qty (levels_set_qty id q ls) p' = level_qty ls p'.
Proof.
  intros Hok Hnd Hin Hid Hq Hp.
  rewrite (level_qty_sum s), (level_qty_sum s ls), flat_levels_set by (done || by apply side_ok_set).
  rewrite (fsum_set _ id q _ p o) by done. unfold at_price. cbn [fst].
  rewrite (proj2 (Z.eqb_neq p p')) by done. destruct (q =? 0); lia.
Qed.

Lemma level_qty_insert_other s p o ls p' :
  side_ok s ls -> 0 < l3_quantity o -> p' <> p ->
  level_qty (levels_insert s p o ls) p' = level_qty ls p'.
Proof.
  intros Hok Ho Hp.
  rewrite (level_qty_sum s), (level_qty_sum s ls) by (done || by apply side_ok_insert).
  rewrite (fsum_permutation _ _ _ (flat_levels_insert s p o ls)), fsum_cons.
  unfold at_price at 1. cbn [fst]. by rewrite (proj2 (Z.eqb_neq p p')).
Qed.

Lemma ref_set_mutated b s p o q ts seq last :
  book_ok b -> book_side s -> rests_at (ref_levels b s) p o -> 0 <= q ->
  mutated b (ref_set b (l3_order_id o) s p o q ts seq last) s
    (levels_set_qty (l3_order_id o) q (ref_levels b s))
    (mkOrderUpdate (l3_order_id o) s p q p (l3_quantity o) ts (l3_priority o)) seq.
Proof.
  intros Hb Hs Hr Hq. apply ref_change_mutated; [done|]. intros p' Hp'.
  rewrite list_elem_of_singleton in Hp'. apply rests_at_flat in Hr.
  apply (level_qty_set_other s _ _ _ p o); try done.
  - exact (book_side_ok b s Hb Hs).
  - exact (side_ids_nodup b s Hb Hs).
Qed.

#[export] Instance ref_laws : L3Laws RefBook.
Proof.
  split.
  - done.
  - done.
  - done.
  - intros b id q ts seq last Ha. cbn [l3_executeOrder ref_ops]. unfold ref_execute.
    change (seq_accepted b seq) with (ref_accepts b seq) in Ha. by rewrite Ha.
  - intros b s p o q ts seq last Hb Hs Ha Hr Hq. cbn [l3_executeOrder ref_ops]. unfold ref_execute.
    change (seq_accepted b seq) with (ref_accepts b seq) in Ha.
    rewrite Ha, (ref_locate_rests b s p o) by done. cbn [negb]. rewrite Z.min_l by lia.
    apply ref_set_mutated; done || lia.
  - intros b s p id q ts prio seq last Hb Hs Ha Hid Hq Hprio.
    cbn [l3_addOrder ref_ops]. unfold ref_add. rewrite (proj2 (Z.eqb_neq prio 0)) by done.
    change (seq_accepted b seq) with (ref_accepts b seq) in Ha.
    rewrite Ha, ref_locate_absent, (proj2 (Z.ltb_lt 0 q)) by done. cbn [andb negb].
    rewrite bool_decide_eq_false_2 by (by intros []). cbn [negb].
    apply ref_change_mutated; [done|]. intros p' Hp'. rewrite list_elem_of_singleton in Hp'.
    apply (level_qty_insert_other s); [exact (book_side_ok b s Hb Hs)|done|done].
  - intros b s p o ts seq last Hb Hs Ha Hr. cbn [l3_deleteOrder ref_ops]. unfold ref_delete.
    change (seq_accepted b seq) with (ref_accepts b seq) in Ha.
    rewrite (ref_locate_rests b s p o), Ha by done. apply ref_set_mutated; done || lia.
  - intros b id ts seq last Hb Hid. cbn [l3_deleteOrder ref_ops]. unfold ref_delete.
    by rewrite ref_locate_absent.
  - done.
  - intros b s p o ts seq last Hb Hs Ha Hr. cbn [l3_modifyOrder ref_ops]. unfold ref_modify.
    change (seq_accepted b seq) with (ref_accepts b seq) in Ha.
    assert (Hpos : 0 < l3_quantity o).
    { apply rests_at_flat in Hr. by apply (flat_pos s (ref_levels b s) (p, o)); [exact (book_side_ok b s Hb Hs)|]. }
    rewrite (proj2 (Z.eqb_neq _ 0)), (ref_locate_rests b s p o), Ha, !Z.eqb_refl by (done || lia).
    cbn [negb andb]. exists b. split; [done|]. split; [done|]. lia.
  - intros b s p o q ts seq last Hb Hs Ha Hr Hq Hne. cbn [l3_modifyOrder ref_ops]. unfold ref_modify.
    change (seq_accepted b seq) with (ref_accepts b seq) in Ha.
    rewrite (proj2 (Z.eqb_neq q 0)), (ref_locate_rests b s p o), Ha, !Z.eqb_refl by (done || lia).
    cbn [negb andb]. rewrite (proj2 (Z.eqb_neq q _)) by done. apply ref_set_mutated; done || lia.
  - intros b s p o np q ts prio seq last Hb Hs Ha Hr Hq Hne Hprio.
    cbn [l3_modifyOrder ref_ops]. unfold ref_modify.
    change (seq_accepted b seq) with (ref_accepts b seq) in Ha.
    rewrite (proj2 (Z.eqb_neq q 0)), (ref_locate_rests b s p o), Ha by (done || lia). cbn [negb].
    replace ((np =? p) && (prio =? l3_priority o)) with false.
    2: { symmetry. apply andb_false_iff. destruct Hne; [left|right]; by apply Z.eqb_neq. }
    apply ref_change_mutated; [done|]. intros p' Hp'.
    rewrite not_elem_of_cons, list_elem_of_singleton in Hp'. destruct Hp' as [Hp1 Hp2].
    apply rests_at_flat in Hr. pose proof (book_side_ok b s Hb Hs) as Hok.
    rewrite (level_qty_insert_other s); [|by apply side_ok_set|done|done].
    apply (level_qty_set_other s _ _ _ p o); try done. exact (side_ids_nodup b s Hb Hs).
  - intros b. cbn. split; [by intros []|done].
Qed.

#[export] Instance ref_default_priority : DefaultPriority RefBook.
Proof.
  intros b id s p q ts seq last. cbn [l3_addOrder ref_ops]. unfold ref_add. by destruct (ts =? 0) eqn:E; bool_to_prop; subst.
Qed.

(** A book built by adds from the empty one is well-formed. *)
Lemma ref_empty_ok : book_ok ref_empty.
Proof. split; [split; constructor|split; constructor|constructor]. Qed.
