(* ===== verification/OrderBook.v ===== *)
(** * The order book

    Models [src/order_book/order_book.hpp]: client orders live in a pool and are reached
    through pointers, three maps index the resting ones, and [OrderBookL3] holds every
    resting order - the clients' and the phantom ones that mirror the venue - behind
    [L3Ops]. An L3 mutation notifies the book itself and then the symbol's observer,
    whose two caches are therefore part of this state.

    [World] is everything the exchange thread mutates while it works on one symbol:
    the book, the process-wide counters, and the queues it writes to. *)

From S2P Require Import Prelude Types FixedString Orders Messages MarketData L3Interface.

Abbreviation ptr := Z (only parsing).

(** [slick::ObjectPool<Order>]. *)
Class ObjectPool (Pool : Type) := {
  pool_allocate : Pool -> ptr * Pool;
  pool_free : ptr -> Pool -> Pool
}.

(** What the code reads from outside: the clock, the UUID generator, and what the slots
    of the recycled queues still hold when they are reserved. Each is read by position. *)
Class Environment := {
  env_clock : nat -> time_t;
  env_uuid : nat -> bytes;
  env_response_slot : nat -> OrderResponse;
  env_level_slot : nat -> nat -> MDLevel
}.

(** The process-wide atomics and the positions in the environment's streams. *)
Record Globals := mkGlobals {
  g_next_priority : Z;
  g_next_order_id : Z;
  g_next_trade_id : Z;
  g_clock : nat;
  g_uuid : nat
}.

#[export] Instance Globals_eta : Eta Globals := fun g =>
  mkGlobals (g_next_priority g) (g_next_order_id g) (g_next_trade_id g) (g_clock g) (g_uuid g).

Section OrderBook.
Context {L3 Pool : Type} {l3ops : L3Ops L3} {poolops : ObjectPool Pool} {env : Environment}.

Record OrderBook := mkOrderBook {
  ob_l3 : L3;
  ob_heap : ptr -> Order;
  ob_pool : Pool;
  ob_orders : gmap Z ptr;
  ob_orders_by_client_order_id : gmap bytes ptr;
  ob_orders_by_order_id : gmap bytes ptr;
  ob_feed_md_level_quantity : gmap Z Z;
  ob_venue : Venue;
  ob_symbol : fixed_string;
  ob_last_update_time : time_t;
  ob_last_seq_num : Z;
  ob_md_level_update_cache : list MDLevel;
  ob_md_order_update_cache : list MDOrder
}.

#[export] Instance OrderBook_eta : Eta OrderBook := fun b =>
  mkOrderBook (ob_l3 b) (ob_heap b) (ob_pool b) (ob_orders b) (ob_orders_by_client_order_id b)
    (ob_orders_by_order_id b) (ob_feed_md_level_quantity b) (ob_venue b) (ob_symbol b)
    (ob_last_update_time b) (ob_last_seq_num b) (ob_md_level_update_cache b)
    (ob_md_order_update_cache b).

Record World := mkWorld {
  w_book : OrderBook;
  w_glob : Globals;
  w_responses : list OrderResponse;
  w_md : list MarketDataUpdate
}.

#[export] Instance World_eta : Eta World := fun w =>
  mkWorld (w_book w) (w_glob w) (w_responses w) (w_md w).

(** ** Access to pooled orders *)

Definition order_at (w : World) (p : ptr) : Order := ob_heap (w_book w) p.

Definition book_set_order (b : OrderBook) (p : ptr) (o : Order) : OrderBook :=
  b <| ob_heap := <[p := o]> (ob_heap b) |>.

Definition set_order (w : World) (p : ptr) (o : Order) : World :=
  w <| w_book ::= fun b => book_set_order b p o |>.

(** [utils::get_current_time_ns()]. *)
Definition get_current_time_ns (w : World) : time_t * World :=
  (env_clock (g_clock (w_glob w)), w <| w_glob ::= fun g => g <| g_clock ::= S |> |>).

(** [fetch_add(1) + 1] and [fetch_add(1)] on 64-bit atomics. *)
Definition nextOrderPriority (w : World) : Z * World :=
  let p := u64 (g_next_priority (w_glob w) + 1) in
  (p, w <| w_glob ::= fun g => g <| g_next_priority := p |> |>).

Definition nextOrderId (w : World) : Z * World :=
  let id := g_next_order_id (w_glob w) in
  (id, w <| w_glob ::= fun g => g <| g_next_order_id := u64 (id + 1) |> |>).

(** ** Lookups *)

Definition findOrder (b : OrderBook) (order_id : Z) : option ptr := ob_orders b !! order_id.
Definition findOrderByClientOrderId (b : OrderBook) (client_order_id : bytes) : option ptr :=
  ob_orders_by_client_order_id b !! client_order_id.
Definition findOrderByOrderId (b : OrderBook) (order_id : bytes) : option ptr :=
  ob_orders_by_order_id b !! order_id.

(** [unordered_map::emplace] keeps an existing entry. *)
Definition emplace {K} `{Countable K} (k : K) (p : ptr) (m : gmap K ptr) : gmap K ptr :=
  match m !! k with Some _ => m | None => <[k := p]> m end.

(** The three maps gain, or lose, an order. *)
Definition index_order (b : OrderBook) (p : ptr) : OrderBook :=
  let order := ob_heap b p in
  let b := b <| ob_orders ::= emplace (o_id order) p |> in
  let b := if empty (o_client_order_id order) then b
           else b <| ob_orders_by_client_order_id ::= emplace (string_key (o_client_order_id order)) p |> in
  if empty (o_order_id order) then b
  else b <| ob_orders_by_order_id ::= emplace (string_key (o_order_id order)) p |>.

Definition unindex_order (b : OrderBook) (p : ptr) (id : Z) : OrderBook :=
  let order := ob_heap b p in
  let b := if empty (o_client_order_id order) then b
           else b <| ob_orders_by_client_order_id ::= delete (string_key (o_client_order_id order)) |> in
  let b := if empty (o_order_id order) then b
           else b <| ob_orders_by_order_id ::= delete (string_key (o_order_id order)) |> in
  b <| ob_orders ::= delete id |>.

(** ** The observers *)

Definition feed_add (m : gmap Z Z) (price : Z) (delta : qty_t) : gmap Z Z :=
  match m !! price with Some q => <[price := q + delta]> m | None => m end.

(** [it->second += delta] where the level is known, else a new entry when [quantity]. *)
Definition feed_add_or_new (m : gmap Z Z) (price : Z) (delta quantity : qty_t)
  : gmap Z Z :=
  match m !! price with
  | Some q => <[price := q + delta]> m
  | None => if quantity =? 0 then m else <[price := quantity]> m
  end.

Definition onOrderUpdate (b : OrderBook) (update : OrderUpdate) : OrderBook :=
  match findOrder b (ou_order_id update) with
  | None =>
      if negb (ou_price update =? ou_old_price update) then
        b <| ob_feed_md_level_quantity ::= fun m =>
               feed_add_or_new (feed_add m (ou_old_price update) (- ou_old_qty update))
                 (ou_price update) (ou_quantity update) (ou_quantity update) |>
      else
        b <| ob_feed_md_level_quantity ::= fun m =>
               feed_add_or_new m (ou_price update) (ou_quantity update - ou_old_qty update)
                 (ou_quantity update) |>
  | Some our_order =>
      let order := ob_heap b our_order in
      if (ou_quantity update =? 0) && negb (o_quantity order =? ou_quantity update)
      then book_set_order b our_order (order <| o_leaves_quantity := 0 |>)
      else b
  end.

(** Only an assertion in the code. *)
Definition onPriceLevelUpdate (b : OrderBook) (update : PriceLevelUpdate) : OrderBook := b.

(** [Symbol::onPriceLevelUpdate] and [Symbol::onOrderUpdate], through [OrderBookObserver]. *)
Definition symbol_onPriceLevelUpdate (b : OrderBook) (update : PriceLevelUpdate) : OrderBook :=
  b <| ob_md_level_update_cache ::= fun c =>
    c ++ [mkMDLevel (pu_timestamp update) (pu_seq_num update) (pu_price update) (pu_quantity update)
            (pu_num_orders update) (pu_level_index update) ACTION_NEW
            (if pu_last_in_batch update then F_END_EVENT else F_NONE) (pu_side update)] |>.

Definition symbol_onOrderUpdate (b : OrderBook) (update : OrderUpdate) : OrderBook :=
  let action :=
    if isDelete update then ACTION_DELETE
    else if (ou_old_qty update =? 0) && (ou_old_price update =? 0) then ACTION_NEW
    else ACTION_CHANGE in
  b <| ob_md_order_update_cache ::= fun c =>
    c ++ [mkMDOrder (ou_order_id update) (ou_timestamp update) (ou_priority update)
            (ou_price update) (ou_quantity update) (ou_side update) action] |>.

(** The book registers itself first, then the symbol's observer ([createOrderBook]). *)
Definition observe (b : OrderBook) (e : BookEvent) : OrderBook :=
  match e with
  | EvOrder u => symbol_onOrderUpdate (onOrderUpdate b u) u
  | EvLevel u => symbol_onPriceLevelUpdate (onPriceLevelUpdate b u) u
  end.

(** A call into the base class, and the notifications it fires. *)
Definition l3_call (b : OrderBook) (out : L3 * list BookEvent * bool) : OrderBook * bool :=
  let '(l3, evs, r) := out in (fold_left observe evs (b <| ob_l3 := l3 |>), r).

(** ** The pool *)

(** [to_chars] writes 36 characters and the terminator goes after them. *)
Definition allocateOrder (w : World) : ptr * World :=
  let '(p, pool) := pool_allocate (ob_pool (w_book w)) in
  let w := w <| w_book ::= fun b => b <| ob_pool := pool |> |> in
  let uuid := env_uuid (g_uuid (w_glob w)) in
  let w := w <| w_glob ::= fun g => g <| g_uuid ::= S |> |> in
  let '(id, w) := nextOrderId w in
  let '(now, w) := get_current_time_ns w in
  let order := order_at w p in
  let order := order <| o_identity ::= fun i => i <| id_order_id := uuid ++ [NUL] |> |>
                     <| o_id := id |>
                     <| o_request_tag := 0 |>
                     <| o_created_time := now |>
                     <| o_last_update_time := now |> in
  (p, set_order w p (resetFillAccounting order 0)).

Definition freeOrder (w : World) (p : ptr) : World :=
  w <| w_book ::= fun b => b <| ob_pool ::= pool_free p |> |>.

(** ** Mutations *)

Definition addOrder (w : World) (p : ptr) (timestamp seq_num : Z) (last : bool) : World :=
  let '(prio, w) := nextOrderPriority w in
  let w := set_order w p ((order_at w p) <| o_priority := prio |>) in
  let b := index_order (w_book w) p in
  let order := ob_heap b p in
  w <| w_book := fst (l3_call b (l3_addOrder (ob_l3 b) (o_id order) (o_side order) (o_price order)
                                   (o_leaves_quantity order) timestamp (o_priority order)
                                   seq_num last)) |>.

Definition addBookOrder (w : World) (order_id : Z) (book_side : Side) (price : price_t) (qty : qty_t)
  (timestamp seq_num : Z) (last : bool) : World :=
  let '(prio, w) := nextOrderPriority w in
  let b := w_book w in
  w <| w_book := fst (l3_call b (l3_addOrder (ob_l3 b) order_id book_side price qty timestamp prio
                                   seq_num last)) |>.

(** [deleteOrder(order, timestamp, ...)]. *)
Definition deleteOrder (b : OrderBook) (p : ptr) (timestamp seq_num : Z) (last : bool) : OrderBook :=
  let id := o_id (ob_heap b p) in
  let '(b, _) := l3_call b (l3_deleteOrder (ob_l3 b) id timestamp seq_num last) in
  match ob_orders b !! o_id (ob_heap b p) with
  | Some _ => unindex_order b p (o_id (ob_heap b p))
  | None => b
  end.

(** [deleteOrder(order)]: out of the maps and back to the pool. *)
Definition deleteOrder_pooled (b : OrderBook) (p : ptr) : OrderBook :=
  let b := match ob_orders b !! o_id (ob_heap b p) with
           | Some _ => unindex_order b p (o_id (ob_heap b p))
           | None => b
           end in
  b <| ob_pool ::= pool_free p |>.

Definition modifyOrder (w : World) (p : ptr) (new_price : price_t) (new_qty : qty_t)
  (timestamp seq_num : Z) (last : bool) : World :=
  let order := order_at w p in
  let found := bool_decide (is_Some (ob_orders (w_book w) !! o_id order)) in
  let '(found, w) :=
    if negb found then
      let w := set_order w p (order <| o_price := new_price |>) in
      let '(prio, w) := nextOrderPriority w in
      let w := set_order w p ((order_at w p) <| o_priority := prio |>) in
      if new_qty =? 0 then (false, w) else (true, w <| w_book ::= fun b => index_order b p |>)
    else if negb (new_price =? o_price order) then
      let w := set_order w p (order <| o_price := new_price |>) in
      let '(prio, w) := nextOrderPriority w in
      (true, set_order w p ((order_at w p) <| o_priority := prio |>))
    else (true, w) in
  let w := set_order w p ((order_at w p) <| o_quantity := new_qty |>) in
  let b := w_book w in
  let order := ob_heap b p in
  let '(b, _) := l3_call b (l3_modifyOrder (ob_l3 b) (o_id order) new_price (o_leaves_quantity order)
                              timestamp (o_priority order) seq_num last) in
  let b := if (o_leaves_quantity (ob_heap b p) =? 0) && found
           then unindex_order b p (o_id (ob_heap b p)) else b in
  w <| w_book := b |>.

(** The base-class calls on phantom orders that do not go through an [Order]. *)
Definition modifyBookOrder (b : OrderBook) (order_id : Z) (new_price : price_t) (new_qty : qty_t)
  (timestamp priority seq_num : Z) (last : bool) : OrderBook * bool :=
  l3_call b (l3_modifyOrder (ob_l3 b) order_id new_price new_qty timestamp priority seq_num last).

Definition deleteBookOrder (b : OrderBook) (order_id timestamp seq_num : Z) (last : bool)
  : OrderBook * bool :=
  l3_call b (l3_deleteOrder (ob_l3 b) order_id timestamp seq_num last).

(** One resting client order, as [clearMDOrders] saves it. *)
Definition saved_order (b : OrderBook) (kv : Z * ptr) : option (Z * Side * price_t * qty_t * time_t * Z) :=
  let '(id, p) := kv in
  let order := ob_heap b p in
  if 0 <? o_leaves_quantity order
  then Some (id, o_side order, o_price order, o_leaves_quantity order, o_last_update_time order,
             o_priority order)
  else None.

Definition restore_order (b : OrderBook) (s : Z * Side * price_t * qty_t * time_t * Z) : OrderBook :=
  let '(id, side, price, qty, ts, prio) := s in
  fst (l3_call b (l3_addOrder (ob_l3 b) id side price qty ts prio 0 false)).

(** The iteration order of the hash map is unspecified; [map_to_list] is one of them. *)
Definition clearMDOrders (b : OrderBook) : OrderBook :=
  let sim_orders := omap (saved_order b) (map_to_list (ob_orders b)) in
  let '(l3, evs) := l3_clear (ob_l3 b) in
  let '(b, _) := l3_call b (l3, evs, true) in
  let b := b <| ob_feed_md_level_quantity := ∅ |> in
  fold_left restore_order sim_orders b.

(** The override that books a fill on the client's own order first. *)
Definition executeBookOrder (b : OrderBook) (order_id : Z) (executed_quantity : qty_t)
  (timestamp seq_num : Z) (last : bool) : OrderBook * bool :=
  if (0 <? seq_num) && (seq_num <? getLastSeqNum (ob_l3 b)) then (b, false)
  else
    let order := findOrder b order_id in
    let b := match order with
             | Some p => book_set_order b p
                           (executeOrder (ob_heap b p) (o_price (ob_heap b p)) executed_quantity timestamp)
             | None => b
             end in
    let '(b, rt) := l3_call b (l3_executeOrder (ob_l3 b) order_id executed_quantity timestamp seq_num last) in
    match order with
    | Some p => if o_leaves_quantity (ob_heap b p) =? 0 then (unindex_order b p order_id, rt) else (b, rt)
    | None => (b, rt)
    end.

Definition getMDLevelQty (b : OrderBook) (price : price_t) : qty_t :=
  default 0 (ob_feed_md_level_quantity b !! price).

Definition setLastUpdate (b : OrderBook) (timestamp seq_num : Z) : OrderBook :=
  b <| ob_last_update_time := timestamp |> <| ob_last_seq_num := seq_num |>.

(** ** L2 views *)

(** Only price, quantity and order count are written; the rest of the entry is what the
    reserved frame held. *)
Definition fill_level (stale : MDLevel) (l : Level) : MDLevel :=
  stale <| ml_price := lv_price l |> <| ml_qty := lv_total_quantity l |>
        <| ml_num_orders := u32 (Z.of_nat (List.length (lv_orders l))) |>.

Definition fill_levels (frame : nat) (first : nat) (ls : list Level) : list MDLevel :=
  imap (fun i l => fill_level (env_level_slot frame (first + i)) l) ls.

Definition book_snapshot (b : OrderBook) (frame : nat) : BookSnapshot :=
  let ask_levels := getLevelsL3 (ob_l3 b) SELL in
  let bid_levels := getLevelsL3 (ob_l3 b) BUY in
  mkBookSnapshot (u32 (Z.of_nat (List.length bid_levels))) (u32 (Z.of_nat (List.length ask_levels)))
    (fill_levels frame 0 bid_levels ++ fill_levels frame (List.length bid_levels) ask_levels).

Definition publish_md (w : World) (t : MDUpdateType) (symbol : fixed_string) (venue : Venue)
  (data : MDPayload) : World :=
  w <| w_md ::= fun q => q ++ [mkMDUpdate symbol venue t data] |>.

Definition populateL2SubscriptionResponse (w : World) (channel : Z) : World :=
  publish_md w SUB_RESPONSE (ob_symbol (w_book w)) (ob_venue (w_book w))
    (PSubBook channel MDReject.NONE (book_snapshot (w_book w) (List.length (w_md w)))).

Definition populateL2Snapshot (w : World) : World :=
  publish_md w BOOK_SNAPSHOT (ob_symbol (w_book w)) (ob_venue (w_book w))
    (PSnapshot (book_snapshot (w_book w) (List.length (w_md w)))).

(** The first ten levels of each side, over what the arrays held. *)
Definition populateMDBookUpdate (b : OrderBook) (u : MDBookUpdate) : MDBookUpdate :=
  let fill (slots : list MDLevel) (ls : list Level) :=
    imap (fun i slot => match ls !! i with
                        | Some l => if (i <? 10)%nat then fill_level slot l else slot
                        | None => slot
                        end) slots in
  u <| mbu_sell ::= fun slots => fill slots (getLevelsL3 (ob_l3 b) SELL) |>
    <| mbu_buy ::= fun slots => fill slots (getLevelsL3 (ob_l3 b) BUY) |>.

End OrderBook.

Arguments OrderBook : clear implicits.
Arguments World : clear implicits.
