(* ===== verification/OrderBookInv.v ===== *)
(** * Invariants of the order book

    [book_inv]: the base book is well-formed, every indexed client order rests in it with
    its own price and remaining quantity, the lookup maps agree, and the feed quantity of
    a price is exactly what phantom orders hold there. Every operation keeps it.
    [level_step]: the level updates an operation cached turn the old depth of the book into
    the new one, price by price. [stepped] adds what no operation of a match does: index an
    order, lose a pooled order that is still indexed, or move the process-wide counters. *)

From S2P Require Import Prelude Types FixedString Orders Messages MarketData L3Interface L3Lemmas.
From S2P Require Import OrderBook.

(** What the simulator relies on in [slick::ObjectPool]: a slot is handed out only while it
    is not in use, and freeing one leaves the others in use. *)
Class PoolLaws (Pool : Type) `{ObjectPool Pool} := {
  pool_live : Pool -> ptr -> Prop;
  law_allocate pool :
    ~ pool_live pool (fst (pool_allocate pool))
    /\ pool_live (snd (pool_allocate pool)) (fst (pool_allocate pool))
    /\ (forall q, pool_live pool q -> pool_live (snd (pool_allocate pool)) q);
  law_free pool p q : q <> p -> pool_live pool q -> pool_live (pool_free p pool) q
}.

(** ** Following level updates *)

(** A cached update as a subscriber reads it: at this side and price, show this quantity. *)
Definition delta (l : MDLevel) : Side * price_t * qty_t := (ml_side l, ml_price l, ml_qty l).

Definition follow (ds : list (Side * price_t * qty_t)) (s : Side) (p : price_t) (q : qty_t) : qty_t :=
  fold_left (fun q d => if bool_decide (d.1.1 = s) && (d.1.2 =? p) then d.2 else q) ds q.

Lemma follow_app ds1 ds2 s p q : follow (ds1 ++ ds2) s p q = follow ds2 s p (follow ds1 s p q).
Proof. apply fold_left_app. Qed.

Definition event_delta (u : PriceLevelUpdate) : Side * price_t * qty_t := (pu_side u, pu_price u, pu_quantity u).

Lemma follow_updates us s p q : follow (map event_delta us) s p q = apply_level_updates us s p q.
Proof. unfold follow, apply_level_updates. revert q. induction us as [|u us IH]; intros q; [done|]. cbn. apply IH. Qed.

Section Steps.
Context {L3 Pool : Type} {l3ops : L3Ops L3} {poolops : ObjectPool Pool} {env : Environment}.
Abbreviation OrderBook := (OrderBook L3 Pool).
Abbreviation World := (World L3 Pool).
Implicit Types b : OrderBook.
Implicit Types w : World.

Definition deltas b : list (Side * price_t * qty_t) := map delta (ob_md_level_update_cache b).

(** The quantity a book shows at a price. *)
Definition depth b (s : Side) (p : price_t) : qty_t := level_qty (getLevelsL3 (ob_l3 b) s) p.

Definition level_step b b' : Prop :=
  exists ds, deltas b' = deltas b ++ ds
    /\ forall s p, book_side s -> depth b' s p = follow ds s p (depth b s p).

#[export] Instance level_step_refl : Reflexive level_step.
Proof. intros b. exists []. by rewrite app_nil_r. Qed.

#[export] Instance level_step_trans : Transitive level_step.
Proof.
  intros b1 b2 b3 (d1 & E1 & H1) (d2 & E2 & H2). exists (d1 ++ d2).
  split; [by rewrite E2, E1, app_assoc|]. intros s p Hs. by rewrite follow_app, H2, H1.
Qed.

(** Only the base book and the level cache count. *)
Lemma level_step_same b b1 b2 :
  level_step b b1 -> ob_l3 b2 = ob_l3 b1 -> deltas b2 = deltas b1 -> level_step b b2.
Proof. intros (ds & E & H) E1 E2. exists ds. unfold depth in *. by rewrite E1, E2. Qed.

Lemma level_step_quiet b b' : ob_l3 b' = ob_l3 b -> deltas b' = deltas b -> level_step b b'.
Proof. by apply level_step_same. Qed.

Lemma level_step_from b b0 b' : ob_l3 b0 = ob_l3 b -> deltas b0 = deltas b -> level_step b0 b' -> level_step b b'.
Proof. intros E1 E2 H. etrans; [|exact H]. by apply level_step_quiet. Qed.

Lemma onOrderUpdate_quiet b u :
  ob_l3 (onOrderUpdate b u) = ob_l3 b
  /\ ob_md_level_update_cache (onOrderUpdate b u) = ob_md_level_update_cache b.
Proof. unfold onOrderUpdate. repeat case_match; done. Qed.

Lemma deltas_observe evs b :
  ob_l3 (fold_left observe evs b) = ob_l3 b
  /\ deltas (fold_left observe evs b) = deltas b ++ map event_delta (level_updates evs).
Proof.
  revert b. induction evs as [|[u|u] evs IH]; intros b; cbn [fold_left observe].
  - by rewrite app_nil_r.
  - destruct (IH (symbol_onOrderUpdate (onOrderUpdate b u) u)) as [-> ->].
    destruct (onOrderUpdate_quiet b u) as [E1 E2]. split; [exact E1|].
    change (level_updates (EvOrder u :: evs)) with (level_updates evs). f_equal.
    unfold deltas. change (ob_md_level_update_cache (symbol_onOrderUpdate ?b u))
      with (ob_md_level_update_cache b). by rewrite E2.
  - destruct (IH (symbol_onPriceLevelUpdate (onPriceLevelUpdate b u) u)) as [-> ->].
    split; [done|]. change (level_updates (EvLevel u :: evs)) with (u :: level_updates evs).
    unfold deltas. cbn. by rewrite map_app, <- app_assoc.
Qed.

(** A call whose notifications account for the change of every level. *)
Lemma l3_call_levels b out :
  (forall s p, book_side s ->
     level_qty (getLevelsL3 out.1.1 s) p
     = apply_level_updates (level_updates out.1.2) s p (level_qty (getLevelsL3 (ob_l3 b) s) p)) ->
  level_step b (fst (l3_call b out)).
Proof.
  destruct out as [[l3 evs] r]. cbn [fst snd l3_call]. intros Hl.
  destruct (deltas_observe evs (b <| ob_l3 := l3 |>)) as [E1 E2].
  eexists. split; [exact E2|]. intros s p Hs. unfold depth. rewrite E1, follow_updates. by apply Hl.
Qed.

Lemma mutated_levels b out s ls u seq :
  mutated (ob_l3 b) out s ls u seq -> level_step b (fst (l3_call b out)).
Proof. intros Hm. apply l3_call_levels, Hm. Qed.

(** A call that did nothing, or told nothing because no level changed. *)
Lemma silent_levels b (l3 : L3) r :
  (forall s, getLevelsL3 l3 s = getLevelsL3 (ob_l3 b) s) -> level_step b (fst (l3_call b (l3, [], r))).
Proof. intros Hl. apply l3_call_levels. intros s p _. cbn. by rewrite Hl. Qed.

(** ** Frames of a match *)

Context {poollaws : PoolLaws Pool}.

Definition live b (x : ptr) : Prop := pool_live (ob_pool b) x.

(** The counters a match does not draw from; of trade ids it draws, within their width. *)
Definition same_counters (g g' : Globals) : Prop :=
  g_next_priority g' = g_next_priority g /\ g_next_order_id g' = g_next_order_id g
  /\ g_clock g' = g_clock g /\ g_uuid g' = g_uuid g
  /\ (0 <= g_next_trade_id g < 2 ^ 64 -> 0 <= g_next_trade_id g' < 2 ^ 64).

Record stepped w w' : Prop := {
  st_levels : level_step (w_book w) (w_book w');
  st_orders : ob_orders (w_book w') ⊆ ob_orders (w_book w);
  st_live x : live (w_book w) x -> live (w_book w') x
    \/ exists id, ob_orders (w_book w) !! id = Some x /\ ob_orders (w_book w') !! id = None;
  st_counters : same_counters (w_glob w) (w_glob w')
}.

#[export] Instance stepped_refl : Reflexive stepped.
Proof. intros w. split; [done|done|by left|done]. Qed.

#[export] Instance stepped_trans : Transitive stepped.
Proof.
  intros w1 w2 w3 [A1 A2 A3 A4] [B1 B2 B3 B4]. split.
  - by etrans.
  - by etrans.
  - intros x Hx. destruct (A3 x Hx) as [Hx2|(id & Hid & Hn)].
    + destruct (B3 x Hx2) as [|(id & Hid & Hn)]; [by left|]. right. exists id. split; [|done].
      by eapply lookup_weaken.
    + right. exists id. split; [done|]. by eapply lookup_weaken_None.
  - destruct A4 as (a1 & a2 & a3 & a4 & a5), B4 as (b1 & b2 & b3 & b4 & b5).
    split; [by rewrite b1|]. split; [by rewrite b2|]. split; [by rewrite b3|]. split; [by rewrite b4|auto].
Qed.

(** Two worlds with the same book, apart from pooled orders' contents. *)
Lemma stepped_quiet w w' :
  ob_l3 (w_book w') = ob_l3 (w_book w) -> deltas (w_book w') = deltas (w_book w) ->
  ob_orders (w_book w') = ob_orders (w_book w) -> ob_pool (w_book w') = ob_pool (w_book w) ->
  same_counters (w_glob w) (w_glob w') -> stepped w w'.
Proof.
  intros E1 E2 E3 E4 E5. split; [by apply level_step_quiet|by rewrite E3| |done].
  intros x Hx. left. unfold live. by rewrite E4.
Qed.

(** The order of one id left the book and the maps, and went back to the pool. *)
Lemma stepped_removed w w' id x :
  level_step (w_book w) (w_book w') -> ob_orders (w_book w) !! id = Some x ->
  ob_orders (w_book w') = delete id (ob_orders (w_book w)) ->
  ob_pool (w_book w') = pool_free x (ob_pool (w_book w)) ->
  same_counters (w_glob w) (w_glob w') -> stepped w w'.
Proof.
  intros H1 Hx E2 E3 H4. split; [done|rewrite E2; apply delete_subseteq| |done].
  intros y Hy. destruct (decide (y = x)) as [->|Hne].
  - right. exists id. split; [done|]. by rewrite E2, lookup_delete_eq.
  - left. unfold live. rewrite E3. by apply law_free.
Qed.

End Steps.

(** ** The feed-quantity map *)

Definition feed_qty (m : gmap Z Z) (p : Z) : Z := default 0 (m !! p).

Lemma feed_qty_insert m p q p' : feed_qty (<[p := q]> m) p' = if p' =? p then q else feed_qty m p'.
Proof.
  unfold feed_qty. destruct (p' =? p) eqn:E; bool_to_prop.
  - subst. by rewrite lookup_insert_eq.
  - by rewrite lookup_insert_ne by done.
Qed.

Lemma feed_add_qty m p d p' :
  (m !! p = None -> d = 0) ->
  feed_qty (feed_add m p d) p' = feed_qty m p' + (if p' =? p then d else 0).
Proof.
  intros Hn. unfold feed_add. destruct (m !! p) as [q|] eqn:E.
  - rewrite feed_qty_insert. destruct (p' =? p) eqn:Ep; bool_to_prop; [|lia].
    subst. unfold feed_qty. rewrite E. done.
  - rewrite Hn by done. case_test; lia.
Qed.

Lemma feed_add_or_new_qty m p d q p' :
  (m !! p = None -> d = q) ->
  feed_qty (feed_add_or_new m p d q) p' = feed_qty m p' + (if p' =? p then d else 0).
Proof.
  intros Hn. unfold feed_add_or_new. destruct (m !! p) as [v|] eqn:E.
  - rewrite feed_qty_insert. destruct (p' =? p) eqn:Ep; bool_to_prop; [|lia].
    subst. unfold feed_qty. rewrite E. done.
  - specialize (Hn eq_refl). subst q. destruct (d =? 0) eqn:Ed; bool_to_prop.
    + subst. case_test; lia.
    + rewrite feed_qty_insert. destruct (p' =? p) eqn:Ep; bool_to_prop; [|lia].
      subst. unfold feed_qty. rewrite E. done.
Qed.

Section Invariants.
Context {L3 Pool : Type} {l3ops : L3Ops L3} {laws : L3Laws L3} {poolops : ObjectPool Pool}
  {env : Environment}.
Abbreviation OrderBook := (OrderBook L3 Pool).
Implicit Types b : OrderBook.

(** ** What a base-class call does to the book, the observer caches aside *)

Definition core (b : OrderBook) : OrderBook :=
  b <| ob_md_level_update_cache := [] |> <| ob_md_order_update_cache := [] |>.

Lemma core_fields b b' :
  core b = core b' ->
  ob_l3 b = ob_l3 b' /\ ob_orders b = ob_orders b' /\ ob_pool b = ob_pool b'
  /\ ob_orders_by_client_order_id b = ob_orders_by_client_order_id b'
  /\ ob_orders_by_order_id b = ob_orders_by_order_id b'
  /\ ob_feed_md_level_quantity b = ob_feed_md_level_quantity b'
  /\ ob_heap b = ob_heap b'.
Proof.
  intros E.
  split; [apply (f_equal ob_l3 E)|]. split; [apply (f_equal ob_orders E)|].
  split; [apply (f_equal ob_pool E)|]. split; [apply (f_equal ob_orders_by_client_order_id E)|].
  split; [apply (f_equal ob_orders_by_order_id E)|].
  split; [apply (f_equal ob_feed_md_level_quantity E)|apply (f_equal ob_heap E)].
Qed.

Lemma core_onOrderUpdate b b' u : core b = core b' -> core (onOrderUpdate b u) = core (onOrderUpdate b' u).
Proof.
  destruct b as [f1 f2 f3 f4 f5 f6 f7 f8 f9 f10 f11 c1 c2].
  destruct b' as [g1 g2 g3 g4 g5 g6 g7 g8 g9 g10 g11 d1 d2].
  unfold core. cbn. intros [= -> -> -> -> -> -> -> -> -> -> ->].
  unfold onOrderUpdate, findOrder. cbn. repeat case_match; done.
Qed.

Lemma core_observe evs b :
  core (fold_left observe evs b) = core (fold_left onOrderUpdate (order_updates evs) b).
Proof.
  assert (Hgen : forall b', core b = core b' ->
    core (fold_left observe evs b) = core (fold_left onOrderUpdate (order_updates evs) b')).
  { revert b. induction evs as [|e evs IH]; intros b b' E; [done|].
    destruct e as [u|u]; cbn [fold_left observe].
    - change (order_updates (EvOrder u :: evs)) with (u :: order_updates evs). cbn [fold_left].
      apply IH. change (core (symbol_onOrderUpdate ?x u)) with (core x).
      by apply core_onOrderUpdate.
    - change (order_updates (EvLevel u :: evs)) with (order_updates evs). apply IH. exact E. }
  by apply Hgen.
Qed.

Lemma core_l3_call b (l3 : L3) evs r :
  core (fst (l3_call b (l3, evs, r)))
  = core (fold_left onOrderUpdate (order_updates evs) (b <| ob_l3 := l3 |>)).
Proof. apply core_observe. Qed.

Lemma l3_call_pool b out : ob_pool (fst (l3_call b out)) = ob_pool b.
Proof.
  destruct out as [[l3 evs] r]. change (ob_pool b) with (ob_pool (b <| ob_l3 := l3 |>)). cbn [fst l3_call].
  generalize (b <| ob_l3 := l3 |>). clear b. induction evs as [|[u|u] evs IH]; intros b; [done| |];
    cbn [fold_left]; rewrite IH; cbn; [|done]. unfold onOrderUpdate. by repeat case_match.
Qed.

Lemma l3_call_l3 b out : ob_l3 (fst (l3_call b out)) = out.1.1.
Proof.
  destruct out as [[l3 evs] r]. cbn [fst l3_call].
  change l3 with (ob_l3 (b <| ob_l3 := l3 |>)) at 2.
  generalize (b <| ob_l3 := l3 |>). clear b. induction evs as [|[u|u] evs IH]; intros b; [done| |];
    cbn [fold_left]; rewrite IH; cbn; [|done]. unfold onOrderUpdate. by repeat case_match.
Qed.

Lemma l3_call_result b out : snd (l3_call b out) = snd out.
Proof. by destruct out as [[? ?] ?]. Qed.

(** ** The invariant *)

(** A phantom order's quantity, when it rests at [p]. *)
Definition phantom_at (orders : gmap Z ptr) (p : price_t) (x : price_t * L3Order) : Z :=
  if bool_decide (orders !! flat_id x = None) then at_price p x else 0.

Definition phantom_total (l3 : L3) (orders : gmap Z ptr) (p : price_t) : Z :=
  fsum (phantom_at orders p) (flat (getLevelsL3 l3 BUY))
  + fsum (phantom_at orders p) (flat (getLevelsL3 l3 SELL)).

(** The client order rests: its id has an entry on its side, which - unless the order is
    just being amended - carries the order's own price, leaves and priority. *)
Definition rests_as (l3 : L3) (amending : bool) (id : Z) (o : Order) : Prop :=
  o_id o = id /\ book_side (o_side o) /\ o_priority o <> 0
  /\ exists p e, (p, e) ∈ flat (getLevelsL3 l3 (o_side o)) /\ l3_order_id e = id
     /\ (amending = false ->
         p = o_price o /\ l3_quantity e = o_leaves_quantity o /\ l3_priority e = o_priority o).

(** An identity map indexes exactly the resting orders that carry that identity. *)
Definition indexes (heap : ptr -> Order) (orders : gmap Z ptr) (key : Order -> fixed_string)
  (m : gmap bytes ptr) : Prop :=
  forall k p, m !! k = Some p <->
    exists id, orders !! id = Some p /\ empty (key (heap p)) = false /\ string_key (key (heap p)) = k.

(** [but] is the id of the order an amendment has rewritten and not yet put back. *)
Definition amending (but : option Z) (id : Z) : bool := bool_decide (but = Some id).

Record book_inv (but : option Z) (b : OrderBook) : Prop := {
  bi_l3 : book_ok (ob_l3 b);
  bi_own : forall id p, ob_orders b !! id = Some p -> rests_as (ob_l3 b) (amending but id) id (ob_heap b p);
  bi_client : indexes (ob_heap b) (ob_orders b) o_client_order_id (ob_orders_by_client_order_id b);
  bi_order_id : indexes (ob_heap b) (ob_orders b) o_order_id (ob_orders_by_order_id b);
  bi_feed : forall p, feed_qty (ob_feed_md_level_quantity b) p = phantom_total (ob_l3 b) (ob_orders b) p
}.

Lemma book_inv_core but b b' : core b = core b' -> book_inv but b -> book_inv but b'.
Proof.
  intros E [H1 H2 H3 H4 H5]. destruct (core_fields b b' E) as (E1 & E2 & _ & E4 & E5 & E6 & E7).
  rewrite E1, E2, ?E4, ?E5, ?E6, ?E7 in *. by split.
Qed.

(** ** Phantom totals under a change of one side *)

Lemma phantom_total_replace (l3 l3' : L3) s ls orders p :
  book_side s -> side_becomes l3 l3' s ls ->
  phantom_total l3' orders p
  = phantom_total l3 orders p - fsum (phantom_at orders p) (flat (getLevelsL3 l3 s))
    + fsum (phantom_at orders p) (flat ls).
Proof.
  unfold phantom_total. intros [-> | ->] [E1 E2]; cbn [opposite_side] in E2; rewrite E1, E2; lia.
Qed.

Lemma phantom_at_nonneg (l3 : L3) s orders p :
  book_ok l3 -> book_side s -> 0 <= fsum (phantom_at orders p) (flat (getLevelsL3 l3 s)).
Proof.
  intros Hb Hs. unfold fsum. apply zsum_nonneg. rewrite Forall_map, Forall_forall. intros x Hx.
  pose proof (flat_pos s _ x (book_side_ok l3 s Hb Hs) Hx).
  unfold phantom_at, at_price. repeat case_test; lia.
Qed.

(** A phantom order is in its price's total. *)
Lemma phantom_total_ge (l3 : L3) s orders p o :
  book_ok l3 -> book_side s -> (p, o) ∈ flat (getLevelsL3 l3 s) ->
  orders !! l3_order_id o = None -> l3_quantity o <= phantom_total l3 orders p.
Proof.
  intros Hb Hs Hin Hn.
  pose proof (phantom_at_nonneg l3 (opposite_side s) orders p Hb (opposite_book_side s Hs)) as Hopp.
  assert (Hle : l3_quantity o <= fsum (phantom_at orders p) (flat (getLevelsL3 l3 s))).
  { apply list_elem_of_split in Hin as (a & c & E).
    assert (Hpos : forall x, x ∈ flat (getLevelsL3 l3 s) -> 0 <= phantom_at orders p x).
    { intros x Hx. pose proof (flat_pos s _ x (book_side_ok l3 s Hb Hs) Hx).
      unfold phantom_at, at_price. repeat case_test; lia. }
    rewrite E in Hpos |- *. rewrite fsum_app, fsum_cons.
    assert (0 <= fsum (phantom_at orders p) a /\ 0 <= fsum (phantom_at orders p) c) as [? ?].
    { split; unfold fsum; apply zsum_nonneg; rewrite Forall_map, Forall_forall; intros x Hx; apply Hpos;
        rewrite elem_of_app, elem_of_cons; auto. }
    assert (phantom_at orders p (p, o) = l3_quantity o); [|lia].
    unfold phantom_at, at_price, flat_id. cbn [fst snd].
    rewrite bool_decide_eq_true_2, Z.eqb_refl by done. done. }
  unfold phantom_total. destruct Hs as [-> | ->]; cbn [opposite_side] in Hopp; lia.
Qed.

(** The weight of an order that changes quantity or price. *)
Lemma phantom_at_mk orders p p' id q prio :
  phantom_at orders p (p', mkL3Order id q prio)
  = if bool_decide (orders !! id = None) then (if p' =? p then q else 0) else 0.
Proof. done. Qed.

(** ** The book's own observer, on a phantom order *)

Lemma onOrderUpdate_phantom b u p :
  ob_orders b !! ou_order_id u = None ->
  (ou_old_qty u <> 0 -> is_Some (ob_feed_md_level_quantity b !! ou_old_price u)) ->
  feed_qty (ob_feed_md_level_quantity (onOrderUpdate b u)) p
  = feed_qty (ob_feed_md_level_quantity b) p
    - (if p =? ou_old_price u then ou_old_qty u else 0)
    + (if p =? ou_price u then ou_quantity u else 0).
Proof.
  intros Hn Hold. unfold onOrderUpdate, findOrder. rewrite Hn.
  destruct (negb (ou_price u =? ou_old_price u)) eqn:E; bool_to_prop; cbn.
  - rewrite feed_add_or_new_qty by done.
    rewrite feed_add_qty.
    + repeat case_test; bool_to_prop; lia.
    + intros En. destruct (decide (ou_old_qty u = 0)); [lia|].
      rewrite En in Hold. by destruct (Hold n) as [? ?].
  - rewrite feed_add_or_new_qty.
    + rewrite E. case_test; lia.
    + intros En. destruct (decide (ou_old_qty u = 0)) as [->|n]; [lia|].
      rewrite <- E, En in Hold. by destruct (Hold n) as [? ?].
Qed.

Lemma onOrderUpdate_phantom_frame b u :
  ob_orders b !! ou_order_id u = None ->
  exists m, onOrderUpdate b u = b <| ob_feed_md_level_quantity := m |>.
Proof.
  intros Hn. unfold onOrderUpdate, findOrder. rewrite Hn. case_test; eexists; reflexivity.
Qed.

(** On a client order it can only zero the leaves, which a removal leaves behind. *)
Lemma onOrderUpdate_own b u p :
  ob_orders b !! ou_order_id u = Some p ->
  onOrderUpdate b u
  = if (ou_quantity u =? 0) && negb (o_quantity (ob_heap b p) =? ou_quantity u)
    then book_set_order b p ((ob_heap b p) <| o_leaves_quantity := 0 |>) else b.
Proof. intros Hp. unfold onOrderUpdate, findOrder. by rewrite Hp. Qed.

(** ** Indexing *)

Lemma flat_set_keeps id q fl x : x ∈ fl -> flat_id x <> id -> x ∈ flat_set id q fl.
Proof.
  intros Hin Hne. unfold flat_set. apply list_elem_of_omap. exists x. split; [done|].
  by rewrite (proj2 (Z.eqb_neq _ _)).
Qed.

Lemma flat_set_new id q fl p o :
  (p, o) ∈ fl -> l3_order_id o = id -> q <> 0 -> (p, o <| l3_quantity := q |>) ∈ flat_set id q fl.
Proof.
  intros Hin Hid Hq. unfold flat_set. apply list_elem_of_omap. exists (p, o). split; [done|].
  unfold flat_id. cbn [snd fst]. by rewrite Hid, Z.eqb_refl, (proj2 (Z.eqb_neq _ _) Hq).
Qed.

Lemma flat_set_removed id fl x : x ∈ flat_set id 0 fl -> flat_id x <> id.
Proof.
  unfold flat_set. intros (y & _ & Hy)%list_elem_of_omap.
  destruct (flat_id y =? id) eqn:E; bool_to_prop; [done|]. by injection Hy as <-.
Qed.

(** An id rests at one place. *)
Lemma same_id_same (l3 : L3) s1 s2 p1 p2 o1 o2 :
  book_ok l3 -> book_side s1 -> book_side s2 ->
  (p1, o1) ∈ flat (getLevelsL3 l3 s1) -> (p2, o2) ∈ flat (getLevelsL3 l3 s2) ->
  l3_order_id o1 = l3_order_id o2 -> s1 = s2 /\ p1 = p2 /\ o1 = o2.
Proof.
  intros Hb Hs1 Hs2 H1 H2 Hid. assert (Hs : s1 = s2).
  { destruct (decide (s1 = s2)) as [|Hne]; [done|]. exfalso.
    assert (E : s2 = opposite_side s1) by (apply other_side; congruence || done).
    pose proof (bo_unique l3 Hb) as Hu. change (NoDup (book_ids l3)) in Hu.
    rewrite (book_ids_side l3 s1 Hs1) in Hu. apply NoDup_app in Hu as (_ & Hd & _).
    apply (Hd (l3_order_id o1)).
    - apply list_elem_of_fmap. by exists (p1, o1).
    - rewrite <- E, Hid. apply list_elem_of_fmap. by exists (p2, o2). }
  subst s2. split; [done|]. pose proof (side_ids_nodup l3 s1 Hb Hs1) as Hnd.
  apply list_elem_of_split in H1 as (a & c & E). rewrite E in Hnd, H2.
  rewrite map_app in Hnd. cbn [map] in Hnd. apply NoDup_app in Hnd as (_ & Ha & Hc).
  apply NoDup_cons in Hc as [Hc _]. change (flat_id (p1, o1)) with (l3_order_id o1) in *.
  rewrite elem_of_app, elem_of_cons in H2. destruct H2 as [H2|[H2|H2]].
  - exfalso. apply (Ha (l3_order_id o1)).
    + rewrite Hid. apply list_elem_of_fmap. by exists (p2, o2).
    + apply elem_of_cons. by left.
  - by injection H2 as -> ->.
  - exfalso. apply Hc. rewrite Hid. apply list_elem_of_fmap. by exists (p2, o2).
Qed.

(** ** Phantom totals *)

Lemma phantom_total_set (l3 l3' : L3) s p o q orders p' :
  book_ok l3 -> book_side s -> (p, o) ∈ flat (getLevelsL3 l3 s) ->
  side_becomes l3 l3' s (levels_set_qty (l3_order_id o) q (getLevelsL3 l3 s)) ->
  phantom_total l3' orders p'
  = phantom_total l3 orders p'
    + (if bool_decide (orders !! l3_order_id o = None) then
         (if p' =? p then q - l3_quantity o else 0) else 0).
Proof.
  intros Hb Hs Hin Hbec. rewrite (phantom_total_replace l3 l3' s _ orders p' Hs Hbec), flat_levels_set.
  rewrite (fsum_set _ _ _ _ p o) by (done || by apply side_ids_nodup).
  unfold phantom_at, at_price, flat_id, flat_qty. cbn [fst snd].
  change (l3_order_id (o <| l3_quantity := q |>)) with (l3_order_id o).
  change (l3_quantity (o <| l3_quantity := q |>)) with q.
  rewrite (Z.eqb_sym p p'). repeat case_test; bool_to_prop; lia.
Qed.

Lemma phantom_total_orders (l3 : L3) orders orders' p :
  (forall s x, book_side s -> x ∈ flat (getLevelsL3 l3 s) ->
     (orders !! flat_id x = None <-> orders' !! flat_id x = None)) ->
  phantom_total l3 orders p = phantom_total l3 orders' p.
Proof.
  intros Hx. unfold phantom_total.
  f_equal; apply fsum_ext, Forall_forall; intros x Hin; unfold phantom_at;
    (erewrite bool_decide_ext; [reflexivity|]); eapply Hx; try exact Hin; [by left|by right].
Qed.

(** ** The identity maps *)

Lemma indexes_heap heap heap' orders key m :
  (forall id p, orders !! id = Some p -> key (heap' p) = key (heap p)) ->
  indexes heap orders key m -> indexes heap' orders key m.
Proof.
  intros Hk Hi k p. rewrite (Hi k p).
  split; intros (id & Hid & He & E); exists id; rewrite (Hk id p Hid) in *; done.
Qed.

Lemma indexes_delete heap orders key m id p :
  orders !! id = Some p -> (forall id', orders !! id' = Some p -> id' = id) ->
  indexes heap orders key m ->
  indexes heap (delete id orders) key
    (if empty (key (heap p)) then m else delete (string_key (key (heap p))) m).
Proof.
  intros Hp Hinj Hi k p'.
  assert (Hother : (exists id', delete id orders !! id' = Some p' /\ empty (key (heap p')) = false
                     /\ string_key (key (heap p')) = k) <-> m !! k = Some p' /\ p' <> p).
  { rewrite (Hi k p'). split.
    - intros (id' & Hid' & He & E). apply lookup_delete_Some in Hid' as [Hne Hid'].
      split; [by exists id'|]. intros ->. by apply Hne, symmetry, Hinj.
    - intros [(id' & Hid' & He & E) Hne]. exists id'. split; [|done].
      apply lookup_delete_Some. split; [|done]. intros ->. congruence. }
  rewrite Hother. destruct (empty (key (heap p))) eqn:Ee.
  - split; [|by intros [? ?]]. intros Hm. split; [done|]. intros ->.
    apply Hi in Hm as (id' & _ & He & _). congruence.
  - rewrite lookup_delete_Some. split; intros [H1 H2]; split; try done.
    + intros ->. apply Hi in H2 as (id' & _ & _ & E). congruence.
    + intros E. apply H2. assert (Hm : m !! k = Some p).
      { apply Hi. by exists id. }
      congruence.
Qed.

Lemma indexes_emplace heap orders key m id p :
  orders !! id = None -> (forall id', orders !! id' <> Some p) ->
  (empty (key (heap p)) = false -> m !! string_key (key (heap p)) = None) ->
  indexes heap orders key m ->
  indexes heap (<[id := p]> orders) key
    (if empty (key (heap p)) then m else emplace (string_key (key (heap p))) p m).
Proof.
  intros Hid Hfresh Hnew Hi k p'. unfold emplace.
  assert (Hiff : (exists id', <[id:=p]> orders !! id' = Some p' /\ empty (key (heap p')) = false
                   /\ string_key (key (heap p')) = k)
     <-> m !! k = Some p' \/ (p' = p /\ empty (key (heap p)) = false /\ string_key (key (heap p)) = k)).
  { rewrite (Hi k p'). split.
    - intros (id' & Hl & He & E). apply lookup_insert_Some in Hl as [[<- <-]|[Hne Hl]]; [by right|].
      left. by exists id'.
    - intros [(id' & Hl & He & E)|(-> & He & E)].
      + exists id'. split; [|done]. rewrite lookup_insert_ne; [done|]. intros <-. congruence.
      + exists id. by rewrite lookup_insert_eq. }
  rewrite Hiff. destruct (empty (key (heap p))) eqn:Ee.
  - split; [by left|]. intros [?|(_ & ? & _)]; done.
  - rewrite (Hnew eq_refl). rewrite lookup_insert_Some. split.
    + intros [[<- <-]|[Hne Hm]]; [by right|by left].
    + intros [Hm|(-> & _ & <-)]; [|by left]. right. split; [|done].
      intros <-. rewrite (Hnew eq_refl) in Hm. done.
Qed.

(** ** Execution *)

(** What executing one resting order does: the queue shrinks, a client order is booked
    exactly once, and it leaves the maps when nothing is left. *)
Record executed (but : option Z) (b b' : OrderBook) (s : Side) (p : price_t) (o : L3Order) (q : qty_t) (ts seq : Z)
  : Prop := {
  ex_inv : book_inv but b';
  ex_accepted : seq_accepted (ob_l3 b') seq = true;
  ex_queue : flat (getLevelsL3 (ob_l3 b') s)
             = flat_set (l3_order_id o) (l3_quantity o - q) (flat (getLevelsL3 (ob_l3 b) s));
  ex_other : getLevelsL3 (ob_l3 b') (opposite_side s) = getLevelsL3 (ob_l3 b) (opposite_side s);
  ex_heap y : ob_heap b' y = if bool_decide (ob_orders b !! l3_order_id o = Some y)
                             then executeOrder (ob_heap b y) p q ts else ob_heap b y;
  ex_orders : ob_orders b' = if l3_quantity o - q =? 0 then delete (l3_order_id o) (ob_orders b)
                             else ob_orders b;
  ex_pool : ob_pool b' = ob_pool b;
  ex_levels : level_step b b'
}.

Lemma own_unique but b id id' p :
  book_inv but b -> ob_orders b !! id = Some p -> ob_orders b !! id' = Some p -> id = id'.
Proof.
  intros Hb H1 H2. destruct (bi_own but b Hb id p H1) as [E1 _]. destruct (bi_own but b Hb id' p H2) as [E2 _].
  congruence.
Qed.

Lemma set_leaves_same (o : Order) q : o_leaves_quantity o = q -> o <| o_leaves_quantity := q |> = o.
Proof. intros <-. by destruct o. Qed.

(** The L3 part of an execution, on any book with the same base book and maps. *)
Lemma l3_execute_step b b0 s p o q ts seq last :
  book_ok (ob_l3 b) -> book_side s -> seq_accepted (ob_l3 b) seq = true ->
  (p, o) ∈ flat (getLevelsL3 (ob_l3 b) s) -> 0 < q <= l3_quantity o ->
  ob_l3 b0 = ob_l3 b ->
  let u := mkOrderUpdate (l3_order_id o) s p (l3_quantity o - q) p (l3_quantity o) ts (l3_priority o) in
  let out := l3_executeOrder (ob_l3 b) (l3_order_id o) q ts seq last in
  snd (l3_call b0 out) = true
  /\ core (fst (l3_call b0 out)) = core (onOrderUpdate (b0 <| ob_l3 := out.1.1 |>) u)
  /\ side_becomes (ob_l3 b) out.1.1 s
       (levels_set_qty (l3_order_id o) (l3_quantity o - q) (getLevelsL3 (ob_l3 b) s))
  /\ book_ok out.1.1 /\ seq_accepted out.1.1 seq = true
  /\ level_step b0 (fst (l3_call b0 out)).
Proof.
  intros Hb Hs Ha Hin Hq E0 u out.
  pose proof (law_execute (ob_l3 b) s p o q ts seq last Hb Hs Ha (proj2 (rests_at_flat _ _ _) Hin) Hq) as Hm.
  fold u out in Hm. pose proof Hm as Hlev. rewrite <- E0 in Hlev. apply mutated_levels in Hlev. destruct out as [[l3 evs] r]. destruct Hm as [Hr Hside Hseq Hou _].
  cbn [fst snd] in *. subst r.
  split; [done|]. split; [|split; [done|]].
  - rewrite core_l3_call, Hou. done.
  - destruct (set_qty_ok (ob_l3 b) l3 s p o (l3_quantity o - q) Hb Hs Hin ltac:(lia) Hside) as [Hok _].
    split; [done|]. split; [eapply seq_accepted_keeps; done|exact Hlev].
Qed.

(** An accepted call about a phantom order keeps the invariant when it keeps the base book
    well-formed, every client order where it rests, and moves the phantom totals the way
    the notification says. *)
Lemma phantom_call_inv but b out u s ls seq :
  mutated (ob_l3 b) out s ls u seq -> book_inv but b -> ob_orders b !! ou_order_id u = None ->
  book_ok out.1.1 ->
  (forall id x, ob_orders b !! id = Some x -> rests_as out.1.1 (amending but id) id (ob_heap b x)) ->
  (forall p, phantom_total out.1.1 (ob_orders b) p
             = phantom_total (ob_l3 b) (ob_orders b) p
               - (if p =? ou_old_price u then ou_old_qty u else 0)
               + (if p =? ou_price u then ou_quantity u else 0)) ->
  0 <= ou_old_qty u <= phantom_total (ob_l3 b) (ob_orders b) (ou_old_price u) ->
  let b' := fst (l3_call b out) in
  snd (l3_call b out) = true /\ book_inv but b' /\ ob_l3 b' = out.1.1 /\ ob_heap b' = ob_heap b
  /\ ob_orders b' = ob_orders b /\ ob_pool b' = ob_pool b.
Proof.
  intros Hm Hb Hn Hok Hown Htot Hold. destruct out as [[l3 evs] r].
  destruct Hm as [Hr _ _ Hou _]. cbn [fst snd] in *. subst r.
  pose proof (core_l3_call b l3 evs true) as Hcore. rewrite Hou in Hcore. cbn [fold_left] in Hcore.
  pose proof (onOrderUpdate_phantom_frame (b <| ob_l3 := l3 |>) u) as Hframe.
  destruct (Hframe Hn) as [m Hm]. rewrite Hm in Hcore.
  assert (Hfeed : forall p', feed_qty m p' = phantom_total l3 (ob_orders b) p').
  { intros p'. rewrite Htot.
    change m with (ob_feed_md_level_quantity ((b <| ob_l3 := l3 |>) <| ob_feed_md_level_quantity := m |>)).
    rewrite <- Hm, onOrderUpdate_phantom; [|done|].
    - change (ob_feed_md_level_quantity (b <| ob_l3 := l3 |>)) with (ob_feed_md_level_quantity b).
      by rewrite (bi_feed but b Hb).
    - intros Hne. pose proof (bi_feed but b Hb (ou_old_price u)) as Hf. unfold feed_qty in Hf.
      cbn. destruct (ob_feed_md_level_quantity b !! ou_old_price u); [done|]. cbn in Hf. lia. }
  split; [done|]. split; [|split; [apply (f_equal ob_l3 Hcore)|]].
  - eapply book_inv_core; [symmetry; exact Hcore|].
    destruct Hb as [_ _ Hc Ho _]. split; cbn; try done.
  - split; [apply (f_equal ob_heap Hcore)|].
    split; [apply (f_equal ob_orders Hcore)|apply (f_equal ob_pool Hcore)].
Qed.

(** Client orders keep resting while another id's entry changes, or one joins. *)
Lemma rests_as_set (l3 l3' : L3) s id q am id' (o : Order) :
  book_side s -> side_becomes l3 l3' s (levels_set_qty id q (getLevelsL3 l3 s)) ->
  id' <> id -> rests_as l3 am id' o -> rests_as l3' am id' o.
Proof.
  intros Hs [Es1 Es2] Hne (E1 & E2 & E3 & px & ex & Hin & Hid & Hv).
  do 3 (split; [done|]). exists px, ex. split; [|done].
  destruct (decide (o_side o = s)) as [E|E].
  - rewrite E in *. rewrite Es1, flat_levels_set. apply flat_set_keeps; [done|].
    unfold flat_id. cbn. congruence.
  - pose proof (other_side s _ Hs E2 E) as E'. rewrite E' in *. by rewrite Es2.
Qed.

Lemma rests_as_insert (l3 l3' : L3) s p e ls am id' (o : Order) :
  book_side s -> side_becomes l3 l3' s (levels_insert s p e ls) ->
  (forall x, x ∈ flat (getLevelsL3 l3 s) -> flat_id x = id' -> x ∈ flat ls) ->
  rests_as l3 am id' o -> rests_as l3' am id' o.
Proof.
  intros Hs [Es1 Es2] Hls (E1 & E2 & E3 & px & ex & Hin & Hid & Hv).
  do 3 (split; [done|]). exists px, ex. split; [|done].
  destruct (decide (o_side o = s)) as [E|E].
  - rewrite E in *. rewrite Es1, flat_levels_insert. apply elem_of_cons. right. by apply Hls.
  - pose proof (other_side s _ Hs E2 E) as E'. rewrite E' in *. by rewrite Es2.
Qed.

(** Phantom liquidity: the feed quantity follows the execution. *)
Lemma execute_phantom but b s p o q ts seq last :
  book_inv but b -> book_side s -> seq_accepted (ob_l3 b) seq = true ->
  (p, o) ∈ flat (getLevelsL3 (ob_l3 b) s) -> 0 < q <= l3_quantity o ->
  ob_orders b !! l3_order_id o = None ->
  let '(b', r) := executeBookOrder b (l3_order_id o) q ts seq last in
  r = true /\ executed but b b' s p o q ts seq.
Proof.
  intros Hb Hs Ha Hin Hq Hn. pose proof (bi_l3 but b Hb) as Hok.
  pose proof (law_execute _ s p o q ts seq last Hok Hs Ha (proj2 (rests_at_flat _ _ _) Hin) Hq) as Hm.
  unfold executeBookOrder, findOrder. rewrite Hn.
  pose proof Ha as Ha0. unfold seq_accepted in Ha0. apply negb_true_iff in Ha0. rewrite Ha0. clear Ha0.
  set (out := l3_executeOrder (ob_l3 b) (l3_order_id o) q ts seq last) in *.
  pose proof (mut_side _ _ _ _ _ _ Hm) as Hside.
  destruct (set_qty_ok (ob_l3 b) out.1.1 s p o (l3_quantity o - q) Hok Hs Hin ltac:(lia) Hside) as [Hok' _].
  destruct (phantom_call_inv but b out _ s _ seq Hm Hb Hn Hok') as (Hr & Hinv & E1 & E2 & E3 & E4).
  - intros id x Hx. eapply rests_as_set; [done|exact Hside| |by apply Hb]. intros ->. congruence.
  - intros p'. rewrite (phantom_total_set (ob_l3 b) out.1.1 s p o (l3_quantity o - q)) by done.
    rewrite bool_decide_eq_true_2 by done. cbn. case_test; lia.
  - cbn. pose proof (phantom_total_ge (ob_l3 b) s (ob_orders b) p o Hok Hs Hin Hn). lia.
  - pose proof (mutated_levels b out _ _ _ _ Hm) as Hlev.
    destruct (l3_call b out) as [b' r']. cbn [fst snd] in *. split; [done|].
    destruct Hside as [Es1 Es2]. split; rewrite ?E1, ?E3; try done.
    + eapply seq_accepted_keeps; [done|apply Hm].
    + by rewrite Es1, flat_levels_set.
    + intros y. by rewrite E2, Hn, bool_decide_eq_false_2.
    + case_test; [|done]. by rewrite delete_id.
Qed.

Lemma unindex_deltas b p id : deltas (unindex_order b p id) = deltas b.
Proof. unfold unindex_order. cbv zeta. by destruct (empty _), (empty _). Qed.

Lemma unindex_fields b p id :
  let b' := unindex_order b p id in
  ob_l3 b' = ob_l3 b /\ ob_heap b' = ob_heap b /\ ob_pool b' = ob_pool b
  /\ ob_orders b' = delete id (ob_orders b)
  /\ ob_orders_by_client_order_id b'
     = (if empty (o_client_order_id (ob_heap b p)) then ob_orders_by_client_order_id b
        else delete (string_key (o_client_order_id (ob_heap b p))) (ob_orders_by_client_order_id b))
  /\ ob_orders_by_order_id b'
     = (if empty (o_order_id (ob_heap b p)) then ob_orders_by_order_id b
        else delete (string_key (o_order_id (ob_heap b p))) (ob_orders_by_order_id b))
  /\ ob_feed_md_level_quantity b' = ob_feed_md_level_quantity b.
Proof.
  unfold unindex_order. cbv zeta.
  destruct (empty (o_client_order_id (ob_heap b p))), (empty (o_order_id (ob_heap b p)));
    cbn; repeat split.
Qed.

(** Taking an order that no longer rests out of the maps. *)
Lemma unindex_inv but b id p :
  book_ok (ob_l3 b) ->
  ob_orders b !! id = Some p ->
  (forall id', ob_orders b !! id' = Some p -> id' = id) ->
  (forall s x, book_side s -> x ∈ flat (getLevelsL3 (ob_l3 b) s) -> flat_id x <> id) ->
  (forall id' p', id' <> id -> ob_orders b !! id' = Some p' -> rests_as (ob_l3 b) (amending but id') id' (ob_heap b p')) ->
  indexes (ob_heap b) (ob_orders b) o_client_order_id (ob_orders_by_client_order_id b) ->
  indexes (ob_heap b) (ob_orders b) o_order_id (ob_orders_by_order_id b) ->
  (forall p', feed_qty (ob_feed_md_level_quantity b) p' = phantom_total (ob_l3 b) (ob_orders b) p') ->
  book_inv but (unindex_order b p id).
Proof.
  intros Hok Hp Hinj Hgone Hown Hc Ho Hf.
  destruct (unindex_fields b p id) as (E1 & E2 & _ & E4 & E5 & E6 & E7).
  split; rewrite ?E1, ?E2, ?E4, ?E5, ?E6, ?E7.
  - done.
  - intros id' p' H'. apply lookup_delete_Some in H' as [Hne H']. by apply Hown.
  - by apply indexes_delete.
  - by apply indexes_delete.
  - intros p'. rewrite Hf. apply phantom_total_orders. intros s x Hs Hx.
    pose proof (Hgone s x Hs Hx). by rewrite lookup_delete_ne by congruence.
Qed.

(** A client order's entry in the base book. *)
Lemma own_entry but b id x s p o :
  book_inv but b -> book_side s -> ob_orders b !! id = Some x ->
  (p, o) ∈ flat (getLevelsL3 (ob_l3 b) s) -> l3_order_id o = id ->
  o_id (ob_heap b x) = id /\ o_side (ob_heap b x) = s
  /\ (but <> Some id ->
      o_price (ob_heap b x) = p /\ o_leaves_quantity (ob_heap b x) = l3_quantity o
      /\ o_priority (ob_heap b x) = l3_priority o).
Proof.
  intros Hb Hs Hx Hin Hid. destruct (bi_own but b Hb id x Hx) as (E1 & E2 & _ & px & ex & Hin' & Hid' & Hv).
  destruct (same_id_same _ _ _ _ _ _ _ (bi_l3 but b Hb) E2 Hs Hin' Hin) as (-> & -> & <-); [congruence|].
  split; [done|]. split; [done|]. intros Hne. unfold amending in Hv.
  rewrite bool_decide_eq_false_2 in Hv by done. by destruct (Hv eq_refl) as (-> & -> & ->).
Qed.

(** The client's side of an execution, up to the base class's return. *)
Lemma execute_own_core b x s p o q ts (l3 : L3) :
  o_price (ob_heap b x) = p -> o_leaves_quantity (ob_heap b x) = l3_quantity o ->
  ob_orders b !! l3_order_id o = Some x ->
  let ex := executeOrder (ob_heap b x) p q ts in
  let u := mkOrderUpdate (l3_order_id o) s p (l3_quantity o - q) p (l3_quantity o) ts (l3_priority o) in
  let b1 := onOrderUpdate ((book_set_order b x ex) <| ob_l3 := l3 |>) u in
  ob_l3 b1 = l3 /\ ob_pool b1 = ob_pool b /\ ob_orders b1 = ob_orders b
  /\ ob_orders_by_client_order_id b1 = ob_orders_by_client_order_id b
  /\ ob_orders_by_order_id b1 = ob_orders_by_order_id b
  /\ ob_feed_md_level_quantity b1 = ob_feed_md_level_quantity b
  /\ (forall y, ob_heap b1 y = if bool_decide (x = y) then ex else ob_heap b y).
Proof.
  intros Hp Hl Hx ex u b1. subst b1.
  pose proof (onOrderUpdate_own ((book_set_order b x ex) <| ob_l3 := l3 |>) u x) as Hown.
  rewrite Hown by done. clear Hown.
  change (ob_heap ((book_set_order b x ex) <| ob_l3 := l3 |>) x) with ((<[x := ex]> (ob_heap b)) x).
  rewrite fn_lookup_insert.
  assert (Hheap : forall y, (<[x := ex]> (ob_heap b)) y = if bool_decide (x = y) then ex else ob_heap b y).
  { intros y. case_bool_decide as E; [subst; by rewrite fn_lookup_insert|by rewrite fn_lookup_insert_ne]. }
  case_test; [|done]. repeat (split; [done|]). intros y. bool_to_prop.
  change (ob_heap (book_set_order ?b ?x ?o) y) with ((<[x := o]> (ob_heap b)) y).
  case_bool_decide as E.
  - subst y. rewrite fn_lookup_insert. apply set_leaves_same. subst ex u. cbn in *. lia.
  - rewrite fn_lookup_insert_ne by done.
    change (ob_heap ((book_set_order b x ex) <| ob_l3 := l3 |>) y) with ((<[x := ex]> (ob_heap b)) y).
    by rewrite fn_lookup_insert_ne.
Qed.

(** A changed heap that keeps identities keeps both identity maps. *)
Lemma executeOrder_identity o p q ts : o_identity (executeOrder o p q ts) = o_identity o.
Proof. done. Qed.

Lemma execute_own but b x s p o q ts seq last :
  book_inv but b -> book_side s -> seq_accepted (ob_l3 b) seq = true ->
  (p, o) ∈ flat (getLevelsL3 (ob_l3 b) s) -> 0 < q <= l3_quantity o ->
  ob_orders b !! l3_order_id o = Some x -> but <> Some (l3_order_id o) ->
  let '(b', r) := executeBookOrder b (l3_order_id o) q ts seq last in
  r = true /\ executed but b b' s p o q ts seq.
Proof.
  intros Hb Hs Ha Hin Hq Hx Hbut. pose proof (bi_l3 but b Hb) as Hok.
  destruct (own_entry but b _ x s p o Hb Hs Hx Hin eq_refl) as (Eid & Eside & Hv).
  destruct (Hv Hbut) as (Ep & El & Eprio). clear Hv.
  unfold executeBookOrder, findOrder. rewrite Hx, Ep.
  pose proof Ha as Ha0. unfold seq_accepted in Ha0. apply negb_true_iff in Ha0. rewrite Ha0. clear Ha0.
  set (ex := executeOrder (ob_heap b x) p q ts).
  change (ob_l3 (book_set_order b x ex)) with (ob_l3 b).
  destruct (l3_execute_step b (book_set_order b x ex) s p o q ts seq last Hok Hs Ha Hin Hq eq_refl)
    as (Hr & Hcore & Hside & Hok' & Ha' & Hlev).
  destruct (l3_executeOrder (ob_l3 b) (l3_order_id o) q ts seq last) as [[l3 evs] r].
  destruct (l3_call (book_set_order b x ex) (l3, evs, r)) as [b1 r'] eqn:Ecall.
  cbn [fst snd] in *. subst r'.
  set (u := mkOrderUpdate _ _ _ _ _ _ _ _) in Hcore.
  destruct (execute_own_core b x s p o q ts l3 Ep El Hx) as (F1 & F2 & F3 & F4 & F5 & F6 & F7).
  fold ex u in F1, F2, F3, F4, F5, F6, F7.
  apply (level_step_from b) in Hlev; [|done|done].
  assert (G1 : ob_l3 b1 = l3) by (rewrite <- F1; apply (f_equal ob_l3 Hcore)).
  assert (G2 : ob_pool b1 = ob_pool b) by (rewrite <- F2; apply (f_equal ob_pool Hcore)).
  assert (G3 : ob_orders b1 = ob_orders b) by (rewrite <- F3; apply (f_equal ob_orders Hcore)).
  assert (G4 : ob_orders_by_client_order_id b1 = ob_orders_by_client_order_id b)
    by (rewrite <- F4; apply (f_equal ob_orders_by_client_order_id Hcore)).
  assert (G5 : ob_orders_by_order_id b1 = ob_orders_by_order_id b)
    by (rewrite <- F5; apply (f_equal ob_orders_by_order_id Hcore)).
  assert (G6 : ob_feed_md_level_quantity b1 = ob_feed_md_level_quantity b)
    by (rewrite <- F6; apply (f_equal ob_feed_md_level_quantity Hcore)).
  assert (G7 : forall y, ob_heap b1 y = if bool_decide (x = y) then ex else ob_heap b y).
  { intros y. rewrite <- F7. apply (f_equal (fun b => ob_heap b y) Hcore). }
  clear F1 F2 F3 F4 F5 F6 F7 Hcore Ecall.
  assert (Hinj : forall id', ob_orders b1 !! id' = Some x -> id' = l3_order_id o).
  { rewrite G3. intros id' Hid'. by apply (own_unique but b id' _ x). }
  assert (Hown : forall id' p', id' <> l3_order_id o -> ob_orders b1 !! id' = Some p' ->
    rests_as (ob_l3 b1) (amending but id') id' (ob_heap b1 p')).
  { intros id' p' Hne Hp'. rewrite G1, G7. rewrite bool_decide_eq_false_2.
    - eapply rests_as_set; [done|exact Hside|done|]. apply Hb. by rewrite <- G3.
    - intros ->. by apply Hne, Hinj. }
  assert (Hkeys : forall (key : Order -> fixed_string),
    (forall o', key (executeOrder o' p q ts) = key o') ->
    forall id' p', ob_orders b !! id' = Some p' -> key (ob_heap b1 p') = key (ob_heap b p')).
  { intros key Hkey id' p' _. rewrite G7. case_bool_decide; [subst; apply Hkey|done]. }
  assert (Hc : indexes (ob_heap b1) (ob_orders b1) o_client_order_id (ob_orders_by_client_order_id b1)).
  { rewrite G3, G4. eapply indexes_heap; [|apply Hb]. by apply Hkeys. }
  assert (Ho : indexes (ob_heap b1) (ob_orders b1) o_order_id (ob_orders_by_order_id b1)).
  { rewrite G3, G5. eapply indexes_heap; [|apply Hb]. by apply Hkeys. }
  assert (Hf : forall p', feed_qty (ob_feed_md_level_quantity b1) p' = phantom_total (ob_l3 b1) (ob_orders b1) p').
  { intros p'. rewrite G6, G1, G3, (bi_feed but b Hb).
    rewrite (phantom_total_set (ob_l3 b) l3 s p o (l3_quantity o - q)) by done.
    rewrite bool_decide_eq_false_2 by congruence. lia. }
  assert (Hex : o_leaves_quantity (ob_heap b1 x) = l3_quantity o - q).
  { rewrite G7, bool_decide_eq_true_2 by done. subst ex. cbn. lia. }
  assert (Hheap : forall y, ob_heap b1 y = if bool_decide (ob_orders b !! l3_order_id o = Some y)
                            then executeOrder (ob_heap b y) p q ts else ob_heap b y).
  { intros y. rewrite G7, Hx. subst ex. repeat case_bool_decide; congruence. }
  destruct Hside as [Es1 Es2]. rewrite Hex.
  destruct (l3_quantity o - q =? 0) eqn:E0; bool_to_prop; split; try done.
  - destruct (unindex_fields b1 x (l3_order_id o)) as (U1 & U2 & U3 & U4 & _).
    split; rewrite ?U1, ?U2, ?U3, ?U4, ?G1, ?G2, ?G3, ?E0; try done.
    + apply unindex_inv; try done; [by rewrite G1|by rewrite G3|].
      intros s' y Hs' Hy. rewrite G1 in Hy. rewrite E0 in Es1.
      destruct (decide (s' = s)) as [->|Hne].
      * rewrite Es1, flat_levels_set in Hy. by apply flat_set_removed in Hy.
      * pose proof (other_side s s' Hs Hs' Hne) as ->. rewrite Es2 in Hy. intros Hyid.
        destruct y as [py oy].
        destruct (same_id_same _ _ _ _ _ _ _ Hok Hs' Hs Hy Hin Hyid) as [Hbad _]. done.
    + by rewrite Es1, flat_levels_set, E0.
    + eapply level_step_same; [exact Hlev|done|by apply unindex_deltas].
  - split; rewrite ?G1, ?G2, ?G3; try done.
    + split; try done; [by rewrite G1|]. intros id' p' Hp'.
      destruct (decide (id' = l3_order_id o)) as [->|Hne]; [|by apply Hown].
      rewrite G3, Hx in Hp'. injection Hp' as <-. rewrite G1, G7, bool_decide_eq_true_2 by done.
      split; [exact Eid|]. split; [by change (o_side ex) with (o_side (ob_heap b x)); rewrite Eside|].
      split; [exact (proj1 (proj2 (proj2 (bi_own but b Hb _ x Hx))))|].
      change (o_side ex) with (o_side (ob_heap b x)). change (o_price ex) with (o_price (ob_heap b x)).
      exists p, (o <| l3_quantity := l3_quantity o - q |>). split; [|split; [done|]].
      * rewrite Eside, Es1, flat_levels_set.
        by apply (flat_set_new (l3_order_id o) (l3_quantity o - q) _ p o).
      * intros _. split; [done|]. split; [subst ex; cbn; lia|done].
    + by rewrite Es1, flat_levels_set.
    + by rewrite (proj2 (Z.eqb_neq _ _) E0).
Qed.

(** Executing any resting order within its quantity. *)
Lemma execute_book but b s p o q ts seq last :
  book_inv but b -> book_side s -> seq_accepted (ob_l3 b) seq = true ->
  (p, o) ∈ flat (getLevelsL3 (ob_l3 b) s) -> 0 < q <= l3_quantity o -> but <> Some (l3_order_id o) ->
  let '(b', r) := executeBookOrder b (l3_order_id o) q ts seq last in
  r = true /\ executed but b b' s p o q ts seq.
Proof.
  intros Hb Hs Ha Hin Hq Hbut. destruct (ob_orders b !! l3_order_id o) as [x|] eqn:E.
  - by apply (execute_own but b x).
  - by apply execute_phantom.
Qed.
End Invariants.
