(* ===== verification/Concrete.v ===== *)
(** * A concrete instantiation

    The reference book, a counting pool and a fixed environment, so that every definition
    evaluates and every theorem with hypotheses can be applied to a closed world. The book
    invariant quantifies over every price and key; on a concrete book it is decided by
    looking at the finitely many that occur. *)

From stdpp Require Import sorting.
From S2P Require Import Prelude Types FixedString Orders Messages MarketData L3Interface L3Lemmas.
From S2P Require Import L3Reference OrderBook OrderBookInv.

(** Never reuses a slot. *)
#[export] Instance counting_pool : ObjectPool Z := {
  pool_allocate n := (n, n + 1);
  pool_free _ n := n
}.

#[export] Instance counting_pool_laws : PoolLaws Z.
Proof.
  refine (Build_PoolLaws Z _ (fun n q => q < n) _ _); cbn.
  - intros n. split; [lia|]. split; [lia|]. intros q Hq. lia.
  - done.
Defined.

Definition stale_level : MDLevel := mkMDLevel 0 0 0 0 0 0 ACTION_NEW 0 BUY.

(** A clock that advances by one, ids that repeat one letter, queue slots as constructed. *)
#[export] Instance fixed_env : Environment := {
  env_clock n := Z.of_nat n;
  env_uuid n := repeat (char_of (65 + Z.of_nat n)) 36;
  env_response_slot _ := default_response;
  env_level_slot _ _ := stale_level
}.

Definition empty_book : OrderBook RefBook Z :=
  mkOrderBook ref_empty (fun _ => default_order 0 0) 0 ∅ ∅ ∅ ∅ COINBASE (assign 32 (str "BTC-USD"))
    0 0 [] [].

Definition empty_globals : Globals := mkGlobals 0 1 1 0 0.

Definition empty_world : World RefBook Z := mkWorld empty_book empty_globals [] [].

(** A phantom order resting from the feed. *)
Definition rest_phantom (w : World RefBook Z) (id : Z) (s : Side) (p q : Z) : World RefBook Z :=
  addBookOrder w id s p q 1 0 true.

(** A client's limit order resting in the book. *)
Definition rest_client (w : World RefBook Z) (s : Side) (p q client : Z) : World RefBook Z :=
  let '(x, w) := allocateOrder w in
  let o := (resetFillAccounting (order_at w x) q)
             <| o_side := s |> <| o_price := p |> <| o_client_id := client |>
             <| o_type := OrderType.LIMIT |> in
  addOrder (set_order w x o) x 1 0 true.

#[export] Instance L3Order_eq_dec : EqDecision L3Order.
Proof. solve_decision. Defined.

#[export] Instance level_ok_dec l : Decision (level_ok l).
Proof. unfold level_ok. apply _. Defined.

#[export] Instance better_level_dec s : RelDecision (better_level s).
Proof. intros a b. unfold better_level. apply _. Defined.

Definition side_check (s : Side) (ls : list Level) : bool :=
  bool_decide (Forall level_ok ls) && bool_decide (StronglySorted (better_level s) ls).

Definition entry_check (b : OrderBook RefBook Z) (x : price_t * L3Order) (id : Z) (o : Order) : bool :=
  bool_decide (l3_order_id x.2 = id) && bool_decide (x.1 = o_price o)
  && bool_decide (l3_quantity x.2 = o_leaves_quantity o) && bool_decide (l3_priority x.2 = o_priority o).

Definition own_check (b : OrderBook RefBook Z) (kv : Z * ptr) : bool :=
  let o := ob_heap b kv.2 in
  bool_decide (o_id o = kv.1) && negb (bool_decide (o_side o = UNKNOWN_SIDE))
  && negb (o_priority o =? 0)
  && existsb (fun x => entry_check b x kv.1 o) (flat (getLevelsL3 (ob_l3 b) (o_side o))).

Definition index_check (b : OrderBook RefBook Z) (key : Order -> fixed_string) (m : gmap bytes ptr) : bool :=
  forallb (fun kv : bytes * ptr =>
      negb (empty (key (ob_heap b kv.2))) && bool_decide (string_key (key (ob_heap b kv.2)) = kv.1)
      && existsb (fun ip : Z * ptr => ip.2 =? kv.2) (map_to_list (ob_orders b))) (map_to_list m)
  && forallb (fun ip : Z * ptr =>
      empty (key (ob_heap b ip.2)) || bool_decide (m !! string_key (key (ob_heap b ip.2)) = Some ip.2))
      (map_to_list (ob_orders b)).

Definition prices (b : OrderBook RefBook Z) : list Z :=
  map fst (map_to_list (ob_feed_md_level_quantity b))
  ++ map fst (flat (getLevelsL3 (ob_l3 b) BUY)) ++ map fst (flat (getLevelsL3 (ob_l3 b) SELL)).

Definition book_check (b : OrderBook RefBook Z) : bool :=
  side_check BUY (getLevelsL3 (ob_l3 b) BUY) && side_check SELL (getLevelsL3 (ob_l3 b) SELL)
  && bool_decide (NoDup (order_ids (getLevelsL3 (ob_l3 b) BUY) ++ order_ids (getLevelsL3 (ob_l3 b) SELL)))
  && forallb (own_check b) (map_to_list (ob_orders b))
  && index_check b o_client_order_id (ob_orders_by_client_order_id b)
  && index_check b o_order_id (ob_orders_by_order_id b)
  && forallb (fun p => feed_qty (ob_feed_md_level_quantity b) p =? phantom_total (ob_l3 b) (ob_orders b) p)
       (prices b).

Lemma side_check_sound s ls : side_check s ls = true -> side_ok s ls.
Proof. unfold side_check. intros H. bool_to_prop. by split. Qed.

Lemma index_check_sound b key m :
  index_check b key m = true -> indexes (ob_heap b) (ob_orders b) key m.
Proof.
  unfold index_check. intros [H H0]%andb_true_iff. rewrite forallb_forall in *. intros k p. split.
  - intros Hk. specialize (H (k, p)). cbn in H.
    assert (Hin : In (k, p) (map_to_list m)) by by apply list_elem_of_In, elem_of_map_to_list.
    specialize (H Hin). apply andb_true_iff in H as [H Hex]. bool_to_prop.
    apply existsb_exists in Hex as ([id p'] & Hin' & E).
    bool_to_prop. cbn in E. subst p'. exists id. split; [|done].
    by apply elem_of_map_to_list, list_elem_of_In.
  - intros (id & Hid & He & <-). specialize (H0 (id, p)). cbn in H0.
    assert (Hin : In (id, p) (map_to_list (ob_orders b))) by by apply list_elem_of_In, elem_of_map_to_list.
    specialize (H0 Hin). rewrite He in H0. cbn in H0. by bool_to_prop.
Qed.

Lemma phantom_absent orders p fl : p ∉ map fst fl -> fsum (phantom_at orders p) fl = 0.
Proof.
  induction fl as [|x fl IH]; [done|]. cbn [map]. rewrite not_elem_of_cons. intros [Hx Hfl].
  rewrite fsum_cons, IH by done. unfold phantom_at, at_price.
  rewrite (proj2 (Z.eqb_neq x.1 p)) by congruence. by case_test.
Qed.

Lemma book_check_sound b : book_check b = true -> book_inv None b.
Proof.
  unfold book_check.
  intros [[[[[[H H1]%andb_true_iff H2]%andb_true_iff H3]%andb_true_iff H4]%andb_true_iff H5]%andb_true_iff
          H0]%andb_true_iff.
  apply bool_decide_eq_true in H2. split.
  - split; [by apply side_check_sound..|done].
  - intros id p Hp. rewrite forallb_forall in H3. specialize (H3 (id, p)).
    assert (Hin : In (id, p) (map_to_list (ob_orders b))) by by apply list_elem_of_In, elem_of_map_to_list.
    specialize (H3 Hin). unfold own_check in H3. cbn [fst snd] in H3.
    apply andb_true_iff in H3 as [H3 Hex]. bool_to_prop.
    apply existsb_exists in Hex as ([px e] & Hin' & He). unfold entry_check in He. cbn in He. bool_to_prop.
    split; [done|]. split; [destruct (o_side (ob_heap b p)); [by left|by right|done]|].
    split; [done|]. exists px, e. split; [by apply list_elem_of_In|]. done.
  - by apply index_check_sound.
  - by apply index_check_sound.
  - intros p. destruct (decide (p ∈ prices b)) as [Hin|Hnin].
    + rewrite forallb_forall in H0. apply Z.eqb_eq, H0. by apply list_elem_of_In.
    + unfold prices in Hnin. rewrite !not_elem_of_app in Hnin. destruct Hnin as (N1 & N2 & N3).
      unfold phantom_total. rewrite !phantom_absent by done. unfold feed_qty.
      destruct (ob_feed_md_level_quantity b !! p) as [q|] eqn:E; [|done].
      exfalso. apply N1. apply list_elem_of_fmap. exists (p, q). split; [done|]. by apply elem_of_map_to_list.
Qed.

(** A book with two phantom offers and one client's offer between them, and a bid. *)
Definition sample_world : World RefBook Z :=
  rest_phantom
    (rest_phantom (rest_client (rest_phantom empty_world 1001 SELL 100 5) SELL 100 3 1) 1002 SELL 101 5)
    1003 BUY 99 4.

Lemma sample_inv : book_inv None (w_book sample_world).
Proof. apply book_check_sound. vm_compute. reflexivity. Qed.
