(* ===== verification/OrderBookOps.v ===== *)
(** * Every operation keeps the book's invariant

    Adds, cancels, phantom changes and the snapshot reset; then the step relation over
    whole-book operations, and what holds in every reachable book. *)

From S2P Require Import Prelude Types FixedString Orders Messages MarketData L3Interface.
From S2P Require Import L3Lemmas L3Reference OrderBook OrderBookInv Concrete.

Section Ops.
Context {L3 Pool : Type} {l3ops : L3Ops L3} {laws : L3Laws L3} {poolops : ObjectPool Pool}
  {env : Environment}.
Abbreviation OrderBook := (OrderBook L3 Pool).
Abbreviation World := (World L3 Pool).
Implicit Types b : OrderBook.
Implicit Types w : World.
Implicit Types but : option Z.

(** ** Facts the operations share *)

Lemma own_in_book but b id x :
  book_inv but b -> ob_orders b !! id = Some x -> id ∈ book_ids (ob_l3 b).
Proof.
  intros Hb Hx. destruct (bi_own but b Hb id x Hx) as (_ & Hs & _ & p & e & Hin & <- & _).
  by eapply flat_in_book.
Qed.

Lemma absent_not_own but b id : book_inv but b -> id ∉ book_ids (ob_l3 b) -> ob_orders b !! id = None.
Proof.
  intros Hb Hid. destruct (ob_orders b !! id) as [x|] eqn:E; [|done].
  exfalso. by apply Hid, (own_in_book but b id x).
Qed.

Lemma phantom_total_nonneg (l3 : L3) orders p : book_ok l3 -> 0 <= phantom_total l3 orders p.
Proof.
  intros Hb. unfold phantom_total.
  pose proof (phantom_at_nonneg l3 BUY orders p Hb ltac:(by left)).
  pose proof (phantom_at_nonneg l3 SELL orders p Hb ltac:(by right)). lia.
Qed.

Lemma phantom_total_zero (l3 : L3) orders p :
  (forall s x, book_side s -> x ∈ flat (getLevelsL3 l3 s) -> orders !! flat_id x <> None) ->
  phantom_total l3 orders p = 0.
Proof.
  intros Hx. assert (Hz : forall s, book_side s -> fsum (phantom_at orders p) (flat (getLevelsL3 l3 s)) = 0).
  { intros s Hs. specialize (Hx s). induction (flat (getLevelsL3 l3 s)) as [|x fl IH]; [done|].
    rewrite fsum_cons, IH by (intros y _ Hy; apply Hx; [done|by apply elem_of_cons; right]).
    unfold phantom_at. rewrite bool_decide_eq_false_2; [done|].
    apply Hx; [done|by apply elem_of_cons; left]. }
  unfold phantom_total. rewrite !Hz; [done|by right|by left].
Qed.

Lemma phantom_total_insert (l3 l3' : L3) s p e ls orders p' :
  book_side s -> side_becomes l3 l3' s (levels_insert s p e ls) ->
  phantom_total l3' orders p'
  = phantom_total l3 orders p' - fsum (phantom_at orders p') (flat (getLevelsL3 l3 s))
    + fsum (phantom_at orders p') (flat ls)
    + (if bool_decide (orders !! l3_order_id e = None) then (if p' =? p then l3_quantity e else 0) else 0).
Proof.
  intros Hs Hbec. rewrite (phantom_total_replace l3 l3' s _ orders p' Hs Hbec).
  rewrite (fsum_permutation _ _ _ (flat_levels_insert s p e ls)), fsum_cons.
  assert (E : phantom_at orders p' (p, e)
              = if bool_decide (orders !! l3_order_id e = None)
                then (if p' =? p then l3_quantity e else 0) else 0).
  { unfold phantom_at, at_price, flat_id, flat_qty. cbn [fst snd]. by rewrite (Z.eqb_sym p p'). }
  rewrite E. lia.
Qed.

(** An add of a fresh id: the book stays well-formed, the id joins. *)
Lemma add_ok (l3 l3' : L3) s p id q prio :
  book_ok l3 -> book_side s -> 0 < q -> id ∉ book_ids l3 ->
  side_becomes l3 l3' s (levels_insert s p (mkL3Order id q prio) (getLevelsL3 l3 s)) ->
  book_ok l3' /\ (book_ids l3' ≡ₚ (id :: book_ids l3)).
Proof.
  intros Hok Hs Hq Hid Hbec.
  destruct (insert_ok l3 l3' s p (mkL3Order id q prio) (getLevelsL3 l3 s)) as [H1 H2]; try done.
  - by apply book_side_ok.
  - cbn [l3_order_id]. apply NoDup_cons. rewrite <- (book_ids_side l3 s Hs). split; [done|].
    apply (bo_unique l3 Hok).
  - split; [done|]. rewrite H2. cbn [l3_order_id]. by rewrite (book_ids_side l3 s Hs).
Qed.

(** A notification about a client order that does not remove it leaves the book alone. *)
Lemma own_call_keeps b out s ls u seq l3 x :
  mutated l3 out s ls u seq -> ob_orders b !! ou_order_id u = Some x -> ou_quantity u <> 0 ->
  core (fst (l3_call b out)) = core (b <| ob_l3 := out.1.1 |>).
Proof.
  intros [_ _ _ Hou _] Hx Hq. destruct out as [[l evs] r]. cbn [fst snd] in *.
  rewrite core_l3_call, Hou. cbn [fold_left].
  pose proof (onOrderUpdate_own (b <| ob_l3 := l |>) u x) as Hown. rewrite Hown by done.
  by rewrite (proj2 (Z.eqb_neq _ _) Hq).
Qed.

(** One that removes it zeroes its leaves, and nothing else. *)
Lemma own_call_removes b out s ls u seq l3 x :
  mutated l3 out s ls u seq -> ob_orders b !! ou_order_id u = Some x -> ou_quantity u = 0 ->
  core (fst (l3_call b out))
  = core (book_set_order (b <| ob_l3 := out.1.1 |>) x ((ob_heap b x) <| o_leaves_quantity := 0 |>))
  \/ core (fst (l3_call b out)) = core (b <| ob_l3 := out.1.1 |>).
Proof.
  intros [_ _ _ Hou _] Hx Hq. destruct out as [[l evs] r]. cbn [fst snd] in *.
  rewrite core_l3_call, Hou. cbn [fold_left].
  pose proof (onOrderUpdate_own (b <| ob_l3 := l |>) u x) as Hown. rewrite Hown by done.
  case_test; [by left|by right].
Qed.

Lemma own_removed_fields b out s ls u seq l3 x :
  mutated l3 out s ls u seq -> ob_orders b !! ou_order_id u = Some x -> ou_quantity u = 0 ->
  let b1 := fst (l3_call b out) in
  ob_l3 b1 = out.1.1 /\ ob_orders b1 = ob_orders b /\ ob_pool b1 = ob_pool b
  /\ ob_orders_by_client_order_id b1 = ob_orders_by_client_order_id b
  /\ ob_orders_by_order_id b1 = ob_orders_by_order_id b
  /\ ob_feed_md_level_quantity b1 = ob_feed_md_level_quantity b
  /\ (forall y, ob_heap b1 y = ob_heap b y
        \/ (y = x /\ ob_heap b1 y = (ob_heap b y) <| o_leaves_quantity := 0 |>)).
Proof.
  intros Hm Hx Hq b1.
  destruct (own_call_removes b out s ls u seq l3 x Hm Hx Hq) as [Hc|Hc]; fold b1 in Hc;
    destruct (core_fields _ _ Hc) as (C1 & C2 & C3 & C4 & C5 & C6 & C7);
    do 6 (split; [done|]); intros y; rewrite C7; [|by left].
  change (ob_heap (book_set_order ?b0 x ?o) y) with ((<[x := o]> (ob_heap b)) y).
  destruct (decide (y = x)) as [->|Hne].
  - right. by rewrite fn_lookup_insert.
  - left. by rewrite fn_lookup_insert_ne.
Qed.

Lemma seq_zero_accepted (l3 : L3) : seq_accepted l3 0 = true.
Proof. done. Qed.

(** ** Phantom orders *)

Lemma rest_phantom_inv but b id s p q ts prio seq last :
  book_inv but b -> book_side s -> seq_accepted (ob_l3 b) seq = true ->
  id ∉ book_ids (ob_l3 b) -> 0 < q -> prio <> 0 ->
  let b' := fst (l3_call b (l3_addOrder (ob_l3 b) id s p q ts prio seq last)) in
  book_inv but b'
  /\ side_becomes (ob_l3 b) (ob_l3 b') s (levels_insert s p (mkL3Order id q prio) (getLevelsL3 (ob_l3 b) s))
  /\ ob_orders b' = ob_orders b /\ ob_heap b' = ob_heap b.
Proof.
  intros Hb Hs Ha Hid Hq Hprio. pose proof (bi_l3 but b Hb) as Hok.
  pose proof (law_add (ob_l3 b) s p id q ts prio seq last Hok Hs Ha Hid Hq Hprio) as Hm.
  set (out := l3_addOrder _ _ _ _ _ _ _ _ _) in *.
  pose proof (mut_side _ _ _ _ _ _ Hm) as Hside.
  destruct (add_ok (ob_l3 b) out.1.1 s p id q prio Hok Hs Hq Hid Hside) as [Hok' _].
  pose proof (absent_not_own but b id Hb Hid) as Hn.
  destruct (phantom_call_inv but b out _ s _ seq Hm Hb Hn Hok') as (_ & Hinv & E1 & E2 & E3 & _).
  - intros id' x Hx. eapply rests_as_insert; [done|exact Hside|done|by apply Hb].
  - intros p'. rewrite (phantom_total_insert (ob_l3 b) out.1.1 s p _ _ _ p' Hs Hside).
    cbn. rewrite bool_decide_eq_true_2 by done. repeat case_test; lia.
  - cbn. pose proof (phantom_total_nonneg (ob_l3 b) (ob_orders b) 0 Hok). lia.
  - split; [done|]. by rewrite E1.
Qed.

Lemma addBookOrder_inv but w id s p q ts seq last :
  book_inv but (w_book w) -> book_side s -> seq_accepted (ob_l3 (w_book w)) seq = true ->
  id ∉ book_ids (ob_l3 (w_book w)) -> 0 < q -> u64 (g_next_priority (w_glob w) + 1) <> 0 ->
  let b' := w_book (addBookOrder w id s p q ts seq last) in
  book_inv but b'
  /\ side_becomes (ob_l3 (w_book w)) (ob_l3 b') s
       (levels_insert s p (mkL3Order id q (u64 (g_next_priority (w_glob w) + 1)))
          (getLevelsL3 (ob_l3 (w_book w)) s))
  /\ ob_orders b' = ob_orders (w_book w) /\ ob_heap b' = ob_heap (w_book w).
Proof. intros Hb Hs Ha Hid Hq Hprio. by apply (rest_phantom_inv but (w_book w)). Qed.

Lemma deleteBookOrder_inv but b s p o ts seq last :
  book_inv but b -> book_side s -> seq_accepted (ob_l3 b) seq = true ->
  (p, o) ∈ flat (getLevelsL3 (ob_l3 b) s) -> ob_orders b !! l3_order_id o = None ->
  let '(b', r) := deleteBookOrder b (l3_order_id o) ts seq last in
  r = true /\ book_inv but b'
  /\ side_becomes (ob_l3 b) (ob_l3 b') s (levels_set_qty (l3_order_id o) 0 (getLevelsL3 (ob_l3 b) s))
  /\ ob_orders b' = ob_orders b /\ ob_heap b' = ob_heap b /\ ob_pool b' = ob_pool b /\ level_step b b'.
Proof.
  intros Hb Hs Ha Hin Hn. pose proof (bi_l3 but b Hb) as Hok. unfold deleteBookOrder.
  pose proof (law_delete (ob_l3 b) s p o ts seq last Hok Hs Ha (proj2 (rests_at_flat _ _ _) Hin)) as Hm.
  set (out := l3_deleteOrder _ _ _ _ _) in *.
  pose proof (mut_side _ _ _ _ _ _ Hm) as Hside.
  destruct (set_qty_ok (ob_l3 b) out.1.1 s p o 0 Hok Hs Hin ltac:(lia) Hside) as [Hok' _].
  destruct (phantom_call_inv but b out _ s _ seq Hm Hb Hn Hok') as (Hr & Hinv & E1 & E2 & E3 & E4).
  - intros id' x Hx. eapply rests_as_set; [done|exact Hside| |by apply Hb]. intros ->. congruence.
  - intros p'. rewrite (phantom_total_set (ob_l3 b) out.1.1 s p o 0) by done.
    rewrite bool_decide_eq_true_2 by done. cbn. case_test; lia.
  - cbn. pose proof (phantom_total_ge (ob_l3 b) s (ob_orders b) p o Hok Hs Hin Hn).
    pose proof (flat_pos s _ _ (book_side_ok _ s Hok Hs) Hin) as Hpos. unfold flat_qty in Hpos.
    cbn in Hpos. lia.
  - pose proof (mutated_levels b out _ _ _ _ Hm) as Hlv.
    destruct (l3_call b out) as [b' r]. cbn [fst snd] in *. rewrite E1. done.
Qed.

(** Where a modification leaves a side. *)
Definition modified_side (s : Side) (p : price_t) (o : L3Order) (np : price_t) (q prio : Z)
  (ls : list Level) : list Level :=
  if q =? 0 then levels_set_qty (l3_order_id o) 0 ls
  else if (np =? p) && (prio =? l3_priority o) then
    if q =? l3_quantity o then ls else levels_set_qty (l3_order_id o) q ls
  else levels_insert s np (mkL3Order (l3_order_id o) q prio) (levels_set_qty (l3_order_id o) 0 ls).

(** Removing an entry and re-adding it at another place. *)
Lemma move_ok (l3 l3' : L3) s p o np q prio :
  book_ok l3 -> book_side s -> (p, o) ∈ flat (getLevelsL3 l3 s) -> 0 < q ->
  side_becomes l3 l3' s (levels_insert s np (mkL3Order (l3_order_id o) q prio)
                           (levels_set_qty (l3_order_id o) 0 (getLevelsL3 l3 s))) ->
  book_ok l3' /\ (book_ids l3' ≡ₚ book_ids l3).
Proof.
  intros Hok Hs Hin Hq Hbec.
  pose proof (side_ids_nodup l3 s Hok Hs) as Hnd.
  destruct (flat_ids_set (l3_order_id o) 0 _ p o Hnd Hin eq_refl) as [Hp _].
  pose proof (bo_unique l3 Hok) as Hu. change (NoDup (book_ids l3)) in Hu.
  rewrite (book_ids_side l3 s Hs), Hp in Hu.
  destruct (insert_ok l3 l3' s np (mkL3Order (l3_order_id o) q prio)
              (levels_set_qty (l3_order_id o) 0 (getLevelsL3 l3 s))) as [H1 H2]; try done.
  - apply side_ok_set; [lia|by apply book_side_ok].
  - rewrite flat_levels_set. exact Hu.
  - split; [done|]. rewrite H2, flat_levels_set, (book_ids_side l3 s Hs), Hp. done.
Qed.

Lemma modifyBookOrder_inv but b s p o np q ts prio seq last :
  book_inv but b -> book_side s -> seq_accepted (ob_l3 b) seq = true ->
  (p, o) ∈ flat (getLevelsL3 (ob_l3 b) s) -> ob_orders b !! l3_order_id o = None ->
  0 <= q -> prio <> 0 ->
  let '(b', r) := modifyBookOrder b (l3_order_id o) np q ts prio seq last in
  r = true /\ book_inv but b'
  /\ side_becomes (ob_l3 b) (ob_l3 b') s (modified_side s p o np q prio (getLevelsL3 (ob_l3 b) s))
  /\ ob_orders b' = ob_orders b /\ ob_heap b' = ob_heap b /\ ob_pool b' = ob_pool b /\ level_step b b'.
Proof.
  intros Hb Hs Ha Hin Hn Hq Hprio. pose proof (bi_l3 but b Hb) as Hok.
  pose proof (proj2 (rests_at_flat _ _ _) Hin) as Hr.
  pose proof (phantom_total_ge (ob_l3 b) s (ob_orders b) p o Hok Hs Hin Hn) as Hge.
  pose proof (flat_pos s _ _ (book_side_ok _ s Hok Hs) Hin) as Hpos. change (0 < l3_quantity o) in Hpos.
  assert (Hne : forall id' x, ob_orders b !! id' = Some x -> id' <> l3_order_id o) by (intros ? ? ? ->; congruence).
  unfold modifyBookOrder, modified_side. destruct (q =? 0) eqn:E0; bool_to_prop.
  { subst q. rewrite law_modify_zero. by apply (deleteBookOrder_inv but b s p o). }
  destruct ((np =? p) && (prio =? l3_priority o)) eqn:E1; bool_to_prop.
  - subst np prio. destruct (q =? l3_quantity o) eqn:E2; bool_to_prop.
    + subst q. destruct (law_modify_same (ob_l3 b) s p o ts seq last Hok Hs Ha Hr) as (l3' & -> & Hsame & _).
      pose proof (silent_levels b l3' true Hsame) as Hlv.
      cbn in Hlv |- *. split; [done|]. split; [|split; [by split|done]].
      assert (Hok' : book_ok l3') by (destruct Hok; split; rewrite !Hsame; done).
      destruct Hb as [_ Hown Hc Ho Hf]. split; try done.
      * cbn. intros id' x Hx. destruct (Hown id' x Hx) as (A1 & A2 & A3 & px & ex & A4 & A5).
        do 3 (split; [done|]). exists px, ex. by rewrite Hsame.
      * cbn. intros p'. rewrite Hf. unfold phantom_total. by rewrite !Hsame.
    + pose proof (law_modify_qty (ob_l3 b) s p o q ts seq last Hok Hs Ha Hr ltac:(lia) E2) as Hm.
      set (out := l3_modifyOrder _ _ _ _ _ _ _ _) in *. pose proof (mut_side _ _ _ _ _ _ Hm) as Hside.
      destruct (set_qty_ok (ob_l3 b) out.1.1 s p o q Hok Hs Hin ltac:(lia) Hside) as [Hok' _].
      destruct (phantom_call_inv but b out _ s _ seq Hm Hb Hn Hok') as (Hr' & Hinv & F1 & F2 & F3 & F4).
      * intros id' x Hx. eapply rests_as_set; [done|exact Hside|by eapply Hne|by apply Hb].
      * intros p'. rewrite (phantom_total_set (ob_l3 b) out.1.1 s p o q) by done.
        rewrite bool_decide_eq_true_2 by done. cbn. case_test; lia.
      * cbn. lia.
      * pose proof (mutated_levels b out _ _ _ _ Hm) as Hlv.
      destruct (l3_call b out) as [b' r]. cbn [fst snd] in *. by rewrite F1.
  - assert (Hmv : np <> p \/ prio <> l3_priority o) by (destruct E1; bool_to_prop; auto).
    pose proof (law_modify_move (ob_l3 b) s p o np q ts prio seq last Hok Hs Ha Hr ltac:(lia) Hmv Hprio) as Hm.
    set (out := l3_modifyOrder _ _ _ _ _ _ _ _) in *. pose proof (mut_side _ _ _ _ _ _ Hm) as Hside.
    destruct (move_ok (ob_l3 b) out.1.1 s p o np q prio Hok Hs Hin ltac:(lia) Hside) as [Hok' _].
    destruct (phantom_call_inv but b out _ s _ seq Hm Hb Hn Hok') as (Hr' & Hinv & F1 & F2 & F3 & F4).
    + intros id' x Hx. eapply rests_as_insert; [done|exact Hside| |by apply Hb].
      intros y Hy Hid. rewrite flat_levels_set. apply flat_set_keeps; [done|].
      rewrite Hid. by eapply Hne.
    + intros p'. rewrite (phantom_total_insert (ob_l3 b) out.1.1 s np _ _ _ p' Hs Hside), flat_levels_set.
      rewrite (fsum_set _ _ 0 _ p o) by (done || by apply side_ids_nodup).
      unfold phantom_at at 3, at_price, flat_id, flat_qty. cbn.
      rewrite bool_decide_eq_true_2 by done. rewrite (Z.eqb_sym p p'). repeat case_test; lia.
    + cbn. lia.
    + pose proof (mutated_levels b out _ _ _ _ Hm) as Hlv.
      destruct (l3_call b out) as [b' r]. cbn [fst snd] in *. by rewrite F1.
Qed.

(** ** Client orders *)

Lemma index_fields b x :
  let b' := index_order b x in let o := ob_heap b x in
  ob_l3 b' = ob_l3 b /\ ob_heap b' = ob_heap b /\ ob_pool b' = ob_pool b
  /\ ob_orders b' = emplace (o_id o) x (ob_orders b)
  /\ ob_orders_by_client_order_id b'
     = (if empty (o_client_order_id o) then ob_orders_by_client_order_id b
        else emplace (string_key (o_client_order_id o)) x (ob_orders_by_client_order_id b))
  /\ ob_orders_by_order_id b'
     = (if empty (o_order_id o) then ob_orders_by_order_id b
        else emplace (string_key (o_order_id o)) x (ob_orders_by_order_id b))
  /\ ob_feed_md_level_quantity b' = ob_feed_md_level_quantity b.
Proof.
  unfold index_order. cbv zeta.
  destruct (empty (o_client_order_id (ob_heap b x))), (empty (o_order_id (ob_heap b x)));
    cbn; repeat split.
Qed.

(** An order that may join the book: its ids are new to it. *)
Record joinable (b : OrderBook) (x : ptr) : Prop := {
  jo_side : book_side (o_side (ob_heap b x));
  jo_leaves : 0 < o_leaves_quantity (ob_heap b x);
  jo_id : o_id (ob_heap b x) ∉ book_ids (ob_l3 b);
  jo_ptr : forall id', ob_orders b !! id' <> Some x;
  jo_client : empty (o_client_order_id (ob_heap b x)) = false ->
    ob_orders_by_client_order_id b !! string_key (o_client_order_id (ob_heap b x)) = None;
  jo_order_id : empty (o_order_id (ob_heap b x)) = false ->
    ob_orders_by_order_id b !! string_key (o_order_id (ob_heap b x)) = None
}.

(** The book with a client order indexed and resting. *)
Lemma rest_own_inv but b x ts seq last :
  book_inv but b -> joinable b x -> seq_accepted (ob_l3 b) seq = true ->
  o_priority (ob_heap b x) <> 0 -> but <> Some (o_id (ob_heap b x)) ->
  let o := ob_heap b x in
  let b' := fst (l3_call (index_order b x)
                   (l3_addOrder (ob_l3 b) (o_id o) (o_side o) (o_price o) (o_leaves_quantity o) ts
                      (o_priority o) seq last)) in
  book_inv but b'
  /\ side_becomes (ob_l3 b) (ob_l3 b') (o_side o)
       (levels_insert (o_side o) (o_price o) (mkL3Order (o_id o) (o_leaves_quantity o) (o_priority o))
          (getLevelsL3 (ob_l3 b) (o_side o)))
  /\ ob_orders b' = <[o_id o := x]> (ob_orders b) /\ ob_heap b' = ob_heap b /\ ob_pool b' = ob_pool b.
Proof.
  intros Hb [Hs Hl Hid Hptr Hcl Hoid] Ha Hprio Hbut o b'. fold o in Hs, Hl, Hid, Hcl, Hoid, Hprio, Hbut.
  pose proof (bi_l3 but b Hb) as Hok.
  pose proof (absent_not_own but b (o_id o) Hb Hid) as Hn.
  pose proof (law_add (ob_l3 b) (o_side o) (o_price o) (o_id o) (o_leaves_quantity o) ts (o_priority o)
                seq last Hok Hs Ha Hid Hl Hprio) as Hm.
  set (out := l3_addOrder _ _ _ _ _ _ _ _ _) in *. pose proof (mut_side _ _ _ _ _ _ Hm) as Hside.
  destruct (add_ok (ob_l3 b) out.1.1 _ _ _ _ _ Hok Hs Hl Hid Hside) as [Hok' _].
  destruct (index_fields b x) as (I1 & I2 & I3 & I4 & I5 & I6 & I7). fold o in I4, I5, I6.
  assert (I4' : ob_orders (index_order b x) = <[o_id o := x]> (ob_orders b)).
  { rewrite I4. unfold emplace. by rewrite Hn. }
  assert (Hcore : core b' = core ((index_order b x) <| ob_l3 := out.1.1 |>)).
  { eapply (own_call_keeps _ _ _ _ _ _ _ x Hm); cbn; [|lia]. rewrite I4'. apply lookup_insert_eq. }
  split; [|split; [|split; [|split]]].
  - eapply book_inv_core; [symmetry; exact Hcore|]. split; cbn; rewrite ?I2, ?I4', ?I5, ?I6, ?I7.
    + done.
    + intros id' x' Hx'. apply lookup_insert_Some in Hx' as [[<- <-]|[Hne Hx']].
      * split; [done|]. split; [done|]. split; [done|]. destruct Hside as [Es1 _].
        exists (o_price o), (mkL3Order (o_id o) (o_leaves_quantity o) (o_priority o)).
        split; [|done]. fold o. rewrite Es1, flat_levels_insert. apply elem_of_cons. by left.
      * eapply rests_as_insert; [done|exact Hside|done|by apply Hb].
    + apply indexes_emplace; try done. apply Hb.
    + apply indexes_emplace; try done. apply Hb.
    + intros p'. rewrite (phantom_total_insert (ob_l3 b) out.1.1 _ _ _ _ _ p' Hs Hside). cbn [l3_order_id].
      rewrite lookup_insert_eq, bool_decide_eq_false_2 by done. rewrite (bi_feed but b Hb).
      rewrite (phantom_total_orders (ob_l3 b) (ob_orders b) (<[o_id o := x]> (ob_orders b))); [lia|].
      intros s' y Hs' Hy. rewrite lookup_insert_ne; [done|]. intros E. apply Hid. rewrite E.
      destruct y as [py oy]. by eapply flat_in_book.
  - rewrite (f_equal ob_l3 Hcore : ob_l3 b' = out.1.1). done.
  - rewrite (f_equal ob_orders Hcore : ob_orders b' = _). exact I4'.
  - rewrite (f_equal ob_heap Hcore : ob_heap b' = _). exact I2.
  - rewrite (f_equal ob_pool Hcore : ob_pool b' = _). exact I3.
Qed.

(** Rewriting a pooled order that is not indexed. *)
Lemma set_unindexed_inv but b x o :
  book_inv but b -> (forall id', ob_orders b !! id' <> Some x) -> book_inv but (book_set_order b x o).
Proof.
  intros [H1 H2 H3 H4 H5] Hx.
  assert (Hh : forall id' p, ob_orders b !! id' = Some p -> ob_heap (book_set_order b x o) p = ob_heap b p).
  { intros id' p Hp. change (ob_heap (book_set_order b x o) p) with ((<[x := o]> (ob_heap b)) p).
    apply fn_lookup_insert_ne. intros ->. by apply (Hx id'). }
  split.
  - exact H1.
  - intros id' p Hp. rewrite (Hh id' p Hp). by apply H2.
  - eapply indexes_heap; [|exact H3]. intros id' p Hp. by rewrite (Hh id' p Hp).
  - eapply indexes_heap; [|exact H4]. intros id' p Hp. by rewrite (Hh id' p Hp).
  - exact H5.
Qed.

Lemma addOrder_inv but w x ts seq last :
  let prio := u64 (g_next_priority (w_glob w) + 1) in
  let o := (order_at w x) <| o_priority := prio |> in
  book_inv but (w_book w) -> joinable (w_book w) x -> seq_accepted (ob_l3 (w_book w)) seq = true ->
  prio <> 0 -> but <> Some (o_id o) ->
  let b' := w_book (addOrder w x ts seq last) in
  book_inv but b'
  /\ side_becomes (ob_l3 (w_book w)) (ob_l3 b') (o_side o)
       (levels_insert (o_side o) (o_price o) (mkL3Order (o_id o) (o_leaves_quantity o) prio)
          (getLevelsL3 (ob_l3 (w_book w)) (o_side o)))
  /\ ob_orders b' = <[o_id o := x]> (ob_orders (w_book w))
  /\ ob_heap b' = <[x := o]> (ob_heap (w_book w)).
Proof.
  intros prio o Hb Hj Ha Hprio Hbut b'.
  set (b0 := book_set_order (w_book w) x o).
  assert (Hheap : ob_heap b0 x = o).
  { change (ob_heap b0 x) with ((<[x := o]> (ob_heap (w_book w))) x). apply fn_lookup_insert. }
  assert (Hj0 : joinable b0 x).
  { destruct Hj. split; rewrite ?Hheap; try done. }
  assert (Hb0 : book_inv but b0) by (apply set_unindexed_inv; [done|apply Hj]).
  destruct (rest_own_inv but b0 x ts seq last Hb0 Hj0 Ha) as (H1 & H2 & H3 & H4 & _);
    rewrite ?Hheap; try done.
  rewrite Hheap in H1, H2, H3, H4.
  assert (Eb : b' = fst (l3_call (index_order b0 x)
    (l3_addOrder (ob_l3 b0) (o_id o) (o_side o) (o_price o) (o_leaves_quantity o) ts (o_priority o) seq last))).
  { unfold b', addOrder. cbn [nextOrderPriority]. cbn [w_book upd set_order].
    destruct (index_fields b0 x) as (I1 & I2 & _).
    change (book_set_order (w_book w) x _) with b0. by rewrite I1, I2, Hheap. }
  rewrite Eb. done.
Qed.

(** Cancelling a client order: it leaves the base book and the maps together. *)
Lemma deleteOrder_inv but b id x ts seq last :
  book_inv but b -> ob_orders b !! id = Some x -> seq_accepted (ob_l3 b) seq = true ->
  let b' := deleteOrder b x ts seq last in
  book_inv but b'
  /\ side_becomes (ob_l3 b) (ob_l3 b') (o_side (ob_heap b x))
       (levels_set_qty id 0 (getLevelsL3 (ob_l3 b) (o_side (ob_heap b x))))
  /\ ob_orders b' = delete id (ob_orders b) /\ ob_pool b' = ob_pool b
  /\ (forall y, ob_heap b' y = ob_heap b y
        \/ (y = x /\ ob_heap b' y = (ob_heap b y) <| o_leaves_quantity := 0 |>))
  /\ seq_accepted (ob_l3 b') seq = true /\ level_step b b'.
Proof.
  intros Hb Hx Ha b'. pose proof (bi_l3 but b Hb) as Hok.
  destruct (bi_own but b Hb id x Hx) as (Eid & Hs & _ & p & e & Hin & Hide & _).
  set (s := o_side (ob_heap b x)) in *.
  pose proof (law_delete (ob_l3 b) s p e ts seq last Hok Hs Ha (proj2 (rests_at_flat _ _ _) Hin)) as Hm.
  rewrite Hide in Hm. set (out := l3_deleteOrder _ _ _ _ _) in *.
  pose proof (mut_side _ _ _ _ _ _ Hm) as Hside.
  assert (Hok' : book_ok out.1.1).
  { rewrite <- Hide in Hside. by apply (set_qty_ok (ob_l3 b) out.1.1 s p e 0 Hok Hs Hin ltac:(lia) Hside). }
  set (b1 := fst (l3_call b out)).
  pose proof (own_removed_fields b out s _ _ seq _ x Hm Hx eq_refl) as G. fold b1 in G.
  destruct G as (G1 & G2 & G3 & G4 & G5 & G6 & G7).
  assert (Hkey : forall (key : Order -> fixed_string), (forall o q, key (o <| o_leaves_quantity := q |>) = key o) ->
    forall y, key (ob_heap b1 y) = key (ob_heap b y)).
  { intros key Hk y. destruct (G7 y) as [->|[_ ->]]; [done|apply Hk]. }
  assert (Eb : b' = unindex_order b1 x id).
  { unfold b', deleteOrder. rewrite Eid. fold out. unfold b1. destruct (l3_call b out) as [b2 r] eqn:E2.
    cbn [fst] in *. assert (Eo : o_id (ob_heap b2 x) = id).
    { rewrite <- Eid. subst b1. by destruct (G7 x) as [->|[_ ->]]. }
    rewrite Eo. subst b1. by rewrite G2, Hx. }
  destruct (unindex_fields b1 x id) as (U1 & U2 & U3 & U4 & _).
  rewrite Eb, U1, U2, U3, U4, G1, G2, G3.
  split; [|split; [exact Hside|]].
  2: { do 3 (split; [done|]). split; [eapply seq_accepted_keeps; [done|apply Hm]|].
       eapply level_step_same; [exact (mutated_levels b out _ _ _ _ Hm)|exact U1|by apply unindex_deltas]. }
  apply unindex_inv; rewrite ?G1, ?G2; try done.
  - intros id' Hid'. by apply (own_unique but b id' id x).
  - intros s' y Hs' Hy. destruct Hside as [Es1 Es2]. destruct (decide (s' = s)) as [->|Hne].
    + rewrite Es1, flat_levels_set in Hy. by apply flat_set_removed in Hy.
    + pose proof (other_side s s' Hs Hs' Hne) as ->. rewrite Es2 in Hy. intros Hyid.
      destruct y as [py oy].
      destruct (same_id_same _ _ _ _ _ _ _ Hok Hs' Hs Hy Hin) as [Hbad _]; [|done].
      change (l3_order_id oy = id) in Hyid. congruence.
  - intros id' p' Hne Hp'. assert (Hx' : p' <> x).
    { intros ->. by apply Hne, (own_unique but b id' id x). }
    destruct (G7 p') as [-> | [? _]]; [|done].
    eapply rests_as_set; [done|exact Hside|done|by apply Hb].
  - rewrite G4. eapply indexes_heap; [|apply Hb]. intros id' p' _. by apply Hkey.
  - rewrite G5. eapply indexes_heap; [|apply Hb]. intros id' p' _. by apply Hkey.
  - intros p'. rewrite G6, (bi_feed but b Hb).
    rewrite <- Hide in Hside. rewrite (phantom_total_set (ob_l3 b) out.1.1 s p e 0) by done.
    rewrite Hide, Hx, bool_decide_eq_false_2 by done. lia.
Qed.

(** ** The snapshot reset *)

Definition saved_entry b (kv : Z * ptr) : Z * Side * price_t * qty_t * time_t * Z :=
  let o := ob_heap b kv.2 in
  (kv.1, o_side o, o_price o, o_leaves_quantity o, o_last_update_time o, o_priority o).

(** Every indexed order has something left, so every one is saved. *)
Lemma saved_all b l :
  book_inv None b -> (forall kv, kv ∈ l -> ob_orders b !! kv.1 = Some kv.2) ->
  omap (saved_order b) l = map (saved_entry b) l.
Proof.
  intros Hb. induction l as [|[id x] l IH]; intros Hl; [done|].
  cbn [omap list_omap map]. rewrite IH by (intros kv Hkv; apply Hl; by apply elem_of_cons; right).
  assert (Hx : ob_orders b !! id = Some x) by (apply (Hl (id, x)); by apply elem_of_cons; left).
  destruct (bi_own None b Hb id x Hx) as (_ & Hs & _ & p & e & Hin & _ & Hv).
  destruct (Hv eq_refl) as (_ & El & _).
  pose proof (flat_pos _ _ _ (book_side_ok _ _ (bi_l3 None b Hb) Hs) Hin) as Hpos.
  unfold flat_qty in Hpos. cbn in Hpos. rewrite El in Hpos.
  unfold saved_order at 1. by rewrite (proj2 (Z.ltb_lt _ _) Hpos).
Qed.

(** Restoring client orders into a book that holds the ones already restored. *)
Record restoring b0 (l : list (Z * ptr)) b : Prop := {
  re_orders : ob_orders b = ob_orders b0;
  re_heap : ob_heap b = ob_heap b0;
  re_client : ob_orders_by_client_order_id b = ob_orders_by_client_order_id b0;
  re_order_id : ob_orders_by_order_id b = ob_orders_by_order_id b0;
  re_feed : ob_feed_md_level_quantity b = ∅;
  re_ok : book_ok (ob_l3 b);
  re_ids : book_ids (ob_l3 b) ≡ₚ map fst l;
  re_rests : forall kv, kv ∈ l -> rests_as (ob_l3 b) false kv.1 (ob_heap b0 kv.2)
}.

Lemma restore_step b0 l b kv :
  book_inv None b0 -> ob_orders b0 !! kv.1 = Some kv.2 -> kv.1 ∉ map fst l ->
  restoring b0 l b -> restoring b0 (kv :: l) (restore_order b (saved_entry b0 kv)).
Proof.
  intros Hb0 Hx Hnew Hr. destruct kv as [id x]. cbn [fst snd] in *.
  destruct (bi_own None b0 Hb0 id x Hx) as (Eid & Hs & Hprio & p & e & Hin & Hide & Hv).
  destruct (Hv eq_refl) as (_ & El & _). clear Hv.
  pose proof (flat_pos _ _ _ (book_side_ok _ _ (bi_l3 None b0 Hb0) Hs) Hin) as Hpos.
  unfold flat_qty in Hpos. cbn in Hpos. rewrite El in Hpos. clear El Hin Hide.
  unfold saved_entry, restore_order. cbn [fst snd]. set (o := ob_heap b0 x) in *.
  destruct Hr as [R1 R2 R3 R4 R5 R6 R7 R8].
  assert (Hid : id ∉ book_ids (ob_l3 b)) by by rewrite R7.
  pose proof (law_add (ob_l3 b) (o_side o) (o_price o) id (o_leaves_quantity o) (o_last_update_time o)
                (o_priority o) 0 false R6 Hs (seq_zero_accepted _) Hid Hpos Hprio) as Hm.
  set (out := l3_addOrder _ _ _ _ _ _ _ _ _) in *. pose proof (mut_side _ _ _ _ _ _ Hm) as Hside.
  destruct (add_ok (ob_l3 b) out.1.1 _ _ _ _ _ R6 Hs Hpos Hid Hside) as [Hok' Hids'].
  assert (Hcore : core (fst (l3_call b out)) = core (b <| ob_l3 := out.1.1 |>)).
  { eapply (own_call_keeps _ _ _ _ _ _ _ x Hm); cbn; [by rewrite R1|lia]. }
  destruct (core_fields _ _ Hcore) as (C1 & C2 & C3 & C4 & C5 & C6 & C7). cbn in C1, C2, C3, C4, C5, C6, C7.
  split; rewrite ?C1, ?C2, ?C4, ?C5, ?C6, ?C7; try done.
  - rewrite Hids', R7. done.
  - intros [id' x'] [[= -> ->]|Hkv]%elem_of_cons; cbn [fst snd].
    + fold o. do 3 (split; [done|]). destruct Hside as [Es1 _].
      exists (o_price o), (mkL3Order id (o_leaves_quantity o) (o_priority o)).
      split; [|done]. rewrite Es1, flat_levels_insert. apply elem_of_cons. by left.
    + eapply rests_as_insert; [done|exact Hside|done|]. by apply (R8 (id', x')).
Qed.

Lemma restore_all b0 todo l b :
  book_inv None b0 -> (forall kv, kv ∈ todo -> ob_orders b0 !! kv.1 = Some kv.2) ->
  NoDup (map fst todo ++ map fst l) -> restoring b0 l b ->
  restoring b0 (rev todo ++ l) (fold_left restore_order (map (saved_entry b0) todo) b).
Proof.
  intros Hb0. revert l b. induction todo as [|kv todo IH]; intros l b Htodo Hnd Hr; [done|].
  cbn [map app] in Hnd. apply NoDup_cons in Hnd as [Hnin Hnd]. rewrite elem_of_app in Hnin.
  cbn [map fold_left rev]. rewrite <- app_assoc. apply (IH (kv :: l)).
  - intros kv' Hkv'. apply Htodo. by apply elem_of_cons; right.
  - cbn [map]. rewrite <- Permutation_middle. apply NoDup_cons. rewrite elem_of_app. done.
  - apply restore_step; [done| | |done].
    + apply Htodo. by apply elem_of_cons; left.
    + intros Hin. apply Hnin. by right.
Qed.

(** After the reset the base book holds exactly the client orders, nothing is counted as
    feed quantity, and the invariant holds. *)
Lemma clearMDOrders_inv b :
  book_inv None b ->
  let b' := clearMDOrders b in
  book_inv None b' /\ ob_orders b' = ob_orders b /\ ob_heap b' = ob_heap b
  /\ (book_ids (ob_l3 b') ≡ₚ map fst (map_to_list (ob_orders b)))
  /\ ob_feed_md_level_quantity b' = ∅.
Proof.
  intros Hb b'. unfold b', clearMDOrders.
  set (l := map_to_list (ob_orders b)).
  assert (Hl : forall kv, kv ∈ l -> ob_orders b !! kv.1 = Some kv.2).
  { intros [id x] Hkv. by apply elem_of_map_to_list. }
  rewrite (saved_all b l Hb Hl).
  pose proof (law_clear (ob_l3 b)) as Hc. destruct (l3_clear (ob_l3 b)) as [l3 evs].
  destruct Hc as (Hempty & _ & Hou).
  destruct (l3_call b (l3, evs, true)) as [b1 r] eqn:E1.
  assert (Hcore : core b1 = core (b <| ob_l3 := l3 |>)).
  { pose proof (core_l3_call b l3 evs true) as Hcl. rewrite E1, Hou in Hcl. exact Hcl. }
  destruct (core_fields _ _ Hcore) as (C1 & C2 & C3 & C4 & C5 & C6 & C7). cbn in C1, C2, C3, C4, C5, C6, C7.
  assert (Hr0 : restoring b [] (b1 <| ob_feed_md_level_quantity := ∅ |>)).
  { split; cbn; rewrite ?C1, ?C2, ?C4, ?C5, ?C7; try done.
    - split; rewrite !Hempty; [split; constructor..|constructor].
    - unfold book_ids. by rewrite !Hempty.
    - intros kv Hkv. by apply elem_of_nil in Hkv. }
  assert (Hnd : NoDup (map fst l ++ map fst (@nil (Z * ptr)))).
  { cbn [map]. rewrite app_nil_r. apply NoDup_fst_map_to_list. }
  pose proof (restore_all b l [] _ Hb Hl Hnd Hr0) as Hr. rewrite app_nil_r in Hr.
  destruct Hr as [R1 R2 R3 R4 R5 R6 R7 R8].
  assert (Hids : book_ids (ob_l3 (fold_left restore_order (map (saved_entry b) l)
                   (b1 <| ob_feed_md_level_quantity := ∅ |>))) ≡ₚ map fst l).
  { rewrite R7. apply Permutation_map. symmetry. apply Permutation_rev. }
  split; [|done]. split; try done.
  - intros id x Hx. rewrite R1 in Hx. rewrite R2. apply (R8 (id, x)).
    rewrite <- (Permutation_rev l). by apply elem_of_map_to_list.
  - rewrite R1, R2, R3. apply Hb.
  - rewrite R1, R2, R4. apply Hb.
  - intros p. rewrite R5, R1. transitivity 0; [done|]. symmetry. apply phantom_total_zero.
    intros s x Hs Hx Hn. assert (Hin : flat_id x ∈ map fst l).
    { rewrite <- Hids. destruct x as [px ox]. by eapply flat_in_book. }
    apply list_elem_of_fmap in Hin as ([id y] & E & Hy). apply Hl in Hy. cbn in E, Hy. congruence.
Qed.

(** ** Amending a client order *)

(** What the base class makes of a modification that leaves something. *)
Lemma modify_entry (l3 : L3) s p e np q ts prio seq last :
  book_ok l3 -> book_side s -> seq_accepted l3 seq = true ->
  (p, e) ∈ flat (getLevelsL3 l3 s) -> 0 < q -> prio <> 0 ->
  let out := l3_modifyOrder l3 (l3_order_id e) np q ts prio seq last in
  out.2 = true /\ book_ok out.1.1
  /\ side_becomes l3 out.1.1 s (modified_side s p e np q prio (getLevelsL3 l3 s))
  /\ (exists e', (np, e') ∈ flat (getLevelsL3 out.1.1 s) /\ l3_order_id e' = l3_order_id e
        /\ l3_quantity e' = q /\ l3_priority e' = prio)
  /\ (forall am id' o, id' <> l3_order_id e -> rests_as l3 am id' o -> rests_as out.1.1 am id' o)
  /\ (forall orders p', orders !! l3_order_id e <> None ->
        phantom_total out.1.1 orders p' = phantom_total l3 orders p')
  /\ (order_updates out.1.2 = []
      \/ exists u, order_updates out.1.2 = [u] /\ ou_order_id u = l3_order_id e /\ ou_quantity u = q).
Proof.
  intros Hok Hs Ha Hin Hq Hprio out. pose proof (proj2 (rests_at_flat _ _ _) Hin) as Hr.
  subst out. unfold modified_side. rewrite (proj2 (Z.eqb_neq q 0)) by lia.
  destruct ((np =? p) && (prio =? l3_priority e)) eqn:E1; bool_to_prop.
  - subst np prio. destruct (q =? l3_quantity e) eqn:E2; bool_to_prop.
    + subst q. destruct (law_modify_same l3 s p e ts seq last Hok Hs Ha Hr) as (l3' & -> & Hsame & _).
      cbn [fst snd]. split; [done|]. split; [destruct Hok; split; rewrite !Hsame; done|].
      split; [split; by rewrite Hsame|]. split; [exists e; by rewrite Hsame|].
      split; [|split; [|by left]].
      * intros am id' o _ (A1 & A2 & A3 & px & ex & A4 & A5).
        do 3 (split; [done|]). exists px, ex. by rewrite Hsame.
      * intros orders p' _. unfold phantom_total. by rewrite !Hsame.
    + pose proof (law_modify_qty l3 s p e q ts seq last Hok Hs Ha Hr ltac:(lia) E2) as Hm.
      set (out := l3_modifyOrder _ _ _ _ _ _ _ _) in *. pose proof (mut_side _ _ _ _ _ _ Hm) as Hside.
      split; [apply Hm|]. split; [by apply (set_qty_ok l3 out.1.1 s p e q Hok Hs Hin ltac:(lia) Hside)|].
      split; [exact Hside|]. split; [|split; [|split]].
      * exists (e <| l3_quantity := q |>). destruct Hside as [Es1 _]. rewrite Es1, flat_levels_set.
        split; [|done]. apply flat_set_new; done || lia.
      * intros am id' o Hne. by eapply rests_as_set.
      * intros orders p' Hown. rewrite (phantom_total_set l3 out.1.1 s p e q) by done.
        rewrite bool_decide_eq_false_2 by done. lia.
      * right. eexists. split; [apply Hm|done].
  - assert (Hmv : np <> p \/ prio <> l3_priority e) by (destruct E1; bool_to_prop; auto).
    pose proof (law_modify_move l3 s p e np q ts prio seq last Hok Hs Ha Hr ltac:(lia) Hmv Hprio) as Hm.
    set (out := l3_modifyOrder _ _ _ _ _ _ _ _) in *. pose proof (mut_side _ _ _ _ _ _ Hm) as Hside.
    split; [apply Hm|]. split; [by apply (move_ok l3 out.1.1 s p e np q prio Hok Hs Hin ltac:(lia) Hside)|].
    split; [exact Hside|]. split; [|split; [|split]].
    + exists (mkL3Order (l3_order_id e) q prio). destruct Hside as [Es1 _].
      rewrite Es1, flat_levels_insert. split; [by apply elem_of_cons; left|done].
    + intros am id' o Hne. eapply rests_as_insert; [done|exact Hside|].
      intros y Hy Hid. rewrite flat_levels_set. apply flat_set_keeps; [done|]. by rewrite Hid.
    + intros orders p' Hown. rewrite (phantom_total_insert l3 out.1.1 s np _ _ _ p' Hs Hside), flat_levels_set.
      rewrite (fsum_set _ _ 0 _ p e) by (done || by apply side_ids_nodup). cbn.
      rewrite bool_decide_eq_false_2 by done. unfold phantom_at at 3, flat_id. cbn.
      rewrite bool_decide_eq_false_2 by done. lia.
    + right. eexists. split; [apply Hm|done].
Qed.

(** Its level updates account for what it changed. *)
Lemma modify_levels b s p e np q ts prio seq last :
  book_ok (ob_l3 b) -> book_side s -> seq_accepted (ob_l3 b) seq = true ->
  (p, e) ∈ flat (getLevelsL3 (ob_l3 b) s) -> 0 <= q -> prio <> 0 ->
  level_step b (fst (l3_call b (l3_modifyOrder (ob_l3 b) (l3_order_id e) np q ts prio seq last))).
Proof.
  intros Hok Hs Ha Hin Hq Hprio. pose proof (proj2 (rests_at_flat _ _ _) Hin) as Hr.
  destruct (decide (q = 0)) as [->|Hq0].
  { rewrite law_modify_zero. eapply mutated_levels. by apply law_delete. }
  destruct ((np =? p) && (prio =? l3_priority e)) eqn:E1; bool_to_prop.
  - subst np prio. destruct (decide (q = l3_quantity e)) as [->|Hne].
    + destruct (law_modify_same (ob_l3 b) s p e ts seq last Hok Hs Ha Hr) as (l3' & -> & Hsame & _).
      by apply silent_levels.
    + eapply mutated_levels. apply law_modify_qty; done || lia.
  - eapply mutated_levels. apply (law_modify_move (ob_l3 b) s p e); try (done || lia).
Qed.

(** The identity maps only depend on the heap through the keys. *)
Lemma set_order_maps b x o :
  o_identity o = o_identity (ob_heap b x) ->
  forall (key : OrderIdentity -> fixed_string) orders m,
  indexes (ob_heap b) orders (fun o => key (o_identity o)) m ->
  indexes (ob_heap (book_set_order b x o)) orders (fun o => key (o_identity o)) m.
Proof.
  intros Ho key orders m. apply indexes_heap. intros id p _.
  change (ob_heap (book_set_order b x o) p) with ((<[x := o]> (ob_heap b)) p).
  destruct (decide (p = x)) as [->|]; [by rewrite fn_lookup_insert, Ho|by rewrite fn_lookup_insert_ne].
Qed.

Definition only_amending but id : Prop := but = None \/ but = Some id.

Lemma only_amending_other but id id' : only_amending but id -> id' <> id -> amending but id' = false.
Proof.
  unfold amending. intros [-> | ->] Hne; apply bool_decide_eq_false_2; congruence.
Qed.

(** Rewriting the fields of an indexed order that is being amended. *)
Lemma set_amending_inv but b id x o :
  book_inv but b -> ob_orders b !! id = Some x -> only_amending but id ->
  o_id o = id -> o_side o = o_side (ob_heap b x) -> o_priority o <> 0 ->
  o_identity o = o_identity (ob_heap b x) ->
  book_inv (Some id) (book_set_order b x o).
Proof.
  intros Hb Hx Hbut Eid Es Hprio Eident. pose proof Hb as [H1 H2 H3 H4 H5].
  split; [exact H1| | | |exact H5].
  - intros id' p Hp. change (ob_orders (book_set_order b x o)) with (ob_orders b) in Hp.
    change (ob_heap (book_set_order b x o) p) with ((<[x := o]> (ob_heap b)) p).
    destruct (decide (id' = id)) as [->|Hne].
    + assert (p = x) as -> by congruence. rewrite fn_lookup_insert.
      destruct (H2 id x Hx) as (_ & A2 & _ & px & ex & A4 & A5 & _).
      split; [done|]. rewrite Es. split; [done|]. split; [done|]. exists px, ex.
      split; [done|]. split; [done|]. unfold amending. by rewrite bool_decide_eq_true_2.
    + rewrite fn_lookup_insert_ne by (intros ->; by apply Hne, (own_unique but b id' id p)).
      pose proof (H2 id' p Hp) as Hr. unfold amending.
      rewrite bool_decide_eq_false_2 by congruence.
      by rewrite (only_amending_other but id id' Hbut Hne) in Hr.
  - by apply (set_order_maps b x o Eident id_client_order_id).
  - by apply (set_order_maps b x o Eident id_order_id).
Qed.

(** Once the amended order is gone, or back in agreement, nothing is being amended. *)
Lemma inv_settled but b id :
  book_inv but b -> only_amending but id ->
  (forall x, ob_orders b !! id = Some x -> rests_as (ob_l3 b) false id (ob_heap b x)) ->
  book_inv None b.
Proof.
  intros [H1 H2 H3 H4 H5] Hbut Hid. split; try done. intros id' x Hx. cbn.
  destruct (decide (id' = id)) as [->|Hne]; [by apply Hid|].
  pose proof (H2 id' x Hx) as Hr. by rewrite (only_amending_other but id id' Hbut Hne) in Hr.
Qed.

(** The base book takes over an amended order that has something left. *)
Lemma amend_call_inv b0 id x p e ts seq last :
  let o := ob_heap b0 x in
  book_inv (Some id) b0 -> ob_orders b0 !! id = Some x -> seq_accepted (ob_l3 b0) seq = true ->
  (p, e) ∈ flat (getLevelsL3 (ob_l3 b0) (o_side o)) -> l3_order_id e = id -> 0 < o_leaves_quantity o ->
  let b1 := fst (l3_call b0 (l3_modifyOrder (ob_l3 b0) id (o_price o) (o_leaves_quantity o) ts
                               (o_priority o) seq last)) in
  book_inv None b1 /\ ob_orders b1 = ob_orders b0 /\ ob_heap b1 = ob_heap b0
  /\ side_becomes (ob_l3 b0) (ob_l3 b1) (o_side o)
       (modified_side (o_side o) p e (o_price o) (o_leaves_quantity o) (o_priority o)
          (getLevelsL3 (ob_l3 b0) (o_side o))).
Proof.
  intros o Hb Hx Ha Hin Hide Hl b1.
  destruct (bi_own _ b0 Hb id x Hx) as (Eid & Hs & Hprio & _). fold o in Eid, Hs, Hprio.
  destruct (modify_entry (ob_l3 b0) (o_side o) p e (o_price o) (o_leaves_quantity o) ts (o_priority o)
              seq last (bi_l3 _ b0 Hb) Hs Ha Hin Hl Hprio) as (Hr & Hok & Hside & Hnew & Hothers & Htot & Hou).
  rewrite Hide in *. set (out := l3_modifyOrder _ _ _ _ _ _ _ _) in *.
  assert (Hcore : core b1 = core (b0 <| ob_l3 := out.1.1 |>)).
  { unfold b1. destruct out as [[l evs] r]. cbn [fst snd] in *. rewrite core_l3_call.
    destruct Hou as [-> | (u & -> & Hu1 & Hu2)]; [done|]. cbn [fold_left].
    pose proof (onOrderUpdate_own (b0 <| ob_l3 := l |>) u x) as Hown.
    rewrite Hown by (cbn; by rewrite Hu1). by rewrite (proj2 (Z.eqb_neq _ 0)) by lia. }
  destruct (core_fields _ _ Hcore) as (C1 & C2 & C3 & C4 & C5 & C6 & C7). cbn in C1, C2, C3, C4, C5, C6, C7.
  split; [|by rewrite C1, C2, C7].
  pose proof Hb as [H1 H2 H3 H4 H5].
  apply (inv_settled (Some id) b1 id); [|by right|].
  - split; rewrite ?C1, ?C2, ?C4, ?C5, ?C6, ?C7; try done.
    + intros id' y Hy. destruct (decide (id' = id)) as [->|Hne]; [|apply Hothers; [done|by apply H2]].
      assert (y = x) as -> by congruence. fold o.
      do 3 (split; [done|]). destruct Hnew as (e' & Hin' & Hide' & Hq & Hp).
      by exists (o_price o), e'.
    + intros p'. rewrite H5, Htot; [done|]. by rewrite Hx.
  - intros y Hy. rewrite C2 in Hy. assert (y = x) as -> by congruence. rewrite C1, C7. fold o.
    do 3 (split; [done|]). destruct Hnew as (e' & Hin' & Hide' & Hq & Hp).
    by exists (o_price o), e'.
Qed.

(** [OrderBook::modifyOrder] on an order whose price is already the new one: the base book
    takes over its leaves and priority, and an order with nothing left is dropped. *)
Lemma modifyOrder_inv but w id x nq ts seq last :
  let b := w_book w in let o := ob_heap b x in
  book_inv but b -> ob_orders b !! id = Some x -> only_amending but id ->
  seq_accepted (ob_l3 b) seq = true -> 0 <= o_leaves_quantity o ->
  let w' := modifyOrder w x (o_price o) nq ts seq last in
  book_inv None (w_book w')
  /\ ob_orders (w_book w') = (if o_leaves_quantity o =? 0 then delete id (ob_orders b) else ob_orders b)
  /\ (exists p e, (p, e) ∈ flat (getLevelsL3 (ob_l3 b) (o_side o)) /\ l3_order_id e = id
      /\ side_becomes (ob_l3 b) (ob_l3 (w_book w')) (o_side o)
           (modified_side (o_side o) p e (o_price o) (o_leaves_quantity o) (o_priority o)
              (getLevelsL3 (ob_l3 b) (o_side o))))
  /\ w_glob w' = w_glob w /\ w_responses w' = w_responses w /\ w_md w' = w_md w
  /\ (forall y, ob_heap (w_book w') y = (<[x := o <| o_quantity := nq |>]> (ob_heap b)) y)
  /\ level_step b (w_book w') /\ ob_pool (w_book w') = ob_pool b.
Proof.
  intros b o Hb Hx Hbut Ha Hl w'.
  destruct (bi_own but b Hb id x Hx) as (Eid & Hs & Hprio & p & e & Hin & Hide & _). fold o in Eid, Hs, Hprio, Hin.
  set (o1 := o <| o_quantity := nq |>). set (b0 := book_set_order b x o1).
  assert (Hb0 : book_inv (Some id) b0) by by apply (set_amending_inv but).
  assert (Eh : ob_heap b0 x = o1).
  { change (ob_heap b0 x) with ((<[x := o1]> (ob_heap b)) x). apply fn_lookup_insert. }
  set (out := l3_modifyOrder (ob_l3 b) id (o_price o) (o_leaves_quantity o) ts (o_priority o) seq last).
  assert (Ew : w' = w <| w_book := let '(b1, _) := l3_call b0 out in
      if (o_leaves_quantity (ob_heap b1 x) =? 0) then unindex_order b1 x (o_id (ob_heap b1 x)) else b1 |>).
  { unfold w', modifyOrder. change (order_at w x) with o.
    rewrite Eid. change (ob_orders (w_book w)) with (ob_orders b). rewrite Hx.
    rewrite bool_decide_eq_true_2 by done. cbn [negb].
    rewrite Z.eqb_refl. cbn [negb]. change (order_at w x) with o. fold o1.
    change (w_book (set_order w x o1)) with b0. rewrite Eh.
    change (o_id o1) with (o_id o). change (o_leaves_quantity o1) with (o_leaves_quantity o).
    change (o_priority o1) with (o_priority o). change (ob_l3 b0) with (ob_l3 b). rewrite Eid. fold out.
    destruct (l3_call b0 out) as [b1 r]. rewrite andb_true_r. by destruct (_ =? 0). }
  clearbody w'. rewrite Ew. clear Ew w'. cbn [w_book w_glob w_responses w_md upd].
  assert (Hl0 : ob_l3 b0 = ob_l3 b) by done. assert (Ho0 : ob_orders b0 = ob_orders b) by done.
  assert (Hs0 : o_side (ob_heap b0 x) = o_side o) by by rewrite Eh.
  destruct (o_leaves_quantity o =? 0) eqn:E0; bool_to_prop.
  - assert (Eout : out = l3_deleteOrder (ob_l3 b0) id ts seq last).
    { unfold out. rewrite E0. apply law_modify_zero. }
    pose proof (law_delete (ob_l3 b0) (o_side o) p e ts seq last (bi_l3 _ b0 Hb0) Hs Ha
                  (proj2 (rests_at_flat _ _ _) Hin)) as Hm. rewrite Hide, <- Eout in Hm.
    destruct (own_removed_fields b0 out _ _ _ seq _ x Hm Hx eq_refl) as (G1 & G2 & _ & _ & _ & _ & G7).
    destruct (deleteOrder_inv (Some id) b0 id x ts seq last Hb0 Hx Ha) as (D1 & D2 & D3 & D4 & D5 & _ & D7).
    rewrite Hs0, Hl0 in D2.
    assert (Ed : deleteOrder b0 x ts seq last
      = let '(b1, _) := l3_call b0 out in
        if o_leaves_quantity (ob_heap b1 x) =? 0 then unindex_order b1 x (o_id (ob_heap b1 x)) else b1).
    { unfold deleteOrder. rewrite Eh. change (o_id o1) with (o_id o). rewrite Eid, <- Eout.
      destruct (l3_call b0 out) as [b1 r]. cbn [fst] in *.
      assert (El : o_leaves_quantity (ob_heap b1 x) = 0) by (destruct (G7 x) as [-> |[_ ->]]; by rewrite ?Eh).
      assert (Ei : o_id (ob_heap b1 x) = id) by (destruct (G7 x) as [-> |[_ ->]]; by rewrite ?Eh).
      rewrite El, Ei, G2, Ho0, Hx. done. }
    rewrite <- Ed. split; [|split; [by rewrite D3|split; [|do 3 (split; [done|]); split; [|by split]]]].
    + apply (inv_settled (Some id) _ id); [done|by right|]. intros y Hy.
      rewrite D3, lookup_delete_eq in Hy. done.
    + exists p, e. split; [done|]. split; [done|]. unfold modified_side. rewrite E0. cbn.
      by rewrite Hide.
    + intros y. destruct (D5 y) as [E|[-> E]]; [exact E|]. rewrite E. apply (set_leaves_same (ob_heap b0 x)). by rewrite Eh.
  - destruct (amend_call_inv b0 id x p e ts seq last Hb0 Hx Ha) as (A1 & A2 & A3 & A4);
      rewrite ?Eh; try done.
    { change (0 < o_leaves_quantity o). lia. }
    rewrite Eh in A1, A2, A3, A4.
    change (l3_modifyOrder (ob_l3 b0) id (o_price o1) _ ts _ seq last) with out in A1, A2, A3, A4.
    pose proof (modify_levels b0 (o_side o) p e (o_price o) (o_leaves_quantity o) ts (o_priority o) seq last
                  (bi_l3 _ b0 Hb0) Hs Ha Hin Hl Hprio) as Hlv. rewrite Hide in Hlv.
    change (l3_modifyOrder (ob_l3 b0) id (o_price o) _ ts _ seq last) with out in Hlv.
    pose proof (l3_call_pool b0 out) as Hpool.
    destruct (l3_call b0 out) as [b1 r]. cbn [fst] in *. rewrite A3, Eh.
    change (o_leaves_quantity o1) with (o_leaves_quantity o).
    rewrite (proj2 (Z.eqb_neq _ 0)) by lia. split; [done|]. split; [done|].
    split; [by exists p, e|]. do 3 (split; [done|]).
    split; [intros y; by rewrite A3|]. split; [exact Hlv|exact Hpool].
Qed.

(** ** Reachable books *)

(** One whole-book operation. An amendment first rewrites the order, then puts it back; a
    pooled order that is not indexed may be rewritten freely. *)
Inductive book_step : World -> World -> Prop :=
| step_rest_client w x ts seq lst :
    joinable (w_book w) x -> seq_accepted (ob_l3 (w_book w)) seq = true ->
    u64 (g_next_priority (w_glob w) + 1) <> 0 ->
    book_step w (addOrder w x ts seq lst)
| step_rest_phantom w id s p q ts seq lst :
    book_side s -> seq_accepted (ob_l3 (w_book w)) seq = true -> id ∉ book_ids (ob_l3 (w_book w)) ->
    0 < q -> u64 (g_next_priority (w_glob w) + 1) <> 0 ->
    book_step w (addBookOrder w id s p q ts seq lst)
| step_execute w s p o q ts seq lst :
    book_side s -> seq_accepted (ob_l3 (w_book w)) seq = true ->
    (p, o) ∈ flat (getLevelsL3 (ob_l3 (w_book w)) s) -> 0 < q <= l3_quantity o ->
    book_step w (w <| w_book := fst (executeBookOrder (w_book w) (l3_order_id o) q ts seq lst) |>)
| step_cancel w id x ts seq lst :
    ob_orders (w_book w) !! id = Some x -> seq_accepted (ob_l3 (w_book w)) seq = true ->
    book_step w (w <| w_book := deleteOrder (w_book w) x ts seq lst |>)
| step_delete_phantom w s p o ts seq lst :
    book_side s -> seq_accepted (ob_l3 (w_book w)) seq = true ->
    (p, o) ∈ flat (getLevelsL3 (ob_l3 (w_book w)) s) -> ob_orders (w_book w) !! l3_order_id o = None ->
    book_step w (w <| w_book := fst (deleteBookOrder (w_book w) (l3_order_id o) ts seq lst) |>)
| step_modify_phantom w s p o np q ts prio seq lst :
    book_side s -> seq_accepted (ob_l3 (w_book w)) seq = true ->
    (p, o) ∈ flat (getLevelsL3 (ob_l3 (w_book w)) s) -> ob_orders (w_book w) !! l3_order_id o = None ->
    0 <= q -> prio <> 0 ->
    book_step w (w <| w_book := fst (modifyBookOrder (w_book w) (l3_order_id o) np q ts prio seq lst) |>)
| step_amend w id x o nq ts seq lst :
    ob_orders (w_book w) !! id = Some x -> seq_accepted (ob_l3 (w_book w)) seq = true ->
    o_id o = id -> o_side o = o_side (order_at w x) -> o_priority o <> 0 ->
    o_identity o = o_identity (order_at w x) -> 0 <= o_leaves_quantity o ->
    book_step w (modifyOrder (set_order w x o) x (o_price o) nq ts seq lst)
| step_write w x o :
    (forall id, ob_orders (w_book w) !! id <> Some x) -> book_step w (set_order w x o)
| step_reset w : book_step w (w <| w_book ::= clearMDOrders |>).

Lemma book_step_inv w w' : book_step w w' -> book_inv None (w_book w) -> book_inv None (w_book w').
Proof.
  intros Hstep Hb. destruct Hstep.
  - by apply addOrder_inv.
  - by apply addBookOrder_inv.
  - pose proof (execute_book None (w_book w) s p o q ts seq lst Hb) as He.
    cbn [w_book upd]. destruct (executeBookOrder _ _ _ _ _ _) as [b' r]. by apply He.
  - cbn [w_book upd]. by apply (deleteOrder_inv None _ id).
  - pose proof (deleteBookOrder_inv None (w_book w) s p o ts seq lst Hb) as He.
    cbn [w_book upd]. destruct (deleteBookOrder _ _ _ _ _) as [b' r]. by apply He.
  - pose proof (modifyBookOrder_inv None (w_book w) s p o np q ts prio seq lst Hb) as He.
    cbn [w_book upd]. destruct (modifyBookOrder _ _ _ _ _ _ _ _) as [b' r]. by apply He.
  - assert (Hx : ob_heap (w_book (set_order w x o)) x = o).
    { change (ob_heap (w_book (set_order w x o)) x) with ((<[x := o]> (ob_heap (w_book w))) x).
      apply fn_lookup_insert. }
    pose proof (modifyOrder_inv (Some id) (set_order w x o) id x nq ts seq lst) as Hm.
    cbv zeta in Hm. rewrite Hx in Hm. apply Hm; try done; [|by right].
    apply (set_amending_inv None); try done. by left.
  - by apply set_unindexed_inv.
  - by apply clearMDOrders_inv.
Qed.

(** C7. In every book reachable from a book with the invariant by adding,
    executing, amending and cancelling client orders, resting, changing and removing
    phantom orders and resetting from a snapshot: the base book stays well-formed; the feed
    quantity of a price is exactly what phantom orders hold there; a client order found by
    its number rests on its side at its own price with exactly its remaining quantity; and
    the client-id and order-id lookups find exactly the resting orders carrying that id. *)
Theorem reachable_book w0 w :
  book_inv None (w_book w0) -> rtc book_step w0 w ->
  let b := w_book w in
  book_ok (ob_l3 b)
  /\ (forall p, getMDLevelQty b p = phantom_total (ob_l3 b) (ob_orders b) p)
  /\ (forall id x, findOrder b id = Some x ->
        exists e, rests_at (getLevelsL3 (ob_l3 b) (o_side (ob_heap b x))) (o_price (ob_heap b x)) e
          /\ l3_order_id e = id /\ l3_quantity e = o_leaves_quantity (ob_heap b x))
  /\ (forall k x, findOrderByClientOrderId b k = Some x <->
        exists id, findOrder b id = Some x /\ empty (o_client_order_id (ob_heap b x)) = false
          /\ view (o_client_order_id (ob_heap b x)) = k)
  /\ (forall k x, findOrderByOrderId b k = Some x <->
        exists id, findOrder b id = Some x /\ empty (o_order_id (ob_heap b x)) = false
          /\ view (o_order_id (ob_heap b x)) = k).
Proof.
  intros Hb0 Hsteps b. assert (Hb : book_inv None b).
  { subst b. induction Hsteps as [|w0 w1 w Hs _ IH]; [done|]. apply IH. by eapply book_step_inv. }
  split; [apply Hb|]. split; [apply Hb|]. split; [|split; apply Hb].
  intros id x Hx. destruct (bi_own None b Hb id x Hx) as (_ & _ & _ & p & e & Hin & Hide & Hv).
  destruct (Hv eq_refl) as (-> & Hq & _). exists e. by rewrite rests_at_flat.
Qed.
End Ops.

Lemma empty_book_inv : book_inv None empty_book.
Proof.
  assert (Hn : forall id, ob_orders empty_book !! id = None) by (intros id; apply lookup_empty).
  assert (Hc : forall k, ob_orders_by_client_order_id empty_book !! k = None)
    by (intros k; apply lookup_empty).
  assert (Ho : forall k, ob_orders_by_order_id empty_book !! k = None) by (intros k; apply lookup_empty).
  split.
  - split; [split; constructor|split; constructor|constructor].
  - intros id x Hx. by rewrite Hn in Hx.
  - intros k x. split; [intros Hk; by rewrite Hc in Hk|].
    intros (id & Hid & _). by rewrite Hn in Hid.
  - intros k x. split; [intros Hk; by rewrite Ho in Hk|].
    intros (id & Hid & _). by rewrite Hn in Hid.
  - done.
Qed.

Lemma reachable_book_witness :
  let w := rest_phantom (rest_phantom empty_world 7 SELL 101 5) 8 BUY 99 4 in
  let b := w_book w in
  book_ok (ob_l3 b)
  /\ (forall p, getMDLevelQty b p = phantom_total (ob_l3 b) (ob_orders b) p)
  /\ (forall id x, findOrder b id = Some x ->
        exists e, rests_at (getLevelsL3 (ob_l3 b) (o_side (ob_heap b x))) (o_price (ob_heap b x)) e
          /\ l3_order_id e = id /\ l3_quantity e = o_leaves_quantity (ob_heap b x))
  /\ (forall k x, findOrderByClientOrderId b k = Some x <->
        exists id, findOrder b id = Some x /\ empty (o_client_order_id (ob_heap b x)) = false
          /\ view (o_client_order_id (ob_heap b x)) = k)
  /\ (forall k x, findOrderByOrderId b k = Some x <->
        exists id, findOrder b id = Some x /\ empty (o_order_id (ob_heap b x)) = false
          /\ view (o_order_id (ob_heap b x)) = k).
Proof.
  apply (reachable_book empty_world); [exact empty_book_inv|].
  eapply rtc_l; [|eapply rtc_l; [|apply rtc_refl]].
  - apply (step_rest_phantom empty_world 7 SELL 101 5 1 0 true);
      [by right|done|apply not_elem_of_nil|lia|done].
  - apply step_rest_phantom; [by left|done| |lia|vm_compute; done].
    vm_compute. intros Hin. inversion Hin as [|? ? ? Hin']; inversion Hin'.
Defined.
