(* ===== verification/Sweep.v ===== *)
(** * The specification of FIFO matching

    [sweep] walks the queue view of a side from the front: it fills what the quantity
    reaches, cancels the entries it must skip, and stops at the limit. Its lemmas are the
    promises of price-time priority: conservation, the limit, the order of fills, and that
    nothing matchable is left behind. *)

From S2P Require Import Prelude Types Orders Messages L3Interface L3Lemmas.

Inductive Act :=
  ActFill (p : price_t) (id : Z) (q : qty_t)
| ActCancel (id : Z).

Definition act_id (a : Act) : Z := match a with ActFill _ id _ => id | ActCancel id => id end.

Definition act_fill (a : Act) : option (price_t * Z * qty_t) :=
  match a with ActFill p id q => Some (p, id, q) | ActCancel _ => None end.

Definition act_fills (acts : list Act) : list (price_t * Z * qty_t) := omap act_fill acts.

Definition fill_qty (f : price_t * Z * qty_t) : qty_t := f.2.
Definition fill_id (f : price_t * Z * qty_t) : Z := f.1.2.
Definition fill_price (f : price_t * Z * qty_t) : price_t := f.1.1.

Lemma act_fills_sublist acts : sublist (map fill_id (act_fills acts)) (map act_id acts).
Proof.
  induction acts as [|[p id q|id] acts IH]; [apply sublist_nil| |].
  - apply sublist_skip, IH.
  - apply sublist_cons, IH.
Qed.

Fixpoint sweep (limit : price_t -> bool) (skip : Z -> bool) (qty : qty_t)
  (fl : list (price_t * L3Order)) : list Act * qty_t * list (price_t * L3Order) :=
  match fl with
  | [] => ([], qty, [])
  | (p, o) :: rest =>
      if negb (0 <? qty) || negb (limit p) then ([], qty, fl)
      else if skip (l3_order_id o) then
        let '(acts, q, fl') := sweep limit skip qty rest in
        (ActCancel (l3_order_id o) :: acts, q, fl')
      else if l3_quantity o <=? qty then
        let '(acts, q, fl') := sweep limit skip (qty - l3_quantity o) rest in
        (ActFill p (l3_order_id o) (l3_quantity o) :: acts, q, fl')
      else
        ([ActFill p (l3_order_id o) qty], 0, (p, o <| l3_quantity := l3_quantity o - qty |>) :: rest)
  end.

Section Sweep.
Context (limit : price_t -> bool) (skip : Z -> bool).

Definition filled (acts : list Act) : qty_t := zsum (map fill_qty (act_fills acts)).

Lemma filled_cons a acts :
  filled (a :: acts) = match a with ActFill _ _ q => q | ActCancel _ => 0 end + filled acts.
Proof. unfold filled, act_fills. destruct a; cbn; lia. Qed.

(** A case analysis on the front of the queue, for inductions along a sweep. *)
Lemma sweep_cons qty p o rest :
  sweep limit skip qty ((p, o) :: rest)
  = if negb (0 <? qty) || negb (limit p) then ([], qty, (p, o) :: rest)
    else if skip (l3_order_id o) then
      (ActCancel (l3_order_id o) :: (sweep limit skip qty rest).1.1,
       (sweep limit skip qty rest).1.2, (sweep limit skip qty rest).2)
    else if l3_quantity o <=? qty then
      (ActFill p (l3_order_id o) (l3_quantity o) :: (sweep limit skip (qty - l3_quantity o) rest).1.1,
       (sweep limit skip (qty - l3_quantity o) rest).1.2, (sweep limit skip (qty - l3_quantity o) rest).2)
    else
      ([ActFill p (l3_order_id o) qty], 0, (p, o <| l3_quantity := l3_quantity o - qty |>) :: rest).
Proof.
  cbn [sweep].
  by destruct (sweep limit skip qty rest) as [[? ?] ?],
       (sweep limit skip (qty - l3_quantity o) rest) as [[? ?] ?].
Qed.

(** What is filled and what is left add up. *)
Lemma sweep_conserves qty fl :
  filled (sweep limit skip qty fl).1.1 + (sweep limit skip qty fl).1.2 = qty.
Proof.
  revert qty. induction fl as [|[p o] rest IH]; intros qty; [done|].
  rewrite sweep_cons. repeat case_test; cbn [fst snd]; rewrite ?filled_cons; try done.
  - rewrite <- (IH qty) at 3. lia.
  - specialize (IH (qty - l3_quantity o)). lia.
  - unfold filled. cbn. lia.
Qed.

Lemma sweep_left_range qty fl :
  0 <= qty -> 0 <= (sweep limit skip qty fl).1.2.
Proof.
  revert qty. induction fl as [|[p o] rest IH]; intros qty Hq; [done|].
  rewrite sweep_cons. repeat case_test; bool_to_prop; cbn [fst snd]; try lia; apply IH; lia.
Qed.

(** Fills stay within the limit and are positive. *)
Lemma sweep_fills_ok qty fl :
  Forall (fun x => 0 < flat_qty x) fl ->
  Forall (fun f => limit (fill_price f) = true /\ skip (fill_id f) = false /\ 0 < fill_qty f)
    (act_fills (sweep limit skip qty fl).1.1).
Proof.
  intros Hpos. revert qty. induction Hpos as [|[p o] rest Ho _ IH]; intros qty; [constructor|].
  unfold flat_qty in Ho. cbn in Ho.
  rewrite sweep_cons. repeat case_test; cbn [fst snd act_fills omap list_omap act_fill]; bool_to_prop;
    try constructor; try apply IH; try done.
Qed.

(** Price-time priority: the orders acted on are the front of the queue, in order. *)
Lemma sweep_front qty fl :
  let acts := (sweep limit skip qty fl).1.1 in
  map act_id acts = map flat_id (take (List.length acts) fl).
Proof.
  revert qty. induction fl as [|[p o] rest IH]; intros qty; [done|].
  rewrite sweep_cons. repeat case_test; cbn [fst snd map List.length take]; try done.
  all: f_equal; apply IH.
Qed.

(** Without skips, every fill is at its order's own price. *)
Lemma sweep_front_fills qty fl :
  (forall id, skip id = false) ->
  let fills := act_fills (sweep limit skip qty fl).1.1 in
  map (fun f => (fill_price f, fill_id f)) fills
  = map (fun x => (x.1, flat_id x)) (take (List.length fills) fl).
Proof.
  intros Hskip. revert qty. induction fl as [|[p o] rest IH]; intros qty; [done|].
  rewrite sweep_cons, Hskip. repeat case_test; cbn [fst snd]; try done.
  cbn [act_fills omap list_omap act_fill map List.length take]. f_equal. apply IH.
Qed.

(** Completeness: with quantity left, nothing that could trade is in front. *)
Lemma sweep_complete qty fl :
  let '(_, q, fl') := sweep limit skip qty fl in
  0 < q -> match fl' with [] => True | (p, _) :: _ => limit p = false end.
Proof.
  revert qty. induction fl as [|[p o] rest IH]; intros qty; [done|].
  rewrite sweep_cons. repeat case_test; bool_to_prop.
  - destruct Heqb; bool_to_prop; [lia|done].
  - specialize (IH qty). by destruct (sweep limit skip qty rest) as [[acts q] fl'].
  - specialize (IH (qty - l3_quantity o)).
    by destruct (sweep limit skip (qty - l3_quantity o) rest) as [[acts q] fl'].
  - cbn. lia.
Qed.

(** What is behind the reach of the sweep is untouched, but for one partial fill. *)
Lemma sweep_rest qty fl :
  let '(acts, q, fl') := sweep limit skip qty fl in
  fl' = drop (List.length acts) fl
  \/ exists n p o t, fl' = (p, o <| l3_quantity := l3_quantity o - t |>) :: drop (S n) fl
       /\ List.length acts = S n /\ fl !! n = Some (p, o) /\ q = 0 /\ 0 < t < l3_quantity o
       /\ last acts = Some (ActFill p (l3_order_id o) t).
Proof.
  revert qty. induction fl as [|[p o] rest IH]; intros qty; [by left|].
  rewrite sweep_cons. repeat case_test; bool_to_prop.
  - by left.
  - specialize (IH qty). destruct (sweep limit skip qty rest) as [[acts q] fl'].
    cbn [fst snd List.length drop].
    destruct IH as [->|(n & p' & o' & t & -> & Hl & Hn & Hq & Ht & Hlast)]; [by left|].
    right. exists (S n), p', o', t. rewrite Hl, last_cons, Hlast. done.
  - specialize (IH (qty - l3_quantity o)).
    destruct (sweep limit skip (qty - l3_quantity o) rest) as [[acts q] fl'].
    cbn [fst snd List.length drop].
    destruct IH as [->|(n & p' & o' & t & -> & Hl & Hn & Hq & Ht & Hlast)]; [by left|].
    right. exists (S n), p', o', t. rewrite Hl, last_cons, Hlast. done.
  - right. exists O, p, o, qty. repeat split; done || lia.
Qed.

(** Quantity that the side cannot satisfy is left over exactly when too little is within
    the limit. *)
Definition available (fl : list (price_t * L3Order)) : qty_t :=
  fsum (fun x => if limit x.1 && negb (skip (flat_id x)) then flat_qty x else 0) fl.

Lemma available_nonneg fl : Forall (fun x => 0 < flat_qty x) fl -> 0 <= available fl.
Proof.
  unfold available. induction 1 as [|x fl Hx _ IH]; [done|]. rewrite fsum_cons. case_test; lia.
Qed.

(** When the limit cuts the queue at one place, what is left is what was not available. *)
Lemma sweep_left qty fl :
  0 <= qty -> Forall (fun x => 0 < flat_qty x) fl ->
  StronglySorted (fun x y => limit y.1 = true -> limit x.1 = true) fl ->
  (sweep limit skip qty fl).1.2 = Z.max 0 (qty - available fl).
Proof.
  intros Hq Hpos Hs. revert qty Hq. induction Hs as [|[p o] rest Hs IH Hall]; intros qty Hq.
  { cbn. lia. }
  apply Forall_cons in Hpos as [Ho Hpos]. unfold flat_qty in Ho. cbn in Ho.
  pose proof (available_nonneg _ Hpos) as Hav.
  rewrite sweep_cons. unfold available. rewrite fsum_cons. fold (available rest).
  unfold flat_id, flat_qty. cbn [fst snd].
  destruct (limit p) eqn:El; cbn [negb andb].
  - rewrite orb_false_r. destruct (negb (0 <? qty)) eqn:E0; bool_to_prop.
    { cbn. assert (qty = 0) as -> by lia. destruct (skip (l3_order_id o)); cbn; lia. }
    destruct (skip (l3_order_id o)); cbn [negb fst snd]; [rewrite IH; [lia|done|done]|].
    destruct (l3_quantity o <=? qty) eqn:E1; bool_to_prop; cbn [fst snd]; [rewrite IH; [lia|done|lia]|lia].
  - rewrite orb_true_r. cbn [fst snd].
    assert (Hz : available rest = 0); [|lia].
    clear - Hall El. unfold available. induction Hall as [|x rest Hx _ IH]; [done|].
    rewrite fsum_cons, IH. destruct (limit x.1) eqn:E; [|done].
    cbn in Hx. by rewrite Hx in El.
Qed.

End Sweep.
