(* ===== verification/MatchCommon.v ===== *)
(** * What both matching engines share

    Models [src/matching_engine/match_common.hpp] and the response publishers of
    [src/matching_engine/matching_engine.cpp]. The [Side] template argument [SIDE] is the
    resting side; an [Order*] is a [ptr] into the pool; [qty_t &qty] is returned. *)

From S2P Require Import Prelude Types FixedString Orders Messages MarketData L3Interface.
From S2P Require Import OrderBook.

Inductive Reach := Queue | ReachLevel.

Inductive EngineType := FIFO | ProRata.

#[export] Instance EngineType_eq_dec : EqDecision EngineType.
Proof. solve_decision. Defined.

Section MatchCommon.
Context {L3 Pool : Type} {l3ops : L3Ops L3} {poolops : ObjectPool Pool} {env : Environment}.
Abbreviation OrderBook := (OrderBook L3 Pool).
Abbreviation World := (World L3 Pool).

(** ** Publishing on the response queue *)

(** Reserve the next slot, which still holds what it was last used for, fill it, publish. *)
Definition publish_response (w : World) (fill : OrderResponse -> OrderResponse) : World :=
  w <| w_responses ::= fun q => q ++ [fill (env_response_slot (List.length q))] |>.

Definition publishOrderAck (w : World) (order : Order) (request_time : time_t) : World :=
  publish_response w (fun response =>
    (setOrderIdentity response order)
      <| r_response_type := Msg.EXECUTION_REPORT |>
      <| r_exec_type := ExecType.NEW |>
      <| r_order_status := OrderStatus.NEW |>
      <| r_order_type := o_type order |>
      <| r_time_in_force := o_time_in_force order |>
      <| r_price := o_price order |>
      <| r_last_fill_price := o_last_fill_price order |>
      <| r_avg_fill_price := o_avg_fill_price order |>
      <| r_qty := o_quantity order |>
      <| r_cum_qty := 0 |>
      <| r_leaves_qty := o_leaves_quantity order |>
      <| r_creation_time := o_created_time order |>
      <| r_timestamp := o_last_update_time order |>
      <| r_request_time := request_time |>
      <| r_side := o_side order |>
      <| r_post_only := o_post_only order |>).

Definition publishOrderExecution (w : World) (order : Order) (aggressor : bool) : World :=
  publish_response w (fun response =>
    (setOrderIdentity response order)
      <| r_aggressor := aggressor |>
      <| r_response_type := Msg.EXECUTION_REPORT |>
      <| r_exec_type := ExecType.TRADE |>
      <| r_order_status := if negb (o_leaves_quantity order =? 0)
                           then OrderStatus.PARTIALLY_FILLED else OrderStatus.FILLED |>
      <| r_order_type := o_type order |>
      <| r_time_in_force := o_time_in_force order |>
      <| r_price := o_price order |>
      <| r_last_fill_price := o_last_fill_price order |>
      <| r_avg_fill_price := o_avg_fill_price order |>
      <| r_qty := o_quantity order |>
      <| r_last_qty := o_last_fill_qty order |>
      <| r_cum_qty := o_cum_quantity order |>
      <| r_leaves_qty := o_leaves_quantity order |>
      <| r_creation_time := o_created_time order |>
      <| r_timestamp := o_last_update_time order |>
      <| r_side := o_side order |>
      <| r_post_only := o_post_only order |>).

Definition publishOrderModify (w : World) (order : Order) (new_price : price_t) (new_qty : qty_t)
  (request_time : time_t) : World :=
  publish_response w (fun response =>
    (setOrderIdentity response order)
      <| r_response_type := Msg.EXECUTION_REPORT |>
      <| r_exec_type := ExecType.REPLACED |>
      <| r_order_status := OrderStatus.REPLACED |>
      <| r_order_type := o_type order |>
      <| r_time_in_force := o_time_in_force order |>
      <| r_price := new_price |>
      <| r_qty := new_qty |>
      <| r_last_qty := o_last_fill_qty order |>
      <| r_cum_qty := o_cum_quantity order |>
      <| r_leaves_qty := o_leaves_quantity order |>
      <| r_creation_time := o_created_time order |>
      <| r_timestamp := o_last_update_time order |>
      <| r_request_time := request_time |>
      <| r_side := o_side order |>
      <| r_post_only := o_post_only order |>).

Definition publishOrderCancel (w : World) (order : Order) (request_time : time_t) : World :=
  publish_response w (fun response =>
    (setOrderIdentity response order)
      <| r_response_type := Msg.EXECUTION_REPORT |>
      <| r_exec_type := ExecType.CANCELED |>
      <| r_order_status := OrderStatus.CANCELED |>
      <| r_order_type := o_type order |>
      <| r_time_in_force := o_time_in_force order |>
      <| r_price := o_price order |>
      <| r_last_fill_price := o_last_fill_price order |>
      <| r_avg_fill_price := o_avg_fill_price order |>
      <| r_qty := o_quantity order |>
      <| r_last_qty := o_last_fill_qty order |>
      <| r_cum_qty := o_cum_quantity order |>
      <| r_leaves_qty := 0 |>
      <| r_creation_time := o_created_time order |>
      <| r_timestamp := o_last_update_time order |>
      <| r_request_time := request_time |>
      <| r_side := o_side order |>
      <| r_post_only := o_post_only order |>).

Definition nextTradeId (w : World) : Z * World :=
  let id := g_next_trade_id (w_glob w) in
  (id, w <| w_glob ::= fun g => g <| g_next_trade_id := u64 (id + 1) |> |>).

(** ** Self-match prevention *)

Definition isSelfMatch (incoming_order : Order) (book_order : option Order) : bool :=
  match book_order with
  | None => false
  | Some book_order =>
      if (o_client_id incoming_order =? -1) || (o_client_id book_order =? -1) then false
      else o_client_id incoming_order =? o_client_id book_order
  end.

(** Whether matching goes on; in CANCEL_RESTING mode after cancelling the resting order. *)
Definition handleSelfMatch (w : World) (book_order : ptr) (request_time event_time seq_num : Z)
  (smp_mode : SelfMatchPreventionMode) : bool * World :=
  match smp_mode with
  | SMP.NONE => (true, w)
  | SMP.CANCEL_RESTING =>
      let w := w <| w_book ::= fun b => deleteOrder b book_order event_time seq_num false |> in
      let w := publishOrderCancel w (order_at w book_order) request_time in
      (true, freeOrder w book_order)
  | SMP.CANCEL_NEWEST => (false, w)
  end.

(** [book.findOrder(id)] as an object. *)
Definition resting_order (w : World) (id : Z) : option Order :=
  order_at w <$> findOrder (w_book w) id.

(** The inner loop over a level's orders: [inl] returns from the function. *)
Fixpoint smp_scan_orders (reach : Reach) (w : World) (order : Order) (orders : list L3Order)
  (remaining : qty_t) : bool + qty_t :=
  match orders with
  | [] => inr remaining
  | book_order :: rest =>
      match reach with
      | Queue =>
          if remaining <=? 0 then inl false
          else if isSelfMatch order (resting_order w (l3_order_id book_order)) then inl true
          else smp_scan_orders reach w order rest
                 (remaining - Z.min (l3_quantity book_order) remaining)
      | ReachLevel =>
          if isSelfMatch order (resting_order w (l3_order_id book_order)) then inl true
          else smp_scan_orders reach w order rest remaining
      end
  end.

Definition beyond_limit (side : Side) (level_price order_price : price_t) : bool :=
  negb (order_price =? NULL_PRICE) && negb (isPriceBetterOrEqual side level_price order_price).

Fixpoint smp_scan_levels (side : Side) (reach : Reach) (w : World) (order : Order)
  (order_price : price_t) (levels : list Level) (remaining : qty_t) : bool :=
  match levels with
  | [] => false
  | level :: rest =>
      if remaining <=? 0 then false
      else if beyond_limit side (lv_price level) order_price then false
      else match smp_scan_orders reach w order (lv_orders level) remaining with
           | inl found => found
           | inr remaining =>
               smp_scan_levels side reach w order order_price rest
                 match reach with
                 | Queue => remaining
                 | ReachLevel => remaining - Z.min (lv_total_quantity level) remaining
                 end
           end
  end.

Definition wouldSelfMatch (side : Side) (reach : Reach) (w : World) (order : Order)
  (order_price : price_t) (order_qty : qty_t) : bool :=
  smp_scan_levels side reach w order order_price (getLevelsL3 (ob_l3 (w_book w)) side) order_qty.

(** ** Fill-or-kill *)

Fixpoint fok_scan_orders (w : World) (order : Order) (smp_mode : SelfMatchPreventionMode)
  (orders : list L3Order) (remaining : qty_t) : bool + qty_t :=
  match orders with
  | [] => inr remaining
  | book_order :: rest =>
      if negb (bool_decide (smp_mode = SMP.NONE))
         && isSelfMatch order (resting_order w (l3_order_id book_order)) then
        if bool_decide (smp_mode = SMP.CANCEL_NEWEST) then inl false
        else fok_scan_orders w order smp_mode rest remaining
      else
        let remaining := remaining - Z.min (l3_quantity book_order) remaining in
        if remaining =? 0 then inl true else fok_scan_orders w order smp_mode rest remaining
  end.

Fixpoint fok_scan_levels (side : Side) (w : World) (order : Order) (order_price : price_t)
  (smp_mode : SelfMatchPreventionMode) (levels : list Level) (remaining : qty_t) : bool :=
  match levels with
  | [] => remaining =? 0
  | level :: rest =>
      if beyond_limit side (lv_price level) order_price then remaining =? 0
      else match fok_scan_orders w order smp_mode (lv_orders level) remaining with
           | inl b => b
           | inr remaining => fok_scan_levels side w order order_price smp_mode rest remaining
           end
  end.

Definition canFillCompletely (side : Side) (w : World) (order : Order) (order_price : price_t)
  (order_qty : qty_t) (smp_mode : SelfMatchPreventionMode) : bool :=
  fok_scan_levels side w order order_price smp_mode (getLevelsL3 (ob_l3 (w_book w)) side) order_qty.

(** ** Before matching *)

Definition effective_qty (order : Order) (order_qty : qty_t) : qty_t :=
  if bool_decide (o_status order = OrderStatus.PENDING_REPLACE)
  then Z.max 0 (o_leaves_quantity order + (order_qty - o_quantity order))
  else o_leaves_quantity order.

Definition applyReplace (order : Order) (order_price : price_t) (order_qty : qty_t) : Order :=
  order <| o_quantity := order_qty |> <| o_price := order_price |>
        <| o_leaves_quantity := if order_qty <=? o_cum_quantity order then 0
                                else order_qty - o_cum_quantity order |>.

(** [Some reason] when the order is finished before matching. *)
Definition prepareOrder (side : Side) (reach : Reach) (w : World) (p : ptr) (order_price : price_t)
  (order_qty : qty_t) (request_time : time_t) (smp_mode : SelfMatchPreventionMode)
  : option OrdRejectReason * World :=
  let order := order_at w p in
  if bool_decide (smp_mode = SMP.CANCEL_NEWEST)
     && ((0 <? effective_qty order order_qty)
         && wouldSelfMatch side reach w order order_price (effective_qty order order_qty))
  then (Some OrdReject.SMP, w)
  else
    let w := if bool_decide (o_status order = OrderStatus.PENDING_NEW)
             then publishOrderAck w order request_time else w in
    if bool_decide (o_time_in_force order = TimeInForce.FILL_OR_KILL)
       && negb (canFillCompletely side w order order_price order_qty smp_mode)
    then (Some OrdReject.FOK_CANNOT_FILL, publishOrderCancel w order request_time)
    else
      let w := if bool_decide (o_status order = OrderStatus.PENDING_REPLACE) then
                 let order := applyReplace order order_price order_qty in
                 publishOrderModify (set_order w p order) order order_price order_qty request_time
               else w in
      if o_leaves_quantity (order_at w p) =? 0
      then (Some OrdReject.NONE, publishOrderCancel w (order_at w p) request_time)
      else (None, w).

(** ** Fills *)

Record MatchContext := mkContext {
  ctx_world : World;
  ctx_event_time : time_t;
  ctx_seq_num : Z;
  ctx_summaries : list TradeSummaryInfo;
  ctx_last_fill_price : price_t;
  ctx_legs_hint : nat
}.

#[export] Instance MatchContext_eta : Eta MatchContext := fun c =>
  mkContext (ctx_world c) (ctx_event_time c) (ctx_seq_num c) (ctx_summaries c)
    (ctx_last_fill_price c) (ctx_legs_hint c).

Definition new_context (w : World) (event_time seq_num : Z) : MatchContext :=
  mkContext w event_time seq_num [] NULL_PRICE 0.

(** [summaries.back()], which exists whenever a fill price is remembered. *)
Fixpoint update_last {A} (f : A -> A) (l : list A) : list A :=
  match l with
  | [] => []
  | [x] => [f x]
  | x :: r => x :: update_last f r
  end.

Definition add_leg (book_order_id : Z) (trade_qty phantom_qty : qty_t) (s : TradeSummaryInfo)
  : TradeSummaryInfo :=
  s <| ts_num_orders ::= fun n => n + 1 |>
    <| ts_qty ::= fun q => q + trade_qty |>
    <| ts_phantom_qty ::= fun q => q + phantom_qty |>
    <| ts_Trades ::= fun l =>
         match l with
         | t :: r => (t <| trd_qty ::= fun q => q + trade_qty |>) :: r
         | [] => []
         end ++ [mkTrade book_order_id trade_qty] |>.

Definition recordTrade (side : Side) (ctx : MatchContext) (aggressor_id book_order_id : Z)
  (price : price_t) (trade_qty phantom_qty : qty_t) : MatchContext :=
  if negb (ctx_last_fill_price ctx =? price) then
    let '(trade_id, w) := nextTradeId (ctx_world ctx) in
    let summary := mkSummary (ctx_event_time ctx) trade_id (opposite_side side) price trade_qty
                     phantom_qty 2 [mkTrade aggressor_id trade_qty; mkTrade book_order_id trade_qty] in
    ctx <| ctx_world := w |> <| ctx_summaries ::= fun l => l ++ [summary] |>
        <| ctx_last_fill_price := price |>
  else
    ctx <| ctx_summaries ::= update_last (add_leg book_order_id trade_qty phantom_qty) |>.

(** A client's resting order hears about its fill, and returns to the pool when complete. *)
Definition settleResting (w : World) (full_book_order : option ptr) : World :=
  match full_book_order with
  | Some fp =>
      let w := publishOrderExecution w (order_at w fp) false in
      if o_leaves_quantity (order_at w fp) =? 0
      then w <| w_book ::= fun b => deleteOrder_pooled b fp |> else w
  | None => w
  end.

(** One fill of a client order; [false] when the book declines it. *)
Definition fillResting (side : Side) (ctx : MatchContext) (p : ptr) (book_order_id : Z)
  (full_book_order : option ptr) (price : price_t) (trade_qty remaining : qty_t)
  : bool * MatchContext :=
  let w := ctx_world ctx in
  let w := set_order w p (executeOrder (order_at w p) price trade_qty (ctx_event_time ctx)) in
  let w := publishOrderExecution w (order_at w p) true in
  let '(b, ok) := executeBookOrder (w_book w) book_order_id trade_qty (ctx_event_time ctx)
                    (ctx_seq_num ctx) (remaining =? 0) in
  let w := w <| w_book := b |> in
  if negb ok then (false, ctx <| ctx_world := w |>)
  else
    let w := settleResting w full_book_order in
    (true, recordTrade side (ctx <| ctx_world := w |>) (o_id (order_at w p)) book_order_id price
             trade_qty match full_book_order with Some _ => 0 | None => trade_qty end).

(** One fill of market-data liquidity; the second component is the new [qty]. *)
Definition fillRestingFromFeed (side : Side) (ctx : MatchContext) (aggressor_id book_order_id : Z)
  (price : price_t) (trade_qty qty : qty_t) : bool * qty_t * MatchContext :=
  let w := ctx_world ctx in
  let our_order := findOrder (w_book w) book_order_id in
  let qty := qty - trade_qty in
  let '(b, ok) := executeBookOrder (w_book w) book_order_id trade_qty (ctx_event_time ctx)
                    (ctx_seq_num ctx) (qty =? 0) in
  let w := w <| w_book := b |> in
  if negb ok then (false, qty + trade_qty, ctx <| ctx_world := w |>)
  else
    let w := settleResting w our_order in
    (true, qty, recordTrade side (ctx <| ctx_world := w |>) aggressor_id book_order_id price
                  trade_qty match our_order with Some _ => 0 | None => trade_qty end).

Definition cancelUnrestableRemainder (w : World) (p : ptr) (remaining : qty_t)
  (request_time : time_t) : World :=
  if (0 <? remaining) && negb (restsRemainder (order_at w p))
  then publishOrderCancel w (order_at w p) request_time else w.

End MatchCommon.

Arguments MatchContext : clear implicits.
