(* ===== verification/MatchLemmas.v ===== *)
(** * Lemmas on scans and single fills

    [wouldSelfMatch] and [canFillCompletely] walk levels and their orders in nested loops
    with early exits; here they are read off the sweep that matching would perform. What one
    fill does to the book, to the trade summaries and to the responses is shared by the
    proofs about both engines. *)

From S2P Require Import Prelude Types FixedString Orders Messages MarketData L3Interface L3Lemmas.
From S2P Require Import OrderBook OrderBookInv OrderBookOps Sweep MatchCommon.

(** The scans on the flat queue. *)
Fixpoint smp_flat (limit : price_t -> bool) (self : Z -> bool) (fl : list (price_t * L3Order))
  (remaining : qty_t) : bool :=
  match fl with
  | [] => false
  | (p, o) :: rest =>
      if remaining <=? 0 then false
      else if negb (limit p) then false
      else if self (l3_order_id o) then true
      else smp_flat limit self rest (remaining - Z.min (l3_quantity o) remaining)
  end.

Fixpoint fok_flat (limit : price_t -> bool) (self : Z -> bool) (smp_mode : SelfMatchPreventionMode)
  (fl : list (price_t * L3Order)) (remaining : qty_t) : bool :=
  match fl with
  | [] => remaining =? 0
  | (p, o) :: rest =>
      if negb (limit p) then remaining =? 0
      else if negb (bool_decide (smp_mode = SMP.NONE)) && self (l3_order_id o) then
        if bool_decide (smp_mode = SMP.CANCEL_NEWEST) then false
        else fok_flat limit self smp_mode rest remaining
      else
        let remaining := remaining - Z.min (l3_quantity o) remaining in
        if remaining =? 0 then true else fok_flat limit self smp_mode rest remaining
  end.

(** What matching skips: only [CANCEL_RESTING] cancels on the way. *)
Definition skips (smp_mode : SelfMatchPreventionMode) (self : Z -> bool) (id : Z) : bool :=
  bool_decide (smp_mode = SMP.CANCEL_RESTING) && self id.

Definition within (side : Side) (order_price p : price_t) : bool := negb (beyond_limit side p order_price).

(** No order that the sweep acts on belongs to the client. *)
Definition untouched (self : Z -> bool) (acts : list Act) : Prop :=
  Forall (fun a => self (act_id a) = false) acts.

Lemma smp_flat_spec limit self fl qty :
  Forall (fun x => 0 < flat_qty x) fl ->
  smp_flat limit self fl qty
  = existsb (fun a => self (act_id a)) (sweep limit (fun _ => false) qty fl).1.1.
Proof.
  intros Hpos. revert qty. induction Hpos as [|[p o] rest Ho _ IH]; intros qty; [done|].
  unfold flat_qty in Ho. cbn in Ho. rewrite sweep_cons. cbn [smp_flat].
  destruct (qty <=? 0) eqn:E0; bool_to_prop.
  { rewrite (proj2 (Z.ltb_ge _ _)) by lia. done. }
  rewrite (proj2 (Z.ltb_lt _ _)) by lia. cbn [negb orb].
  destruct (negb (limit p)); [done|]. destruct (l3_quantity o <=? qty) eqn:E1; bool_to_prop; cbn [fst existsb act_id].
  - rewrite IH. replace (Z.min (l3_quantity o) qty) with (l3_quantity o) by lia. by destruct (self _).
  - replace (Z.min (l3_quantity o) qty) with qty by lia. rewrite Z.sub_diag, IH.
    destruct rest as [|[p' o'] rest]; [by destruct (self _)|]. by destruct (self _).
Qed.

Lemma sweep_zero limit skip fl : sweep limit skip 0 fl = ([], 0, fl).
Proof. by destruct fl as [|[p o] rest]. Qed.

(** All of the quantity can be had exactly when the sweep would leave nothing of it. *)
Lemma fok_flat_spec limit self smp_mode fl qty :
  Forall (fun x => 0 < flat_qty x) fl -> 0 < qty ->
  (smp_mode = SMP.CANCEL_NEWEST -> untouched self (sweep limit (skips smp_mode self) qty fl).1.1) ->
  fok_flat limit self smp_mode fl qty = ((sweep limit (skips smp_mode self) qty fl).1.2 =? 0).
Proof.
  intros Hpos. revert qty. induction Hpos as [|[p o] rest Ho _ IH]; intros qty Hq Hun; [done|].
  unfold flat_qty in Ho. cbn in Ho. rewrite sweep_cons in *. cbn [fok_flat].
  rewrite (proj2 (Z.ltb_lt 0 qty)) in * by lia.
  cbn [negb orb] in *. destruct (negb (limit p)); [done|].
  destruct (negb (bool_decide (smp_mode = SMP.NONE)) && self (l3_order_id o)) eqn:E.
  - apply andb_true_iff in E as [En Es]. destruct (bool_decide_reflect (smp_mode = SMP.CANCEL_NEWEST)) as [Hm|Hm].
    + exfalso. specialize (Hun Hm). rewrite Hm in Hun. unfold skips in Hun. cbn [negb andb] in Hun.
      rewrite bool_decide_eq_false_2 in Hun by done. cbn [andb] in Hun.
      destruct (l3_quantity o <=? qty); apply Forall_cons in Hun as [Hun _]; cbn in Hun; congruence.
    + assert (Hskip : skips smp_mode self (l3_order_id o) = true).
      { unfold skips. rewrite Es, andb_true_r. bool_to_prop. apply bool_decide_eq_true. by destruct smp_mode. }
      rewrite Hskip. cbn [fst snd]. apply IH; [done|]. intros Hm'. by destruct Hm.
  - assert (Hskip : skips smp_mode self (l3_order_id o) = false).
    { unfold skips. apply andb_false_iff in E as [E| ->]; [|apply andb_false_r]. bool_to_prop.
      by rewrite E. }
    rewrite Hskip in *. destruct (l3_quantity o <=? qty) eqn:E1; bool_to_prop; cbn [fst snd] in *.
    + replace (Z.min (l3_quantity o) qty) with (l3_quantity o) by lia.
      destruct (qty - l3_quantity o =? 0) eqn:E2; bool_to_prop; [by rewrite E2, sweep_zero|].
      apply IH; [lia|]. intros Hm. by apply (Forall_cons_1 _ _ _ (Hun Hm)).
    + by replace (qty - Z.min (l3_quantity o) qty) with 0 by lia.
Qed.

(** A limit reaches a better price whenever it reaches a worse one. *)
Lemma within_better side price a b :
  book_side side -> isPriceBetter side a b = true -> within side price b = true -> within side price a = true.
Proof.
  unfold within, beyond_limit. intros [-> | ->]; cbn; intros H1 H2; bool_to_prop;
    apply negb_true_iff, andb_false_iff; destruct H2 as [H2|H2]; auto; right; bool_to_prop;
    apply negb_false_iff, Z.leb_le; lia.
Qed.

Lemma within_cut side price ls :
  book_side side -> side_ok side ls ->
  StronglySorted (fun x y => within side price y.1 = true -> within side price x.1 = true) (flat ls).
Proof.
  intros Hside [_ Hs]. induction Hs as [|l ls Hs IH Hall]; [constructor|]. rewrite flat_cons.
  generalize (lv_orders l). intros os. induction os as [|o os IHos]; [exact IH|]. cbn [map app].
  constructor; [exact IHos|]. apply Forall_app. split.
  - apply Forall_map, Forall_forall. done.
  - apply Forall_forall. intros x Hx. rewrite Forall_forall in Hall.
    unfold flat in Hx. apply list_elem_of_In, in_concat in Hx as (fl & Hfl & Hin).
    apply in_map_iff in Hfl as (l' & <- & Hl'). apply in_map_iff in Hin as (o' & <- & _). cbn.
    apply within_better; [done|]. apply Hall. by apply list_elem_of_In.
Qed.

Section Scans.
Context {L3 Pool : Type} {l3ops : L3Ops L3} {laws : L3Laws L3} {poolops : ObjectPool Pool}
  {env : Environment}.
Abbreviation World := (World L3 Pool).
Implicit Types w : World.

(** Whether a resting order, by its number, is the same client's. *)
Definition self w (order : Order) (id : Z) : bool := isSelfMatch order (resting_order w id).

(** The queue of a side. *)
Definition queue w (side : Side) : list (price_t * L3Order) := flat (getLevelsL3 (ob_l3 (w_book w)) side).

Lemma smp_scan_orders_flat limit w order p os rest qty :
  limit p = true ->
  smp_flat limit (self w order) (map (pair p) os ++ rest) qty
  = match smp_scan_orders Queue w order os qty with
    | inl found => found
    | inr remaining => smp_flat limit (self w order) rest remaining
    end.
Proof.
  intros Hp. revert qty. induction os as [|o os IH]; intros qty; [done|].
  cbn [map app smp_flat smp_scan_orders]. destruct (qty <=? 0); [done|]. rewrite Hp. cbn [negb].
  unfold self at 1. destruct (isSelfMatch _ _); [done|]. apply IH.
Qed.

Lemma smp_scan_levels_flat side w order price ls qty :
  side_ok side ls ->
  smp_scan_levels side Queue w order price ls qty
  = smp_flat (within side price) (self w order) (flat ls) qty.
Proof.
  intros [Hl _]. revert qty. induction Hl as [|l ls (Hne & _ & _) _ IH]; intros qty; [done|].
  rewrite flat_cons. cbn [smp_scan_levels]. destruct (qty <=? 0) eqn:E0.
  { destruct (lv_orders l) as [|o os]; [done|]. cbn [map app smp_flat]. by rewrite E0. }
  destruct (beyond_limit side (lv_price l) price) eqn:Eb.
  { destruct (lv_orders l) as [|o os]; [done|]. cbn [map app smp_flat]. unfold within. by rewrite E0, Eb. }
  rewrite smp_scan_orders_flat by (unfold within; by rewrite Eb).
  destruct (smp_scan_orders Queue w order (lv_orders l) qty); [done|apply IH].
Qed.

Lemma fok_scan_orders_flat limit w order smp_mode p os rest qty :
  limit p = true ->
  fok_flat limit (self w order) smp_mode (map (pair p) os ++ rest) qty
  = match fok_scan_orders w order smp_mode os qty with
    | inl b => b
    | inr remaining => fok_flat limit (self w order) smp_mode rest remaining
    end.
Proof.
  intros Hp. revert qty. induction os as [|o os IH]; intros qty; [done|].
  cbn [map app fok_flat fok_scan_orders]. rewrite Hp. cbn [negb]. cbv zeta.
  change (isSelfMatch order (resting_order w (l3_order_id o))) with (self w order (l3_order_id o)).
  destruct (_ && _); [by destruct (bool_decide _)|]. by destruct (_ =? 0).
Qed.

Lemma fok_scan_levels_flat side w order price smp_mode ls qty :
  side_ok side ls ->
  fok_scan_levels side w order price smp_mode ls qty
  = fok_flat (within side price) (self w order) smp_mode (flat ls) qty.
Proof.
  intros [Hl _]. revert qty. induction Hl as [|l ls (Hne & _ & _) _ IH]; intros qty; [done|].
  rewrite flat_cons. cbn [fok_scan_levels].
  destruct (beyond_limit side (lv_price l) price) eqn:Eb.
  { destruct (lv_orders l) as [|o os]; [done|]. cbn [map app fok_flat]. unfold within. by rewrite Eb. }
  rewrite fok_scan_orders_flat by (unfold within; by rewrite Eb).
  destruct (fok_scan_orders w order smp_mode (lv_orders l) qty); [done|apply IH].
Qed.

Lemma queue_pos w side :
  book_ok (ob_l3 (w_book w)) -> book_side side -> Forall (fun x => 0 < flat_qty x) (queue w side).
Proof.
  intros Hb Hs. apply Forall_forall. intros x Hx.
  eapply flat_pos; [|exact Hx]. by apply book_side_ok.
Qed.

(** In queue order, the scan looks exactly at the orders that matching would act on. *)
Lemma wouldSelfMatch_spec side w order price qty :
  book_ok (ob_l3 (w_book w)) -> book_side side ->
  wouldSelfMatch side Queue w order price qty
  = existsb (fun a => self w order (act_id a))
      (sweep (within side price) (fun _ => false) qty (queue w side)).1.1.
Proof.
  intros Hb Hs. unfold wouldSelfMatch. rewrite smp_scan_levels_flat by by apply book_side_ok.
  apply smp_flat_spec. by apply queue_pos.
Qed.

Lemma canFillCompletely_spec side w order price qty smp_mode :
  book_ok (ob_l3 (w_book w)) -> book_side side -> 0 < qty ->
  (smp_mode = SMP.CANCEL_NEWEST ->
     untouched (self w order)
       (sweep (within side price) (skips smp_mode (self w order)) qty (queue w side)).1.1) ->
  canFillCompletely side w order price qty smp_mode
  = ((sweep (within side price) (skips smp_mode (self w order)) qty (queue w side)).1.2 =? 0).
Proof.
  intros Hb Hs Hq Hun. unfold canFillCompletely. rewrite fok_scan_levels_flat by by apply book_side_ok.
  apply fok_flat_spec; [by apply queue_pos|done|done].
Qed.
End Scans.

(** ** Trade summaries as the record of the fills *)

(** The resting legs of the summaries, in order, with the price they traded at. *)
Definition summary_legs (s : TradeSummaryInfo) : list (price_t * Z * qty_t) :=
  map (fun t => (ts_price s, trd_order_id t, trd_qty t)) (tail (ts_Trades s)).

Definition legs (l : list TradeSummaryInfo) : list (price_t * Z * qty_t) :=
  List.concat (map summary_legs l).

Arguments legs : simpl never.
Arguments summary_legs : simpl never.

(** One summary: the aggressor's leg carries the total of the resting legs, the order count
    is the number of legs, and the phantom share is what no client order took. *)
Record summary_ok (side : Side) (aggressor ts : Z) (own : Z -> bool) (s : TradeSummaryInfo) : Prop := {
  so_timestamp : ts_timestamp s = ts;
  so_side : ts_aggressor_side s = opposite_side side;
  so_head : head (ts_Trades s) = Some (mkTrade aggressor (ts_qty s));
  so_total : ts_qty s = zsum (map fill_qty (summary_legs s));
  so_count : ts_num_orders s = Z.of_nat (List.length (ts_Trades s));
  so_phantom : ts_phantom_qty s
               = zsum (map (fun f => if own (fill_id f) then 0 else fill_qty f) (summary_legs s))
}.

(** Ids drawn one after another from the engine's counter. *)
Definition trade_ids (t0 : Z) (n : nat) : list Z := map (fun i => u64 (t0 + Z.of_nat i)) (seq 0 n).

Arguments trade_ids : simpl never.

Lemma trade_ids_snoc t0 n : trade_ids t0 (S n) = trade_ids t0 n ++ [u64 (t0 + Z.of_nat n)].
Proof. unfold trade_ids. by rewrite seq_S, map_app. Qed.

(** The summaries record exactly these fills: each fill is one leg, in order, and a new
    summary starts exactly when the price changes. *)
Record records (side : Side) (aggressor ts : Z) (own : Z -> bool) (t0 : Z)
    (fills : list (price_t * Z * qty_t)) (l : list TradeSummaryInfo) : Prop := {
  rc_legs : legs l = fills;
  rc_ok : Forall (summary_ok side aggressor ts own) l;
  rc_ids : map ts_trade_id l = trade_ids t0 (List.length l);
  rc_distinct : forall i s1 s2, l !! i = Some s1 -> l !! S i = Some s2 -> ts_price s1 <> ts_price s2
}.

Lemma legs_app l1 l2 : legs (l1 ++ l2) = legs l1 ++ legs l2.
Proof. unfold legs. by rewrite map_app, concat_app. Qed.

Lemma legs_snoc l s : legs (l ++ [s]) = legs l ++ summary_legs s.
Proof. rewrite legs_app. unfold legs at 2. cbn. by rewrite app_nil_r. Qed.

Lemma summaries_total side agg ts own l :
  Forall (summary_ok side agg ts own) l -> zsum (map ts_qty l) = zsum (map fill_qty (legs l)).
Proof.
  induction 1 as [|s l Hs _ IH]; [done|].
  change (legs (s :: l)) with (summary_legs s ++ legs l). cbn [map zsum].
  by rewrite map_app, zsum_app, IH, (so_total _ _ _ _ _ Hs).
Qed.

Lemma update_last_snoc {A} (f : A -> A) l x : update_last f (l ++ [x]) = l ++ [f x].
Proof. induction l as [|y l IH]; [done|]. cbn [app update_last]. rewrite IH. by destruct l. Qed.

(** ** Responses as reports *)

(** What a client reads off a response: a fill with its price and quantity, or another
    kind of report. *)
Inductive Report :=
  RepTrade (order : Z) (aggressor : bool) (price : price_t) (qty : qty_t)
| RepOther (order : Z) (kind : ExecType).

Definition report_of (r : OrderResponse) : Report :=
  if bool_decide (r_exec_type r = ExecType.TRADE)
  then RepTrade (r_order_num r) (r_aggressor r) (r_last_fill_price r) (r_last_qty r)
  else RepOther (r_order_num r) (r_exec_type r).

Section Fills.
Context {L3 Pool : Type} {l3ops : L3Ops L3} {laws : L3Laws L3} {poolops : ObjectPool Pool}
  {poollaws : PoolLaws Pool} {env : Environment}.
Abbreviation OrderBook := (OrderBook L3 Pool).
Abbreviation World := (World L3 Pool).
Abbreviation MatchContext := (MatchContext L3 Pool).
Implicit Types w : World.
Implicit Types ctx : MatchContext.

(** The context of a match that has recorded these fills. *)
Record ctx_records (side : Side) (aggressor : Z) (own : Z -> bool) (t0 : Z)
    (fills : list (price_t * Z * qty_t)) ctx : Prop := {
  cr_records : records side aggressor (ctx_event_time ctx) own t0 fills (ctx_summaries ctx);
  cr_last : ctx_last_fill_price ctx
            = match last (ctx_summaries ctx) with Some s => ts_price s | None => NULL_PRICE end;
  cr_next : g_next_trade_id (w_glob (ctx_world ctx))
            = u64 (t0 + Z.of_nat (List.length (ctx_summaries ctx)))
}.

Lemma add_leg_ok side aggressor ts own s id q :
  summary_ok side aggressor ts own s ->
  let s' := add_leg id q (if own id then 0 else q) s in
  summary_ok side aggressor ts own s' /\ summary_legs s' = summary_legs s ++ [(ts_price s, id, q)]
  /\ ts_price s' = ts_price s /\ ts_trade_id s' = ts_trade_id s.
Proof.
  intros [H1 H2 H3 H4 H5 H6] s'.
  destruct s as [ts' tid aside pr qty ph n trades]. cbn in *.
  destruct trades as [|t trades]; [done|]. injection H3 as ->.
  assert (El : summary_legs s' = map (fun t => (pr, trd_order_id t, trd_qty t)) trades ++ [(pr, id, q)]).
  { unfold summary_legs, s', add_leg. cbn. by rewrite map_app. }
  split; [|split; [exact El|done]].
  split; rewrite ?El; cbn; try done.
  - rewrite map_app, zsum_app. unfold summary_legs in H4. cbn in H4. cbn. lia.
  - rewrite length_app. cbn [List.length] in *. lia.
  - rewrite map_app, zsum_app. unfold summary_legs in H6. cbn in H6. cbn. lia.
Qed.

(** A recorded fill is one more leg. *)
Lemma recordTrade_records side aggressor own t0 fills ctx id p q :
  ctx_records side aggressor own t0 fills ctx -> p <> NULL_PRICE ->
  let ctx' := recordTrade side ctx aggressor id p q (if own id then 0 else q) in
  ctx_records side aggressor own t0 (fills ++ [(p, id, q)]) ctx'
  /\ w_book (ctx_world ctx') = w_book (ctx_world ctx)
  /\ w_responses (ctx_world ctx') = w_responses (ctx_world ctx)
  /\ w_md (ctx_world ctx') = w_md (ctx_world ctx)
  /\ ctx_event_time ctx' = ctx_event_time ctx /\ ctx_seq_num ctx' = ctx_seq_num ctx.
Proof.
  intros [[H1 H2 H3 H4] H5 H6] Hp ctx'. unfold ctx', recordTrade.
  destruct (negb (ctx_last_fill_price ctx =? p)) eqn:E; bool_to_prop.
  - cbn [nextTradeId]. split; [|done]. split; [split| |]; cbn.
    + rewrite legs_app, H1. done.
    + apply Forall_app. split; [done|]. constructor; [|done]. split; unfold summary_legs; cbn; try done.
      * unfold fill_qty. cbn. lia.
      * unfold fill_id, fill_qty. cbn. destruct (own id); lia.
    + rewrite map_app, H3, length_app. cbn [List.length map].
      replace (List.length (ctx_summaries ctx) + 1)%nat with (S (List.length (ctx_summaries ctx))) by lia.
      rewrite trade_ids_snoc, <- H6. done.
    + intros i s1 s2 Hs1 Hs2. destruct (decide (S i < List.length (ctx_summaries ctx))%nat).
      * rewrite lookup_app_l in Hs1, Hs2 by lia. by eapply H4.
      * rewrite lookup_app_r in Hs2 by lia.
        apply lookup_lt_Some in Hs2 as Hlt. cbn in Hlt.
        replace (S i - List.length (ctx_summaries ctx))%nat with O in Hs2 by lia. injection Hs2 as <-.
        rewrite lookup_app_l in Hs1 by lia. cbn. intros Heq. apply E. rewrite H5, last_lookup.
        replace (pred (List.length (ctx_summaries ctx))) with i by lia. by rewrite Hs1.
    + by rewrite last_snoc.
    + rewrite length_app, H6. cbn [List.length]. unfold wrap. rewrite Zplus_mod_idemp_l. f_equal. lia.
  - destruct (ctx_summaries ctx) as [|s0 l0] eqn:El using rev_ind.
    { exfalso. apply Hp. rewrite <- E, H5. done. }
    clear IHl0. rewrite last_snoc in H5. apply Forall_app in H2 as [H2 [Hs _]%Forall_cons].
    destruct (add_leg_ok _ _ _ _ s0 id q Hs) as (Hs' & Hlegs & Hprice & Htid).
    split; [|done]. assert (E' : p = ts_price s0) by congruence.
    split; [split| |]; cbn; rewrite ?El, ?update_last_snoc.
    + rewrite legs_snoc in *. by rewrite Hlegs, <- H1, E', app_assoc.
    + apply Forall_app. split; [done|]. by constructor.
    + rewrite map_app, length_app in *. cbn [map List.length] in *. by rewrite Htid.
    + intros i s1 s2 Hs1 Hs2. rewrite lookup_app_Some in Hs1, Hs2.
      assert (Hl : forall j s, (l0 !! j = Some s \/ (List.length l0 <= j)%nat
          /\ [add_leg id q (if own id then 0 else q) s0] !! (j - List.length l0)%nat = Some s) ->
        exists s', (l0 ++ [s0]) !! j = Some s' /\ ts_price s' = ts_price s).
      { intros j s [Hj|[Hj1 Hj2]].
        - exists s. split; [|done]. apply lookup_app_Some. by left.
        - apply list_lookup_singleton_Some in Hj2 as [Hj2 <-]. exists s0. split; [|done].
          apply lookup_app_Some. right. split; [done|]. by rewrite Hj2. }
      destruct (Hl i s1 Hs1) as (s1' & L1 & <-), (Hl (S i) s2 Hs2) as (s2' & L2 & <-).
      by eapply H4.
    + by rewrite last_snoc, H5.
    + rewrite H6, !length_app. done.
Qed.

Lemma recordTrade_stepped side ctx agg id p q ph :
  stepped (ctx_world ctx) (ctx_world (recordTrade side ctx agg id p q ph)).
Proof.
  unfold recordTrade. case_test; apply stepped_quiet; try done.
  do 4 (split; [done|]). intros _. by apply wrap_range.
Qed.

(** ** Responses *)

Lemma publish_response_frame w f :
  w_book (publish_response w f) = w_book w /\ w_glob (publish_response w f) = w_glob w
  /\ w_md (publish_response w f) = w_md w.
Proof. done. Qed.

(** The reports a world has published since another. *)
Definition published w w' (rs : list Report) : Prop :=
  exists l, w_responses w' = w_responses w ++ l /\ map report_of l = rs.

Lemma published_nil w w' : w_responses w' = w_responses w -> published w w' [].
Proof. intros E. exists []. by rewrite app_nil_r. Qed.

Lemma published_trans w1 w2 w3 a b :
  published w1 w2 a -> published w2 w3 b -> published w1 w3 (a ++ b).
Proof.
  intros (l1 & E1 & <-) (l2 & E2 & <-). exists (l1 ++ l2).
  rewrite E2, E1, map_app, app_assoc. done.
Qed.

(** Responses are only ever appended. *)
Definition heard w w' : Prop := exists l, w_responses w' = w_responses w ++ l.

#[export] Instance heard_refl : Reflexive heard.
Proof. intros w. exists []. by rewrite app_nil_r. Qed.

#[export] Instance heard_trans : Transitive heard.
Proof. intros w1 w2 w3 (l1 & E1) (l2 & E2). exists (l1 ++ l2). by rewrite E2, E1, app_assoc. Qed.

Lemma heard_publish w f : heard w (publish_response w f).
Proof. by eexists. Qed.

Lemma heard_published w w' rs : published w w' rs -> heard w w'.
Proof. intros (l & E & _). by exists l. Qed.

Lemma published_execution w order aggressor :
  published w (publishOrderExecution w order aggressor)
    [RepTrade (o_id order) aggressor (o_last_fill_price order) (o_last_fill_qty order)].
Proof. eexists. split; done. Qed.

Lemma published_cancel w order t :
  published w (publishOrderCancel w order t) [RepOther (o_id order) ExecType.CANCELED].
Proof. eexists. split; done. Qed.

(** ** One execution against the front of a side, settled *)

Lemma pool_inv but (b : OrderBook) f : book_inv but b -> book_inv but (b <| ob_pool ::= f |>).
Proof. intros [H1 H2 H3 H4 H5]. by split. Qed.

(** What an order is after trading [t]. *)
Definition leftover (p : price_t) (o : L3Order) (t : qty_t) : list (price_t * L3Order) :=
  if l3_quantity o - t =? 0 then [] else [(p, o <| l3_quantity := l3_quantity o - t |>)].

Lemma leftover_all p o : leftover p o (l3_quantity o) = [].
Proof. unfold leftover. by rewrite Z.sub_diag. Qed.

Lemma leftover_part p o t : t < l3_quantity o -> leftover p o t = [(p, o <| l3_quantity := l3_quantity o - t |>)].
Proof. intros H. unfold leftover. by rewrite (proj2 (Z.eqb_neq _ 0)) by lia. Qed.

(** The entries of a queue and of the lookup map that a trade does not end are as before. *)
Lemma leftover_stable (orders : gmap Z Z) pre p o post t :
  NoDup (map flat_id (pre ++ (p, o) :: post)) ->
  let orders' := if l3_quantity o - t =? 0 then delete (l3_order_id o) orders else orders in
  Forall (fun e => exists e0, e0 ∈ pre ++ (p, o) :: post /\ e.1 = e0.1 /\ flat_id e = flat_id e0
                              /\ orders' !! flat_id e = orders !! flat_id e) (pre ++ leftover p o t ++ post).
Proof.
  intros Hnd orders'. pose proof (proj2 (flat_set_at _ 0 _ _ _ _ Hnd eq_refl)) as Hnin.
  assert (Hkeep : forall e, e ∈ pre ++ post -> exists e0, e0 ∈ pre ++ (p, o) :: post /\ e.1 = e0.1
      /\ flat_id e = flat_id e0 /\ orders' !! flat_id e = orders !! flat_id e).
  { intros e He. exists e. rewrite elem_of_app, elem_of_cons in *. split; [tauto|].
    split; [done|]. split; [done|]. unfold orders'. case_test; [|done]. apply lookup_delete_ne.
    intros E. apply Hnin. rewrite E. apply list_elem_of_fmap_2. by apply elem_of_app. }
  apply Forall_forall. intros e. rewrite !elem_of_app. intros [He|[He|He]].
  - apply Hkeep, elem_of_app. by left.
  - unfold leftover, orders' in *. destruct (l3_quantity o - t =? 0); [by apply elem_of_nil in He|].
    apply list_elem_of_singleton in He as ->. exists (p, o). split; [|done].
    rewrite elem_of_app, elem_of_cons. auto.
  - apply Hkeep, elem_of_app. by right.
Qed.

Record filled_at (but : option Z) w w' (s : Side) (pre : list (price_t * L3Order)) (p : price_t) (o : L3Order)
    (post : list (price_t * L3Order)) (t ts seq : Z) : Prop := {
  ff_inv : book_inv but (w_book w');
  ff_accepted : seq_accepted (ob_l3 (w_book w')) seq = true;
  ff_queue : flat (getLevelsL3 (ob_l3 (w_book w')) s) = pre ++ leftover p o t ++ post;
  ff_other : getLevelsL3 (ob_l3 (w_book w')) (opposite_side s)
             = getLevelsL3 (ob_l3 (w_book w)) (opposite_side s);
  ff_heap y : ob_heap (w_book w') y
    = if bool_decide (ob_orders (w_book w) !! l3_order_id o = Some y)
      then executeOrder (ob_heap (w_book w) y) p t ts else ob_heap (w_book w) y;
  ff_orders : ob_orders (w_book w') = if l3_quantity o - t =? 0
      then delete (l3_order_id o) (ob_orders (w_book w)) else ob_orders (w_book w);
  ff_glob : w_glob w' = w_glob w;
  ff_md : w_md w' = w_md w;
  ff_published : published w w'
    (if bool_decide (is_Some (ob_orders (w_book w) !! l3_order_id o))
     then [RepTrade (l3_order_id o) false p t] else []);
  ff_stepped : stepped w w'
}.

Lemma fill_at but w s pre p o post t ts seq last :
  book_inv but (w_book w) -> book_side s -> seq_accepted (ob_l3 (w_book w)) seq = true ->
  flat (getLevelsL3 (ob_l3 (w_book w)) s) = pre ++ (p, o) :: post -> 0 < t <= l3_quantity o ->
  but <> Some (l3_order_id o) ->
  let '(b, ok) := executeBookOrder (w_book w) (l3_order_id o) t ts seq last in
  ok = true
  /\ filled_at but w (settleResting (w <| w_book := b |>) (findOrder (w_book w) (l3_order_id o)))
       s pre p o post t ts seq.
Proof.
  intros Hb Hs Ha Hflat Ht Hbut.
  assert (Hin : (p, o) ∈ flat (getLevelsL3 (ob_l3 (w_book w)) s)).
  { rewrite Hflat, elem_of_app. right. by apply elem_of_cons; left. }
  pose proof (execute_book but (w_book w) s p o t ts seq last Hb Hs Ha Hin Ht Hbut) as He.
  destruct (executeBookOrder _ _ _ _ _ _) as [b ok]. destruct He as [-> He]. split; [done|].
  pose proof (side_ids_nodup _ s (bi_l3 but _ Hb) Hs) as Hnd. rewrite Hflat in Hnd.
  destruct He as [H1 H2 H3 H4 H5 H6 H7 H8].
  rewrite Hflat, (proj1 (flat_set_at _ _ _ _ _ _ Hnd eq_refl)) in H3.
  unfold findOrder. destruct (ob_orders (w_book w) !! l3_order_id o) as [x|] eqn:Ex; cbn [settleResting].
  2: { split; rewrite ?Ex; try done; [by apply published_nil|].
       split; [done| |intros y Hy; left; unfold live; cbn; by rewrite H7|done].
       cbn. rewrite H6. case_test; [apply delete_subseteq|done]. }
  destruct (own_entry but (w_book w) _ x s p o Hb Hs Ex Hin eq_refl) as (Eid & _ & Hv).
  destruct (Hv Hbut) as (_ & El & _). clear Hv.
  set (w1 := publishOrderExecution _ _ _).
  assert (Eo : order_at w1 x = executeOrder (ob_heap (w_book w) x) p t ts).
  { change (order_at w1 x) with (ob_heap b x). by rewrite H5, bool_decide_eq_true_2. }
  assert (Hpub : published w w1 [RepTrade (l3_order_id o) false p t]).
  { pose proof (published_execution (w <| w_book := b |>) (order_at w1 x) false) as Hp.
    rewrite Eo in Hp. cbn [o_id o_last_fill_price o_last_fill_qty executeOrder upd] in Hp.
    rewrite Eid in Hp. rewrite <- Eo in Hp. exact Hp. }
  destruct (o_leaves_quantity (order_at w1 x) =? 0) eqn:E0.
  - assert (El0 : l3_quantity o - t = 0).
    { rewrite Eo in E0. bool_to_prop. cbn in E0. lia. }
    assert (Ed : deleteOrder_pooled b x = b <| ob_pool ::= pool_free x |>).
    { unfold deleteOrder_pooled. change (ob_heap b x) with (order_at w1 x). rewrite Eo.
      change (o_id (executeOrder ?o p t ts)) with (o_id o). rewrite Eid, H6, El0. cbn [Z.eqb].
      by rewrite lookup_delete_eq. }
    assert (Ew : w_book (w1 <| w_book ::= fun b => deleteOrder_pooled b x |>) = b <| ob_pool ::= pool_free x |>)
      by exact Ed.
    split; rewrite ?Ew, ?Ex; try done.
    + by apply pool_inv.
    + eapply (stepped_removed _ _ (l3_order_id o) x); rewrite ?Ew; [|exact Ex| | |done].
      * eapply level_step_same; [exact H8|done|done].
      * cbn. by rewrite H6, El0.
      * cbn. by rewrite H7.
  - split; rewrite ?Ex; try done.
    split; [exact H8| |intros y Hy; left; unfold live; change (ob_pool (w_book w1)) with (ob_pool b); by rewrite H7|done].
    change (ob_orders (w_book w1)) with (ob_orders b). rewrite H6. case_test; [apply delete_subseteq|done].
Qed.
End Fills.
