(* ===== verification/FifoEngine.v ===== *)
(** * The FIFO matching engine

    Models [src/matching_engine/fifo_matching_engine.cpp]. Each [while] loop runs on fuel
    computed from the number of resting orders on the side it sweeps. *)

From S2P Require Import Prelude Types FixedString Orders Messages MarketData L3Interface.
From S2P Require Import L3Lemmas OrderBook MatchCommon.

Section Fifo.
Context {L3 Pool : Type} {l3ops : L3Ops L3} {poolops : ObjectPool Pool} {env : Environment}.
Abbreviation World := (World L3 Pool).
Abbreviation MatchContext := (MatchContext L3 Pool).

(** Every iteration takes an order off the side or exhausts the quantity; one more finds
    the loop over. *)
Definition loop_fuel (w : World) (side : Side) : nat :=
  S (S (List.length (flat (getLevelsL3 (ob_l3 (w_book w)) side)))).

(** One iteration of [matchOrder]'s loop on the context and [order_qty]. *)
Definition fifo_match_step (side : Side) (p : ptr) (order_price : price_t) (request_time : time_t)
  (smp_mode : SelfMatchPreventionMode) (st : MatchContext * qty_t) : flow * (MatchContext * qty_t) :=
  let '(ctx, order_qty) := st in
  if negb (0 <? order_qty) then (Break, st)
  else
    let w := ctx_world ctx in
    match getBestLevel (ob_l3 (w_book w)) side with
    | None => (Break, st)
    | Some best_level =>
        if beyond_limit side (lv_price best_level) order_price then (Break, st)
        else
          match lv_orders best_level with
          | [] => (Break, st)
          | book_order :: _ =>
              let full_book_order := findOrder (w_book w) (l3_order_id book_order) in
              if negb (bool_decide (smp_mode = SMP.NONE))
                 && isSelfMatch (order_at w p) (order_at w <$> full_book_order) then
                match full_book_order with
                | None => (Break, st)
                | Some fp =>
                    let '(should_continue, w) :=
                      handleSelfMatch w fp request_time (ctx_event_time ctx) (ctx_seq_num ctx) smp_mode in
                    let st := (ctx <| ctx_world := w |>, order_qty) in
                    if negb should_continue then (Return, st) else (Continue, st)
                end
              else
                let trade_qty := Z.min order_qty (l3_quantity book_order) in
                let order_qty := order_qty - trade_qty in
                let '(ok, ctx) := fillResting side ctx p (l3_order_id book_order) full_book_order
                                    (lv_price best_level) trade_qty order_qty in
                if negb ok then (Break, (ctx, order_qty)) else (Continue, (ctx, order_qty))
          end
    end.

(** [matchOrder<SIDE>]: reject reason, summaries, world. *)
Definition fifo_matchOrder (side : Side) (w : World) (p : ptr) (order_price : price_t)
  (order_qty : qty_t) (request_time event_time seq_num : Z) (smp_mode : SelfMatchPreventionMode)
  : option (OrdRejectReason * list TradeSummaryInfo * World) :=
  match prepareOrder side Queue w p order_price order_qty request_time smp_mode with
  | (Some done, w) => Some (done, [], w)
  | (None, w) =>
      let ctx := new_context w event_time seq_num in
      let order_qty := o_leaves_quantity (order_at w p) in
      match while_loop (fifo_match_step side p order_price request_time smp_mode)
              (loop_fuel w side) (ctx, order_qty) with
      | None => None
      | Some (Return, (ctx, _)) => Some (OrdReject.SMP, ctx_summaries ctx, ctx_world ctx)
      | Some (_, (ctx, order_qty)) =>
          Some (OrdReject.NONE, ctx_summaries ctx,
                cancelUnrestableRemainder (ctx_world ctx) p order_qty request_time)
      end
  end.

(** One iteration of [matchFeed]'s loop. *)
Definition fifo_feed_step (side : Side) (order_id : Z) (price : price_t)
  (st : MatchContext * qty_t) : flow * (MatchContext * qty_t) :=
  let '(ctx, qty) := st in
  if negb (0 <? qty) then (Break, st)
  else
    match getBestLevel (ob_l3 (w_book (ctx_world ctx))) side with
    | None => (Break, st)
    | Some best_level =>
        if beyond_limit side (lv_price best_level) price then (Break, st)
        else
          match lv_orders best_level with
          | [] => (Break, st)
          | book_order :: _ =>
              let '(ok, qty, ctx) :=
                fillRestingFromFeed side ctx order_id (l3_order_id book_order) (lv_price best_level)
                  (Z.min qty (l3_quantity book_order)) qty in
              if negb ok then (Break, (ctx, qty)) else (Continue, (ctx, qty))
          end
    end.

(** [matchFeed<SIDE>]: summaries, the remaining quantity, world. *)
Definition fifo_matchFeed (side : Side) (w : World) (order_id : Z) (price : price_t) (qty : qty_t)
  (event_time seq_num : Z) : option (list TradeSummaryInfo * qty_t * World) :=
  match while_loop (fifo_feed_step side order_id price) (loop_fuel w side)
          (new_context w event_time seq_num, qty) with
  | None => None
  | Some (_, (ctx, qty)) => Some (ctx_summaries ctx, qty, ctx_world ctx)
  end.

(** [FifoMatchingEngine::match], on an order and on market data. *)
Definition fifo_match (w : World) (p : ptr) (order_price : price_t) (order_qty : qty_t)
  (request_time event_time seq_num : Z) (smp_mode : SelfMatchPreventionMode) :=
  if bool_decide (o_side (order_at w p) = BUY)
  then fifo_matchOrder SELL w p order_price order_qty request_time event_time seq_num smp_mode
  else fifo_matchOrder BUY w p order_price order_qty request_time event_time seq_num smp_mode.

Definition fifo_match_feed (w : World) (side : Side) (order_id : Z) (price : price_t) (qty : qty_t)
  (event_time seq_num : Z) :=
  if bool_decide (side = BUY)
  then fifo_matchFeed SELL w order_id price qty event_time seq_num
  else fifo_matchFeed BUY w order_id price qty event_time seq_num.

End Fifo.
