(* ===== verification/FifoProofs.v ===== *)
(** * FIFO matching implements the sweep

    Both loops of the engine against [sweep]: they terminate within their fuel, perform
    exactly its fills and cancels, and leave exactly its queue. *)

From S2P Require Import Prelude Types FixedString Orders Messages MarketData L3Interface.
From S2P Require Import L3Lemmas L3Reference OrderBook OrderBookInv Concrete.
From S2P Require Import OrderBookOps Sweep MatchCommon MatchLemmas FifoEngine.

(** A client order that traded heard about it. *)
Definition resting_report (own : Z -> bool) (f : price_t * Z * qty_t) : list Report :=
  if own (fill_id f) then [RepTrade (fill_id f) false (fill_price f) (fill_qty f)] else [].

(** The fills booked on the client orders among the resting ones. *)
Definition book_resting (orders : gmap Z Z) (ts : Z) (heap : Z -> Order)
  (fills : list (price_t * Z * qty_t)) : Z -> Order :=
  fold_left (fun h f => match orders !! fill_id f with
                        | Some y => <[y := executeOrder (h y) (fill_price f) (fill_qty f) ts]> h
                        | None => h
                        end) fills heap.

Lemma book_resting_at orders ts fills h1 h2 y :
  h1 y = h2 y -> book_resting orders ts h1 fills y = book_resting orders ts h2 fills y.
Proof.
  revert h1 h2. induction fills as [|f fills IH]; intros h1 h2 E; [done|]. cbn. apply IH.
  destruct (orders !! fill_id f) as [z|]; [|done].
  destruct (decide (y = z)) as [->|]; [by rewrite !fn_lookup_insert, E|by rewrite !fn_lookup_insert_ne].
Qed.

Lemma book_resting_app orders ts fills1 fills2 h y :
  book_resting orders ts h (fills1 ++ fills2) y
  = book_resting orders ts (book_resting orders ts h fills1) fills2 y.
Proof. unfold book_resting. by rewrite fold_left_app. Qed.

Section Fifo.
Context {L3 Pool : Type} {l3ops : L3Ops L3} {laws : L3Laws L3} {poolops : ObjectPool Pool}
  {poollaws : PoolLaws Pool} {env : Environment}.
Abbreviation World := (World L3 Pool).
Abbreviation MatchContext := (MatchContext L3 Pool).
Implicit Types w : World.
Implicit Types ctx : MatchContext.

Definition is_own w (id : Z) : bool := bool_decide (is_Some (ob_orders (w_book w) !! id)).

(** The entries of a queue that a sweep may reach: real prices, none being amended, and
    client orders as they were at the start. *)
Definition reachable_queue (but : option Z) (orders0 : gmap Z Z) w (fl : list (price_t * L3Order)) : Prop :=
  Forall (fun x => x.1 <> NULL_PRICE /\ but <> Some (flat_id x)
                   /\ ob_orders (w_book w) !! flat_id x = orders0 !! flat_id x) fl.

(** ** Market data against the book *)

(** What a feed sweep has done between two worlds. *)
Record fed (but : option Z) (side : Side) (orders0 : gmap Z Z) (ts seq : Z) w w'
    (fills : list (price_t * Z * qty_t)) (fl' : list (price_t * L3Order)) : Prop := {
  fd_inv : book_inv but (w_book w');
  fd_accepted : seq_accepted (ob_l3 (w_book w')) seq = true;
  fd_queue : queue w' side = fl';
  fd_other : getLevelsL3 (ob_l3 (w_book w')) (opposite_side side)
             = getLevelsL3 (ob_l3 (w_book w)) (opposite_side side);
  fd_heap y : ob_heap (w_book w') y = book_resting orders0 ts (ob_heap (w_book w)) fills y;
  fd_md : w_md w' = w_md w;
  fd_published : published w w'
    (flat_map (resting_report (fun id => bool_decide (is_Some (orders0 !! id)))) fills);
  fd_stepped : stepped w w';
  fd_entries e : e ∈ queue w' side -> exists e0, e0 ∈ queue w side /\ e.1 = e0.1 /\ flat_id e = flat_id e0
}.

Lemma fed_nil but side orders0 ts seq w :
  book_inv but (w_book w) -> seq_accepted (ob_l3 (w_book w)) seq = true ->
  fed but side orders0 ts seq w w [] (queue w side).
Proof. intros Hb Ha. split; try done; [by apply published_nil|]. intros e He. by exists e. Qed.

Lemma fed_app but side orders0 ts seq w w1 w2 fills1 fills2 fl fl' :
  fed but side orders0 ts seq w w1 fills1 fl -> fed but side orders0 ts seq w1 w2 fills2 fl' ->
  fed but side orders0 ts seq w w2 (fills1 ++ fills2) fl'.
Proof.
  intros [A1 A2 A3 A4 A5 A6 A7 A8 A9] [B1 B2 B3 B4 B5 B6 B7 B8 B9]. split; try done.
  - by rewrite B4.
  - intros y. rewrite B5, book_resting_app. apply book_resting_at, A5.
  - by rewrite B6.
  - rewrite flat_map_app. by eapply published_trans.
  - by etrans.
  - intros e (e1 & He1 & -> & ->)%B9. by apply A9.
Qed.

Lemma fed_cons but side orders0 ts seq w w1 w2 f fills fl fl' :
  fed but side orders0 ts seq w w1 [f] fl -> fed but side orders0 ts seq w1 w2 fills fl' ->
  fed but side orders0 ts seq w w2 (f :: fills) fl'.
Proof. apply (fed_app _ _ _ _ _ _ _ _ [f]). Qed.

(** One fill anywhere in the queue. *)
Lemma feed_fill but side orders0 t0 agg fills ctx pre p o rest t qty :
  let own id := bool_decide (is_Some (orders0 !! id)) in
  book_side side -> queue (ctx_world ctx) side = pre ++ (p, o) :: rest ->
  book_inv but (w_book (ctx_world ctx)) ->
  seq_accepted (ob_l3 (w_book (ctx_world ctx))) (ctx_seq_num ctx) = true ->
  reachable_queue but orders0 (ctx_world ctx) (pre ++ (p, o) :: rest) ->
  ctx_records side agg own t0 fills ctx -> 0 < t <= l3_quantity o ->
  exists ctx', fillRestingFromFeed side ctx agg (l3_order_id o) p t qty = (true, qty - t, ctx')
    /\ ctx_records side agg own t0 (fills ++ [(p, l3_order_id o, t)]) ctx'
    /\ ctx_event_time ctx' = ctx_event_time ctx /\ ctx_seq_num ctx' = ctx_seq_num ctx
    /\ reachable_queue but orders0 (ctx_world ctx') (pre ++ leftover p o t ++ rest)
    /\ fed but side orders0 (ctx_event_time ctx) (ctx_seq_num ctx) (ctx_world ctx) (ctx_world ctx')
         [(p, l3_order_id o, t)]
         (pre ++ leftover p o t ++ rest).
Proof.
  intros own Hs Hq Hb Ha Hreach Hrec Ht.
  pose proof Hreach as [_ [(Hp & Hbut & Ho) _]%Forall_cons]%Forall_app. cbn [fst] in Hp.
  unfold flat_id in Hbut, Ho. cbn [snd] in Hbut, Ho.
  set (w := ctx_world ctx) in *.
  pose proof (fill_at but w side pre p o rest t (ctx_event_time ctx) (ctx_seq_num ctx) (qty - t =? 0)
                Hb Hs Ha Hq Ht Hbut) as Hf.
  unfold fillRestingFromFeed. fold w.
  destruct (executeBookOrder (w_book w) (l3_order_id o) t (ctx_event_time ctx) (ctx_seq_num ctx) (qty - t =? 0))
    as [b ok]. destruct Hf as [-> [F1 F2 F3 F4 F5 F6 F7 F8 F9 F10]]. cbn [negb].
  set (w2 := settleResting (w <| w_book := b |>) (findOrder (w_book w) (l3_order_id o))) in *.
  assert (Eph : match findOrder (w_book w) (l3_order_id o) with Some _ => 0 | None => t end
                = if own (l3_order_id o) then 0 else t).
  { unfold findOrder, own. rewrite Ho. by destruct (orders0 !! l3_order_id o). }
  rewrite Eph.
  assert (Hrec2 : ctx_records side agg own t0 fills (ctx <| ctx_world := w2 |>)).
  { destruct Hrec as [R1 R2 R3]. split; [exact R1|exact R2|]. cbn. by rewrite F7. }
  destruct (recordTrade_records side agg own t0 fills _ (l3_order_id o) p t Hrec2 Hp)
    as (R1 & R2 & R3 & R4 & R5 & R6).
  eexists. split; [reflexivity|]. split; [exact R1|]. split; [exact R5|]. split; [exact R6|].
  set (ctx' := recordTrade _ _ _ _ _ _ _) in *. cbn [ctx_world upd] in R2, R3, R4.
  pose proof (side_ids_nodup _ side (bi_l3 but _ Hb) Hs) as Hnd.
  change (flat (getLevelsL3 (ob_l3 (w_book w)) side)) with (queue w side) in Hnd. rewrite Hq in Hnd.
  split.
  - eapply Forall_impl; [exact (leftover_stable (ob_orders (w_book w)) pre p o rest t Hnd)|].
    intros e (e0 & He0 & Ep & Eid & Eo). unfold reachable_queue in Hreach. rewrite Forall_forall in Hreach.
    destruct (Hreach e0 He0) as (A1 & A2 & A3). rewrite R2, F6, Eo, Ep, Eid. done.
  - split; rewrite ?R2, ?R4; try done.
    + unfold queue. by rewrite R2.
    + intros y. rewrite F5, Ho. cbn. unfold fill_id. cbn.
      destruct (orders0 !! l3_order_id o) as [z|]; [|by rewrite bool_decide_eq_false_2].
      destruct (decide (z = y)) as [->|Hne].
      * rewrite bool_decide_eq_true_2, fn_lookup_insert by done. done.
      * rewrite bool_decide_eq_false_2, fn_lookup_insert_ne by congruence. done.
    + cbn [flat_map]. rewrite app_nil_r. unfold resting_report, own, fill_id. cbn [fst snd].
      rewrite <- Ho. destruct F9 as (l & E & Er). exists l. by rewrite R3.
    + etrans; [exact F10|]. exact (recordTrade_stepped side (ctx <| ctx_world := w2 |>) _ _ _ _ _).
    + pose proof (leftover_stable (ob_orders (w_book w)) pre p o rest t Hnd) as Hst. intros e He.
      unfold queue in He. rewrite R2, F3 in He. rewrite Forall_forall in Hst.
      destruct (Hst e He) as (e0 & He0 & Ep & Eid & _). exists e0. by rewrite Hq.
Qed.

(** The loop's exits, and its step at the front of the queue. *)
Lemma feed_step_break side agg price ctx qty :
  book_side side -> book_ok (ob_l3 (w_book (ctx_world ctx))) ->
  negb (0 <? qty) = true
  \/ match queue (ctx_world ctx) side with [] => True | (p, _) :: _ => within side price p = false end ->
  fifo_feed_step side agg price (ctx, qty) = (Break, (ctx, qty)).
Proof.
  intros Hs Hok Hstop. unfold fifo_feed_step. destruct (negb (0 <? qty)) eqn:E; [done|].
  destruct Hstop as [|Hstop]; [done|].
  pose proof (best_front (ob_l3 (w_book (ctx_world ctx))) side Hok Hs) as Hbest.
  unfold queue in Hstop. destruct (flat _) as [|[p o] rest]; [by rewrite Hbest|].
  destruct Hbest as (l & os & -> & -> & _). unfold within in Hstop. apply negb_false_iff in Hstop.
  by rewrite Hstop.
Qed.

Lemma feed_step_front side agg price ctx qty p o rest :
  book_side side -> book_ok (ob_l3 (w_book (ctx_world ctx))) ->
  queue (ctx_world ctx) side = (p, o) :: rest -> negb (0 <? qty) = false -> within side price p = true ->
  fifo_feed_step side agg price (ctx, qty)
  = let '(ok, qty', ctx') := fillRestingFromFeed side ctx agg (l3_order_id o) p
                               (Z.min qty (l3_quantity o)) qty in
    if negb ok then (Break, (ctx', qty')) else (Continue, (ctx', qty')).
Proof.
  intros Hs Hok Hq Hqty Hw. unfold fifo_feed_step. rewrite Hqty.
  pose proof (best_front (ob_l3 (w_book (ctx_world ctx))) side Hok Hs) as Hbest.
  unfold queue in Hq. rewrite Hq in Hbest. destruct Hbest as (l & os & -> & -> & ->).
  unfold within in Hw. apply negb_true_iff in Hw. by rewrite Hw.
Qed.

Definition never_skip (id : Z) : bool := false.

(** The feed loop from any point of a match performs the sweep of what is queued. *)
Lemma feed_loop but side orders0 t0 agg price fl :
  let own id := bool_decide (is_Some (orders0 !! id)) in
  book_side side ->
  forall fuel ctx qty fills,
  queue (ctx_world ctx) side = fl ->
  book_inv but (w_book (ctx_world ctx)) ->
  seq_accepted (ob_l3 (w_book (ctx_world ctx))) (ctx_seq_num ctx) = true ->
  reachable_queue but orders0 (ctx_world ctx) fl ->
  ctx_records side agg own t0 fills ctx -> (List.length fl + 2 <= fuel)%nat ->
  let '(acts, q', fl') := sweep (within side price) never_skip qty fl in
  exists ctx', while_loop (fifo_feed_step side agg price) fuel (ctx, qty) = Some (Break, (ctx', q'))
    /\ ctx_records side agg own t0 (fills ++ act_fills acts) ctx'
    /\ ctx_event_time ctx' = ctx_event_time ctx
    /\ fed but side orders0 (ctx_event_time ctx) (ctx_seq_num ctx) (ctx_world ctx) (ctx_world ctx')
         (act_fills acts) fl'.
Proof.
  intros own Hs. induction fl as [|[p o] rest IH]; intros fuel ctx qty fills Hq Hb Ha Hreach Hrec Hfuel;
    (destruct fuel as [|fuel]; [cbn in Hfuel; lia|]); pose proof (bi_l3 but _ Hb) as Hok.
  { cbn [sweep while_loop]. exists ctx. rewrite feed_step_break; [|done|done|right; by rewrite Hq].
    rewrite app_nil_r, <- Hq. do 3 (split; [done|]). by apply fed_nil. }
  rewrite sweep_cons. cbn [while_loop].
  destruct (negb (0 <? qty) || negb (within side price p)) eqn:Estop.
  { exists ctx. rewrite feed_step_break; [|done|done|].
    - cbn. rewrite app_nil_r, <- Hq. do 3 (split; [done|]). by apply fed_nil.
    - apply orb_true_iff in Estop as [E|E]; [by left|right]. rewrite Hq. by apply negb_true_iff. }
  apply orb_false_iff in Estop as [Eqty Ew]. apply negb_false_iff in Ew. cbn [never_skip].
  rewrite (feed_step_front side agg price ctx qty p o rest) by done. apply negb_false_iff in Eqty.
  apply Z.ltb_lt in Eqty.
  assert (Hpos : 0 < l3_quantity o).
  { apply (flat_pos side _ (p, o) (book_side_ok _ side Hok Hs)).
    change (flat _) with (queue (ctx_world ctx) side). rewrite Hq. by apply elem_of_cons; left. }
  destruct (feed_fill but side orders0 t0 agg fills ctx [] p o rest (Z.min qty (l3_quantity o)) qty
              Hs Hq Hb Ha Hreach Hrec ltac:(lia)) as (ctx1 & -> & Hrec1 & Et & Es & Hreach1 & Hfed).
  cbn [negb]. pose proof Hfed as [D1 D2 D3 _ _ _ _ _ _]. rewrite <- Es in D2.
  destruct (l3_quantity o <=? qty) eqn:Ele; bool_to_prop.
  - replace (Z.min qty (l3_quantity o)) with (l3_quantity o) in * by lia.
    rewrite leftover_all in *. cbn [app] in *.
    specialize (IH fuel ctx1 (qty - l3_quantity o) (fills ++ [(p, l3_order_id o, l3_quantity o)])
                  D3 D1 D2 Hreach1 Hrec1 ltac:(cbn in Hfuel; lia)).
    destruct (sweep (within side price) never_skip (qty - l3_quantity o) rest) as [[acts q'] fl'].
    destruct IH as (ctx2 & Hloop & Hrec2 & Et2 & Hfed2). exists ctx2. cbn [fst snd act_fills omap list_omap act_fill].
    rewrite <- app_assoc in Hrec2. rewrite Et2, Et in *. rewrite Es in Hfed2. do 3 (split; [done|]).
    by eapply fed_cons.
  - replace (Z.min qty (l3_quantity o)) with qty in * by lia. rewrite Z.sub_diag.
    rewrite leftover_part in * by lia. destruct fuel as [|fuel]; [cbn in Hfuel; lia|]. cbn [while_loop].
    rewrite feed_step_break; [|done|by apply (bi_l3 but)|by left].
    exists ctx1. do 3 (split; [done|]). exact Hfed.
Qed.

(** A fresh context records nothing. *)
Lemma new_context_records side agg own w ts seq :
  0 <= g_next_trade_id (w_glob w) < 2 ^ 64 ->
  ctx_records side agg own (g_next_trade_id (w_glob w)) [] (new_context w ts seq).
Proof.
  intros Ht. split; [split|..]; try done. cbn. rewrite Z.add_0_r. symmetry. by apply wrap_small.
Qed.

(** Every resting order of a side has a real price; none of them is being amended. *)
Definition priced w (side : Side) : Prop := Forall (fun x => x.1 <> NULL_PRICE) (queue w side).

Lemma priced_reachable w side : priced w side -> reachable_queue None (ob_orders (w_book w)) w (queue w side).
Proof. intros Hp. eapply Forall_impl; [exact Hp|]. done. Qed.

Lemma feed_sweeps side agg price qty w ts seq :
  book_side side -> book_inv None (w_book w) -> seq_accepted (ob_l3 (w_book w)) seq = true ->
  0 <= g_next_trade_id (w_glob w) < 2 ^ 64 -> priced w side ->
  let '(acts, q', fl') := sweep (within side price) never_skip qty (queue w side) in
  exists summaries w', fifo_matchFeed side w agg price qty ts seq = Some (summaries, q', w')
    /\ records side agg ts (is_own w) (g_next_trade_id (w_glob w)) (act_fills acts) summaries
    /\ fed None side (ob_orders (w_book w)) ts seq w w' (act_fills acts) fl'.
Proof.
  intros Hs Hb Ha Ht Hreach%priced_reachable.
  pose proof (feed_loop None side (ob_orders (w_book w)) (g_next_trade_id (w_glob w)) agg price _ Hs
    (loop_fuel w side) (new_context w ts seq) qty [] eq_refl Hb Ha Hreach
    (new_context_records side agg _ w ts seq Ht)) as Hloop.
  cbn [ctx_world new_context ctx_event_time ctx_seq_num] in Hloop.
  destruct (sweep _ _ _ _) as [[acts q'] fl'].
  destruct Hloop as (ctx' & Hl & Hrec & Et & Hfed); [unfold loop_fuel, queue; lia|].
  exists (ctx_summaries ctx'), (ctx_world ctx'). unfold fifo_matchFeed. rewrite Hl.
  split; [done|]. split; [|exact Hfed].
  destruct Hrec as [Hr _ _]. rewrite Et in Hr. exact Hr.
Qed.

(** Replaying market data through the FIFO engine terminates within its fuel
    and performs exactly the sweep of the resting side: the trade summaries record exactly
    the sweep's fills - one leg per fill in order, a new summary when the price changes,
    the aggressor's leg and the count kept in step, the phantom share split off - the queue
    left on that side is the sweep's, the other side and the invariant are untouched, each
    client order hit has the fill booked once and hears about it, and nothing else is
    published. *)
Lemma fifo_feed_refines side agg price qty w ts seq :
  book_side side -> book_inv None (w_book w) -> seq_accepted (ob_l3 (w_book w)) seq = true ->
  0 <= g_next_trade_id (w_glob w) < 2 ^ 64 -> priced w side ->
  let '(acts, q', fl') := sweep (within side price) never_skip qty (queue w side) in
  exists summaries w', fifo_matchFeed side w agg price qty ts seq = Some (summaries, q', w')
    /\ records side agg ts (is_own w) (g_next_trade_id (w_glob w)) (act_fills acts) summaries
    /\ fed None side (ob_orders (w_book w)) ts seq w w' (act_fills acts) fl'.
Proof. apply feed_sweeps. Qed.

Lemma feed_match_side w aggr agg price qty ts seq :
  book_side aggr ->
  fifo_match_feed w aggr agg price qty ts seq = fifo_matchFeed (opposite_side aggr) w agg price qty ts seq.
Proof. by intros [-> | ->]. Qed.

(** Price-time priority on market data: whatever the aggressor's quantity, the
    traded and remaining quantity add up to it; the orders hit are the front of the
    opposite queue - best price first, and within a price in queue order - each at its own
    price and none beyond the limit; and if anything remains, the best level then in the
    book, if any, is beyond the limit. *)
Lemma fifo_feed_priority aggr agg price qty w ts seq :
  book_side aggr -> book_inv None (w_book w) -> seq_accepted (ob_l3 (w_book w)) seq = true ->
  0 <= g_next_trade_id (w_glob w) < 2 ^ 64 -> 0 <= qty ->
  priced w (opposite_side aggr) ->
  exists summaries q' w', fifo_match_feed w aggr agg price qty ts seq = Some (summaries, q', w')
    /\ zsum (map fill_qty (legs summaries)) + q' = qty /\ 0 <= q'
    /\ zsum (map ts_qty summaries) + q' = qty
    /\ map (fun f => (fill_price f, fill_id f)) (legs summaries)
       = map (fun x => (x.1, flat_id x))
           (take (List.length (legs summaries)) (queue w (opposite_side aggr)))
    /\ Forall (fun f => 0 < fill_qty f /\ beyond_limit (opposite_side aggr) (fill_price f) price = false)
         (legs summaries)
    /\ (0 < q' -> match getBestLevel (ob_l3 (w_book w')) (opposite_side aggr) with
                  | None => True
                  | Some l => beyond_limit (opposite_side aggr) (lv_price l) price = true
                  end).
Proof.
  intros Haggr Hb Ha Ht Hqty Hreach. rewrite feed_match_side by done.
  pose proof (opposite_book_side aggr Haggr) as Hs.
  set (side := opposite_side aggr) in *. set (limit := within side price).
  pose proof (feed_sweeps side agg price qty w ts seq Hs Hb Ha Ht Hreach) as Href.
  pose proof (sweep_conserves limit never_skip qty (queue w side)) as Hcons.
  pose proof (sweep_left_range limit never_skip qty (queue w side) Hqty) as Hrange.
  pose proof (sweep_front_fills limit never_skip qty (queue w side) (fun _ => eq_refl)) as Hfront.
  pose proof (sweep_fills_ok limit never_skip qty (queue w side) (queue_pos w side (bi_l3 None _ Hb) Hs)) as Hok.
  pose proof (sweep_complete limit never_skip qty (queue w side)) as Hcomp.
  subst limit. destruct (sweep _ _ _ _) as [[acts q'] fl'].
  destruct Href as (summaries & w' & Hm & Hrec & Hfed). cbn [fst snd] in *.
  exists summaries, q', w'. destruct Hrec as [Hlegs Hsum _ _]. rewrite Hlegs.
  split; [done|]. split; [exact Hcons|]. split; [done|]. split; [|split; [exact Hfront|split]].
  - rewrite <- Hcons at 1. f_equal. unfold filled. rewrite <- Hlegs. by apply summaries_total with (1 := Hsum).
  - eapply Forall_impl; [exact Hok|]. intros f (H1 & _ & H2). split; [done|].
    unfold within in H1. by apply negb_true_iff.
  - intros Hq'. specialize (Hcomp Hq').
    pose proof (fd_queue _ _ _ _ _ _ _ _ _ Hfed) as Eq. unfold queue in Eq.
    pose proof (best_front (ob_l3 (w_book w')) side (bi_l3 None _ (fd_inv _ _ _ _ _ _ _ _ _ Hfed)) Hs) as Hbest.
    rewrite Eq in Hbest. destruct fl' as [|[p o] rest]; [by rewrite Hbest|].
    destruct Hbest as (l & os & -> & -> & _). unfold within in Hcomp. by apply negb_false_iff.
Qed.
End Fifo.

Lemma sample_priced side : book_side side -> priced sample_world side.
Proof. intros [-> | ->]; unfold priced; apply Forall_forall; vm_compute; intros x Hx;
  repeat (apply elem_of_cons in Hx as [->|Hx]; [discriminate|]); by apply elem_of_nil in Hx. Qed.

Lemma fifo_feed_refines_witness :
  exists summaries w',
    fifo_matchFeed SELL sample_world 77 101 10 5 0 = Some (summaries, 0, w')
    /\ records SELL 77 5 (is_own sample_world) (g_next_trade_id (w_glob sample_world))
         [(100, 1001, 5); (100, 1, 3); (101, 1002, 2)] summaries
    /\ fed None SELL (ob_orders (w_book sample_world)) 5 0 sample_world w'
         [(100, 1001, 5); (100, 1, 3); (101, 1002, 2)] [(101, mkL3Order 1002 3 3)].
Proof.
  pose proof (fifo_feed_refines SELL 77 101 10 sample_world 5 0 (or_intror eq_refl) sample_inv eq_refl
    ltac:(vm_compute; split; congruence) (sample_priced SELL (or_intror eq_refl))) as H.
  assert (E : sweep (within SELL 101) never_skip 10 (queue sample_world SELL)
    = ([ActFill 100 1001 5; ActFill 100 1 3; ActFill 101 1002 2], 0, [(101, mkL3Order 1002 3 3)]))
    by (vm_compute; reflexivity).
  rewrite E in H. exact H.
Defined.

Lemma fifo_feed_priority_witness :
  exists summaries q' w', fifo_match_feed sample_world BUY 77 100 10 5 0 = Some (summaries, q', w')
    /\ zsum (map fill_qty (legs summaries)) + q' = 10 /\ 0 <= q'
    /\ map (fun f => (fill_price f, fill_id f)) (legs summaries)
       = map (fun x => (x.1, flat_id x))
           (take (List.length (legs summaries)) (queue sample_world SELL)).
Proof.
  destruct (fifo_feed_priority BUY 77 100 10 sample_world 5 0 (or_introl eq_refl) sample_inv eq_refl
    ltac:(vm_compute; split; congruence) ltac:(lia) (sample_priced SELL (or_intror eq_refl)))
    as (summaries & q' & w' & H1 & H2 & H3 & _ & H4 & _).
  exact (ex_intro _ summaries (ex_intro _ q' (ex_intro _ w' (conj H1 (conj H2 (conj H3 H4)))))).
Defined.
