(* ===== verification/FifoOrders.v ===== *)
(** * FIFO matching of client orders

    [matchOrder] against [sweep]: the aggressor is a pooled order that does not rest, or
    the client's own resting order while it is amended. Self matches are cancelled on the
    way, or keep the order from matching at all, and a fill-or-kill order that cannot be
    filled leaves the book alone. *)

From S2P Require Import Prelude Types FixedString Orders Messages MarketData L3Interface.
From S2P Require Import L3Lemmas L3Reference OrderBook OrderBookInv Concrete.
From S2P Require Import OrderBookOps Sweep MatchCommon MatchLemmas FifoEngine FifoProofs.

(** Who hears what about one act. *)
Definition act_reports (aggressor : Z) (own : Z -> bool) (a : Act) : list Report :=
  match a with
  | ActFill p id q => RepTrade aggressor true p q :: resting_report own (p, id, q)
  | ActCancel id => [RepOther id ExecType.CANCELED]
  end.

(** The fills of a sweep as the aggressor books them. *)
Definition own_fills (ts : Z) (acts : list Act) : list (price_t * qty_t * time_t) :=
  map (fun f => (fill_price f, fill_qty f, ts)) (act_fills acts).

Lemma own_fills_app ts a b : own_fills ts (a ++ b) = own_fills ts a ++ own_fills ts b.
Proof. unfold own_fills, act_fills. by rewrite omap_app, map_app. Qed.

Lemma book_fills_keeps o fills :
  o_id (book_fills o fills) = o_id o /\ o_side (book_fills o fills) = o_side o
  /\ o_priority (book_fills o fills) = o_priority o
  /\ o_client_id (book_fills o fills) = o_client_id o
  /\ o_identity (book_fills o fills) = o_identity o.
Proof.
  revert o. induction fills as [|[[p q] t] fills IH]; intros o; [done|].
  change (book_fills o ((p, q, t) :: fills)) with (book_fills (executeOrder o p q t) fills).
  destruct (IH (executeOrder o p q t)) as (-> & -> & -> & -> & ->). done.
Qed.

(** The terms of an order no fill touches, and the balance every fill keeps. *)
Definition same_terms (o o' : Order) : Prop :=
  o_identity o' = o_identity o /\ o_id o' = o_id o /\ o_side o' = o_side o
  /\ o_client_id o' = o_client_id o /\ o_priority o' = o_priority o
  /\ o_type o' = o_type o /\ o_time_in_force o' = o_time_in_force o
  /\ o_created_time o' = o_created_time o /\ o_request_tag o' = o_request_tag o.

(** Fills apart, the same order: its terms and what its quantities add up to. *)
Definition accounted_alike (o o' : Order) : Prop :=
  same_terms o o' /\ o_price o' = o_price o /\ o_quantity o' = o_quantity o
  /\ o_cum_quantity o' + o_leaves_quantity o' = o_cum_quantity o + o_leaves_quantity o.

#[export] Instance accounted_alike_refl : Reflexive accounted_alike.
Proof. intros o. by repeat split. Qed.

#[export] Instance accounted_alike_trans : Transitive accounted_alike.
Proof.
  intros o1 o2 o3 ((a1 & a2 & a3 & a4 & a5 & a6 & a7 & a8 & a9) & a10 & a11 & a12)
    ((b1 & b2 & b3 & b4 & b5 & b6 & b7 & b8 & b9) & b10 & b11 & b12).
  repeat split; congruence.
Qed.

Lemma execute_alike o p q t : accounted_alike o (executeOrder o p q t).
Proof. do 3 (split; [done|]). cbn. lia. Qed.

Lemma book_fills_terms o fills : accounted_alike o (book_fills o fills).
Proof.
  revert o. induction fills as [|[[p q] t] fills IH]; intros o; [done|].
  etrans; [apply (execute_alike o p q t)|]. apply (IH (executeOrder o p q t)).
Qed.

Lemma book_resting_alike orders ts heap fills y : accounted_alike (heap y) (book_resting orders ts heap fills y).
Proof.
  revert heap. induction fills as [|f fills IH]; intros heap; [done|]. etrans; [|apply IH].
  destruct (orders !! fill_id f) as [z|]; [|done].
  destruct (decide (y = z)) as [->|]; [rewrite fn_lookup_insert; apply execute_alike|by rewrite fn_lookup_insert_ne].
Qed.

Section FifoOrders.
Context {L3 Pool : Type} {l3ops : L3Ops L3} {laws : L3Laws L3} {poolops : ObjectPool Pool}
  {poollaws : PoolLaws Pool} {env : Environment}.
Abbreviation World := (World L3 Pool).
Abbreviation MatchContext := (MatchContext L3 Pool).
Implicit Types w : World.
Implicit Types ctx : MatchContext.

(** The aggressor is in no map, or is the order being amended, on the other side. *)
Definition aggressor (but : option Z) (side : Side) w (x : ptr) : Prop :=
  match but with
  | None => forall id, ob_orders (w_book w) !! id <> Some x
  | Some id => ob_orders (w_book w) !! id = Some x /\ o_side (order_at w x) = opposite_side side
  end.

(** A world in the middle of a match. *)
Record matching (but : option Z) (side : Side) (x : ptr) (orders0 : gmap Z Z) (selfb : Z -> bool)
    (seq : Z) w (fl : list (price_t * L3Order)) : Prop := {
  mt_queue : queue w side = fl;
  mt_inv : book_inv but (w_book w);
  mt_accepted : seq_accepted (ob_l3 (w_book w)) seq = true;
  mt_aggressor : aggressor but side w x;
  mt_reach : reachable_queue but orders0 w fl;
  mt_self : Forall (fun e => self w (order_at w x) (flat_id e) = selfb (flat_id e)) fl
}.

(** What the acts of a match have done between two worlds. *)
Record swept (x : ptr) (side : Side) (orders0 : gmap Z Z) (ts : Z) w w' (acts : list Act) : Prop := {
  sw_other : getLevelsL3 (ob_l3 (w_book w')) (opposite_side side)
             = getLevelsL3 (ob_l3 (w_book w)) (opposite_side side);
  sw_orders : forall id, id ∈ book_ids (ob_l3 (w_book w')) ->
    id ∈ book_ids (ob_l3 (w_book w)) /\ ob_orders (w_book w') !! id = ob_orders (w_book w) !! id;
  sw_aggressor : order_at w' x = book_fills (order_at w x) (own_fills ts acts);
  sw_heap : forall y, y <> x -> (forall id, ActCancel id ∈ acts -> orders0 !! id <> Some y) ->
    order_at w' y = book_resting orders0 ts (ob_heap (w_book w)) (act_fills acts) y;
  sw_clients : forall y, o_client_id (order_at w' y) = o_client_id (order_at w y);
  sw_md : w_md w' = w_md w;
  sw_published : published w w'
    (flat_map (act_reports (o_id (order_at w x)) (fun id => bool_decide (is_Some (orders0 !! id)))) acts);
  sw_stepped : stepped w w';
  sw_cancelled id : ActCancel id ∈ acts -> id ∉ book_ids (ob_l3 (w_book w'))
}.

Lemma swept_refl x side orders0 ts w : swept x side orders0 ts w w [].
Proof. split; try done; [by apply published_nil|]. by intros id ?%elem_of_nil. Qed.

Lemma swept_trans x side orders0 ts w w1 w2 a1 a2 :
  swept x side orders0 ts w w1 a1 -> swept x side orders0 ts w1 w2 a2 ->
  swept x side orders0 ts w w2 (a1 ++ a2).
Proof.
  intros [A1 A2 A3 A4 A5 A6 A7 A8 A9] [B1 B2 B3 B4 B5 B6 B7 B8 B9]. split.
  - by rewrite B1.
  - intros id Hid. destruct (B2 id Hid) as [Hid1 ->]. by apply A2.
  - rewrite B3, A3, own_fills_app. unfold book_fills. by rewrite fold_left_app.
  - intros y Hy Hc. rewrite B4; [|done|].
    + unfold act_fills. rewrite omap_app, book_resting_app. apply book_resting_at, A4; [done|].
      intros id Hid. apply Hc, elem_of_app. by left.
    + intros id Hid. apply Hc, elem_of_app. by right.
  - intros y. by rewrite B5.
  - by rewrite B6.
  - rewrite flat_map_app. eapply published_trans; [exact A7|].
    rewrite A3 in B7. by rewrite (proj1 (book_fills_keeps _ _)) in B7.
  - by etrans.
  - intros id [Hid|Hid]%elem_of_app; [|by apply B9]. intros Hin. by apply (A9 id Hid), B2.
Qed.

(** Rewriting the aggressor's accounting keeps the invariant. *)
Lemma set_aggressor_inv but side w x o :
  book_inv but (w_book w) -> aggressor but side w x ->
  o_id o = o_id (order_at w x) -> o_side o = o_side (order_at w x) ->
  o_priority o = o_priority (order_at w x) -> o_identity o = o_identity (order_at w x) ->
  book_inv but (w_book (set_order w x o)).
Proof.
  intros Hb Hx Hid Hs Hp Hi. destruct but as [id|]; cbn in Hx; [|by apply set_unindexed_inv].
  destruct Hx as [Hx _]. destruct (bi_own _ _ Hb id x Hx) as (E1 & _ & E3 & _).
  apply (set_amending_inv (Some id) _ id x); try done; [by right|by rewrite Hid|by rewrite Hp].
Qed.

(** The aggressor is none of the orders it can meet. *)
Lemma aggressor_not_met but side w x id y :
  book_inv but (w_book w) -> aggressor but side w x -> but <> Some id ->
  ob_orders (w_book w) !! id = Some y -> y <> x.
Proof.
  intros Hb Hx Hid Hy ->. destruct but as [id'|]; cbn in Hx; [|by apply (Hx id)].
  apply Hid. f_equal. by eapply own_unique; [exact Hb|apply Hx|].
Qed.

Lemma self_stable w w' o o' id :
  o_client_id o = o_client_id o' -> ob_orders (w_book w) !! id = ob_orders (w_book w') !! id ->
  (forall y, o_client_id (order_at w y) = o_client_id (order_at w' y)) ->
  self w o id = self w' o' id.
Proof.
  intros E1 E2 E3. unfold self, resting_order, findOrder. rewrite E2.
  destruct (ob_orders (w_book w') !! id) as [y|]; [|done].
  cbn [fmap option_fmap option_map isSelfMatch]. by rewrite E1, E3.
Qed.

Lemma fills_of_queue (w : World) (w' : World) pre p o t rest id but seq side ts :
  filled_at but w w' side pre p o rest t ts seq -> book_side side ->
  book_inv but (w_book w) -> queue w side = pre ++ (p, o) :: rest ->
  id ∈ book_ids (ob_l3 (w_book w')) ->
  id ∈ book_ids (ob_l3 (w_book w)) /\ ob_orders (w_book w') !! id = ob_orders (w_book w) !! id.
Proof.
  intros [F1 F2 F3 F4 F5 F6 _ _ _ _] Hs Hb Hq Hid. unfold queue in Hq.
  pose proof (bo_unique _ (bi_l3 but _ Hb)) as Hu. change (NoDup (book_ids (ob_l3 (w_book w)))) in Hu.
  rewrite (book_ids_side _ side Hs), Hq in Hu. apply NoDup_app in Hu as (Hu & Hdisj & _).
  rewrite (book_ids_side _ side Hs), F3, F4, elem_of_app in Hid.
  rewrite (book_ids_side _ side Hs), Hq, F6, elem_of_app. destruct Hid as [Hid|Hid].
  - apply list_elem_of_fmap in Hid as (e & -> & He).
    pose proof (leftover_stable (ob_orders (w_book w)) pre p o rest t Hu) as Hst.
    rewrite Forall_forall in Hst. destruct (Hst e He) as (e0 & He0 & _ & Eid & Eo).
    split; [|exact Eo]. left. rewrite Eid. by apply list_elem_of_fmap_2.
  - split; [by right|]. case_test; [|done]. apply lookup_delete_ne. intros E. rewrite <- E in Hid.
    apply (Hdisj (l3_order_id o)); [|done]. rewrite map_app, elem_of_app. right. by apply elem_of_cons; left.
Qed.

(** A match in progress depends on the book alone. *)
Lemma matching_book but side x orders0 selfb seq w w' fl :
  w_book w' = w_book w -> matching but side x orders0 selfb seq w fl ->
  matching but side x orders0 selfb seq w' fl.
Proof.
  intros E [H1 H2 H3 H4 H5 H6].
  split; unfold queue, aggressor, reachable_queue, self, resting_order, order_at in *; by rewrite E.
Qed.

(** Entries that a match has not finished look the same after it acted. *)
Lemma entries_stable but side x orders0 selfb seq w w' fl fl' :
  matching but side x orders0 selfb seq w fl ->
  Forall (fun e => exists e0, e0 ∈ fl /\ e.1 = e0.1 /\ flat_id e = flat_id e0
                              /\ ob_orders (w_book w') !! flat_id e = ob_orders (w_book w) !! flat_id e) fl' ->
  (forall y, o_client_id (order_at w' y) = o_client_id (order_at w y)) ->
  reachable_queue but orders0 w' fl'
  /\ Forall (fun e => self w' (order_at w' x) (flat_id e) = selfb (flat_id e)) fl'.
Proof.
  intros [_ _ _ _ Hreach Hself] Hfl Hc. unfold reachable_queue in *. rewrite !Forall_forall in *.
  split; intros e He; destruct (Hfl e He) as (e0 & He0 & Ep & Eid & Eo).
  - destruct (Hreach e0 He0) as (A1 & A2 & A3). rewrite Eo, Ep, Eid. done.
  - rewrite Eid, <- (Hself e0 He0), <- Eid. apply self_stable; [by rewrite Hc|by rewrite Eo|done].
Qed.

(** After a fill of the front, the match goes on with what is left of the queue. *)
Lemma filled_matching but side x orders0 selfb w ox w2 w3 pre p o rest t ts seq :
  book_side side -> matching but side x orders0 selfb seq w (pre ++ (p, o) :: rest) ->
  o_side ox = o_side (order_at w x) -> o_client_id ox = o_client_id (order_at w x) ->
  w_book w2 = w_book (set_order w x ox) -> filled_at but w2 w3 side pre p o rest t ts seq ->
  order_at w3 x = ox
  /\ (forall y, o_client_id (order_at w3 y) = o_client_id (order_at w y))
  /\ matching but side x orders0 selfb seq w3 (pre ++ leftover p o t ++ rest).
Proof.
  intros Hs Hm Eside Ecl Ew2 [F1 F2 F3 F4 F5 F6 _ _ _ _]. pose proof Hm as [Hq Hb Ha Hagg Hreach Hself].
  rewrite Ew2 in F5, F6. change (ob_orders (w_book (set_order w x ox))) with (ob_orders (w_book w)) in F5, F6.
  change (ob_heap (w_book (set_order w x ox))) with (<[x := ox]> (ob_heap (w_book w))) in F5.
  pose proof Hreach as [_ [(Hp & Hbut & _) _]%Forall_cons]%Forall_app. unfold flat_id in Hbut. cbn in Hbut.
  assert (Ex : order_at w3 x = ox).
  { unfold order_at. rewrite F5, bool_decide_eq_false_2; [by rewrite fn_lookup_insert|].
    intros E. by apply (aggressor_not_met but side w x (l3_order_id o) x Hb Hagg Hbut E). }
  assert (Hc : forall y, o_client_id (order_at w3 y) = o_client_id (order_at w y)).
  { intros y. destruct (decide (y = x)) as [->|Hy]; [by rewrite Ex|].
    unfold order_at. rewrite F5, fn_lookup_insert_ne by congruence. by case_test. }
  split; [done|]. split; [done|].
  pose proof (side_ids_nodup _ side (bi_l3 but _ Hb) Hs) as Hnd.
  change (flat (getLevelsL3 (ob_l3 (w_book w)) side)) with (queue w side) in Hnd. rewrite Hq in Hnd.
  destruct (entries_stable but side x orders0 selfb seq w w3 _ (pre ++ leftover p o t ++ rest) Hm)
    as [Hr' Hs']; [|done|].
  { rewrite F6. exact (leftover_stable (ob_orders (w_book w)) pre p o rest t Hnd). }
  split; try done. destruct but as [id|]; cbn in Hagg |- *.
  - rewrite Ex, F6, Eside. destruct Hagg as [Hx Hside]. split; [|done]. case_test; [|done].
    rewrite lookup_delete_ne by congruence. done.
  - intros id. rewrite F6. case_test; [|done]. rewrite lookup_delete_Some. intros [_ E]. by apply (Hagg id).
Qed.

(** One fill of the aggressor anywhere in the queue. *)
Lemma order_fill but side x orders0 selfb t0 agg fills ctx pre p o rest t remaining :
  let own id := bool_decide (is_Some (orders0 !! id)) in
  book_side side -> matching but side x orders0 selfb (ctx_seq_num ctx) (ctx_world ctx) (pre ++ (p, o) :: rest) ->
  ctx_records side agg own t0 fills ctx -> o_id (order_at (ctx_world ctx) x) = agg ->
  0 < t <= l3_quantity o ->
  exists ctx', fillResting side ctx x (l3_order_id o) (findOrder (w_book (ctx_world ctx)) (l3_order_id o))
                 p t remaining = (true, ctx')
    /\ ctx_records side agg own t0 (fills ++ [(p, l3_order_id o, t)]) ctx'
    /\ ctx_event_time ctx' = ctx_event_time ctx /\ ctx_seq_num ctx' = ctx_seq_num ctx
    /\ matching but side x orders0 selfb (ctx_seq_num ctx) (ctx_world ctx') (pre ++ leftover p o t ++ rest)
    /\ swept x side orders0 (ctx_event_time ctx) (ctx_world ctx) (ctx_world ctx')
         [ActFill p (l3_order_id o) t].
Proof.
  intros own Hs [Hq Hb Ha Hagg Hreach Hself] Hrec Hid Ht.
  set (w := ctx_world ctx) in *. set (ts := ctx_event_time ctx) in *.
  pose proof Hreach as [_ [(Hp & Hbut & Ho) _]%Forall_cons]%Forall_app.
  unfold flat_id in Hbut, Ho. cbn [fst snd] in Hp, Hbut, Ho.
  set (ox := executeOrder (order_at w x) p t ts).
  assert (Hb1 : book_inv but (w_book (set_order w x ox))) by by eapply set_aggressor_inv.
  set (w2 := publishOrderExecution (set_order w x ox) (order_at (set_order w x ox) x) true).
  pose proof (fill_at but w2 side pre p o rest t ts (ctx_seq_num ctx) (remaining =? 0) Hb1 Hs Ha Hq Ht Hbut) as Hf.
  unfold fillResting. fold w ts. fold ox. fold w2.
  change (findOrder (w_book w2) (l3_order_id o)) with (findOrder (w_book w) (l3_order_id o)) in Hf.
  destruct (executeBookOrder (w_book w2) (l3_order_id o) t ts (ctx_seq_num ctx) (remaining =? 0)) as [b ok].
  destruct Hf as [-> Hff]. cbn [negb].
  set (w3 := settleResting (w2 <| w_book := b |>) (findOrder (w_book w) (l3_order_id o))) in *.
  destruct (filled_matching but side x orders0 selfb w ox w2 w3 pre p o rest t ts (ctx_seq_num ctx) Hs
    (Build_matching _ _ _ _ _ _ _ _ Hq Hb Ha Hagg Hreach Hself) eq_refl eq_refl eq_refl Hff) as (Ex & Hcl & Hm).
  assert (Eph : match findOrder (w_book w) (l3_order_id o) with Some _ => 0 | None => t end
                = if own (l3_order_id o) then 0 else t).
  { unfold findOrder, own. rewrite Ho. by destruct (orders0 !! l3_order_id o). }
  rewrite Eph.
  assert (Hrec3 : ctx_records side agg own t0 fills (ctx <| ctx_world := w3 |>)).
  { destruct Hrec as [R1 R2 R3]. split; [exact R1|exact R2|]. cbn. by rewrite (ff_glob _ _ _ _ _ _ _ _ _ _ _ Hff). }
  assert (Eid : o_id (order_at w3 x) = agg) by by rewrite Ex.
  rewrite Eid.
  destruct (recordTrade_records side agg own t0 fills _ (l3_order_id o) p t Hrec3 Hp)
    as (R1 & R2 & R3 & R4 & R5 & R6).
  eexists. split; [reflexivity|]. split; [exact R1|]. split; [exact R5|]. split; [exact R6|].
  set (ctx' := recordTrade _ _ _ _ _ _ _) in *. cbn [ctx_world upd] in R2, R3, R4.
  split.
  - by apply (matching_book but side x orders0 selfb _ w3).
  - pose proof Hff as [F1 F2 F3 F4 F5 F6 F7 F8 F9 F10].
    assert (Eat : forall y, order_at (ctx_world ctx') y = order_at w3 y) by (intros y; unfold order_at; by rewrite R2).
    split; rewrite ?R2, ?R4; try done.
    + intros id Hin. exact (fills_of_queue w2 w3 pre p o t rest id but _ side ts Hff Hs Hb1 Hq Hin).
    + by rewrite Eat, Ex.
    + intros y Hy _. rewrite Eat. unfold order_at. rewrite F5.
      change (ob_heap (w_book w2)) with (<[x := ox]> (ob_heap (w_book w))).
      rewrite fn_lookup_insert_ne by congruence.
      change (ob_orders (w_book w2)) with (ob_orders (w_book w)). rewrite Ho. cbn. unfold fill_id. cbn.
      destruct (orders0 !! l3_order_id o) as [z|]; [|by rewrite bool_decide_eq_false_2].
      destruct (decide (z = y)) as [->|Hne].
      * rewrite bool_decide_eq_true_2, fn_lookup_insert by done. done.
      * rewrite bool_decide_eq_false_2, fn_lookup_insert_ne by congruence. done.
    + intros y. by rewrite Eat, Hcl.
    + cbn [flat_map act_reports app]. rewrite app_nil_r.
      change (RepTrade (o_id (order_at w x)) true p t
                :: resting_report (fun id => bool_decide (is_Some (orders0 !! id))) (p, l3_order_id o, t))
        with ([RepTrade (o_id (order_at w x)) true p t]
                ++ resting_report (fun id => bool_decide (is_Some (orders0 !! id))) (p, l3_order_id o, t)).
      apply (published_trans w w2).
      * pose proof (published_execution (set_order w x ox) (order_at (set_order w x ox) x) true) as Hpub.
        assert (Eox : order_at (set_order w x ox) x = ox) by apply fn_lookup_insert.
        rewrite Eox in Hpub. fold w2 in Hpub. destruct Hpub as (l & El & Er). exists l.
        split; [|exact Er]. unfold w2. rewrite Eox. exact El.
      * unfold resting_report, fill_id. cbn [fst snd]. rewrite <- Ho. destruct F9 as (l & El & Er).
        exists l. by rewrite R3.
    + etrans; [by apply (stepped_quiet w w2)|]. etrans; [exact F10|].
      exact (recordTrade_stepped side (ctx <| ctx_world := w3 |>) _ _ _ _ _).
    + by intros id ?%list_elem_of_singleton.
Qed.

(** A self match anywhere in the queue, cancelled: the aggressor is as it was. *)
Lemma order_cancel but side x orders0 selfb w pre p o rest y rt ts seq :
  book_side side -> matching but side x orders0 selfb seq w (pre ++ (p, o) :: rest) ->
  ob_orders (w_book w) !! l3_order_id o = Some y ->
  exists w', handleSelfMatch w y rt ts seq SMP.CANCEL_RESTING = (true, w')
    /\ w_glob w' = w_glob w
    /\ matching but side x orders0 selfb seq w' (pre ++ rest)
    /\ swept x side orders0 ts w w' [ActCancel (l3_order_id o)].
Proof.
  intros Hs Hm Hy. pose proof Hm as [Hq Hb Ha Hagg Hreach Hself].
  pose proof Hreach as [_ [(Hp & Hbut & Ho) _]%Forall_cons]%Forall_app.
  unfold flat_id in Hbut, Ho. cbn [fst snd] in Hp, Hbut, Ho.
  pose proof (aggressor_not_met but side w x _ y Hb Hagg Hbut Hy) as Hyx.
  assert (Hin : (p, o) ∈ queue w side) by (rewrite Hq, elem_of_app; right; by apply elem_of_cons; left).
  destruct (own_entry but (w_book w) _ y side p o Hb Hs Hy Hin eq_refl) as (Eid & Eside & _).
  pose proof (deleteOrder_inv but (w_book w) (l3_order_id o) y ts seq false Hb Hy Ha) as Hd.
  cbv zeta in Hd. rewrite Eside in Hd. set (b := deleteOrder (w_book w) y ts seq false) in *.
  destruct Hd as (D1 & [D2 D2'] & D3 & D4 & D5 & D6 & D7).
  set (w1 := w <| w_book := b |>).
  exists (freeOrder (publishOrderCancel w1 (order_at w1 y) rt) y).
  split; [reflexivity|]. split; [reflexivity|].
  set (w' := freeOrder _ y).
  pose proof (side_ids_nodup _ side (bi_l3 but _ Hb) Hs) as Hnd.
  change (flat (getLevelsL3 (ob_l3 (w_book w)) side)) with (queue w side) in Hnd. rewrite Hq in Hnd.
  destruct (flat_set_at _ 0 _ _ _ _ Hnd eq_refl) as [Hset Hnin].
  assert (Eq : queue w' side = pre ++ rest).
  { change (queue w' side) with (flat (getLevelsL3 (ob_l3 b) side)). rewrite D2, flat_levels_set.
    change (flat (getLevelsL3 (ob_l3 (w_book w)) side)) with (queue w side). by rewrite Hq, Hset. }
  assert (Hheap : forall z, z <> y -> order_at w' z = order_at w z).
  { intros z Hz. change (order_at w' z) with (ob_heap b z). destruct (D5 z) as [E|[-> _]]; [exact E|done]. }
  assert (Hcl : forall z, o_client_id (order_at w' z) = o_client_id (order_at w z)).
  { intros z. change (order_at w' z) with (ob_heap b z). destruct (D5 z) as [E|[_ E]]; by rewrite E. }
  assert (Hids : forall id, id ∈ book_ids (ob_l3 b) -> id ∈ book_ids (ob_l3 (w_book w)) /\ id <> l3_order_id o).
  { intros id Hid. pose proof (bo_unique _ (bi_l3 but _ Hb)) as Hu.
    change (NoDup (book_ids (ob_l3 (w_book w)))) in Hu.
    rewrite (book_ids_side _ side Hs) in Hid. rewrite (book_ids_side _ side Hs) in Hu.
    rewrite (book_ids_side _ side Hs), D2' in *.
    change (flat (getLevelsL3 (ob_l3 b) side)) with (queue w' side) in Hid.
    change (flat (getLevelsL3 (ob_l3 (w_book w)) side)) with (queue w side) in *.
    rewrite Eq in Hid. rewrite Hq in Hu |- *. rewrite elem_of_app in Hid |- *.
    apply NoDup_app in Hu as (_ & Hdisj & _). destruct Hid as [Hid|Hid].
    - split; [left|by intros ->]. rewrite map_app, elem_of_app in Hid. rewrite map_app, elem_of_app.
      destruct Hid; [by left|right]. by apply elem_of_cons; right.
    - split; [by right|]. intros ->. apply (Hdisj (l3_order_id o)); [|done].
      rewrite map_app, elem_of_app. right. by apply elem_of_cons; left. }
  assert (Hkeep : forall id, id ∈ book_ids (ob_l3 b) -> ob_orders b !! id = ob_orders (w_book w) !! id).
  { intros id Hid. rewrite D3. apply lookup_delete_ne. by apply not_eq_sym, Hids. }
  split.
  - destruct (entries_stable but side x orders0 selfb seq w w' _ (pre ++ rest) Hm) as [Hr' Hs']; [|done|].
    { apply Forall_forall. intros e He. exists e. split; [rewrite elem_of_app, elem_of_cons in *; tauto|].
      split; [done|]. split; [done|]. apply Hkeep.
      rewrite (book_ids_side _ side Hs), elem_of_app. left. rewrite <- Eq in He. by apply list_elem_of_fmap_2. }
    split; try done; [by apply pool_inv|].
    destruct but as [id|]; unfold aggressor in *.
    + rewrite Hheap by done. destruct Hagg as [Hx Hside]. split; [|done].
      change (ob_orders b !! id = Some x). rewrite D3, lookup_delete_ne by congruence. done.
    + intros id. change (ob_orders b !! id <> Some x). rewrite D3, lookup_delete_Some.
      intros [_ E]. by apply (Hagg id).
  - split; try done.
    + intros id Hid. split; [by apply Hids|by apply Hkeep].
    + by apply Hheap.
    + intros z Hz Hc. apply Hheap. intros ->. apply (Hc (l3_order_id o)); [by apply list_elem_of_singleton|].
      by rewrite <- Ho.
    + cbn [flat_map act_reports app]. pose proof (published_cancel w1 (order_at w1 y) rt) as Hpub.
      assert (E : o_id (order_at w1 y) = l3_order_id o).
      { change (order_at w1 y) with (ob_heap b y). destruct (D5 y) as [E|[_ E]]; rewrite E; exact Eid. }
      rewrite E in Hpub. destruct Hpub as (l & El & Er). by exists l.
    + eapply (stepped_removed _ _ (l3_order_id o) y); [|exact Hy|exact D3|cbn; by rewrite D4|done].
      eapply level_step_same; [exact D7|done|done].
    + intros id [= ->]%list_elem_of_singleton Hid. by apply (Hids _ Hid).
Qed.

(** The loop's exits. *)
Lemma match_step_break side x price rt smp_mode ctx qty :
  book_side side -> book_ok (ob_l3 (w_book (ctx_world ctx))) ->
  negb (0 <? qty) = true
  \/ match queue (ctx_world ctx) side with [] => True | (p, _) :: _ => within side price p = false end ->
  fifo_match_step side x price rt smp_mode (ctx, qty) = (Break, (ctx, qty)).
Proof.
  intros Hs Hok Hstop. unfold fifo_match_step. destruct (negb (0 <? qty)) eqn:E; [done|].
  destruct Hstop as [|Hstop]; [done|].
  pose proof (best_front (ob_l3 (w_book (ctx_world ctx))) side Hok Hs) as Hbest.
  unfold queue in Hstop. destruct (flat _) as [|[p o] rest]; [by rewrite Hbest|].
  destruct Hbest as (l & os & -> & -> & _). unfold within in Hstop. apply negb_false_iff in Hstop.
  by rewrite Hstop.
Qed.

(** Its step at the front of the queue. *)
Lemma match_step_front side x price rt smp_mode ctx qty p o rest :
  book_side side -> book_ok (ob_l3 (w_book (ctx_world ctx))) ->
  queue (ctx_world ctx) side = (p, o) :: rest -> negb (0 <? qty) = false -> within side price p = true ->
  fifo_match_step side x price rt smp_mode (ctx, qty)
  = let w := ctx_world ctx in
    let full_book_order := findOrder (w_book w) (l3_order_id o) in
    if negb (bool_decide (smp_mode = SMP.NONE)) && self w (order_at w x) (l3_order_id o) then
      match full_book_order with
      | None => (Break, (ctx, qty))
      | Some fp =>
          let '(should_continue, w) :=
            handleSelfMatch w fp rt (ctx_event_time ctx) (ctx_seq_num ctx) smp_mode in
          let st := (ctx <| ctx_world := w |>, qty) in
          if negb should_continue then (Return, st) else (Continue, st)
      end
    else
      let trade_qty := Z.min qty (l3_quantity o) in
      let '(ok, ctx) := fillResting side ctx x (l3_order_id o) full_book_order p trade_qty (qty - trade_qty) in
      if negb ok then (Break, (ctx, qty - trade_qty)) else (Continue, (ctx, qty - trade_qty)).
Proof.
  intros Hs Hok Hq Hqty Hw. unfold fifo_match_step. rewrite Hqty.
  pose proof (best_front (ob_l3 (w_book (ctx_world ctx))) side Hok Hs) as Hbest.
  unfold queue in Hq. rewrite Hq in Hbest. destruct Hbest as (l & os & -> & -> & ->).
  unfold within in Hw. apply negb_true_iff in Hw. by rewrite Hw.
Qed.

Lemma swept_keeps_id x side orders0 ts w w' acts :
  swept x side orders0 ts w w' acts -> o_id (order_at w' x) = o_id (order_at w x).
Proof. intros [_ _ -> _ _ _ _]. by apply book_fills_keeps. Qed.

(** The loop from any point of a match performs the sweep of what is queued. *)
Lemma match_loop but side x orders0 selfb t0 agg price rt smp_mode fl :
  let own id := bool_decide (is_Some (orders0 !! id)) in
  book_side side ->
  forall fuel ctx qty fills,
  matching but side x orders0 selfb (ctx_seq_num ctx) (ctx_world ctx) fl ->
  ctx_records side agg own t0 fills ctx -> o_id (order_at (ctx_world ctx) x) = agg ->
  (List.length fl + 2 <= fuel)%nat ->
  (smp_mode = SMP.CANCEL_NEWEST ->
     untouched selfb (sweep (within side price) (skips smp_mode selfb) qty fl).1.1) ->
  let '(acts, q', fl') := sweep (within side price) (skips smp_mode selfb) qty fl in
  exists ctx', while_loop (fifo_match_step side x price rt smp_mode) fuel (ctx, qty)
               = Some (Break, (ctx', q'))
    /\ ctx_records side agg own t0 (fills ++ act_fills acts) ctx'
    /\ ctx_event_time ctx' = ctx_event_time ctx
    /\ matching but side x orders0 selfb (ctx_seq_num ctx) (ctx_world ctx') fl'
    /\ swept x side orders0 (ctx_event_time ctx) (ctx_world ctx) (ctx_world ctx') acts.
Proof.
  intros own Hs. induction fl as [|[p o] rest IH]; intros fuel ctx qty fills Hm Hrec Hid Hfuel Hun;
    (destruct fuel as [|fuel]; [cbn in Hfuel; lia|]); pose proof Hm as [Hq Hb _ _ _ Hself];
    pose proof (bi_l3 but _ Hb) as Hok.
  { cbn [sweep while_loop]. exists ctx. rewrite match_step_break; [|done|done|right; by rewrite Hq].
    rewrite app_nil_r. do 4 (split; [done|]). apply swept_refl. }
  rewrite sweep_cons in *. cbn [while_loop].
  destruct (negb (0 <? qty) || negb (within side price p)) eqn:Estop.
  { exists ctx. rewrite match_step_break; [|done|done|].
    - cbn. rewrite app_nil_r. do 4 (split; [done|]). apply swept_refl.
    - apply orb_true_iff in Estop as [E|E]; [by left|right]. rewrite Hq. by apply negb_true_iff. }
  apply orb_false_iff in Estop as [Eqty Ew]. apply negb_false_iff in Ew.
  rewrite (match_step_front side x price rt smp_mode ctx qty p o rest) by done. cbv zeta.
  apply Forall_cons in Hself as [Eself _]. change (flat_id (p, o)) with (l3_order_id o) in Eself.
  rewrite Eself. apply negb_false_iff, Z.ltb_lt in Eqty.
  destruct (skips smp_mode selfb (l3_order_id o)) eqn:Eskip.
  - unfold skips in Eskip. bool_to_prop. subst smp_mode. rewrite H0. cbn [negb andb].
    rewrite bool_decide_eq_false_2 by done. cbn [negb].
    destruct (findOrder (w_book (ctx_world ctx)) (l3_order_id o)) as [y|] eqn:Ey.
    2: { unfold self, resting_order in Eself. rewrite Ey in Eself. cbn in Eself. congruence. }
    destruct (order_cancel but side x orders0 selfb (ctx_world ctx) [] p o rest y rt (ctx_event_time ctx)
                (ctx_seq_num ctx) Hs Hm Ey) as (w' & -> & Hg & Hm' & Hsw). cbn [negb].
    assert (Hrec' : ctx_records side agg own t0 fills (ctx <| ctx_world := w' |>)).
    { destruct Hrec as [R1 R2 R3]. split; [exact R1|exact R2|]. cbn. by rewrite Hg. }
    specialize (IH fuel (ctx <| ctx_world := w' |>) qty fills Hm' Hrec').
    cbn [fst snd] in *. destruct (sweep _ _ qty rest) as [[acts q'] fl']. cbn [fst snd] in *.
    destruct IH as (ctx2 & Hloop & Hrec2 & Et2 & Hm2 & Hsw2).
    + cbn. rewrite (swept_keeps_id _ _ _ _ _ _ _ Hsw). done.
    + cbn in Hfuel. lia.
    + done.
    + exists ctx2. do 4 (split; [done|]). exact (swept_trans _ _ _ _ _ _ _ _ _ Hsw Hsw2).
  - assert (Hns : negb (bool_decide (smp_mode = SMP.NONE)) && selfb (l3_order_id o) = false).
    { unfold skips in Eskip. destruct smp_mode; cbn in *; [done|by destruct (selfb _)|].
      specialize (Hun eq_refl).
      destruct (l3_quantity o <=? qty); apply Forall_cons in Hun as [Hun _]; exact Hun. }
    rewrite Hns.
    assert (Hpos : 0 < l3_quantity o).
    { apply (flat_pos side _ (p, o) (book_side_ok _ side Hok Hs)).
      change (flat _) with (queue (ctx_world ctx) side). rewrite Hq. by apply elem_of_cons; left. }
    destruct (order_fill but side x orders0 selfb t0 agg fills ctx [] p o rest (Z.min qty (l3_quantity o))
                (qty - Z.min qty (l3_quantity o)) Hs Hm Hrec Hid ltac:(lia))
      as (ctx1 & -> & Hrec1 & Et & Es & Hm1 & Hsw1). cbn [negb].
    destruct (l3_quantity o <=? qty) eqn:Ele; bool_to_prop.
    + replace (Z.min qty (l3_quantity o)) with (l3_quantity o) in * by lia.
      rewrite leftover_all in Hm1. cbn [app] in *. rewrite <- Es in Hm1.
      specialize (IH fuel ctx1 (qty - l3_quantity o) (fills ++ [(p, l3_order_id o, l3_quantity o)]) Hm1 Hrec1).
      cbn [fst snd] in *. destruct (sweep _ _ (qty - l3_quantity o) rest) as [[acts q'] fl']. cbn [fst snd] in *.
      destruct IH as (ctx2 & Hloop & Hrec2 & Et2 & Hm2 & Hsw2).
      * rewrite (swept_keeps_id _ _ _ _ _ _ _ Hsw1). done.
      * cbn in Hfuel. lia.
      * intros Hm'. by apply (Forall_cons_1 _ _ _ (Hun Hm')).
      * exists ctx2. cbn [act_fills omap list_omap act_fill]. rewrite <- app_assoc in Hrec2.
        rewrite Et in *. rewrite <- Es. do 4 (split; [done|]). exact (swept_trans _ _ _ _ _ _ _ _ _ Hsw1 Hsw2).
    + replace (Z.min qty (l3_quantity o)) with qty in * by lia. rewrite Z.sub_diag.
      rewrite leftover_part in * by lia.
      destruct fuel as [|fuel]; [cbn in Hfuel; lia|]. cbn [while_loop].
      rewrite match_step_break; [|done|by apply (bi_l3 but _ (mt_inv _ _ _ _ _ _ _ _ Hm1))|by left].
      exists ctx1. do 4 (split; [done|]). exact Hsw1.
Qed.

(** ** Before the loop *)

(** The world once a new order is acknowledged, or an amendment applied and confirmed. *)
Definition started w (x : ptr) (price : price_t) (qty : qty_t) (rt : time_t) : World :=
  let order := order_at w x in
  let w := if bool_decide (o_status order = OrderStatus.PENDING_NEW) then publishOrderAck w order rt else w in
  if bool_decide (o_status order = OrderStatus.PENDING_REPLACE) then
    let order := applyReplace order price qty in
    publishOrderModify (set_order w x order) order price qty rt
  else w.

(** The accounting every fill keeps ([fills_account]). *)
Definition balanced (o : Order) : Prop := o_cum_quantity o + o_leaves_quantity o = o_quantity o /\ 0 <= o_leaves_quantity o.

Lemma started_fields w x price qty rt :
  let w' := started w x price qty rt in let o := order_at w x in
  balanced o ->
  (w_book w' = w_book w \/ w_book w' = book_set_order (w_book w) x (applyReplace o price qty))
  /\ w_glob w' = w_glob w /\ w_md w' = w_md w
  /\ o_id (order_at w' x) = o_id o /\ o_side (order_at w' x) = o_side o
  /\ o_priority (order_at w' x) = o_priority o /\ o_client_id (order_at w' x) = o_client_id o
  /\ o_identity (order_at w' x) = o_identity o /\ o_time_in_force (order_at w' x) = o_time_in_force o
  /\ o_leaves_quantity (order_at w' x) = effective_qty o qty.
Proof.
  intros w' o [Hbal Hl]. unfold w', started, effective_qty. fold o.
  destruct (bool_decide_reflect (o_status o = OrderStatus.PENDING_REPLACE)) as [E|E].
  - rewrite bool_decide_eq_false_2 by congruence.
    change (order_at (publishOrderModify (set_order w x (applyReplace o price qty)) _ _ _ _) x)
      with ((<[x := applyReplace o price qty]> (ob_heap (w_book w))) x).
    rewrite fn_lookup_insert. split; [by right|]. do 8 (split; [done|]).
    unfold applyReplace. cbn. destruct (qty <=? o_cum_quantity o) eqn:E1; bool_to_prop; lia.
  - destruct (bool_decide (o_status o = OrderStatus.PENDING_NEW)); (split; [by left|]);
      do 8 (split; [done|]); done.
Qed.

Lemma book_inv_weaken id (w : World) : book_inv None (w_book w) -> book_inv (Some id) (w_book w).
Proof.
  intros [H1 H2 H3 H4 H5]. split; try done. intros id' x Hx. destruct (H2 id' x Hx) as (A1 & A2 & A3 & px & e & A4 & A5 & A6).
  do 3 (split; [done|]). exists px, e. split; [done|]. split; [done|]. intros _. by apply A6.
Qed.

(** The start of a match is a match in progress. *)
Lemma started_matching but side x price qty rt seq w :
  book_side side -> book_inv but (w_book w) -> seq_accepted (ob_l3 (w_book w)) seq = true ->
  aggressor but side w x -> priced w side -> balanced (order_at w x) ->
  matching but side x (ob_orders (w_book w)) (self w (order_at w x)) seq
    (started w x price qty rt) (queue w side).
Proof.
  intros Hs Hb Ha Hagg Hp Hbal.
  destruct (started_fields w x price qty rt Hbal) as (Hbook & Hg & _ & E1 & E2 & E3 & E4 & E5 & _).
  set (w' := started w x price qty rt) in *.
  assert (Hl3 : ob_l3 (w_book w') = ob_l3 (w_book w)) by (by destruct Hbook as [-> | ->]).
  assert (Ho : ob_orders (w_book w') = ob_orders (w_book w)) by (by destruct Hbook as [-> | ->]).
  assert (Hc : forall y, o_client_id (order_at w' y) = o_client_id (order_at w y)).
  { intros y. destruct (decide (y = x)) as [->|Hy]; [done|]. unfold order_at.
    destruct Hbook as [-> | ->]; [done|]. change (ob_heap (book_set_order ?b x ?o) y) with ((<[x := o]> (ob_heap b)) y).
    by rewrite fn_lookup_insert_ne by congruence. }
  split.
  - unfold queue. by rewrite Hl3.
  - destruct Hbook as [-> |E]; [done|]. rewrite E. by apply (set_aggressor_inv but side).
  - by rewrite Hl3.
  - destruct but as [id|]; unfold aggressor in *; rewrite Ho; [|done]. rewrite E2. done.
  - unfold reachable_queue. rewrite Ho. unfold priced in Hp. rewrite Forall_forall in Hp |- *.
    intros [p e] He. split; [by apply Hp|]. split; [|done]. intros ->. destruct Hagg as [Hx Hside].
    destruct (own_entry _ (w_book w) _ x side p e Hb Hs Hx He eq_refl) as (_ & Hside' & _).
    unfold order_at in Hside. rewrite Hside in Hside'.
    by destruct Hs as [-> | ->].
  - apply Forall_forall. intros e _. apply self_stable; [done|by rewrite Ho|done].
Qed.

(** The shared part of the theorems below: matching past the checks is the sweep. *)
Lemma order_sweeps but side x price qty rt ts seq smp_mode w :
  book_side side -> book_inv but (w_book w) -> seq_accepted (ob_l3 (w_book w)) seq = true ->
  aggressor but side w x -> priced w side -> balanced (order_at w x) ->
  0 <= g_next_trade_id (w_glob w) < 2 ^ 64 ->
  prepareOrder side Queue w x price qty rt smp_mode = (None, started w x price qty rt) ->
  let selfb := self w (order_at w x) in
  let w1 := started w x price qty rt in
  (smp_mode = SMP.CANCEL_NEWEST ->
     untouched selfb (sweep (within side price) (skips smp_mode selfb)
                        (effective_qty (order_at w x) qty) (queue w side)).1.1) ->
  let '(acts, q', fl') :=
    sweep (within side price) (skips smp_mode selfb) (effective_qty (order_at w x) qty) (queue w side) in
  exists summaries w',
    fifo_matchOrder side w x price qty rt ts seq smp_mode
    = Some (OrdReject.NONE, summaries, cancelUnrestableRemainder w' x q' rt)
    /\ records side (o_id (order_at w x)) ts (is_own w) (g_next_trade_id (w_glob w)) (act_fills acts) summaries
    /\ matching but side x (ob_orders (w_book w)) selfb seq w' fl'
    /\ swept x side (ob_orders (w_book w)) ts w1 w' acts.
Proof.
  intros Hs Hb Ha Hagg Hp Hbal Ht Hprep selfb w1 Hun.
  pose proof (started_matching but side x price qty rt seq w Hs Hb Ha Hagg Hp Hbal) as Hm. fold w1 selfb in Hm.
  destruct (started_fields w x price qty rt Hbal) as (Hbook & Hg & _ & E1 & _ & _ & _ & _ & _ & El).
  fold w1 in Hbook, Hg, E1, El.
  pose proof (match_loop but side x (ob_orders (w_book w)) selfb (g_next_trade_id (w_glob w1))
    (o_id (order_at w x)) price rt smp_mode (queue w side) Hs (loop_fuel w1 side)
    (new_context w1 ts seq) (effective_qty (order_at w x) qty) [] Hm
    (new_context_records side _ _ w1 ts seq ltac:(by rewrite Hg)) E1) as Hloop.
  cbn [ctx_world new_context ctx_event_time ctx_seq_num] in Hloop.
  destruct (sweep _ _ _ _) as [[acts q'] fl'].
  destruct Hloop as (ctx' & Hl & Hrec & Et & Hm' & Hsw); [|done|].
  { unfold loop_fuel. destruct Hbook as [-> | ->]; unfold queue; cbn; lia. }
  exists (ctx_summaries ctx'), (ctx_world ctx'). unfold fifo_matchOrder. rewrite Hprep. fold w1.
  rewrite El, Hl. split; [done|]. rewrite Hg in Hrec. destruct Hrec as [Hr _ _]. rewrite Et in Hr.
  split; [exact Hr|]. by split.
Qed.

Lemma fifo_match_side w x price qty rt ts seq smp_mode :
  book_side (o_side (order_at w x)) ->
  fifo_match w x price qty rt ts seq smp_mode
  = fifo_matchOrder (opposite_side (o_side (order_at w x))) w x price qty rt ts seq smp_mode.
Proof. unfold fifo_match. by intros [-> | ->]. Qed.

(** Whether [CANCEL_NEWEST] turns the order away. *)
Definition newest_hits w (x : ptr) (price : price_t) (qty : qty_t) (smp_mode : SelfMatchPreventionMode) : bool :=
  let order := order_at w x in let side := opposite_side (o_side order) in
  bool_decide (smp_mode = SMP.CANCEL_NEWEST) && (0 <? effective_qty order qty)
  && existsb (fun a => self w order (act_id a))
       (sweep (within side price) never_skip (effective_qty order qty) (queue w side)).1.1.

(** All that the theorems on client orders assume of the world and the aggressor. *)
Record match_ready (but : option Z) w (x : ptr) (seq : Z) : Prop := {
  mr_side : book_side (o_side (order_at w x));
  mr_inv : book_inv but (w_book w);
  mr_accepted : seq_accepted (ob_l3 (w_book w)) seq = true;
  mr_aggressor : aggressor but (opposite_side (o_side (order_at w x))) w x;
  mr_priced : priced w (opposite_side (o_side (order_at w x)));
  mr_balanced : balanced (order_at w x);
  mr_trade_id : 0 <= g_next_trade_id (w_glob w) < 2 ^ 64
}.

Lemma sweep_ext limit skip skip' qty fl :
  (forall id, skip id = skip' id) -> sweep limit skip qty fl = sweep limit skip' qty fl.
Proof.
  intros E. revert qty. induction fl as [|[p o] fl IH]; intros qty; [done|].
  rewrite !sweep_cons, E, !IH. done.
Qed.

Lemma untouched_existsb selfb acts : existsb (fun a => selfb (act_id a)) acts = false <-> untouched selfb acts.
Proof.
  unfold untouched. induction acts as [|a acts IH]; [done|]. cbn. rewrite orb_false_iff, IH, Forall_cons. done.
Qed.

(** What an order that may match sweeps, when it is not turned away. *)
Lemma newest_untouched w x price qty smp_mode :
  let order := order_at w x in let side := opposite_side (o_side order) in
  newest_hits w x price qty smp_mode = false -> 0 < effective_qty order qty ->
  smp_mode = SMP.CANCEL_NEWEST ->
  untouched (self w order) (sweep (within side price) (skips smp_mode (self w order))
                              (effective_qty order qty) (queue w side)).1.1.
Proof.
  intros order side Hn Hq ->. unfold newest_hits in Hn. rewrite bool_decide_eq_true_2 in Hn by done.
  fold order in Hn. rewrite (proj2 (Z.ltb_lt _ _) Hq) in Hn. cbn [andb] in Hn.
  rewrite (sweep_ext _ _ never_skip) by done. by apply untouched_existsb.
Qed.

Lemma prepare_newest but w x price qty seq smp_mode :
  match_ready but w x seq ->
  let side := opposite_side (o_side (order_at w x)) in
  bool_decide (smp_mode = SMP.CANCEL_NEWEST)
    && ((0 <? effective_qty (order_at w x) qty)
        && wouldSelfMatch side Queue w (order_at w x) price (effective_qty (order_at w x) qty))
  = newest_hits w x price qty smp_mode.
Proof.
  intros [H1 H2 _ _ _ _ _] side. unfold newest_hits. fold side.
  rewrite (wouldSelfMatch_spec side w _ _ _ (bi_l3 _ _ H2) (opposite_book_side _ H1)).
  by rewrite andb_assoc.
Qed.

(** The checks before the loop, for an order that is not fill-or-kill. *)
Lemma prepare_plain but w x price qty rt seq smp_mode :
  match_ready but w x seq -> newest_hits w x price qty smp_mode = false ->
  o_time_in_force (order_at w x) <> TimeInForce.FILL_OR_KILL ->
  prepareOrder (opposite_side (o_side (order_at w x))) Queue w x price qty rt smp_mode
  = if effective_qty (order_at w x) qty =? 0
    then (Some OrdReject.NONE,
          publishOrderCancel (started w x price qty rt) (order_at (started w x price qty rt) x) rt)
    else (None, started w x price qty rt).
Proof.
  intros Hr Hn Htif. unfold prepareOrder. rewrite (prepare_newest but w x price qty seq) by done.
  rewrite Hn. rewrite (bool_decide_eq_false_2 _ Htif). cbn [andb].
  destruct (started_fields w x price qty rt (mr_balanced _ _ _ _ Hr)) as (_ & _ & _ & _ & _ & _ & _ & _ & _ & El).
  unfold started in *. cbv zeta in *. rewrite El. done.
Qed.

Lemma fifo_sweeps but w x price qty rt ts seq smp_mode :
  match_ready but w x seq -> newest_hits w x price qty smp_mode = false ->
  o_time_in_force (order_at w x) <> TimeInForce.FILL_OR_KILL ->
  0 < effective_qty (order_at w x) qty ->
  let side := opposite_side (o_side (order_at w x)) in
  let selfb := self w (order_at w x) in
  let '(acts, q', fl') :=
    sweep (within side price) (skips smp_mode selfb) (effective_qty (order_at w x) qty) (queue w side) in
  exists summaries w',
    fifo_match w x price qty rt ts seq smp_mode
    = Some (OrdReject.NONE, summaries, cancelUnrestableRemainder w' x q' rt)
    /\ records side (o_id (order_at w x)) ts (is_own w) (g_next_trade_id (w_glob w)) (act_fills acts) summaries
    /\ matching but side x (ob_orders (w_book w)) selfb seq w' fl'
    /\ swept x side (ob_orders (w_book w)) ts (started w x price qty rt) w' acts.
Proof.
  intros Hr Hn Htif Hq side selfb. rewrite fifo_match_side by apply Hr.
  pose proof Hr as [H1 H2 H3 H4 H5 H6 H7].
  apply order_sweeps; try done; [by apply opposite_book_side| |].
  - unfold side. rewrite (prepare_plain but w x price qty rt seq smp_mode Hr Hn Htif).
    by rewrite (proj2 (Z.eqb_neq _ 0)) by lia.
  - intros Hm. by apply newest_untouched.
Qed.

(** C1. Matching a client order through the FIFO engine, past its checks, terminates within
    its fuel and performs exactly the sweep of the opposite side - own resting orders
    cancelled on the way in [cancel_resting] mode, never traded with. The summaries record
    exactly the fills; the queue left is the sweep's and the other side is untouched; the
    aggressor has exactly the fills booked, every client order met has its own fill booked;
    every other order's entry in the book and in the lookup map is unchanged; and exactly
    one report per act and party is published, in order. *)
Theorem fifo_order_refines but w x price qty rt ts seq smp_mode :
  match_ready but w x seq -> newest_hits w x price qty smp_mode = false ->
  o_time_in_force (order_at w x) <> TimeInForce.FILL_OR_KILL ->
  0 < effective_qty (order_at w x) qty ->
  let side := opposite_side (o_side (order_at w x)) in
  let selfb := self w (order_at w x) in
  let '(acts, q', fl') :=
    sweep (within side price) (skips smp_mode selfb) (effective_qty (order_at w x) qty) (queue w side) in
  exists summaries w',
    fifo_match w x price qty rt ts seq smp_mode
    = Some (OrdReject.NONE, summaries, cancelUnrestableRemainder w' x q' rt)
    /\ records side (o_id (order_at w x)) ts (is_own w) (g_next_trade_id (w_glob w)) (act_fills acts) summaries
    /\ matching but side x (ob_orders (w_book w)) selfb seq w' fl'
    /\ swept x side (ob_orders (w_book w)) ts (started w x price qty rt) w' acts.
Proof. apply fifo_sweeps. Qed.

Lemma book_fills_leaves o fills : o_leaves_quantity (book_fills o fills) = o_leaves_quantity o - fills_qty fills.
Proof.
  revert o. induction fills as [|[[p q] t] fills IH]; intros o; [unfold fills_qty; cbn; lia|].
  change (book_fills o ((p, q, t) :: fills)) with (book_fills (executeOrder o p q t) fills).
  rewrite IH. unfold fills_qty. cbn. lia.
Qed.

Lemma own_fills_qty ts acts : fills_qty (own_fills ts acts) = filled acts.
Proof.
  unfold fills_qty, own_fills, filled. by rewrite map_map.
Qed.

(** The report of a rejected or finished order leaves the book alone. *)
Lemma remainder_book w x q rt :
  w_book (cancelUnrestableRemainder w x q rt) = w_book w.
Proof. unfold cancelUnrestableRemainder. by case_test. Qed.


(** [cancel_newest] is all or nothing: the incoming order is turned away exactly when
    one of the orders it would reach is the same client's, and then nothing at all has
    happened - no trade, no report, no change to the world; otherwise no trade is a self
    trade. *)
Lemma fifo_cancel_newest but w x price qty rt ts seq :
  match_ready but w x seq -> 0 < effective_qty (order_at w x) qty ->
  o_time_in_force (order_at w x) <> TimeInForce.FILL_OR_KILL ->
  exists reason summaries w',
    fifo_match w x price qty rt ts seq SMP.CANCEL_NEWEST = Some (reason, summaries, w')
    /\ (reason = OrdReject.SMP <-> newest_hits w x price qty SMP.CANCEL_NEWEST = true)
    /\ (reason = OrdReject.SMP -> summaries = [] /\ w' = w)
    /\ Forall (fun f => self w (order_at w x) (fill_id f) = false) (legs summaries).
Proof.
  intros Hr Hq Htif. destruct (newest_hits w x price qty SMP.CANCEL_NEWEST) eqn:Hn.
  - exists OrdReject.SMP, [], w. rewrite fifo_match_side by apply Hr. unfold fifo_matchOrder, prepareOrder.
    rewrite (prepare_newest but w x price qty seq) by done. rewrite Hn.
    split; [done|]. split; [done|]. split; [done|]. constructor.
  - pose proof (fifo_sweeps but w x price qty rt ts seq _ Hr Hn Htif Hq) as Href. cbv zeta in Href.
    pose proof (newest_untouched w x price qty _ Hn Hq eq_refl) as Hun. cbv zeta in Hun.
    destruct (sweep _ _ _ _) as [[acts q'] fl']. destruct Href as (summaries & w' & Hm & Hrec & _).
    exists OrdReject.NONE, summaries, (cancelUnrestableRemainder w' x q' rt).
    split; [exact Hm|]. split; [done|]. split; [done|]. rewrite (rc_legs _ _ _ _ _ _ _ Hrec).
    cbn [fst] in Hun. unfold untouched in Hun. rewrite Forall_forall in Hun. apply Forall_forall. intros f Hf.
    unfold act_fills in Hf. apply list_elem_of_omap in Hf as ([p id q|id] & Ha & E); [|done].
    injection E as <-. apply (Hun _ Ha).
Qed.

(** The fill-or-kill check answers whether the sweep would leave anything. *)
Lemma prepare_fok but w x price qty rt seq smp_mode :
  match_ready but w x seq -> newest_hits w x price qty smp_mode = false ->
  let order := order_at w x in let side := opposite_side (o_side order) in
  o_time_in_force order = TimeInForce.FILL_OR_KILL -> o_status order = OrderStatus.PENDING_NEW ->
  qty = o_leaves_quantity order -> 0 < qty ->
  prepareOrder side Queue w x price qty rt smp_mode
  = if (sweep (within side price) (skips smp_mode (self w order)) qty (queue w side)).1.2 =? 0
    then (None, started w x price qty rt)
    else (Some OrdReject.FOK_CANNOT_FILL, publishOrderCancel (publishOrderAck w order rt) order rt).
Proof.
  intros Hr Hn order side Htif Hst Hl Hq. unfold prepareOrder. fold order.
  assert (Eeff : effective_qty order qty = qty).
  { unfold effective_qty. rewrite bool_decide_eq_false_2; congruence. }
  pose proof (prepare_newest but w x price qty seq smp_mode Hr) as Hp. cbv zeta in Hp. fold order side in Hp.
  rewrite Hp, Hn. rewrite Hst, Htif. rewrite !bool_decide_eq_true_2 by done. cbn [andb].
  rewrite (canFillCompletely_spec side (publishOrderAck w order rt) order price qty smp_mode).
  - change (queue (publishOrderAck w order rt) side) with (queue w side).
    change (self (publishOrderAck w order rt) order) with (self w order).
    destruct (_ =? 0); cbn [negb]; [|done].
    rewrite bool_decide_eq_false_2 by done. unfold started. fold order. rewrite Hst.
    rewrite bool_decide_eq_false_2, bool_decide_eq_true_2 by done.
    change (order_at (publishOrderAck w order rt) x) with order.
    by rewrite (proj2 (Z.eqb_neq _ 0)) by lia.
  - exact (bi_l3 but _ (mr_inv _ _ _ _ Hr)).
  - apply opposite_book_side, Hr.
  - done.
  - intros Hm. pose proof (newest_untouched w x price qty smp_mode Hn) as Hun. cbv zeta in Hun.
    fold order side in Hun. rewrite Eeff in Hun. by apply Hun.
Qed.

(** Fill or kill: a new fill-or-kill order trades its whole quantity when the orders it
    may meet within its limit offer that much, and otherwise trades nothing: the book is
    not touched, no trade is summarised, and the client hears exactly the acknowledgement
    and the cancel. *)
Lemma fifo_fill_or_kill but w x price qty rt ts seq smp_mode :
  match_ready but w x seq -> newest_hits w x price qty smp_mode = false ->
  let order := order_at w x in let side := opposite_side (o_side order) in
  o_time_in_force order = TimeInForce.FILL_OR_KILL -> o_status order = OrderStatus.PENDING_NEW ->
  qty = o_leaves_quantity order -> 0 < qty ->
  if qty <=? available (within side price) (skips smp_mode (self w order)) (queue w side)
  then exists summaries w',
    fifo_match w x price qty rt ts seq smp_mode = Some (OrdReject.NONE, summaries, w')
    /\ zsum (map ts_qty summaries) = qty /\ o_leaves_quantity (order_at w' x) = 0
  else exists w',
    fifo_match w x price qty rt ts seq smp_mode = Some (OrdReject.FOK_CANNOT_FILL, [], w')
    /\ w_book w' = w_book w /\ w_glob w' = w_glob w
    /\ published w w' [RepOther (o_id order) ExecType.NEW; RepOther (o_id order) ExecType.CANCELED].
Proof.
  intros Hr Hn order side Htif Hst Hl Hq. pose proof Hr as [H1 H2 H3 H4 H5 H6 H7].
  pose proof (opposite_book_side _ H1) as Hs. fold order side in Hs.
  pose proof (within_cut side price _ Hs (book_side_ok _ side (bi_l3 but _ H2) Hs)) as Hsorted.
  pose proof (prepare_fok but w x price qty rt seq smp_mode Hr Hn Htif Hst Hl Hq) as Hp. cbv zeta in Hp.
  fold order side in Hp.
  assert (Eeff : effective_qty order qty = qty).
  { unfold effective_qty. rewrite bool_decide_eq_false_2; congruence. }
  pose proof (sweep_left (within side price) (skips smp_mode (self w order)) qty (queue w side) ltac:(lia)
                (queue_pos w side (bi_l3 but _ H2) Hs) Hsorted) as Hleft.
  pose proof (sweep_conserves (within side price) (skips smp_mode (self w order)) qty (queue w side)) as Hcons.
  rewrite fifo_match_side by done. fold order side. rewrite Hleft in Hp.
  destruct (qty <=? _) eqn:E; bool_to_prop.
  - rewrite (proj2 (Z.eqb_eq _ 0)) in Hp by lia.
    pose proof (order_sweeps but side x price qty rt ts seq smp_mode w Hs H2 H3 H4 H5 H6 H7 Hp) as Href.
    cbv zeta in Href. fold order in Href. rewrite Eeff in Href. lapply Href; clear Href.
    2: { intros Hm. pose proof (newest_untouched w x price qty smp_mode Hn) as Hun. cbv zeta in Hun.
      fold order side in Hun. rewrite Eeff in Hun. by apply Hun. }
    destruct (sweep _ _ _ _) as [[acts q'] fl']. cbn [fst snd] in *.
    intros (summaries & w' & Hm & Hrec & _ & Hsw). exists summaries. eexists. split; [exact Hm|].
    rewrite (summaries_total _ _ _ _ _ (rc_ok _ _ _ _ _ _ _ Hrec)), (rc_legs _ _ _ _ _ _ _ Hrec).
    change (zsum (map fill_qty (act_fills ?a))) with (filled a).
    split; [lia|]. unfold order_at. rewrite remainder_book. change (ob_heap (w_book w') x) with (order_at w' x).
    rewrite (sw_aggressor _ _ _ _ _ _ _ Hsw), book_fills_leaves, own_fills_qty.
    destruct (started_fields w x price qty rt H6) as (_ & _ & _ & _ & _ & _ & _ & _ & _ & ->).
    fold order. rewrite Eeff. lia.
  - rewrite (proj2 (Z.eqb_neq _ 0)) in Hp by lia. eexists. split; [unfold fifo_matchOrder; by rewrite Hp|].
    split; [done|]. split; [done|]. eexists. split; [cbn; by rewrite <- app_assoc|]. done.
Qed.
End FifoOrders.

(** ** A concrete match *)

(** The pooled order of a buyer, waiting to be matched in slot 1 of the sample world. *)
Definition sample_buyer (qty : qty_t) (client : Z) (tif : TimeInForce) : World RefBook Z :=
  let '(x, w) := allocateOrder sample_world in
  set_order w x ((resetFillAccounting (order_at w x) qty)
                   <| o_side := BUY |> <| o_price := 101 |> <| o_client_id := client |>
                   <| o_type := OrderType.LIMIT |> <| o_time_in_force := tif |>
                   <| o_status := OrderStatus.PENDING_NEW |>).

Lemma no_pointer (m : gmap Z Z) x :
  forallb (fun kv : Z * Z => negb (kv.2 =? x)) (map_to_list m) = true -> forall id, m !! id <> Some x.
Proof.
  rewrite forallb_forall. intros H id E. apply elem_of_map_to_list, list_elem_of_In in E.
  specialize (H _ E). cbn in H. by rewrite Z.eqb_refl in H.
Qed.

Lemma sample_ready qty client tif : 0 <= qty -> match_ready None (sample_buyer qty client tif) 1 0.
Proof.
  intros Hq. split.
  - by left.
  - apply book_check_sound. vm_compute. reflexivity.
  - reflexivity.
  - refine (no_pointer (ob_orders (w_book (sample_buyer qty client tif))) 1 _). vm_compute. reflexivity.
  - assert (E : queue (sample_buyer qty client tif)
                  (opposite_side (o_side (order_at (sample_buyer qty client tif) 1)))
                = queue sample_world SELL) by (vm_compute; reflexivity).
    unfold priced. rewrite E. exact (sample_priced SELL (or_intror eq_refl)).
  - assert (E : o_leaves_quantity (order_at (sample_buyer qty client tif) 1) = qty) by (vm_compute; reflexivity).
    split; [vm_compute; reflexivity|by rewrite E].
  - vm_compute. split; congruence.
Qed.

(** A client crosses two phantom orders and its own resting order, which is cancelled. *)
Lemma fifo_order_refines_witness :
  let w := sample_buyer 7 1 TimeInForce.DAY in
  exists summaries w',
    fifo_match w 1 101 7 6 6 0 SMP.CANCEL_RESTING
    = Some (OrdReject.NONE, summaries, cancelUnrestableRemainder w' 1 0 6)
    /\ records SELL (o_id (order_at w 1)) 6 (is_own w) (g_next_trade_id (w_glob w))
         [(100, 1001, 5); (101, 1002, 2)] summaries
    /\ swept 1 SELL (ob_orders (w_book w)) 6 (started w 1 101 7 6) w'
         [ActFill 100 1001 5; ActCancel 1; ActFill 101 1002 2].
Proof.
  intros w.
  pose proof (fifo_order_refines None w 1 101 7 6 6 0 SMP.CANCEL_RESTING
    (sample_ready 7 1 TimeInForce.DAY ltac:(lia)) ltac:(vm_compute; reflexivity) ltac:(vm_compute; congruence)
    ltac:(vm_compute; reflexivity)) as H. cbv zeta in H.
  assert (E : sweep (within (opposite_side (o_side (order_at w 1))) 101)
                (skips SMP.CANCEL_RESTING (self w (order_at w 1))) (effective_qty (order_at w 1) 7)
                (queue w (opposite_side (o_side (order_at w 1))))
    = ([ActFill 100 1001 5; ActCancel 1; ActFill 101 1002 2], 0, [(101, mkL3Order 1002 3 3)]))
    by (vm_compute; reflexivity).
  rewrite E in H. destruct H as (summaries & w' & H1 & H2 & _ & H3).
  exact (ex_intro _ summaries (ex_intro _ w' (conj H1 (conj H2 H3)))).
Defined.


(** The same order in [cancel_newest] mode. *)
Lemma fifo_cancel_newest_witness :
  let w := sample_buyer 7 1 TimeInForce.DAY in
  exists reason summaries w',
    fifo_match w 1 101 7 6 6 0 SMP.CANCEL_NEWEST = Some (reason, summaries, w')
    /\ (reason = OrdReject.SMP <-> newest_hits w 1 101 7 SMP.CANCEL_NEWEST = true)
    /\ (reason = OrdReject.SMP -> summaries = [] /\ w' = w).
Proof.
  intros w.
  destruct (fifo_cancel_newest None w 1 101 7 6 6 0 (sample_ready 7 1 TimeInForce.DAY ltac:(lia))
    ltac:(vm_compute; reflexivity) ltac:(vm_compute; congruence)) as (r & summaries & w' & H1 & H2 & H3 & _).
  exact (ex_intro _ r (ex_intro _ summaries (ex_intro _ w' (conj H1 (conj H2 H3))))).
Defined.

(** Thirteen lots are on offer within the limit; twenty are not. *)
Lemma fifo_fill_or_kill_witness :
  let w := sample_buyer 13 2 TimeInForce.FILL_OR_KILL in
  exists summaries w',
    fifo_match w 1 101 13 6 6 0 SMP.NONE = Some (OrdReject.NONE, summaries, w')
    /\ zsum (map ts_qty summaries) = 13 /\ o_leaves_quantity (order_at w' 1) = 0.
Proof.
  intros w.
  pose proof (fifo_fill_or_kill None w 1 101 13 6 6 0 SMP.NONE
    (sample_ready 13 2 TimeInForce.FILL_OR_KILL ltac:(lia)) ltac:(vm_compute; reflexivity)) as H.
  cbv zeta in H. specialize (H eq_refl eq_refl eq_refl eq_refl).
  assert (E : (13 <=? available (within (opposite_side (o_side (order_at w 1))) 101)
                 (skips SMP.NONE (self w (order_at w 1)))
                 (queue w (opposite_side (o_side (order_at w 1))))) = true) by (vm_compute; reflexivity).
  rewrite E in H. exact H.
Defined.
