(* ===== verification/ProRata.v ===== *)
(** * The pro-rata matching engine

    Models [src/matching_engine/pro_rata_matching_engine.hpp] and its [.cpp]. The scratch
    buffer [allocations_] is emptied by [allocate] before each use, so it is the list that
    [allocate] returns; quantities that the code adds as 64-bit integers are added as
    integers, the theorems assuming that a level's total fits. *)

From S2P Require Import Prelude Types FixedString Orders Messages MarketData L3Interface.
From S2P Require Import L3Lemmas OrderBook MatchCommon FifoEngine.

Record ProRataConfig := mkProRataConfig {
  lot_size : qty_t;
  min_allocation : qty_t;
  fifo_percent : Z
}.

(** The member initialisers. *)
Definition default_pro_rata : ProRataConfig := mkProRataConfig DOUBLE_MULTIPLIER 0 0.

(** One resting order's share of an aggressor at a level; [al_order] is resolved only when
    self-match prevention needs it. *)
Record Allocation := mkAllocation {
  al_order_id : Z;
  al_size : qty_t;
  al_qty : qty_t;
  al_order : option ptr
}.

#[export] Instance Allocation_eta : Eta Allocation := fun a =>
  mkAllocation (al_order_id a) (al_size a) (al_qty a) (al_order a).

Definition floorLot (config : ProRataConfig) (qty : qty_t) : qty_t := qty - Z.rem qty (lot_size config).

(** floor(a * b / c) on non-negative quantities, with b <= c. *)
Definition share_of (a b c : qty_t) : qty_t := i64 (mul_div_floor (u64 a) (u64 b) (u64 c)).

(** The loop of step 1, over the whole level: the FIFO slice. *)
Fixpoint fifo_slice (fifo : qty_t) (l : list Allocation) : list Allocation :=
  match l with
  | [] => []
  | a :: r =>
      if fifo =? 0 then a :: r
      else let q := Z.min fifo (al_size a) in (a <| al_qty := q |>) :: fifo_slice (fifo - q) r
  end.

(** Step 2: pro-rata on what each order still has, against what the level still has. *)
Definition pro_rata_share (config : ProRataConfig) (pro_rata base : qty_t) (a : Allocation) : qty_t :=
  let share := floorLot config (share_of pro_rata (al_size a - al_qty a) base) in
  if share <? min_allocation config then 0 else share.

Fixpoint pro_rata_split (config : ProRataConfig) (pro_rata base remaining : qty_t) (l : list Allocation)
  : list Allocation * qty_t :=
  match l with
  | [] => ([], remaining)
  | a :: r =>
      let share := pro_rata_share config pro_rata base a in
      let '(r, remaining) := pro_rata_split config pro_rata base (remaining - share) r in
      ((a <| al_qty ::= fun q => q + share |>) :: r, remaining)
  end.

(** Step 3: whatever is left goes FIFO, with no minimum. *)
Fixpoint fifo_rest (remaining : qty_t) (l : list Allocation) : list Allocation :=
  match l with
  | [] => []
  | a :: r =>
      if remaining =? 0 then a :: r
      else let extra := Z.min remaining (al_size a - al_qty a) in
           (a <| al_qty ::= fun q => q + extra |>) :: fifo_rest (remaining - extra) r
  end.

Definition level_total (l : list Allocation) : qty_t := zsum (map al_size l).

(** [allocate], from the point where [allocations_] lists the level. *)
Definition split_level (config : ProRataConfig) (qty : qty_t) (l : list Allocation) : list Allocation :=
  let total := level_total l in
  if total <=? qty then map (fun a => a <| al_qty := al_size a |>) l
  else
    let '(l, remaining) :=
      if 0 <? fifo_percent config then
        let fifo := floorLot config (share_of qty (fifo_percent config) 100) in
        (fifo_slice fifo l, qty - fifo)
      else (l, qty) in
    let '(l, remaining) :=
      if 0 <? remaining then pro_rata_split config remaining (total - (qty - remaining)) remaining l else (l, remaining) in
    fifo_rest remaining l.

Section ProRata.
Context {L3 Pool : Type} {l3ops : L3Ops L3} {poolops : ObjectPool Pool} {env : Environment}.
Abbreviation OrderBook := (OrderBook L3 Pool).
Abbreviation World := (World L3 Pool).
Abbreviation MatchContext := (MatchContext L3 Pool).

Definition list_entry (b : OrderBook) (resolve : bool) (o : L3Order) : Allocation :=
  mkAllocation (l3_order_id o) (l3_quantity o) 0
    (if resolve then findOrder b (l3_order_id o) else None).

Definition list_level (b : OrderBook) (resolve : bool) (orders : list L3Order) : list Allocation :=
  map (list_entry b resolve) orders.

Definition allocate (config : ProRataConfig) (level : Level) (qty : qty_t) (b : OrderBook) (resolve : bool)
  : list Allocation := split_level config qty (list_level b resolve (lv_orders level)).

(** The self-match pass over a level: [inl] returns from [matchOrder]. *)
Fixpoint cancel_own (p : ptr) (request_time event_time seq_num : Z) (smp_mode : SelfMatchPreventionMode)
  (allocations : list Allocation) (cancelled : bool) (w : World) : World + bool * World :=
  match allocations with
  | [] => inr (cancelled, w)
  | a :: rest =>
      match al_order a with
      | Some fp =>
          if negb (isSelfMatch (order_at w p) (Some (order_at w fp)))
          then cancel_own p request_time event_time seq_num smp_mode rest cancelled w
          else
            let '(should_continue, w) := handleSelfMatch w fp request_time event_time seq_num smp_mode in
            if negb should_continue then inl w
            else cancel_own p request_time event_time seq_num smp_mode rest true w
      | None => cancel_own p request_time event_time seq_num smp_mode rest cancelled w
      end
  end.

(** The fills of one level; the first component is [abandoned]. *)
Fixpoint fill_allocations (side : Side) (p : ptr) (check_self_match : bool) (level_price : price_t)
  (allocations : list Allocation) (ctx : MatchContext) (order_qty : qty_t)
  : bool * MatchContext * qty_t :=
  match allocations with
  | [] => (false, ctx, order_qty)
  | a :: rest =>
      if al_qty a =? 0 then fill_allocations side p check_self_match level_price rest ctx order_qty
      else
        let order_qty := order_qty - al_qty a in
        let full_book_order :=
          if check_self_match then al_order a
          else findOrder (w_book (ctx_world ctx)) (al_order_id a) in
        let '(ok, ctx) := fillResting side ctx p (al_order_id a) full_book_order level_price (al_qty a) order_qty in
        if negb ok then (true, ctx, order_qty)
        else fill_allocations side p check_self_match level_price rest ctx order_qty
  end.

(** One iteration of [matchOrder]'s loop, on the context, [order_qty] and [abandoned]. *)
Definition pr_match_step (config : ProRataConfig) (side : Side) (p : ptr) (order_price : price_t)
  (request_time : time_t) (smp_mode : SelfMatchPreventionMode) (st : MatchContext * qty_t * bool)
  : flow * (MatchContext * qty_t * bool) :=
  let '(ctx, order_qty, abandoned) := st in
  if negb ((0 <? order_qty) && negb abandoned) then (Break, st)
  else
    let check_self_match := negb (bool_decide (smp_mode = SMP.NONE)) in
    match getBestLevel (ob_l3 (w_book (ctx_world ctx))) side with
    | None => (Break, st)
    | Some best_level =>
        if beyond_limit side (lv_price best_level) order_price then (Break, st)
        else
          let allocations := allocate config best_level order_qty (w_book (ctx_world ctx)) check_self_match in
          let ctx := ctx <| ctx_legs_hint := S (List.length allocations) |> in
          match (if check_self_match
                 then cancel_own p request_time (ctx_event_time ctx) (ctx_seq_num ctx) smp_mode allocations
                        false (ctx_world ctx)
                 else inr (false, ctx_world ctx)) with
          | inl w => (Return, (ctx <| ctx_world := w |>, order_qty, abandoned))
          | inr (true, w) => (Continue, (ctx <| ctx_world := w |>, order_qty, abandoned))
          | inr (false, w) =>
              let '(abandoned, ctx, order_qty) :=
                fill_allocations side p check_self_match (lv_price best_level) allocations
                  (ctx <| ctx_world := w |>) order_qty in
              (Continue, (ctx, order_qty, abandoned))
          end
    end.

(** Every iteration but the last takes an order off the side. *)
Definition pr_matchOrder (config : ProRataConfig) (side : Side) (w : World) (p : ptr) (order_price : price_t)
  (order_qty : qty_t) (request_time event_time seq_num : Z) (smp_mode : SelfMatchPreventionMode)
  : option (OrdRejectReason * list TradeSummaryInfo * World) :=
  match prepareOrder side ReachLevel w p order_price order_qty request_time smp_mode with
  | (Some done, w) => Some (done, [], w)
  | (None, w) =>
      let ctx := new_context w event_time seq_num in
      let order_qty := o_leaves_quantity (order_at w p) in
      match while_loop (pr_match_step config side p order_price request_time smp_mode)
              (loop_fuel w side) (ctx, order_qty, false) with
      | None => None
      | Some (Return, (ctx, _, _)) => Some (OrdReject.SMP, ctx_summaries ctx, ctx_world ctx)
      | Some (_, (ctx, order_qty, _)) =>
          Some (OrdReject.NONE, ctx_summaries ctx,
                cancelUnrestableRemainder (ctx_world ctx) p order_qty request_time)
      end
  end.

(** The market-data fills of one level; [false] returns from [matchFeed]. *)
Fixpoint feed_allocations (side : Side) (order_id : Z) (level_price : price_t)
  (allocations : list Allocation) (ctx : MatchContext) (qty : qty_t) : bool * MatchContext * qty_t :=
  match allocations with
  | [] => (true, ctx, qty)
  | a :: rest =>
      if al_qty a =? 0 then feed_allocations side order_id level_price rest ctx qty
      else
        let '(ok, qty, ctx) :=
          fillRestingFromFeed side ctx order_id (al_order_id a) level_price (al_qty a) qty in
        if negb ok then (false, ctx, qty)
        else feed_allocations side order_id level_price rest ctx qty
  end.

Definition pr_feed_step (config : ProRataConfig) (side : Side) (order_id : Z) (price : price_t)
  (st : MatchContext * qty_t) : flow * (MatchContext * qty_t) :=
  let '(ctx, qty) := st in
  if negb (0 <? qty) then (Break, st)
  else
    match getBestLevel (ob_l3 (w_book (ctx_world ctx))) side with
    | None => (Break, st)
    | Some best_level =>
        if beyond_limit side (lv_price best_level) price then (Break, st)
        else
          let allocations := allocate config best_level qty (w_book (ctx_world ctx)) false in
          let ctx := ctx <| ctx_legs_hint := S (List.length allocations) |> in
          let '(ok, ctx, qty) :=
            feed_allocations side order_id (lv_price best_level) allocations ctx qty in
          if negb ok then (Return, (ctx, qty)) else (Continue, (ctx, qty))
    end.

Definition pr_matchFeed (config : ProRataConfig) (side : Side) (w : World) (order_id : Z) (price : price_t)
  (qty : qty_t) (event_time seq_num : Z) : option (list TradeSummaryInfo * qty_t * World) :=
  match while_loop (pr_feed_step config side order_id price) (loop_fuel w side)
          (new_context w event_time seq_num, qty) with
  | None => None
  | Some (_, (ctx, qty)) => Some (ctx_summaries ctx, qty, ctx_world ctx)
  end.

(** [ProRataMatchingEngine::match], on an order and on market data. *)
Definition pr_match (config : ProRataConfig) (w : World) (p : ptr) (order_price : price_t) (order_qty : qty_t)
  (request_time event_time seq_num : Z) (smp_mode : SelfMatchPreventionMode) :=
  if bool_decide (o_side (order_at w p) = BUY)
  then pr_matchOrder config SELL w p order_price order_qty request_time event_time seq_num smp_mode
  else pr_matchOrder config BUY w p order_price order_qty request_time event_time seq_num smp_mode.

Definition pr_match_feed (config : ProRataConfig) (w : World) (side : Side) (order_id : Z) (price : price_t)
  (qty : qty_t) (event_time seq_num : Z) :=
  if bool_decide (side = BUY)
  then pr_matchFeed config SELL w order_id price qty event_time seq_num
  else pr_matchFeed config BUY w order_id price qty event_time seq_num.
End ProRata.
