(* ===== verification/Allocation.v ===== *)
(** * Splitting a level pro rata

    What [ProRataMatchingEngine::allocate] guarantees: nothing is created or lost, no order
    is given more than it offers, shares are proportional, and the remainder goes by time. *)

From S2P Require Import Prelude Types FixedString Orders Messages MarketData L3Interface.
From S2P Require Import L3Lemmas L3Reference OrderBook Concrete MatchCommon FifoEngine ProRata.

(** [ProRataConfig::validate]. *)
Definition valid_config (config : ProRataConfig) : Prop :=
  0 < lot_size config /\ 0 <= min_allocation config /\ 0 <= fifo_percent config <= 100.

(** The allocated quantity, and what is still unallocated of the sizes. *)
Definition given (l : list Allocation) : qty_t := zsum (map al_qty l).
Definition room (l : list Allocation) : qty_t := zsum (map (fun a => al_size a - al_qty a) l).

Definition within_size (a : Allocation) : Prop := 0 <= al_qty a <= al_size a.

(** The same order, allocated at least as much but no more than its size. *)
Definition grows (a a' : Allocation) : Prop :=
  al_order_id a' = al_order_id a /\ al_size a' = al_size a /\ al_order a' = al_order a
  /\ al_qty a <= al_qty a' <= al_size a.

Lemma given_cons a l : given (a :: l) = al_qty a + given l.
Proof. done. Qed.

Lemma room_cons a l : room (a :: l) = (al_size a - al_qty a) + room l.
Proof. done. Qed.

Lemma total_given_room l : level_total l = given l + room l.
Proof. unfold level_total, given, room. induction l as [|a l IH]; cbn in *; lia. Qed.

Lemma room_nonneg l : Forall within_size l -> 0 <= room l.
Proof. induction 1 as [|a l Ha _ IH]; [done|]. rewrite room_cons. unfold within_size in Ha. lia. Qed.

Lemma given_nonneg l : Forall within_size l -> 0 <= given l.
Proof. induction 1 as [|a l Ha _ IH]; [done|]. rewrite given_cons. unfold within_size in Ha. lia. Qed.

Lemma grows_refl l : Forall within_size l -> Forall2 grows l l.
Proof. induction 1 as [|a l Ha _ IH]; constructor; [|done]. unfold within_size in Ha. repeat split; lia. Qed.

Lemma grows_trans l1 l2 l3 : Forall2 grows l1 l2 -> Forall2 grows l2 l3 -> Forall2 grows l1 l3.
Proof.
  intros H12. revert l3. induction H12 as [|a b l1 l2 Hab _ IH]; intros l3 H; inversion H as [|? c ? ? Hbc]; subst;
    constructor; [|by apply IH].
  unfold grows in *. destruct Hab as (D1 & D2 & D3 & ?), Hbc as (E1 & E2 & E3 & ?).
  rewrite E1, E2, E3, D1, D2, D3. repeat split; lia.
Qed.

Lemma grows_within l l' : Forall within_size l -> Forall2 grows l l' -> Forall within_size l'.
Proof.
  intros Hl H. induction H as [|a b l l' Hab _ IH]; [done|]. apply Forall_cons in Hl as [Ha Hl].
  constructor; [|by apply IH]. unfold within_size, grows in *. destruct Hab as (_ & -> & _ & ?). lia.
Qed.

Lemma grows_keeps l l' :
  Forall2 grows l l' -> map al_order_id l' = map al_order_id l /\ map al_size l' = map al_size l
                        /\ map al_order l' = map al_order l.
Proof.
  induction 1 as [|a b l l' (E1 & E2 & E3 & _) _ (I1 & I2 & I3)]; [done|].
  cbn [map]. by rewrite E1, E2, E3, I1, I2, I3.
Qed.

Lemma grows_total l l' : Forall2 grows l l' -> level_total l' = level_total l.
Proof. intros H. unfold level_total. by rewrite (proj1 (proj2 (grows_keeps l l' H))). Qed.

(** ** The arithmetic of a share *)

Lemma floorLot_range config q :
  0 < lot_size config -> 0 <= q ->
  0 <= floorLot config q <= q /\ (lot_size config | floorLot config q) /\ q - floorLot config q < lot_size config.
Proof.
  intros Hl Hq. unfold floorLot. rewrite Z.rem_mod_nonneg by lia.
  pose proof (Z.mod_pos_bound q (lot_size config) Hl). pose proof (Z.mod_le q (lot_size config) Hq Hl).
  split; [lia|]. split; [|lia]. exists (q / lot_size config).
  pose proof (Z.div_mod q (lot_size config)). lia.
Qed.

Lemma share_of_value a b c :
  0 <= a < 2 ^ 63 -> 0 <= b <= c -> 0 < c < 2 ^ 63 ->
  share_of a b c = a * b / c /\ 0 <= a * b / c <= a /\ (a <= c -> a * b / c <= b).
Proof.
  intros Ha Hb Hc. unfold share_of. rewrite !wrap_small by lia.
  destruct (mul_div_floor_value a b c) as [-> Hr]; [lia..|].
  split; [apply swrap_small; lia|]. split; [done|]. intros Hac. apply Z.div_le_upper_bound; nia.
Qed.

Section Split.
Context (config : ProRataConfig) (Hconfig : valid_config config).

Lemma pro_rata_share_range pro_rata base a :
  within_size a -> 0 <= pro_rata <= base -> 0 < base < 2 ^ 63 -> al_size a - al_qty a <= base ->
  let share := pro_rata_share config pro_rata base a in
  0 <= share <= al_size a - al_qty a /\ share * base <= pro_rata * (al_size a - al_qty a).
Proof.
  intros Ha Hp Hb Hle. unfold within_size in Ha. unfold pro_rata_share.
  destruct (share_of_value pro_rata (al_size a - al_qty a) base) as (-> & H1 & H2); [lia..|].
  set (q := pro_rata * (al_size a - al_qty a) / base) in *.
  destruct (floorLot_range config q) as [H3 _]; [apply Hconfig|lia|].
  assert (Hq : q * base <= pro_rata * (al_size a - al_qty a)).
  { unfold q. rewrite Z.mul_comm. apply Z.mul_div_le. lia. }
  cbv zeta. case_test; [|split; [lia|nia]]. split; [lia|nia].
Qed.

Lemma fifo_slice_spec fifo l :
  Forall (fun a => al_qty a = 0 /\ 0 <= al_size a) l -> 0 <= fifo <= level_total l ->
  Forall2 grows l (fifo_slice fifo l) /\ given (fifo_slice fifo l) = fifo.
Proof.
  intros Hl. revert fifo. induction Hl as [|a l [Ha Hs] Hl IH]; intros fifo Hf.
  { unfold level_total in Hf. cbn in *. split; [constructor|]. unfold given. cbn. lia. }
  unfold level_total in Hf. cbn in Hf. fold (level_total l) in Hf. cbn [fifo_slice].
  assert (Hw : Forall within_size l) by (eapply Forall_impl; [exact Hl|]; unfold within_size; cbn; lia).
  assert (Hg : given l = 0).
  { clear - Hl. unfold given. induction Hl as [|a l [E _] _ IH]; [done|]. cbn. lia. }
  destruct (fifo =? 0) eqn:E; bool_to_prop.
  - split; [apply grows_refl; constructor; [unfold within_size; lia|done]|]. rewrite given_cons. lia.
  - destruct (IH (fifo - Z.min fifo (al_size a))) as [H1 H2].
    { pose proof (room_nonneg l Hw). pose proof (total_given_room l). lia. }
    split; [constructor; [|done]; repeat split; cbn; lia|]. rewrite given_cons, H2. cbn. lia.
Qed.

Lemma pro_rata_split_spec pro_rata base remaining l :
  Forall within_size l -> 0 <= pro_rata <= base -> 0 < base < 2 ^ 63 -> room l <= base ->
  let '(l', remaining') := pro_rata_split config pro_rata base remaining l in
  Forall2 grows l l' /\ remaining' = remaining - (given l' - given l)
  /\ (given l' - given l) * base <= pro_rata * room l
  /\ Forall2 (fun a a' => al_qty a' = al_qty a + pro_rata_share config pro_rata base a) l l'.
Proof.
  intros Hl Hp Hb. revert remaining. induction Hl as [|a l Ha Hl IH]; intros remaining Hr.
  { cbn. repeat split; try constructor; unfold given, room; cbn; lia. }
  rewrite room_cons in Hr |- *. pose proof (room_nonneg l Hl) as Hnn. cbn [pro_rata_split].
  set (share := pro_rata_share config pro_rata base a).
  destruct (pro_rata_share_range pro_rata base a Ha Hp Hb) as [H1 H2]; [lia|]. fold share in H1, H2.
  specialize (IH (remaining - share) ltac:(unfold within_size in Ha; lia)).
  destruct (pro_rata_split config pro_rata base (remaining - share) l) as [l' remaining'].
  destruct IH as (I1 & -> & I3 & I4). rewrite !given_cons. cbn [al_qty upd].
  split; [constructor; [repeat split; cbn; lia|done]|]. split; [lia|]. split; [lia|]. by constructor.
Qed.

(** The remainder fills orders to their size, in queue order, until it is used up. *)
Lemma fifo_rest_spec remaining l :
  Forall within_size l -> 0 <= remaining <= room l ->
  Forall2 grows l (fifo_rest remaining l) /\ given (fifo_rest remaining l) = given l + remaining
  /\ (forall i j a a' b', (i < j)%nat -> l !! j = Some a -> fifo_rest remaining l !! j = Some a' ->
        al_qty a < al_qty a' -> fifo_rest remaining l !! i = Some b' -> al_qty b' = al_size b').
Proof.
  intros Hl. revert remaining. induction Hl as [|a l Ha Hl IH]; intros remaining Hr.
  { unfold room in Hr. cbn in *. split; [constructor|]. split; [lia|]. intros i j ? ? ? ? Hj. done. }
  rewrite room_cons in Hr. unfold within_size in Ha. cbn [fifo_rest].
  destruct (remaining =? 0) eqn:E; bool_to_prop.
  - split; [apply grows_refl; by constructor|]. split; [lia|].
    intros i j x x' b' _ Hj Hj' Hlt _. rewrite Hj in Hj'. injection Hj' as ->. lia.
  - set (extra := Z.min remaining (al_size a - al_qty a)).
    pose proof (room_nonneg l Hl).
    destruct (IH (remaining - extra)) as (I1 & I2 & I3); [lia|].
    split; [constructor; [repeat split; cbn; lia|done]|].
    split; [rewrite !given_cons, I2; cbn; lia|].
    intros i j x x' b' Hij Hj Hj' Hlt Hi. destruct j as [|j]; [lia|]. cbn [lookup list_lookup] in Hj, Hj'.
    destruct i as [|i].
    + injection Hi as <-. cbn. assert (Hrem : remaining - extra <> 0); [|lia].
      intros E0. rewrite E0 in Hj'. destruct l as [|c l]; [done|]. cbn [fifo_rest Z.eqb] in Hj'.
      change ((c :: l) !! j = Some x') in Hj'. change ((c :: l) !! j = Some x) in Hj. rewrite Hj in Hj'.
      injection Hj' as ->. lia.
    + apply (I3 i j x x' b'); try done. lia.
Qed.

(** A level as [allocate] lists it before it splits anything. *)
Definition fresh (l : list Allocation) : Prop := Forall (fun a => al_qty a = 0 /\ 0 < al_size a) l.

Lemma fresh_within l : fresh l -> Forall within_size l.
Proof. intros H. eapply Forall_impl; [exact H|]. unfold within_size. cbn. lia. Qed.

Lemma size_le_total l j a : fresh l -> l !! j = Some a -> al_size a <= level_total l.
Proof.
  intros Hl. revert j. induction Hl as [|c l [_ Hc] Hl IH]; intros j Hj; [done|].
  assert (0 <= level_total l).
  { unfold level_total. apply zsum_nonneg, Forall_map. eapply Forall_impl; [exact Hl|]. cbn. lia. }
  unfold level_total in *. cbn. destruct j as [|j]; [injection Hj as ->; lia|].
  specialize (IH j Hj). lia.
Qed.

Lemma fresh_given l : fresh l -> given l = 0.
Proof. induction 1 as [|a l [E _] _ IH]; [done|]. rewrite given_cons. lia. Qed.

(** Steps 1 and 2: the FIFO slice and what remains of the quantity. *)
Lemma first_steps qty l :
  fresh l -> 0 < qty < level_total l -> level_total l < 2 ^ 63 ->
  let '(l1, remaining) :=
    if 0 <? fifo_percent config then
      let fifo := floorLot config (share_of qty (fifo_percent config) 100) in
      (fifo_slice fifo l, qty - fifo)
    else (l, qty) in
  Forall2 grows l l1 /\ given l1 = qty - remaining /\ 0 <= remaining <= qty.
Proof.
  intros Hl Hq Ht. pose proof (fresh_within l Hl) as Hw. pose proof (fresh_given l Hl) as Hg.
  destruct Hconfig as (Hlot & _ & Hpct). case_test.
  - destruct (share_of_value qty (fifo_percent config) 100) as (-> & H1 & _); [lia..|].
    destruct (floorLot_range config (qty * fifo_percent config / 100) Hlot ltac:(lia)) as [H2 _].
    destruct (fifo_slice_spec (floorLot config (qty * fifo_percent config / 100)) l) as [H3 H4];
      [eapply Forall_impl; [exact Hl|]; cbn; lia|lia|]. split; [done|]. lia.
  - split; [by apply grows_refl|]. lia.
Qed.

Lemma split_level_spec qty l :
  fresh l -> 0 < qty -> level_total l < 2 ^ 63 ->
  Forall2 grows l (split_level config qty l)
  /\ given (split_level config qty l) = Z.min qty (level_total l).
Proof.
  intros Hl Hq Ht. pose proof (fresh_within l Hl) as Hw. unfold split_level.
  destruct (level_total l <=? qty) eqn:E; bool_to_prop.
  { split.
    - clear - Hl. induction Hl as [|a l [H1 H2] _ IH]; constructor; [|done]. repeat split; cbn; lia.
    - rewrite Z.min_r by lia. unfold given, level_total. by rewrite map_map. }
  pose proof (first_steps qty l Hl ltac:(lia) Ht) as H1. rewrite Z.min_l by lia.
  destruct (if 0 <? fifo_percent config then _ else _) as [l1 remaining].
  destruct H1 as (G1 & H1 & H2). pose proof (grows_within _ _ Hw G1) as W1.
  pose proof (grows_total _ _ G1) as T1. pose proof (total_given_room l1) as R1.
  destruct (0 <? remaining) eqn:E0; bool_to_prop.
  - pose proof (pro_rata_split_spec remaining (level_total l - (qty - remaining)) remaining l1 W1
      ltac:(lia) ltac:(lia) ltac:(lia)) as H3.
    destruct (pro_rata_split _ _ _ _ _) as [l2 remaining'].
    destruct H3 as (G2 & -> & H3 & _). replace (room l1) with (level_total l - (qty - remaining)) in H3 by lia.
    pose proof (grows_within _ _ W1 G2) as W2. pose proof (grows_total _ _ G2) as T2.
    pose proof (total_given_room l2) as R2.
    destruct (fifo_rest_spec (remaining - (given l2 - given l1)) l2 W2) as (G3 & H4 & _); [nia|].
    split; [by eapply grows_trans; [eapply grows_trans|]|]. lia.
  - destruct (fifo_rest_spec remaining l1 W1) as (G3 & H4 & _); [lia|].
    split; [by eapply grows_trans|]. lia.
Qed.
End Split.

Section Allocate.
Context {L3 Pool : Type} {l3ops : L3Ops L3} {poolops : ObjectPool Pool} {env : Environment}.
Implicit Types b : OrderBook L3 Pool.

Lemma Forall2_map_l {A B C} (f : A -> B) (P : B -> C -> Prop) l k :
  Forall2 P (map f l) k <-> Forall2 (fun a => P (f a)) l k.
Proof. apply Forall2_fmap_l. Qed.

Lemma list_level_fresh b resolve os :
  Forall (fun o => 0 < l3_quantity o) os -> fresh (list_level b resolve os).
Proof. intros H. unfold fresh, list_level. apply Forall_map. eapply Forall_impl; [exact H|]. cbn. lia. Qed.

Lemma list_level_total b resolve os : level_total (list_level b resolve os) = queue_total os.
Proof. unfold level_total, list_level, queue_total. by rewrite map_map. Qed.

Lemma allocate_ok config level qty b resolve :
  valid_config config -> level_ok level -> 0 < qty -> lv_total_quantity level < 2 ^ 63 ->
  let l := allocate config level qty b resolve in
  given l = Z.min qty (lv_total_quantity level)
  /\ Forall2 (fun o a => al_order_id a = l3_order_id o /\ al_size a = l3_quantity o
                         /\ 0 <= al_qty a <= l3_quantity o
                         /\ al_order a = if resolve then findOrder b (l3_order_id o) else None)
       (lv_orders level) l.
Proof.
  intros Hc (_ & Hpos & Ht) Hq Htot l. rewrite Ht in *.
  destruct (split_level_spec config Hc qty (list_level b resolve (lv_orders level))) as [H1 H2];
    [by apply list_level_fresh|done|by rewrite list_level_total|].
  rewrite list_level_total in H2. split; [exact H2|].
  fold (allocate config level qty b resolve) in H1. fold l in H1.
  unfold list_level in H1. apply (Forall2_map_l (list_entry b resolve)) in H1. eapply Forall2_impl; [exact H1|].
  intros o a (E1 & E2 & E3 & E4). cbn in *. rewrite E1, E2, E3. repeat split; lia || done.
Qed.

(** Allocation neither creates nor loses quantity: on a level of positive orders that
    fits 64 bits, every resting order gets exactly one allocation, in queue order, between
    zero and its size, and together they make the smaller of the incoming quantity and the
    level - whatever the lot size, the minimum and the FIFO percentage. *)
Lemma allocate_conserves config level qty b resolve :
  valid_config config -> level_ok level -> 0 < qty -> lv_total_quantity level < 2 ^ 63 ->
  let l := allocate config level qty b resolve in
  given l = Z.min qty (lv_total_quantity level)
  /\ Forall2 (fun o a => al_order_id a = l3_order_id o /\ al_size a = l3_quantity o
                         /\ 0 <= al_qty a <= l3_quantity o
                         /\ al_order a = if resolve then findOrder b (l3_order_id o) else None)
       (lv_orders level) l.
Proof. apply allocate_ok. Qed.

End Allocate.

(** Three orders at one price; a third of the level arrives. *)
Definition sample_level : Level :=
  make_level 100 [mkL3Order 1 10 1; mkL3Order 2 25 2; mkL3Order 3 30 3].

Lemma sample_level_ok : level_ok sample_level.
Proof. split; [done|]. split; [|done]. repeat constructor. Qed.

Lemma allocate_conserves_witness :
  let config := mkProRataConfig 1 4 40 in
  let l := allocate config sample_level 22 empty_book false in
  given l = Z.min 22 (lv_total_quantity sample_level) /\ map al_qty l = [9; 6; 7].
Proof.
  intros config l. split; [|vm_compute; reflexivity].
  apply (allocate_conserves config sample_level 22 empty_book false); try exact sample_level_ok;
    [repeat split; cbn; lia|lia|vm_compute; reflexivity].
Defined.

