(* ===== verification/ProRataSweep.v ===== *)
(** * The specification of pro-rata matching

    [pr_sweep] walks the levels of a side from the best: on each level within the limit it
    cancels what it must skip, splits the quantity over the rest, and goes on when the
    level is used up. [quotas] is the split as a function of the sizes alone. *)

From S2P Require Import Prelude Types FixedString Orders Messages MarketData L3Interface.
From S2P Require Import L3Lemmas OrderBook Sweep MatchCommon MatchLemmas FifoEngine ProRata.
From S2P Require Import Allocation.

(** ** The split depends on the sizes only *)

Definition same_size (a a' : Allocation) : Prop := al_size a' = al_size a /\ al_qty a' = al_qty a.

Lemma fifo_slice_same fifo l l' :
  Forall2 same_size l l' -> Forall2 same_size (fifo_slice fifo l) (fifo_slice fifo l').
Proof.
  intros H. revert fifo. induction H as [|a a' l l' [Es Eq] H IH]; intros fifo; [constructor|]. cbn [fifo_slice].
  destruct (fifo =? 0); constructor; try done; rewrite Es; [by split|apply IH].
Qed.

Lemma pro_rata_split_same config pro_rata base remaining l l' :
  Forall2 same_size l l' ->
  Forall2 same_size (pro_rata_split config pro_rata base remaining l).1 (pro_rata_split config pro_rata base remaining l').1
  /\ (pro_rata_split config pro_rata base remaining l).2 = (pro_rata_split config pro_rata base remaining l').2.
Proof.
  intros H. revert remaining. induction H as [|a a' l l' [Es Eq] H IH]; intros remaining; [by split|].
  cbn [pro_rata_split]. unfold pro_rata_share. rewrite Es, Eq.
  set (share := if _ <? _ then 0 else _). destruct (IH (remaining - share)) as [I1 I2].
  destruct (pro_rata_split config pro_rata base (remaining - share) l),
    (pro_rata_split config pro_rata base (remaining - share) l').
  cbn [fst snd] in *. split; [|done]. constructor; [|done]. split; cbn; congruence.
Qed.

Lemma fifo_rest_same remaining l l' :
  Forall2 same_size l l' -> Forall2 same_size (fifo_rest remaining l) (fifo_rest remaining l').
Proof.
  intros H. revert remaining. induction H as [|a a' l l' [Es Eq] H IH]; intros remaining; [constructor|].
  cbn [fifo_rest]. destruct (remaining =? 0); constructor; try done; rewrite Es, Eq; [|apply IH].
  split; cbn; congruence.
Qed.

Lemma split_level_same config qty l l' :
  Forall2 same_size l l' -> Forall2 same_size (split_level config qty l) (split_level config qty l').
Proof.
  intros H. assert (Et : level_total l' = level_total l).
  { unfold level_total. induction H as [|a a' l l' [Es _] _ IH]; [done|]. cbn. by rewrite Es, IH. }
  unfold split_level. rewrite Et. destruct (level_total l <=? qty).
  { clear Et. induction H as [|a a' l l' [Es _] _ IH]; constructor; [|done]. by split; cbn. }
  assert (H1 : Forall2 same_size
    (if 0 <? fifo_percent config then fifo_slice (floorLot config (share_of qty (fifo_percent config) 100)) l else l)
    (if 0 <? fifo_percent config then fifo_slice (floorLot config (share_of qty (fifo_percent config) 100)) l' else l'))
    by (case_test; [by apply fifo_slice_same|done]).
  destruct (0 <? fifo_percent config); cbv zeta.
  - set (rem := qty - _) in *. destruct (0 <? rem); [|by apply fifo_rest_same].
    destruct (pro_rata_split_same config rem (level_total l - (qty - rem)) rem _ _ H1) as [H2 H3].
    destruct (pro_rata_split _ _ _ _ (fifo_slice _ l)), (pro_rata_split _ _ _ _ (fifo_slice _ l')).
    cbn [fst snd] in *. subst. by apply fifo_rest_same.
  - destruct (0 <? qty); [|by apply fifo_rest_same].
    destruct (pro_rata_split_same config qty (level_total l - (qty - qty)) qty _ _ H1) as [H2 H3].
    destruct (pro_rata_split _ _ _ _ l), (pro_rata_split _ _ _ _ l').
    cbn [fst snd] in *. subst. by apply fifo_rest_same.
Qed.

(** The quantities a level's orders get, by size. *)
Definition quotas (config : ProRataConfig) (qty : qty_t) (sizes : list qty_t) : list qty_t :=
  map al_qty (split_level config qty (map (fun s => mkAllocation 0 s 0 None) sizes)).

(** ** The sweep *)

(** The fills of a level and what it leaves. *)
Fixpoint level_acts (p : price_t) (os : list L3Order) (qs : list qty_t) : list Act :=
  match os, qs with
  | o :: os, q :: qs =>
      if q =? 0 then level_acts p os qs else ActFill p (l3_order_id o) q :: level_acts p os qs
  | _, _ => []
  end.

Fixpoint level_left (p : price_t) (os : list L3Order) (qs : list qty_t) : list (price_t * L3Order) :=
  match os, qs with
  | o :: os, q :: qs =>
      (if l3_quantity o - q =? 0 then [] else [(p, o <| l3_quantity := l3_quantity o - q |>)])
        ++ level_left p os qs
  | _, _ => []
  end.

Definition own_orders (skip : Z -> bool) (os : list L3Order) : list L3Order :=
  List.filter (fun o => skip (l3_order_id o)) os.
Definition other_orders (skip : Z -> bool) (os : list L3Order) : list L3Order :=
  List.filter (fun o => negb (skip (l3_order_id o))) os.

Fixpoint pr_sweep (config : ProRataConfig) (limit : price_t -> bool) (skip : Z -> bool) (qty : qty_t)
  (ls : list Level) : list Act * qty_t * list (price_t * L3Order) :=
  match ls with
  | [] => ([], qty, [])
  | l :: rest =>
      if negb (0 <? qty) || negb (limit (lv_price l)) then ([], qty, flat ls)
      else
        let others := other_orders skip (lv_orders l) in
        let qs := quotas config qty (map l3_quantity others) in
        let acts := map (fun o => ActCancel (l3_order_id o)) (own_orders skip (lv_orders l))
                    ++ level_acts (lv_price l) others qs in
        if queue_total others <=? qty then
          let '(acts', q, fl') := pr_sweep config limit skip (qty - queue_total others) rest in
          (acts ++ acts', q, fl')
        else (acts, 0, level_left (lv_price l) others qs ++ flat rest)
  end.

(** The orders on the levels that a quantity reaches. *)
Fixpoint reached (limit : price_t -> bool) (qty : qty_t) (ls : list Level) : list L3Order :=
  match ls with
  | [] => []
  | l :: rest =>
      if (qty <=? 0) || negb (limit (lv_price l)) then []
      else lv_orders l ++ reached limit (qty - Z.min (lv_total_quantity l) qty) rest
  end.

(** ** Quotas *)

Definition sizes_ok (os : list L3Order) : Prop :=
  Forall (fun o => 0 < l3_quantity o) os /\ queue_total os < 2 ^ 63.

Lemma other_orders_ok skip os : sizes_ok os -> sizes_ok (other_orders skip os).
Proof.
  intros [Hpos Ht]. unfold other_orders.
  assert (Hle : queue_total (List.filter (fun o => negb (skip (l3_order_id o))) os) <= queue_total os).
  { clear Ht. unfold queue_total. induction Hpos as [|o os Ho _ IH]; [done|]. cbn. case_test; cbn; lia. }
  split; [|lia]. apply Forall_forall. intros o Ho. rewrite Forall_forall in Hpos.
  apply Hpos. apply list_elem_of_In, filter_In in Ho as [Ho _]. by apply list_elem_of_In.
Qed.

Lemma sizes_total os : zsum (map l3_quantity os) = queue_total os.
Proof. done. Qed.

(** What [allocate] does on a level, seen through the quotas. *)
Lemma quotas_spec config qty os :
  valid_config config -> sizes_ok os -> 0 < qty ->
  let qs := quotas config qty (map l3_quantity os) in
  zsum qs = Z.min qty (queue_total os) /\ Forall2 (fun o q => 0 <= q <= l3_quantity o) os qs.
Proof.
  intros Hc [Hpos Ht] Hq qs. set (l := map (fun s => mkAllocation 0 s 0 None) (map l3_quantity os)).
  assert (Hl : fresh l).
  { unfold l, fresh. rewrite map_map. apply Forall_map. eapply Forall_impl; [exact Hpos|]. cbn. lia. }
  assert (Etot : level_total l = queue_total os).
  { unfold level_total, l. by rewrite !map_map. }
  destruct (split_level_spec config Hc qty l Hl Hq ltac:(lia)) as [H1 H2]. rewrite Etot in H2.
  split; [exact H2|]. unfold qs, quotas. fold l.
  assert (El : map (fun o => mkAllocation 0 (l3_quantity o) 0 None) os = l) by (unfold l; by rewrite map_map).
  rewrite <- El in H1 at 1. apply (Forall2_map_l (fun o => mkAllocation 0 (l3_quantity o) 0 None)) in H1.
  apply Forall2_fmap_r. eapply Forall2_impl; [exact H1|]. intros o a (_ & _ & _ & E). exact E.
Qed.

(** The allocations of a level, with or without the client orders looked up. *)
Definition allocations_of (find : Z -> option Z) (resolve : bool) (os : list L3Order) (qs : list qty_t)
  (l : list Allocation) : Prop :=
  map al_qty l = qs
  /\ Forall2 (fun o a => al_order_id a = l3_order_id o
                        /\ al_order a = if resolve then find (l3_order_id o) else None) os l.

Lemma allocate_quotas {L3 Pool : Type} {l3ops : L3Ops L3} config level qty (b : OrderBook L3 Pool) resolve :
  valid_config config -> sizes_ok (lv_orders level) -> 0 < qty ->
  allocations_of (findOrder b) resolve (lv_orders level) (quotas config qty (map l3_quantity (lv_orders level)))
    (allocate config level qty b resolve).
Proof.
  intros Hc [Hpos Ht] Hq. split.
  - unfold quotas, allocate.
    assert (Hs : Forall2 same_size (list_level b resolve (lv_orders level))
              (map (fun s => mkAllocation 0 s 0 None) (map l3_quantity (lv_orders level)))).
    { unfold list_level. rewrite map_map. apply (Forall2_map_l (list_entry b resolve)), Forall2_fmap_r.
      clear. induction (lv_orders level) as [|o os IH]; constructor; done. }
    pose proof (split_level_same config qty _ _ Hs) as Hs'. clear - Hs'.
    induction Hs' as [|a a' l l' [_ E] _ IH]; [done|]. cbn [map]. by rewrite E, IH.
  - destruct (split_level_spec config Hc qty (list_level b resolve (lv_orders level))) as [H1 _];
      [by apply list_level_fresh|done|by rewrite list_level_total|].
    unfold list_level in H1. apply (Forall2_map_l (list_entry b resolve)) in H1.
    eapply Forall2_impl; [exact H1|]. intros o a (E1 & _ & E3 & _). by rewrite E1, E3.
Qed.

(** ** What a sweep of levels promises *)

Section Sweep.
Context (config : ProRataConfig) (Hconfig : valid_config config) (limit : price_t -> bool) (skip : Z -> bool).

Lemma filled_app a b : filled (a ++ b) = filled a + filled b.
Proof. unfold filled, act_fills. by rewrite omap_app, map_app, zsum_app. Qed.

Lemma filled_cancels (os : list L3Order) : filled (map (fun o => ActCancel (l3_order_id o)) os) = 0.
Proof. induction os as [|o os IH]; [done|]. cbn [map]. rewrite filled_cons, IH. done. Qed.

Lemma filled_level p os qs :
  Forall2 (fun o q => 0 <= q <= l3_quantity o) os qs -> filled (level_acts p os qs) = zsum qs.
Proof.
  induction 1 as [|o q os qs Hq _ IH]; [done|]. cbn [level_acts zsum].
  destruct (q =? 0) eqn:E; bool_to_prop; [lia|]. rewrite filled_cons. lia.
Qed.

Definition levels_ok (ls : list Level) : Prop := Forall (fun l => sizes_ok (lv_orders l)) ls.

(** What is filled and what is left add up. *)
Lemma pr_sweep_conserves qty ls :
  levels_ok ls -> 0 <= qty ->
  let '(acts, q, fl') := pr_sweep config limit skip qty ls in
  filled acts + q = qty /\ 0 <= q.
Proof.
  intros Hl. revert qty. induction Hl as [|l ls Ho _ IH]; intros qty Hq; [done|]. cbn [pr_sweep].
  destruct (negb (0 <? qty) || negb (limit (lv_price l))) eqn:E; [done|].
  apply orb_false_iff in E as [E _]. bool_to_prop.
  pose proof (other_orders_ok skip _ Ho) as Ho'.
  destruct (quotas_spec config qty _ Hconfig Ho' E) as [Q1 Q2].
  destruct (queue_total _ <=? qty) eqn:E1; bool_to_prop.
  - specialize (IH (qty - queue_total (other_orders skip (lv_orders l))) ltac:(lia)).
    destruct (pr_sweep _ _ _ _ ls) as [[acts q] fl']. rewrite !filled_app, filled_cancels, (filled_level _ _ _ Q2). lia.
  - rewrite !filled_app, filled_cancels, (filled_level _ _ _ Q2). lia.
Qed.
End Sweep.

(** ** Levels are determined by the queue they make *)

Lemma flat_inj s ls1 ls2 : side_ok s ls1 -> side_ok s ls2 -> flat ls1 = flat ls2 -> ls1 = ls2.
Proof.
  intros [Hl1 Hs1]. revert ls2. induction Hs1 as [|l1 r1 Hs1 IH Hall1]; intros ls2 H2 E.
  { symmetry. eapply flat_nil; [exact H2|]. by rewrite <- E. }
  apply Forall_cons in Hl1 as [Hok1 Hl1].
  destruct ls2 as [|l2 r2].
  { exfalso. destruct Hok1 as (Hne & _). rewrite flat_cons in E. by destruct (lv_orders l1). }
  destruct H2 as [Hl2 Hs2]. apply Forall_cons in Hl2 as [Hok2 Hl2].
  apply StronglySorted_inv in Hs2 as [Hs2 Hall2]. rewrite !flat_cons in E.
  assert (Ep : lv_price l1 = lv_price l2).
  { destruct Hok1 as (Hne1 & _), Hok2 as (Hne2 & _).
    destruct (lv_orders l1), (lv_orders l2); [done..|]. by injection E. }
  assert (Hout : forall l r, Forall (better_level s l) r ->
    List.filter (fun x : price_t * L3Order => x.1 =? lv_price l) (flat r) = []).
  { intros l r Hr. induction Hr as [|x r Hx _ IHr]; [done|]. rewrite flat_cons, List.filter_app, IHr.
    assert (Hne : (lv_price x =? lv_price l) = false).
    { apply Z.eqb_neq. intros Exl. unfold better_level in Hx. rewrite Exl in Hx.
      by destruct s; cbn in Hx; rewrite Z.ltb_irrefl in Hx. }
    induction (lv_orders x) as [|o os IHo]; [done|]. cbn. by rewrite Hne. }
  assert (Hin : forall (l : Level) os,
    List.filter (fun x : price_t * L3Order => x.1 =? lv_price l) (map (pair (lv_price l)) os)
    = map (pair (lv_price l)) os).
  { intros l os. induction os as [|o os IHo]; [done|]. cbn. by rewrite Z.eqb_refl, IHo. }
  assert (Eo : map (pair (lv_price l1)) (lv_orders l1) = map (pair (lv_price l1)) (lv_orders l2)).
  { apply (f_equal (List.filter (fun x : price_t * L3Order => x.1 =? lv_price l1))) in E.
    rewrite !List.filter_app, (Hout l1 r1 Hall1), Hin, Ep, (Hout l2 r2 Hall2), Hin in E.
    rewrite !app_nil_r in E. by rewrite Ep. }
  assert (Eos : lv_orders l1 = lv_orders l2).
  { apply (f_equal (map snd)) in Eo. rewrite !map_map in Eo. cbn in Eo. by rewrite !map_id in Eo. }
  assert (El : l1 = l2).
  { destruct Hok1 as (_ & _ & T1), Hok2 as (_ & _ & T2), l1, l2. cbn in *. subst. done. }
  subst l2. f_equal. apply IH; [done| |by eapply app_inv_head]. by split.
Qed.

Lemma side_ok_tail s l r : side_ok s (l :: r) -> side_ok s r.
Proof. intros [H1 H2]. apply Forall_cons in H1 as [_ H1]. apply StronglySorted_inv in H2 as [H2 _]. by split. Qed.
