(* ===== verification/ProRataProofs.v ===== *)
(** * Pro-rata matching implements its sweep

    The loops over levels and allocations against [pr_sweep], for client orders and for
    market data, with the lemmas about single fills that FIFO matching uses. *)

From S2P Require Import Prelude Types FixedString Orders Messages MarketData L3Interface.
From S2P Require Import L3Lemmas L3Reference OrderBook OrderBookInv Concrete.
From S2P Require Import OrderBookOps Sweep MatchCommon MatchLemmas FifoEngine FifoProofs.
From S2P Require Import FifoOrders ProRata Allocation ProRataSweep.

Section ProRata.
Context {L3 Pool : Type} {l3ops : L3Ops L3} {laws : L3Laws L3} {poolops : ObjectPool Pool}
  {poollaws : PoolLaws Pool} {env : Environment}.
Abbreviation World := (World L3 Pool).
Abbreviation MatchContext := (MatchContext L3 Pool).
Implicit Types w : World.
Implicit Types ctx : MatchContext.

(** Pointers looked up before a level is worked on stay the right ones for its orders
    that are still queued. *)
Definition finds w (find : Z -> option Z) (os : list L3Order) : Prop :=
  Forall (fun o => find (l3_order_id o) = findOrder (w_book w) (l3_order_id o)) os.

Lemma finds_stable x side orders0 ts w w' acts find os :
  swept x side orders0 ts w w' acts ->
  Forall (fun o => l3_order_id o ∈ book_ids (ob_l3 (w_book w'))) os ->
  finds w find os -> finds w' find os.
Proof.
  intros Hsw Hids Hf. unfold finds, findOrder in *. rewrite Forall_forall in *. intros o Ho.
  rewrite (Hf o Ho). symmetry. apply (sw_orders _ _ _ _ _ _ _ Hsw). by apply Hids.
Qed.

Lemma queued_ids w side pre p os post :
  book_side side -> queue w side = pre ++ map (pair p) os ++ post ->
  Forall (fun o => l3_order_id o ∈ book_ids (ob_l3 (w_book w))) os.
Proof.
  intros Hs Hq. apply Forall_forall. intros o Ho. apply (flat_in_book _ side p); [done|].
  change (flat _) with (queue w side). rewrite Hq, !elem_of_app. right. left. by apply list_elem_of_fmap_2.
Qed.

(** ** The fills of one level *)

Lemma fill_allocations_spec but side x orders0 selfb t0 agg p check find os :
  let own id := bool_decide (is_Some (orders0 !! id)) in
  book_side side ->
  forall pre post ctx qty fills qs l,
  matching but side x orders0 selfb (ctx_seq_num ctx) (ctx_world ctx) (pre ++ map (pair p) os ++ post) ->
  ctx_records side agg own t0 fills ctx -> o_id (order_at (ctx_world ctx) x) = agg ->
  allocations_of find check os qs l -> (check = true -> finds (ctx_world ctx) find os) ->
  Forall2 (fun o q => 0 <= q <= l3_quantity o) os qs ->
  exists ctx', fill_allocations side x check p l ctx qty = (false, ctx', qty - zsum qs)
    /\ ctx_records side agg own t0 (fills ++ act_fills (level_acts p os qs)) ctx'
    /\ ctx_event_time ctx' = ctx_event_time ctx /\ ctx_seq_num ctx' = ctx_seq_num ctx
    /\ matching but side x orders0 selfb (ctx_seq_num ctx) (ctx_world ctx') (pre ++ level_left p os qs ++ post)
    /\ swept x side orders0 (ctx_event_time ctx) (ctx_world ctx) (ctx_world ctx') (level_acts p os qs).
Proof.
  intros own Hs. induction os as [|o os IH]; intros pre post ctx qty fills qs l Hm Hrec Hid [Hqs Hal] Hf Hb.
  { inversion Hal; subst. inversion Hb; subst. cbn. exists ctx. rewrite app_nil_r, Z.sub_0_r.
    do 5 (split; [done|]). apply swept_refl. }
  destruct l as [|a l]; [by inversion Hal|]. apply Forall2_cons in Hal as [[Ea Eo] Hal].
  destruct qs as [|q qs]; [done|]. apply Forall2_cons in Hb as [Hq Hb]. injection Hqs as Eq Hqs.
  cbn [fill_allocations level_acts level_left zsum map]. rewrite Eq.
  destruct (q =? 0) eqn:E; bool_to_prop.
  - subst q. rewrite E, Z.sub_0_r, (proj2 (Z.eqb_neq (l3_quantity o) 0)).
    2: { pose proof (bi_l3 but _ (mt_inv _ _ _ _ _ _ _ _ Hm)) as Hok.
         pose proof (flat_pos side _ (p, o) (book_side_ok _ side Hok Hs)) as Hpos. unfold flat_qty in Hpos. cbn in Hpos.
         enough (0 < l3_quantity o) by lia. apply Hpos. change (flat _) with (queue (ctx_world ctx) side).
         rewrite (mt_queue _ _ _ _ _ _ _ _ Hm), !elem_of_app. right. left. by apply elem_of_cons; left. }
    destruct (IH (pre ++ [(p, o)]) post ctx qty fills qs l) as (ctx' & H1 & H2 & H3 & H4 & H5 & H6); try done.
    + rewrite <- app_assoc. exact Hm.
    + intros Hc. by apply (Forall_cons_1 _ _ _ (Hf Hc)).
    + exists ctx'. rewrite H1. split; [f_equal; lia|]. do 3 (split; [done|]). split; [|done].
      rewrite <- app_assoc in H5. by destruct o.
  - rewrite Eo, Ea.
    assert (Efind : (if check then if check then find (l3_order_id o) else None
                     else findOrder (w_book (ctx_world ctx)) (l3_order_id o))
                    = findOrder (w_book (ctx_world ctx)) (l3_order_id o)).
    { destruct check; [|done]. by apply (Forall_cons_1 _ _ _ (Hf eq_refl)). }
    rewrite Efind.
    destruct (order_fill but side x orders0 selfb t0 agg fills ctx pre p o (map (pair p) os ++ post) q (qty - q)
                Hs Hm Hrec Hid ltac:(lia)) as (ctx1 & -> & Hrec1 & Et1 & Es1 & Hm1 & Hsw1).
    cbn [negb]. fold (leftover p o q).
    destruct (IH (pre ++ leftover p o q) post ctx1 (qty - q) (fills ++ [(p, l3_order_id o, q)]) qs l)
      as (ctx' & H1 & H2 & H3 & H4 & H5 & H6); try done.
    + rewrite <- app_assoc, Es1. exact Hm1.
    + by rewrite (swept_keeps_id _ _ _ _ _ _ _ Hsw1).
    + intros Hc. eapply (finds_stable x side); [exact Hsw1| |by apply (Forall_cons_1 _ _ _ (Hf Hc))].
      eapply (queued_ids _ side (pre ++ leftover p o q) p os post Hs). rewrite <- app_assoc.
      exact (mt_queue _ _ _ _ _ _ _ _ Hm1).
    + exists ctx'. rewrite H1. split; [f_equal; lia|]. rewrite Es1, Et1 in *. rewrite <- app_assoc in H2, H5.
      do 3 (split; [done|]). split; [by rewrite <- app_assoc|].
      exact (swept_trans _ _ _ _ _ _ _ [_] _ Hsw1 H6).
Qed.

(** ** The self-match pass over a level *)

Lemma self_found w order id fp :
  findOrder (w_book w) id = Some fp -> isSelfMatch order (Some (order_at w fp)) = self w order id.
Proof. intros E. unfold self, resting_order. by rewrite E. Qed.

Lemma cancel_own_none x rt ts seq smp_mode selfb find os :
  forall w l c,
  Forall2 (fun o a => al_order_id a = l3_order_id o /\ al_order a = find (l3_order_id o)) os l ->
  finds w find os -> Forall (fun o => self w (order_at w x) (l3_order_id o) = selfb (l3_order_id o)) os ->
  Forall (fun o => selfb (l3_order_id o) = false) os ->
  cancel_own x rt ts seq smp_mode l c w = inr (c, w).
Proof.
  induction os as [|o os IH]; intros w l c Hal Hf Hself Hno; inversion Hal as [|? a ? l' [Ea Eo] Hal']; subst; [done|].
  apply Forall_cons in Hf as [Hfo Hf]. apply Forall_cons in Hself as [Es Hself]. apply Forall_cons in Hno as [Hn Hno].
  cbn [cancel_own]. rewrite Eo, Hfo. destruct (findOrder (w_book w) (l3_order_id o)) as [fp|] eqn:E.
  - rewrite (self_found w _ _ fp E), Es, Hn. cbn [negb]. by apply IH.
  - by apply IH.
Qed.

Lemma cancel_own_spec but side x orders0 selfb p find seq os rt ts :
  book_side side ->
  forall pre post w l c,
  matching but side x orders0 selfb seq w (pre ++ map (pair p) os ++ post) ->
  Forall2 (fun o a => al_order_id a = l3_order_id o /\ al_order a = find (l3_order_id o)) os l ->
  finds w find os ->
  exists w', cancel_own x rt ts seq SMP.CANCEL_RESTING l c w
             = inr (c || existsb (fun o => selfb (l3_order_id o)) os, w')
    /\ w_glob w' = w_glob w
    /\ matching but side x orders0 selfb seq w' (pre ++ map (pair p) (other_orders selfb os) ++ post)
    /\ swept x side orders0 ts w w' (map (fun o => ActCancel (l3_order_id o)) (own_orders selfb os)).
Proof.
  intros Hs. induction os as [|o os IH]; intros pre post w l c Hm Hal Hf;
    inversion Hal as [|? a ? l' [Ea Eo] Hal']; subst.
  { exists w. cbn. rewrite orb_false_r. do 3 (split; [done|]). apply swept_refl. }
  pose proof (mt_self _ _ _ _ _ _ _ _ Hm) as Hself.
  apply Forall_app in Hself as [_ Hself]. apply Forall_cons in Hself as [Es _].
  change (flat_id (p, o)) with (l3_order_id o) in Es.
  apply Forall_cons in Hf as [Hfo Hf]. cbn [cancel_own existsb]. rewrite Eo, Hfo.
  unfold other_orders, own_orders. cbn [List.filter]. fold (other_orders selfb os) (own_orders selfb os).
  assert (Hskip : selfb (l3_order_id o) = false ->
    exists w', cancel_own x rt ts seq SMP.CANCEL_RESTING l' c w
             = inr (c || (selfb (l3_order_id o) || existsb (fun o => selfb (l3_order_id o)) os), w')
    /\ w_glob w' = w_glob w
    /\ matching but side x orders0 selfb seq w'
         (pre ++ map (pair p) (if negb (selfb (l3_order_id o)) then o :: other_orders selfb os else other_orders selfb os) ++ post)
    /\ swept x side orders0 ts w w' (map (fun o => ActCancel (l3_order_id o))
         (if selfb (l3_order_id o) then o :: own_orders selfb os else own_orders selfb os))).
  { intros ->. destruct (IH (pre ++ [(p, o)]) post w l' c) as (w' & H1 & H2 & H3 & H4); try done.
    { rewrite <- app_assoc. exact Hm. }
    exists w'. split; [exact H1|]. split; [done|]. split; [|done]. rewrite <- app_assoc in H3. exact H3. }
  destruct (findOrder (w_book w) (l3_order_id o)) as [fp|] eqn:E.
  2: { apply Hskip. rewrite <- Es. unfold self, resting_order. by rewrite E. }
  rewrite (self_found w _ _ fp E), Es. destruct (selfb (l3_order_id o)) eqn:Eb; cbn [negb]; [|by apply Hskip].
  destruct (order_cancel but side x orders0 selfb w pre p o (map (pair p) os ++ post) fp rt ts seq Hs Hm E)
    as (w1 & -> & Hg1 & Hm1 & Hsw1). cbn [negb].
  destruct (IH pre post w1 l' true) as (w' & H1 & H2 & H3 & H4); try done.
  { eapply (finds_stable x side); [exact Hsw1| |done]. eapply (queued_ids _ side pre p os post Hs).
    exact (mt_queue _ _ _ _ _ _ _ _ Hm1). }
  exists w'. rewrite H1, orb_true_r. split; [done|]. split; [by rewrite H2|]. split; [done|].
  exact (swept_trans _ _ _ _ _ _ _ [_] _ Hsw1 H4).
Qed.

(** ** One level *)

Definition set_hint n ctx : MatchContext := ctx <| ctx_legs_hint := n |>.

(** The front level of the book, from the queue. *)
Lemma pr_level_step config side x price rt smp_mode ctx qty l rest :
  getLevelsL3 (ob_l3 (w_book (ctx_world ctx))) side = l :: rest ->
  0 < qty -> within side price (lv_price l) = true ->
  let check := negb (bool_decide (smp_mode = SMP.NONE)) in
  let allocations := allocate config l qty (w_book (ctx_world ctx)) check in
  let c := set_hint (S (List.length allocations)) ctx in
  pr_match_step config side x price rt smp_mode (ctx, qty, false)
  = match (if check
           then cancel_own x rt (ctx_event_time ctx) (ctx_seq_num ctx) smp_mode allocations false (ctx_world ctx)
           else inr (false, ctx_world ctx)) with
    | inl w => (Return, (c <| ctx_world := w |>, qty, false))
    | inr (true, w) => (Continue, (c <| ctx_world := w |>, qty, false))
    | inr (false, w) =>
        let '(abandoned, ctx, order_qty) :=
          fill_allocations side x check (lv_price l) allocations (c <| ctx_world := w |>) qty in
        (Continue, (ctx, order_qty, abandoned))
    end.
Proof.
  intros Hl Hq Hw check allocations c. unfold pr_match_step. rewrite (proj2 (Z.ltb_lt _ _) Hq). cbn [negb andb].
  rewrite law_best, Hl. cbn [head]. unfold within in Hw. apply negb_true_iff in Hw. rewrite Hw. done.
Qed.

Lemma pr_step_break config side x price rt smp_mode ctx qty ls :
  getLevelsL3 (ob_l3 (w_book (ctx_world ctx))) side = ls ->
  negb (0 <? qty) = true \/ match ls with [] => True | l :: _ => within side price (lv_price l) = false end ->
  pr_match_step config side x price rt smp_mode (ctx, qty, false) = (Break, (ctx, qty, false)).
Proof.
  intros Hl Hstop. unfold pr_match_step. destruct (negb (0 <? qty)) eqn:E.
  { apply negb_true_iff in E. by rewrite E. }
  apply negb_false_iff in E. rewrite E. cbn [negb andb].
  destruct Hstop as [|Hstop]; [done|]. rewrite law_best, Hl.
  destruct ls as [|l ls]; [done|]. unfold within in Hstop. apply negb_false_iff in Hstop. cbn [head]. by rewrite Hstop.
Qed.

Lemma set_hint_records side agg own t0 fills ctx n :
  ctx_records side agg own t0 fills ctx -> ctx_records side agg own t0 fills (set_hint n ctx).
Proof. by intros [H1 H2 H3]; split. Qed.

Lemma level_left_all p os qs :
  Forall2 (fun o q => 0 <= q <= l3_quantity o) os qs -> zsum qs = queue_total os -> level_left p os qs = [].
Proof.
  induction 1 as [|o q os qs Hq H IH]; [done|]. cbn. intros E.
  assert (Hle : zsum qs <= queue_total os).
  { clear - H. induction H as [|o q os qs Hq _ IH]; [done|]. cbn. unfold queue_total in *. lia. }
  unfold queue_total in *. cbn in E. replace (l3_quantity o - q) with 0 by lia. cbn. apply IH. lia.
Qed.

Lemma act_fills_cancels (os : list L3Order) : act_fills (map (fun o => ActCancel (l3_order_id o)) os) = [].
Proof. by induction os. Qed.

(** The loop of [matchOrder], with everything that stays the same. *)
Section Loop.
Context (config : ProRataConfig) (Hconfig : valid_config config).
Context (but : option Z) (side : Side) (x : ptr) (orders0 : gmap Z Z) (selfb : Z -> bool) (t0 agg : Z)
  (price : price_t) (rt : time_t) (smp_mode : SelfMatchPreventionMode).
Context (Hside : book_side side).

Definition known (id : Z) : bool := bool_decide (is_Some (orders0 !! id)).

Record in_loop ctx (fills : list (price_t * Z * qty_t)) (fl : list (price_t * L3Order)) : Prop := {
  il_matching : matching but side x orders0 selfb (ctx_seq_num ctx) (ctx_world ctx) fl;
  il_records : ctx_records side agg known t0 fills ctx;
  il_id : o_id (order_at (ctx_world ctx) x) = agg
}.

Definition loop_result (fuel : nat) ctx (qty : qty_t) (fills : list (price_t * Z * qty_t))
    (out : list Act * qty_t * list (price_t * L3Order)) : Prop :=
  let '(acts, q', fl') := out in
  exists ctx', while_loop (pr_match_step config side x price rt smp_mode) fuel (ctx, qty, false)
               = Some (Break, (ctx', q', false))
    /\ ctx_event_time ctx' = ctx_event_time ctx /\ ctx_seq_num ctx' = ctx_seq_num ctx
    /\ in_loop ctx' (fills ++ act_fills acts) fl'
    /\ swept x side orders0 (ctx_event_time ctx) (ctx_world ctx) (ctx_world ctx') acts.

(** No order here is one that a self match would stop or cancel. *)
Definition clear_of_self (os : list L3Order) : Prop :=
  smp_mode <> SMP.NONE -> Forall (fun o => selfb (l3_order_id o) = false) os.

(** One iteration on a level that is clear. *)
Lemma pr_fill_iteration ctx qty fills l rest :
  getLevelsL3 (ob_l3 (w_book (ctx_world ctx))) side = l :: rest ->
  in_loop ctx fills (flat (l :: rest)) -> clear_of_self (lv_orders l) ->
  0 < qty -> within side price (lv_price l) = true -> sizes_ok (lv_orders l) ->
  let qs := quotas config qty (map l3_quantity (lv_orders l)) in
  exists ctx', pr_match_step config side x price rt smp_mode (ctx, qty, false)
               = (Continue, (ctx', qty - zsum qs, false))
    /\ ctx_event_time ctx' = ctx_event_time ctx /\ ctx_seq_num ctx' = ctx_seq_num ctx
    /\ in_loop ctx' (fills ++ act_fills (level_acts (lv_price l) (lv_orders l) qs))
         (level_left (lv_price l) (lv_orders l) qs ++ flat rest)
    /\ swept x side orders0 (ctx_event_time ctx) (ctx_world ctx) (ctx_world ctx')
         (level_acts (lv_price l) (lv_orders l) qs).
Proof.
  intros Hl [Hm Hrec Hid] Hclear Hq Hw Hsz qs. rewrite (pr_level_step config side x price rt smp_mode ctx qty l rest) by done.
  cbv zeta. set (check := negb (bool_decide (smp_mode = SMP.NONE))).
  set (allocations := allocate config l qty (w_book (ctx_world ctx)) check).
  pose proof (allocate_quotas config l qty (w_book (ctx_world ctx)) check Hconfig Hsz Hq) as Hal.
  fold qs allocations in Hal. destruct (quotas_spec config qty _ Hconfig Hsz Hq) as [_ Hb]. fold qs in Hb.
  pose proof Hm as Hm0. rewrite flat_cons in Hm.
  assert (Hpass : (if check then cancel_own x rt (ctx_event_time ctx) (ctx_seq_num ctx) smp_mode allocations false (ctx_world ctx)
                   else inr (false, ctx_world ctx)) = inr (false, ctx_world ctx)).
  { destruct check eqn:Ec; [|done]. destruct Hal as [_ Hal].
    apply (cancel_own_none x rt _ _ smp_mode selfb (findOrder (w_book (ctx_world ctx))) (lv_orders l)); [done| | |].
    - apply Forall_forall. done.
    - pose proof (mt_self _ _ _ _ _ _ _ _ Hm) as Hself. apply Forall_app in Hself as [Hself _].
      by apply Forall_map in Hself.
    - apply Hclear. unfold check in Ec. by bool_to_prop. }
  rewrite Hpass.
  destruct (fill_allocations_spec but side x orders0 selfb t0 agg (lv_price l) check
    (findOrder (w_book (ctx_world ctx))) (lv_orders l) Hside [] (flat rest)
    ((set_hint (S (List.length allocations)) ctx) <| ctx_world := ctx_world ctx |>) qty fills qs allocations)
    as (ctx' & -> & H2 & H3 & H4 & H5 & H6); try done.
  - by apply (set_hint_records side agg known t0 fills ctx (S (List.length allocations))).
  - intros _. apply Forall_forall. done.
  - exists ctx'. split; [done|]. split; [exact H3|]. split; [exact H4|]. split; [|exact H6]. split.
    + rewrite H4. exact H5.
    + exact H2.
    + by rewrite (swept_keeps_id _ _ _ _ _ _ _ H6).
Qed.

(** One iteration on a level with own orders, in [cancel_resting] mode. *)
Lemma pr_cancel_iteration ctx qty fills l rest :
  smp_mode = SMP.CANCEL_RESTING ->
  getLevelsL3 (ob_l3 (w_book (ctx_world ctx))) side = l :: rest ->
  in_loop ctx fills (flat (l :: rest)) -> existsb (fun o => selfb (l3_order_id o)) (lv_orders l) = true ->
  0 < qty -> within side price (lv_price l) = true -> sizes_ok (lv_orders l) ->
  exists ctx', pr_match_step config side x price rt smp_mode (ctx, qty, false) = (Continue, (ctx', qty, false))
    /\ ctx_event_time ctx' = ctx_event_time ctx /\ ctx_seq_num ctx' = ctx_seq_num ctx
    /\ in_loop ctx' fills (map (pair (lv_price l)) (other_orders selfb (lv_orders l)) ++ flat rest)
    /\ swept x side orders0 (ctx_event_time ctx) (ctx_world ctx) (ctx_world ctx')
         (map (fun o => ActCancel (l3_order_id o)) (own_orders selfb (lv_orders l))).
Proof.
  intros Hsmp Hl [Hm Hrec Hid] Hown Hq Hw Hsz.
  rewrite (pr_level_step config side x price rt smp_mode ctx qty l rest) by done. cbv zeta.
  rewrite Hsmp, bool_decide_eq_false_2 by done. cbn [negb].
  set (allocations := allocate config l qty (w_book (ctx_world ctx)) true).
  destruct (allocate_quotas config l qty (w_book (ctx_world ctx)) true Hconfig Hsz Hq) as [_ Hal].
  fold allocations in Hal. rewrite flat_cons in Hm.
  destruct (cancel_own_spec but side x orders0 selfb (lv_price l) (findOrder (w_book (ctx_world ctx)))
    (ctx_seq_num ctx) (lv_orders l) rt (ctx_event_time ctx) Hside [] (flat rest) (ctx_world ctx) allocations false)
    as (w' & -> & Hg & Hm' & Hsw); [exact Hm|exact Hal|apply Forall_forall; done|].
  rewrite Hown. cbn [orb]. eexists. split; [reflexivity|]. split; [done|]. split; [done|]. split; [|exact Hsw].
  split; [exact Hm'| |].
  - destruct Hrec as [R1 R2 R3]. split; [exact R1|exact R2|]. cbn. by rewrite Hg.
  - cbn. by rewrite (swept_keeps_id _ _ _ _ _ _ _ Hsw).
Qed.

Definition newest_clear (qty : qty_t) (ls : list Level) : Prop :=
  smp_mode = SMP.CANCEL_NEWEST ->
  Forall (fun o => selfb (l3_order_id o) = false) (reached (within side price) qty ls).

Definition loop_goal (ls : list Level) : Prop := forall fuel ctx qty fills,
  getLevelsL3 (ob_l3 (w_book (ctx_world ctx))) side = ls -> in_loop ctx fills (flat ls) ->
  (List.length (flat ls) + 2 <= fuel)%nat -> newest_clear qty ls ->
  loop_result fuel ctx qty fills (pr_sweep config (within side price) (skips smp_mode selfb) qty ls).

Lemma loop_result_step fuel ctx ctx1 qty qty1 fills acts1 acts q fl :
  pr_match_step config side x price rt smp_mode (ctx, qty, false) = (Continue, (ctx1, qty1, false)) ->
  ctx_event_time ctx1 = ctx_event_time ctx -> ctx_seq_num ctx1 = ctx_seq_num ctx ->
  swept x side orders0 (ctx_event_time ctx) (ctx_world ctx) (ctx_world ctx1) acts1 ->
  loop_result fuel ctx1 qty1 (fills ++ act_fills acts1) (acts, q, fl) ->
  loop_result (S fuel) ctx qty fills (acts1 ++ acts, q, fl).
Proof.
  intros Hstep Et Es Hsw (ctx' & H1 & H2 & H3 & H4 & H5). exists ctx'. cbn [while_loop]. rewrite Hstep.
  split; [done|]. split; [congruence|]. split; [congruence|]. split.
  - unfold act_fills. rewrite omap_app. rewrite app_assoc. exact H4.
  - rewrite Et in H5. by eapply swept_trans.
Qed.

Lemma loop_result_stop fuel ctx qty fills ls fl :
  getLevelsL3 (ob_l3 (w_book (ctx_world ctx))) side = ls -> in_loop ctx fills fl ->
  negb (0 <? qty) = true \/ match ls with [] => True | l :: _ => within side price (lv_price l) = false end ->
  loop_result (S fuel) ctx qty fills ([], qty, fl).
Proof.
  intros Hl Hin Hstop. exists ctx. cbn [while_loop]. rewrite (pr_step_break config side x price rt smp_mode ctx qty ls) by done.
  do 3 (split; [done|]). split; [by rewrite app_nil_r|]. apply swept_refl.
Qed.

Lemma level_length l rest : level_ok l -> (List.length (flat rest) < List.length (flat (l :: rest)))%nat.
Proof.
  intros (Hne & _). rewrite flat_cons, length_app, length_map. destruct (lv_orders l); [done|]. cbn. lia.
Qed.

(** The rest of the loop from a level that is clear. *)
Lemma fill_stage fuel ctx qty fills l rest :
  loop_goal rest -> side_ok side (l :: rest) ->
  getLevelsL3 (ob_l3 (w_book (ctx_world ctx))) side = l :: rest ->
  in_loop ctx fills (flat (l :: rest)) -> clear_of_self (lv_orders l) ->
  0 < qty -> within side price (lv_price l) = true -> sizes_ok (lv_orders l) ->
  newest_clear (qty - queue_total (lv_orders l)) rest -> (List.length (flat (l :: rest)) + 2 <= fuel)%nat ->
  let qs := quotas config qty (map l3_quantity (lv_orders l)) in
  loop_result fuel ctx qty fills
    (if queue_total (lv_orders l) <=? qty then
       let '(acts, q, fl) := pr_sweep config (within side price) (skips smp_mode selfb)
                               (qty - queue_total (lv_orders l)) rest in
       (level_acts (lv_price l) (lv_orders l) qs ++ acts, q, fl)
     else (level_acts (lv_price l) (lv_orders l) qs, 0, level_left (lv_price l) (lv_orders l) qs ++ flat rest)).
Proof.
  intros Hrest Hok Hl Hin Hclear Hq Hw Hsz Hnew Hfuel qs.
  destruct (quotas_spec config qty _ Hconfig Hsz Hq) as [Hsum Hb]. fold qs in Hsum, Hb.
  destruct (pr_fill_iteration ctx qty fills l rest Hl Hin Hclear Hq Hw Hsz) as (ctx1 & Hstep & Et & Es & Hin1 & Hsw1).
  fold qs in Hstep, Hin1, Hsw1. pose proof Hok as [Hlv _]. apply Forall_cons in Hlv as [Hlv _].
  pose proof (level_length l rest Hlv) as Hlen. destruct fuel as [|fuel]; [lia|].
  pose proof (bi_l3 but _ (mt_inv _ _ _ _ _ _ _ _ (il_matching _ _ _ Hin1))) as Hok1.
  pose proof (mt_queue _ _ _ _ _ _ _ _ (il_matching _ _ _ Hin1)) as Hq1. unfold queue in Hq1.
  destruct (queue_total (lv_orders l) <=? qty) eqn:E; bool_to_prop.
  - assert (Ez : zsum qs = queue_total (lv_orders l)) by lia.
    rewrite (level_left_all _ _ _ Hb Ez) in Hin1, Hq1. cbn [app] in Hin1, Hq1.
    assert (Hl1 : getLevelsL3 (ob_l3 (w_book (ctx_world ctx1))) side = rest).
    { apply (flat_inj side); [by apply book_side_ok|by eapply side_ok_tail|exact Hq1]. }
    specialize (Hrest fuel ctx1 (qty - queue_total (lv_orders l)) _ Hl1 Hin1 ltac:(lia) Hnew).
    destruct (pr_sweep _ _ _ _ rest) as [[acts q] fl]. rewrite Ez in Hstep.
    by eapply loop_result_step.
  - assert (Ez : qty - zsum qs = 0) by lia. rewrite Ez in Hstep.
    rewrite <- (app_nil_r (level_acts (lv_price l) (lv_orders l) qs)).
    eapply loop_result_step; [exact Hstep|done|done|exact Hsw1|].
    destruct fuel as [|fuel]; [lia|]. eapply loop_result_stop; [done|exact Hin1|by left].
Qed.

Lemma own_none skip os : existsb (fun o => skip (l3_order_id o)) os = false -> own_orders skip os = [] /\ other_orders skip os = os.
Proof.
  unfold own_orders, other_orders. induction os as [|o os IH]; [done|]. cbn. intros [E1 E2]%orb_false_iff.
  rewrite E1. destruct (IH E2) as [-> ->]. done.
Qed.

Lemma own_some skip os :
  existsb (fun o => skip (l3_order_id o)) os = true -> (List.length (other_orders skip os) < List.length os)%nat.
Proof.
  unfold other_orders. induction os as [|o os IH]; [done|]. cbn.
  pose proof (filter_length_le (fun o => negb (skip (l3_order_id o))) os).
  destruct (skip (l3_order_id o)); cbn; [lia|]. intros E. specialize (IH E). lia.
Qed.

Lemma others_clear os : Forall (fun o => selfb (l3_order_id o) = false) (other_orders selfb os).
Proof.
  apply Forall_forall. intros o Ho. unfold other_orders in Ho. apply list_elem_of_In, filter_In in Ho as [_ Ho].
  by apply negb_true_iff.
Qed.

Lemma newest_clear_rest qty l rest :
  0 < qty -> within side price (lv_price l) = true -> level_ok l -> newest_clear qty (l :: rest) ->
  (smp_mode = SMP.CANCEL_NEWEST -> Forall (fun o => selfb (l3_order_id o) = false) (lv_orders l))
  /\ newest_clear (qty - queue_total (lv_orders l)) rest.
Proof.
  intros Hq Hw (_ & _ & Ht) Hn. unfold newest_clear in *. cbn [reached] in Hn.
  rewrite (proj2 (Z.leb_gt _ _) Hq), Hw, Ht in Hn. cbn [negb orb] in Hn.
  split; intros Hm; specialize (Hn Hm); apply Forall_app in Hn as [H1 H2]; [done|].
  destruct (decide (queue_total (lv_orders l) <= qty)) as [Hle|Hgt].
  - by rewrite Z.min_l in H2 by lia.
  - destruct rest as [|l' rest]; [done|]. cbn [reached]. by rewrite (proj2 (Z.leb_le _ 0)) by lia.
Qed.

(** The loop performs the sweep. *)
Lemma pr_loop ls : side_ok side ls -> levels_ok ls -> loop_goal ls.
Proof.
  intros Hok Hsz. revert Hok. induction Hsz as [|l rest Hszl Hsz IH]; intros Hok fuel ctx qty fills Hl Hin Hfuel Hnew;
    (destruct fuel as [|fuel]; [lia|]).
  { eapply loop_result_stop; [exact Hl|done|by right]. }
  pose proof (IH (side_ok_tail _ _ _ Hok)) as Hrest. cbn [pr_sweep].
  destruct (negb (0 <? qty) || negb (within side price (lv_price l))) eqn:Estop.
  { eapply loop_result_stop; [exact Hl|done|]. apply orb_true_iff in Estop as [E|E]; [by left|right].
    by apply negb_true_iff. }
  apply orb_false_iff in Estop as [Eq Ew]. bool_to_prop.
  pose proof Hok as [Hlv Hsorted]. apply Forall_cons in Hlv as [Hlv Hlvs].
  destruct (newest_clear_rest qty l rest Eq Ew Hlv Hnew) as [Hnewl Hnewr].
  destruct (decide (smp_mode = SMP.CANCEL_RESTING /\ existsb (fun o => selfb (l3_order_id o)) (lv_orders l) = true))
    as [[Hsmp Hown]|Hno].
  - destruct (pr_cancel_iteration ctx qty fills l rest Hsmp Hl Hin Hown Eq Ew Hszl) as (ctx1 & Hstep & Et & Es & Hin1 & Hsw1).
    assert (Eskip : forall os, other_orders (skips smp_mode selfb) os = other_orders selfb os
                     /\ own_orders (skips smp_mode selfb) os = own_orders selfb os).
    { intros os. rewrite Hsmp. split; apply filter_ext; intros o; unfold skips; by rewrite bool_decide_eq_true_2. }
    rewrite (proj1 (Eskip _)), (proj2 (Eskip _)).
    pose proof (own_some selfb _ Hown) as Hlen. pose proof (others_clear (lv_orders l)) as Hclear.
    pose proof (other_orders_ok selfb _ Hszl) as Hszo.
    pose proof (mt_queue _ _ _ _ _ _ _ _ (il_matching _ _ _ Hin1)) as Hq1. unfold queue in Hq1.
    pose proof (book_side_ok _ side (bi_l3 but _ (mt_inv _ _ _ _ _ _ _ _ (il_matching _ _ _ Hin1))) Hside) as Hok1.
    assert (Hnewr' : newest_clear (qty - queue_total (other_orders selfb (lv_orders l))) rest).
    { intros Hm. congruence. }
    rewrite flat_cons, length_app, length_map in Hfuel.
    destruct (other_orders selfb (lv_orders l)) as [|o os] eqn:Eo.
    + cbn [map app] in Hin1, Hq1. cbn [level_acts app map]. change (queue_total []) with 0 in *.
      rewrite (proj2 (Z.leb_le _ _)), Z.sub_0_r in * by lia. rewrite app_nil_r.
      assert (Hl1 : getLevelsL3 (ob_l3 (w_book (ctx_world ctx1))) side = rest)
        by (apply (flat_inj side); [done|by eapply side_ok_tail|exact Hq1]).
      specialize (Hrest fuel ctx1 qty (fills ++ []) Hl1). rewrite app_nil_r in Hrest.
      specialize (Hrest Hin1 ltac:(cbn in Hlen; lia) Hnewr').
      destruct (pr_sweep _ _ _ qty rest) as [[acts q] fl].
      eapply loop_result_step; [exact Hstep|done|done|exact Hsw1|].
      by rewrite act_fills_cancels, app_nil_r.
    + set (l' := make_level (lv_price l) (o :: os)).
      assert (Hok' : side_ok side (l' :: rest)).
      { split; [constructor; [|done]|]. { apply level_ok_make; [done|apply Hszo]. }
        apply StronglySorted_inv in Hsorted as [Hsorted Hall]. by constructor. }
      assert (Hl1 : getLevelsL3 (ob_l3 (w_book (ctx_world ctx1))) side = l' :: rest).
      { apply (flat_inj side); [done|done|]. rewrite flat_cons. exact Hq1. }
      pose proof (fill_stage fuel ctx1 qty fills l' rest Hrest Hok' Hl1) as Hfs.
      rewrite flat_cons in Hfs. specialize (Hfs Hin1 (fun _ => Hclear) Eq Ew Hszo Hnewr').
      rewrite length_app, length_map in Hfs. specialize (Hfs ltac:(cbn [lv_orders l' make_level] in *; lia)).
      cbv zeta in Hfs. change (lv_orders l') with (o :: os) in Hfs. change (lv_price l') with (lv_price l) in Hfs.
      destruct (queue_total (o :: os) <=? qty).
      * destruct (pr_sweep _ _ _ _ rest) as [[acts q] fl]. rewrite <- app_assoc.
        eapply loop_result_step; [exact Hstep|done|done|exact Hsw1|]. by rewrite act_fills_cancels, app_nil_r.
      * eapply loop_result_step; [exact Hstep|done|done|exact Hsw1|]. by rewrite act_fills_cancels, app_nil_r.
  - assert (Hnone : existsb (fun o => skips smp_mode selfb (l3_order_id o)) (lv_orders l) = false).
    { unfold skips. destruct (bool_decide_reflect (smp_mode = SMP.CANCEL_RESTING)) as [Hm|Hm].
      - cbn [andb]. destruct (existsb _ _) eqn:E; [|done]. exfalso. by apply Hno.
      - cbn [andb]. clear. by induction (lv_orders l). }
    destruct (own_none _ _ Hnone) as [-> ->]. cbn [map app].
    apply (fill_stage (S fuel) ctx qty fills l rest); try done.
    intros Hm. destruct (decide (smp_mode = SMP.CANCEL_RESTING)) as [Hr|Hr].
    + rewrite Hr in Hnone. unfold skips in Hnone. rewrite bool_decide_eq_true_2 in Hnone by done.
      destruct (own_none selfb _ Hnone) as [_ E]. rewrite <- E. apply others_clear.
    + apply Hnewl. by destruct smp_mode.
Qed.
End Loop.

(** ** The engine *)

Lemma smp_scan_orders_level w order os qty :
  smp_scan_orders ReachLevel w order os qty
  = if existsb (fun o => self w order (l3_order_id o)) os then inl true else inr qty.
Proof.
  induction os as [|o os IH]; [done|]. cbn [smp_scan_orders existsb]. unfold self at 1.
  destruct (isSelfMatch _ _); [done|]. cbn [orb]. exact IH.
Qed.

Lemma wouldSelfMatch_level side w order price qty :
  wouldSelfMatch side ReachLevel w order price qty
  = existsb (fun o => self w order (l3_order_id o))
      (reached (within side price) qty (getLevelsL3 (ob_l3 (w_book w)) side)).
Proof.
  unfold wouldSelfMatch. revert qty. induction (getLevelsL3 (ob_l3 (w_book w)) side) as [|l ls IH]; intros qty; [done|].
  cbn [smp_scan_levels reached]. destruct (qty <=? 0); [done|]. unfold within. rewrite negb_involutive. cbn [orb].
  destruct (beyond_limit side (lv_price l) price); [done|].
  rewrite smp_scan_orders_level, existsb_app. destruct (existsb _ (lv_orders l)); [done|]. cbn [orb]. apply IH.
Qed.

(** Pro rata may allocate to any order of a level it reaches. *)
Definition newest_hits_level w (x : ptr) (price : price_t) (qty : qty_t) (smp_mode : SelfMatchPreventionMode) : bool :=
  let order := order_at w x in let side := opposite_side (o_side order) in
  bool_decide (smp_mode = SMP.CANCEL_NEWEST) && (0 <? effective_qty order qty)
  && existsb (fun o => self w order (l3_order_id o))
       (reached (within side price) (effective_qty order qty) (getLevelsL3 (ob_l3 (w_book w)) side)).

Lemma prepare_level but w x price qty rt seq smp_mode :
  match_ready but w x seq -> newest_hits_level w x price qty smp_mode = false ->
  o_time_in_force (order_at w x) <> TimeInForce.FILL_OR_KILL -> 0 < effective_qty (order_at w x) qty ->
  prepareOrder (opposite_side (o_side (order_at w x))) ReachLevel w x price qty rt smp_mode
  = (None, started w x price qty rt).
Proof.
  intros Hr Hn Htif Hq. unfold prepareOrder. rewrite wouldSelfMatch_level.
  unfold newest_hits_level in Hn. rewrite <- andb_assoc in Hn. rewrite Hn.
  rewrite (bool_decide_eq_false_2 _ Htif). cbn [andb].
  destruct (started_fields w x price qty rt (mr_balanced _ _ _ _ Hr)) as (_ & _ & _ & _ & _ & _ & _ & _ & _ & El).
  unfold started in *. cbv zeta in *. rewrite El. by rewrite (proj2 (Z.eqb_neq _ 0)) by lia.
Qed.

Lemma pr_match_side config w x price qty rt ts seq smp_mode :
  book_side (o_side (order_at w x)) ->
  pr_match config w x price qty rt ts seq smp_mode
  = pr_matchOrder config (opposite_side (o_side (order_at w x))) w x price qty rt ts seq smp_mode.
Proof. unfold pr_match. by intros [-> | ->]. Qed.

(** Past the checks, the loop performs the level sweep. *)
Lemma pr_sweeps config but w x price qty rt ts seq smp_mode :
  valid_config config -> match_ready but w x seq ->
  newest_hits_level w x price qty smp_mode = false ->
  0 < effective_qty (order_at w x) qty ->
  let side := opposite_side (o_side (order_at w x)) in
  let ls := getLevelsL3 (ob_l3 (w_book w)) side in
  let selfb := self w (order_at w x) in
  prepareOrder side ReachLevel w x price qty rt smp_mode = (None, started w x price qty rt) ->
  levels_ok ls ->
  let '(acts, q', fl') :=
    pr_sweep config (within side price) (skips smp_mode selfb) (effective_qty (order_at w x) qty) ls in
  exists summaries w',
    pr_match config w x price qty rt ts seq smp_mode
    = Some (OrdReject.NONE, summaries, cancelUnrestableRemainder w' x q' rt)
    /\ filled acts + q' = effective_qty (order_at w x) qty /\ 0 <= q'
    /\ records side (o_id (order_at w x)) ts (is_own w) (g_next_trade_id (w_glob w)) (act_fills acts) summaries
    /\ matching but side x (ob_orders (w_book w)) selfb seq w' fl'
    /\ swept x side (ob_orders (w_book w)) ts (started w x price qty rt) w' acts.
Proof.
  intros Hc Hr Hn Hq side ls selfb Hp Hls. rewrite pr_match_side by apply Hr. fold side.
  pose proof Hr as [H1 H2 H3 H4 H5 H6 H7]. pose proof (opposite_book_side _ H1) as Hs. fold side in Hs.
  pose proof (started_matching but side x price qty rt seq w Hs H2 H3 H4 H5 H6) as Hm. fold selfb in Hm.
  destruct (started_fields w x price qty rt H6) as (Hbook & Hg & _ & E1 & _ & _ & _ & _ & _ & El).
  set (w1 := started w x price qty rt) in *.
  assert (Hl : getLevelsL3 (ob_l3 (w_book w1)) side = ls) by (by destruct Hbook as [-> | ->]).
  pose proof (book_side_ok _ side (bi_l3 but _ H2) Hs) as Hok. fold ls in Hok.
  pose proof (pr_loop config Hc but side x (ob_orders (w_book w)) selfb (g_next_trade_id (w_glob w1))
    (o_id (order_at w x)) price rt smp_mode Hs ls Hok Hls (loop_fuel w1 side) (new_context w1 ts seq)
    (effective_qty (order_at w x) qty) [] Hl) as Hloop.
  pose proof (pr_sweep_conserves config Hc (within side price) (skips smp_mode selfb) (effective_qty (order_at w x) qty)
    ls Hls ltac:(lia)) as Hcons.
  destruct (pr_sweep _ _ _ _ _) as [[acts q'] fl'].
  destruct Hloop as (ctx' & Hw & Et & Es & [Hm' Hrec Hid] & Hsw).
  - split; [exact Hm| |exact E1]. apply new_context_records. by rewrite Hg.
  - unfold loop_fuel. rewrite Hl. lia.
  - intros Hmode. unfold newest_hits_level in Hn. rewrite (bool_decide_eq_true_2 _ Hmode) in Hn.
    rewrite (proj2 (Z.ltb_lt _ _) Hq) in Hn. cbn [andb] in Hn. fold side ls selfb in Hn.
    apply Forall_forall. intros o Ho. apply not_true_iff_false. intros E.
    apply not_true_iff_false in Hn. apply Hn, existsb_exists. exists o. split; [by apply list_elem_of_In|done].
  - exists (ctx_summaries ctx'), (ctx_world ctx'). unfold pr_matchOrder.
    rewrite Hp.
    rewrite El, Hw. split; [done|]. split; [apply Hcons|]. split; [apply Hcons|].
    rewrite Hg in Hrec. destruct Hrec as [Hr1 _ _]. rewrite Et in Hr1. split; [exact Hr1|].
    cbn [ctx_seq_num new_context ctx_world ctx_event_time] in *. rewrite Es in Hm'. by split.
Qed.

(** C2. Matching a client order pro rata terminates within its fuel and performs exactly the
    level sweep: on every level within the limit the client's own orders are cancelled
    first, the quantity is split over the rest by [allocate], each order gets one fill, and
    the next level is reached only when this one is used up. The summaries, reports,
    accounting, maps and the other side are exactly what those acts account for. *)
Theorem pr_order_refines config but w x price qty rt ts seq smp_mode :
  valid_config config -> match_ready but w x seq ->
  newest_hits_level w x price qty smp_mode = false ->
  o_time_in_force (order_at w x) <> TimeInForce.FILL_OR_KILL ->
  0 < effective_qty (order_at w x) qty ->
  let side := opposite_side (o_side (order_at w x)) in
  let ls := getLevelsL3 (ob_l3 (w_book w)) side in
  let selfb := self w (order_at w x) in
  levels_ok ls ->
  let '(acts, q', fl') :=
    pr_sweep config (within side price) (skips smp_mode selfb) (effective_qty (order_at w x) qty) ls in
  exists summaries w',
    pr_match config w x price qty rt ts seq smp_mode
    = Some (OrdReject.NONE, summaries, cancelUnrestableRemainder w' x q' rt)
    /\ filled acts + q' = effective_qty (order_at w x) qty /\ 0 <= q'
    /\ records side (o_id (order_at w x)) ts (is_own w) (g_next_trade_id (w_glob w)) (act_fills acts) summaries
    /\ matching but side x (ob_orders (w_book w)) selfb seq w' fl'
    /\ swept x side (ob_orders (w_book w)) ts (started w x price qty rt) w' acts.
Proof.
  intros Hc Hr Hn Htif Hq side ls selfb Hls. apply pr_sweeps; try done.
  by apply (prepare_level but w x price qty rt seq smp_mode).
Qed.

(** ** Market data *)

Lemma feed_allocations_spec but side orders0 t0 agg p find os :
  let own id := bool_decide (is_Some (orders0 !! id)) in
  book_side side ->
  forall pre post ctx qty fills qs l,
  queue (ctx_world ctx) side = pre ++ map (pair p) os ++ post ->
  book_inv but (w_book (ctx_world ctx)) ->
  seq_accepted (ob_l3 (w_book (ctx_world ctx))) (ctx_seq_num ctx) = true ->
  reachable_queue but orders0 (ctx_world ctx) (pre ++ map (pair p) os ++ post) ->
  ctx_records side agg own t0 fills ctx -> allocations_of find false os qs l ->
  Forall2 (fun o q => 0 <= q <= l3_quantity o) os qs ->
  exists ctx', feed_allocations side agg p l ctx qty = (true, ctx', qty - zsum qs)
    /\ ctx_records side agg own t0 (fills ++ act_fills (level_acts p os qs)) ctx'
    /\ ctx_event_time ctx' = ctx_event_time ctx /\ ctx_seq_num ctx' = ctx_seq_num ctx
    /\ reachable_queue but orders0 (ctx_world ctx') (pre ++ level_left p os qs ++ post)
    /\ fed but side orders0 (ctx_event_time ctx) (ctx_seq_num ctx) (ctx_world ctx) (ctx_world ctx')
         (act_fills (level_acts p os qs)) (pre ++ level_left p os qs ++ post).
Proof.
  intros own Hs. induction os as [|o os IH]; intros pre post ctx qty fills qs l Hq Hb Ha Hreach Hrec [Hqs Hal] Hbd.
  { inversion Hal; subst. inversion Hbd; subst. cbn. exists ctx. rewrite app_nil_r, Z.sub_0_r.
    do 5 (split; [done|]). cbn in Hq. rewrite <- Hq. by apply fed_nil. }
  destruct l as [|a l]; [by inversion Hal|]. apply Forall2_cons in Hal as [[Ea _] Hal].
  destruct qs as [|q qs]; [done|]. apply Forall2_cons in Hbd as [Hqb Hbd]. injection Hqs as Eq Hqs.
  assert (Hpos : 0 < l3_quantity o).
  { apply (flat_pos side _ (p, o) (book_side_ok _ side (bi_l3 but _ Hb) Hs)).
    change (flat _) with (queue (ctx_world ctx) side).
    rewrite Hq, !elem_of_app. right. left. by apply elem_of_cons; left. }
  cbn [feed_allocations level_acts level_left zsum map]. rewrite Eq.
  destruct (q =? 0) eqn:E; bool_to_prop.
  - subst q. rewrite E, Z.sub_0_r, (proj2 (Z.eqb_neq (l3_quantity o) 0)) by lia.
    destruct (IH (pre ++ [(p, o)]) post ctx qty fills qs l) as (ctx' & H1 & H2 & H3 & H4 & H5 & H6); try done;
      rewrite <- ?app_assoc; try done.
    exists ctx'. rewrite H1. split; [f_equal; lia|]. rewrite <- app_assoc in H5, H6. by destruct o.
  - rewrite Ea.
    destruct (feed_fill but side orders0 t0 agg fills ctx pre p o (map (pair p) os ++ post) q qty
                Hs Hq Hb Ha Hreach Hrec ltac:(lia)) as (ctx1 & -> & Hrec1 & Et1 & Es1 & Hreach1 & Hfed).
    cbn [negb]. fold (leftover p o q). pose proof Hfed as [D1 D2 D3 _ _ _ _ _ _]. rewrite <- Es1 in D2.
    destruct (IH (pre ++ leftover p o q) post ctx1 (qty - q) (fills ++ [(p, l3_order_id o, q)]) qs l)
      as (ctx' & H1 & H2 & H3 & H4 & H5 & H6); rewrite <- ?app_assoc; try done.
    exists ctx'. rewrite H1. split; [f_equal; lia|]. rewrite Es1, Et1 in *. rewrite <- app_assoc in H2, H5, H6.
    do 4 (split; [done|]). exact (fed_cons _ _ _ _ _ _ _ _ _ _ _ _ Hfed H6).
Qed.

Lemma pr_feed_break config side agg price ctx qty ls :
  getLevelsL3 (ob_l3 (w_book (ctx_world ctx))) side = ls ->
  negb (0 <? qty) = true \/ match ls with [] => True | l :: _ => within side price (lv_price l) = false end ->
  pr_feed_step config side agg price (ctx, qty) = (Break, (ctx, qty)).
Proof.
  intros Hl Hstop. unfold pr_feed_step. destruct (negb (0 <? qty)) eqn:E; [done|].
  destruct Hstop as [|Hstop]; [done|]. rewrite law_best, Hl.
  destruct ls as [|l ls]; [done|]. unfold within in Hstop. apply negb_false_iff in Hstop. cbn [head]. by rewrite Hstop.
Qed.

Lemma pr_feed_loop config but side orders0 t0 agg price ls :
  let own id := bool_decide (is_Some (orders0 !! id)) in
  valid_config config -> book_side side -> side_ok side ls -> levels_ok ls ->
  forall fuel ctx qty fills,
  getLevelsL3 (ob_l3 (w_book (ctx_world ctx))) side = ls -> book_inv but (w_book (ctx_world ctx)) ->
  seq_accepted (ob_l3 (w_book (ctx_world ctx))) (ctx_seq_num ctx) = true ->
  reachable_queue but orders0 (ctx_world ctx) (flat ls) ->
  ctx_records side agg own t0 fills ctx -> (List.length (flat ls) + 2 <= fuel)%nat ->
  let '(acts, q', fl') := pr_sweep config (within side price) never_skip qty ls in
  exists ctx', while_loop (pr_feed_step config side agg price) fuel (ctx, qty) = Some (Break, (ctx', q'))
    /\ ctx_records side agg own t0 (fills ++ act_fills acts) ctx'
    /\ ctx_event_time ctx' = ctx_event_time ctx
    /\ fed but side orders0 (ctx_event_time ctx) (ctx_seq_num ctx) (ctx_world ctx) (ctx_world ctx')
         (act_fills acts) fl'.
Proof.
  intros own Hc Hs Hok Hsz. revert Hok.
  induction Hsz as [|l rest Hszl Hsz IH]; intros Hok fuel ctx qty fills Hl Hb Ha Hreach Hrec Hfuel;
    (destruct fuel as [|fuel]; [lia|]); cbn [while_loop].
  { rewrite (pr_feed_break config side agg price ctx qty []); [|done|by right]. cbn. exists ctx. rewrite app_nil_r.
    do 3 (split; [done|]). change (@nil (price_t * L3Order)) with (flat []). rewrite <- Hl. by apply fed_nil. }
  pose proof (IH (side_ok_tail _ _ _ Hok)) as Hrest. cbn [pr_sweep].
  destruct (negb (0 <? qty) || negb (within side price (lv_price l))) eqn:Estop.
  { rewrite (pr_feed_break config side agg price ctx qty (l :: rest)); [|done|].
    - exists ctx. change (act_fills []) with (@nil (price_t * Z * qty_t)). rewrite app_nil_r.
      do 3 (split; [done|]). rewrite <- Hl. by apply fed_nil.
    - apply orb_true_iff in Estop as [E|E]; [by left|right]. by apply negb_true_iff. }
  apply orb_false_iff in Estop as [Eq Ew]. bool_to_prop.
  destruct (own_none never_skip (lv_orders l)) as [-> ->]; [clear; by induction (lv_orders l)|]. cbn [map app].
  set (qs := quotas config qty (map l3_quantity (lv_orders l))).
  destruct (quotas_spec config qty _ Hc Hszl Eq) as [Hsum Hbd]. fold qs in Hsum, Hbd.
  pose proof (allocate_quotas config l qty (w_book (ctx_world ctx)) false Hc Hszl Eq) as Hal. fold qs in Hal.
  set (allocations := allocate config l qty (w_book (ctx_world ctx)) false) in *.
  assert (Hstep : pr_feed_step config side agg price (ctx, qty)
    = let '(ok, ctx', qty') := feed_allocations side agg (lv_price l) allocations
                                 (set_hint (S (List.length allocations)) ctx) qty in
      if negb ok then (Return, (ctx', qty')) else (Continue, (ctx', qty'))).
  { unfold pr_feed_step. rewrite (proj2 (Z.ltb_lt _ _) Eq), law_best, Hl. cbn [negb head].
    unfold within in Ew. apply negb_true_iff in Ew. by rewrite Ew. }
  rewrite Hstep. pose proof Hreach as Hreach0. rewrite flat_cons in Hreach.
  destruct (feed_allocations_spec but side orders0 t0 agg (lv_price l) (findOrder (w_book (ctx_world ctx)))
    (lv_orders l) Hs [] (flat rest) (set_hint (S (List.length allocations)) ctx) qty fills qs allocations)
    as (ctx1 & -> & Hrec1 & Et & Es & Hreach1 & Hfed); try done.
  { unfold queue. cbn [set_hint ctx_world upd]. by rewrite Hl, flat_cons. }
  { by apply set_hint_records. }
  cbn [negb app] in *. change (ctx_event_time (set_hint ?n ctx)) with (ctx_event_time ctx) in *.
  change (ctx_seq_num (set_hint ?n ctx)) with (ctx_seq_num ctx) in *.
  change (ctx_world (set_hint ?n ctx)) with (ctx_world ctx) in *.
  pose proof Hfed as [D1 D2 D3 _ _ _ _ _ _]. rewrite <- Es in D2. unfold queue in D3.
  pose proof Hok as [Hlv _]. apply Forall_cons in Hlv as [Hlv _]. pose proof (level_length l rest Hlv) as Hlen.
  destruct (queue_total (lv_orders l) <=? qty) eqn:E; bool_to_prop.
  - assert (Ez : zsum qs = queue_total (lv_orders l)) by lia.
    rewrite (level_left_all _ _ _ Hbd Ez) in D3, Hreach1, Hfed. cbn [app] in D3, Hreach1, Hfed.
    assert (Hl1 : getLevelsL3 (ob_l3 (w_book (ctx_world ctx1))) side = rest).
    { apply (flat_inj side); [|by eapply side_ok_tail|exact D3]. apply book_side_ok; [by apply (bi_l3 but)|done]. }
    rewrite Ez. specialize (Hrest fuel ctx1 (qty - queue_total (lv_orders l)) _ Hl1 D1 D2 Hreach1 Hrec1 ltac:(lia)).
    destruct (pr_sweep _ _ _ _ rest) as [[acts q] fl].
    destruct Hrest as (ctx2 & Hw & Hrec2 & Et2 & Hfed2). exists ctx2. rewrite Et, Es in *.
    unfold act_fills in *. rewrite omap_app, app_assoc. do 3 (split; [done|]). by eapply fed_app.
  - assert (Ez : qty - zsum qs = 0) by lia. rewrite Ez. destruct fuel as [|fuel]; [lia|]. cbn [while_loop].
    erewrite pr_feed_break; [|reflexivity|by left]. exists ctx1. do 3 (split; [done|]). exact Hfed.
Qed.

Lemma pr_feed_sweeps config aggr agg price qty w ts seq :
  valid_config config -> book_side aggr -> book_inv None (w_book w) ->
  seq_accepted (ob_l3 (w_book w)) seq = true -> 0 <= g_next_trade_id (w_glob w) < 2 ^ 64 ->
  let side := opposite_side aggr in
  priced w side -> levels_ok (getLevelsL3 (ob_l3 (w_book w)) side) -> 0 <= qty ->
  let '(acts, q', fl') :=
    pr_sweep config (within side price) never_skip qty (getLevelsL3 (ob_l3 (w_book w)) side) in
  exists summaries w', pr_match_feed config w aggr agg price qty ts seq = Some (summaries, q', w')
    /\ filled acts + q' = qty /\ 0 <= q'
    /\ records side agg ts (is_own w) (g_next_trade_id (w_glob w)) (act_fills acts) summaries
    /\ fed None side (ob_orders (w_book w)) ts seq w w' (act_fills acts) fl'.
Proof.
  intros Hc Haggr Hb Ha Ht side Hreach%priced_reachable Hls Hqty.
  pose proof (opposite_book_side aggr Haggr) as Hs. fold side in Hs.
  pose proof (pr_feed_loop config None side (ob_orders (w_book w)) (g_next_trade_id (w_glob w)) agg price _ Hc Hs
    (book_side_ok _ side (bi_l3 None _ Hb) Hs) Hls
    (loop_fuel w side) (new_context w ts seq) qty [] eq_refl Hb Ha Hreach
    (new_context_records side agg _ w ts seq Ht)) as Hloop.
  pose proof (pr_sweep_conserves config Hc (within side price) never_skip qty _ Hls Hqty) as Hcons.
  destruct (pr_sweep _ _ _ _ _) as [[acts q'] fl'].
  destruct Hloop as (ctx' & Hw & Hrec & Et & Hfed); [unfold loop_fuel; lia|].
  exists (ctx_summaries ctx'), (ctx_world ctx').
  assert (E : pr_match_feed config w aggr agg price qty ts seq = pr_matchFeed config side w agg price qty ts seq).
  { unfold pr_match_feed, side. by destruct Haggr as [-> | ->]. }
  rewrite E. unfold pr_matchFeed. rewrite Hw. split; [done|]. split; [apply Hcons|]. split; [apply Hcons|].
  split; [|exact Hfed]. destruct Hrec as [Hr _ _]. rewrite Et in Hr. exact Hr.
Qed.

(** Replaying market data pro rata terminates within its fuel and performs exactly the
    level sweep: every level within the limit is split by [allocate] over all of its
    orders, the quantity traded and left add up, the summaries record exactly the fills,
    each client order hit books its fill and hears about it, and the other side and the
    invariant of the book are untouched. *)
Lemma pr_feed_refines config aggr agg price qty w ts seq :
  valid_config config -> book_side aggr -> book_inv None (w_book w) ->
  seq_accepted (ob_l3 (w_book w)) seq = true -> 0 <= g_next_trade_id (w_glob w) < 2 ^ 64 ->
  let side := opposite_side aggr in
  priced w side -> levels_ok (getLevelsL3 (ob_l3 (w_book w)) side) -> 0 <= qty ->
  let '(acts, q', fl') :=
    pr_sweep config (within side price) never_skip qty (getLevelsL3 (ob_l3 (w_book w)) side) in
  exists summaries w', pr_match_feed config w aggr agg price qty ts seq = Some (summaries, q', w')
    /\ filled acts + q' = qty /\ 0 <= q'
    /\ records side agg ts (is_own w) (g_next_trade_id (w_glob w)) (act_fills acts) summaries
    /\ fed None side (ob_orders (w_book w)) ts seq w w' (act_fills acts) fl'.
Proof. apply pr_feed_sweeps. Qed.
End ProRata.

(** ** Concrete matches *)

Lemma sample_levels_ok : levels_ok (getLevelsL3 (ob_l3 (w_book sample_world)) SELL).
Proof.
  assert (E : getLevelsL3 (ob_l3 (w_book sample_world)) SELL
    = [make_level 100 [mkL3Order 1001 5 1; mkL3Order 1 3 2]; make_level 101 [mkL3Order 1002 5 3]])
    by (vm_compute; reflexivity).
  rewrite E. repeat constructor.
Qed.

Lemma pr_order_refines_witness :
  let w := sample_buyer 4 2 TimeInForce.DAY in
  exists summaries w',
    pr_match (mkProRataConfig 1 0 0) w 1 101 4 6 6 0 SMP.NONE
    = Some (OrdReject.NONE, summaries, cancelUnrestableRemainder w' 1 0 6)
    /\ records SELL (o_id (order_at w 1)) 6 (is_own w) (g_next_trade_id (w_glob w))
         [(100, 1001, 3); (100, 1, 1)] summaries.
Proof.
  intros w.
  pose proof (pr_order_refines (mkProRataConfig 1 0 0) None w 1 101 4 6 6 0 SMP.NONE
    ltac:(repeat split; cbn; lia) (sample_ready 4 2 TimeInForce.DAY ltac:(lia)) ltac:(vm_compute; reflexivity)
    ltac:(vm_compute; congruence) ltac:(vm_compute; reflexivity)) as H. cbv zeta in H.
  assert (El : getLevelsL3 (ob_l3 (w_book w)) (opposite_side (o_side (order_at w 1)))
               = getLevelsL3 (ob_l3 (w_book sample_world)) SELL) by (vm_compute; reflexivity).
  rewrite El in H. specialize (H sample_levels_ok).
  assert (E : pr_sweep (mkProRataConfig 1 0 0) (within (opposite_side (o_side (order_at w 1))) 101)
      (skips SMP.NONE (self w (order_at w 1))) (effective_qty (order_at w 1) 4)
      (getLevelsL3 (ob_l3 (w_book sample_world)) SELL)
    = ([ActFill 100 1001 3; ActFill 100 1 1], 0,
       [(100, mkL3Order 1001 2 1); (100, mkL3Order 1 2 2); (101, mkL3Order 1002 5 3)])) by (vm_compute; reflexivity).
  rewrite E in H. destruct H as (summaries & w' & H1 & _ & _ & H2 & _).
  exact (ex_intro _ summaries (ex_intro _ w' (conj H1 H2))).
Defined.

Lemma pr_feed_refines_witness :
  exists summaries w',
    pr_match_feed (mkProRataConfig 1 0 0) sample_world BUY 77 101 4 5 0 = Some (summaries, 0, w')
    /\ records SELL 77 5 (is_own sample_world) (g_next_trade_id (w_glob sample_world))
         [(100, 1001, 3); (100, 1, 1)] summaries.
Proof.
  pose proof (pr_feed_refines (mkProRataConfig 1 0 0) BUY 77 101 4 sample_world 5 0
    ltac:(repeat split; cbn; lia) (or_introl eq_refl) sample_inv eq_refl ltac:(vm_compute; split; congruence)
    (sample_priced SELL (or_intror eq_refl)) sample_levels_ok ltac:(lia)) as H. cbv zeta in H.
  assert (E : pr_sweep (mkProRataConfig 1 0 0) (within (opposite_side BUY) 101) never_skip 4
      (getLevelsL3 (ob_l3 (w_book sample_world)) (opposite_side BUY))
    = ([ActFill 100 1001 3; ActFill 100 1 1], 0,
       [(100, mkL3Order 1001 2 1); (100, mkL3Order 1 2 2); (101, mkL3Order 1002 5 3)])) by (vm_compute; reflexivity).
  rewrite E in H. destruct H as (summaries & w' & H1 & _ & _ & H2 & _).
  exact (ex_intro _ summaries (ex_intro _ w' (conj H1 H2))).
Defined.
