(* ===== verification/MatchingConfig.v ===== *)
(** * Choosing and configuring a matching engine

    Models [src/matching_engine/matching_config.hpp] and its [.cpp]. A JSON value is
    nlohmann's, so it is a parameter behind [Json]; an exception is a [Throw]. *)

From S2P Require Import Prelude Types FixedString Orders Messages MarketData L3Interface.
From S2P Require Import L3Reference OrderBook Concrete MatchCommon FifoEngine ProRata.
From S2P Require Import Allocation.

(** What the readers ask of a JSON value: [find] on an object, its kind, and its value. *)
Class Json (J : Type) := {
  js_find : J -> bytes -> option J;
  js_is_object : J -> bool;
  js_is_number : J -> bool;
  js_is_number_integer : J -> bool;
  js_get_int64 : J -> Z;
  js_get_double : J -> double;
  js_get_string : J -> option bytes;
  js_empty_object : J
}.

(** What a range-based [for] over a JSON value visits: the elements of an array, the value
    itself if it is a scalar, nothing if it is null. *)
Class JsonItems (J : Type) := js_items : J -> list J.

Inductive ConfigError :=
  BadPercent (key : bytes)
| BadQty (key : bytes)
| BadLotSize
| BadMinAllocation
| BadFifoPercent
| UnknownAlgorithm (name : bytes)
| NotAnObject
| BadJson
| RuntimeError (what : bytes).

(** [Undefined] is the cast of a double that does not fit, which C++ leaves open. *)
Inductive result (A : Type) :=
  Ok (a : A)
| Throw (e : ConfigError)
| Undefined.
Arguments Ok {A} a.
Arguments Throw {A} e.
Arguments Undefined {A}.

Definition defined {A} (o : option A) : result A := match o with Some a => Ok a | None => Undefined end.

Definition rbind {A B} (r : result A) (f : A -> result B) : result B :=
  match r with Ok a => f a | Throw e => Throw e | Undefined => Undefined end.

Notation "'let*' x := r 'in' k" := (rbind r (fun x => k))
  (at level 10, x name, r at level 200, k at level 200) : sim_scope.

(** [ProRataConfig::validate]. *)
Definition validate (config : ProRataConfig) : result unit :=
  if lot_size config <=? 0 then Throw BadLotSize
  else if min_allocation config <? 0 then Throw BadMinAllocation
  else if 100 <? fifo_percent config then Throw BadFifoPercent
  else Ok tt.

Record MatchingConfig := mkMatchingConfig {
  mc_type : EngineType;
  mc_pro_rata : ProRataConfig
}.

Definition default_matching : MatchingConfig := mkMatchingConfig FIFO default_pro_rata.

(** The two engines, with what they are constructed from. *)
Inductive MatchingEngine := FifoMatchingEngine | ProRataMatchingEngine (config : ProRataConfig).

Definition engine_type (e : MatchingEngine) : EngineType :=
  match e with FifoMatchingEngine => FIFO | ProRataMatchingEngine _ => ProRata end.

(** The pro-rata constructor validates. *)
Definition createMatchingEngine (config : MatchingConfig) : result MatchingEngine :=
  match mc_type config with
  | ProRata => let* _ := validate (mc_pro_rata config) in Ok (ProRataMatchingEngine (mc_pro_rata config))
  | FIFO => Ok FifoMatchingEngine
  end.

Section Readers.
Context {J : Type} {json : Json J}.

(** [std::isfinite] and [std::fabs(d) <= kMax]. *)
Definition is_finite (d : double) : bool :=
  match d with S754_zero _ | S754_finite _ _ _ => true | _ => false end.

Definition kMax : double := double_of_Z (NULL_PRICE / DOUBLE_MULTIPLIER).

Definition read_percent (params : J) (key : bytes) : result Z :=
  match js_find params key with
  | None => Ok 0
  | Some it =>
      if js_is_number_integer it && ((0 <=? js_get_int64 it) && (js_get_int64 it <=? 100))
      then Ok (js_get_int64 it)
      else Throw (BadPercent key)
  end.

Definition to_qty_result (d : double) : result qty_t :=
  match to_qty_t d with Some q => Ok q | None => Undefined end.

Definition read_qty (params : J) (key : bytes) (fallback : double) : result qty_t :=
  match js_find params key with
  | None => to_qty_result fallback
  | Some it =>
      if js_is_number it && is_finite (js_get_double it) && SFleb (SFabs (js_get_double it)) kMax
      then to_qty_result (js_get_double it)
      else Throw (BadQty key)
  end.

(** [config.value(key, default)]: a type error unless the value is an object. *)
Definition string_value (config : J) (key default_value : bytes) : result bytes :=
  if negb (js_is_object config) then Throw BadJson
  else match js_find config key with
       | None => Ok default_value
       | Some v => match js_get_string v with Some s => Ok s | None => Throw BadJson end
       end.

Definition json_value (config : J) (key : bytes) (default_value : J) : result J :=
  if negb (js_is_object config) then Throw BadJson
  else Ok (match js_find config key with Some v => v | None => default_value end).

(** [MatchingConfig::from_json]. *)
Definition from_json (config : J) : result MatchingConfig :=
  let* algorithm := string_value config (str "matching_algorithm") (str "fifo") in
  if bytes_eqb algorithm (str "fifo") then Ok default_matching
  else if negb (bytes_eqb algorithm (str "pro_rata")) then Throw (UnknownAlgorithm algorithm)
  else
    let* params := json_value config (str "pro_rata") js_empty_object in
    if negb (js_is_object params) then Throw NotAnObject
    else
      let* lot := read_qty params (str "lot_size") (double_of_Z 1) in
      let* min := read_qty params (str "min_allocation") (double_of_Z 0) in
      let* percent := read_percent params (str "fifo_percent") in
      let pro_rata := mkProRataConfig lot min percent in
      let* _ := validate pro_rata in
      Ok (mkMatchingConfig ProRata pro_rata).

Lemma read_percent_range params key p : read_percent params key = Ok p -> 0 <= p <= 100.
Proof.
  unfold read_percent. destruct (js_find params key) as [it|]; [|intros [= <-]; lia].
  case_test; [|done]. intros [= <-]. by bool_to_prop.
Qed.

Lemma validate_ok config : validate config = Ok tt -> 0 <= fifo_percent config -> valid_config config.
Proof.
  unfold validate. repeat case_test; try done. bool_to_prop. intros _ H. repeat split; lia.
Qed.

Lemma config_usable (config : J) c :
  from_json config = Ok c ->
  (c = default_matching \/ (mc_type c = ProRata /\ valid_config (mc_pro_rata c)))
  /\ (exists e, createMatchingEngine c = Ok e /\ engine_type e = mc_type c)
  /\ (exists name, string_value config (str "matching_algorithm") (str "fifo") = Ok name
        /\ mc_type c = (if bytes_eqb name (str "fifo") then FIFO else ProRata)
        /\ (name = str "fifo" \/ name = str "pro_rata")).
Proof.
  unfold from_json. destruct (string_value _ _ _) as [name|e|] eqn:En; cbn [rbind]; try done.
  destruct (bytes_eqb name (str "fifo")) eqn:E1.
  { intros [= <-]. split; [by left|]. split; [by eexists|]. exists name. rewrite E1.
    split; [done|]. split; [done|]. left. by apply bytes_eqb_eq. }
  destruct (bytes_eqb name (str "pro_rata")) eqn:E2; cbn [negb]; [|done].
  destruct (json_value _ _ _) as [params|e|]; cbn [rbind]; try done.
  destruct (js_is_object params); cbn [negb]; [|done].
  destruct (read_qty _ (str "lot_size") _) as [lot|e|]; cbn [rbind]; try done.
  destruct (read_qty _ (str "min_allocation") _) as [min|e|]; cbn [rbind]; try done.
  destruct (read_percent _ _) as [percent|e|] eqn:Ep; cbn [rbind]; try done.
  apply read_percent_range in Ep.
  destruct (validate _) as [[]|e|] eqn:Ev; cbn [rbind]; try done. intros [= <-]. cbn [mc_type mc_pro_rata].
  split; [right; split; [done|]; apply validate_ok; [done|cbn; lia]|]. split.
  - eexists. unfold createMatchingEngine. cbn [mc_type mc_pro_rata]. by rewrite Ev.
  - exists name. rewrite E1. split; [done|]. split; [done|]. right. by apply bytes_eqb_eq.
Qed.

(** Whatever the JSON, a configuration that is accepted can be used: either it is FIFO
    with the defaults, which is what an absent or "fifo" algorithm gives, or it is pro rata
    with a positive lot size, a minimum that is not negative and a percentage of 0 to 100 -
    and then creating the engine succeeds. Any other algorithm name is refused. *)
Lemma from_json_usable (config : J) c :
  from_json config = Ok c ->
  (c = default_matching \/ (mc_type c = ProRata /\ valid_config (mc_pro_rata c)))
  /\ (exists e, createMatchingEngine c = Ok e /\ engine_type e = mc_type c)
  /\ (exists name, string_value config (str "matching_algorithm") (str "fifo") = Ok name
        /\ mc_type c = (if bytes_eqb name (str "fifo") then FIFO else ProRata)
        /\ (name = str "fifo" \/ name = str "pro_rata")).
Proof. apply config_usable. Qed.
End Readers.

(** ** The virtual call *)

Section Engine.
Context {L3 Pool : Type} {l3ops : L3Ops L3} {poolops : ObjectPool Pool} {env : Environment}.

(** [matching_engine_->match], on an order and on market data. *)
Definition engine_match (e : MatchingEngine) (w : World L3 Pool) (p : ptr) (order_price : price_t)
  (order_qty : qty_t) (request_time event_time seq_num : Z) (smp_mode : SelfMatchPreventionMode)
  : option (OrdRejectReason * list TradeSummaryInfo * World L3 Pool) :=
  match e with
  | FifoMatchingEngine => fifo_match w p order_price order_qty request_time event_time seq_num smp_mode
  | ProRataMatchingEngine config =>
      pr_match config w p order_price order_qty request_time event_time seq_num smp_mode
  end.

Definition engine_match_feed (e : MatchingEngine) (w : World L3 Pool) (side : Side) (order_id : Z)
  (price : price_t) (qty : qty_t) (event_time seq_num : Z)
  : option (list TradeSummaryInfo * qty_t * World L3 Pool) :=
  match e with
  | FifoMatchingEngine => fifo_match_feed w side order_id price qty event_time seq_num
  | ProRataMatchingEngine config => pr_match_feed config w side order_id price qty event_time seq_num
  end.
End Engine.

(** ** A concrete JSON reader, for flat objects of strings and integers *)

Inductive FlatJson := JString (s : bytes) | JInt (z : Z) | JObject (l : list (bytes * FlatJson)).

#[export] Instance flat_json : Json FlatJson := {
  js_find j k := match j with
                 | JObject l => snd <$> List.find (fun kv => bytes_eqb (fst kv) k) l
                 | _ => None
                 end;
  js_is_object j := match j with JObject _ => true | _ => false end;
  js_is_number j := match j with JInt _ => true | _ => false end;
  js_is_number_integer j := match j with JInt _ => true | _ => false end;
  js_get_int64 j := match j with JInt z => z | _ => 0 end;
  js_get_double j := match j with JInt z => double_of_Z z | _ => double_of_Z 0 end;
  js_get_string j := match j with JString s => Some s | _ => None end;
  js_empty_object := JObject []
}.

#[export] Instance flat_items : JsonItems FlatJson := fun j =>
  match j with JObject l => map snd l | _ => [j] end.

Definition sample_config : FlatJson :=
  JObject [(str "matching_algorithm", JString (str "pro_rata"));
           (str "pro_rata", JObject [(str "lot_size", JInt 2); (str "fifo_percent", JInt 40)])].

Lemma from_json_usable_witness :
  let c := mkMatchingConfig ProRata (mkProRataConfig 200000000 0 40) in
  from_json sample_config = Ok c /\ valid_config (mc_pro_rata c).
Proof.
  assert (E : from_json sample_config = Ok (mkMatchingConfig ProRata (mkProRataConfig 200000000 0 40)))
    by (vm_compute; reflexivity).
  split; [exact E|]. destruct (from_json_usable sample_config _ E) as ([H|[_ H]] & _); [discriminate|exact H].
Defined.
