(* ===== verification/MatchContract.v ===== *)
(** * What an engine promises the exchange

    [match_outcome] is all that the instruments and the exchange rely on after
    [matching_engine_->match]; [MatchContract] is the interface that states it, and both
    engines are instances. The clients' theorems are proved against it alone. *)

From S2P Require Import Prelude Types FixedString Orders Messages MarketData L3Interface.
From S2P Require Import L3Lemmas L3Reference OrderBook OrderBookInv Concrete.
From S2P Require Import OrderBookOps Sweep MatchCommon MatchLemmas FifoEngine FifoProofs.
From S2P Require Import FifoOrders ProRata Allocation ProRataSweep ProRataProofs MatchingConfig.

Section Contract.
Context {L3 Pool : Type} {l3ops : L3Ops L3} {laws : L3Laws L3} {poolops : ObjectPool Pool}
  {poollaws : PoolLaws Pool} {env : Environment}.
Abbreviation World := (World L3 Pool).
Implicit Types w : World.

Definition match_fn : Type :=
  World -> ptr -> price_t -> qty_t -> Z -> Z -> Z -> SelfMatchPreventionMode ->
  option (OrdRejectReason * list TradeSummaryInfo * World).

(** The order before and after: its price is the amendment's once one is applied. *)
Definition price_after (o : Order) (price : price_t) : price_t :=
  if bool_decide (o_status o = OrderStatus.PENDING_REPLACE) then price else o_price o.

Definition quantity_after (o : Order) (qty : qty_t) : qty_t :=
  if bool_decide (o_status o = OrderStatus.PENDING_REPLACE) then qty else o_quantity o.

Record match_outcome (but : option Z) w (x : ptr) (price : price_t) (qty : qty_t) (seq : Z)
    (reason : OrdRejectReason) (summaries : list TradeSummaryInfo) w' : Prop := {
  mo_inv : book_inv but (w_book w');
  mo_accepted : seq_accepted (ob_l3 (w_book w')) seq = true;
  mo_aggressor : aggressor but (opposite_side (o_side (order_at w x))) w' x;
  mo_stepped : stepped w w';
  mo_ids : forall id, id ∈ book_ids (ob_l3 (w_book w')) -> id ∈ book_ids (ob_l3 (w_book w));
  mo_priced : forall s, book_side s -> priced w s -> priced w' s;
  mo_md : w_md w' = w_md w;
  mo_heard : heard w w';
  mo_terms : same_terms (order_at w x) (order_at w' x);
  mo_others : forall id y, y <> x -> ob_orders (w_book w') !! id = Some y ->
    accounted_alike (order_at w y) (order_at w' y);
  mo_leaves : 0 <= o_leaves_quantity (order_at w' x);
  mo_balanced : 0 < o_leaves_quantity (order_at w' x) -> balanced (order_at w' x);
  mo_reason : reason = OrdReject.NONE \/ reason = OrdReject.SMP \/ reason = OrdReject.FOK_CANNOT_FILL;
  mo_rejected : reason <> OrdReject.NONE -> summaries = [] /\ w_book w' = w_book w;
  mo_matched : reason = OrdReject.NONE ->
    zsum (map ts_qty summaries) + o_leaves_quantity (order_at w' x) = effective_qty (order_at w x) qty
    /\ o_price (order_at w' x) = price_after (order_at w x) price
    /\ o_quantity (order_at w' x) = quantity_after (order_at w x) qty
}.

(** [fits]: what the engine needs of the queue it matches against. *)
Class MatchContract (m : match_fn) (fits : list Level -> Prop) : Prop := {
  contract : forall but w x price qty rt ts seq smp_mode,
    match_ready but w x seq ->
    fits (getLevelsL3 (ob_l3 (w_book w)) (opposite_side (o_side (order_at w x)))) ->
    exists reason summaries w', m w x price qty rt ts seq smp_mode = Some (reason, summaries, w')
      /\ match_outcome but w x price qty seq reason summaries w'
}.

(** The same for market data: what crosses is traded, the rest is handed back. *)
Definition feed_fn : Type :=
  World -> Side -> Z -> price_t -> qty_t -> Z -> Z -> option (list TradeSummaryInfo * qty_t * World).

Record feed_outcome w (aggr : Side) (qty : qty_t) (seq : Z) (summaries : list TradeSummaryInfo)
    (left : qty_t) w' : Prop := {
  fo_inv : book_inv None (w_book w');
  fo_accepted : seq_accepted (ob_l3 (w_book w')) seq = true;
  fo_stepped : stepped w w';
  fo_ids : forall id, id ∈ book_ids (ob_l3 (w_book w')) -> id ∈ book_ids (ob_l3 (w_book w));
  fo_priced : forall s, book_side s -> priced w s -> priced w' s;
  fo_md : w_md w' = w_md w;
  fo_orders : forall y, accounted_alike (order_at w y) (order_at w' y);
  fo_traded : zsum (map ts_qty summaries) + left = qty;
  fo_left : 0 <= left;
  fo_heard : heard w w'
}.

Class FeedContract (m : feed_fn) (fits : list Level -> Prop) : Prop := {
  feed_contract : forall w aggr agg price qty ts seq,
    book_side aggr -> book_inv None (w_book w) -> seq_accepted (ob_l3 (w_book w)) seq = true ->
    0 <= g_next_trade_id (w_glob w) < 2 ^ 64 -> priced w (opposite_side aggr) -> 0 <= qty ->
    fits (getLevelsL3 (ob_l3 (w_book w)) (opposite_side aggr)) ->
    exists summaries left w', m w aggr agg price qty ts seq = Some (summaries, left, w')
      /\ feed_outcome w aggr qty seq summaries left w'
}.

(** ** Shared by the engines *)

Lemma started_stepped w x price qty rt :
  stepped w (started w x price qty rt) /\ heard w (started w x price qty rt)
  /\ w_md (started w x price qty rt) = w_md w
  /\ ob_l3 (w_book (started w x price qty rt)) = ob_l3 (w_book w)
  /\ ob_orders (w_book (started w x price qty rt)) = ob_orders (w_book w).
Proof.
  unfold started. cbv zeta. repeat case_match; (split; [by apply stepped_quiet|]);
    (split; [|by split]); first [reflexivity|by eexists|by eexists; cbn; rewrite <- app_assoc].
Qed.

Lemma started_elsewhere w x price qty rt y : y <> x -> order_at (started w x price qty rt) y = order_at w y.
Proof.
  intros Hy. unfold started. cbv zeta. destruct (bool_decide (o_status _ = OrderStatus.PENDING_REPLACE)).
  - etrans; [by apply fn_lookup_insert_ne|]. by case_match.
  - by case_match.
Qed.

(** The aggressor at the start of the loop. *)
Lemma started_order w x price qty rt :
  let o := order_at w x in let o1 := order_at (started w x price qty rt) x in
  balanced o ->
  same_terms o o1 /\ o_price o1 = price_after o price /\ o_quantity o1 = quantity_after o qty
  /\ o_leaves_quantity o1 = effective_qty o qty /\ 0 <= o_leaves_quantity o1
  /\ (0 < o_leaves_quantity o1 -> balanced o1).
Proof.
  intros o o1 [Hbal Hl]. subst o1. unfold started, price_after, quantity_after, effective_qty. fold o.
  destruct (bool_decide_reflect (o_status o = OrderStatus.PENDING_REPLACE)) as [E|E].
  - rewrite bool_decide_eq_false_2 by congruence.
    change (order_at (publishOrderModify (set_order w x (applyReplace o price qty)) _ _ _ _) x)
      with ((<[x := applyReplace o price qty]> (ob_heap (w_book w))) x).
    rewrite fn_lookup_insert. split; [by repeat split|].
    unfold applyReplace, balanced. cbn. destruct (qty <=? o_cum_quantity o) eqn:E1; bool_to_prop; lia.
  - destruct (bool_decide (o_status o = OrderStatus.PENDING_NEW)); cbn;
      (split; [by repeat split|]); unfold balanced, order_at in *; cbn; fold o; lia.
Qed.

Lemma same_terms_trans o1 o2 o3 : same_terms o1 o2 -> same_terms o2 o3 -> same_terms o1 o3.
Proof.
  intros (a1 & a2 & a3 & a4 & a5 & a6 & a7 & a8 & a9) (b1 & b2 & b3 & b4 & b5 & b6 & b7 & b8 & b9).
  repeat split; congruence.
Qed.

(** The ways out of the checks. *)
Lemma prepare_cases side reach w x price qty rt smp_mode :
  balanced (order_at w x) ->
  let w1 := started w x price qty rt in
  let hits := bool_decide (smp_mode = SMP.CANCEL_NEWEST)
              && ((0 <? effective_qty (order_at w x) qty)
                  && wouldSelfMatch side reach w (order_at w x) price (effective_qty (order_at w x) qty)) in
  let out := prepareOrder side reach w x price qty rt smp_mode in
  out = (Some OrdReject.SMP, w)
  \/ (exists w', out = (Some OrdReject.FOK_CANNOT_FILL, w') /\ w_book w' = w_book w
        /\ w_glob w' = w_glob w /\ w_md w' = w_md w /\ heard w w')
  \/ (out = (Some OrdReject.NONE, publishOrderCancel w1 (order_at w1 x) rt)
      /\ effective_qty (order_at w x) qty = 0)
  \/ (out = (None, w1) /\ 0 < effective_qty (order_at w x) qty /\ hits = false).
Proof.
  intros Hbal w1 hits out. subst out. unfold prepareOrder. fold hits.
  destruct hits; [by left|]. right.
  destruct (started_order w x price qty rt Hbal) as (_ & _ & _ & El & Hl & _). fold w1 in El, Hl.
  destruct (bool_decide (o_time_in_force _ = TimeInForce.FILL_OR_KILL) && _).
  - left. eexists. split; [done|]. destruct (bool_decide (o_status _ = OrderStatus.PENDING_NEW));
      do 3 (split; [done|]); [|apply heard_publish]. etrans; [|apply heard_publish]. apply heard_publish.
  - right. unfold started in w1. fold w1. fold w1 in El. rewrite El.
    destruct (effective_qty _ _ =? 0) eqn:E; bool_to_prop; [by left|right].
    split; [done|]. split; [lia|done].
Qed.

(** An order turned away, or with nothing to match. *)
Lemma untouched_outcome but w x price qty seq reason w' :
  match_ready but w x seq -> w_book w' = w_book w -> w_glob w' = w_glob w -> w_md w' = w_md w -> heard w w' ->
  reason = OrdReject.SMP \/ reason = OrdReject.FOK_CANNOT_FILL ->
  match_outcome but w x price qty seq reason [] w'.
Proof.
  intros [H1 H2 H3 H4 H5 H6 H7] Eb Eg Em Hh Hr.
  assert (Eo : forall y, order_at w' y = order_at w y) by (intros y; unfold order_at; by rewrite Eb).
  split; rewrite ?Eo, ?Eb; try done.
  - unfold aggressor in *. rewrite Eb, Eo. done.
  - apply stepped_quiet; rewrite ?Eb, ?Eg; done.
  - intros s _. unfold priced, queue. by rewrite Eb.
  - intros id y _ _. by rewrite Eo.
  - apply H6.
  - by right.
  - by intros ->; destruct Hr.
Qed.

Lemma aggressor_started but side w x price qty rt :
  balanced (order_at w x) -> aggressor but side w x -> aggressor but side (started w x price qty rt) x.
Proof.
  intros Hbal. destruct (started_stepped w x price qty rt) as (_ & _ & _ & _ & Eo).
  destruct (started_order w x price qty rt Hbal) as ((_ & _ & Es & _) & _).
  destruct but as [id|]; unfold aggressor; rewrite Eo; [by rewrite Es|done].
Qed.

(** Nothing to match: the amendment is applied, or the empty order acknowledged. *)
Lemma empty_outcome but w x price qty rt seq :
  match_ready but w x seq -> effective_qty (order_at w x) qty = 0 ->
  let w1 := started w x price qty rt in
  match_outcome but w x price qty seq OrdReject.NONE [] (publishOrderCancel w1 (order_at w1 x) rt).
Proof.
  intros [H1 H2 H3 H4 H5 H6 H7] E0 w1.
  pose proof (started_matching but _ x price qty rt seq w (opposite_book_side _ H1) H2 H3 H4 H5 H6) as Hm.
  fold w1 in Hm. destruct (started_stepped w x price qty rt) as (Hst & Hhd & Hmd & El3 & Eo). fold w1 in Hst, Hhd, Hmd, El3, Eo.
  destruct (started_order w x price qty rt H6) as (Ht & Ep & Eq & El & Hl & Hb). fold w1 in Ht, Ep, Eq, El, Hl, Hb.
  split.
  - exact (mt_inv _ _ _ _ _ _ _ _ Hm).
  - exact (mt_accepted _ _ _ _ _ _ _ _ Hm).
  - exact (mt_aggressor _ _ _ _ _ _ _ _ Hm).
  - etrans; [exact Hst|by apply stepped_quiet].
  - intros id Hid. change (id ∈ book_ids (ob_l3 (w_book w1))) in Hid. by rewrite El3 in Hid.
  - intros s _. unfold priced, queue. change (w_book (publishOrderCancel _ _ _)) with (w_book w1). by rewrite El3.
  - exact Hmd.
  - etrans; [exact Hhd|apply heard_publish].
  - exact Ht.
  - intros id y Hy _. change (order_at (publishOrderCancel w1 (order_at w1 x) rt) y) with (order_at w1 y).
    unfold w1. by rewrite started_elsewhere.
  - exact Hl.
  - exact Hb.
  - by left.
  - done.
  - intros _. change (order_at (publishOrderCancel w1 (order_at w1 x) rt) x) with (order_at w1 x).
    rewrite El, E0, Ep, Eq. done.
Qed.

(** An order still indexed was not cancelled on the way. *)
Lemma cancelled_gone but x side ts w w1 w' acts id y :
  book_inv but (w_book w) -> book_inv but (w_book w') -> ob_orders (w_book w1) = ob_orders (w_book w) ->
  swept x side (ob_orders (w_book w)) ts w1 w' acts -> ob_orders (w_book w') !! id = Some y ->
  forall id', ActCancel id' ∈ acts -> ob_orders (w_book w) !! id' <> Some y.
Proof.
  intros Hb Hb' Eo Hsw Hid id' Hc Hid'. pose proof (st_orders _ _ (sw_stepped _ _ _ _ _ _ _ Hsw)) as Hsub.
  rewrite Eo in Hsub. pose proof (lookup_weaken _ _ _ _ Hid Hsub) as Hid0.
  assert (id' = id) as -> by (by apply (own_unique but (w_book w) id' id y)).
  apply (sw_cancelled _ _ _ _ _ _ _ Hsw id Hc). by eapply own_in_book.
Qed.

(** A completed match. *)
Lemma matched_outcome but w x price qty rt seq ts acts q' fl' own summaries w' :
  let side := opposite_side (o_side (order_at w x)) in
  match_ready but w x seq -> 0 < effective_qty (order_at w x) qty ->
  filled acts + q' = effective_qty (order_at w x) qty -> 0 <= q' ->
  records side (o_id (order_at w x)) ts own (g_next_trade_id (w_glob w)) (act_fills acts) summaries ->
  matching but side x (ob_orders (w_book w)) (self w (order_at w x)) seq w' fl' ->
  swept x side (ob_orders (w_book w)) ts (started w x price qty rt) w' acts ->
  match_outcome but w x price qty seq OrdReject.NONE summaries (cancelUnrestableRemainder w' x q' rt).
Proof.
  intros side [H1 H2 H3 H4 H5 H6 H7] Heff Hcons Hq Hrec Hm Hsw.
  destruct (started_stepped w x price qty rt) as (Hst & Hhd & Hmd & El3 & Eo).
  destruct (started_order w x price qty rt H6) as (Ht & Ep & Eq & El & Hl & Hb).
  set (w1 := started w x price qty rt) in *. set (wf := cancelUnrestableRemainder w' x q' rt).
  assert (Ef : w_book wf = w_book w') by apply remainder_book.
  assert (Eat : order_at wf x = book_fills (order_at w1 x) (own_fills ts acts)).
  { unfold order_at. rewrite Ef. apply (sw_aggressor _ _ _ _ _ _ _ Hsw). }
  destruct (book_fills_terms (order_at w1 x) (own_fills ts acts)) as (Ht' & Ep' & Eq' & Ebal).
  pose proof (book_fills_leaves (order_at w1 x) (own_fills ts acts)) as El'. rewrite own_fills_qty in El'.
  rewrite <- Eat in Ht', Ep', Eq', Ebal, El'.
  assert (Hquiet : stepped w' wf).
  { unfold wf, cancelUnrestableRemainder. case_test; [by apply stepped_quiet|done]. }
  assert (Hs : book_side side) by by apply opposite_book_side.
  split; rewrite ?Ef.
  - exact (mt_inv _ _ _ _ _ _ _ _ Hm).
  - exact (mt_accepted _ _ _ _ _ _ _ _ Hm).
  - pose proof (mt_aggressor _ _ _ _ _ _ _ _ Hm) as Ha. unfold aggressor in *. rewrite Ef.
    destruct but; [|done]. unfold order_at in *. by rewrite Ef.
  - etrans; [exact Hst|]. etrans; [apply (sw_stepped _ _ _ _ _ _ _ Hsw)|exact Hquiet].
  - intros id Hid. apply (sw_orders _ _ _ _ _ _ _ Hsw) in Hid as [Hid _]. by rewrite El3 in Hid.
  - intros s Hsd Hp. unfold priced, queue. rewrite Ef. destruct (decide (s = side)) as [->|Hne].
    + change (priced w' side). unfold priced. rewrite (mt_queue _ _ _ _ _ _ _ _ Hm).
      pose proof (mt_reach _ _ _ _ _ _ _ _ Hm) as Hr. unfold reachable_queue in Hr.
      eapply Forall_impl; [exact Hr|]. by intros e [? _].
    + rewrite (other_side side s Hs Hsd Hne).
      rewrite (sw_other _ _ _ _ _ _ _ Hsw), El3. rewrite <- (other_side side s Hs Hsd Hne). exact Hp.
  - transitivity (w_md w'); [|by rewrite (sw_md _ _ _ _ _ _ _ Hsw)].
    unfold wf, cancelUnrestableRemainder. by case_test.
  - etrans; [exact Hhd|]. etrans; [exact (heard_published _ _ _ (sw_published _ _ _ _ _ _ _ Hsw))|].
    unfold wf, cancelUnrestableRemainder. case_test; [apply heard_publish|done].
  - by eapply same_terms_trans.
  - intros id y Hy Hid. rewrite <- (started_elsewhere w x price qty rt y Hy). fold w1.
    unfold order_at at 2. rewrite Ef. change (ob_heap (w_book w') y) with (order_at w' y).
    pose proof (mt_inv _ _ _ _ _ _ _ _ Hm) as Hb'.
    rewrite (sw_heap _ _ _ _ _ _ _ Hsw y Hy (cancelled_gone but x side ts w w1 w' acts id y H2 Hb' Eo Hsw Hid)).
    apply book_resting_alike.
  - lia.
  - intros Hpos. assert (Hb1 : balanced (order_at w1 x)).
    { apply Hb. lia. }
    destruct Hb1 as [Hb1 _]. split; [|lia]. rewrite Ebal, Eq'. exact Hb1.
  - by left.
  - done.
  - intros _. rewrite Ep', Eq', Ep, Eq. split; [|done].
    rewrite (summaries_total _ _ _ _ _ (rc_ok _ _ _ _ _ _ _ Hrec)), (rc_legs _ _ _ _ _ _ _ Hrec).
    change (zsum (map fill_qty (act_fills acts))) with (filled acts). lia.
Qed.
(** An engine that performs some sweep once the checks are passed keeps the contract. *)
Lemma outcome_by_cases but reach w x price qty rt ts seq smp_mode m :
  let side := opposite_side (o_side (order_at w x)) in
  let out := prepareOrder side reach w x price qty rt smp_mode in
  let hits := bool_decide (smp_mode = SMP.CANCEL_NEWEST)
              && ((0 <? effective_qty (order_at w x) qty)
                  && wouldSelfMatch side reach w (order_at w x) price (effective_qty (order_at w x) qty)) in
  match_ready but w x seq ->
  (forall reason w', out = (Some reason, w') -> m = Some (reason, [], w')) ->
  (out = (None, started w x price qty rt) -> 0 < effective_qty (order_at w x) qty -> hits = false ->
   exists acts q' fl' own summaries w',
     m = Some (OrdReject.NONE, summaries, cancelUnrestableRemainder w' x q' rt)
     /\ filled acts + q' = effective_qty (order_at w x) qty /\ 0 <= q'
     /\ records side (o_id (order_at w x)) ts own (g_next_trade_id (w_glob w)) (act_fills acts) summaries
     /\ matching but side x (ob_orders (w_book w)) (self w (order_at w x)) seq w' fl'
     /\ swept x side (ob_orders (w_book w)) ts (started w x price qty rt) w' acts) ->
  exists reason summaries w', m = Some (reason, summaries, w')
    /\ match_outcome but w x price qty seq reason summaries w'.
Proof.
  intros side out hits Hr Hout Hmatch. pose proof (mr_balanced _ _ _ _ Hr) as Hbal.
  destruct (prepare_cases side reach w x price qty rt smp_mode Hbal) as [E|[(w' & E & Eb & Eg & Em & Hhd)|[[E E0]|(E & Hq & Hh)]]].
  - do 3 eexists. split; [by apply Hout|]. by apply untouched_outcome; auto.
  - do 3 eexists. split; [by apply Hout|]. by apply untouched_outcome; auto.
  - do 3 eexists. split; [by apply Hout|]. by apply empty_outcome.
  - destruct (Hmatch E Hq Hh) as (acts & q' & fl' & own & summaries & w' & Em & H1 & H2 & H3 & H4 & H5).
    do 3 eexists. split; [exact Em|]. by eapply matched_outcome.
Qed.

#[export] Instance fifo_contract : MatchContract fifo_match (fun _ => True).
Proof.
  split. intros but w x price qty rt ts seq smp_mode Hr _.
  pose proof (fifo_match_side w x price qty rt ts seq smp_mode (mr_side _ _ _ _ Hr)) as ->.
  apply (outcome_by_cases but Queue w x price qty rt ts seq smp_mode); [done| |].
  - intros reason w' E. unfold fifo_matchOrder. by rewrite E.
  - intros E Hq Hh. pose proof (prepare_newest but w x price qty seq smp_mode Hr) as Hn. cbv zeta in Hn.
    rewrite Hn in Hh. pose proof Hr as [H1 H2 H3 H4 H5 H6 H7]. pose proof (opposite_book_side _ H1) as Hs.
    set (side := opposite_side (o_side (order_at w x))) in *.
    set (skip := skips smp_mode (self w (order_at w x))). set (eff := effective_qty (order_at w x) qty) in *.
    pose proof (sweep_conserves (within side price) skip eff (queue w side)) as Hcons.
    pose proof (sweep_left_range (within side price) skip eff (queue w side) ltac:(lia)) as Hrange.
    pose proof (order_sweeps but side x price qty rt ts seq smp_mode w Hs H2 H3 H4 H5 H6 H7 E
      (newest_untouched w x price qty smp_mode Hh Hq)) as Hsw. cbv zeta in Hsw. fold skip eff in Hsw.
    destruct (sweep _ _ _ _) as [[acts q'] fl']. destruct Hsw as (summaries & w' & S1 & S2 & S3 & S4).
    exists acts, q', fl', (is_own w), summaries, w'. done.
Qed.

#[export] Instance pr_contract config : valid_config config -> MatchContract (pr_match config) levels_ok.
Proof.
  intros Hc. split. intros but w x price qty rt ts seq smp_mode Hr Hls.
  pose proof (pr_match_side config w x price qty rt ts seq smp_mode (mr_side _ _ _ _ Hr)) as Hside.
  rewrite Hside. apply (outcome_by_cases but ReachLevel w x price qty rt ts seq smp_mode); [done| |].
  - intros reason w' E. unfold pr_matchOrder. by rewrite E.
  - intros E Hq Hh. rewrite wouldSelfMatch_level, andb_assoc in Hh.
    pose proof (pr_sweeps config but w x price qty rt ts seq smp_mode Hc Hr Hh Hq E Hls) as Hsw. cbv zeta in Hsw.
    destruct (pr_sweep _ _ _ _ _) as [[acts q'] fl']. destruct Hsw as (summaries & w' & S1 & S2 & S3 & S4 & S5 & S6).
    exists acts, q', fl', (is_own w), summaries, w'. rewrite <- Hside. done.
Qed.

(** ** Market data *)

Lemma fed_outcome w aggr agg qty ts seq acts q' fl' own summaries w' :
  let side := opposite_side aggr in
  book_side aggr -> filled acts + q' = qty -> 0 <= q' ->
  records side agg ts own (g_next_trade_id (w_glob w)) (act_fills acts) summaries ->
  fed None side (ob_orders (w_book w)) ts seq w w' (act_fills acts) fl' ->
  feed_outcome w aggr qty seq summaries q' w'.
Proof.
  intros side Haggr Hcons Hq Hrec [D1 D2 D3 D4 D5 D6 D7 D8 D9]. pose proof (opposite_book_side _ Haggr) as Hs.
  fold side in Hs. split; try done.
  - intros id. rewrite !(book_ids_side _ side Hs), D4, !elem_of_app. intros [Hid|Hid]; [left|by right].
    apply list_elem_of_fmap in Hid as (e & -> & He). destruct (D9 e He) as (e0 & He0 & _ & ->).
    by apply list_elem_of_fmap_2.
  - intros s Hsd Hp. destruct (decide (s = side)) as [->|Hne].
    + apply Forall_forall. intros e He. destruct (D9 e He) as (e0 & He0 & -> & _).
      unfold priced in Hp. rewrite Forall_forall in Hp. by apply Hp.
    + pose proof (other_side side s Hs Hsd Hne) as ->. unfold priced, queue in *. by rewrite D4.
  - intros y. unfold order_at. rewrite D5. apply book_resting_alike.
  - rewrite (summaries_total _ _ _ _ _ (rc_ok _ _ _ _ _ _ _ Hrec)), (rc_legs _ _ _ _ _ _ _ Hrec). exact Hcons.
  - by eapply heard_published.
Qed.

#[export] Instance fifo_feed_contract : FeedContract fifo_match_feed (fun _ => True).
Proof.
  split. intros w aggr agg price qty ts seq Haggr Hb Ha Ht Hp Hq _. rewrite feed_match_side by done.
  pose proof (opposite_book_side _ Haggr) as Hs. set (side := opposite_side aggr) in *.
  pose proof (feed_sweeps side agg price qty w ts seq Hs Hb Ha Ht Hp) as Hsw.
  pose proof (sweep_conserves (within side price) never_skip qty (queue w side)) as Hcons.
  pose proof (sweep_left_range (within side price) never_skip qty (queue w side) Hq) as Hrange.
  destruct (sweep _ _ _ _) as [[acts q'] fl']. destruct Hsw as (summaries & w' & S1 & S2 & S3).
  exists summaries, q', w'. split; [exact S1|]. by eapply fed_outcome.
Qed.

#[export] Instance pr_feed_contract config : valid_config config -> FeedContract (pr_match_feed config) levels_ok.
Proof.
  intros Hc. split. intros w aggr agg price qty ts seq Haggr Hb Ha Ht Hp Hq Hls.
  pose proof (pr_feed_sweeps config aggr agg price qty w ts seq Hc Haggr Hb Ha Ht Hp Hls Hq) as Hsw.
  cbv zeta in Hsw. destruct (pr_sweep _ _ _ _ _) as [[acts q'] fl'].
  destruct Hsw as (summaries & w' & S1 & S2 & S3 & S4 & S5).
  exists summaries, q', w'. split; [exact S1|]. by eapply fed_outcome.
Qed.

(** ** The engine a symbol is bound to *)

Definition engine_ok (e : MatchingEngine) : Prop :=
  match e with FifoMatchingEngine => True | ProRataMatchingEngine config => valid_config config end.

Definition engine_fits (e : MatchingEngine) (ls : list Level) : Prop :=
  match e with FifoMatchingEngine => True | ProRataMatchingEngine _ => levels_ok ls end.

#[export] Instance engine_contract e : engine_ok e -> MatchContract (engine_match e) (engine_fits e).
Proof. destruct e; [intros _; exact fifo_contract|apply pr_contract]. Qed.

#[export] Instance engine_feed_contract e : engine_ok e -> FeedContract (engine_match_feed e) (engine_fits e).
Proof. destruct e; [intros _; exact fifo_feed_contract|apply pr_feed_contract]. Qed.
End Contract.
