(* ===== verification/BookState.v ===== *)
(** * What holds of an instrument's book between two operations

    [fine]: the book invariant with nothing half amended, real prices only, and every
    indexed client order a slot in use whose quantities add up. The lemmas say how the
    book's operations keep it, each with the levels it published and the counters it drew
    from; the instruments' and the exchange's theorems rest on them. [fine_check] decides it on a closed
    world. *)

From S2P Require Import Prelude Types FixedString Orders Messages MarketData L3Interface L3Lemmas.
From S2P Require Import L3Reference OrderBook OrderBookInv Concrete OrderBookOps Sweep.
From S2P Require Import MatchCommon MatchLemmas FifoProofs FifoOrders MatchContract.

Lemma flat_set_from id q fl x : x ∈ flat_set id q fl -> exists x0, x0 ∈ fl /\ x.1 = x0.1 /\ flat_id x = flat_id x0.
Proof.
  unfold flat_set. intros (y & Hy & E)%list_elem_of_omap. exists y. split; [done|].
  repeat case_match; try done; by injection E as <-.
Qed.

Lemma modified_from s p e np q prio ls x :
  x ∈ flat (modified_side s p e np q prio ls) ->
  (x.1 = np /\ flat_id x = l3_order_id e) \/ exists x0, x0 ∈ flat ls /\ x.1 = x0.1 /\ flat_id x = flat_id x0.
Proof.
  unfold modified_side. repeat case_test; rewrite ?flat_levels_insert, ?flat_levels_set.
  - intros Hx. right. by eapply flat_set_from.
  - intros Hx. right. by exists x.
  - intros Hx. right. by eapply flat_set_from.
  - intros [->|Hx]%elem_of_cons; [by left|]. right. by eapply flat_set_from.
Qed.

Section State.
Context {L3 Pool : Type} {l3ops : L3Ops L3} {laws : L3Laws L3} {poolops : ObjectPool Pool}
  {poollaws : PoolLaws Pool} {env : Environment}.
Abbreviation World := (World L3 Pool).
Implicit Types w : World.

Record fine w : Prop := {
  fn_inv : book_inv None (w_book w);
  fn_priced : forall s, book_side s -> priced w s;
  fn_live : forall id x, ob_orders (w_book w) !! id = Some x -> live (w_book w) x;
  fn_accounts : forall id x, ob_orders (w_book w) !! id = Some x ->
    o_cum_quantity (order_at w x) + o_leaves_quantity (order_at w x) = o_quantity (order_at w x)
}.

(** The counters: trade ids within their width, and draws of at most [n] priorities. *)
Definition ids_in_width (g : Globals) : Prop := 0 <= g_next_trade_id g < 2 ^ 64.

Definition drew (n : Z) (g g' : Globals) : Prop :=
  g_next_order_id g' = g_next_order_id g
  /\ g_next_priority g <= g_next_priority g' <= g_next_priority g + n
  /\ (ids_in_width g -> ids_in_width g').

(** A priority can be drawn without wrapping. *)
Definition roomy (g : Globals) : Prop := 0 <= g_next_priority g < 2 ^ 64 - 1 /\ ids_in_width g.

Lemma drew_refl n g : 0 <= n -> drew n g g.
Proof. intros Hn. split; [done|]. split; [lia|done]. Qed.

Lemma drew_trans n m g1 g2 g3 : drew n g1 g2 -> drew m g2 g3 -> drew (n + m) g1 g3.
Proof. intros (A1 & A2 & A3) (B1 & B2 & B3). split; [congruence|]. split; [lia|auto]. Qed.

Lemma drew_same g g' : same_counters g g' -> drew 0 g g'.
Proof. intros (A1 & A2 & _ & _ & A5). split; [done|]. split; [lia|done]. Qed.

Lemma next_priority_room g : roomy g -> u64 (g_next_priority g + 1) = g_next_priority g + 1.
Proof. intros [H _]. apply wrap_small. lia. Qed.

Lemma roomy_drew g g' : drew 0 g g' -> roomy g -> roomy g'.
Proof. intros (D1 & D2 & D3) (R2 & R3). split; [lia|auto]. Qed.

(** ** Rewriting pooled orders *)

(** Only what no index, queue or account refers to differs. *)
Definition relabelled (o o' : Order) : Prop :=
  o_identity o' = o_identity o /\ o_id o' = o_id o /\ o_side o' = o_side o /\ o_priority o' = o_priority o
  /\ o_price o' = o_price o /\ o_quantity o' = o_quantity o /\ o_leaves_quantity o' = o_leaves_quantity o
  /\ o_cum_quantity o' = o_cum_quantity o.

Lemma relabel_inv but w x o :
  relabelled (order_at w x) o -> book_inv but (w_book w) -> book_inv but (w_book (set_order w x o)).
Proof.
  intros (E1 & E2 & E3 & E4 & E5 & E6 & E7 & E8) [H1 H2 H3 H4 H5].
  assert (Hh : forall y, ob_heap (w_book (set_order w x o)) y = if decide (y = x) then o else order_at w y).
  { intros y. change (ob_heap (w_book (set_order w x o)) y) with ((<[x := o]> (ob_heap (w_book w))) y).
    destruct (decide (y = x)) as [->|]; [by rewrite fn_lookup_insert|by rewrite fn_lookup_insert_ne]. }
  assert (Hid : forall y, o_identity (ob_heap (w_book (set_order w x o)) y) = o_identity (order_at w y)).
  { intros y. rewrite Hh. by destruct (decide (y = x)) as [->|]. }
  split; [exact H1| | | |exact H5].
  - intros id y Hy. destruct (H2 id y Hy) as (A1 & A2 & A3 & px & e & A4 & A5 & A6). rewrite Hh.
    destruct (decide (y = x)) as [->|]; [|by do 3 (split; [done|]); exists px, e].
    change (ob_heap (w_book w) x) with (order_at w x) in *. rewrite <- E2, <- E3, <- E4, <- E5, <- E7 in *.
    do 3 (split; [done|]). by exists px, e.
  - eapply indexes_heap; [|exact H3]. intros id y _. unfold o_client_order_id. by rewrite Hid.
  - eapply indexes_heap; [|exact H4]. intros id y _. unfold o_order_id. by rewrite Hid.
Qed.

Lemma set_order_at w x o y : order_at (set_order w x o) y = if decide (y = x) then o else order_at w y.
Proof.
  change (order_at (set_order w x o) y) with ((<[x := o]> (ob_heap (w_book w))) y).
  destruct (decide (y = x)) as [->|]; [by rewrite fn_lookup_insert|by rewrite fn_lookup_insert_ne].
Qed.

Lemma fine_relabel w x o : relabelled (order_at w x) o -> fine w -> fine (set_order w x o).
Proof.
  intros Hr [H1 H2 H3 H4]. split; [by apply relabel_inv|exact H2|exact H3|].
  intros id y Hy. rewrite set_order_at. destruct (decide (y = x)) as [->|]; [|by eapply H4].
  destruct Hr as (_ & _ & _ & _ & _ & -> & -> & ->). by eapply H4.
Qed.

Lemma fine_write w x o : (forall id, ob_orders (w_book w) !! id <> Some x) -> fine w -> fine (set_order w x o).
Proof.
  intros Hx [H1 H2 H3 H4]. split; [by apply set_unindexed_inv|exact H2|exact H3|].
  intros id y Hy. rewrite set_order_at. rewrite decide_False; [by eapply H4|]. intros ->. by apply (Hx id).
Qed.

(** Worlds with the same book. *)
Lemma fine_same w w' : w_book w' = w_book w -> fine w -> fine w'.
Proof. intros E [H1 H2 H3 H4]. split; unfold priced, queue, order_at in *; rewrite E; done. Qed.

(** Freeing a slot no order uses. *)
Lemma fine_free w x : (forall id, ob_orders (w_book w) !! id <> Some x) -> fine w -> fine (freeOrder w x).
Proof.
  intros Hx [H1 H2 H3 H4]. split; [by apply pool_inv|exact H2| |exact H4].
  intros id y Hy. apply law_free; [|by eapply H3]. intros ->. by apply (Hx id).
Qed.

(** The caches do not matter. *)
Lemma fine_caches w ls os :
  fine w -> fine (w <| w_book ::= fun b => b <| ob_md_level_update_cache := ls |> <| ob_md_order_update_cache := os |> |>).
Proof. intros [H1 H2 H3 H4]. split; [|exact H2|exact H3|exact H4]. by eapply book_inv_core; [|exact H1]. Qed.

(** ** A slot for a new order *)

Record allocated w (x : ptr) w' : Prop := {
  al_fine : fine w';
  al_unindexed : forall id, ob_orders (w_book w') !! id <> Some x;
  al_live : live (w_book w') x;
  al_number : o_id (order_at w' x) = g_next_order_id (w_glob w);
  al_order_id_text : o_order_id (order_at w' x) = env_uuid (g_uuid (w_glob w)) ++ [NUL];
  al_next : g_next_order_id (w_glob w') = u64 (g_next_order_id (w_glob w) + 1);
  al_priority : g_next_priority (w_glob w') = g_next_priority (w_glob w);
  al_trade : g_next_trade_id (w_glob w') = g_next_trade_id (w_glob w);
  al_l3 : ob_l3 (w_book w') = ob_l3 (w_book w);
  al_orders : ob_orders (w_book w') = ob_orders (w_book w);
  al_by_client : ob_orders_by_client_order_id (w_book w') = ob_orders_by_client_order_id (w_book w);
  al_by_order_id : ob_orders_by_order_id (w_book w') = ob_orders_by_order_id (w_book w);
  al_deltas : deltas (w_book w') = deltas (w_book w);
  al_md : w_md w' = w_md w;
  al_responses : w_responses w' = w_responses w
}.

Lemma allocate_allocated w : fine w -> allocated w (fst (allocateOrder w)) (snd (allocateOrder w)).
Proof.
  intros Hf. unfold allocateOrder. pose proof (law_allocate (ob_pool (w_book w))) as (A1 & A2 & A3).
  destruct (pool_allocate (ob_pool (w_book w))) as [x pool]. cbn [fst snd] in A1, A2, A3.
  cbn [nextOrderId get_current_time_ns fst snd].
  set (w0 := (w <| w_book ::= fun b => b <| ob_pool := pool |> |>)).
  assert (Hf0 : fine w0).
  { destruct Hf as [H1 H2 H3 H4]. split; [by apply pool_inv|exact H2| |exact H4].
    intros id y Hy. apply A3. by apply (H3 id). }
  assert (Hx : forall id, ob_orders (w_book w) !! id <> Some x).
  { intros id Hid. by apply A1, (fn_live _ Hf id). }
  split; try done.
  - apply fine_write; [exact Hx|]. by apply (fine_same w0).
  - unfold order_at at 1. cbn. by rewrite fn_lookup_insert.
  - unfold order_at at 1. cbn. by rewrite fn_lookup_insert.
Qed.

(** ** After a match *)

Lemma matched_fine w x price qty seq reason summaries w' :
  fine w -> (forall id, ob_orders (w_book w) !! id <> Some x) ->
  match_outcome None w x price qty seq reason summaries w' -> fine w'.
Proof.
  intros [H1 H2 H3 H4] Hx Hm. split.
  - apply Hm.
  - intros s Hs. eapply mo_priced; [exact Hm|done|by apply H2].
  - intros id y Hy. pose proof (lookup_weaken _ _ _ _ Hy (st_orders _ _ (mo_stepped _ _ _ _ _ _ _ _ _ Hm))) as Hy0.
    destruct (st_live _ _ (mo_stepped _ _ _ _ _ _ _ _ _ Hm) y (H3 id y Hy0)) as [|(id' & Hid' & Hn)]; [done|].
    assert (id' = id) as -> by (by apply (own_unique None (w_book w) id' id y)). congruence.
  - intros id y Hy. pose proof (lookup_weaken _ _ _ _ Hy (st_orders _ _ (mo_stepped _ _ _ _ _ _ _ _ _ Hm))) as Hy0.
    assert (Hne : y <> x) by (intros ->; by apply (Hx id)).
    destruct (mo_others _ _ _ _ _ _ _ _ _ Hm id y Hne Hy) as (_ & _ & -> & ->). by eapply H4.
Qed.

(** ** Where the entries of a changed side come from *)

Lemma entries_from w w' s ls id :
  book_side s -> side_becomes (ob_l3 (w_book w)) (ob_l3 (w_book w')) s ls ->
  (forall y, y ∈ flat ls -> (y.1 <> NULL_PRICE /\ flat_id y = id)
     \/ exists y0, y0 ∈ queue w s /\ y.1 = y0.1 /\ flat_id y = flat_id y0) ->
  (forall s', book_side s' -> priced w s') ->
  (forall s', book_side s' -> priced w' s')
  /\ forall i, i ∈ book_ids (ob_l3 (w_book w')) -> i = id \/ i ∈ book_ids (ob_l3 (w_book w)).
Proof.
  intros Hs [E1 E2] Hfrom Hp. split.
  - intros s' Hs'. apply Forall_forall. intros y Hy. destruct (decide (s' = s)) as [->|Hne].
    + unfold queue in Hy. rewrite E1 in Hy. destruct (Hfrom y Hy) as [[? _]|(y0 & Hy0 & -> & _)]; [done|].
      pose proof (Hp s Hs) as Hps. unfold priced in Hps. rewrite Forall_forall in Hps. by apply Hps.
    + pose proof (other_side s s' Hs Hs' Hne) as ->. unfold queue in Hy. rewrite E2 in Hy.
      pose proof (Hp _ Hs') as Hps. unfold priced in Hps. rewrite Forall_forall in Hps. by apply Hps.
  - intros i. rewrite !(book_ids_side _ s Hs), E1, E2, !elem_of_app. intros [Hi|Hi]; [|by right; right].
    apply list_elem_of_fmap in Hi as (y & -> & Hy). destruct (Hfrom y Hy) as [[_ ->]|(y0 & Hy0 & _ & ->)]; [by left|].
    right. left. by apply list_elem_of_fmap_2.
Qed.

(** ** Phantom orders *)

(** A mutation on behalf of the venue: the client orders are as they were. *)
Lemma phantom_fine w b s ls id :
  fine w -> book_side s -> book_inv None b -> side_becomes (ob_l3 (w_book w)) (ob_l3 b) s ls ->
  ob_orders b = ob_orders (w_book w) -> ob_heap b = ob_heap (w_book w) -> ob_pool b = ob_pool (w_book w) ->
  (forall y, y ∈ flat ls -> (y.1 <> NULL_PRICE /\ flat_id y = id)
     \/ exists y0, y0 ∈ queue w s /\ y.1 = y0.1 /\ flat_id y = flat_id y0) ->
  fine (w <| w_book := b |>)
  /\ forall i, i ∈ book_ids (ob_l3 b) -> i = id \/ i ∈ book_ids (ob_l3 (w_book w)).
Proof.
  intros [H1 H2 H3 H4] Hs Hb Hside E1 E2 E3 Hfrom.
  set (w' := w <| w_book := b |>).
  destruct (entries_from w w' s ls id Hs Hside Hfrom H2) as [P1 P2].
  split; [|exact P2]. split; [exact Hb|exact P1| |].
  - intros i y Hy. change (ob_orders b !! i = Some y) in Hy. rewrite E1 in Hy. change (live b y). unfold live. rewrite E3.
    by apply (H3 i).
  - intros i y Hy. change (ob_orders b !! i = Some y) in Hy. rewrite E1 in Hy.
    change (order_at w' y) with (ob_heap b y). rewrite E2. by apply (H4 i).
Qed.

Lemma find_entry (l3 : L3) id e :
  book_ok l3 -> l3_findOrder l3 id = Some e ->
  l3_order_id e = id /\ exists s p, book_side s /\ (p, e) ∈ flat (getLevelsL3 l3 s).
Proof.
  intros Hok Hf. rewrite law_find in Hf by done. apply find_some in Hf as [Hin Hid]. apply Z.eqb_eq in Hid.
  split; [done|]. apply in_concat in Hin as (os & Hos & Hin). apply in_map_iff in Hos as (l & <- & Hl).
  apply in_app_iff in Hl. assert (Hl' : forall s, In l (getLevelsL3 l3 s) -> (lv_price l, e) ∈ flat (getLevelsL3 l3 s)).
  { intros s Hs. apply rests_at_flat. exists l. split; [by apply list_elem_of_In|]. split; [done|by apply list_elem_of_In]. }
  destruct Hl as [Hl|Hl]; [exists BUY|exists SELL]; exists (lv_price l); (split; [first [by left|by right]|by apply Hl']).
Qed.

Lemma find_absent (l3 : L3) id : book_ok l3 -> l3_findOrder l3 id = None -> id ∉ book_ids l3.
Proof.
  intros Hok Hf Hin. rewrite law_find in Hf by done. unfold book_ids in Hin.
  assert (He : exists e, In e (List.concat (map lv_orders (getLevelsL3 l3 BUY ++ getLevelsL3 l3 SELL))) /\ l3_order_id e = id).
  { rewrite map_app, concat_app. rewrite elem_of_app, !order_ids_flat in Hin. destruct Hin as [Hin|Hin];
      apply list_elem_of_fmap in Hin as ([p e] & -> & Hpe); apply rests_at_flat in Hpe as (l & Hl & _ & He);
      exists e; (split; [|done]); apply in_app_iff; [left|right]; apply in_concat; exists (lv_orders l);
      (split; [by apply in_map, list_elem_of_In|by apply list_elem_of_In]). }
  destruct He as (e & He & Hid). pose proof (find_none _ _ Hf e He) as Hn. cbn in Hn. apply Z.eqb_neq in Hn. done.
Qed.

(** A new phantom order. *)
Lemma phantom_add w id s p q ts prio seq last :
  fine w -> book_side s -> seq_accepted (ob_l3 (w_book w)) seq = true -> id ∉ book_ids (ob_l3 (w_book w)) -> 0 < q -> prio <> 0 -> p <> NULL_PRICE ->
  let b := fst (l3_call (w_book w) (l3_addOrder (ob_l3 (w_book w)) id s p q ts prio seq last)) in
  fine (w <| w_book := b |>) /\ level_step (w_book w) b
  /\ side_becomes (ob_l3 (w_book w)) (ob_l3 b) s (levels_insert s p (mkL3Order id q prio) (getLevelsL3 (ob_l3 (w_book w)) s))
  /\ ob_orders b = ob_orders (w_book w) /\ ob_heap b = ob_heap (w_book w)
  /\ forall i, i ∈ book_ids (ob_l3 b) -> i = id \/ i ∈ book_ids (ob_l3 (w_book w)).
Proof.
  intros Hf Hs Ha Hid Hq Hprio Hp b. pose proof (bi_l3 _ _ (fn_inv _ Hf)) as Hok.
  pose proof (law_add (ob_l3 (w_book w)) s p id q ts prio seq last Hok Hs Ha Hid Hq Hprio) as Hm.
  pose proof (rest_phantom_inv None (w_book w) id s p q ts prio seq last (fn_inv _ Hf) Hs Ha Hid Hq Hprio)
    as (A1 & A2 & A3 & A4). fold b in A1, A2, A3, A4.
  destruct (phantom_fine w b s _ id Hf Hs A1 A2 A3 A4 (l3_call_pool _ _)) as [B1 B2].
  { intros y. rewrite flat_levels_insert. intros [->|Hy]%elem_of_cons; [by left|]. right. by exists y. }
  split; [exact B1|]. split; [exact (mutated_levels _ _ _ _ _ _ Hm)|done].
Qed.

(** Removing one, which may not be there. *)
Lemma phantom_delete w id ts last :
  fine w -> findOrder (w_book w) id = None ->
  let b := fst (deleteBookOrder (w_book w) id ts 0 last) in
  fine (w <| w_book := b |>) /\ level_step (w_book w) b /\ id ∉ book_ids (ob_l3 b)
  /\ ob_orders b = ob_orders (w_book w)
  /\ (forall i, i ∈ book_ids (ob_l3 b) -> i ∈ book_ids (ob_l3 (w_book w)))
  /\ forall s, book_side s -> getLevelsL3 (ob_l3 b) s = getLevelsL3 (ob_l3 (w_book w)) s
       \/ getLevelsL3 (ob_l3 b) s = levels_set_qty id 0 (getLevelsL3 (ob_l3 (w_book w)) s).
Proof.
  intros Hf Hn b. pose proof (bi_l3 _ _ (fn_inv _ Hf)) as Hok.
  destruct (l3_findOrder (ob_l3 (w_book w)) id) as [e|] eqn:E.
  - destruct (find_entry _ _ _ Hok E) as (<- & s & p & Hs & Hin).
    pose proof (deleteBookOrder_inv None (w_book w) s p e ts 0 last (fn_inv _ Hf) Hs eq_refl Hin Hn) as Hd.
    unfold b. destruct (deleteBookOrder _ _ _ _ _) as [b' r]. cbn [fst]. destruct Hd as (_ & A1 & A2 & A3 & A4 & A5 & A6).
    destruct (phantom_fine w b' s _ (l3_order_id e) Hf Hs A1 A2 A3 A4 A5) as [B1 B2].
    { intros y. rewrite flat_levels_set. intros Hy. right. by eapply flat_set_from. }
    assert (Hgone : l3_order_id e ∉ book_ids (ob_l3 b')).
    { destruct (set_qty_ok _ _ s p e 0 Hok Hs Hin ltac:(lia) A2) as [Hok' Hp]. cbn [Z.eqb] in Hp.
      pose proof (bo_unique _ Hok) as Hu. change (NoDup (book_ids (ob_l3 (w_book w)))) in Hu. rewrite Hp in Hu.
      by apply NoDup_cons in Hu as [Hu _]. }
    split; [done|]. split; [done|]. split; [done|]. split; [done|]. split; [|].
    { intros i Hi. by destruct (B2 i Hi) as [->|]. }
    intros s' Hs'. destruct A2 as [L1 L2]. destruct (decide (s' = s)) as [->|Hne]; [by right|left].
    by rewrite (other_side s s' Hs Hs' Hne).
  - pose proof (find_absent _ _ Hok E) as Hnin.
    assert (Eb : b = fst (l3_call (w_book w) (ob_l3 (w_book w), [], false))).
    { unfold b, deleteBookOrder. by rewrite law_delete_absent. }
    assert (Eb' : b = w_book w) by (rewrite Eb; cbn; by destruct (w_book w)).
    rewrite Eb'. split; [by apply (fine_same w)|]. split; [done|]. split; [done|]. split; [done|].
    split; [done|]. by left.
Qed.

(** Changing one that is there. *)
Lemma phantom_modify w s p e np q ts prio seq last :
  fine w -> book_side s -> seq_accepted (ob_l3 (w_book w)) seq = true -> (p, e) ∈ queue w s -> findOrder (w_book w) (l3_order_id e) = None ->
  0 <= q -> prio <> 0 -> np <> NULL_PRICE ->
  let b := fst (modifyBookOrder (w_book w) (l3_order_id e) np q ts prio seq last) in
  fine (w <| w_book := b |>) /\ level_step (w_book w) b
  /\ side_becomes (ob_l3 (w_book w)) (ob_l3 b) s (modified_side s p e np q prio (getLevelsL3 (ob_l3 (w_book w)) s))
  /\ ob_orders b = ob_orders (w_book w) /\ ob_heap b = ob_heap (w_book w)
  /\ forall i, i ∈ book_ids (ob_l3 b) -> i ∈ book_ids (ob_l3 (w_book w)).
Proof.
  intros Hf Hs Ha Hin Hn Hq Hprio Hnp b.
  pose proof (modifyBookOrder_inv None (w_book w) s p e np q ts prio seq last (fn_inv _ Hf) Hs Ha Hin Hn Hq Hprio) as Hd.
  unfold b. destruct (modifyBookOrder _ _ _ _ _ _ _ _) as [b' r]. cbn [fst]. destruct Hd as (_ & A1 & A2 & A3 & A4 & A5 & A6).
  destruct (phantom_fine w b' s _ (l3_order_id e) Hf Hs A1 A2 A3 A4 A5) as [B1 B2].
  { intros y [[-> ->]|Hy]%modified_from; [by left|by right]. }
  split; [done|]. split; [done|]. split; [done|]. split; [done|]. split; [done|].
  intros i Hi. destruct (B2 i Hi) as [->|]; [|done]. by eapply flat_in_book.
Qed.
End State.

Definition pointer_check (w : World RefBook Z) (kv : Z * ptr) : bool :=
  (kv.2 <? ob_pool (w_book w))
  && (o_cum_quantity (order_at w kv.2) + o_leaves_quantity (order_at w kv.2) =? o_quantity (order_at w kv.2)).

Definition price_check (w : World RefBook Z) (s : Side) : bool :=
  forallb (fun e => negb (e.1 =? NULL_PRICE)) (queue w s).

Definition fine_check (w : World RefBook Z) : bool :=
  book_check (w_book w) && (price_check w BUY && price_check w SELL)
  && forallb (pointer_check w) (map_to_list (ob_orders (w_book w))).

Lemma price_check_sound w s : price_check w s = true -> priced w s.
Proof.
  unfold price_check, priced. rewrite forallb_forall, Forall_forall. intros H e He.
  specialize (H e ltac:(by apply list_elem_of_In)). by bool_to_prop.
Qed.

Lemma fine_check_sound w : fine_check w = true -> fine w.
Proof.
  unfold fine_check. intros [[H1 [H2 H3]%andb_true_iff]%andb_true_iff H4]%andb_true_iff.
  assert (Hp : forall id x, ob_orders (w_book w) !! id = Some x -> pointer_check w (id, x) = true).
  { intros id x Hx. rewrite forallb_forall in H4. apply H4, list_elem_of_In. by apply elem_of_map_to_list. }
  split.
  - by apply book_check_sound.
  - intros s [-> | ->]; by apply price_check_sound.
  - intros id x Hx. specialize (Hp id x Hx). unfold pointer_check in Hp. bool_to_prop. done.
  - intros id x Hx. specialize (Hp id x Hx). unfold pointer_check in Hp. by bool_to_prop.
Qed.

Lemma sample_fine : fine sample_world.
Proof. apply fine_check_sound. vm_compute. reflexivity. Qed.
