(* ===== verification/Symbol.v ===== *)
(** * Instruments

    Models [src/exchange/symbol.hpp] and [src/exchange/symbol.cpp]. A [Symbol]'s order book
    and its two update caches are the [OrderBook] of the world; the other fields are the
    record [Symbol]. Matching goes through the engine the symbol is bound to.
    [creditTradedQty] and [takeTradedQty] keep one list of credits per side and price and
    merge the credits of one timestamp; their specification is the log of everything
    credited, in which a take forgets what the venue's book already reflects. *)

From S2P Require Import Prelude Types FixedString RingBuffer Orders Messages MarketData L3Interface.
From S2P Require Import OrderBook MatchCommon FifoEngine ProRata MatchingConfig.

(** ** Credits: what trades took from phantom liquidity, per timestamp *)

Record TradedCredit := mkCredit {
  cr_qty : qty_t;
  cr_event_time : time_t
}.

#[export] Instance TradedCredit_eta : Eta TradedCredit := fun c => mkCredit (cr_qty c) (cr_event_time c).

Abbreviation CreditMap := (gmap price_t (list TradedCredit)) (only parsing).

(** [traded_qty_credit_], the array indexed by [Side]. *)
Record Credits := mkCredits {
  cs_buy : CreditMap;
  cs_sell : CreditMap
}.

(** [side > Side::SELL] leaves only the two real sides. *)
Definition side_beyond_sell (side : Side) : bool := negb (bool_decide (side = BUY \/ side = SELL)).

Definition credits_of (c : Credits) (side : Side) : CreditMap :=
  if bool_decide (side = BUY) then cs_buy c else cs_sell c.

Definition set_credits (c : Credits) (side : Side) (m : CreditMap) : Credits :=
  if bool_decide (side = BUY) then mkCredits m (cs_sell c) else mkCredits (cs_buy c) m.

(** The loop over the credits at one price: onto the one of that time, else at the back. *)
Fixpoint add_credit (credits : list TradedCredit) (qty : qty_t) (event_time : time_t)
  : list TradedCredit :=
  match credits with
  | [] => [mkCredit qty event_time]
  | credit :: rest =>
      if cr_event_time credit =? event_time
      then (credit <| cr_qty ::= fun q => q + qty |>) :: rest
      else credit :: add_credit rest qty event_time
  end.

Definition creditTradedQty (c : Credits) (side : Side) (price : price_t) (phantom_consumed : qty_t)
  (event_time : time_t) : Credits :=
  if (phantom_consumed <=? 0) || side_beyond_sell side then c
  else
    let by_price := credits_of c side in
    set_credits c side
      (<[price := add_credit (default [] (by_price !! price)) phantom_consumed event_time]> by_price).

(** The erasing loop: the total kept back, and the credits that stay. *)
Fixpoint resolve_credits (credits : list TradedCredit) (as_of : time_t) : qty_t * list TradedCredit :=
  match credits with
  | [] => (0, [])
  | credit :: rest =>
      let '(unreflected, kept) := resolve_credits rest as_of in
      if as_of <? cr_event_time credit then (cr_qty credit + unreflected, credit :: kept)
      else (unreflected, kept)
  end.

Definition takeTradedQty (c : Credits) (side : Side) (price : price_t) (as_of : time_t)
  : qty_t * Credits :=
  if side_beyond_sell side then (0, c)
  else
    match credits_of c side !! price with
    | None => (0, c)
    | Some credits =>
        let '(unreflected, kept) := resolve_credits credits as_of in
        (unreflected,
         set_credits c side
           match kept with
           | [] => delete price (credits_of c side)
           | _ => <[price := kept]> (credits_of c side)
           end)
    end.

(** ** The symbol *)

Definition TRADE_HISTORY_CAPACITY : Z := 64.

Record Symbol := mkSymbol {
  sym_id : Z;
  sym_venue : Venue;
  sym_symbol : fixed_string;
  sym_matching_engine : option MatchingEngine;
  sym_num_subscriptions : Z;
  sym_smp_mode : SelfMatchPreventionMode;
  sym_trade_history : RingBuffer MDTrade;
  sym_traded_qty_credit : Credits
}.

#[export] Instance Symbol_eta : Eta Symbol := fun s =>
  mkSymbol (sym_id s) (sym_venue s) (sym_symbol s) (sym_matching_engine s) (sym_num_subscriptions s)
    (sym_smp_mode s) (sym_trade_history s) (sym_traded_qty_credit s).

(** [recordTrade] and [clearTradeHistory]; [storage] is a fresh array. *)
Definition symbol_recordTrade (s : Symbol) (trade : MDTrade) : Symbol :=
  s <| sym_trade_history ::= fun h => push h trade |>.

Definition clearTradeHistory (s : Symbol) (storage : list MDTrade) : Symbol :=
  s <| sym_trade_history := new_ring TRADE_HISTORY_CAPACITY storage |>.

Section Symbol.
Context {L3 Pool : Type} {l3ops : L3Ops L3} {poolops : ObjectPool Pool} {env : Environment}.
Abbreviation World := (World L3 Pool).

(** Close the event on the last cached level update, if there is one. *)
Definition end_last_event (w : World) : World :=
  w <| w_book ::= fun b => b <| ob_md_level_update_cache ::=
         update_last (fun l => l <| ml_flags ::= fun f => Z.lor f F_END_EVENT |>) |> |>.

(** [Symbol::addOrder]. A symbol without an engine is not a state the code can call from. *)
Definition symbol_addOrder (s : Symbol) (w : World) (order : ptr) (request_time : time_t)
  : option (OrdRejectReason * list TradeSummaryInfo * World) :=
  match sym_matching_engine s with
  | None => None
  | Some engine =>
      let o := order_at w order in
      match engine_match engine w order (o_price o) (o_quantity o) request_time (o_created_time o) 0
              (sym_smp_mode s) with
      | None => None
      | Some (reject_reason, trade_summaries, w) =>
          let o := order_at w order in
          let resting := bool_decide (reject_reason = OrdReject.NONE)
                         && (0 <? o_leaves_quantity o) && restsRemainder o in
          let w := if resting then addOrder w order (o_created_time o) 0 true
                   else freeOrder (end_last_event w) order in
          Some (reject_reason, trade_summaries, w)
      end
  end.

(** [Symbol::modifyOrder]. *)
Definition symbol_modifyOrder (s : Symbol) (w : World) (order : ptr) (new_price : price_t) (new_qty : qty_t)
  (request_time : time_t) : option (OrdRejectReason * list TradeSummaryInfo * World) :=
  match sym_matching_engine s with
  | None => None
  | Some engine =>
      let o := order_at w order in
      let requeue := negb (new_price =? o_price o) || (o_quantity o <? new_qty) in
      match engine_match engine w order new_price new_qty request_time (o_last_update_time o) 0
              (sym_smp_mode s) with
      | None => None
      | Some (reject_reason, trade_summaries, w) =>
          let '(now, w) := get_current_time_ns w in
          let w := set_order w order ((order_at w order) <| o_last_update_time := now |>) in
          let w :=
            if bool_decide (reject_reason = OrdReject.NONE) then
              let w := if requeue then
                         let '(prio, w) := nextOrderPriority w in
                         set_order w order ((order_at w order) <| o_priority := prio |>)
                       else w in
              let o := order_at w order in
              modifyOrder w order new_price (o_quantity o) (o_last_update_time o) 0 true
            else w in
          let w := if o_leaves_quantity (order_at w order) =? 0 then freeOrder w order else w in
          Some (reject_reason, trade_summaries, w)
      end
  end.

(** [Symbol::cancelOrder]. *)
Definition symbol_cancelOrder (w : World) (order : ptr) (request_time : time_t) : World :=
  let '(now, w) := get_current_time_ns w in
  let w := set_order w order ((order_at w order) <| o_last_update_time := now |>) in
  let w := w <| w_book ::= fun b => deleteOrder b order (o_last_update_time (ob_heap b order)) 0 true |> in
  let w := publishOrderCancel w (order_at w order) request_time in
  freeOrder w order.

End Symbol.

(** One credit or one take, as [publishTradeSummary]'s callers and [reconcilePhantomQty] make them. *)
Inductive CreditOp :=
  OpCredit (side : Side) (price : price_t) (qty : qty_t) (event_time : time_t)
| OpTake (side : Side) (price : price_t) (as_of : time_t).

(** The code's answers: what each take reported. *)
Fixpoint run_credits (c : Credits) (ops : list CreditOp) : list qty_t :=
  match ops with
  | [] => []
  | OpCredit s p q t :: rest => run_credits (creditTradedQty c s p q t) rest
  | OpTake s p t :: rest => let '(q, c) := takeTradedQty c s p t in q :: run_credits c rest
  end.

(** ** The log *)

Record LogEntry := mkLogEntry { le_side : Side; le_price : price_t; le_qty : qty_t; le_time : time_t }.

Definition at_place (s : Side) (p : price_t) (e : LogEntry) : bool :=
  bool_decide (le_side e = s) && (le_price e =? p).

Definition log_total (l : list LogEntry) (s : Side) (p : price_t) (as_of : time_t) : qty_t :=
  zsum (map le_qty (List.filter (fun e => at_place s p e && (as_of <? le_time e)) l)).

Fixpoint run_log (l : list LogEntry) (ops : list CreditOp) : list qty_t :=
  match ops with
  | [] => []
  | OpCredit s p q t :: rest =>
      run_log (if (0 <? q) && bool_decide (book_side s) then l ++ [mkLogEntry s p q t] else l) rest
  | OpTake s p t :: rest =>
      log_total l s p t
        :: run_log (List.filter (fun e => negb (at_place s p e) || (t <? le_time e)) l) rest
  end.

(** ** The lists of one price *)

Definition later (as_of : time_t) (l : list TradedCredit) : qty_t :=
  zsum (map cr_qty (List.filter (fun c => as_of <? cr_event_time c) l)).

Lemma later_cons as_of c l :
  later as_of (c :: l) = (if as_of <? cr_event_time c then cr_qty c else 0) + later as_of l.
Proof. unfold later. cbn [List.filter]. by destruct (as_of <? cr_event_time c). Qed.

Lemma later_add l q t as_of : later as_of (add_credit l q t) = later as_of l + (if as_of <? t then q else 0).
Proof.
  induction l as [|c l IH]; cbn [add_credit].
  - rewrite later_cons. cbn [cr_event_time cr_qty]. unfold later. cbn. lia.
  - destruct (cr_event_time c =? t) eqn:E; bool_to_prop; rewrite !later_cons; [|rewrite IH; lia].
    subst t. change (cr_event_time (c <| cr_qty ::= fun q0 => q0 + q |>)) with (cr_event_time c).
    change (cr_qty (c <| cr_qty ::= fun q0 => q0 + q |>)) with (cr_qty c + q). case_test; lia.
Qed.

Lemma resolve_spec l as_of :
  (resolve_credits l as_of).1 = later as_of l
  /\ forall t, later t (resolve_credits l as_of).2 = later (Z.max as_of t) l.
Proof.
  induction l as [|c l [IH1 IH2]]; [done|]. cbn [resolve_credits].
  destruct (resolve_credits l as_of) as [u kept]. cbn [fst snd] in *. rewrite later_cons.
  destruct (as_of <? cr_event_time c) eqn:E; cbn [fst snd]; bool_to_prop; rewrite IH1; (split; [done|]);
    intros t; rewrite !later_cons, ?IH2; repeat case_test; bool_to_prop; lia.
Qed.

(** ** The maps *)

Definition outstanding (c : Credits) (s : Side) (p : price_t) (as_of : time_t) : qty_t :=
  later as_of (default [] (credits_of c s !! p)).

Lemma credits_of_set c s m s' :
  book_side s -> book_side s' -> credits_of (set_credits c s m) s' = if bool_decide (s' = s) then m else credits_of c s'.
Proof. by intros [-> | ->] [-> | ->]. Qed.

Lemma outstanding_set c s p l s' p' t :
  book_side s -> book_side s' ->
  outstanding (set_credits c s match l with [] => delete p (credits_of c s)
                                          | _ => <[p := l]> (credits_of c s) end) s' p' t
  = if bool_decide (s' = s) && (p' =? p) then later t l else outstanding c s' p' t.
Proof.
  intros Hs Hs'. unfold outstanding. rewrite credits_of_set by done.
  destruct (bool_decide_reflect (s' = s)) as [->|]; [|done]. cbn [andb].
  destruct (p' =? p) eqn:E; bool_to_prop.
  - subst. destruct l; [by rewrite lookup_delete_eq|by rewrite lookup_insert_eq].
  - destruct l; [by rewrite lookup_delete_ne by congruence|by rewrite lookup_insert_ne by congruence].
Qed.

Lemma add_credit_cons l q t : exists c r, add_credit l q t = c :: r.
Proof. destruct l; [by do 2 eexists|]. cbn. case_test; by do 2 eexists. Qed.

Lemma real_side s : side_beyond_sell s = negb (bool_decide (book_side s)).
Proof. done. Qed.

Lemma credit_outstanding c s p q t s' p' as_of :
  book_side s' ->
  outstanding (creditTradedQty c s p q t) s' p' as_of
  = outstanding c s' p' as_of
    + (if (0 <? q) && bool_decide (book_side s) && (bool_decide (s' = s) && (p' =? p)) && (as_of <? t) then q else 0).
Proof.
  intros Hs'. unfold creditTradedQty. rewrite real_side.
  destruct (bool_decide_reflect (book_side s)) as [Hs|Hs]; cbn [negb andb].
  2: { rewrite orb_true_r, andb_false_r. cbn. lia. }
  rewrite orb_false_r, andb_true_r. destruct (q <=? 0) eqn:E0; bool_to_prop.
  { rewrite (proj2 (Z.ltb_ge 0 q)) by lia. cbn. lia. }
  rewrite (proj2 (Z.ltb_lt 0 q)) by lia. cbn [andb].
  destruct (add_credit_cons (default [] (credits_of c s !! p)) q t) as (cr & r & E).
  pose proof (outstanding_set c s p (add_credit (default [] (credits_of c s !! p)) q t) s' p' as_of Hs Hs') as H.
  rewrite E in H. cbn [app] in H. rewrite E, H. destruct (bool_decide_reflect (s' = s)) as [->|]; cbn [andb]; [|lia].
  destruct (p' =? p) eqn:E1; bool_to_prop; cbn [andb]; [|lia]. rewrite <- E, later_add. unfold outstanding. by subst.
Qed.

Lemma take_outstanding c s p t :
  let '(q, c') := takeTradedQty c s p t in
  (book_side s -> q = outstanding c s p t) /\ (~ book_side s -> q = 0)
  /\ forall s' p' t', book_side s' ->
     outstanding c' s' p' t'
     = if bool_decide (s' = s) && (p' =? p) then outstanding c s p (Z.max t t') else outstanding c s' p' t'.
Proof.
  unfold takeTradedQty. rewrite real_side. destruct (bool_decide_reflect (book_side s)) as [Hs|Hs]; cbn [negb].
  2: { split; [done|]. split; [done|]. intros s' p' t' Hs'. rewrite bool_decide_eq_false_2 by congruence. done. }
  destruct (credits_of c s !! p) as [l|] eqn:El.
  - destruct (resolve_spec l t) as [R1 R2]. destruct (resolve_credits l t) as [u kept]. cbn [fst snd] in *.
    split; [intros _; unfold outstanding; by rewrite El|]. split; [done|].
    intros s' p' t' Hs'. rewrite outstanding_set by done. case_test; [|done]. rewrite R2. unfold outstanding. by rewrite El.
  - split; [intros _; unfold outstanding; by rewrite El|]. split; [done|]. intros s' p' t' Hs'.
    destruct (bool_decide_reflect (s' = s)) as [->|]; [|done]. cbn [andb].
    destruct (p' =? p) eqn:E; bool_to_prop; [|done]. subst. unfold outstanding. by rewrite El.
Qed.

(** ** Refinement *)

Definition logs (c : Credits) (l : list LogEntry) : Prop :=
  Forall (fun e => book_side (le_side e)) l
  /\ forall s p t, book_side s -> outstanding c s p t = log_total l s p t.

(** Nothing is logged on a side the book does not have. *)
Lemma log_total_none l s p t : Forall (fun e => book_side (le_side e)) l -> ~ book_side s -> log_total l s p t = 0.
Proof.
  intros Hl Hs. unfold log_total. induction Hl as [|e l He _ IH]; [done|]. cbn. unfold at_place at 1.
  rewrite bool_decide_eq_false_2 by congruence. exact IH.
Qed.

Lemma filter_twice {A} (f g : A -> bool) l : List.filter f (List.filter g l) = List.filter (fun x => g x && f x) l.
Proof. induction l as [|x l IH]; [done|]. cbn. destruct (g x); cbn; [|done]. by rewrite IH. Qed.

Lemma log_total_snoc l e s p t :
  log_total (l ++ [e]) s p t = log_total l s p t + (if at_place s p e && (t <? le_time e) then le_qty e else 0).
Proof. unfold log_total. rewrite List.filter_app, map_app, zsum_app. cbn. case_test; cbn; lia. Qed.

Lemma log_total_take l s p t s' p' t' :
  log_total (List.filter (fun e => negb (at_place s p e) || (t <? le_time e)) l) s' p' t'
  = if bool_decide (s' = s) && (p' =? p) then log_total l s p (Z.max t t') else log_total l s' p' t'.
Proof.
  unfold log_total. assert (Hz : forall a b l, (forall e, a e = b e) ->
    zsum (map le_qty (List.filter a l)) = zsum (map le_qty (List.filter b l))).
  { intros a b k E. f_equal. f_equal. by apply List.filter_ext. }
  rewrite filter_twice. unfold at_place.
  destruct (bool_decide_reflect (s' = s)) as [->|Hne]; cbn [andb].
  - destruct (p' =? p) eqn:E; bool_to_prop.
    + subst p'. apply Hz. intros e. destruct (bool_decide _ && _) eqn:E1; cbn [andb negb orb]; [|done].
      apply eq_true_iff_eq. rewrite andb_true_iff, !Z.ltb_lt. lia.
    + apply Hz. intros e. destruct (bool_decide (le_side e = s)); cbn [andb negb orb]; [|done].
      destruct (le_price e =? p) eqn:E1, (le_price e =? p') eqn:E2; cbn; try done; bool_to_prop; lia.
  - apply Hz. intros e. destruct (bool_decide_reflect (le_side e = s)) as [E|]; [|done].
    rewrite (bool_decide_eq_false_2 (le_side e = s')) by congruence. apply andb_false_r.
Qed.

Lemma credits_log c l ops : logs c l -> run_credits c ops = run_log l ops.
Proof.
  revert c l. induction ops as [|[s p q t|s p t] ops IH]; intros c l [Hf Hl]; [done| |]; cbn [run_credits run_log].
  - apply IH. split.
    { destruct ((0 <? q) && bool_decide (book_side s)) eqn:E; [|done]. bool_to_prop. apply Forall_app. split; [done|]. constructor; done. }
    intros s' p' t' Hs'. rewrite credit_outstanding, Hl by done.
    destruct ((0 <? q) && bool_decide (book_side s)); cbn [andb]; [|lia]. rewrite log_total_snoc. unfold at_place.
    cbn [le_side le_price le_time le_qty]. rewrite (bool_decide_ext (s' = s) (s = s')), (Z.eqb_sym p' p) by done. done.
  - pose proof (take_outstanding c s p t) as Ht. destruct (takeTradedQty c s p t) as [q c'].
    destruct Ht as (Hq & H0 & Hc'). f_equal.
    + destruct (decide (book_side s)) as [Hs|Hs]; [by rewrite Hq, Hl|].
      by rewrite H0, log_total_none.
    + apply IH. split.
      { apply Forall_forall. intros e He. rewrite Forall_forall in Hf. apply Hf, list_elem_of_In.
        by apply list_elem_of_In, filter_In in He as [He _]. }
      intros s' p' t' Hs'. rewrite Hc', log_total_take by done.
      destruct (bool_decide_reflect (s' = s)) as [->|]; cbn [andb]; [|by apply Hl]. case_test; by apply Hl.
Qed.

(** The credits of an instrument are the log of its trades: whatever sequence of trades
    is credited and of venue updates is reconciled, every reconciliation is told exactly the
    total quantity traded at its side and price after the venue's timestamp and not yet
    reflected, and nothing on a side the book does not have. *)
Lemma credits_refine_log ops : run_credits (mkCredits ∅ ∅) ops = run_log [] ops.
Proof. apply credits_log. split; [constructor|]. by intros s p t [-> | ->]. Qed.
