(* ===== verification/SymbolProofs.v ===== *)
(** * What an instrument does with a client order

    [Symbol::addOrder], [modifyOrder] and [cancelOrder], proved over the engine's contract:
    whichever engine the symbol is bound to, the book stays [fine], the published levels
    account for its depth, and exactly the orders the code says rest, or leave. *)

From S2P Require Import Prelude Types FixedString RingBuffer Orders Messages MarketData.
From S2P Require Import L3Interface L3Lemmas OrderBook OrderBookInv OrderBookOps.
From S2P Require Import Sweep MatchCommon MatchLemmas FifoEngine FifoProofs FifoOrders.
From S2P Require Import ProRata MatchingConfig MatchContract BookState Symbol.
From S2P Require Import L3Reference Concrete.

Section SymbolProofs.
Context {L3 Pool : Type} {l3ops : L3Ops L3} {laws : L3Laws L3} {poolops : ObjectPool Pool}
  {poollaws : PoolLaws Pool} {env : Environment}.
Abbreviation World := (World L3 Pool).
Implicit Types w : World.

(** ** Resting an order *)

Lemma index_deltas b x : deltas (index_order (b : OrderBook L3 Pool) x) = deltas b.
Proof.
  unfold index_order. cbv zeta.
  by destruct (empty (o_client_order_id (ob_heap b x))), (empty (o_order_id (ob_heap b x))).
Qed.

Definition addOrder_book w (x : ptr) (ts seq : Z) (last : bool) : OrderBook L3 Pool :=
  let b := book_set_order (w_book w) x ((order_at w x) <| o_priority := u64 (g_next_priority (w_glob w) + 1) |>) in
  fst (l3_call (index_order b x)
         (l3_addOrder (ob_l3 b) (o_id (ob_heap b x)) (o_side (ob_heap b x)) (o_price (ob_heap b x))
            (o_leaves_quantity (ob_heap b x)) ts (o_priority (ob_heap b x)) seq last)).

Lemma addOrder_unfold w x ts seq last :
  w_book (addOrder w x ts seq last) = addOrder_book w x ts seq last
  /\ w_glob (addOrder w x ts seq last) = (w_glob w) <| g_next_priority := u64 (g_next_priority (w_glob w) + 1) |>
  /\ w_md (addOrder w x ts seq last) = w_md w /\ w_responses (addOrder w x ts seq last) = w_responses w.
Proof.
  split; [|done]. unfold addOrder_book.
  set (b0 := book_set_order (w_book w) x _). destruct (index_fields b0 x) as (I1 & I2 & _).
  unfold addOrder. cbn [nextOrderPriority]. cbn [w_book upd set_order].
  change (book_set_order (w_book w) x _) with b0. by rewrite I1, I2.
Qed.

Lemma addOrder_book_levels w x ts last :
  book_ok (ob_l3 (w_book w)) -> joinable (w_book w) x -> u64 (g_next_priority (w_glob w) + 1) <> 0 ->
  level_step (w_book w) (addOrder_book w x ts 0 last)
  /\ ob_pool (addOrder_book w x ts 0 last) = ob_pool (w_book w).
Proof.
  intros Hok [J1 J2 J3 _ _ _] Hprio. unfold addOrder_book.
  set (o := (order_at w x) <| o_priority := u64 (g_next_priority (w_glob w) + 1) |>).
  set (b := book_set_order (w_book w) x o).
  assert (Eh : ob_heap b x = o) by apply fn_lookup_insert. rewrite Eh.
  destruct (index_fields b x) as (I1 & _ & I3 & _). split.
  - eapply (level_step_from _ (index_order b x)); [exact I1|apply (index_deltas b)|]. eapply mutated_levels. rewrite I1. by apply law_add.
  - by rewrite l3_call_pool.
Qed.

Lemma rest_fine w x ts :
  let o := order_at w x in
  fine w -> roomy (w_glob w) -> joinable (w_book w) x -> live (w_book w) x ->
  o_cum_quantity o + o_leaves_quantity o = o_quantity o -> o_price o <> NULL_PRICE ->
  let w' := addOrder w x ts 0 true in
  fine w' /\ level_step (w_book w) (w_book w') /\ drew 1 (w_glob w) (w_glob w')
  /\ (forall i, i ∈ book_ids (ob_l3 (w_book w')) -> i = o_id o \/ i ∈ book_ids (ob_l3 (w_book w)))
  /\ ob_orders (w_book w') = <[o_id o := x]> (ob_orders (w_book w))
  /\ (forall y, order_at w' y = if decide (y = x) then o <| o_priority := g_next_priority (w_glob w) + 1 |>
                                else order_at w y)
  /\ w_md w' = w_md w /\ w_responses w' = w_responses w.
Proof.
  intros o [H1 H2 H3 H4] Hroom Hj Hlive Hbal Hprice w'.
  pose proof (next_priority_room _ Hroom) as Ep. destruct Hroom as [Hpr _].
  destruct (addOrder_inv None w x ts 0 true H1 Hj eq_refl ltac:(lia) ltac:(done)) as (A1 & A2 & A3 & A4).
  destruct (addOrder_unfold w x ts 0 true) as (U1 & U2 & U3 & U4).
  destruct (addOrder_book_levels w x ts true (bi_l3 _ _ H1) Hj ltac:(lia)) as [L1 L2]. rewrite <- U1 in L1, L2.
  fold w' o in A1, A2, A3, A4, U1, U2, U3, U4, L1, L2. rewrite Ep in *.
  set (o' := o <| o_priority := g_next_priority (w_glob w) + 1 |>) in *.
  assert (Hat : forall y, order_at w' y = if decide (y = x) then o' else order_at w y).
  { intros y. unfold order_at. rewrite A4. destruct (decide (y = x)) as [->|]; [by rewrite fn_lookup_insert|].
    by rewrite fn_lookup_insert_ne. }
  destruct (entries_from w w' _ _ (o_id o) (jo_side _ _ Hj) A2) as [P1 P2]; [|done|].
  { intros y. rewrite flat_levels_insert. intros [->|Hy]%elem_of_cons; [by left|]. right. by exists y. }
  split; [|split; [exact L1|split]].
  - split; [exact A1|exact P1| |].
    + intros id y. rewrite A3, lookup_insert_Some. unfold live. rewrite L2. intros [[_ <-]|[_ Hy]]; [done|by eapply H3].
    + intros id y. rewrite A3, lookup_insert_Some, Hat. destruct (decide (y = x)) as [->|Hne]; [done|].
      intros [[_ <-]|[_ Hy]]; [done|by eapply H4].
  - rewrite U2. split; [done|]. split; [cbn; lia|done].
  - done.
Qed.

(** The identity maps only lose entries while a match runs. *)
Lemma index_shrinks w w' key mk :
  (forall o, key o = mk (o_identity o)) ->
  ob_orders (w_book w') ⊆ ob_orders (w_book w) ->
  (forall id y, ob_orders (w_book w') !! id = Some y -> o_identity (order_at w' y) = o_identity (order_at w y)) ->
  forall m m' k,
  indexes (ob_heap (w_book w)) (ob_orders (w_book w)) key m ->
  indexes (ob_heap (w_book w')) (ob_orders (w_book w')) key m' -> m !! k = None -> m' !! k = None.
Proof.
  intros Hkey Hsub Hsame m m' k Hi Hi' Hn. destruct (m' !! k) as [y|] eqn:E; [|done]. exfalso.
  apply Hi' in E as (id & Hid & He & Hk). assert (Hy : m !! k = Some y); [|congruence]. apply Hi.
  exists id. split; [by eapply lookup_weaken|]. rewrite !Hkey in *.
  change (ob_heap (w_book w') y) with (order_at w' y) in *. by rewrite (Hsame id y Hid) in *.
Qed.

(** A pooled order on its way into the book. *)
Record incoming w (x : ptr) : Prop := {
  ic_side : book_side (o_side (order_at w x));
  ic_ptr : forall id, ob_orders (w_book w) !! id <> Some x;
  ic_live : live (w_book w) x;
  ic_balanced : balanced (order_at w x);
  ic_status : o_status (order_at w x) = OrderStatus.PENDING_NEW;
  ic_id : o_id (order_at w x) ∉ book_ids (ob_l3 (w_book w));
  ic_client : empty (o_client_order_id (order_at w x)) = false ->
    ob_orders_by_client_order_id (w_book w) !! string_key (o_client_order_id (order_at w x)) = None;
  ic_order_id : empty (o_order_id (order_at w x)) = false ->
    ob_orders_by_order_id (w_book w) !! string_key (o_order_id (order_at w x)) = None
}.

Lemma incoming_ready w x : fine w -> ids_in_width (w_glob w) -> incoming w x -> match_ready None w x 0.
Proof.
  intros [F1 F2 _ _] Ht [I1 I2 _ I4 _ _ _ _]. split; try done. by apply F2, opposite_book_side.
Qed.

(** What a match leaves of it may join the book. *)
Lemma incoming_joins w x price qty reason summaries w' :
  fine w -> incoming w x -> match_outcome None w x price qty 0 reason summaries w' ->
  0 < o_leaves_quantity (order_at w' x) -> joinable (w_book w') x.
Proof.
  intros Hf [I1 I2 I3 I4 I5 I6 I7 I8] Hm Hl.
  pose proof (mo_terms _ _ _ _ _ _ _ _ _ Hm) as (T1 & T2 & T3 & _).
  pose proof (st_orders _ _ (mo_stepped _ _ _ _ _ _ _ _ _ Hm)) as Hsub.
  assert (Hsame : forall id y, ob_orders (w_book w') !! id = Some y -> o_identity (order_at w' y) = o_identity (order_at w y)).
  { intros id y Hy. assert (Hne : y <> x) by (intros ->; by apply (I2 id), (lookup_weaken _ _ _ _ Hy)).
    by destruct (mo_others _ _ _ _ _ _ _ _ _ Hm id y Hne Hy) as ((E & _) & _). }
  split; change (ob_heap (w_book w') x) with (order_at w' x).
  - by rewrite T3.
  - done.
  - rewrite T2. intros Hid. by apply I6, (mo_ids _ _ _ _ _ _ _ _ _ Hm).
  - apply (mo_aggressor _ _ _ _ _ _ _ _ _ Hm).
  - unfold o_client_order_id in *. rewrite T1. intros He.
    eapply (index_shrinks w w' o_client_order_id id_client_order_id); try done; [apply Hf|apply Hm|by apply I7].
  - unfold o_order_id in *. rewrite T1. intros He.
    eapply (index_shrinks w w' o_order_id id_order_id); try done; [apply Hf|apply Hm|by apply I8].
Qed.

(** ** [Symbol::addOrder] *)

Lemma end_last_event_frame w :
  fine w -> fine (end_last_event w) /\ level_step (w_book w) (w_book (end_last_event w)).
Proof.
  intros Hf. split.
  - destruct Hf as [H1 H2 H3 H4]. split; [|exact H2|exact H3|exact H4]. by eapply book_inv_core; [|exact H1].
  - apply level_step_quiet; [done|]. unfold deltas, end_last_event. cbn.
    generalize (ob_md_level_update_cache (w_book w)). intros l. induction l as [|a [|b l] IH]; [done|done|].
    cbn [update_last map] in *. by rewrite IH.
Qed.

(** The order rests exactly when it was not turned away and has a remainder that may rest. *)
Definition to_rest (reason : OrdRejectReason) (o : Order) : bool :=
  bool_decide (reason = OrdReject.NONE) && (0 <? o_leaves_quantity o) && restsRemainder o.

Record added w (x : ptr) (reason : OrdRejectReason) (summaries : list TradeSummaryInfo) w' : Prop := {
  ad_fine : fine w';
  ad_levels : level_step (w_book w) (w_book w');
  ad_drew : drew 1 (w_glob w) (w_glob w');
  ad_ids : forall i, i ∈ book_ids (ob_l3 (w_book w')) -> i = o_id (order_at w x) \/ i ∈ book_ids (ob_l3 (w_book w));
  ad_md : w_md w' = w_md w;
  ad_heard : heard w w';
  ad_reason : reason = OrdReject.NONE \/ reason = OrdReject.SMP \/ reason = OrdReject.FOK_CANNOT_FILL;
  ad_rejected : reason <> OrdReject.NONE -> summaries = [] /\ ob_l3 (w_book w') = ob_l3 (w_book w);
  ad_traded : reason = OrdReject.NONE ->
    zsum (map ts_qty summaries) + o_leaves_quantity (order_at w' x) = o_leaves_quantity (order_at w x);
  ad_terms : same_terms (order_at w x) ((order_at w' x) <| o_priority := o_priority (order_at w x) |>);
  ad_leaves : 0 <= o_leaves_quantity (order_at w' x);
  ad_rests : findOrder (w_book w') (o_id (order_at w x)) = (if to_rest reason (order_at w' x) then Some x else None);
  ad_unindexed : to_rest reason (order_at w' x) = false -> forall id, findOrder (w_book w') id <> Some x
}.

Lemma rests_price o : restsRemainder o = true -> o_price o <> NULL_PRICE.
Proof. unfold restsRemainder. intros [H _]%andb_true_iff. by bool_to_prop. Qed.

Lemma symbol_add s e w x rt :
  sym_matching_engine s = Some e -> engine_ok e -> fine w -> roomy (w_glob w) -> incoming w x ->
  engine_fits e (getLevelsL3 (ob_l3 (w_book w)) (opposite_side (o_side (order_at w x)))) ->
  exists reason summaries w', symbol_addOrder s w x rt = Some (reason, summaries, w') /\ added w x reason summaries w'.
Proof.
  intros He Hok Hf Hroom Hin Hfits. unfold symbol_addOrder. rewrite He.
  pose proof (incoming_ready w x Hf ltac:(apply Hroom) Hin) as Hready.
  pose proof (engine_contract e Hok) as Hengine.
  destruct (contract None w x (o_price (order_at w x)) (o_quantity (order_at w x))
    rt (o_created_time (order_at w x)) 0 (sym_smp_mode s) Hready Hfits) as (reason & summaries & w1 & -> & Hm).
  pose proof (matched_fine w x _ _ 0 reason summaries w1 Hf (ic_ptr _ _ Hin) Hm) as Hf1.
  pose proof (drew_same _ _ (st_counters _ _ (mo_stepped _ _ _ _ _ _ _ _ _ Hm))) as Hd1.
  pose proof (st_levels _ _ (mo_stepped _ _ _ _ _ _ _ _ _ Hm)) as Hl1.
  pose proof (mo_aggressor _ _ _ _ _ _ _ _ _ Hm) as Hx1. cbn [aggressor] in Hx1.
  pose proof (mo_terms _ _ _ _ _ _ _ _ _ Hm) as Ht. pose proof (ic_balanced _ _ Hin) as [Hbal0 _].
  assert (Htr : reason = OrdReject.NONE -> zsum (map ts_qty summaries) + o_leaves_quantity (order_at w1 x)
                                           = o_leaves_quantity (order_at w x)).
  { intros Hr. destruct (mo_matched _ _ _ _ _ _ _ _ _ Hm Hr) as [E _]. rewrite E. unfold effective_qty.
    rewrite (ic_status _ _ Hin). by rewrite bool_decide_eq_false_2. }
  do 3 eexists. split; [reflexivity|]. change (bool_decide (reason = OrdReject.NONE) && _ && _)
    with (to_rest reason (order_at w1 x)).
  destruct (to_rest reason (order_at w1 x)) eqn:Erest.
  - pose proof Erest as [[Hr Hl]%andb_true_iff Hrr]%andb_true_iff. bool_to_prop.
    pose proof (incoming_joins w x _ _ _ _ _ Hf Hin Hm Hl) as Hj.
    destruct (mo_balanced _ _ _ _ _ _ _ _ _ Hm Hl) as [Hb1 _].
    assert (Hlive : live (w_book w1) x).
    { destruct (st_live _ _ (mo_stepped _ _ _ _ _ _ _ _ _ Hm) x (ic_live _ _ Hin)) as [|(id & Hid & _)]; [done|].
      exfalso. by apply (ic_ptr _ _ Hin id). }
    pose proof (roomy_drew _ _ Hd1 Hroom) as Hroom1.
    destruct (rest_fine w1 x (o_created_time (order_at w1 x)) Hf1 Hroom1 Hj Hlive Hb1 (rests_price _ Hrr))
      as (A1 & A2 & A3 & A4 & A5 & A6 & A7 & A8).
    set (w2 := addOrder w1 x (o_created_time (order_at w1 x)) 0 true) in *.
    pose proof (A6 x) as Ex. rewrite decide_True in Ex by done.
    destruct Ht as (T1 & T2 & T3 & T4 & T5 & T6 & T7 & T8 & T9).
    split; rewrite ?Ex; try done.
    + by etrans.
    + exact (drew_trans 0 1 _ _ _ Hd1 A3).
    + intros i Hi. destruct (A4 i Hi) as [->|Hi1]; [by left; rewrite T2|right]. by apply (mo_ids _ _ _ _ _ _ _ _ _ Hm).
    + by rewrite A7, (mo_md _ _ _ _ _ _ _ _ _ Hm).
    + destruct (mo_heard _ _ _ _ _ _ _ _ _ Hm) as (l & El). exists l. by rewrite A8.
    + by left.
    + cbn. lia.
    + change (to_rest reason _) with (to_rest reason (order_at w1 x)). rewrite Erest. unfold findOrder.
      rewrite A5, T2. apply lookup_insert_eq.
    + change (to_rest reason _) with (to_rest reason (order_at w1 x)). by rewrite Erest.
  - destruct (end_last_event_frame w1 Hf1) as [Hf2 Hl2]. set (w2 := end_last_event w1) in *.
    change (order_at (freeOrder w2 x) x) with (order_at w1 x).
    split; change (order_at (freeOrder w2 x) x) with (order_at w1 x).
    + by apply fine_free.
    + etrans; [exact Hl1|]. etrans; [exact Hl2|]. by apply level_step_quiet.
    + exact (drew_trans 0 1 _ _ _ Hd1 (drew_refl 1 _ ltac:(lia))).
    + intros i Hi. right. by apply (mo_ids _ _ _ _ _ _ _ _ _ Hm).
    + exact (mo_md _ _ _ _ _ _ _ _ _ Hm).
    + exact (mo_heard _ _ _ _ _ _ _ _ _ Hm).
    + exact (mo_reason _ _ _ _ _ _ _ _ _ Hm).
    + intros Hr. destruct (mo_rejected _ _ _ _ _ _ _ _ _ Hm Hr) as [-> E]. split; [done|].
      change (ob_l3 (w_book (freeOrder w2 x))) with (ob_l3 (w_book w1)). by rewrite E.
    + exact Htr.
    + destruct Ht as (T1 & T2 & T3 & T4 & T5 & T6 & T7 & T8 & T9). repeat split; done.
    + exact (mo_leaves _ _ _ _ _ _ _ _ _ Hm).
    + rewrite Erest. unfold findOrder. change (ob_orders (w_book (freeOrder w2 x))) with (ob_orders (w_book w1)).
      eapply lookup_weaken_None; [|exact (st_orders _ _ (mo_stepped _ _ _ _ _ _ _ _ _ Hm))].
      exact (absent_not_own None (w_book w) _ (fn_inv _ Hf) (ic_id _ _ Hin)).
    + intros _. exact Hx1.
Qed.

(** ** [Symbol::cancelOrder] *)

Record cancelled w (id : Z) (x : ptr) w' : Prop := {
  cn_fine : fine w';
  cn_levels : level_step (w_book w) (w_book w');
  cn_drew : drew 0 (w_glob w) (w_glob w');
  cn_gone : ob_orders (w_book w') = delete id (ob_orders (w_book w));
  cn_side : side_becomes (ob_l3 (w_book w)) (ob_l3 (w_book w')) (o_side (order_at w x))
              (levels_set_qty id 0 (getLevelsL3 (ob_l3 (w_book w)) (o_side (order_at w x))));
  cn_ids : forall i, i ∈ book_ids (ob_l3 (w_book w')) -> i ∈ book_ids (ob_l3 (w_book w));
  cn_others : forall y, y <> x -> order_at w' y = order_at w y;
  cn_md : w_md w' = w_md w;
  cn_reports : published w w' [RepOther id ExecType.CANCELED]
}.

Lemma tick_order_relabels w x now : relabelled (order_at w x) ((order_at w x) <| o_last_update_time := now |>).
Proof. done. Qed.

Lemma symbol_cancel w id x rt :
  fine w -> findOrder (w_book w) id = Some x -> cancelled w id x (symbol_cancelOrder w x rt).
Proof.
  intros Hf Hx. unfold findOrder in Hx.
  set (now := env_clock (g_clock (w_glob w))). set (w0 := w <| w_glob ::= fun g => g <| g_clock ::= S |> |>).
  set (w1 := set_order w0 x ((order_at w0 x) <| o_last_update_time := now |>)).
  assert (Hf1 : fine w1) by (apply fine_relabel; [done|by apply (fine_same w)]).
  assert (Eat : forall y, order_at w1 y = if decide (y = x) then (order_at w x) <| o_last_update_time := now |> else order_at w y)
    by exact (set_order_at w0 x _).
  pose proof (Eat x) as Ex. rewrite decide_True in Ex by done.
  set (ts := o_last_update_time (ob_heap (w_book w1) x)).
  destruct (deleteOrder_inv None (w_book w1) id x ts 0 true (fn_inv _ Hf1) Hx eq_refl)
    as (D1 & D2 & D3 & D4 & D5 & _ & D7).
  change (ob_heap (w_book w1) x) with (order_at w1 x) in D2. rewrite Ex in D2.
  change (o_side ((order_at w x) <| o_last_update_time := now |>)) with (o_side (order_at w x)) in D2.
  set (b := deleteOrder (w_book w1) x ts 0 true) in *.
  set (w2 := w1 <| w_book := b |>). set (w3 := publishOrderCancel w2 (order_at w2 x) rt).
  change (symbol_cancelOrder w x rt) with (freeOrder w3 x).
  destruct (bi_own _ _ (fn_inv _ Hf1) id x Hx) as (Eid & Hs & _).
  change (ob_heap (w_book w1) x) with (order_at w1 x) in Eid, Hs. rewrite Ex in Eid, Hs.
  cbn [o_id o_side upd] in Eid, Hs.
  assert (Hgone : forall id', ob_orders (w_book w3) !! id' <> Some x).
  { intros id'. change (ob_orders b !! id' <> Some x). rewrite D3, lookup_delete_Some. intros [Hne Hid'].
    by apply Hne, (own_unique None (w_book w1) id id' x (fn_inv _ Hf1)). }
  destruct (entries_from w1 w3 _ _ id Hs D2) as [P1 P2]; [|apply Hf1|].
  { intros y. rewrite flat_levels_set. intros Hy. right. by eapply flat_set_from. }
  assert (Hleft : forall id' y, ob_orders b !! id' = Some y -> ob_orders (w_book w1) !! id' = Some y).
  { intros id' y. rewrite D3. by intros [_ Hy]%lookup_delete_Some. }
  assert (Hheap : forall y, y <> x -> ob_heap b y = order_at w1 y).
  { intros y Hne. by destruct (D5 y) as [E|[-> _]]. }
  split; try done.
  - apply fine_free; [exact Hgone|]. split; [exact D1|exact P1| |].
    + intros id' y Hy. unfold live. change (ob_pool (w_book w3)) with (ob_pool b). rewrite D4. by apply (fn_live _ Hf1 id'), Hleft.
    + intros id' y Hy. assert (Hne : y <> x) by (intros ->; by apply (Hgone id')).
      change (order_at w3 y) with (ob_heap b y). rewrite Hheap by done. by apply (fn_accounts _ Hf1 id'), Hleft.
  - split; [done|]. split; [cbn; lia|done].
  - intros i Hi. destruct (P2 i Hi) as [->|]; [|done].
    apply (own_in_book None (w_book w1) id x); [apply Hf1|done].
  - intros y Hne. change (order_at (freeOrder w3 x) y) with (ob_heap b y). rewrite Hheap, Eat by done. by rewrite decide_False.
  - pose proof (published_cancel w2 (order_at w2 x) rt) as (l & El & Er). exists l. split; [exact El|]. rewrite Er. f_equal. f_equal.
    change (order_at w2 x) with (ob_heap b x). destruct (D5 x) as [-> |[_ ->]];
      change (ob_heap (w_book w1) x) with (order_at w1 x); by rewrite Ex.
Qed.

(** ** [Symbol::modifyOrder] *)

(** An order that is indexed and being amended; everything else is [fine]. *)
Record half_amended (id : Z) w (x : ptr) : Prop := {
  ha_inv : book_inv (Some id) (w_book w);
  ha_order : ob_orders (w_book w) !! id = Some x;
  ha_priced : forall s, book_side s -> priced w s;
  ha_live : forall id' y, ob_orders (w_book w) !! id' = Some y -> live (w_book w) y;
  ha_accounts : forall id' y, y <> x -> ob_orders (w_book w) !! id' = Some y ->
    o_cum_quantity (order_at w y) + o_leaves_quantity (order_at w y) = o_quantity (order_at w y)
}.

Lemma half_amended_write id w x o :
  half_amended id w x -> o_id o = id -> o_side o = o_side (order_at w x) -> o_priority o <> 0 ->
  o_identity o = o_identity (order_at w x) -> half_amended id (set_order w x o) x.
Proof.
  intros [H1 H2 H3 H4 H5] E1 E2 E3 E4. split; try done.
  - apply (set_amending_inv (Some id)); try done. by right.
  - intros id' y Hy Hid'. rewrite set_order_at, decide_False by done. by eapply H5.
Qed.

Lemma matched_half w id x price qty seq reason summaries w' :
  fine w -> findOrder (w_book w) id = Some x ->
  match_outcome (Some id) w x price qty seq reason summaries w' -> half_amended id w' x.
Proof.
  intros [H1 H2 H3 H4] Hx Hm. pose proof (st_orders _ _ (mo_stepped _ _ _ _ _ _ _ _ _ Hm)) as Hsub.
  split.
  - apply Hm.
  - apply (mo_aggressor _ _ _ _ _ _ _ _ _ Hm).
  - intros s Hs. eapply mo_priced; [exact Hm|done|by apply H2].
  - intros id' y Hy. pose proof (lookup_weaken _ _ _ _ Hy Hsub) as Hy0.
    destruct (st_live _ _ (mo_stepped _ _ _ _ _ _ _ _ _ Hm) y (H3 id' y Hy0)) as [|(i & Hi & Hn)]; [done|].
    assert (i = id') as -> by (by apply (own_unique None (w_book w) i id' y)). congruence.
  - intros id' y Hne Hy. pose proof (lookup_weaken _ _ _ _ Hy Hsub) as Hy0.
    destruct (mo_others _ _ _ _ _ _ _ _ _ Hm id' y Hne Hy) as (_ & _ & -> & ->). by eapply H4.
Qed.

Lemma set_quantity_same (o : Order) : o <| o_quantity := o_quantity o |> = o.
Proof. by destruct o. Qed.

(** The book takes the amended order over; one with nothing left goes back to the pool. *)
Lemma settle_amended id w x ts :
  let o := order_at w x in
  half_amended id w x -> 0 <= o_leaves_quantity o -> (0 < o_leaves_quantity o -> balanced o) ->
  o_price o <> NULL_PRICE ->
  let w1 := modifyOrder w x (o_price o) (o_quantity o) ts 0 true in
  let w' := if o_leaves_quantity (order_at w1 x) =? 0 then freeOrder w1 x else w1 in
  fine w' /\ level_step (w_book w) (w_book w') /\ w_glob w' = w_glob w /\ w_md w' = w_md w
  /\ (forall i, i ∈ book_ids (ob_l3 (w_book w')) -> i ∈ book_ids (ob_l3 (w_book w)))
  /\ (forall y, order_at w' y = order_at w y) /\ w_responses w' = w_responses w
  /\ ob_orders (w_book w') = (if o_leaves_quantity o =? 0 then delete id (ob_orders (w_book w)) else ob_orders (w_book w)).
Proof.
  intros o [H1 H2 H3 H4 H5] Hl Hbal Hprice w1 w'.
  destruct (modifyOrder_inv (Some id) w id x (o_quantity o) ts 0 true H1 H2 ltac:(by right) eq_refl Hl)
    as (M1 & M2 & (p & e & Hin & Hide & M3) & M4 & M5 & M6 & M7 & M8 & M9).
  change (ob_heap (w_book w) x) with o in M1, M2, M3, M4, M6, M7, M8, M9, Hin. fold w1 in M1, M2, M3, M4, M6, M7, M8, M9.
  destruct (bi_own _ _ H1 id x H2) as (_ & Hs & _). change (ob_heap (w_book w) x) with o in Hs.
  assert (Hat : forall y, order_at w1 y = order_at w y).
  { intros y. unfold order_at at 1. rewrite M7. destruct (decide (y = x)) as [->|]; [|by rewrite fn_lookup_insert_ne].
    rewrite fn_lookup_insert. apply set_quantity_same. }
  destruct (entries_from w w1 _ _ id Hs M3) as [P1 P2]; [|done|].
  { intros y [[-> ->]|Hy]%modified_from; [left|by right]. by rewrite Hide. }
  assert (Eb : forall f, (if o_leaves_quantity (order_at w1 x) =? 0 then freeOrder w1 x else w1) = f ->
    ob_l3 (w_book f) = ob_l3 (w_book w1) /\ ob_orders (w_book f) = ob_orders (w_book w1)
    /\ deltas (w_book f) = deltas (w_book w1) /\ w_glob f = w_glob w1 /\ w_md f = w_md w1
    /\ w_responses f = w_responses w1
    /\ forall y, order_at f y = order_at w1 y) by (intros f <-; by case_test).
  destruct (Eb w' eq_refl) as (E1 & E2 & E3 & E4 & E5 & E7 & E6). clear Eb.
  assert (Hleft : forall id' y, ob_orders (w_book w1) !! id' = Some y -> ob_orders (w_book w) !! id' = Some y).
  { intros id' y. rewrite M2. case_test; [|done]. by intros [_ Hy]%lookup_delete_Some. }
  assert (Hfine : fine w1).
  { split; [exact M1|exact P1| |].
    - intros id' y Hy. unfold live. rewrite M9. by apply (H4 id'), Hleft.
    - intros id' y Hy. rewrite Hat. destruct (decide (y = x)) as [->|Hne]; [|by apply (H5 id' y Hne), Hleft].
      apply Hbal. destruct (o_leaves_quantity o =? 0) eqn:E; bool_to_prop; [|lia]. exfalso. rewrite M2 in Hy.
      apply lookup_delete_Some in Hy as [Hne Hy]. by apply Hne, (own_unique (Some id) (w_book w) id id' x). }
  split.
  { unfold w'. rewrite Hat. fold o. destruct (o_leaves_quantity o =? 0) eqn:E; [|done]. apply fine_free; [|done].
    intros id'. rewrite M2, lookup_delete_Some. intros [Hne Hy]. by apply Hne, (own_unique (Some id) (w_book w) id id' x). }
  split; [eapply level_step_same; [exact M8|exact E1|exact E3]|]. rewrite E1, E2, E4, E5. split; [done|]. split; [done|].
  split; [|split; [|by rewrite E7]].
  - intros i Hi. destruct (P2 i Hi) as [->|]; [|done]. by apply (own_in_book (Some id) (w_book w) id x).
  - intros y. by rewrite E6.
Qed.

Record amended w (id : Z) (x : ptr) (new_price : price_t) (new_qty : qty_t) (reason : OrdRejectReason)
    (summaries : list TradeSummaryInfo) w' : Prop := {
  am_fine : fine w';
  am_levels : level_step (w_book w) (w_book w');
  am_drew : drew 1 (w_glob w) (w_glob w');
  am_ids : forall i, i ∈ book_ids (ob_l3 (w_book w')) -> i ∈ book_ids (ob_l3 (w_book w));
  am_md : w_md w' = w_md w;
  am_heard : heard w w';
  am_reason : reason = OrdReject.NONE \/ reason = OrdReject.SMP \/ reason = OrdReject.FOK_CANNOT_FILL;
  am_rejected : reason <> OrdReject.NONE ->
    summaries = [] /\ ob_l3 (w_book w') = ob_l3 (w_book w) /\ ob_orders (w_book w') = ob_orders (w_book w)
    /\ relabelled (order_at w x) (order_at w' x) /\ o_status (order_at w' x) = o_status (order_at w x);
  am_replaced : reason = OrdReject.NONE ->
    zsum (map ts_qty summaries) + o_leaves_quantity (order_at w' x)
      = Z.max 0 (o_leaves_quantity (order_at w x) + (new_qty - o_quantity (order_at w x)))
    /\ o_price (order_at w' x) = new_price /\ o_quantity (order_at w' x) = new_qty
    /\ findOrder (w_book w') id
       = (if o_leaves_quantity (order_at w' x) =? 0 then None else Some x)
}.

Lemma indexed_balanced w id x :
  fine w -> findOrder (w_book w) id = Some x ->
  balanced (order_at w x) /\ 0 < o_leaves_quantity (order_at w x) /\ book_side (o_side (order_at w x))
  /\ o_id (order_at w x) = id.
Proof.
  intros Hf Hx. destruct (bi_own _ _ (fn_inv _ Hf) id x Hx) as (Eid & Hs & _ & p & e & Hin & _ & Hv).
  destruct (Hv eq_refl) as (_ & Hq & _). pose proof (bi_l3 _ _ (fn_inv _ Hf)) as Hok.
  pose proof (flat_pos _ _ _ (book_side_ok _ _ Hok Hs) Hin) as Hpos. change (0 < l3_quantity e) in Hpos.
  change (ob_heap (w_book w) x) with (order_at w x) in *.
  split; [|split; [lia|done]]. split; [by eapply fn_accounts|lia].
Qed.

Lemma amending_ready w id x :
  fine w -> ids_in_width (w_glob w) -> findOrder (w_book w) id = Some x -> match_ready (Some id) w x 0.
Proof.
  intros Hf Ht Hx. destruct (indexed_balanced w id x Hf Hx) as (Hb & _ & Hs & _).
  split; try done.
  - by apply book_inv_weaken, Hf.
  - split; [done|]. by destruct Hs as [-> | ->].
  - by apply (fn_priced _ Hf), opposite_book_side.
Qed.

Lemma half_amended_same id w w' x : w_book w' = w_book w -> half_amended id w x -> half_amended id w' x.
Proof. intros E [H1 H2 H3 H4 H5]. split; unfold priced, queue, order_at in *; rewrite E; done. Qed.

(** The new priority of an order that goes to the back of its queue. *)
Lemma requeue_half (requeue : bool) id w x :
  half_amended id w x -> roomy (w_glob w) ->
  let w' := if requeue then
              let '(prio, w) := nextOrderPriority w in
              set_order w x ((order_at w x) <| o_priority := prio |>)
            else w in
  half_amended id w' x /\ drew 1 (w_glob w) (w_glob w') /\ ob_l3 (w_book w') = ob_l3 (w_book w)
  /\ deltas (w_book w') = deltas (w_book w) /\ w_md w' = w_md w /\ w_responses w' = w_responses w
  /\ exists prio, forall y, order_at w' y = if decide (y = x) then (order_at w x) <| o_priority := prio |> else order_at w y.
Proof.
  intros Hh Hroom. destruct requeue.
  2: { cbv zeta. split; [done|]. split; [by apply drew_refl|]. do 4 (split; [done|]). exists (o_priority (order_at w x)). intros y.
       destruct (decide (y = x)) as [->|]; [|done]. by destruct (order_at w x). }
  pose proof (next_priority_room _ Hroom) as Ep. destruct Hroom as [Hp _].
  destruct (bi_own _ _ (ha_inv _ _ _ Hh) id x (ha_order _ _ _ Hh)) as (Eid & _).
  cbn [nextOrderPriority]. rewrite Ep. set (w0 := w <| w_glob ::= _ |>).
  split; [|split; [|do 4 (split; [done|])]].
  - apply half_amended_write; [by apply (half_amended_same id w)|done|done|cbn; lia|done].
  - split; [done|]. split; [cbn; lia|done].
  - exists (g_next_priority (w_glob w) + 1). exact (set_order_at w0 x _).
Qed.

Lemma symbol_modify s e w id x np nq rt :
  sym_matching_engine s = Some e -> engine_ok e -> fine w -> roomy (w_glob w) ->
  findOrder (w_book w) id = Some x -> o_status (order_at w x) = OrderStatus.PENDING_REPLACE -> np <> NULL_PRICE ->
  engine_fits e (getLevelsL3 (ob_l3 (w_book w)) (opposite_side (o_side (order_at w x)))) ->
  exists reason summaries w', symbol_modifyOrder s w x np nq rt = Some (reason, summaries, w')
    /\ amended w id x np nq reason summaries w'.
Proof.
  intros He Hok Hf Hroom Hx Hst Hnp Hfits. unfold symbol_modifyOrder. rewrite He.
  pose proof (amending_ready w id x Hf ltac:(apply Hroom) Hx) as Hready.
  pose proof (engine_contract e Hok) as Hengine.
  destruct (contract (Some id) w x np nq rt (o_last_update_time (order_at w x)) 0 (sym_smp_mode s) Hready Hfits)
    as (reason & summaries & w1 & -> & Hm).
  pose proof (matched_half w id x _ _ 0 reason summaries w1 Hf Hx Hm) as Hh.
  pose proof (drew_same _ _ (st_counters _ _ (mo_stepped _ _ _ _ _ _ _ _ _ Hm))) as Hd1.
  pose proof (st_levels _ _ (mo_stepped _ _ _ _ _ _ _ _ _ Hm)) as Hl1.
  destruct (mo_terms _ _ _ _ _ _ _ _ _ Hm) as (_ & T2 & T3 & _).
  destruct (indexed_balanced w id x Hf Hx) as (Hbal & Hpos & Hs & Eid).
  cbn [get_current_time_ns]. set (now := env_clock (g_clock (w_glob w1))).
  set (w1' := w1 <| w_glob ::= _ |>). set (w2 := set_order w1' x _).
  assert (Eat : forall y, order_at w2 y = if decide (y = x) then (order_at w1 x) <| o_last_update_time := now |> else order_at w1 y)
    by exact (set_order_at w1' x _).
  pose proof (Eat x) as Ex. rewrite decide_True in Ex by done.
  destruct (bool_decide_reflect (reason = OrdReject.NONE)) as [Hr|Hr].
  2: { destruct (mo_rejected _ _ _ _ _ _ _ _ _ Hm Hr) as [-> Eb].
    assert (E1 : order_at w1 x = order_at w x) by (unfold order_at; by rewrite Eb).
    rewrite Ex, E1. change (o_leaves_quantity (_ <| o_last_update_time := now |>)) with (o_leaves_quantity (order_at w x)).
    rewrite (proj2 (Z.eqb_neq _ 0)) by lia. do 3 eexists. split; [reflexivity|].
    split; rewrite ?Ex, ?E1; try done.
    - apply fine_relabel; [done|]. by apply (fine_same w).
    - exact (drew_trans 0 1 _ _ _ Hd1 (drew_refl 1 _ ltac:(lia))).
    - intros i. change (ob_l3 (w_book w2)) with (ob_l3 (w_book w1)). by rewrite Eb.
    - exact (mo_md _ _ _ _ _ _ _ _ _ Hm).
    - exact (mo_heard _ _ _ _ _ _ _ _ _ Hm).
    - exact (mo_reason _ _ _ _ _ _ _ _ _ Hm).
    - intros _. split; [done|]. change (ob_l3 (w_book w2)) with (ob_l3 (w_book w1)).
      change (ob_orders (w_book w2)) with (ob_orders (w_book w1)). by rewrite Eb. }
  destruct (mo_matched _ _ _ _ _ _ _ _ _ Hm Hr) as (Htot & Eprice & Eqty).
  unfold effective_qty in Htot. unfold price_after in Eprice. unfold quantity_after in Eqty.
  rewrite Hst, bool_decide_eq_true_2 in Htot, Eprice, Eqty by done.
  assert (Hh2 : half_amended id w2 x).
  { apply half_amended_write; [by apply (half_amended_same id w1)|by rewrite <- Eid, <- T2|done| |done].
    by apply (bi_own _ _ (ha_inv _ _ _ Hh) id x), (ha_order _ _ _ Hh). }
  pose proof (requeue_half (negb (np =? o_price (order_at w x)) || (o_quantity (order_at w x) <? nq)) id w2 x Hh2) as Hq.
  cbn [w_glob upd] in Hq. specialize (Hq (roomy_drew _ _ Hd1 Hroom)).
  set (wq := if negb (np =? o_price (order_at w x)) || (o_quantity (order_at w x) <? nq) then _ else w2) in *.
  destruct Hq as (Hhq & Hdq & Q1 & Q2 & Q3 & Q5 & prio & Q4). pose proof (Q4 x) as Exq.
  rewrite decide_True, Ex in Exq by done.
  assert (Ep : o_price (order_at wq x) = np) by (rewrite Exq; exact Eprice).
  assert (Eq : o_quantity (order_at wq x) = nq) by (rewrite Exq; exact Eqty).
  assert (Ell : o_leaves_quantity (order_at wq x) = o_leaves_quantity (order_at w1 x)) by by rewrite Exq.
  pose proof (mo_leaves _ _ _ _ _ _ _ _ _ Hm) as Hl0.
  destruct (settle_amended id wq x (o_last_update_time (order_at wq x)) Hhq ltac:(lia)) as (S1 & S2 & S3 & S4 & S5 & S6 & S8 & S7).
  { rewrite Ell. intros Hl. pose proof (mo_balanced _ _ _ _ _ _ _ _ _ Hm Hl) as Hb1. rewrite Exq. exact Hb1. }
  { by rewrite Ep. }
  rewrite Ep in *. do 3 eexists. split; [reflexivity|].
  set (wf := if _ =? 0 then _ else _) in *.
  split; rewrite ?S6, ?Ell; try done.
  - etrans; [exact Hl1|]. eapply level_step_from; [..|exact S2]; [by rewrite Q1|by rewrite Q2].
  - rewrite S3. exact (drew_trans 0 1 _ _ _ Hd1 Hdq).
  - intros i Hi. apply (mo_ids _ _ _ _ _ _ _ _ _ Hm). specialize (S5 i Hi). by rewrite Q1 in S5.
  - rewrite S4, Q3. exact (mo_md _ _ _ _ _ _ _ _ _ Hm).
  - destruct (mo_heard _ _ _ _ _ _ _ _ _ Hm) as (l & El). exists l. by rewrite S8, Q5.
  - by left.
  - intros _. split; [exact Htot|]. split; [exact Ep|]. split; [exact Eq|]. unfold findOrder. rewrite S7, Ell.
    case_test; [apply lookup_delete_eq|]. exact (ha_order _ _ _ Hhq).
Qed.

(** A new order through [Symbol::addOrder], whatever the engine: the call returns; the
    order ends up found by its number and resting exactly when it was not turned away and
    keeps a remainder that may rest - otherwise nothing finds it; what it traded and what
    it has left add up to its quantity; a rejected order leaves the book as it was; the
    book stays well-formed with every client order accounted for, and the levels published
    account for every change of depth. *)
Lemma symbol_addOrder_rests s e w x rt :
  sym_matching_engine s = Some e -> engine_ok e -> fine w -> roomy (w_glob w) -> incoming w x ->
  engine_fits e (getLevelsL3 (ob_l3 (w_book w)) (opposite_side (o_side (order_at w x)))) ->
  exists reason summaries w', symbol_addOrder s w x rt = Some (reason, summaries, w') /\ added w x reason summaries w'.
Proof. apply symbol_add. Qed.

(** An amendment through [Symbol::modifyOrder]: the call returns; when accepted the order
    carries the new price and quantity, what it traded and has left add up to its amended
    remainder, and it stays in the book exactly while something is left; when rejected it
    is the order it was, still resting; either way the book stays well-formed and the
    levels published account for every change of depth. *)
Lemma symbol_modifyOrder_amends s e w id x np nq rt :
  sym_matching_engine s = Some e -> engine_ok e -> fine w -> roomy (w_glob w) ->
  findOrder (w_book w) id = Some x -> o_status (order_at w x) = OrderStatus.PENDING_REPLACE -> np <> NULL_PRICE ->
  engine_fits e (getLevelsL3 (ob_l3 (w_book w)) (opposite_side (o_side (order_at w x)))) ->
  exists reason summaries w', symbol_modifyOrder s w x np nq rt = Some (reason, summaries, w')
    /\ amended w id x np nq reason summaries w'.
Proof. apply symbol_modify. Qed.

(** A cancellation through [Symbol::cancelOrder]: the order, and no other, leaves the
    book and every lookup; exactly one report is published, and it says [CANCELED]; the
    book stays well-formed, every other order is untouched, and the levels published
    account for the change of depth. *)
Lemma symbol_cancelOrder_removes w id x rt :
  fine w -> findOrder (w_book w) id = Some x -> cancelled w id x (symbol_cancelOrder w x rt).
Proof. apply symbol_cancel. Qed.
End SymbolProofs.

(** ** Concrete orders *)

Definition sample_symbol : Symbol :=
  mkSymbol 7 COINBASE (assign 32 (str "BTC-USD")) (Some FifoMatchingEngine) 0 SMP.CANCEL_RESTING
    (new_ring TRADE_HISTORY_CAPACITY []) (mkCredits ∅ ∅).

Lemma sample_incoming : incoming (sample_buyer 20 2 TimeInForce.DAY) 1.
Proof.
  set (w := sample_buyer 20 2 TimeInForce.DAY). destruct (sample_ready 20 2 TimeInForce.DAY ltac:(lia)) as [H1 _ _ H4 _ H6 _].
  split; [exact H1|exact H4|reflexivity|exact H6|reflexivity| | |].
  - assert (E : bool_decide (o_id (order_at w 1) ∉ book_ids (ob_l3 (w_book w))) = true) by (vm_compute; reflexivity).
    exact (bool_decide_eq_true_1 _ E).
  - intros He. assert (E : empty (o_client_order_id (order_at w 1)) = true) by (vm_compute; reflexivity). congruence.
  - intros _. vm_compute. reflexivity.
Qed.

(** Thirteen lots trade, seven rest; the client's own offer is cancelled on the way. *)
Lemma symbol_addOrder_rests_witness :
  let w := sample_buyer 20 2 TimeInForce.DAY in
  exists reason summaries w', symbol_addOrder sample_symbol w 1 6 = Some (reason, summaries, w')
    /\ added w 1 reason summaries w'.
Proof.
  intros w. apply (symbol_addOrder_rests sample_symbol FifoMatchingEngine w 1 6 eq_refl I).
  - apply fine_check_sound. vm_compute. reflexivity.
  - vm_compute. repeat split; congruence.
  - exact sample_incoming.
  - exact I.
Defined.

(** The offer of the sample world, amended to more at a better price. *)
Definition sample_amending : World RefBook Z :=
  set_order sample_world 0 ((order_at sample_world 0) <| o_status := OrderStatus.PENDING_REPLACE |>).

Lemma symbol_modifyOrder_amends_witness :
  exists reason summaries w', symbol_modifyOrder sample_symbol sample_amending 0 99 8 6 = Some (reason, summaries, w')
    /\ amended sample_amending 1 0 99 8 reason summaries w'.
Proof.
  apply (symbol_modifyOrder_amends sample_symbol FifoMatchingEngine sample_amending 1 0 99 8 6 eq_refl I).
  - apply fine_check_sound. vm_compute. reflexivity.
  - vm_compute. repeat split; congruence.
  - vm_compute. reflexivity.
  - vm_compute. reflexivity.
  - vm_compute. congruence.
  - exact I.
Defined.

Lemma symbol_cancelOrder_removes_witness : cancelled sample_world 1 0 (symbol_cancelOrder sample_world 0 6).
Proof. apply symbol_cancelOrder_removes; [exact sample_fine|vm_compute; reflexivity]. Defined.
