(* ===== verification/SymbolManager.v ===== *)
(** * The instruments of the process, and the registry of venues

    Models [src/common/symbol_manager.hpp] and [src/exchange/exchange_registry.hpp] with its
    [.cpp]. The deque of symbols is a list and a [Symbol*] its index, which is also the
    symbol's id; each symbol comes with the order book it points to, once it has one. *)

From S2P Require Import Prelude Types FixedString RingBuffer Orders Messages MarketData.
From S2P Require Import L3Interface OrderBook MatchCommon FifoEngine ProRata MatchingConfig.
From S2P Require Import Symbol.

(** ** The registry of venue factories *)

Section Registry.
Context {Factory : Type}.

Record Entry := mkEntry {
  en_key : bytes;
  en_venue : Venue;
  en_factory : Factory
}.

Definition registry_add (entries : list Entry) (key : bytes) (venue : Venue) (factory : Factory) : list Entry :=
  entries ++ [mkEntry key venue factory].

Fixpoint registry_find (entries : list Entry) (key : bytes) : option Factory :=
  match entries with
  | [] => None
  | entry :: rest => if iequals (en_key entry) key then Some (en_factory entry) else registry_find rest key
  end.

Definition registry_keys (entries : list Entry) : list bytes := map en_key entries.

(** A venue key is found case-insensitively, the first registration of a key wins, and
    a key nobody registered is not found. *)
Lemma registry_first_wins entries key venue factory key' :
  registry_find (registry_add entries key venue factory) key'
  = match registry_find entries key' with
    | Some f => Some f
    | None => if bool_decide (map upper key = map upper key') then Some factory else None
    end
  /\ (registry_find entries key' = None <->
      Forall (fun k => map upper k <> map upper key') (registry_keys entries)).
Proof.
  split.
  - unfold registry_add. induction entries as [|e entries IH]; cbn.
    + case_bool_decide as E.
      * by rewrite (proj2 (iequals_upper _ _) E).
      * by rewrite (proj2 (iequals_iff_not _ _) E).
    + by destruct (iequals _ _).
  - unfold registry_keys. induction entries as [|e entries IH]; cbn; [by split|].
    rewrite Forall_cons, <- iequals_iff_not, <- IH. destruct (iequals _ _); (split; [done|by intros []]) || (split; [by split|by intros []]).
Qed.

End Registry.
Arguments Entry : clear implicits.

(** ** The symbol manager *)

(** [SymbolKey], compared by venue and by the whole name buffer. *)
Definition SymbolKey : Type := Venue * bytes.

Definition symbol_key (venue : Venue) (sym : bytes) : SymbolKey := (venue, assign 32 sym).

Section Manager.
Context {L3 Pool : Type}.
Abbreviation OrderBook := (OrderBook L3 Pool).

Record Instrument := mkInstrument {
  in_symbol : Symbol;
  in_order_book : option OrderBook
}.

#[export] Instance Instrument_eta : Eta Instrument := fun i => mkInstrument (in_symbol i) (in_order_book i).

Record SymbolManager := mkManager {
  sm_symbols : list Instrument;
  sm_symbols_by_name : gmap SymbolKey nat
}.

#[export] Instance SymbolManager_eta : Eta SymbolManager := fun m =>
  mkManager (sm_symbols m) (sm_symbols_by_name m).

Definition no_symbols : SymbolManager := mkManager [] ∅.

(** [getSymbol(name, venue)] is a pointer, [getSymbol(id)] too. *)
Definition getSymbol (m : SymbolManager) (sym : bytes) (venue : Venue) : option nat :=
  sm_symbols_by_name m !! symbol_key venue sym.

Definition getSymbol_id (m : SymbolManager) (sid : Z) : option nat :=
  if Z.of_nat (List.length (sm_symbols m)) <=? sid then None else Some (Z.to_nat sid).

(** A default-constructed [Symbol] with its id, name and venue; [storage] is the array of
    its trade history. [symid_t] has 16 bits. *)
Definition new_symbol (id : nat) (sym : bytes) (venue : Venue) (storage : list MDTrade) : Symbol :=
  mkSymbol (wrap 16 (Z.of_nat id)) venue (assign 32 sym) None 0 SMP.NONE
    (new_ring TRADE_HISTORY_CAPACITY storage) (mkCredits ∅ ∅).

Definition createSymbol (m : SymbolManager) (sym : bytes) (venue : Venue) (storage : list MDTrade)
  : nat * SymbolManager :=
  match sm_symbols_by_name m !! symbol_key venue sym with
  | Some i => (i, m)
  | None =>
      let i := List.length (sm_symbols m) in
      (i, m <| sm_symbols ::= fun l => l ++ [mkInstrument (new_symbol i sym venue storage) None] |>
            <| sm_symbols_by_name ::= <[symbol_key venue sym := i]> |>)
  end.

Definition manager_size (m : SymbolManager) : nat := List.length (sm_symbols m).

(** ** Properties *)

(** Every entry points to the symbol of that name and venue, and every symbol has its
    entry. *)
Definition manager_ok (m : SymbolManager) : Prop := forall k i,
  sm_symbols_by_name m !! k = Some i <->
  exists ins, sm_symbols m !! i = Some ins
    /\ k = (sym_venue (in_symbol ins), sym_symbol (in_symbol ins)).

Lemma no_symbols_ok : manager_ok no_symbols.
Proof.
  intros k i. cbn. rewrite lookup_empty. split; [done|]. by intros (ins & ? & _).
Qed.

Lemma manager_insert m sym venue storage :
  manager_ok m -> sm_symbols_by_name m !! symbol_key venue sym = None ->
  manager_ok (snd (createSymbol m sym venue storage)).
Proof.
  intros Hm Hn. unfold createSymbol. rewrite Hn. cbn [snd]. intros k i. cbn.
  destruct (decide (k = symbol_key venue sym)) as [->|Hk].
  - rewrite lookup_insert_eq. split.
    + intros [= <-]. eexists. split; [by rewrite lookup_app_r, Nat.sub_diag|done].
    + intros (ins & Hi & Hk). destruct (decide (i < List.length (sm_symbols m))%nat) as [Hl|Hl].
      * rewrite lookup_app_l in Hi by done.
        assert (E : sm_symbols_by_name m !! symbol_key venue sym = Some i) by (apply Hm; by exists ins).
        congruence.
      * apply lookup_lt_Some in Hi. rewrite length_app in Hi. cbn in Hi. f_equal. lia.
  - rewrite lookup_insert_ne by done. rewrite (Hm k i). split; intros (ins & Hi & ->).
    + exists ins. split; [by apply lookup_app_l_Some|done].
    + exists ins. split; [|done]. apply lookup_app_Some in Hi as [Hi|[_ Hi]]; [done|].
      apply list_lookup_singleton_Some in Hi as [_ <-]. by destruct Hk.
Qed.

(** Creating an instrument is idempotent and strands nothing: the name and venue then
    find it, every other name and venue finds what it found before, every pointer handed
    out so far still points to the same symbol, a second create returns the first symbol
    unchanged, and - while there are at most 65,536 instruments - the symbol's own id finds
    it too. *)
Lemma create_symbol_finds m sym venue storage :
  manager_ok m ->
  let '(i, m') := createSymbol m sym venue storage in
  manager_ok m'
  /\ getSymbol m' sym venue = Some i
  /\ (forall sym' venue', symbol_key venue' sym' <> symbol_key venue sym ->
        getSymbol m' sym' venue' = getSymbol m sym' venue')
  /\ (forall j ins, sm_symbols m !! j = Some ins -> sm_symbols m' !! j = Some ins)
  /\ (forall storage', createSymbol m' sym venue storage' = (i, m'))
  /\ (getSymbol m sym venue = None -> Z.of_nat (List.length (sm_symbols m)) < 2 ^ 16 ->
        exists ins, sm_symbols m' !! i = Some ins /\ getSymbol_id m' (sym_id (in_symbol ins)) = Some i).
Proof.
  intros Hm. pose proof (manager_insert m sym venue storage Hm) as Hok.
  unfold createSymbol, getSymbol in *.
  destruct (sm_symbols_by_name m !! symbol_key venue sym) as [i|] eqn:E.
  - split; [done|]. do 3 (split; [done|]). split; [by rewrite E|done].
  - specialize (Hok eq_refl). cbn [snd] in Hok. split; [done|]. cbn.
    split; [apply lookup_insert_eq|]. split; [|split; [|split]].
    + intros sym' venue' Hk. by rewrite lookup_insert_ne.
    + intros j ins Hj. by apply lookup_app_l_Some.
    + intros storage'. by rewrite lookup_insert_eq.
    + intros _ Hl. eexists. split; [by rewrite lookup_app_r, Nat.sub_diag|].
      unfold getSymbol_id. cbn. rewrite length_app. cbn.
      unfold wrap. rewrite Z.mod_small by lia. rewrite (proj2 (Z.leb_gt _ _)) by lia. f_equal. lia.
Qed.

End Manager.

Arguments Instrument : clear implicits.
Arguments SymbolManager : clear implicits.

(** The same ticker on two venues. *)
Lemma create_symbol_finds_witness :
  let m := snd (createSymbol (L3 := unit) (Pool := unit) no_symbols (str "BTC") COINBASE []) in
  getSymbol (snd (createSymbol m (str "BTC") HYPERLIQUID [])) (str "BTC") HYPERLIQUID = Some 1%nat
  /\ getSymbol (snd (createSymbol m (str "BTC") HYPERLIQUID [])) (str "BTC") COINBASE = Some 0%nat.
Proof.
  intros m.
  pose proof (create_symbol_finds (L3 := unit) (Pool := unit) no_symbols (str "BTC") COINBASE [] no_symbols_ok) as H0.
  cbn in H0. destruct H0 as (Hm & _).
  pose proof (create_symbol_finds m (str "BTC") HYPERLIQUID [] Hm) as H.
  assert (Ei : fst (createSymbol m (str "BTC") HYPERLIQUID []) = 1%nat) by (vm_compute; reflexivity).
  destruct (createSymbol m (str "BTC") HYPERLIQUID []) as [i m']. cbn [fst] in Ei. subst i.
  destruct H as (_ & H1 & H2 & _).
  cbn [snd]. split; [exact H1|]. rewrite H2 by discriminate. vm_compute. reflexivity.
Defined.
