(* ===== verification/Exchange.v ===== *)
(** * The exchange core

    Models [src/exchange/exchange.cpp], [exchange.hpp] and [market_events.hpp]: what the
    exchange thread does with one request or one market event. The venue's own members are
    the record [Exchange]; a handler works on one instrument, so its state is a [Desk]: the
    venue, the [Symbol*] in hand with its symbol, and the world holding that symbol's book,
    the queues and the process-wide counters. [System] is the whole process.

    Threads, queues' sizes, logging and the start and stop of gateways are not modelled. *)

From S2P Require Import Prelude Types FixedString RingBuffer Orders Messages MarketData.
From S2P Require Import L3Interface OrderBook MatchCommon FifoEngine ProRata MatchingConfig.
From S2P Require Import Symbol SymbolManager.

(** ** Market events *)

Record MarketOrderEvent := mkMarketOrder {
  moe_book_order_id : Z;
  moe_book_priority : Z;
  moe_price : price_t;
  moe_transact_time : Z;
  moe_qty : qty_t;
  moe_side : Side;
  moe_action : MDUpdateAction;
  moe_requeue : bool
}.

Record MarketTradeEvent := mkMarketTrade {
  mte_price : price_t;
  mte_qty : qty_t;
  mte_aggressor : Side;
  mte_transact_time : Z
}.

(** ** The venue *)

Record Exchange := mkExchange {
  ex_venue : Venue;
  ex_fifo_engine : option MatchingEngine;
  ex_pro_rata_engine : option MatchingEngine;
  ex_publish_order_updates : bool;
  ex_next_trade_id : Z;
  ex_market_changed_symbols : list nat;
  ex_smp_mode : SelfMatchPreventionMode;
  ex_matching : MatchingConfig;
  ex_matching_keys_unread : bool;
  ex_client_ids : gmap bytes Z;
  ex_next_client_id : Z
}.

#[export] Instance Exchange_eta : Eta Exchange := fun e =>
  mkExchange (ex_venue e) (ex_fifo_engine e) (ex_pro_rata_engine e) (ex_publish_order_updates e)
    (ex_next_trade_id e) (ex_market_changed_symbols e) (ex_smp_mode e) (ex_matching e)
    (ex_matching_keys_unread e) (ex_client_ids e) (ex_next_client_id e).

(** What the constructor and [configureMatching] throw. *)
Inductive ExchangeError :=
  MissingOrderGateway
| MissingMdPublisher
| SelfMatchPreventionNotString
| ConfiguredTooLate
| BadMatching (e : ConfigError)
| UndefinedMatching.

(** The constructor, past the queues it opens. *)
Definition new_exchange {J} {json : Json J} (venue : Venue) (config : J) : ExchangeError + Exchange :=
  let contains k := bool_decide (is_Some (js_find config k)) in
  if negb (contains (str "order_gateway")) then inl MissingOrderGateway
  else if negb (contains (str "md_publisher")) then inl MissingMdPublisher
  else
    let keys_unread := contains (str "matching_algorithm") || contains (str "pro_rata") in
    let make smp := inr (mkExchange venue None None false 1 [] smp default_matching keys_unread ∅ 0) in
    match js_find config (str "self_match_prevention") with
    | None => make SMP.NONE
    | Some mode => match js_get_string mode with
                   | None => inl SelfMatchPreventionNotString
                   | Some mode => make (SMP.to_smp_mode mode)
                   end
    end.

Definition engine_slot (e : Exchange) (t : EngineType) : option MatchingEngine :=
  match t with FIFO => ex_fifo_engine e | ProRata => ex_pro_rata_engine e end.

Definition set_engine_slot (e : Exchange) (t : EngineType) (engine : MatchingEngine) : Exchange :=
  match t with
  | FIFO => e <| ex_fifo_engine := Some engine |>
  | ProRata => e <| ex_pro_rata_engine := Some engine |>
  end.

Definition configureMatching {J} {json : Json J} (e : Exchange) (config : J) : ExchangeError + Exchange :=
  if bool_decide (is_Some (ex_fifo_engine e) \/ is_Some (ex_pro_rata_engine e)) then inl ConfiguredTooLate
  else match from_json config with
       | Ok matching => inr (e <| ex_matching := matching |> <| ex_matching_keys_unread := false |>)
       | Throw err => inl (BadMatching err)
       | Undefined => inl UndefinedMatching
       end.

(** The engine's construction can only throw on a configuration [from_json] refuses. *)
Definition assignMatching (e : Exchange) (s : Symbol) : result (Exchange * Symbol) :=
  let bind engine (e : Exchange) :=
    (e, s <| sym_matching_engine := Some engine |> <| sym_smp_mode := ex_smp_mode e |>) in
  let t := mc_type (ex_matching e) in
  match engine_slot e t with
  | Some engine => Ok (bind engine e)
  | None => let* engine := createMatchingEngine (ex_matching e) in
            Ok (bind engine (set_engine_slot e t engine))
  end.

(** [clientIdFor]: the identity self-match prevention compares. *)
Definition clientIdFor (e : Exchange) (user_id : bytes) : Z * Exchange :=
  let key := view user_id in
  match key with
  | [] => (-1, e)
  | _ =>
      match ex_client_ids e !! key with
      | Some id => (id, e)
      | None =>
          let stored := string_key (assign 37 key) in
          let id := ex_next_client_id e in
          let e := e <| ex_next_client_id ::= fun n => n + 1 |> in
          match ex_client_ids e !! stored with
          | Some id => (id, e)
          | None => (id, e <| ex_client_ids ::= <[stored := id]> |>)
          end
      end
  end.

Definition nextVenueTradeId (e : Exchange) : Z * Exchange :=
  (ex_next_trade_id e, e <| ex_next_trade_id ::= fun n => u64 (n + 1) |>).

Section Exchange.
Context {L3 Pool : Type} {l3ops : L3Ops L3} {poolops : ObjectPool Pool} {env : Environment}.
Abbreviation World := (World L3 Pool).

(** ** One instrument in hand *)

Record Desk := mkDesk {
  d_exchange : Exchange;
  d_pointer : nat;
  d_symbol : Symbol;
  d_world : World
}.

#[export] Instance Desk_eta : Eta Desk := fun d =>
  mkDesk (d_exchange d) (d_pointer d) (d_symbol d) (d_world d).

Definition venue_of (d : Desk) : Venue := ex_venue (d_exchange d).

(** ** Responses the exchange writes itself

    A rejection is written into the next response slot, stamped with the clock: [reject_in]
    does so with an instrument in hand, [reject_unlisted] below without one. *)

Definition reject_in (w : World) (fill : time_t -> OrderResponse -> OrderResponse) : World :=
  let '(now, w) := get_current_time_ns w in publish_response w (fill now).

Definition rejectNewOrderRequest (request : Request) (msg : AddOrderMessage) (reason : OrdRejectReason)
  (now : time_t) (response : OrderResponse) : OrderResponse :=
    response <| r_identity := mkIdentity (req_symbol request) (add_user_id msg)
                                (add_client_order_id msg) (clear 37) |>
             <| r_order_num := 0 |>
             <| r_request_tag := req_request_tag request |>
             <| r_aggressor := false |>
             <| r_request_time := req_time_stamp request |>
             <| r_response_type := Msg.REJECT |>
             <| r_order_status := OrderStatus.REJECTED |>
             <| r_exec_type := ExecType.REJECTED |>
             <| r_price := add_price msg |>
             <| r_qty := add_qty msg |>
             <| r_cum_qty := 0 |>
             <| r_leaves_qty := 0 |>
             <| r_reject_reason := reason |>
             <| r_timestamp := now |>.

Definition rejectModifyOrderRequest (request : Request) (msg : ModifyOrderMessage) (reason : OrdRejectReason)
  (now : time_t) (response : OrderResponse) : OrderResponse :=
    response <| r_identity := mkIdentity (req_symbol request) (mod_user_id msg)
                                (mod_client_order_id msg) (mod_order_id msg) |>
             <| r_order_num := 0 |>
             <| r_request_tag := req_request_tag request |>
             <| r_aggressor := false |>
             <| r_response_type := Msg.REJECT |>
             <| r_order_status := OrderStatus.REJECTED |>
             <| r_exec_type := ExecType.REJECTED |>
             <| r_price := mod_new_price msg |>
             <| r_qty := mod_new_qty msg |>
             <| r_cum_qty := 0 |>
             <| r_leaves_qty := 0 |>
             <| r_reject_reason := reason |>
             <| r_timestamp := now |>
             <| r_request_time := req_time_stamp request |>.

Definition rejectCancelOrderRequest (request : Request) (msg : CancelOrderMessage) (reason : OrdRejectReason)
  (now : time_t) (response : OrderResponse) : OrderResponse :=
    response <| r_identity := mkIdentity (req_symbol request) (cxl_user_id msg)
                                (cxl_client_order_id msg) (cxl_order_id msg) |>
             <| r_order_num := 0 |>
             <| r_request_tag := req_request_tag request |>
             <| r_aggressor := false |>
             <| r_response_type := Msg.REJECT |>
             <| r_order_status := OrderStatus.REJECTED |>
             <| r_exec_type := ExecType.REJECTED |>
             <| r_price := NULL_PRICE |>
             <| r_qty := 0 |>
             <| r_cum_qty := 0 |>
             <| r_leaves_qty := 0 |>
             <| r_reject_reason := reason |>
             <| r_timestamp := now |>
             <| r_request_time := req_time_stamp request |>.

Definition sendOrderNewPending (w : World) (order : Order) (request_time : time_t) : World :=
  publish_response w (fun response =>
    (setOrderIdentity response order)
      <| r_response_type := Msg.EXECUTION_REPORT |>
      <| r_exec_type := ExecType.NEW |>
      <| r_order_status := OrderStatus.PENDING_NEW |>
      <| r_order_type := o_type order |>
      <| r_price := o_price order |>
      <| r_avg_fill_price := o_avg_fill_price order |>
      <| r_qty := o_quantity order |>
      <| r_cum_qty := 0 |>
      <| r_leaves_qty := o_leaves_quantity order |>
      <| r_timestamp := o_created_time order |>
      <| r_request_time := request_time |>
      <| r_side := o_side order |>
      <| r_post_only := o_post_only order |>).

Definition sendOrderReplacePending (w : World) (order : Order) (request_time : time_t) : World :=
  publish_response w (fun response =>
    (setOrderIdentity response order)
      <| r_response_type := Msg.EXECUTION_REPORT |>
      <| r_exec_type := ExecType.PENDING_REPLACE |>
      <| r_order_status := OrderStatus.PENDING_REPLACE |>
      <| r_order_type := o_type order |>
      <| r_request_time := request_time |>
      <| r_price := o_price order |>
      <| r_avg_fill_price := o_avg_fill_price order |>
      <| r_qty := o_quantity order |>
      <| r_cum_qty := 0 |>
      <| r_leaves_qty := o_leaves_quantity order |>
      <| r_timestamp := o_created_time order |>
      <| r_side := o_side order |>
      <| r_post_only := o_post_only order |>).

(** The assertion [leaves_qty == qty] is only checked in debug builds. *)
Definition sendOrderCancelPending (w : World) (order : Order) (request_time : time_t) : World :=
  publish_response w (fun response =>
    (setOrderIdentity response order)
      <| r_response_type := Msg.EXECUTION_REPORT |>
      <| r_exec_type := ExecType.PENDING_CANCEL |>
      <| r_order_status := OrderStatus.PENDING_CANCEL |>
      <| r_order_type := o_type order |>
      <| r_request_time := request_time |>
      <| r_price := o_price order |>
      <| r_avg_fill_price := o_avg_fill_price order |>
      <| r_last_fill_price := o_last_fill_price order |>
      <| r_last_qty := o_last_fill_qty order |>
      <| r_qty := o_quantity order |>
      <| r_cum_qty := 0 |>
      <| r_leaves_qty := o_leaves_quantity order |>
      <| r_timestamp := o_created_time order |>
      <| r_side := o_side order |>
      <| r_post_only := o_post_only order |>).

(** ** Market data *)

Definition rejectMdSubscription (e : Exchange) (w : World) (request : Request) (msg : MDSubscriptionMessage)
  (reason : MDSubscriptionRejectReason) : World :=
  publish_md w SUB_RESPONSE (req_symbol request) (ex_venue e) (PSubReject (mds_channel msg) reason).

(** The frame's two arrays start as what the queue slot held. *)
Definition publishMDBookUpdate (d : Desk) (indices : Z * Z) : Desk :=
  d <| d_world ::= fun w =>
         let stale first := map (fun i => env_level_slot (List.length (w_md w)) (first + i)) (seq 0 10) in
         publish_md w BOOK (ob_symbol (w_book w)) (venue_of d)
           (PBook (populateMDBookUpdate (w_book w) (mkMDBookUpdate (stale 0%nat) (stale 10%nat) indices))) |>.

Definition publishLevelUpdate (e : Exchange) (w : World) (symbol : fixed_string) (level_updates : list MDLevel)
  : World :=
  publish_md w LEVEL symbol (ex_venue e) (PLevels (u32 (Z.of_nat (List.length level_updates))) level_updates).

Definition publishMDOrderUpdate (e : Exchange) (w : World) (symbol : fixed_string) (order_updates : list MDOrder)
  : World :=
  publish_md w ORDER symbol (ex_venue e) (POrders (u32 (Z.of_nat (List.length order_updates))) order_updates).

Definition flushMarketDataCaches (d : Desk) : Desk :=
  let e := d_exchange d in
  let symbol := sym_symbol (d_symbol d) in
  let w := d_world d in
  let w := match ob_md_level_update_cache (w_book w) with
           | [] => w
           | updates => (publishLevelUpdate e w symbol updates)
                          <| w_book ::= fun b => b <| ob_md_level_update_cache := [] |> |>
           end in
  let w := match ob_md_order_update_cache (w_book w) with
           | [] => w
           | updates => (if ex_publish_order_updates e then publishMDOrderUpdate e w symbol updates else w)
                          <| w_book ::= fun b => b <| ob_md_order_update_cache := [] |> |>
           end in
  d <| d_world := w |>.

Definition publishTradeSummary (d : Desk) (s : TradeSummaryInfo) : Desk :=
  let '(trade_id, e) := nextVenueTradeId (d_exchange d) in
  let symbol := d_symbol d in
  let frame := mkTradeSummary (ts_timestamp s) trade_id (swrap 16 (sym_id symbol)) (ts_aggressor_side s)
                 (ts_price s) (ts_qty s) (ts_num_orders s) (ts_Trades s) in
  mkDesk e (d_pointer d)
    (symbol_recordTrade symbol
       (mkMDTrade trade_id (u64 (ts_timestamp s)) 0 (ts_price s) (ts_qty s) F_NONE (ts_aggressor_side s)))
    (publish_md (d_world d) TRADE_SUMMARY (sym_symbol symbol) (ex_venue e) (PTradeSummary frame)).

Definition publishTradeSummaries (d : Desk) (l : list TradeSummaryInfo) : Desk :=
  fold_left publishTradeSummary l d.

(** [history[i]] for every [i], skipping a null. *)
Definition reflected_in_book (book_time : Z) (trade : MDTrade) : bool :=
  (Z.land (mt_flags trade) F_NOT_IN_BOOK =? 0) || (mt_event_time trade <=? book_time).

Definition history_pass (history : RingBuffer MDTrade) (num_trades : Z) (keep : MDTrade -> bool)
  : list MDTrade :=
  omap (fun i => match ring_at history (Z.of_nat i) with
                 | Some trade => if keep trade then Some trade else None
                 | None => None
                 end) (seq 0 (Z.to_nat num_trades)).

Definition publishTradeSubscriptionResponse (d : Desk) (channel : Z) : Desk :=
  let history := sym_trade_history (d_symbol d) in
  let num_trades := u32 (rb_size history) in
  let book_time := ob_last_update_time (w_book (d_world d)) in
  let snapshot := history_pass history num_trades (reflected_in_book book_time) in
  let update := history_pass history num_trades (fun t => negb (reflected_in_book book_time t)) in
  d <| d_world ::= fun w =>
         publish_md w SUB_RESPONSE (sym_symbol (d_symbol d)) (venue_of d)
           (PSubTrades channel MDReject.NONE
              (mkTradeSnapshot (u32 (Z.of_nat (List.length snapshot))) (u32 (Z.of_nat (List.length update)))
                 (snapshot ++ update))) |>.

(** ** Mirroring the venue's book *)

Record PhantomReduction := mkReduction {
  red_order_id : Z;
  red_new_qty : qty_t;
  red_priority : Z
}.

(** The walk from the back of the level that chooses every reduction. *)
Fixpoint choose_reductions (b : OrderBook L3 Pool) (orders : list L3Order) (diff : qty_t)
  : list PhantomReduction :=
  match orders with
  | [] => []
  | order :: rest =>
      if negb (0 <? diff) then []
      else match findOrder b (l3_order_id order) with
           | Some _ => choose_reductions b rest diff
           | None =>
               let to_reduce := Z.min diff (l3_quantity order) in
               mkReduction (l3_order_id order) (l3_quantity order - to_reduce) (l3_priority order)
                 :: choose_reductions b rest (diff - to_reduce)
           end
  end.

(** Applying them; only the last may close the event. *)
Fixpoint apply_reductions (b : OrderBook L3 Pool) (price : price_t) (event_time seq_num : Z)
  (end_event : bool) (reductions : list PhantomReduction) : OrderBook L3 Pool :=
  match reductions with
  | [] => b
  | reduction :: rest =>
      let last := end_event && match rest with [] => true | _ => false end in
      let '(b, _) := modifyBookOrder b (red_order_id reduction) price (red_new_qty reduction) event_time
                       (red_priority reduction) seq_num last in
      apply_reductions b price event_time seq_num end_event rest
  end.

Definition reconcilePhantomQty (d : Desk) (side : Side) (price : price_t) (target_qty : qty_t)
  (event_time seq_num : Z) (end_event : bool) : Desk :=
  let b := w_book (d_world d) in
  match getLevel (ob_l3 b) side price with
  | None => d
  | Some level =>
      let '(unreflected, credits) :=
        takeTradedQty (sym_traded_qty_credit (d_symbol d)) side price event_time in
      let d := d <| d_symbol ::= fun s => s <| sym_traded_qty_credit := credits |> |> in
      let target_qty := if 0 <? unreflected
                        then if unreflected <? target_qty then target_qty - unreflected else 0
                        else target_qty in
      let md_level_qty := getMDLevelQty b price in
      if md_level_qty <? target_qty then
        d <| d_world ::= fun w =>
               let '(id, w) := nextOrderId w in
               addBookOrder w id side price (target_qty - md_level_qty) event_time seq_num end_event |>
      else if target_qty <? md_level_qty then
        let phantom_reductions := choose_reductions b (rev (lv_orders level)) (md_level_qty - target_qty) in
        d <| d_world ::= fun w =>
               w <| w_book ::= fun b =>
                      apply_reductions b price event_time seq_num end_event phantom_reductions |> |>
      else d
  end.

Definition markMarketChanged (d : Desk) : Desk :=
  if bool_decide (d_pointer d ∈ ex_market_changed_symbols (d_exchange d)) then d
  else d <| d_exchange ::= fun e => e <| ex_market_changed_symbols ::= fun l => l ++ [d_pointer d] |> |>.

(** [OrderBookL3::addOrder] under the event's own priority. *)
Definition restMarketOrder (d : Desk) (event : MarketOrderEvent) : option Desk :=
  match sym_matching_engine (d_symbol d) with
  | None => None
  | Some engine =>
      match engine_match_feed engine (d_world d) (moe_side event) (moe_book_order_id event)
              (moe_price event) (moe_qty event) (moe_transact_time event) 0 with
      | None => None
      | Some (trades, qty, w) =>
          let d := publishTradeSummaries (d <| d_world := w |>) trades in
          Some (if 0 <? qty then
                  d <| d_world ::= fun w => w <| w_book ::= fun b =>
                         fst (l3_call b (l3_addOrder (ob_l3 b) (moe_book_order_id event) (moe_side event)
                                (moe_price event) qty (moe_transact_time event)
                                (moe_book_priority event) 0 true)) |> |>
                else d)
      end
  end.

Definition desk_book (d : Desk) (f : OrderBook L3 Pool -> OrderBook L3 Pool) : Desk :=
  d <| d_world ::= fun w => w <| w_book ::= f |> |>.

Definition applyMarketOrder (d : Desk) (event : MarketOrderEvent) : option Desk :=
  let id := moe_book_order_id event in
  let timestamp := moe_transact_time event in
  let delete d := desk_book d (fun b => fst (deleteBookOrder b id timestamp 0 true)) in
  let d :=
    match moe_action event with
    | ACTION_NEW => restMarketOrder d event
    | ACTION_DELETE => Some (delete d)
    | ACTION_CHANGE =>
        match l3_findOrder (ob_l3 (w_book (d_world d))) id with
        | Some resting =>
            if negb (moe_requeue event) then
              Some (desk_book d (fun b => fst (modifyBookOrder b id (moe_price event) (moe_qty event)
                                                 timestamp (l3_priority resting) 0 true)))
            else restMarketOrder (delete d) event
        | None => restMarketOrder d event
        end
    end in
  markMarketChanged <$> d.

Definition replayMarketTrade (d : Desk) (event : MarketTradeEvent) : option Desk :=
  match sym_matching_engine (d_symbol d) with
  | None => None
  | Some engine =>
      let '(id, w) := nextOrderId (d_world d) in
      match engine_match_feed engine w (mte_aggressor event) id (mte_price event) (mte_qty event)
              (mte_transact_time event) 0 with
      | None => None
      | Some (trades, _, w) => Some (markMarketChanged (publishTradeSummaries (d <| d_world := w |>) trades))
      end
  end.

(** ** Order requests, once the symbol is found *)

(** The pooled order is filled in, then reported pending. *)
Definition fill_new_order (order : Order) (symbol : Symbol) (request : Request) (msg : AddOrderMessage)
  (client_id : Z) : Order :=
  (resetFillAccounting
     (order <| o_identity := mkIdentity (sym_symbol symbol) (assign 37 (view (add_user_id msg)))
                               (assign 37 (view (add_client_order_id msg))) (o_order_id order) |>
            <| o_client_id := client_id |>
            <| o_side := add_side msg |>
            <| o_type := add_type msg |>
            <| o_time_in_force := add_time_in_force msg |>
            <| o_price := add_price msg |>) (add_qty msg))
    <| o_status := OrderStatus.PENDING_NEW |>
    <| o_request_tag := req_request_tag request |>.

Definition desk_reject (d : Desk) (fill : time_t -> OrderResponse -> OrderResponse) : Desk :=
  d <| d_world ::= fun w => reject_in w fill |>.

Definition handleNewOrderRequest (d : Desk) (request : Request) (msg : AddOrderMessage) : option Desk :=
  let w := d_world d in
  if negb (empty (add_client_order_id msg))
     && bool_decide (is_Some (findOrderByClientOrderId (w_book w) (view (add_client_order_id msg))))
  then Some (desk_reject d (rejectNewOrderRequest request msg OrdReject.CLIENT_ORDER_ID_ALREADY_EXISTS))
  else
    let '(order, w) := allocateOrder w in
    let '(client_id, e) := clientIdFor (d_exchange d) (add_user_id msg) in
    let w := set_order w order (fill_new_order (order_at w order) (d_symbol d) request msg client_id) in
    let w := sendOrderNewPending w (order_at w order) (req_time_stamp request) in
    match symbol_addOrder (d_symbol d) w order (req_time_stamp request) with
    | None => None
    | Some (reject_reason, trade_summaries, w) =>
        let d := publishTradeSummaries (d <| d_exchange := e |> <| d_world := w |>) trade_summaries in
        let d := if bool_decide (reject_reason <> OrdReject.NONE /\ reject_reason <> OrdReject.FOK_CANNOT_FILL)
                 then desk_reject d (rejectNewOrderRequest request msg reject_reason) else d in
        Some (flushMarketDataCaches d)
    end.

(** By client order id when the request carries one, else by order id. *)
Definition find_for_request (b : OrderBook L3 Pool) (client_order_id order_id : fixed_string) : option ptr :=
  if negb (empty client_order_id) then findOrderByClientOrderId b (view client_order_id)
  else findOrderByOrderId b (view order_id).

Definition handleModifyOrderRequest (d : Desk) (request : Request) (msg : ModifyOrderMessage) : option Desk :=
  match find_for_request (w_book (d_world d)) (mod_client_order_id msg) (mod_order_id msg) with
  | None => Some (desk_reject d (rejectModifyOrderRequest request msg OrdReject.UNKNOWN_ORDER))
  | Some order =>
      let w := d_world d in
      let '(now, w) := get_current_time_ns w in
      let accepted_tag := o_request_tag (order_at w order) in
      let w := set_order w order ((order_at w order) <| o_status := OrderStatus.PENDING_REPLACE |>
                                                     <| o_last_update_time := now |>
                                                     <| o_request_tag := req_request_tag request |>) in
      let w := sendOrderReplacePending w (order_at w order) (req_time_stamp request) in
      match symbol_modifyOrder (d_symbol d) w order (mod_new_price msg) (mod_new_qty msg)
              (req_time_stamp request) with
      | None => None
      | Some (reject_reason, trade_summaries, w) =>
          let d := publishTradeSummaries (d <| d_world := w |>) trade_summaries in
          let d := if bool_decide (reject_reason <> OrdReject.NONE)
                   then desk_reject
                          (d <| d_world ::= fun w =>
                                 set_order w order ((order_at w order) <| o_request_tag := accepted_tag |>) |>)
                          (rejectModifyOrderRequest request msg reject_reason)
                   else d in
          Some (flushMarketDataCaches d)
      end
  end.

Definition handleCancelOrderRequest (d : Desk) (request : Request) (msg : CancelOrderMessage) : Desk :=
  match find_for_request (w_book (d_world d)) (cxl_client_order_id msg) (cxl_order_id msg) with
  | None => desk_reject d (rejectCancelOrderRequest request msg OrdReject.UNKNOWN_ORDER)
  | Some order =>
      let w := d_world d in
      let w := set_order w order ((order_at w order) <| o_status := OrderStatus.PENDING_CANCEL |>
                                                     <| o_request_tag := req_request_tag request |>) in
      let w := sendOrderCancelPending w (order_at w order) (req_time_stamp request) in
      flushMarketDataCaches (d <| d_world := symbol_cancelOrder w order (req_time_stamp request) |>)
  end.

(** ** The process: requests find their symbol *)

Record System := mkSystem {
  sys_exchange : Exchange;
  sys_symbols : SymbolManager L3 Pool;
  sys_glob : Globals;
  sys_responses : list OrderResponse;
  sys_md : list MarketDataUpdate
}.

#[export] Instance System_eta : Eta System := fun s =>
  mkSystem (sys_exchange s) (sys_symbols s) (sys_glob s) (sys_responses s) (sys_md s).

(** The instrument in hand, when it has its order book. *)
Definition desk_at (s : System) (i : nat) : option Desk :=
  match sm_symbols (sys_symbols s) !! i with
  | Some (mkInstrument symbol (Some b)) =>
      Some (mkDesk (sys_exchange s) i symbol (mkWorld b (sys_glob s) (sys_responses s) (sys_md s)))
  | _ => None
  end.

Definition put_desk (s : System) (d : Desk) : System :=
  let w := d_world d in
  mkSystem (d_exchange d)
    ((sys_symbols s) <| sm_symbols ::= <[d_pointer d := mkInstrument (d_symbol d) (Some (w_book w))]> |>)
    (w_glob w) (w_responses w) (w_md w).

Definition on_desk (s : System) (i : nat) (f : Desk -> option Desk) : option System :=
  match desk_at s i with
  | Some d => put_desk s <$> f d
  | None => None
  end.

(** The venue's subscription handlers, virtual in the base class, where they do nothing. *)
Record VenueHooks := mkHooks {
  handleMdSubscription : System -> Request -> MDSubscriptionMessage -> option System;
  handleMdUnsubscription : System -> Request -> MDSubscriptionMessage -> option System
}.

Definition base_hooks : VenueHooks := mkHooks (fun s _ _ => Some s) (fun s _ _ => Some s).

Definition reject_unlisted (s : System) (fill : time_t -> OrderResponse -> OrderResponse) : System :=
  let now := env_clock (g_clock (sys_glob s)) in
  s <| sys_glob ::= fun g => g <| g_clock ::= S |> |>
    <| sys_responses ::= fun q => q ++ [fill now (env_response_slot (List.length q))] |>.

(** The symbol is looked up first; a rejection for want of one touches no book. *)
Definition with_symbol (s : System) (request : Request) (reject : time_t -> OrderResponse -> OrderResponse)
  (f : Desk -> option Desk) : option System :=
  match getSymbol (sys_symbols s) (view (req_symbol request)) (ex_venue (sys_exchange s)) with
  | Some i => on_desk s i f
  | None => Some (reject_unlisted s reject)
  end.

(** [processRequest] on the request read, if there was one. *)
Definition processRequest (hooks : VenueHooks) (s : System) (read : option Request) : option System :=
  match read with
  | None => Some s
  | Some request =>
      match req_body request with
      | ReqAdd msg =>
          with_symbol s request (rejectNewOrderRequest request msg OrdReject.UNKNOWN_CONTRACT)
            (fun d => handleNewOrderRequest d request msg)
      | ReqModify msg =>
          with_symbol s request (rejectModifyOrderRequest request msg OrdReject.UNKNOWN_CONTRACT)
            (fun d => handleModifyOrderRequest d request msg)
      | ReqCancel msg =>
          with_symbol s request (rejectCancelOrderRequest request msg OrdReject.UNKNOWN_CONTRACT)
            (fun d => Some (handleCancelOrderRequest d request msg))
      | ReqSubscribe msg => handleMdSubscription hooks s request msg
      | ReqUnsubscribe msg => handleMdUnsubscription hooks s request msg
      | ReqOther _ => Some s
      end
  end.

(** Every symbol a market event marked, in the order they were marked. *)
Fixpoint flush_each (s : System) (l : list nat) : option System :=
  match l with
  | [] => Some s
  | i :: rest => match on_desk s i (fun d => Some (flushMarketDataCaches d)) with
                 | Some s => flush_each s rest
                 | None => None
                 end
  end.

Definition flushMarketEvents (s : System) : option System :=
  match flush_each s (ex_market_changed_symbols (sys_exchange s)) with
  | Some s => Some (s <| sys_exchange ::= fun e => e <| ex_market_changed_symbols := [] |> |>)
  | None => None
  end.

End Exchange.
Arguments Desk : clear implicits.
Arguments System : clear implicits.
