(* ===== verification/DeskState.v ===== *)
(** * One instrument at the exchange, between two handlers

    [desk_ok] is what every handler of the exchange keeps of the instrument it works on;
    [feed] is the level updates published so far and those still cached; [desk_step] says
    that a handler only ever appends frames of this instrument, that what it appends to the
    feed turns the old depth of the book into the new one, and what it leaves alone.
    A closed instrument at a closed venue follows. *)

From S2P Require Import Prelude Types FixedString RingBuffer Orders Messages MarketData L3Interface.
From S2P Require Import L3Lemmas L3Reference OrderBook OrderBookInv Concrete OrderBookOps.
From S2P Require Import Sweep MatchCommon MatchLemmas FifoEngine FifoProofs FifoOrders.
From S2P Require Import ProRata MatchingConfig MatchContract BookState Symbol SymbolProofs.
From S2P Require Import SymbolManager Exchange.

(** The level updates a subscriber reads out of the frames of one instrument. *)
Definition frame_deltas (symbol : fixed_string) (u : MarketDataUpdate) : list (Side * price_t * qty_t) :=
  match mdu_data u with
  | PLevels _ levels => if bool_decide (mdu_symbol u = symbol) then map delta levels else []
  | _ => []
  end.

Definition level_frames (symbol : fixed_string) (md : list MarketDataUpdate) : list (Side * price_t * qty_t) :=
  flat_map (frame_deltas symbol) md.

Lemma level_frames_app symbol l1 l2 : level_frames symbol (l1 ++ l2) = level_frames symbol l1 ++ level_frames symbol l2.
Proof. apply flat_map_app. Qed.

(** The quantity the trade summaries report. *)
Definition frame_traded (u : MarketDataUpdate) : qty_t :=
  match mdu_data u with PTradeSummary s => wts_qty s | _ => 0 end.

Definition traded_in (md : list MarketDataUpdate) : qty_t := zsum (map frame_traded md).

Lemma traded_app l1 l2 : traded_in (l1 ++ l2) = traded_in l1 + traded_in l2.
Proof. unfold traded_in. by rewrite map_app, zsum_app. Qed.

Section Desk.
Context {L3 Pool : Type} {l3ops : L3Ops L3} {laws : L3Laws L3} {poolops : ObjectPool Pool}
  {poollaws : PoolLaws Pool} {env : Environment}.
Abbreviation World := (World L3 Pool).
Abbreviation Desk := (Desk L3 Pool).
Implicit Types w : World.
Implicit Types d : Desk.

(** Resting orders carry numbers already drawn. *)
Definition ids_drawn w : Prop :=
  forall i, i ∈ book_ids (ob_l3 (w_book w)) -> i < g_next_order_id (w_glob w).

Definition engine_of d (e : MatchingEngine) : Prop := sym_matching_engine (d_symbol d) = Some e /\ engine_ok e.

Record desk_ok d : Prop := {
  dk_fine : fine (d_world d);
  dk_ids : ids_drawn (d_world d);
  dk_engine : exists e, engine_of d e
}.

(** What the engine needs of the queues it may sweep. *)
Definition desk_fits d : Prop :=
  forall e s, book_side s -> engine_of d e -> engine_fits e (getLevelsL3 (ob_l3 (w_book (d_world d))) s).

Definition name_of d : fixed_string := sym_symbol (d_symbol d).

Definition feed d : list (Side * price_t * qty_t) :=
  level_frames (name_of d) (w_md (d_world d)) ++ deltas (w_book (d_world d)).

(** The symbol apart from its trade history and credits. *)
Definition same_symbol (s s' : Symbol) : Prop :=
  sym_id s' = sym_id s /\ sym_venue s' = sym_venue s /\ sym_symbol s' = sym_symbol s
  /\ sym_matching_engine s' = sym_matching_engine s /\ sym_smp_mode s' = sym_smp_mode s.

(** The instruments waiting for the next flush of market events. *)
Definition marks d : list nat := ex_market_changed_symbols (d_exchange d).

Record desk_step d d' : Prop := {
  dt_symbol : same_symbol (d_symbol d) (d_symbol d');
  dt_pointer : d_pointer d' = d_pointer d;
  dt_venue : venue_of d' = venue_of d;
  dt_marks : forall j, j ∈ marks d' -> j ∈ marks d \/ j = d_pointer d;
  dt_news : exists news, w_md (d_world d') = w_md (d_world d) ++ news
    /\ Forall (fun u => mdu_symbol u = name_of d) news;
  dt_feed : exists ds, feed d' = feed d ++ ds
    /\ forall s p, book_side s ->
         depth (w_book (d_world d')) s p = follow ds s p (depth (w_book (d_world d)) s p)
}.

#[export] Instance desk_step_refl : Reflexive desk_step.
Proof.
  intros d. split; try done.
  - by left.
  - exists []. by rewrite app_nil_r.
  - exists []. by rewrite app_nil_r.
Qed.

#[export] Instance desk_step_trans : Transitive desk_step.
Proof.
  intros d1 d2 d3 [(A1 & A2 & A3 & A4 & A5) P1 V1 M1 (n1 & N1 & L1) (f1 & F1 & G1)]
    [(B1 & B2 & B3 & B4 & B5) P2 V2 M2 (n2 & N2 & L2) (f2 & F2 & G2)]. split.
  - repeat split; congruence.
  - congruence.
  - congruence.
  - intros j Hj. destruct (M2 j Hj) as [Hj'| ->]; [by apply M1|right; congruence].
  - exists (n1 ++ n2). rewrite N2, N1, app_assoc. split; [done|]. apply Forall_app. split; [done|].
    unfold name_of in *. by rewrite <- A3.
  - exists (f1 ++ f2). rewrite F2, F1, app_assoc. split; [done|]. intros s p Hs. by rewrite follow_app, G2, G1.
Qed.

(** A desk whose world moved, with no frame published. *)
Lemma desk_step_world d w :
  level_step (w_book (d_world d)) (w_book w) -> w_md w = w_md (d_world d) ->
  desk_step d (d <| d_world := w |>).
Proof.
  intros (ds & E & H) Em. split; try done.
  - by left.
  - exists []. by rewrite app_nil_r.
  - exists ds. unfold feed. cbn. rewrite Em, E. by rewrite app_assoc.
Qed.

Lemma desk_step_exchange d e :
  ex_venue e = ex_venue (d_exchange d) ->
  (forall j, j ∈ ex_market_changed_symbols e -> j ∈ marks d \/ j = d_pointer d) ->
  desk_step d (d <| d_exchange := e |>).
Proof.
  intros E. split; try done.
  - exists []. by rewrite app_nil_r.
  - exists []. by rewrite app_nil_r.
Qed.

(** Frames without level updates. *)
Lemma publish_quiet d d' t data :
  same_symbol (d_symbol d) (d_symbol d') -> d_pointer d' = d_pointer d -> venue_of d' = venue_of d ->
  marks d' = marks d -> w_book (d_world d') = w_book (d_world d) ->
  w_md (d_world d') = w_md (d_world d) ++ [mkMDUpdate (name_of d) (venue_of d) t data] ->
  match data with PLevels _ _ => False | _ => True end -> desk_step d d'.
Proof.
  intros Hs Hp Hv Hk Hb Hm Hd. split; try done.
  - rewrite Hk. by left.
  - eexists. split; [exact Hm|]. by constructor.
  - exists []. unfold feed, depth, name_of in *. rewrite app_nil_r, Hm, Hb. destruct Hs as (_ & _ & -> & _).
    rewrite level_frames_app. split; [|done]. f_equal. unfold level_frames at 2, frame_deltas. cbn.
    destruct data; rewrite ?app_nil_r; done.
Qed.

(** ** Trade summaries *)

Lemma publish_summary_step d s : desk_step d (publishTradeSummary d s).
Proof. eapply publish_quiet; reflexivity || done. Qed.

Lemma publish_summaries_step d l : desk_step d (publishTradeSummaries d l).
Proof.
  unfold publishTradeSummaries. revert d. induction l as [|s l IH]; intros d; [done|].
  cbn [fold_left]. etrans; [apply publish_summary_step|apply IH].
Qed.

Lemma publish_summaries_frame d l :
  w_book (d_world (publishTradeSummaries d l)) = w_book (d_world d)
  /\ w_glob (d_world (publishTradeSummaries d l)) = w_glob (d_world d)
  /\ w_responses (d_world (publishTradeSummaries d l)) = w_responses (d_world d).
Proof. unfold publishTradeSummaries. revert d. induction l as [|s l IH]; intros d; [done|]. apply (IH (publishTradeSummary d s)). Qed.

Lemma publish_summaries_traded d l :
  traded_in (w_md (d_world (publishTradeSummaries d l))) = traded_in (w_md (d_world d)) + zsum (map ts_qty l).
Proof.
  unfold publishTradeSummaries. revert d. induction l as [|s l IH]; intros d; [cbn; lia|].
  cbn [fold_left]. rewrite IH.
  assert (E : traded_in (w_md (d_world (publishTradeSummary d s))) = traded_in (w_md (d_world d)) + ts_qty s).
  { etrans; [apply traded_app|]. unfold traded_in at 2. cbn. lia. }
  rewrite E. cbn [map zsum]. lia.
Qed.

(** ** Flushing the caches *)

Lemma flush_frame d :
  let d' := flushMarketDataCaches d in
  d_exchange d' = d_exchange d /\ d_symbol d' = d_symbol d /\ d_pointer d' = d_pointer d
  /\ w_glob (d_world d') = w_glob (d_world d) /\ w_responses (d_world d') = w_responses (d_world d)
  /\ w_book (d_world d') = (w_book (d_world d)) <| ob_md_level_update_cache := [] |> <| ob_md_order_update_cache := [] |>.
Proof.
  destruct d as [e i s [b g r m]]. unfold flushMarketDataCaches. cbn.
  destruct (ob_md_level_update_cache b) as [|l ls] eqn:E1; cbn;
    destruct (ob_md_order_update_cache b) as [|o os] eqn:E2; cbn; repeat case_match; do 5 (split; [done|]);
    cbn; destruct b; cbn in *; congruence.
Qed.

(** The whole cache goes out in one frame; nothing stays pending, and the feed is the same. *)
Lemma flush_step d :
  desk_step d (flushMarketDataCaches d)
  /\ deltas (w_book (d_world (flushMarketDataCaches d))) = [] /\ feed (flushMarketDataCaches d) = feed d.
Proof.
  destruct (flush_frame d) as (F1 & F2 & F3 & F4 & F5 & F6). set (d' := flushMarketDataCaches d) in *.
  assert (Hnews : exists news, w_md (d_world d') = w_md (d_world d) ++ news
    /\ Forall (fun u => mdu_symbol u = name_of d) news
    /\ level_frames (name_of d) news = deltas (w_book (d_world d))).
  { subst d'. destruct d as [e i s [b g r m]]. unfold flushMarketDataCaches, name_of, deltas. cbn.
    destruct (ob_md_level_update_cache b) as [|l ls]; cbn; destruct (ob_md_order_update_cache b) as [|o os]; cbn.
    - exists []. by rewrite app_nil_r.
    - destruct (ex_publish_order_updates e); cbn; [|exists []; by rewrite app_nil_r].
      eexists. split; [done|]. split; [by constructor|done].
    - eexists. split; [done|]. split; [by constructor|]. unfold level_frames, frame_deltas. cbn.
      by rewrite bool_decide_eq_true_2, app_nil_r by done.
    - destruct (ex_publish_order_updates e); cbn.
      + eexists. rewrite <- app_assoc. split; [done|]. split; [repeat constructor|]. unfold level_frames, frame_deltas. cbn.
        by rewrite bool_decide_eq_true_2, app_nil_r by done.
      + eexists. split; [done|]. split; [by constructor|]. unfold level_frames, frame_deltas. cbn.
        by rewrite bool_decide_eq_true_2, app_nil_r by done. }
  destruct Hnews as (news & N1 & N2 & N3).
  assert (Hd : deltas (w_book (d_world d')) = []) by by rewrite F6.
  assert (Hf : feed d' = feed d).
  { unfold feed. rewrite Hd, app_nil_r, N1. unfold name_of. rewrite F2. fold (name_of d).
    by rewrite level_frames_app, N3. }
  split; [|done]. split.
  - by rewrite F2.
  - done.
  - unfold venue_of. by rewrite F1.
  - unfold marks. rewrite F1. by left.
  - by exists news.
  - exists []. rewrite app_nil_r. split; [done|]. intros s p _. unfold depth. by rewrite F6.
Qed.

Lemma flush_traded d : traded_in (w_md (d_world (flushMarketDataCaches d))) = traded_in (w_md (d_world d)).
Proof.
  destruct d as [e i s [b g r m]]. unfold flushMarketDataCaches. cbn.
  destruct (ob_md_level_update_cache b) as [|l ls]; cbn; destruct (ob_md_order_update_cache b) as [|o os]; cbn;
    repeat case_match; unfold traded_in; cbn; rewrite ?map_app, ?zsum_app; cbn; lia.
Qed.

Lemma flush_ok d : desk_ok d -> desk_ok (flushMarketDataCaches d).
Proof.
  intros [H1 H2 (e & H3 & H4)]. destruct (flush_frame d) as (F1 & F2 & F3 & F4 & F5 & F6). split.
  - apply (fine_same ((d_world d) <| w_book ::= fun b => b <| ob_md_level_update_cache := [] |>
                                                       <| ob_md_order_update_cache := [] |> |>)); [exact F6|].
    by apply fine_caches.
  - intros i Hi. unfold ids_drawn in H2. rewrite F4. apply H2. by rewrite F6 in Hi.
  - exists e. unfold engine_of. by rewrite F2.
Qed.

(** A step to a world in order keeps the desk in order. *)
Lemma desk_ok_world d d' :
  desk_ok d -> same_symbol (d_symbol d) (d_symbol d') -> fine (d_world d') -> ids_drawn (d_world d') -> desk_ok d'.
Proof.
  intros [_ _ (e & H3 & H4)] (_ & _ & _ & E & _) Hf Hi. split; [done|done|]. exists e. split; [by rewrite E|done].
Qed.

Lemma desk_ok_same d d' :
  desk_ok d -> same_symbol (d_symbol d) (d_symbol d') -> w_book (d_world d') = w_book (d_world d) ->
  g_next_order_id (w_glob (d_world d)) <= g_next_order_id (w_glob (d_world d')) -> desk_ok d'.
Proof.
  intros Hd Hs Hb Hg. eapply desk_ok_world; [exact Hd|done| |].
  - eapply fine_same; [exact Hb|apply Hd].
  - intros i Hi. rewrite Hb in Hi. pose proof (dk_ids _ Hd i Hi). lia.
Qed.
End Desk.

Definition sample_exchange : Exchange :=
  mkExchange COINBASE (Some FifoMatchingEngine) None true 1 [] SMP.CANCEL_RESTING default_matching false ∅ 0.

(** The sample book under the numbers the feed drew its orders from. *)
Definition desk_world : World RefBook Z := mkWorld (w_book sample_world) (mkGlobals 1010 1010 1 1 1) [] [].

Definition sample_desk : Desk RefBook Z := mkDesk sample_exchange 0 sample_symbol desk_world.

Definition drawn_check (w : World RefBook Z) : bool :=
  forallb (fun i => i <? g_next_order_id (w_glob w)) (book_ids (ob_l3 (w_book w))).

Lemma drawn_check_sound w : drawn_check w = true -> ids_drawn w.
Proof.
  unfold drawn_check, ids_drawn. rewrite forallb_forall. intros H i Hi.
  specialize (H i ltac:(by apply list_elem_of_In)). by bool_to_prop.
Qed.

Lemma sample_desk_ok : desk_ok sample_desk.
Proof.
  split.
  - apply fine_check_sound. vm_compute. reflexivity.
  - apply drawn_check_sound. vm_compute. reflexivity.
  - by exists FifoMatchingEngine.
Qed.

Lemma sample_desk_fits : desk_fits sample_desk.
Proof. intros e s _ [He _]. injection He as <-. exact I. Qed.

(** Requests against it. *)
Definition client_name : fixed_string := assign 37 (str "alice").

Definition uuid_name (n : nat) : fixed_string := env_uuid n ++ [NUL].

Definition sample_add (client_order_id : fixed_string) (price qty : Z) : AddOrderMessage :=
  mkAddOrder client_name client_order_id BUY OrderType.LIMIT TimeInForce.DAY price qty NULL_PRICE NULL_PRICE 0.

Definition sample_request (body : RequestBody) : Request :=
  mkRequest 6 (assign 32 (str "BTC-USD")) 42 body.
