(* ===== verification/ExchangeProofs.v ===== *)
(** * Order requests at the exchange

    [handleNewOrderRequest], [handleModifyOrderRequest] and [handleCancelOrderRequest] on
    the instrument in hand: they return, keep the desk in order, feed the subscribers what
    changed, and a request they refuse changes nothing but the responses. *)

From S2P Require Import Prelude Types FixedString RingBuffer Orders Messages MarketData.
From S2P Require Import L3Interface L3Lemmas OrderBook OrderBookInv OrderBookOps.
From S2P Require Import Sweep MatchCommon MatchLemmas FifoEngine FifoProofs FifoOrders.
From S2P Require Import ProRata MatchingConfig MatchContract BookState Symbol SymbolProofs.
From S2P Require Import SymbolManager Exchange DeskState L3Reference Concrete.

(** ** Texts that fit their buffer *)

Lemma view_nul_free data : nul_free (view data).
Proof.
  induction data as [|c data IH]; [constructor|]. cbn [view]. case_bool_decide; [constructor|]. by constructor.
Qed.

Lemma assign_fits data : (size data <= 36)%nat -> view (assign 37 (view data)) = view data.
Proof.
  intros Hs. rewrite assign_view by (lia || apply view_nul_free). apply take_ge. unfold size in Hs. lia.
Qed.

Lemma empty_view_false data : empty data = false <-> view data <> [].
Proof. rewrite <- empty_spec. by destruct (empty data). Qed.

(** The client order id a pooled order stores is the one the request carried. *)
Lemma stored_key data :
  (size data <= 36)%nat ->
  string_key (assign 37 (view data)) = view data /\ empty (assign 37 (view data)) = empty data.
Proof.
  intros Hs. unfold string_key. rewrite assign_fits by done. split; [done|].
  apply eq_true_iff_eq. by rewrite !empty_spec, assign_fits.
Qed.

Section Requests.
Context {L3 Pool : Type} {l3ops : L3Ops L3} {laws : L3Laws L3} {poolops : ObjectPool Pool}
  {poollaws : PoolLaws Pool} {env : Environment}.
Abbreviation World := (World L3 Pool).
Abbreviation Desk := (Desk L3 Pool).
Implicit Types w : World.
Implicit Types d : Desk.

(** ** Rejections *)

(** One more response, a rejection; the clock was read; nothing else happened. *)
Record refused d d' (reason : OrdRejectReason) (tag : Z) : Prop := {
  rf_rest : d' = d <| d_world := (d_world d) <| w_glob := w_glob (d_world d') |>
                                             <| w_responses := w_responses (d_world d') |> |>;
  rf_glob : w_glob (d_world d') = (w_glob (d_world d)) <| g_clock ::= S |>;
  rf_response : exists r, w_responses (d_world d') = w_responses (d_world d) ++ [r]
    /\ r_response_type r = Msg.REJECT /\ r_order_status r = OrderStatus.REJECTED
    /\ r_reject_reason r = reason /\ r_request_tag r = tag
}.

Lemma reject_new_refused d request msg reason :
  refused d (desk_reject d (rejectNewOrderRequest request msg reason)) reason (req_request_tag request).
Proof. split; try done. by eexists. Qed.

Lemma reject_modify_refused d request msg reason :
  refused d (desk_reject d (rejectModifyOrderRequest request msg reason)) reason (req_request_tag request).
Proof. split; try done. by eexists. Qed.

Lemma reject_cancel_refused d request msg reason :
  refused d (desk_reject d (rejectCancelOrderRequest request msg reason)) reason (req_request_tag request).
Proof. split; try done. by eexists. Qed.

(** ** What every handler leaves *)

Record handled d d' : Prop := {
  hd_ok : desk_ok d';
  hd_step : desk_step d d';
  hd_heard : heard (d_world d) (d_world d');
  hd_numbers : g_next_order_id (w_glob (d_world d)) <= g_next_order_id (w_glob (d_world d'))
}.

#[export] Instance handled_trans : Transitive handled.
Proof. intros d1 d2 d3 [A1 A2 A3 A4] [B1 B2 B3 B4]. split; [done|by etrans|by etrans|lia]. Qed.

Lemma handled_refl d : desk_ok d -> handled d d.
Proof. intros Hd. by split. Qed.

Lemma refused_handled d d' reason tag : desk_ok d -> refused d d' reason tag -> handled d d'.
Proof.
  intros Hd [R1 R2 (r & R3 & _)]. split.
  - rewrite R1. eapply desk_ok_same; [exact Hd|done|done|]. cbn. by rewrite R2.
  - rewrite R1. by apply desk_step_world.
  - by exists [r].
  - by rewrite R2.
Qed.

Lemma summaries_handled d l : desk_ok d -> handled d (publishTradeSummaries d l).
Proof.
  intros Hd. destruct (publish_summaries_frame d l) as (E1 & E2 & E3). pose proof (publish_summaries_step d l) as Hs.
  split; [|done|exists []; by rewrite E3, app_nil_r|by rewrite E2].
  eapply desk_ok_same; [exact Hd|apply Hs|done|by rewrite E2].
Qed.

Lemma flush_handled d : desk_ok d -> handled d (flushMarketDataCaches d).
Proof.
  intros Hd. destruct (flush_frame d) as (_ & _ & _ & F4 & F5 & _).
  split; [by apply flush_ok|apply flush_step|exists []; by rewrite F5, app_nil_r|by rewrite F4].
Qed.

Lemma world_handled d w :
  desk_ok d -> fine w -> ids_drawn w -> level_step (w_book (d_world d)) (w_book w) -> w_md w = w_md (d_world d) ->
  heard (d_world d) w -> g_next_order_id (w_glob (d_world d)) <= g_next_order_id (w_glob w) ->
  handled d (d <| d_world := w |>).
Proof.
  intros Hd Hf Hi Hl Hm Hh Hg. split; [|by apply desk_step_world|done|done].
  by eapply desk_ok_world; [exact Hd|..].
Qed.

(** The handlers' common ending: trade summaries, a rejection if there is one, the caches. *)
Lemma finish_handled d d1 d2 summaries :
  handled d d1 ->
  (d2 = publishTradeSummaries d1 summaries
   \/ exists reason tag, refused (publishTradeSummaries d1 summaries) d2 reason tag) ->
  handled d (flushMarketDataCaches d2) /\ deltas (w_book (d_world (flushMarketDataCaches d2))) = [].
Proof.
  intros H1 H2. split; [|apply flush_step]. pose proof (summaries_handled d1 summaries (hd_ok _ _ H1)) as H3.
  assert (H4 : handled d d2).
  { etrans; [exact H1|]. etrans; [exact H3|]. destruct H2 as [->|(reason & tag & H2)].
    - apply handled_refl, H3.
    - eapply refused_handled; [apply H3|exact H2]. }
  etrans; [exact H4|]. apply flush_handled, H4.
Qed.

(** ** New orders *)

Lemma clientIdFor_venue e user :
  ex_venue (snd (clientIdFor e user)) = ex_venue e
  /\ ex_market_changed_symbols (snd (clientIdFor e user)) = ex_market_changed_symbols e.
Proof. unfold clientIdFor. by repeat case_match. Qed.

(** A request as the gateways build it, and numbers left to draw. *)
Record sane_add d (msg : AddOrderMessage) : Prop := {
  sa_side : book_side (add_side msg);
  sa_qty : 0 <= add_qty msg;
  sa_client : (size (add_client_order_id msg) <= 36)%nat;
  sa_uuid : findOrderByOrderId (w_book (d_world d)) (view (env_uuid (g_uuid (w_glob (d_world d))) ++ [NUL])) = None;
  sa_room : roomy (w_glob (d_world d));
  sa_number : 0 <= g_next_order_id (w_glob (d_world d)) < 2 ^ 64 - 1;
  sa_fits : desk_fits d
}.

(** The request reuses a client order id that rests. *)
Definition duplicate_id d (msg : AddOrderMessage) : bool :=
  negb (empty (add_client_order_id msg))
  && bool_decide (is_Some (findOrderByClientOrderId (w_book (d_world d)) (view (add_client_order_id msg)))).

(** Who an accepted order is: the buffers of its request, and a fresh order id. *)
Definition taken_identity d (msg : AddOrderMessage) : OrderIdentity :=
  mkIdentity (sym_symbol (d_symbol d)) (assign 37 (view (add_user_id msg)))
    (assign 37 (view (add_client_order_id msg))) (env_uuid (g_uuid (w_glob (d_world d))) ++ [NUL]).

(** The order, filled in and reported pending. *)
Definition pending_new d (request : Request) (msg : AddOrderMessage) : World :=
  let '(x, w) := allocateOrder (d_world d) in
  let w := set_order w x (fill_new_order (order_at w x) (d_symbol d) request msg
                            (fst (clientIdFor (d_exchange d) (add_user_id msg)))) in
  sendOrderNewPending w (order_at w x) (req_time_stamp request).

Lemma pending_new_incoming d request msg :
  desk_ok d -> sane_add d msg -> duplicate_id d msg = false ->
  let x := fst (allocateOrder (d_world d)) in let w := pending_new d request msg in
  let n := g_next_order_id (w_glob (d_world d)) in
  fine w /\ incoming w x /\ roomy (w_glob w) /\ g_next_order_id (w_glob w) = n + 1
  /\ o_id (order_at w x) = n /\ o_side (order_at w x) = add_side msg
  /\ o_leaves_quantity (order_at w x) = add_qty msg
  /\ ob_l3 (w_book w) = ob_l3 (w_book (d_world d)) /\ deltas (w_book w) = deltas (w_book (d_world d))
  /\ w_md w = w_md (d_world d)
  /\ exists r, w_responses w = w_responses (d_world d) ++ [r] /\ r_order_status r = OrderStatus.PENDING_NEW
       /\ r_order_num r = n /\ r_request_tag r = req_request_tag request /\ r_identity r = taken_identity d msg.
Proof.
  intros Hd [S1 S2 S3 S4 S5 S6 S7] Hdup x w n.
  pose proof (allocate_allocated (d_world d) (dk_fine _ Hd)) as Ha. subst x w. unfold pending_new.
  destruct (allocateOrder (d_world d)) as [x w1]. cbn [fst snd] in *.
  destruct Ha as [A1 A2 A3 A4 A5 A6 A7 A8 A9 A10 A11 A12 A13 A14 A15].
  set (o := fill_new_order (order_at w1 x) (d_symbol d) request msg _).
  set (w2 := set_order w1 x o). set (w := sendOrderNewPending w2 (order_at w2 x) (req_time_stamp request)).
  assert (Eo : order_at w2 x = o) by (unfold w2; rewrite set_order_at; by rewrite decide_True).
  assert (Ew : order_at w x = o) by exact Eo.
  assert (Eid : o_id o = n) by exact A4.
  destruct (stored_key (add_client_order_id msg) S3) as [K1 K2].
  split; [|split; [split|]]; rewrite ?Ew.
  - apply (fine_same w2); [done|]. by apply fine_write.
  - exact S1.
  - exact A2.
  - exact A3.
  - split; cbn; lia.
  - done.
  - rewrite Eid. change (ob_l3 (w_book w)) with (ob_l3 (w_book w1)). rewrite A9. intros Hin.
    pose proof (dk_ids _ Hd n Hin). unfold n in *. lia.
  - change (o_client_order_id o) with (assign 37 (view (add_client_order_id msg))). rewrite K1, K2. intros He.
    change (ob_orders_by_client_order_id (w_book w)) with (ob_orders_by_client_order_id (w_book w1)). rewrite A11.
    unfold duplicate_id, findOrderByClientOrderId in Hdup. rewrite He in Hdup. cbn [negb andb] in Hdup.
    apply bool_decide_eq_false in Hdup. by destruct (_ !! _); [exfalso; apply Hdup; eexists|].
  - intros _. change (o_order_id o) with (o_order_id (order_at w1 x)). rewrite A5.
    change (ob_orders_by_order_id (w_book w)) with (ob_orders_by_order_id (w_book w1)). rewrite A12. exact S4.
  - change (w_glob w) with (w_glob w1). change (w_md w) with (w_md w1).
    change (ob_l3 (w_book w)) with (ob_l3 (w_book w1)). change (deltas (w_book w)) with (deltas (w_book w1)).
    rewrite A6, A9, A13, A14. fold n. split; [split|].
    + by rewrite A7; apply S5.
    + unfold ids_in_width. rewrite A8. apply S5.
    + split; [apply wrap_small; unfold n; lia|]. split; [exact Eid|]. do 5 (split; [done|]).
      unfold w. rewrite Eo. eexists. split; [cbn; by rewrite A15|]. do 3 (split; [done|]).
      cbn. unfold taken_identity. by rewrite <- A5.
Qed.

Lemma refused_md d d' reason tag :
  refused d d' reason tag -> w_md (d_world d') = w_md (d_world d) /\ w_book (d_world d') = w_book (d_world d).
Proof. intros [-> _ _]. done. Qed.

Lemma ids_drawn_after w w' n :
  (forall i, i ∈ book_ids (ob_l3 (w_book w')) -> i = n \/ i ∈ book_ids (ob_l3 (w_book w))) ->
  ids_drawn w -> n < g_next_order_id (w_glob w') -> g_next_order_id (w_glob w) <= g_next_order_id (w_glob w') ->
  ids_drawn w'.
Proof. intros Hids Hd Hn Hle i Hi. destruct (Hids i Hi) as [->|Hi']; [done|]. specialize (Hd i Hi'). lia. Qed.

(** What an accepted request's order comes to. *)
Record taken d (request : Request) (msg : AddOrderMessage) d' : Prop := {
  tk_order : exists o reason,
    findOrder (w_book (d_world d')) (g_next_order_id (w_glob (d_world d)))
      = (if to_rest reason o then Some (fst (allocateOrder (d_world d))) else None)
    /\ 0 <= o_leaves_quantity o
    /\ (reason = OrdReject.NONE ->
        traded_in (w_md (d_world d')) + o_leaves_quantity o = traded_in (w_md (d_world d)) + add_qty msg)
    /\ (reason <> OrdReject.NONE -> ob_l3 (w_book (d_world d')) = ob_l3 (w_book (d_world d))
        /\ traded_in (w_md (d_world d')) = traded_in (w_md (d_world d)));
  tk_pending : exists r rest, w_responses (d_world d') = w_responses (d_world d) ++ r :: rest
    /\ r_order_status r = OrderStatus.PENDING_NEW /\ r_request_tag r = req_request_tag request
    /\ r_order_num r = g_next_order_id (w_glob (d_world d)) /\ r_identity r = taken_identity d msg;
  tk_flushed : deltas (w_book (d_world d')) = []
}.

Lemma new_order d request msg :
  desk_ok d -> sane_add d msg ->
  exists d', handleNewOrderRequest d request msg = Some d' /\ handled d d'
    /\ if duplicate_id d msg
       then refused d d' OrdReject.CLIENT_ORDER_ID_ALREADY_EXISTS (req_request_tag request)
       else taken d request msg d'.
Proof.
  intros Hd Hs. unfold handleNewOrderRequest. cbv zeta.
  change (negb _ && bool_decide _) with (duplicate_id d msg).
  destruct (duplicate_id d msg) eqn:Hdup.
  { eexists. split; [done|]. pose proof (reject_new_refused d request msg OrdReject.CLIENT_ORDER_ID_ALREADY_EXISTS) as Hr.
    split; [by eapply refused_handled|done]. }
  destruct (pending_new_incoming d request msg Hd Hs Hdup)
    as (P1 & P2 & P3 & P4 & P5 & P6 & P7 & P8 & P9 & P10 & r & P11 & P12 & P13 & P14 & P15).
  unfold pending_new in *. destruct (allocateOrder (d_world d)) as [x w1] eqn:Ealloc. cbn [fst] in *.
  pose proof (clientIdFor_venue (d_exchange d) (add_user_id msg)) as [Hv Hk].
  destruct (clientIdFor (d_exchange d) (add_user_id msg)) as [cid e]. cbn [fst snd] in *.
  set (w := sendOrderNewPending _ _ _) in *. set (n := g_next_order_id (w_glob (d_world d))) in *.
  destruct (dk_engine _ Hd) as (engine & He & Hok).
  destruct (symbol_add (d_symbol d) engine w x (req_time_stamp request) He Hok P1 P3 P2)
    as (reason & summaries & w2 & -> & [Q1 Q2 Q3 Q4 Q5 Q5' Q6 Q7 Q8 Q9 Q10 Q11 Q12]).
  { rewrite P8. apply (sa_fits _ _ Hs); [apply opposite_book_side, P2|by split]. }
  set (d1 := d <| d_exchange := e |> <| d_world := w2 |>).
  assert (Hnext : g_next_order_id (w_glob w2) = n + 1) by (destruct Q3 as [-> _]; exact P4).
  assert (H1 : handled d d1).
  { split.
    - eapply desk_ok_world; [exact Hd|done|exact Q1|]. eapply (ids_drawn_after (d_world d) w2 n); [|apply Hd|lia|unfold n in *; lia].
      intros i Hi. destruct (Q4 i Hi) as [->|Hi']; [by left|right]. by rewrite <- P8.
    - etrans; [apply (desk_step_exchange d e Hv); rewrite Hk; by left|]. apply (desk_step_world (d <| d_exchange := e |>)).
      + eapply level_step_from; [exact P8|exact P9|exact Q2].
      + cbn. by rewrite Q5, P10.
    - etrans; [|exact Q5']. exists [r]. exact P11.
    - change (n <= g_next_order_id (w_glob w2)). lia. }
  set (d2 := if bool_decide _ then _ else _).
  assert (Hd2 : d2 = publishTradeSummaries d1 summaries
    \/ exists reason tag, refused (publishTradeSummaries d1 summaries) d2 reason tag).
  { unfold d2. case_bool_decide; [right|by left]. do 2 eexists. apply reject_new_refused. }
  destruct (finish_handled d d1 d2 summaries H1 Hd2) as [H3 H4].
  exists (flushMarketDataCaches d2). split; [done|]. split; [done|].
  destruct (publish_summaries_frame d1 summaries) as (E1 & _ & E3).
  assert (Eb : w_book (d_world d2) = w_book w2 /\ w_md (d_world d2) = w_md (d_world (publishTradeSummaries d1 summaries))
    /\ heard w2 (d_world d2)).
  { destruct Hd2 as [-> |(rs & tag & Hr)].
    - rewrite E1. do 2 (split; [done|]). exists []. by rewrite E3, app_nil_r.
    - destruct (refused_md _ _ _ _ Hr) as [M1 M2]. rewrite M2, E1. split; [done|]. split; [done|].
      destruct (rf_response _ _ _ _ Hr) as (r' & R' & _). exists [r']. by rewrite R', E3. }
  destruct Eb as (Eb & Em & (l & El)).
  destruct (flush_frame d2) as (_ & _ & _ & _ & F5 & F6).
  assert (Etr : traded_in (w_md (d_world (flushMarketDataCaches d2))) = traded_in (w_md (d_world d)) + zsum (map ts_qty summaries)).
  { rewrite flush_traded, Em, publish_summaries_traded. cbn. by rewrite Q5, P10. }
  split; [|destruct Q5' as (l' & El')|done].
  - exists (order_at w2 x), reason. rewrite Etr, F6, Ealloc. unfold findOrder in *. cbn. rewrite Eb. fold n.
    rewrite P5 in Q11. split; [exact Q11|]. split; [done|]. split; [intros Hr; specialize (Q8 Hr); lia|].
    intros Hr. destruct (Q7 Hr) as [-> E]. rewrite E, P8. split; [done|]. cbn. lia.
  - exists r, (l' ++ l). split; [|done]. rewrite F5, El, El', P11, <- !app_assoc. done.
Qed.

(** ** Amendments and cancellations *)

(** What a request's ids find is indexed by its number. *)
Lemma found_indexed w client_order_id order_id x :
  fine w -> find_for_request (w_book w) client_order_id order_id = Some x ->
  exists id, findOrder (w_book w) id = Some x.
Proof.
  intros Hf. unfold find_for_request, findOrderByClientOrderId, findOrderByOrderId. case_match; intros Hx.
  - apply (bi_client _ _ (fn_inv _ Hf)) in Hx as (id & Hid & _). by exists id.
  - apply (bi_order_id _ _ (fn_inv _ Hf)) in Hx as (id & Hid & _). by exists id.
Qed.

Record sane_modify d (msg : ModifyOrderMessage) : Prop := {
  sm_price : mod_new_price msg <> NULL_PRICE;
  sm_room : roomy (w_glob (d_world d));
  sm_fits : desk_fits d
}.

Record replaced d (msg : ModifyOrderMessage) (tag : Z) (id : Z) (x : ptr) d' : Prop := {
  rp_outcome : exists reason,
    (reason = OrdReject.NONE ->
       let o' := order_at (d_world d') x in
       o_price o' = mod_new_price msg /\ o_quantity o' = mod_new_qty msg
       /\ findOrder (w_book (d_world d')) id = (if o_leaves_quantity o' =? 0 then None else Some x)
       /\ traded_in (w_md (d_world d')) + o_leaves_quantity o'
          = traded_in (w_md (d_world d))
            + Z.max 0 (o_leaves_quantity (order_at (d_world d) x)
                       + (mod_new_qty msg - o_quantity (order_at (d_world d) x))))
    /\ (reason <> OrdReject.NONE ->
       let o' := order_at (d_world d') x in
       relabelled (order_at (d_world d) x) o' /\ o_request_tag o' = o_request_tag (order_at (d_world d) x)
       /\ o_status o' = OrderStatus.PENDING_REPLACE
       /\ ob_l3 (w_book (d_world d')) = ob_l3 (w_book (d_world d))
       /\ findOrder (w_book (d_world d')) id = Some x
       /\ traded_in (w_md (d_world d')) = traded_in (w_md (d_world d)));
  rp_pending : exists r rest, w_responses (d_world d') = w_responses (d_world d) ++ r :: rest
    /\ r_order_status r = OrderStatus.PENDING_REPLACE /\ r_request_tag r = tag /\ r_order_num r = id;
  rp_flushed : deltas (w_book (d_world d')) = []
}.

Lemma relabel_handled d x o :
  desk_ok d -> relabelled (order_at (d_world d) x) o -> handled d (d <| d_world ::= fun w => set_order w x o |>).
Proof.
  intros Hd Hr.
  refine (world_handled d (set_order (d_world d) x o) Hd (fine_relabel _ _ _ Hr (dk_fine _ Hd)) (dk_ids _ Hd) _ eq_refl _ _).
  - by apply level_step_quiet.
  - exists []. by rewrite app_nil_r.
  - done.
Qed.

Lemma modify_order d request msg :
  desk_ok d -> sane_modify d msg ->
  exists d', handleModifyOrderRequest d request msg = Some d' /\ handled d d'
    /\ match find_for_request (w_book (d_world d)) (mod_client_order_id msg) (mod_order_id msg) with
       | None => refused d d' OrdReject.UNKNOWN_ORDER (req_request_tag request)
       | Some x => exists id, findOrder (w_book (d_world d)) id = Some x
                     /\ replaced d msg (req_request_tag request) id x d'
       end.
Proof.
  intros Hd [S1 S2 S3]. unfold handleModifyOrderRequest.
  destruct (find_for_request _ _ _) as [x|] eqn:Hfind.
  2: { eexists. split; [done|]. pose proof (reject_modify_refused d request msg OrdReject.UNKNOWN_ORDER) as Hr.
       split; [by eapply refused_handled|done]. }
  destruct (found_indexed _ _ _ _ (dk_fine _ Hd) Hfind) as (id & Hx). cbn [get_current_time_ns].
  set (w0 := (d_world d) <| w_glob ::= _ |>). set (o := order_at w0 x). set (now := env_clock _).
  set (w1 := set_order w0 x _).
  assert (Eo : order_at w1 x = o <| o_status := OrderStatus.PENDING_REPLACE |> <| o_last_update_time := now |>
                                 <| o_request_tag := req_request_tag request |>).
  { unfold w1. rewrite set_order_at. by rewrite decide_True. }
  destruct (indexed_balanced (d_world d) id x (dk_fine _ Hd) Hx) as (_ & _ & Hside & Eid).
  change (order_at (d_world d) x) with o in Eid, Hside.
  set (w := sendOrderReplacePending w1 (order_at w1 x) (req_time_stamp request)).
  assert (Hf : fine w).
  { apply (fine_same w1); [done|]. apply fine_relabel; [done|]. by apply (fine_same (d_world d)), Hd. }
  assert (Hpend : exists r, w_responses w = w_responses (d_world d) ++ [r]
    /\ r_order_status r = OrderStatus.PENDING_REPLACE /\ r_request_tag r = req_request_tag request /\ r_order_num r = id).
  { unfold w. rewrite Eo. eexists. split; [done|]. by rewrite <- Eid. }
  destruct Hpend as (r & P11 & P12 & P13 & P14).
  destruct (dk_engine _ Hd) as (engine & He & Hok).
  destruct (symbol_modify (d_symbol d) engine w id x (mod_new_price msg) (mod_new_qty msg) (req_time_stamp request)
    He Hok Hf S2 Hx) as (reason & summaries & w2 & -> & [Q1 Q2 Q3 Q4 Q5 Q6 Q7 Q8 Q9]); [|done| |].
  { change (order_at w x) with (order_at w1 x). by rewrite Eo. }
  { change (ob_l3 (w_book w)) with (ob_l3 (w_book (d_world d))). change (order_at w x) with (order_at w1 x).
    rewrite Eo. apply S3; [by apply opposite_book_side|by split]. }
  change (order_at w x) with (order_at w1 x) in Q8, Q9. rewrite Eo in Q8, Q9.
  set (d1 := d <| d_world := w2 |>).
  assert (H1 : handled d d1).
  { apply world_handled; try done.
    - eapply (ids_drawn_after (d_world d) w2 (g_next_order_id (w_glob w2) - 1)); [|apply Hd|lia|destruct Q3 as [-> _]; done].
      intros i Hi. right. exact (Q4 i Hi).
    - etrans; [|exact Q6]. by exists [r].
    - destruct Q3 as [-> _]. done. }
  pose proof (summaries_handled d1 summaries (hd_ok _ _ H1)) as H2.
  destruct (publish_summaries_frame d1 summaries) as (E1 & _ & E3).
  destruct Q6 as (l' & El'). destruct (bool_decide_reflect (reason = OrdReject.NONE)) as [Hr|Hr].
  - rewrite bool_decide_eq_false_2 by (intros Hn; by apply Hn). set (d2 := publishTradeSummaries d1 summaries) in *.
    destruct (finish_handled d d1 d2 summaries H1 ltac:(by left)) as [H3 H4].
    destruct (flush_frame d2) as (_ & _ & _ & _ & F5 & F6).
    exists (flushMarketDataCaches d2). split; [done|]. split; [done|]. exists id. split; [exact Hx|]. split; [|exists r, l'|done].
    + exists reason. split; [intros _|done]. destruct (Q9 Hr) as (A1 & A2 & A3 & A4). cbv zeta.
      assert (Eat : order_at (d_world (flushMarketDataCaches d2)) x = order_at w2 x) by (unfold order_at; by rewrite F6, E1).
      pose proof (publish_summaries_traded d1 summaries) as Et. fold d2 in Et.
      rewrite Eat, F6, flush_traded, Et. unfold findOrder in *. cbn. rewrite E1, Q5.
      split; [exact A2|]. split; [exact A3|]. split; [exact A4|].
      change (w_md w) with (w_md (d_world d)). change (order_at (d_world d) x) with o. cbn in A1. lia.
    + rewrite F5, E3. cbn. rewrite El', P11, <- app_assoc. done.
  - rewrite bool_decide_eq_true_2 by done.
    destruct (Q8 Hr) as (-> & A2 & A3 & A4 & A5).
    set (o2 := (order_at w2 x) <| o_request_tag := o_request_tag o |>).
    set (d2 := d1 <| d_world ::= fun w => set_order w x o2 |>).
    pose proof (relabel_handled d1 x o2 (hd_ok _ _ H1) ltac:(done)) as H2'. fold d2 in H2'.
    pose proof (reject_modify_refused d2 request msg reason) as Hrf. set (d3 := desk_reject d2 _) in *.
    destruct (finish_handled d d2 d3 [] ltac:(by etrans) ltac:(right; by do 2 eexists)) as [H3 H4].
    destruct (flush_frame d3) as (_ & _ & _ & _ & F5 & F6).
    exists (flushMarketDataCaches d3). split; [done|]. split; [done|]. exists id. split; [exact Hx|].
    split; [|exists r|done].
    + exists reason. split; [done|intros _]. cbv zeta.
      assert (Eat : order_at (d_world (flushMarketDataCaches d3)) x = o2).
      { unfold order_at. rewrite F6. change (order_at (set_order w2 x o2) x = o2). rewrite set_order_at. by rewrite decide_True. }
      rewrite Eat, F6, flush_traded. unfold findOrder in *.
      split; [exact A4|]. split; [done|]. split; [exact A5|]. split; [exact A2|].
      split; [change (ob_orders (w_book w2) !! id = Some x); by rewrite A3|]. change (traded_in (w_md w2) = traded_in (w_md (d_world d))). by rewrite Q5.
    + destruct (rf_response _ _ _ _ Hrf) as (r' & R' & _). exists (l' ++ [r']). rewrite F5, R'.
      change (w_responses (d_world d2)) with (w_responses w2). rewrite El', P11, <- !app_assoc. done.
Qed.

Record cancelled_by d (tag : Z) (id : Z) (x : ptr) d' : Prop := {
  cb_gone : ob_orders (w_book (d_world d')) = delete id (ob_orders (w_book (d_world d)));
  cb_side : side_becomes (ob_l3 (w_book (d_world d))) (ob_l3 (w_book (d_world d'))) (o_side (order_at (d_world d) x))
    (levels_set_qty id 0 (getLevelsL3 (ob_l3 (w_book (d_world d))) (o_side (order_at (d_world d) x))));
  cb_others : forall y, y <> x -> order_at (d_world d') y = order_at (d_world d) y;
  cb_responses : exists r1 r2, w_responses (d_world d') = w_responses (d_world d) ++ [r1; r2]
    /\ r_order_status r1 = OrderStatus.PENDING_CANCEL /\ r_request_tag r1 = tag /\ r_order_num r1 = id
    /\ report_of r2 = RepOther id ExecType.CANCELED;
  cb_flushed : deltas (w_book (d_world d')) = []
}.

Lemma cancel_order d request msg :
  desk_ok d ->
  let d' := handleCancelOrderRequest d request msg in
  handled d d'
  /\ match find_for_request (w_book (d_world d)) (cxl_client_order_id msg) (cxl_order_id msg) with
     | None => refused d d' OrdReject.UNKNOWN_ORDER (req_request_tag request)
     | Some x => exists id, findOrder (w_book (d_world d)) id = Some x
                   /\ cancelled_by d (req_request_tag request) id x d'
     end.
Proof.
  intros Hd d'. unfold d', handleCancelOrderRequest. clear d'.
  destruct (find_for_request _ _ _) as [x|] eqn:Hfind.
  2: { pose proof (reject_cancel_refused d request msg OrdReject.UNKNOWN_ORDER) as Hr.
       split; [by eapply refused_handled|done]. }
  destruct (found_indexed _ _ _ _ (dk_fine _ Hd) Hfind) as (id & Hx).
  set (o := order_at (d_world d) x). set (w1 := set_order (d_world d) x _).
  assert (Eo : forall y, order_at w1 y = if decide (y = x) then o <| o_status := OrderStatus.PENDING_CANCEL |>
                                 <| o_request_tag := req_request_tag request |> else order_at (d_world d) y)
    by exact (set_order_at (d_world d) x _).
  pose proof (Eo x) as Ex. rewrite decide_True in Ex by done.
  destruct (indexed_balanced (d_world d) id x (dk_fine _ Hd) Hx) as (_ & _ & _ & Eid). fold o in Eid.
  set (w := sendOrderCancelPending w1 (order_at w1 x) (req_time_stamp request)).
  assert (Hf : fine w) by (apply (fine_same w1); [done|]; apply fine_relabel; [done|apply Hd]).
  assert (Hpend : exists r, w_responses w = w_responses (d_world d) ++ [r]
    /\ r_order_status r = OrderStatus.PENDING_CANCEL /\ r_request_tag r = req_request_tag request /\ r_order_num r = id).
  { unfold w. rewrite Ex. eexists. split; [done|]. by rewrite <- Eid. }
  destruct Hpend as (r & P11 & P12 & P13 & P14).
  destruct (symbol_cancel w id x (req_time_stamp request) Hf Hx) as [Q1 Q2 Q3 Q4 Q5 Q6 Q7 Q8 Q9].
  set (w2 := symbol_cancelOrder w x (req_time_stamp request)) in *.
  change (order_at w x) with (order_at w1 x) in Q5. rewrite Ex in Q5.
  set (d1 := d <| d_world := w2 |>). destruct Q3 as (Q3 & _). destruct Q9 as (l & El & Er).
  assert (H1 : handled d d1).
  { apply world_handled; try done.
    - eapply (ids_drawn_after (d_world d) w2 (g_next_order_id (w_glob w2) - 1)); [|apply Hd|lia|by rewrite Q3].
      intros i Hi. right. exact (Q6 i Hi).
    - exists ([r] ++ l). rewrite El, P11, <- app_assoc. done. }
  destruct (flush_frame d1) as (_ & _ & _ & _ & F5 & F6).
  split; [etrans; [exact H1|]; apply flush_handled, H1|]. exists id. split; [exact Hx|].
  split; rewrite ?F6; try done.
  - intros y Hy. unfold order_at at 1. rewrite F6. change (order_at w2 y = order_at (d_world d) y).
    rewrite Q7 by done. change (order_at w y) with (order_at w1 y). rewrite Eo. by rewrite decide_False.
  - rewrite F5. destruct l as [|r2 [|]]; [done| |done]. injection Er as Er. exists r, r2.
    change (w_responses (d_world d1)) with (w_responses w2). rewrite El, P11, <- app_assoc. done.
Qed.

(** ** The handlers *)



(** C18. A cancellation of an order nobody knows is refused with one rejection and nothing
    else moves. Otherwise exactly that order leaves the book, no other order changes, and the
    two responses report it pending cancel and cancelled. *)
Theorem handleCancelOrderRequest_removes d request msg :
  desk_ok d ->
  let d' := handleCancelOrderRequest d request msg in
  handled d d'
  /\ match find_for_request (w_book (d_world d)) (cxl_client_order_id msg) (cxl_order_id msg) with
     | None => refused d d' OrdReject.UNKNOWN_ORDER (req_request_tag request)
     | Some x => exists id, findOrder (w_book (d_world d)) id = Some x
                   /\ cancelled_by d (req_request_tag request) id x d'
     end.
Proof. apply cancel_order. Qed.
End Requests.

(** ** Witnesses *)

(** A buyer who crosses both offers at 100 and rests the remainder. *)
Lemma sample_sane_add : sane_add sample_desk (sample_add (assign 37 (str "o1")) 100 20).
Proof.
  split.
  - by left.
  - done.
  - vm_compute. lia.
  - vm_compute. reflexivity.
  - vm_compute. repeat split; congruence.
  - vm_compute. repeat split; congruence.
  - exact sample_desk_fits.
Qed.



Lemma handleCancelOrderRequest_removes_witness :
  let msg := mkCancelOrder client_name (uuid_name 0) (clear 37) in let request := sample_request (ReqCancel msg) in
  handled sample_desk (handleCancelOrderRequest sample_desk request msg)
  /\ exists id, findOrder (w_book (d_world sample_desk)) id = Some 0
       /\ cancelled_by sample_desk 42 id 0 (handleCancelOrderRequest sample_desk request msg).
Proof. intros msg request. exact (handleCancelOrderRequest_removes sample_desk request msg sample_desk_ok). Defined.
