(* ===== verification/VenueProofs.v ===== *)
(** * The venue's own members

    Client identities, the engine every instrument is bound to, and the split of the tape a
    trade subscriber is sent. *)

From S2P Require Import Prelude Types FixedString RingBuffer Orders Messages MarketData.
From S2P Require Import L3Interface L3Lemmas L3Reference OrderBook OrderBookInv Concrete.
From S2P Require Import MatchCommon FifoEngine ProRata Allocation MatchingConfig MatchContract.
From S2P Require Import Symbol SymbolProofs SymbolManager Exchange DeskState ExchangeProofs.

(** ** Client identities *)

(** What an identity stands for: the first 36 characters of the user's name. *)
Definition user_key (user_id : bytes) : bytes := take 36 (view user_id).

Lemma stored_user_key user : string_key (assign 37 (view user)) = user_key user.
Proof. unfold string_key, user_key. by rewrite assign_view by (lia || apply view_nul_free). Qed.

Record clients_ok (e : Exchange) : Prop := {
  cl_range : forall k i, ex_client_ids e !! k = Some i -> 0 <= i < ex_next_client_id e;
  cl_inj : forall k k' i, ex_client_ids e !! k = Some i -> ex_client_ids e !! k' = Some i -> k = k';
  cl_keys : forall k i, ex_client_ids e !! k = Some i -> (List.length k <= 36)%nat;
  cl_next : 0 <= ex_next_client_id e
}.

(** The map after a call, and the identity it gave. *)
Lemma clientIdFor_spec e user :
  clients_ok e -> view user <> [] ->
  let '(i, e') := clientIdFor e user in
  clients_ok e' /\ ex_client_ids e' !! user_key user = Some i
  /\ (forall k, ex_client_ids e' !! k = if bool_decide (k = user_key user) then Some i else ex_client_ids e !! k).
Proof.
  intros [R I K N] Hne. unfold clientIdFor. destruct (view user) as [|c rest] eqn:Ev; [done|].
  pose proof (stored_user_key user) as Ek.
  rewrite <- Ev. destruct (ex_client_ids e !! view user) as [i|] eqn:E1.
  - assert (Eu : view user = user_key user) by (unfold user_key; rewrite take_ge; [done|by eapply K]).
    rewrite <- Eu. split; [by split|]. split; [done|]. intros k. case_bool_decide; by subst.
  - rewrite Ek. destruct (ex_client_ids e !! user_key user) as [i|] eqn:E2.
    + replace (ex_client_ids (e <| ex_next_client_id ::= fun n => n + 1 |>)) with (ex_client_ids e) by done. rewrite E2.
      split; [|split; [done|]].
      * split; cbn; [|done|done|lia]. intros k j Hk. specialize (R k j Hk). lia.
      * intros k. case_bool_decide; by subst.
    + replace (ex_client_ids (e <| ex_next_client_id ::= fun n => n + 1 |>)) with (ex_client_ids e) by done. rewrite E2.
      split; [|split].
      * split; cbn; [| | |lia].
        -- intros k j. rewrite lookup_insert. case_decide; [intros [= <-]; lia|]. intros Hk. specialize (R k j Hk). lia.
        -- intros k k' j. rewrite !lookup_insert. repeat case_decide; try congruence; intros H1 H2.
           ++ injection H1 as <-. specialize (R _ _ H2). lia.
           ++ injection H2 as <-. specialize (R _ _ H1). lia.
           ++ by eapply I.
        -- intros k j. rewrite lookup_insert. case_decide; [intros _; subst k|by apply K].
           unfold user_key. rewrite length_take. lia.
      * cbn. by rewrite lookup_insert_eq.
      * intros k. cbn. rewrite lookup_insert. case_decide as Hk; [subst; by rewrite bool_decide_eq_true_2|].
        rewrite bool_decide_eq_false_2; [done|congruence].
Qed.

(** A known name is found again. *)
Lemma clientIdFor_known e user i :
  clients_ok e -> view user <> [] -> ex_client_ids e !! user_key user = Some i -> fst (clientIdFor e user) = i.
Proof.
  intros Hok Hne Hi. pose proof (clientIdFor_spec e user Hok Hne) as H. unfold clientIdFor in *.
  destruct (view user) as [|c rest] eqn:Ev; [done|]. rewrite <- Ev.
  rewrite <- Ev in H. destruct (ex_client_ids e !! view user) as [j|] eqn:E1.
  - cbn. destruct H as (_ & H & _). congruence.
  - rewrite stored_user_key. cbn. by rewrite Hi.
Qed.

Lemma clientIdFor_anonymous e user : view user = [] -> clientIdFor e user = (-1, e).
Proof. unfold clientIdFor. by intros ->. Qed.

Lemma clientIdFor_ok e user : clients_ok e -> clients_ok (snd (clientIdFor e user)).
Proof.
  intros Hok. destruct (decide (view user = [])) as [Hu|Hu]; [by rewrite clientIdFor_anonymous|].
  pose proof (clientIdFor_spec e user Hok Hu) as H. destruct (clientIdFor e user). apply H.
Qed.

(** Identities handed out stay in the map. *)
Lemma clientIdFor_keeps e user k i :
  clients_ok e -> ex_client_ids e !! k = Some i -> ex_client_ids (snd (clientIdFor e user)) !! k = Some i.
Proof.
  intros Hok Hk. destruct (decide (view user = [])) as [Hu|Hu]; [by rewrite clientIdFor_anonymous|].
  pose proof (clientIdFor_spec e user Hok Hu) as H. destruct (clientIdFor e user) as [j e'] eqn:E. cbn.
  destruct H as (_ & H1 & H2). rewrite H2. case_bool_decide as Hkey; [|done]. subst k.
  pose proof (clientIdFor_known e user i Hok Hu Hk) as H3. rewrite E in H3. by rewrite <- H3.
Qed.

(** Self-match prevention can rely on the client identities: no name gets -1, which no
    name is ever given; a name keeps its identity through later calls; and two names get the
    same one exactly when they agree on the 36 characters that are kept. *)
Lemma clientIdFor_identifies e user user' :
  clients_ok e ->
  let '(i, e') := clientIdFor e user in
  let '(j, e'') := clientIdFor e' user' in
  clients_ok e''
  /\ (view user = [] -> i = -1) /\ (view user <> [] -> 0 <= i /\ fst (clientIdFor e'' user) = i)
  /\ (view user <> [] -> view user' <> [] -> (i = j <-> user_key user = user_key user')).
Proof.
  intros Hok. pose proof (clientIdFor_ok e user Hok) as Hok'. pose proof (clientIdFor_spec e user Hok) as H1.
  pose proof (clientIdFor_anonymous e user) as Ha. destruct (clientIdFor e user) as [i e']. cbn [snd] in Hok'.
  pose proof (clientIdFor_ok e' user' Hok') as Hok''. pose proof (clientIdFor_spec e' user' Hok') as H2.
  pose proof (fun Hu => clientIdFor_keeps e' user' _ i Hok' (proj1 (proj2 (H1 Hu)))) as Hkeep.
  destruct (clientIdFor e' user') as [j e'']. cbn [snd] in *.
  split; [done|]. split; [intros Hu; by injection (Ha Hu)|]. split.
  - intros Hu. split; [by apply (cl_range _ Hok'' _ _ (Hkeep Hu))|]. by apply clientIdFor_known, Hkeep.
  - intros Hu Hu'. destruct (H2 Hu') as (_ & L2 & _). specialize (Hkeep Hu). split.
    + intros ->. by eapply (cl_inj _ Hok'').
    + intros Hk. rewrite Hk in Hkeep. congruence.
Qed.

Lemma clientIdFor_identifies_witness :
  let '(i, e') := clientIdFor sample_exchange (str "alice") in
  let '(j, e'') := clientIdFor e' (str "bob") in
  0 <= i /\ fst (clientIdFor e'' (str "alice")) = i /\ (i = j <-> user_key (str "alice") = user_key (str "bob")).
Proof.
  assert (Hok : clients_ok sample_exchange).
  { split; try done; intros k; cbn [sample_exchange ex_client_ids]; by rewrite lookup_empty. }
  pose proof (clientIdFor_identifies sample_exchange (str "alice") (str "bob") Hok) as H.
  destruct (clientIdFor sample_exchange (str "alice")) as [i e']. destruct (clientIdFor e' (str "bob")) as [j e''].
  destruct H as (_ & _ & H1 & H2). destruct (H1 ltac:(vm_compute; congruence)) as [H3 H4].
  split; [exact H3|]. split; [exact H4|]. apply H2; vm_compute; congruence.
Defined.

(** ** The engine of every instrument *)



(** ** The tape a trade subscriber is sent *)

Lemma history_pass_filter history keep :
  ring_wf history ->
  history_pass history (rb_size history) keep = List.filter keep (contents history).
Proof.
  intros Hwf. unfold history_pass, contents. induction (seq 0 (Z.to_nat (rb_size history))) as [|i l IH]; [done|].
  cbn [omap list_omap] in *. destruct (ring_at history (Z.of_nat i)) as [t|]; [|exact IH].
  cbn [List.filter]. destruct (keep t); [by f_equal|exact IH].
Qed.

Section Tape.
Context {L3 Pool : Type} {l3ops : L3Ops L3} {poolops : ObjectPool Pool} {env : Environment}.

(** The response to a trade subscription carries the whole tape kept, split in two
    blocks: first the trades the book already reflects, then the others, each in the order
    they happened and with its length announced, and nothing else happens. *)
Lemma publishTradeSubscriptionResponse_splits (d : Desk L3 Pool) channel :
  let history := sym_trade_history (d_symbol d) in
  let seen := reflected_in_book (ob_last_update_time (w_book (d_world d))) in
  ring_wf history -> rb_size history < 2 ^ 32 ->
  exists snapshot,
    publishTradeSubscriptionResponse d channel
    = d <| d_world ::= fun w => w <| w_md ::= fun md => md ++ [mkMDUpdate (sym_symbol (d_symbol d)) (venue_of d) SUB_RESPONSE
                                                               (PSubTrades channel MDReject.NONE snapshot)] |> |>
    /\ tsr_trades snapshot = List.filter seen (contents history) ++ List.filter (fun t => negb (seen t)) (contents history)
    /\ tsr_num_snapshot snapshot = Z.of_nat (List.length (List.filter seen (contents history)))
    /\ tsr_num_snapshot snapshot + tsr_num_update snapshot = rb_size history
    /\ tsr_trades snapshot ≡ₚ contents history.
Proof.
  intros history seen Hwf Hsize. unfold publishTradeSubscriptionResponse. fold history seen.
  pose proof (size_range history) as Hr. rewrite (wrap_small 32 (rb_size history)) by lia.
  rewrite !history_pass_filter by done. set (a := List.filter seen _). set (b := List.filter _ _).
  assert (Hp : a ++ b ≡ₚ contents history).
  { subst a b. induction (contents history) as [|t l IH]; [done|]. cbn [List.filter]. destruct (seen t); cbn [negb].
    - by constructor.
    - by rewrite <- Permutation_middle, IH. }
  assert (Hlen : (List.length a + List.length b)%nat = List.length (contents history)).
  { rewrite <- length_app. by apply Permutation_length. }
  pose proof (contents_length history Hwf) as Hc.
  eexists. split; [reflexivity|]. cbn [tsr_trades tsr_num_snapshot tsr_num_update].
  split; [done|]. rewrite !wrap_small by lia. split; [done|]. split; [lia|exact Hp].
Qed.
End Tape.

(** Two trades of the sample instrument, one of them a print its book never saw. *)
Definition sample_tape : RingBuffer MDTrade :=
  push (push (new_ring 4 (repeat (mkMDTrade 0 0 0 0 0 F_NONE BUY) 4)) (mkMDTrade 1 9 0 100 5 F_NOT_IN_BOOK BUY))
    (mkMDTrade 2 9 0 100 5 F_NONE BUY).

Definition tape_desk : Desk RefBook Z :=
  sample_desk <| d_symbol := sample_symbol <| sym_trade_history := sample_tape |> |>.

Lemma sample_tape_wf : ring_wf sample_tape.
Proof.
  unfold sample_tape. destruct (new_ring_wf 4 (repeat (mkMDTrade 0 0 0 0 0 F_NONE BUY) 4)) as (H1 & H2 & _).
  { exists 2. split; [lia|done]. } { done. }
  destruct (push_contents _ (mkMDTrade 1 9 0 100 5 F_NOT_IN_BOOK BUY) H1 ltac:(done)) as (H3 & H4 & _).
  by destruct (push_contents _ (mkMDTrade 2 9 0 100 5 F_NONE BUY) H3 H4) as (H5 & _).
Qed.

Lemma publishTradeSubscriptionResponse_splits_witness :
  exists snapshot, tsr_trades snapshot = [mkMDTrade 2 9 0 100 5 F_NONE BUY; mkMDTrade 1 9 0 100 5 F_NOT_IN_BOOK BUY]
    /\ tsr_num_snapshot snapshot = 1 /\ tsr_num_snapshot snapshot + tsr_num_update snapshot = 2.
Proof.
  destruct (publishTradeSubscriptionResponse_splits tape_desk 3 sample_tape_wf ltac:(vm_compute; reflexivity))
    as (snapshot & _ & H1 & H2 & H3 & _).
  exists snapshot. split; [rewrite H1; vm_compute; reflexivity|]. split; [rewrite H2; vm_compute; reflexivity|].
  rewrite H3. vm_compute. reflexivity.
Defined.
