(* ===== verification/MarketProofs.v ===== *)
(** * Market events and the mirror of the venue's book

    [restMarketOrder], [applyMarketOrder] and [replayMarketTrade] trade what crosses with
    the book before anything rests; [reconcilePhantomQty] brings the phantom liquidity at a
    price to what the venue shows, less what simulated trades took since. *)

From S2P Require Import Prelude Types FixedString RingBuffer Orders Messages MarketData.
From S2P Require Import L3Interface L3Lemmas OrderBook OrderBookInv OrderBookOps.
From S2P Require Import Sweep MatchCommon MatchLemmas FifoEngine FifoProofs FifoOrders.
From S2P Require Import ProRata Allocation ProRataSweep ProRataProofs MatchingConfig MatchContract.
From S2P Require Import BookState Symbol SymbolProofs SymbolManager Exchange DeskState.
From S2P Require Import L3Reference Concrete ExchangeProofs.

Section Market.
Context {L3 Pool : Type} {l3ops : L3Ops L3} {laws : L3Laws L3} {poolops : ObjectPool Pool}
  {poollaws : PoolLaws Pool} {env : Environment}.
Abbreviation World := (World L3 Pool).
Abbreviation Desk := (Desk L3 Pool).
Implicit Types w : World.
Implicit Types d : Desk.

(** ** Market data through the engine *)

Lemma fed_fine w aggr qty seq summaries left w' :
  fine w -> feed_outcome w aggr qty seq summaries left w' -> fine w'.
Proof.
  intros [H1 H2 H3 H4] Hm. split.
  - apply Hm.
  - intros s Hs. apply (fo_priced _ _ _ _ _ _ _ Hm); [done|by apply H2].
  - intros id y Hy. pose proof (lookup_weaken _ _ _ _ Hy (st_orders _ _ (fo_stepped _ _ _ _ _ _ _ Hm))) as Hy0.
    destruct (st_live _ _ (fo_stepped _ _ _ _ _ _ _ Hm) y (H3 id y Hy0)) as [|(id' & Hid' & Hn)]; [done|].
    assert (id' = id) as -> by (by apply (own_unique None (w_book w) id' id y)). congruence.
  - intros id y Hy. pose proof (lookup_weaken _ _ _ _ Hy (st_orders _ _ (fo_stepped _ _ _ _ _ _ _ Hm))) as Hy0.
    destruct (fo_orders _ _ _ _ _ _ _ Hm y) as (_ & _ & -> & ->). by eapply H4.
Qed.

(** A world in which the engine has traded for the venue. *)
Lemma feed_world_handled d w aggr qty seq summaries left w' :
  desk_ok d -> fine w -> w_book w = w_book (d_world d) -> w_md w = w_md (d_world d) ->
  w_responses w = w_responses (d_world d) ->
  g_next_order_id (w_glob (d_world d)) <= g_next_order_id (w_glob w) ->
  feed_outcome w aggr qty seq summaries left w' -> handled d (d <| d_world := w' |>).
Proof.
  intros Hd Hf Eb Em Er Hg Hm.
  pose proof (st_counters _ _ (fo_stepped _ _ _ _ _ _ _ Hm)) as (_ & Hn & _). apply world_handled; try done.
  - by eapply fed_fine.
  - intros i Hi. apply (fo_ids _ _ _ _ _ _ _ Hm) in Hi. rewrite Eb in Hi. pose proof (dk_ids _ Hd i Hi). lia.
  - rewrite <- Eb. apply Hm.
  - by rewrite (fo_md _ _ _ _ _ _ _ Hm).
  - destruct (fo_heard _ _ _ _ _ _ _ Hm) as (l & El). exists l. by rewrite El, Er.
  - lia.
Qed.

Lemma feed_handled d w aggr qty summaries left w' :
  desk_ok d -> fine w -> w_book w = w_book (d_world d) -> w_md w = w_md (d_world d) ->
  w_responses w = w_responses (d_world d) ->
  g_next_order_id (w_glob (d_world d)) <= g_next_order_id (w_glob w) ->
  feed_outcome w aggr qty 0 summaries left w' ->
  let d1 := publishTradeSummaries (d <| d_world := w' |>) summaries in
  handled d d1 /\ w_book (d_world d1) = w_book w' /\ w_glob (d_world d1) = w_glob w'
  /\ traded_in (w_md (d_world d1)) + left = traded_in (w_md (d_world d)) + qty.
Proof.
  intros Hd Hf Eb Em Er Hg Hm d1. set (d0 := d <| d_world := w' |>) in *.
  assert (H0 : handled d d0) by by eapply feed_world_handled.
  split; [etrans; [exact H0|apply summaries_handled, H0]|].
  destruct (publish_summaries_frame d0 summaries) as (E1 & E2 & _). split; [exact E1|]. split; [exact E2|].
  unfold d1. rewrite publish_summaries_traded. cbn [d0 d_world upd]. rewrite (fo_md _ _ _ _ _ _ _ Hm), Em.
  pose proof (fo_traded _ _ _ _ _ _ _ Hm). lia.
Qed.

Lemma engine_feeds d w aggr id price qty ts seq :
  seq_accepted (ob_l3 (w_book w)) seq = true -> desk_ok d -> desk_fits d -> fine w -> w_book w = w_book (d_world d) -> ids_in_width (w_glob w) ->
  book_side aggr -> 0 <= qty ->
  exists engine summaries left w', sym_matching_engine (d_symbol d) = Some engine
    /\ engine_match_feed engine w aggr id price qty ts seq = Some (summaries, left, w')
    /\ feed_outcome w aggr qty seq summaries left w'.
Proof.
  intros Hseq Hd Hfits Hf Eb Ht Haggr Hq. destruct (dk_engine _ Hd) as (engine & He & Hok).
  pose proof (engine_feed_contract engine Hok) as Hengine.
  destruct (feed_contract w aggr id price qty ts seq Haggr (fn_inv _ Hf) Hseq Ht) as (summaries & left & w' & H1 & H2).
  - by apply (fn_priced _ Hf), opposite_book_side.
  - done.
  - rewrite Eb. apply Hfits; [by apply opposite_book_side|by split].
  - by exists engine, summaries, left, w'.
Qed.

(** ** Orders of the venue *)

Record sane_market d (event : MarketOrderEvent) : Prop := {
  sk_side : book_side (moe_side event);
  sk_price : moe_price event <> NULL_PRICE;
  sk_qty : 0 <= moe_qty event;
  sk_priority : moe_book_priority event <> 0;
  sk_drawn : moe_book_order_id event < g_next_order_id (w_glob (d_world d));
  sk_ranked : forall resting, l3_findOrder (ob_l3 (w_book (d_world d))) (moe_book_order_id event) = Some resting ->
    l3_priority resting <> 0;
  sk_phantom : findOrder (w_book (d_world d)) (moe_book_order_id event) = None;
  sk_trade_id : ids_in_width (w_glob (d_world d));
  sk_fits : desk_fits d
}.

(** What a venue's order comes to: it trades what crosses, and the rest is in the book. *)
Definition rested d (event : MarketOrderEvent) d' : Prop := exists left,
  0 <= left
  /\ traded_in (w_md (d_world d')) + left = traded_in (w_md (d_world d)) + moe_qty event
  /\ if 0 <? left
     then (moe_price event, mkL3Order (moe_book_order_id event) left (moe_book_priority event))
            ∈ queue (d_world d') (moe_side event)
     else moe_book_order_id event ∉ book_ids (ob_l3 (w_book (d_world d'))).

Lemma desk_book_handled d b :
  desk_ok d -> fine ((d_world d) <| w_book := b |>) -> level_step (w_book (d_world d)) b ->
  (forall i, i ∈ book_ids (ob_l3 b) -> i < g_next_order_id (w_glob (d_world d))) ->
  handled d (d <| d_world ::= fun w => w <| w_book := b |> |>).
Proof.
  intros Hd Hf Hl Hi. refine (world_handled d ((d_world d) <| w_book := b |>) Hd Hf Hi Hl eq_refl _ _).
  - exists []. by rewrite app_nil_r.
  - done.
Qed.

Lemma rest_market d event :
  desk_ok d -> sane_market d event -> moe_book_order_id event ∉ book_ids (ob_l3 (w_book (d_world d))) ->
  exists d', restMarketOrder d event = Some d' /\ handled d d' /\ rested d event d'.
Proof.
  intros Hd [S1 S2 S3 S4 S5 _ S6 S7 S8] Hnin. unfold restMarketOrder.
  destruct (engine_feeds d (d_world d) (moe_side event) (moe_book_order_id event) (moe_price event) (moe_qty event)
    (moe_transact_time event) 0 eq_refl Hd S8 (dk_fine _ Hd) eq_refl S7 S1 S3) as (engine & summaries & left & w' & -> & -> & Hm).
  destruct (feed_handled d (d_world d) _ _ _ _ w' Hd (dk_fine _ Hd) eq_refl eq_refl eq_refl ltac:(done) Hm)
    as (H1 & E1 & E2 & Etr).
  set (d1 := publishTradeSummaries (d <| d_world := w' |>) summaries) in *.
  assert (Hnin' : moe_book_order_id event ∉ book_ids (ob_l3 (w_book (d_world d1)))).
  { rewrite E1. intros Hin. by apply Hnin, (fo_ids _ _ _ _ _ _ _ Hm). }
  pose proof (fo_left _ _ _ _ _ _ _ Hm) as Hl.
  eexists. split; [reflexivity|]. destruct (0 <? left) eqn:E; bool_to_prop.
  2: { split; [done|]. exists left. rewrite (proj2 (Z.ltb_ge 0 left)) by lia. done. }
  destruct (phantom_add (d_world d1) (moe_book_order_id event) (moe_side event) (moe_price event) left
    (moe_transact_time event) (moe_book_priority event) 0 true (dk_fine _ (hd_ok _ _ H1)) S1 eq_refl Hnin' E S4 S2)
    as (P1 & P2 & (P3 & _) & P4 & _ & P5).
  set (b := fst (l3_call _ _)) in *.
  assert (H2 : handled d1 (d1 <| d_world ::= fun w => w <| w_book := b |> |>)).
  { apply desk_book_handled; [apply H1|done|done|]. intros i Hi. destruct (P5 i Hi) as [->|Hi'].
    - pose proof (hd_numbers _ _ H1). lia.
    - by apply (dk_ids _ (hd_ok _ _ H1)). }
  change (handled d (d1 <| d_world ::= fun w => w <| w_book := b |> |>)
          /\ rested d event (d1 <| d_world ::= fun w => w <| w_book := b |> |>)).
  split; [by etrans|]. exists left. rewrite (proj2 (Z.ltb_lt 0 left)) by lia. split; [done|]. split; [exact Etr|].
  unfold queue. change (getLevelsL3 (ob_l3 (w_book (d_world (d1 <| d_world ::= fun w => w <| w_book := b |> |>)))) (moe_side event))
    with (getLevelsL3 (ob_l3 b) (moe_side event)). rewrite P3, flat_levels_insert. by apply elem_of_cons; left.
Qed.

Lemma mark_handled d : desk_ok d -> handled d (markMarketChanged d).
Proof.
  intros Hd. unfold markMarketChanged. case_bool_decide; [by apply handled_refl|].
  split; [|apply desk_step_exchange; [done|]|exists []; by rewrite app_nil_r|done].
  2: { cbn. intros j [Hj|Hj]%elem_of_app; [by left|right]. by apply list_elem_of_singleton in Hj. }
  by eapply desk_ok_same; [exact Hd|..].
Qed.

Lemma mark_changed d :
  d_pointer d ∈ ex_market_changed_symbols (d_exchange (markMarketChanged d))
  /\ d_world (markMarketChanged d) = d_world d.
Proof.
  unfold markMarketChanged. case_bool_decide as E; [done|]. split; [|done]. cbn. apply elem_of_app. right. by apply list_elem_of_singleton.
Qed.

(** The entry a modification leaves. *)
Lemma modified_entry s p e np q ls :
  NoDup (map flat_id (flat ls)) -> (p, e) ∈ flat ls -> 0 < q ->
  (np, mkL3Order (l3_order_id e) q (l3_priority e)) ∈ flat (modified_side s p e np q (l3_priority e) ls).
Proof.
  intros Hnd Hin Hq. unfold modified_side. rewrite (proj2 (Z.eqb_neq q 0)) by lia. rewrite Z.eqb_refl, andb_true_r.
  destruct (np =? p) eqn:E; bool_to_prop; [subst np|].
  - destruct (q =? l3_quantity e) eqn:E; bool_to_prop.
    + subst q. by destruct e.
    + rewrite flat_levels_set. change (mkL3Order (l3_order_id e) q (l3_priority e)) with (e <| l3_quantity := q |>).
      by apply flat_set_new; [| |lia].
  - rewrite flat_levels_insert. apply elem_of_cons; by left.
Qed.

(** [applyMarketOrder] on each action. *)
Definition market_applied d (event : MarketOrderEvent) d' : Prop :=
  match moe_action event with
  | ACTION_NEW => rested d event d'
  | ACTION_DELETE => moe_book_order_id event ∉ book_ids (ob_l3 (w_book (d_world d')))
  | ACTION_CHANGE =>
      match l3_findOrder (ob_l3 (w_book (d_world d))) (moe_book_order_id event) with
      | Some resting =>
          if moe_requeue event then rested d event d'
          else 0 < moe_qty event -> exists s, book_side s
            /\ (moe_price event, mkL3Order (moe_book_order_id event) (moe_qty event) (l3_priority resting))
                 ∈ queue (d_world d') s
      | None => rested d event d'
      end
  end.

Lemma sane_after_delete d event b :
  sane_market d event -> ob_orders b = ob_orders (w_book (d_world d)) -> book_ok (ob_l3 b) ->
  moe_book_order_id event ∉ book_ids (ob_l3 b) ->
  (forall e s, book_side s -> engine_of d e -> engine_fits e (getLevelsL3 (ob_l3 b) s)) ->
  sane_market (desk_book d (fun _ => b)) event.
Proof.
  intros [S1 S2 S3 S4 S5 S6 S7 S8 S9] Eo Hok Hnin Hfits. split; try done.
  - intros resting Hr. destruct (find_entry (ob_l3 b) _ _ Hok Hr) as (E & s & p & Hs & Hin). exfalso. apply Hnin.
    rewrite <- E. by eapply flat_in_book.
  - unfold findOrder in *. change (ob_orders b !! moe_book_order_id event = None). by rewrite Eo.
Qed.

(** Removing an order leaves an engine's queues as usable as they were. *)
Lemma levels_ok_set id ls : levels_ok ls -> levels_ok (levels_set_qty id 0 ls).
Proof.
  unfold levels_ok, levels_set_qty. intros Hl. apply Forall_forall. intros l (l0 & Hl0 & E)%list_elem_of_omap.
  rewrite Forall_forall in Hl. destruct (Hl l0 Hl0) as [Hpos Htot].
  assert (Hsub : queue_total (queue_set_qty id 0 (lv_orders l0)) <= queue_total (lv_orders l0)).
  { clear - Hpos. unfold queue_set_qty, queue_total. induction Hpos as [|o os Ho _ IH]; [done|]. cbn.
    destruct (l3_order_id o =? id); cbn in *; lia. }
  pose proof (queue_set_qty_pos id 0 _ ltac:(done) Hpos) as Hs1. unfold sizes_ok.
  destruct (queue_set_qty id 0 (lv_orders l0)) as [|o os]; [done|]. injection E as <-.
  split; [exact Hs1|]. cbn [lv_orders make_level]. lia.
Qed.

Lemma delete_fits d id ts :
  desk_ok d -> desk_fits d -> findOrder (w_book (d_world d)) id = None ->
  forall e s, book_side s -> engine_of d e ->
    engine_fits e (getLevelsL3 (ob_l3 (fst (deleteBookOrder (w_book (d_world d)) id ts 0 true))) s).
Proof.
  intros Hd Hfits Hn e s Hs He. destruct (phantom_delete (d_world d) id ts true (dk_fine _ Hd) Hn) as (_ & _ & _ & _ & _ & H).
  specialize (Hfits e s Hs He). destruct e as [|config]; [done|]. cbn in *. destruct (H s Hs) as [->| ->]; [done|].
  by apply levels_ok_set.
Qed.

Lemma apply_market d event :
  desk_ok d -> sane_market d event ->
  (moe_action event = ACTION_NEW -> moe_book_order_id event ∉ book_ids (ob_l3 (w_book (d_world d)))) ->
  exists d', applyMarketOrder d event = Some d' /\ handled d d' /\ market_applied d event d'
    /\ d_pointer d ∈ ex_market_changed_symbols (d_exchange d').
Proof.
  intros Hd Hs Hnew. pose proof (bi_l3 _ _ (fn_inv _ (dk_fine _ Hd))) as Hok.
  assert (Hmark : forall d1, handled d d1 ->
    exists d', (markMarketChanged <$> Some d1) = Some d' /\ handled d d' /\ d_world d' = d_world d1
      /\ d_pointer d ∈ ex_market_changed_symbols (d_exchange d')).
  { intros d1 H1. exists (markMarketChanged d1). split; [done|]. destruct (mark_changed d1) as [M1 M2].
    split; [etrans; [exact H1|apply mark_handled, H1]|]. split; [exact M2|]. by rewrite <- (dt_pointer _ _ (hd_step _ _ H1)). }
  assert (Hrest : forall d1, desk_ok d1 -> handled d d1 -> sane_market d1 event ->
    moe_book_order_id event ∉ book_ids (ob_l3 (w_book (d_world d1))) -> w_md (d_world d1) = w_md (d_world d) ->
    exists d', (markMarketChanged <$> restMarketOrder d1 event) = Some d' /\ handled d d' /\ rested d event d'
      /\ d_pointer d ∈ ex_market_changed_symbols (d_exchange d')).
  { intros d1 Hd1 H1 Hs1 Hnin Emd. destruct (rest_market d1 event Hd1 Hs1 Hnin) as (d2 & -> & R1 & R2).
    destruct (Hmark d2 ltac:(by etrans)) as (d' & M1 & M2 & M3 & M4). exists d'. split; [exact M1|]. split; [exact M2|].
    split; [|exact M4]. unfold rested, queue in *. by rewrite M3, <- Emd. }
  assert (Hdel : let b := fst (deleteBookOrder (w_book (d_world d)) (moe_book_order_id event) (moe_transact_time event) 0 true) in
    let d1 := desk_book d (fun _ => b) in
    handled d d1 /\ moe_book_order_id event ∉ book_ids (ob_l3 b) /\ sane_market d1 event).
  { intros b d1. destruct (phantom_delete (d_world d) _ (moe_transact_time event) true (dk_fine _ Hd) (sk_phantom _ _ Hs))
      as (D1 & D2 & D3 & D4 & D5 & _). fold b in D1, D2, D3, D4, D5.
    assert (H1 : handled d d1) by (apply desk_book_handled; try done; intros i Hi; by apply (dk_ids _ Hd), D5).
    split; [exact H1|]. split; [exact D3|].
    apply sane_after_delete; [done|exact D4|apply (bi_l3 _ _ (fn_inv _ (dk_fine _ (hd_ok _ _ H1))))|exact D3|].
    apply delete_fits; [done|apply Hs|apply Hs]. }
  destruct Hdel as (Hdel & Hnin & Hsane). unfold applyMarketOrder, market_applied.
  destruct (moe_action event).
  - by apply Hrest; [|apply handled_refl| |apply Hnew|].
  - destruct (l3_findOrder (ob_l3 (w_book (d_world d))) (moe_book_order_id event)) as [resting|] eqn:E.
    + destruct (moe_requeue event); cbn [negb]; [by apply Hrest; [apply Hdel| | | |]|].
      destruct (find_entry _ _ _ Hok E) as (Eid & s & p & Hsd & Hin).
      pose proof (sk_phantom _ _ Hs) as Hph. pose proof (sk_ranked _ _ Hs _ E) as Hrank. rewrite <- Eid in *.
      destruct (phantom_modify (d_world d) s p resting (moe_price event) (moe_qty event) (moe_transact_time event)
        (l3_priority resting) 0 true (dk_fine _ Hd) Hsd eq_refl Hin Hph (sk_qty _ _ Hs) Hrank (sk_price _ _ Hs))
        as (P1 & P2 & P3 & P4 & _ & P5). set (b := fst (modifyBookOrder _ _ _ _ _ _ _ _)) in *.
      assert (H1 : handled d (desk_book d (fun _ => b))).
      { apply desk_book_handled; try done. intros i Hi. by apply (dk_ids _ Hd), P5. }
      destruct (Hmark _ H1) as (d' & M1 & M2 & M3 & M4). exists d'. split; [exact M1|]. split; [exact M2|].
      split; [|exact M4]. intros Hq. exists s. split; [exact Hsd|]. unfold queue. rewrite M3.
      change (ob_l3 (w_book (d_world (desk_book d (fun _ => b))))) with (ob_l3 b). destruct P3 as [-> _].
      apply modified_entry; [|done|done]. by apply side_ids_nodup.
    + apply Hrest; try done. by apply find_absent.
  - destruct (Hmark _ Hdel) as (d' & M1 & M2 & M3 & M4). exists d'. split; [exact M1|]. split; [exact M2|].
    split; [|exact M4]. by rewrite M3.
Qed.

(** ** Trades of the venue *)

Record sane_trade d (event : MarketTradeEvent) : Prop := {
  st_aggressor : book_side (mte_aggressor event);
  st_qty : 0 <= mte_qty event;
  st_number : 0 <= g_next_order_id (w_glob (d_world d)) < 2 ^ 64 - 1;
  st_trade_id : ids_in_width (w_glob (d_world d));
  st_fits : desk_fits d
}.

Lemma replay_trade d event :
  desk_ok d -> sane_trade d event ->
  exists d' left, replayMarketTrade d event = Some d' /\ handled d d' /\ 0 <= left
    /\ traded_in (w_md (d_world d')) + left = traded_in (w_md (d_world d)) + mte_qty event
    /\ (forall i, i ∈ book_ids (ob_l3 (w_book (d_world d'))) -> i ∈ book_ids (ob_l3 (w_book (d_world d))))
    /\ d_pointer d ∈ ex_market_changed_symbols (d_exchange d').
Proof.
  intros Hd [S1 S2 S3 S4 S5]. unfold replayMarketTrade. cbn [nextOrderId].
  set (w := (d_world d) <| w_glob ::= _ |>).
  assert (Hf : fine w) by by apply (fine_same (d_world d)), Hd.
  destruct (engine_feeds d w (mte_aggressor event) (g_next_order_id (w_glob (d_world d))) (mte_price event) (mte_qty event)
    (mte_transact_time event) 0 eq_refl Hd S5 Hf eq_refl S4 S1 S2) as (engine & summaries & left & w' & -> & -> & Hm).
  assert (Hg : g_next_order_id (w_glob (d_world d)) <= g_next_order_id (w_glob w)).
  { change (g_next_order_id (w_glob w)) with (u64 (g_next_order_id (w_glob (d_world d)) + 1)). rewrite wrap_small; lia. }
  destruct (feed_handled d w _ _ _ _ w' Hd Hf eq_refl eq_refl eq_refl Hg Hm) as (H1 & E1 & E2 & Etr).
  set (d1 := publishTradeSummaries _ _) in *. exists (markMarketChanged d1), left. split; [done|].
  destruct (mark_changed d1) as [M1 M2]. split; [etrans; [exact H1|apply mark_handled, H1]|]. rewrite M2.
  split; [exact (fo_left _ _ _ _ _ _ _ Hm)|]. split; [exact Etr|]. split.
  - intros i. rewrite E1. apply (fo_ids _ _ _ _ _ _ _ Hm).
  - by rewrite <- (dt_pointer _ _ (hd_step _ _ H1)).
Qed.


(** A replayed trade of the venue consumes the simulated book, and only it: what the
    summaries report plus what found no counterpart is the traded quantity, no order appears,
    and the instrument is marked for the next flush. *)
Lemma replayMarketTrade_trades d event :
  desk_ok d -> sane_trade d event ->
  exists d' left, replayMarketTrade d event = Some d' /\ handled d d' /\ 0 <= left
    /\ traded_in (w_md (d_world d')) + left = traded_in (w_md (d_world d)) + mte_qty event
    /\ (forall i, i ∈ book_ids (ob_l3 (w_book (d_world d'))) -> i ∈ book_ids (ob_l3 (w_book (d_world d))))
    /\ d_pointer d ∈ ex_market_changed_symbols (d_exchange d').
Proof. apply replay_trade. Qed.
End Market.

(** ** Witnesses *)

(** A venue's bid that crosses both offers at 100 and rests the remainder. *)
Definition sample_market_order : MarketOrderEvent := mkMarketOrder 1005 50 100 6 20 BUY ACTION_NEW false.


Definition sample_market_trade : MarketTradeEvent := mkMarketTrade 100 6 BUY 6.

Lemma replayMarketTrade_trades_witness :
  exists d' left, replayMarketTrade sample_desk sample_market_trade = Some d' /\ handled sample_desk d' /\ 0 <= left
    /\ traded_in (w_md (d_world d')) + left = 6
    /\ (forall i, i ∈ book_ids (ob_l3 (w_book (d_world d'))) -> i ∈ book_ids (ob_l3 (w_book (d_world sample_desk))))
    /\ 0%nat ∈ ex_market_changed_symbols (d_exchange d').
Proof.
  apply (replayMarketTrade_trades sample_desk sample_market_trade sample_desk_ok).
  split.
  - by left.
  - vm_compute. congruence.
  - vm_compute. split; congruence.
  - vm_compute. split; congruence.
  - exact sample_desk_fits.
Defined.
