(* ===== verification/Reconcile.v ===== *)
(** * The mirror of the venue's book at one price

    [reconcilePhantomQty] brings the phantom liquidity at a price to what the venue shows,
    less what simulated trades took since: what is missing joins the back of the queue, what
    is in excess leaves from the back, and client orders stay where they are. *)

From S2P Require Import Prelude Types FixedString RingBuffer Orders Messages MarketData.
From S2P Require Import L3Interface L3Lemmas OrderBook OrderBookInv OrderBookOps.
From S2P Require Import Sweep MatchCommon MatchLemmas FifoEngine FifoProofs FifoOrders.
From S2P Require Import ProRata MatchingConfig MatchContract BookState Symbol SymbolProofs.
From S2P Require Import SymbolManager Exchange DeskState L3Reference Concrete.
From S2P Require Import ExchangeProofs MarketProofs.

(** ** The queue at a price *)

Definition at_level (p : price_t) (fl : list (price_t * L3Order)) : list L3Order :=
  omap (fun x => if x.1 =? p then Some x.2 else None) fl.

Lemma at_level_cons p x fl : at_level p (x :: fl) = (if x.1 =? p then [x.2] else []) ++ at_level p fl.
Proof. unfold at_level. cbn. by destruct (x.1 =? p). Qed.

Lemma at_level_app p a b : at_level p (a ++ b) = at_level p a ++ at_level p b.
Proof. unfold at_level. apply omap_app. Qed.

Lemma at_level_in p o fl : o ∈ at_level p fl <-> (p, o) ∈ fl.
Proof.
  unfold at_level. rewrite list_elem_of_omap. split.
  - intros ([p' o'] & Hin & E). cbn in E. destruct (p' =? p) eqn:Ep; [|done]. bool_to_prop. by injection E as <-; subst.
  - intros Hin. exists (p, o). split; [done|]. cbn. by rewrite Z.eqb_refl.
Qed.

Lemma queue_set_cons id q o os :
  queue_set_qty id q (o :: os)
  = (if l3_order_id o =? id then if q =? 0 then [] else [o <| l3_quantity := q |>] else [o]) ++ queue_set_qty id q os.
Proof. unfold queue_set_qty. cbn. by destruct (l3_order_id o =? id); [destruct (q =? 0)|]. Qed.

Lemma queue_set_app id q a b : queue_set_qty id q (a ++ b) = queue_set_qty id q a ++ queue_set_qty id q b.
Proof. apply omap_app. Qed.

Lemma queue_set_absent id q os : id ∉ map l3_order_id os -> queue_set_qty id q os = os.
Proof.
  induction os as [|o os IH]; [done|]. cbn [map]. rewrite not_elem_of_cons, queue_set_cons. intros [Hne Hin].
  rewrite (proj2 (Z.eqb_neq _ _)) by congruence. by rewrite IH.
Qed.

Lemma queue_set_rev id q os : queue_set_qty id q (rev os) = rev (queue_set_qty id q os).
Proof.
  induction os as [|o os IH]; [done|]. cbn [rev]. rewrite queue_set_app, IH, !queue_set_cons, rev_app_distr. f_equal.
  by destruct (l3_order_id o =? id); [destruct (q =? 0)|].
Qed.

Lemma queue_set_ids id q os i : i ∈ map l3_order_id (queue_set_qty id q os) -> i ∈ map l3_order_id os.
Proof.
  induction os as [|o os IH]; [done|]. rewrite queue_set_cons. cbn [map]. rewrite map_app, elem_of_app, elem_of_cons.
  intros [Hi|Hi]; [left|right; auto]. destruct (l3_order_id o =? id); [destruct (q =? 0)|];
    cbn in Hi; by apply list_elem_of_singleton in Hi || apply elem_of_nil in Hi.
Qed.

Lemma at_level_set p id q fl : at_level p (flat_set id q fl) = queue_set_qty id q (at_level p fl).
Proof.
  induction fl as [|[p' o] fl IH]; [done|]. rewrite flat_set_cons, at_level_app, IH, at_level_cons, queue_set_app. f_equal.
  unfold flat_id. cbn [fst snd]. destruct (p' =? p) eqn:Ep.
  - rewrite queue_set_cons. destruct (l3_order_id o =? id); [destruct (q =? 0)|]; cbn; by rewrite ?Ep.
  - destruct (l3_order_id o =? id); [destruct (q =? 0)|]; cbn; by rewrite ?Ep.
Qed.

Lemma at_level_map p p' os : at_level p (map (pair p') os) = if p' =? p then os else [].
Proof. induction os as [|o os IH]; cbn [map]; [by case_test|]. rewrite at_level_cons, IH. cbn. by case_test. Qed.

Lemma at_level_beyond s l p ls :
  Forall (better_level s l) ls -> lv_price l = p -> at_level p (flat ls) = [].
Proof.
  intros Hall E. induction Hall as [|x ls Hx _ IH]; [done|]. rewrite flat_cons, at_level_app, IH, at_level_map, app_nil_r.
  destruct (lv_price x =? p) eqn:E'; [|done]. bool_to_prop. unfold better_level in Hx. rewrite E, E' in Hx.
  destruct s; cbn in Hx; rewrite Z.ltb_irrefl in Hx; done.
Qed.

(** The level the book hands out is that queue. *)
Lemma at_level_find s p ls :
  side_ok s ls ->
  at_level p (flat ls) = match List.find (fun l => lv_price l =? p) ls with Some l => lv_orders l | None => [] end.
Proof.
  intros [_ Hs]. induction Hs as [|l ls Hs IH Hall]; [done|]. rewrite flat_cons, at_level_app, at_level_map. cbn [List.find].
  destruct (lv_price l =? p) eqn:E; [|exact IH]. bool_to_prop. by rewrite (at_level_beyond s l), app_nil_r.
Qed.

Lemma at_level_insert s p o ls :
  side_ok s ls ->
  at_level p (flat (levels_insert s p o ls)) = queue_insert o (at_level p (flat ls))
  /\ forall p', p' <> p -> at_level p' (flat (levels_insert s p o ls)) = at_level p' (flat ls).
Proof.
  intros [_ Hs]. induction Hs as [|l ls Hs [IH1 IH2] Hall].
  { cbn [levels_insert]. rewrite flat_cons, at_level_app, at_level_map. cbn. rewrite Z.eqb_refl. split; [done|].
    intros p' Hp. by rewrite (proj2 (Z.eqb_neq _ _)) by congruence. }
  cbn [levels_insert]. destruct (lv_price l =? p) eqn:E.
  - bool_to_prop. rewrite !flat_cons, !at_level_app, !at_level_map. cbn [make_level lv_price lv_orders]. rewrite E, Z.eqb_refl.
    rewrite (at_level_beyond s l), !app_nil_r by done. split; [done|]. intros p' Hp.
    rewrite !at_level_app, !at_level_map.
    by rewrite (proj2 (Z.eqb_neq _ _)) by congruence.
  - destruct (isPriceBetter s (lv_price l) p) eqn:Eb.
    + rewrite !flat_cons, !at_level_app, !at_level_map, E, IH1. split; [done|]. intros p' Hp.
      by rewrite !at_level_app, IH2.
    + assert (Hnone : at_level p (flat (l :: ls)) = []).
      { bool_to_prop. pose proof (isPriceBetter_total s _ _ E Eb) as Hb.
        rewrite (at_level_beyond s (make_level p [])); [done| |done]. constructor; [exact Hb|].
        eapply Forall_impl; [exact Hall|]. intros x Hx. by eapply isPriceBetter_trans. }
      rewrite flat_cons, at_level_app, Hnone, at_level_map. cbn [make_level lv_price lv_orders]. rewrite Z.eqb_refl.
      split; [done|]. intros p' Hp. rewrite at_level_app, at_level_map. cbn [make_level lv_price lv_orders].
      by rewrite (proj2 (Z.eqb_neq _ _)) by congruence.
Qed.

Section Reconcile.
Context {L3 Pool : Type} {l3ops : L3Ops L3} {laws : L3Laws L3} {poolops : ObjectPool Pool}
  {poollaws : PoolLaws Pool} {env : Environment}.
Abbreviation World := (World L3 Pool).
Abbreviation Desk := (Desk L3 Pool).
Abbreviation OrderBook := (OrderBook L3 Pool).
Implicit Types w : World.
Implicit Types d : Desk.
Implicit Types b : OrderBook.

(** ** Choosing the reductions *)

Definition phantom_qty b (os : list L3Order) : qty_t :=
  zsum (map (fun o => if bool_decide (findOrder b (l3_order_id o) = None) then l3_quantity o else 0) os).

(** The queue, back first, once phantom orders gave up a quantity starting from the back. *)
Fixpoint shave b (diff : qty_t) (os : list L3Order) : list L3Order :=
  match os with
  | [] => []
  | o :: rest =>
      if bool_decide (findOrder b (l3_order_id o) = None) then
        if l3_quantity o <=? diff then shave b (diff - l3_quantity o) rest
        else (if 0 <? diff then o <| l3_quantity := l3_quantity o - diff |> else o) :: rest
      else o :: shave b diff rest
  end.

Lemma shave_zero b os : Forall (fun o => 0 < l3_quantity o) os -> shave b 0 os = os.
Proof.
  induction 1 as [|o os Ho _ IH]; [done|]. cbn [shave]. case_bool_decide; [|by rewrite IH].
  by rewrite (proj2 (Z.leb_gt _ _)).
Qed.

Lemma phantom_qty_nonneg b os : Forall (fun o => 0 < l3_quantity o) os -> 0 <= phantom_qty b os.
Proof. unfold phantom_qty. induction 1 as [|o os Ho _ IH]; cbn [map zsum]; [done|]. case_match; lia. Qed.

Lemma shave_phantoms b diff os :
  0 <= diff -> Forall (fun o => 0 < l3_quantity o) os ->
  phantom_qty b (shave b diff os) = Z.max 0 (phantom_qty b os - diff).
Proof.
  intros Hd Hpos. revert diff Hd. induction Hpos as [|o os Ho Hos IH]; intros diff Hd; [cbn; lia|].
  pose proof (phantom_qty_nonneg b os Hos) as Hge.
  unfold phantom_qty in *. cbn [shave map zsum]. destruct (bool_decide _) eqn:E.
  - destruct (l3_quantity o <=? diff) eqn:El; bool_to_prop; [rewrite IH by lia; lia|].
    cbn [map zsum]. rewrite (bool_decide_eq_true_2 (findOrder b (l3_order_id (if 0 <? diff then _ else _)) = None)) by (by case_match).
    destruct (0 <? diff) eqn:E0; bool_to_prop; cbn; lia.
  - cbn [map zsum]. rewrite E, IH by done. lia.
Qed.

(** One planned reduction, of an order of the queue. *)
Definition reduces b (os : list L3Order) (r : PhantomReduction) : Prop :=
  exists o, o ∈ os /\ l3_order_id o = red_order_id r /\ l3_priority o = red_priority r
    /\ 0 <= red_new_qty r < l3_quantity o /\ findOrder b (red_order_id r) = None.

Definition apply_plan (rs : list PhantomReduction) (os : list L3Order) : list L3Order :=
  fold_left (fun os r => queue_set_qty (red_order_id r) (red_new_qty r) os) rs os.

Lemma apply_plan_cons rs o os :
  Forall (fun r => red_order_id r <> l3_order_id o) rs -> apply_plan rs (o :: os) = o :: apply_plan rs os.
Proof.
  unfold apply_plan. revert os. induction rs as [|r rs IH]; intros os Hne; [done|]. apply Forall_cons in Hne as [Hr Hne].
  cbn [fold_left]. rewrite queue_set_cons, (proj2 (Z.eqb_neq _ _)) by congruence. by rewrite <- IH.
Qed.

Lemma choose_plan b diff os :
  0 <= diff -> Forall (fun o => 0 < l3_quantity o) os -> NoDup (map l3_order_id os) ->
  let rs := choose_reductions b os diff in
  Forall (reduces b os) rs /\ NoDup (map red_order_id rs) /\ apply_plan rs os = shave b diff os.
Proof.
  intros Hd Hpos. revert diff Hd. induction Hpos as [|o os Ho Hos IH]; intros diff Hd Hnd; [done|].
  cbn [map] in Hnd. apply NoDup_cons in Hnd as [Hnin Hnd]. cbn [choose_reductions shave].
  assert (Hmore : forall rs, Forall (reduces b os) rs ->
    Forall (reduces b (o :: os)) rs /\ Forall (fun r => red_order_id r <> l3_order_id o) rs).
  { intros rs Hrs. split; eapply Forall_impl; try exact Hrs.
    - intros r (o' & Hin & H). exists o'. split; [by apply elem_of_cons; right|done].
    - intros r (o' & Hin & Eid & _). rewrite <- Eid. intros E. apply Hnin. rewrite <- E. by apply list_elem_of_fmap_2. }
  destruct (0 <? diff) eqn:E0; bool_to_prop; cbn [negb].
  2: { assert (diff = 0) as -> by lia. split; [constructor|]. split; [constructor|].
       rewrite (proj2 (Z.leb_gt _ _)) by done. cbn [Z.ltb Z.compare]. rewrite shave_zero by done. by case_match. }
  destruct (findOrder b (l3_order_id o)) as [x|] eqn:Ef.
  - destruct (IH diff Hd Hnd) as (I1 & I2 & I3). destruct (Hmore _ I1) as [M1 M2].
    split; [done|]. split; [done|]. rewrite bool_decide_eq_false_2 by done. by rewrite apply_plan_cons, I3.
  - rewrite bool_decide_eq_true_2 by done. destruct (IH (diff - Z.min diff (l3_quantity o)) ltac:(lia) Hnd) as (I1 & I2 & I3).
    destruct (Hmore _ I1) as [M1 M2]. split; [|split].
    + constructor; [|done]. exists o. split; [by apply elem_of_cons; left|]. cbn. do 2 (split; [done|]). split; [lia|done].
    + cbn [map]. constructor; [|done]. intros Hin. apply list_elem_of_fmap in Hin as (r & E & Hr).
      rewrite Forall_forall in M2. by apply (M2 r Hr).
    + assert (Es : forall q, queue_set_qty (l3_order_id o) q (o :: os) = (if q =? 0 then [] else [o <| l3_quantity := q |>]) ++ os).
      { intros q. by rewrite queue_set_cons, Z.eqb_refl, queue_set_absent. }
      unfold apply_plan in *. cbn [fold_left red_order_id red_new_qty]. rewrite Es.
      destruct (l3_quantity o <=? diff) eqn:El; bool_to_prop.
      * rewrite Z.min_r, Z.sub_diag by done. cbn. rewrite Z.min_r in I3 by done. exact I3.
      * assert (Hnone : choose_reductions b os (diff - Z.min diff (l3_quantity o)) = []).
        { rewrite Z.min_l, Z.sub_diag by lia. by destruct os. }
        rewrite Hnone, Z.min_l, (proj2 (Z.eqb_neq _ _)) by lia. done.
Qed.

(** ** Applying them *)

Lemma accepted_after (l3 l3' : L3) seq :
  getLastSeqNum l3' <= Z.max (getLastSeqNum l3) seq -> seq_accepted l3 seq = true -> seq_accepted l3' seq = true.
Proof. unfold seq_accepted. intros Hle Ha. destruct (0 <? seq) eqn:E1; [|done]. cbn in *. bool_to_prop. lia. Qed.

Lemma modify_accepted b s p o q ts seq last :
  book_inv None b -> book_side s -> seq_accepted (ob_l3 b) seq = true -> (p, o) ∈ flat (getLevelsL3 (ob_l3 b) s) ->
  0 <= q < l3_quantity o ->
  seq_accepted (ob_l3 (fst (modifyBookOrder b (l3_order_id o) p q ts (l3_priority o) seq last))) seq = true.
Proof.
  intros Hb Hs Ha Hin Hq. pose proof (bi_l3 _ _ Hb) as Hok. pose proof (proj2 (rests_at_flat _ _ _) Hin) as Hr.
  unfold modifyBookOrder. rewrite l3_call_l3. eapply accepted_after; [|exact Ha].
  destruct (decide (q = 0)) as [->|Hne].
  - rewrite law_modify_zero. by apply (mut_seq _ _ _ _ _ _ (law_delete (ob_l3 b) s p o ts seq last Hok Hs Ha Hr)).
  - apply (mut_seq _ _ _ _ _ _ (law_modify_qty (ob_l3 b) s p o q ts seq last Hok Hs Ha Hr ltac:(lia) ltac:(lia))).
Qed.

(** One reduction takes the quantity in place. *)
Lemma reduced_side s p o q ls :
  0 <= q < l3_quantity o ->
  modified_side s p o p q (l3_priority o) ls = levels_set_qty (l3_order_id o) q ls.
Proof.
  intros Hq. unfold modified_side. destruct (q =? 0) eqn:E; bool_to_prop; [by subst q|].
  rewrite !Z.eqb_refl. cbn [andb]. by rewrite (proj2 (Z.eqb_neq _ _)) by lia.
Qed.

(** What changes while a plan is applied to the queue of one price. *)
Record planned w (s : Side) (p : price_t) (seq : Z) (rs : list PhantomReduction) b : Prop := {
  pl_fine : fine (w <| w_book := b |>);
  pl_levels : level_step (w_book w) b;
  pl_queue : at_level p (flat (getLevelsL3 (ob_l3 b) s)) = apply_plan rs (at_level p (queue w s));
  pl_prices : forall p', p' <> p -> at_level p' (flat (getLevelsL3 (ob_l3 b) s)) = at_level p' (queue w s);
  pl_other : getLevelsL3 (ob_l3 b) (opposite_side s) = getLevelsL3 (ob_l3 (w_book w)) (opposite_side s);
  pl_clients : ob_orders b = ob_orders (w_book w) /\ ob_heap b = ob_heap (w_book w);
  pl_ids : forall i, i ∈ book_ids (ob_l3 b) -> i ∈ book_ids (ob_l3 (w_book w));
  pl_accepted : seq_accepted (ob_l3 b) seq = true
}.

Lemma apply_planned w s p ts seq end_event rs :
  fine w -> book_side s -> p <> NULL_PRICE -> seq_accepted (ob_l3 (w_book w)) seq = true ->
  Forall (fun o => l3_priority o <> 0) (at_level p (queue w s)) ->
  Forall (reduces (w_book w) (at_level p (queue w s))) rs -> NoDup (map red_order_id rs) ->
  planned w s p seq rs (apply_reductions (w_book w) p ts seq end_event rs).
Proof.
  intros Hf Hs Hp Ha Hrank Hrs Hnd. revert w Hf Ha Hrank Hrs.
  induction rs as [|r rs IH]; intros w Hf Ha Hrank Hrs.
  { cbn [apply_reductions]. split; try done. by apply (fine_same w). }
  apply Forall_cons in Hrs as [(o & Hin & Eid & Epr & Hq & Hn) Hrs]. cbn [map] in Hnd. apply NoDup_cons in Hnd as [Hnin Hnd].
  cbn [apply_reductions]. set (last := end_event && _). clearbody last.
  rewrite Forall_forall in Hrank. pose proof (Hrank o Hin) as Hpr. apply at_level_in in Hin.
  rewrite <- Eid in Hn. pose proof (bi_l3 _ _ (fn_inv _ Hf)) as Hok.
  destruct (phantom_modify w s p o p (red_new_qty r) ts (l3_priority o) seq last Hf Hs Ha Hin Hn ltac:(lia) Hpr Hp)
    as (P1 & P2 & P3 & P4 & P5 & P6).
  pose proof (modify_accepted (w_book w) s p o (red_new_qty r) ts seq last (fn_inv _ Hf) Hs Ha Hin Hq) as Ha'.
  rewrite Eid, Epr in *. destruct (modifyBookOrder _ _ _ _ _ _ _ _) as [b1 r1]. cbn [fst] in *. rewrite <- Epr in P3.
  rewrite reduced_side in P3 by done. rewrite Eid in P3. set (w1 := w <| w_book := b1 |>) in *. destruct P3 as [L1 L2].
  assert (Eq : forall p', at_level p' (queue w1 s) = queue_set_qty (red_order_id r) (red_new_qty r) (at_level p' (queue w s))).
  { intros p'. unfold queue. change (ob_l3 (w_book w1)) with (ob_l3 b1). by rewrite L1, flat_levels_set, at_level_set. }
  assert (Hkeep : forall o', o' ∈ at_level p (queue w s) -> l3_order_id o' <> red_order_id r -> o' ∈ at_level p (queue w1 s)).
  { intros o' Ho' Hne. rewrite Eq. unfold queue_set_qty. apply list_elem_of_omap. exists o'. split; [done|].
    by rewrite (proj2 (Z.eqb_neq _ _)). }
  destruct (IH Hnd w1 P1 Ha') as [I1 I2 I3 I4 I5 [I6 I6'] I7 I8].
  { rewrite Eq. apply Forall_forall. intros o' Ho'. unfold queue_set_qty in Ho'. apply list_elem_of_omap in Ho' as (o2 & Ho2 & E).
    specialize (Hrank o2 Ho2). repeat case_match; [done|injection E as <-; done|injection E as <-; done]. }
  { rewrite Forall_forall in Hrs |- *. intros r' Hr'. destruct (Hrs r' Hr') as (o' & H1 & H2 & H3 & H4 & H5). exists o'.
    split; [|unfold findOrder in *; change (ob_orders (w_book w1)) with (ob_orders b1); by rewrite P4].
    apply Hkeep; [done|]. rewrite H2. intros E. apply Hnin. rewrite <- E. by apply list_elem_of_fmap_2. }
  change (w_book w1) with b1 in *. split.
  - exact I1.
  - by etrans.
  - rewrite I3, Eq. done.
  - intros p' Hp'. rewrite (I4 p' Hp'), Eq. apply queue_set_absent. intros Hi. apply list_elem_of_fmap in Hi as (o' & E & Ho').
    apply at_level_in in Ho'. apply Hp'. rewrite <- Eid in E.
    by destruct (same_id_same (ob_l3 (w_book w)) s s p p' o o' Hok Hs Hs Hin Ho' E) as (_ & <- & _).
  - by rewrite I5, L2.
  - by rewrite I6, I6', P4, P5.
  - intros i Hi. by apply P6, I7.
  - exact I8.
Qed.

(** ** The whole operation *)

(** The quantity to mirror: what the venue shows, less the trades it has not seen. *)
Definition wanted d (side : Side) (price : price_t) (target_qty : qty_t) (event_time : Z) : qty_t :=
  let unreflected := fst (takeTradedQty (sym_traded_qty_credit (d_symbol d)) side price event_time) in
  if 0 <? unreflected then Z.max 0 (target_qty - unreflected) else target_qty.

Definition opposite_phantoms w (side : Side) (price : price_t) : qty_t :=
  phantom_qty (w_book w) (at_level price (queue w (opposite_side side))).

Lemma queue_phantoms b p fl : fsum (phantom_at (ob_orders b) p) fl = phantom_qty b (at_level p fl).
Proof.
  induction fl as [|[p' o] fl IH]; [done|]. rewrite fsum_cons, IH, at_level_cons. unfold phantom_qty, phantom_at, findOrder.
  rewrite map_app, zsum_app. f_equal. unfold at_price, flat_id, flat_qty. cbn [fst snd].
  destruct (p' =? p); cbn; case_bool_decide; lia.
Qed.

Lemma md_level w side price :
  fine w -> book_side side ->
  getMDLevelQty (w_book w) price
  = phantom_qty (w_book w) (at_level price (queue w side)) + opposite_phantoms w side price.
Proof.
  intros Hf Hs. change (getMDLevelQty (w_book w) price) with (feed_qty (ob_feed_md_level_quantity (w_book w)) price).
  rewrite (bi_feed _ _ (fn_inv _ Hf)). unfold opposite_phantoms, queue. rewrite <- !queue_phantoms.
  unfold phantom_total. destruct Hs as [-> | ->]; cbn [opposite_side]; lia.
Qed.

Record sane_mirror d (side : Side) (price : price_t) (seq_num : Z) : Prop := {
  sr_side : book_side side;
  sr_price : price <> NULL_PRICE;
  sr_accepted : seq_accepted (ob_l3 (w_book (d_world d))) seq_num = true;
  sr_ranked : Forall (fun o => l3_priority o <> 0) (at_level price (queue (d_world d) side));
  sr_room : roomy (w_glob (d_world d));
  sr_number : 0 <= g_next_order_id (w_glob (d_world d)) < 2 ^ 64 - 1
}.

Record mirrored d (side : Side) (price : price_t) (target_qty : qty_t) (event_time : Z) d' : Prop := {
  mi_handled : handled d d';
  mi_credits : sym_traded_qty_credit (d_symbol d')
               = snd (takeTradedQty (sym_traded_qty_credit (d_symbol d)) side price event_time);
  mi_quantity : getMDLevelQty (w_book (d_world d')) price
    = Z.max (wanted d side price target_qty event_time) (opposite_phantoms (d_world d) side price);
  mi_clients : ob_orders (w_book (d_world d')) = ob_orders (w_book (d_world d))
    /\ ob_heap (w_book (d_world d')) = ob_heap (w_book (d_world d));
  mi_prices : forall p, p <> price -> at_level p (queue (d_world d') side) = at_level p (queue (d_world d) side);
  mi_other : queue (d_world d') (opposite_side side) = queue (d_world d) (opposite_side side);
  mi_queue : let excess := getMDLevelQty (w_book (d_world d)) price - wanted d side price target_qty event_time in
    at_level price (queue (d_world d') side)
    = if excess <? 0
      then queue_insert (mkL3Order (g_next_order_id (w_glob (d_world d))) (- excess)
                           (g_next_priority (w_glob (d_world d)) + 1)) (at_level price (queue (d_world d) side))
      else rev (shave (w_book (d_world d)) excess (rev (at_level price (queue (d_world d) side))))
}.

Lemma credits_handled d credits :
  desk_ok d -> handled d (d <| d_symbol ::= fun s => s <| sym_traded_qty_credit := credits |> |>).
Proof.
  intros Hd. split; [|split|exists []; by rewrite app_nil_r|done]; try done.
  - by eapply desk_ok_same; [exact Hd|..].
  - by left.
  - exists []. by rewrite app_nil_r.
  - exists []. by rewrite app_nil_r.
Qed.

Lemma level_at w side price :
  fine w -> book_side side ->
  at_level price (queue w side) = match getLevel (ob_l3 (w_book w)) side price with Some l => lv_orders l | None => [] end.
Proof.
  intros Hf Hs. pose proof (bi_l3 _ _ (fn_inv _ Hf)) as Hok. rewrite law_level by done.
  by apply (at_level_find side), book_side_ok.
Qed.

Lemma phantom_qty_rev b os : phantom_qty b (rev os) = phantom_qty b os.
Proof.
  unfold phantom_qty. induction os as [|o os IH]; [done|]. cbn [rev map zsum]. rewrite map_app, zsum_app, IH. cbn. lia.
Qed.

Lemma phantom_qty_clients b b' os : ob_orders b' = ob_orders b -> phantom_qty b' os = phantom_qty b os.
Proof. intros E. unfold phantom_qty, findOrder. by rewrite E. Qed.

Lemma apply_plan_rev rs os : apply_plan rs (rev os) = rev (apply_plan rs os).
Proof. unfold apply_plan. revert os. induction rs as [|r rs IH]; intros os; [done|]. cbn [fold_left]. by rewrite queue_set_rev, IH. Qed.

Lemma level_orders w side price :
  fine w -> book_side side ->
  Forall (fun o => 0 < l3_quantity o) (at_level price (queue w side))
  /\ NoDup (map l3_order_id (at_level price (queue w side))).
Proof.
  intros Hf Hs. pose proof (bi_l3 _ _ (fn_inv _ Hf)) as Hok. split.
  - apply Forall_forall. intros o Ho. apply at_level_in in Ho. by pose proof (flat_pos _ _ _ (book_side_ok _ _ Hok Hs) Ho).
  - pose proof (side_ids_nodup _ side Hok Hs) as Hnd. unfold queue. revert Hnd. generalize (flat (getLevelsL3 (ob_l3 (w_book w)) side)).
    intros fl. induction fl as [|[p o] fl IH]; [constructor|]. cbn [map]. rewrite at_level_cons. intros [Hnin Hnd]%NoDup_cons.
    cbn [fst snd]. destruct (p =? price); [|by apply IH]. cbn [app map]. constructor; [|by apply IH].
    intros Hi. apply Hnin. apply list_elem_of_fmap in Hi as (o' & E & Ho'). apply at_level_in in Ho'.
    unfold flat_id at 1. cbn [snd]. rewrite E. by apply (list_elem_of_fmap_2 flat_id _ (price, o')).
Qed.

(** The venue shows more: one phantom order joins the queue. *)
(** A phantom order that joins its queue under the next priority. *)
Record rests_anew w (id : Z) (side : Side) (price : price_t) (q : qty_t) (seq : Z) w' : Prop := {
  ra_fine : fine w';
  ra_drawn : ids_drawn w';
  ra_levels : level_step (w_book w) (w_book w');
  ra_side : side_becomes (ob_l3 (w_book w)) (ob_l3 (w_book w')) side
    (levels_insert side price (mkL3Order id q (g_next_priority (w_glob w) + 1)) (getLevelsL3 (ob_l3 (w_book w)) side));
  ra_clients : ob_orders (w_book w') = ob_orders (w_book w) /\ ob_heap (w_book w') = ob_heap (w_book w);
  ra_glob : w_glob w' = (w_glob w) <| g_next_priority ::= fun p => p + 1 |>;
  ra_frames : w_md w' = w_md w /\ w_responses w' = w_responses w;
  ra_accepted : seq_accepted (ob_l3 (w_book w')) seq = true
}.

Lemma add_rests w id side price q ts seq last :
  fine w -> ids_drawn w -> roomy (w_glob w) -> id ∉ book_ids (ob_l3 (w_book w)) -> id < g_next_order_id (w_glob w) ->
  book_side side -> price <> NULL_PRICE -> 0 < q -> seq_accepted (ob_l3 (w_book w)) seq = true ->
  rests_anew w id side price q seq (addBookOrder w id side price q ts seq last).
Proof.
  intros Hf Hd Hr Hnin Hid Hs Hp Hq Ha. pose proof (next_priority_room _ Hr) as Epr. destruct Hr as [Hr _].
  set (w0 := w <| w_glob ::= fun g => g <| g_next_priority := u64 (g_next_priority g + 1) |> |>).
  assert (Hf0 : fine w0) by by apply (fine_same w).
  assert (Hprio : u64 (g_next_priority (w_glob w) + 1) <> 0) by lia.
  destruct (phantom_add w0 id side price q ts _ seq last Hf0 Hs Ha Hnin Hq Hprio Hp) as (P1 & P2 & P3 & P4 & P5 & P6).
  pose proof (law_add (ob_l3 (w_book w)) side price id q ts _ seq last (bi_l3 _ _ (fn_inv _ Hf)) Hs Ha Hnin Hq Hprio) as Hm.
  unfold addBookOrder. cbn [nextOrderPriority]. fold w0. change (w_book w0) with (w_book w) in *.
  split; try done.
  - eapply (ids_drawn_after w _ id); [exact P6|exact Hd|exact Hid|done].
  - rewrite Epr in P3. cbn [w_book upd]. rewrite Epr. exact P3.
  - unfold w0. cbn [w_glob upd]. by rewrite Epr.
  - cbn [w_book upd]. rewrite l3_call_l3. eapply accepted_after; [|exact Ha]. apply Hm.
Qed.

Lemma mirror_grow d side price q event_time seq_num end_event :
  desk_ok d -> sane_mirror d side price seq_num -> 0 < q ->
  let n := g_next_order_id (w_glob (d_world d)) in
  let d' := d <| d_world ::= fun w => let '(id, w) := nextOrderId w in
                                      addBookOrder w id side price q event_time seq_num end_event |> in
  handled d d'
  /\ rests_anew ((d_world d) <| w_glob ::= fun g => g <| g_next_order_id := n + 1 |> |>) n side price q seq_num (d_world d').
Proof.
  intros Hd [S1 S2 S3 S4 S5 S6] Hq n d'.
  set (w0 := (d_world d) <| w_glob ::= fun g => g <| g_next_order_id := n + 1 |> |>).
  assert (Hf : fine w0) by by apply (fine_same (d_world d)), Hd.
  assert (Hdr : ids_drawn w0).
  { intros i Hi. pose proof (dk_ids _ Hd i Hi). change (g_next_order_id (w_glob w0)) with (n + 1). unfold n. lia. }
  assert (Hnin : n ∉ book_ids (ob_l3 (w_book w0))).
  { intros Hi. pose proof (dk_ids _ Hd n Hi). unfold n in *. lia. }
  assert (Hn : n < g_next_order_id (w_glob w0)) by (change (g_next_order_id (w_glob w0)) with (n + 1); lia).
  assert (Ew : d_world d' = addBookOrder w0 n side price q event_time seq_num end_event).
  { subst d' w0. cbn [d_world upd nextOrderId]. fold n. by rewrite (wrap_small 64 (n + 1)) by (unfold n; lia). }
  pose proof (add_rests w0 n side price q event_time seq_num end_event Hf Hdr S5 Hnin Hn S1 S2 Hq S3) as Hr.
  rewrite <- Ew in Hr. split; [|exact Hr]. destruct Hr as [R1 R2 R3 R4 R5 R6 [R7 R8] R9].
  change d' with (d <| d_world := d_world d' |>). apply world_handled; try done.
  - exists []. by rewrite app_nil_r, R8.
  - rewrite R6. cbn. fold n. lia.
Qed.

Lemma phantom_qty_insert b o os :
  findOrder b (l3_order_id o) = None -> phantom_qty b (queue_insert o os) = phantom_qty b os + l3_quantity o.
Proof.
  intros Hn. unfold phantom_qty. induction os as [|x os IH]; cbn [queue_insert map zsum].
  - rewrite bool_decide_eq_true_2 by done. lia.
  - case_test; cbn [map zsum]; [rewrite IH; lia|]. rewrite (bool_decide_eq_true_2 (findOrder b (l3_order_id o) = None)) by done. lia.
Qed.

(** It is enough to follow the queue at the price. *)
Lemma mirrored_queue d side price target_qty event_time d' :
  desk_ok d -> book_side side -> handled d d' ->
  sym_traded_qty_credit (d_symbol d') = snd (takeTradedQty (sym_traded_qty_credit (d_symbol d)) side price event_time) ->
  ob_orders (w_book (d_world d')) = ob_orders (w_book (d_world d)) /\ ob_heap (w_book (d_world d')) = ob_heap (w_book (d_world d)) ->
  (forall p, p <> price -> at_level p (queue (d_world d') side) = at_level p (queue (d_world d) side)) ->
  queue (d_world d') (opposite_side side) = queue (d_world d) (opposite_side side) ->
  (let excess := getMDLevelQty (w_book (d_world d)) price - wanted d side price target_qty event_time in
   at_level price (queue (d_world d') side)
   = if excess <? 0
     then queue_insert (mkL3Order (g_next_order_id (w_glob (d_world d))) (- excess)
                          (g_next_priority (w_glob (d_world d)) + 1)) (at_level price (queue (d_world d) side))
     else rev (shave (w_book (d_world d)) excess (rev (at_level price (queue (d_world d) side))))) ->
  mirrored d side price target_qty event_time d'.
Proof.
  intros Hd Hs Hh Hc Ho Hp Hopp Hq. split; try done. cbv zeta in Hq.
  pose proof (md_level (d_world d) side price (dk_fine _ Hd) Hs) as Hmd.
  destruct (level_orders (d_world d) side price (dk_fine _ Hd) Hs) as [Hpos _].
  rewrite (md_level (d_world d') side price (dk_fine _ (hd_ok _ _ Hh)) Hs).
  assert (Eo : opposite_phantoms (d_world d') side price = opposite_phantoms (d_world d) side price).
  { unfold opposite_phantoms. rewrite Hopp. apply phantom_qty_clients, Ho. }
  rewrite Eo, Hq, (phantom_qty_clients (w_book (d_world d))) by apply Ho.
  set (want := wanted _ _ _ _ _) in *. set (md := getMDLevelQty _ _) in *. assert (Hop : 0 <= opposite_phantoms (d_world d) side price).
  { apply phantom_qty_nonneg, level_orders; [apply Hd|by apply opposite_book_side]. }
  destruct (md - want <? 0) eqn:E; bool_to_prop.
  - pose proof (phantom_qty_nonneg (w_book (d_world d)) _ Hpos). rewrite phantom_qty_insert; [cbn [l3_quantity]; lia|]. cbn [l3_order_id]. destruct (findOrder _ _) as [x|] eqn:Ex; [|done]. exfalso.
    pose proof (own_in_book None (w_book (d_world d)) _ x (fn_inv _ (dk_fine _ Hd)) Ex) as Hi.
    pose proof (dk_ids _ Hd _ Hi). lia.
  - rewrite phantom_qty_rev, shave_phantoms, phantom_qty_rev; [lia|lia|]. by apply Forall_rev.
Qed.

(** The reductions chosen from a level, and their effect. *)
Lemma reductions_planned d side price level diff event_time seq_num end_event :
  desk_ok d -> sane_mirror d side price seq_num ->
  getLevel (ob_l3 (w_book (d_world d))) side price = Some level -> 0 <= diff ->
  let rs := choose_reductions (w_book (d_world d)) (rev (lv_orders level)) diff in
  planned (d_world d) side price seq_num rs
    (apply_reductions (w_book (d_world d)) price event_time seq_num end_event rs)
  /\ apply_plan rs (rev (lv_orders level)) = shave (w_book (d_world d)) diff (rev (lv_orders level)).
Proof.
  intros Hd Hs El Hdiff rs. pose proof (dk_fine _ Hd) as Hf. pose proof (sr_side _ _ _ _ Hs) as Hsd.
  pose proof (level_at (d_world d) side price Hf Hsd) as Hlv. rewrite El in Hlv.
  destruct (level_orders (d_world d) side price Hf Hsd) as [Hpos Hnd].
  destruct (choose_plan (w_book (d_world d)) diff (rev (lv_orders level)) Hdiff) as (C1 & C2 & C3).
  { rewrite <- Hlv. by apply Forall_rev. }
  { rewrite <- Hlv, map_rev, <- Permutation_rev. exact Hnd. }
  fold rs in C1, C2, C3. split; [|exact C3]. apply apply_planned; try done; try apply Hs.
  eapply Forall_impl; [exact C1|]. intros r (o & Hin & H). exists o. split; [|done].
  by rewrite <- Permutation_rev, <- Hlv in Hin.
Qed.

Lemma reconcile d side price target_qty event_time seq_num end_event :
  desk_ok d -> sane_mirror d side price seq_num ->
  let d' := reconcilePhantomQty d side price target_qty event_time seq_num end_event in
  match getLevel (ob_l3 (w_book (d_world d))) side price with
  | None => d' = d
  | Some _ => mirrored d side price target_qty event_time d'
  end.
Proof.
  intros Hd Hs d'. subst d'. pose proof (dk_fine _ Hd) as Hf. pose proof (sr_side _ _ _ _ Hs) as Hsd.
  pose proof (level_at (d_world d) side price Hf Hsd) as Hlv. pose proof (md_level (d_world d) side price Hf Hsd) as Hmd.
  destruct (level_orders (d_world d) side price Hf Hsd) as [Hpos Hnd].
  unfold reconcilePhantomQty. destruct (getLevel _ side price) as [level|] eqn:El; [|done].
  destruct (takeTradedQty (sym_traded_qty_credit (d_symbol d)) side price event_time) as [unreflected credits] eqn:Et.
  set (target := if 0 <? unreflected then _ else target_qty).
  assert (Ew : wanted d side price target_qty event_time = target).
  { unfold wanted, target. rewrite Et. cbn [fst]. destruct (0 <? unreflected); [|done]. case_test; lia. }
  pose proof (credits_handled d credits Hd) as H0. set (d0 := d <| d_symbol ::= _ |>) in *.
  assert (Hs0 : sane_mirror d0 side price seq_num) by by destruct Hs.
  set (md := getMDLevelQty (w_book (d_world d)) price) in *.
  assert (Hcr : credits = snd (takeTradedQty (sym_traded_qty_credit (d_symbol d)) side price event_time)) by by rewrite Et.
  destruct (md <? target) eqn:E1; bool_to_prop.
  - destruct (mirror_grow d0 side price (target - md) event_time seq_num end_event (hd_ok _ _ H0) Hs0 ltac:(lia))
      as (G1 & [_ _ _ [G2 G3] [G4 G5] _ _ _]).
    set (d1 := d0 <| d_world ::= _ |>) in *.
    destruct (at_level_insert side price (mkL3Order (g_next_order_id (w_glob (d_world d))) (target - md)
      (g_next_priority (w_glob (d_world d)) + 1)) (getLevelsL3 (ob_l3 (w_book (d_world d))) side)) as [I1 I2].
    { apply book_side_ok; [apply (bi_l3 _ _ (fn_inv _ Hf))|done]. }
    apply mirrored_queue; unfold queue; rewrite ?G2, ?G3; try done; [by etrans|].
    rewrite Ew. fold md. rewrite (proj2 (Z.ltb_lt _ _)) by lia. replace (- (md - target)) with (target - md) by lia. exact I1.
  - destruct (reductions_planned d side price level (md - target) event_time seq_num end_event Hd Hs El ltac:(lia))
      as [[P1 P2 P3 P4 P5 P6 P7 _] C3].
    set (rs := choose_reductions _ _ _) in *. rewrite <- Hlv, apply_plan_rev in C3.
    assert (P3' : at_level price (flat (getLevelsL3 (ob_l3 (apply_reductions (w_book (d_world d)) price event_time seq_num end_event rs)) side))
      = rev (shave (w_book (d_world d)) (md - target) (rev (at_level price (queue (d_world d) side))))).
    { by rewrite <- C3, rev_involutive. }
    set (b := apply_reductions _ _ _ _ _ _) in *.
    assert (H1 : handled d0 (d0 <| d_world ::= fun w => w <| w_book := b |> |>)).
    { apply desk_book_handled; try done; [apply H0|]. intros i Hi. by apply (dk_ids _ Hd), P7. }
    destruct (target <? md) eqn:E2; bool_to_prop.
    + apply mirrored_queue; try done; [by etrans| |].
      * unfold queue. change (ob_l3 (w_book (d_world (d0 <| d_world ::= _ |>)))) with (ob_l3 b). by rewrite P5.
      * cbv zeta. rewrite Ew. fold md. rewrite (proj2 (Z.ltb_ge _ _)) by lia. exact P3'.
    + assert (target = md) as Heq by lia. apply mirrored_queue; try done.
      cbv zeta. rewrite Ew. fold md. rewrite Heq, Z.sub_diag. cbn [Z.ltb Z.compare]. rewrite shave_zero by by apply Forall_rev.
      by rewrite rev_involutive.
Qed.

(** C9. Reconciling a level with the venue, whatever orders rest there: afterwards the phantom
    quantity at the price is the venue's quantity less the trades its update had not seen -
    or the phantom quantity of the opposite side, which only a crossed book has, if that is
    more. What is missing joins the queue as one order with a fresh number and the next
    priority; what is in excess leaves phantom orders from the back of the queue, whole
    orders first, and the client orders, every other price and the other side are as they
    were. A level the book does not have is left alone. *)
Theorem reconcilePhantomQty_mirrors d side price target_qty event_time seq_num end_event :
  desk_ok d -> sane_mirror d side price seq_num ->
  let d' := reconcilePhantomQty d side price target_qty event_time seq_num end_event in
  match getLevel (ob_l3 (w_book (d_world d))) side price with
  | None => d' = d
  | Some _ => mirrored d side price target_qty event_time d'
  end.
Proof. apply reconcile. Qed.
End Reconcile.

(** The offers at 100 hold 5 of the venue and 3 of a client; the venue now shows 2. *)
Lemma reconcilePhantomQty_mirrors_witness :
  mirrored sample_desk SELL 100 2 6 (reconcilePhantomQty sample_desk SELL 100 2 6 0 true).
Proof.
  assert (Hs : sane_mirror sample_desk SELL 100 0).
  { split.
    - by right.
    - vm_compute. congruence.
    - vm_compute. reflexivity.
    - vm_compute. repeat (constructor; [congruence|]). constructor.
    - vm_compute. repeat split; congruence.
    - vm_compute. split; congruence. }
  exact (reconcilePhantomQty_mirrors sample_desk SELL 100 2 6 0 true sample_desk_ok Hs).
Defined.
