(* ===== verification/SystemProofs.v ===== *)
(** * The process: every instrument, every request, every market event

    [sys_ok] is what the exchange thread keeps of all instruments at once. Each thing it does
    - a request, an order or trade of the venue, a reconciled level, a flush - returns, keeps
    [sys_ok], touches one instrument, and appends to the two output queues. [reachable]
    collects everything it may do; a subscriber that replays the level frames published for
    an instrument holds the depth of its book. *)

From S2P Require Import Prelude Types FixedString RingBuffer Orders Messages MarketData.
From S2P Require Import L3Interface L3Lemmas OrderBook OrderBookInv OrderBookOps.
From S2P Require Import Sweep MatchCommon MatchLemmas FifoEngine FifoProofs FifoOrders.
From S2P Require Import ProRata MatchingConfig MatchContract BookState Symbol SymbolProofs.
From S2P Require Import SymbolManager Exchange DeskState L3Reference Concrete.
From S2P Require Import ExchangeProofs MarketProofs Reconcile.

Section System.
Context {L3 Pool : Type} {l3ops : L3Ops L3} {laws : L3Laws L3} {poolops : ObjectPool Pool}
  {poollaws : PoolLaws Pool} {env : Environment}.
Abbreviation World := (World L3 Pool).
Abbreviation Desk := (Desk L3 Pool).
Abbreviation System := (System L3 Pool).
Implicit Types w : World.
Implicit Types d : Desk.
Implicit Types s : System.

(** ** The state of the process *)

(** The instruments of this venue. *)
Definition listed s (i : nat) : Prop :=
  exists ins, sm_symbols (sys_symbols s) !! i = Some ins
    /\ sym_venue (in_symbol ins) = ex_venue (sys_exchange s) /\ is_Some (in_order_book ins).

Record sys_ok s : Prop := {
  so_names : manager_ok (sys_symbols s);
  so_books : forall name i, getSymbol (sys_symbols s) name (ex_venue (sys_exchange s)) = Some i -> listed s i;
  so_desks : forall i d, desk_at s i = Some d -> desk_ok d;
  so_marked : forall i, i ∈ ex_market_changed_symbols (sys_exchange s) -> listed s i
}.

(** One instrument at most was touched; the queues were appended to. *)
Record sys_step s (i : nat) s' : Prop := {
  ss_others : forall j, j <> i -> sm_symbols (sys_symbols s') !! j = sm_symbols (sys_symbols s) !! j;
  ss_names : sm_symbols_by_name (sys_symbols s') = sm_symbols_by_name (sys_symbols s);
  ss_venue : ex_venue (sys_exchange s') = ex_venue (sys_exchange s);
  ss_responses : exists l, sys_responses s' = sys_responses s ++ l;
  ss_md : exists news, sys_md s' = sys_md s ++ news
    /\ forall d, desk_at s i = Some d -> Forall (fun u => mdu_symbol u = name_of d) news;
  ss_numbers : g_next_order_id (sys_glob s) <= g_next_order_id (sys_glob s')
}.

Lemma desk_at_inv s i d :
  desk_at s i = Some d ->
  sm_symbols (sys_symbols s) !! i = Some (mkInstrument (d_symbol d) (Some (w_book (d_world d))))
  /\ d_pointer d = i /\ d_exchange d = sys_exchange s
  /\ d_world d = mkWorld (w_book (d_world d)) (sys_glob s) (sys_responses s) (sys_md s).
Proof.
  unfold desk_at. destruct (sm_symbols (sys_symbols s) !! i) as [[symbol [b|]]|] eqn:E; try done. by intros [= <-].
Qed.

Lemma listed_desk s i : listed s i -> exists d, desk_at s i = Some d.
Proof. intros ([symbol [b|]] & E & _ & [x Hx]); [|done]. unfold desk_at. rewrite E. by eexists. Qed.

Lemma put_desk_at s d d' i j :
  desk_at s i = Some d -> d_pointer d' = i ->
  desk_at (put_desk s d') j
  = if decide (j = i) then Some d'
    else match desk_at s j with
         | Some d0 => Some (mkDesk (d_exchange d') j (d_symbol d0)
                              (mkWorld (w_book (d_world d0)) (w_glob (d_world d')) (w_responses (d_world d')) (w_md (d_world d'))))
         | None => None
         end.
Proof.
  intros Hd Hp. destruct (desk_at_inv s i d Hd) as (E & _). unfold desk_at, put_desk. cbn. rewrite Hp.
  destruct (decide (j = i)) as [->|Hne].
  - rewrite list_lookup_insert_eq by (by eapply lookup_lt_Some). destruct d' as [e i' sym [b g r m]]. cbn in *. by subst i'.
  - rewrite list_lookup_insert_ne by done. by destruct (sm_symbols (sys_symbols s) !! j) as [[symbol [b|]]|].
Qed.

(** What the process needs of a handler to stay in order. *)
Record kept d d' : Prop := {
  kp_ok : desk_ok d';
  kp_symbol : same_symbol (d_symbol d) (d_symbol d');
  kp_pointer : d_pointer d' = d_pointer d;
  kp_venue : venue_of d' = venue_of d;
  kp_marks : forall j, j ∈ marks d' -> j ∈ marks d \/ j = d_pointer d;
  kp_numbers : g_next_order_id (w_glob (d_world d)) <= g_next_order_id (w_glob (d_world d'))
}.

Lemma handled_kept d d' : handled d d' -> kept d d'.
Proof. intros [H1 [] _ H4]. by split. Qed.

#[export] Instance kept_trans : Transitive kept.
Proof.
  intros d1 d2 d3 [A1 (A2 & A3 & A4 & A5 & A6) A7 A8 A9 A10] [B1 (B2 & B3 & B4 & B5 & B6) B7 B8 B9 B10].
  split; [done|repeat split; congruence|congruence|congruence| |lia].
  intros j Hj. destruct (B9 j Hj) as [Hj'| ->]; [by apply A9|right; congruence].
Qed.

Lemma put_desk_venue s i d d' : desk_at s i = Some d -> kept d d' -> ex_venue (d_exchange d') = ex_venue (sys_exchange s).
Proof.
  intros Hd H. destruct (desk_at_inv s i d Hd) as (_ & _ & Ee & _). pose proof (kp_venue _ _ H) as Hv. unfold venue_of in Hv. by rewrite Hv, Ee.
Qed.

Lemma put_desk_lookup s i d d' j : desk_at s i = Some d -> d_pointer d' = i ->
  sm_symbols (sys_symbols (put_desk s d')) !! j
  = if decide (j = i) then Some (mkInstrument (d_symbol d') (Some (w_book (d_world d')))) else sm_symbols (sys_symbols s) !! j.
Proof.
  intros Hd Hp. destruct (desk_at_inv s i d Hd) as (E & _). cbn. rewrite Hp. destruct (decide (j = i)) as [->|Hne].
  - rewrite list_lookup_insert_eq by (by eapply lookup_lt_Some). done.
  - by rewrite list_lookup_insert_ne.
Qed.

Lemma put_desk_kept s i d d' : sys_ok s -> listed s i -> desk_at s i = Some d -> kept d d' -> sys_ok (put_desk s d').
Proof.
  intros [N B D M] Hi Hd Hk. pose proof (put_desk_venue s i d d' Hd Hk) as Hv. pose proof Hk as [H1 (_ & Sv & Sn & _) Hp' _ Hm H4].
  destruct (desk_at_inv s i d Hd) as (E & Ep & Ee & Ew). assert (Hp : d_pointer d' = i) by congruence.
  pose proof (fun j => put_desk_lookup s i d d' j Hd Hp) as Hlook.
  assert (Hlisted : forall j, listed s j -> listed (put_desk s d') j).
  { intros j (ins & I1 & I2 & I3). unfold listed. rewrite Hlook. change (sys_exchange (put_desk s d')) with (d_exchange d'). rewrite Hv.
    destruct (decide (j = i)) as [->|]; [|by exists ins]. rewrite E in I1. injection I1 as <-.
    eexists. split; [done|]. cbn in *. split; [congruence|done]. }
  rewrite Ew in H4. cbn in H4. split.
  - intros k j. rewrite Hlook. change (sm_symbols_by_name (sys_symbols (put_desk s d'))) with (sm_symbols_by_name (sys_symbols s)).
    rewrite (N k j). destruct (decide (j = i)) as [->|]; [|done]. rewrite E. split; intros (ins & [= <-] & ->); eexists; (split; [done|]);
      cbn; congruence.
  - intros name j Hj. cbn [put_desk sys_exchange] in Hj. rewrite Hv in Hj. by apply Hlisted, (B name).
  - intros j d0. rewrite (put_desk_at s d d' i j Hd Hp). destruct (decide (j = i)) as [->|]; [by intros [= <-]|].
    destruct (desk_at s j) as [dj|] eqn:Ej; [|done]. intros [= <-]. eapply desk_ok_same; [exact (D j dj Ej)|done|done|].
    destruct (desk_at_inv s j dj Ej) as (_ & _ & _ & Ewj). rewrite Ewj. exact H4.
  - intros j Hj. cbn [put_desk sys_exchange] in Hj. destruct (Hm j Hj) as [Hj'| ->].
    + apply Hlisted, M. unfold marks in Hj'. by rewrite Ee in Hj'.
    + rewrite Ep. by apply Hlisted.
Qed.

(** A handler that leaves its instrument in order leaves the process in order. *)
Lemma put_desk_ok s i d d' :
  sys_ok s -> listed s i -> desk_at s i = Some d -> handled d d' ->
  sys_ok (put_desk s d') /\ sys_step s i (put_desk s d').
Proof.
  intros Hok Hi Hd Hh. pose proof (handled_kept _ _ Hh) as Hk. split; [by eapply put_desk_kept|].
  pose proof (put_desk_venue s i d d' Hd Hk) as Hv. destruct Hh as [H1 H2 (l & H3) H4]. destruct (desk_at_inv s i d Hd) as (_ & Ep & _ & Ew).
  rewrite Ew in H3, H4. cbn in H3, H4. split.
  - intros j Hne. rewrite (put_desk_lookup s i d) by (done || by rewrite (dt_pointer _ _ H2)). by rewrite decide_False.
  - done.
  - done.
  - exists l. exact H3.
  - destruct (dt_news _ _ H2) as (news & Hm & Hn). exists news. rewrite Ew in Hm. split; [exact Hm|].
    intros d0 Hd0. by rewrite Hd in Hd0; injection Hd0 as <-.
  - exact H4.
Qed.

Lemma sys_step_refl s i : sys_step s i s.
Proof. split; try done; exists []; rewrite app_nil_r; done. Qed.

(** ** The feed of one instrument *)

Definition sys_feed s (i : nat) : list (Side * price_t * qty_t) :=
  match desk_at s i with Some d => feed d | None => [] end.

Definition sys_depth s (i : nat) (side : Side) (p : price_t) : qty_t :=
  match desk_at s i with Some d => depth (w_book (d_world d)) side p | None => 0 end.

(** What a step appends to the feed of an instrument is what happened to its depth. *)
Definition feed_step s s' (i : nat) : Prop :=
  exists ds, sys_feed s' i = sys_feed s i ++ ds
    /\ forall side p, book_side side -> sys_depth s' i side p = follow ds side p (sys_depth s i side p).

Lemma feed_step_quiet s s' i : sys_feed s' i = sys_feed s i -> sys_depth s' i = sys_depth s i -> feed_step s s' i.
Proof. intros E1 E2. exists []. rewrite app_nil_r, E1, E2. done. Qed.

Lemma feed_step_trans s1 s2 s3 i : feed_step s1 s2 i -> feed_step s2 s3 i -> feed_step s1 s3 i.
Proof.
  intros (a & A1 & A2) (b & B1 & B2). exists (a ++ b). split; [by rewrite B1, A1, app_assoc|].
  intros side p Hs. by rewrite B2, A2, follow_app.
Qed.

(** Frames of another instrument are skipped. *)
Lemma level_frames_foreign symbol name news :
  Forall (fun u => mdu_symbol u = name) news -> name <> symbol -> level_frames symbol news = [].
Proof.
  intros Hn Hne. induction Hn as [|u news Hu _ IH]; [done|]. unfold level_frames in *. cbn [flat_map]. rewrite IH, app_nil_r.
  unfold frame_deltas. rewrite bool_decide_eq_false_2 by congruence. by destruct (mdu_data u).
Qed.

Lemma listed_names s i j d d' :
  sys_ok s -> listed s i -> listed s j -> i <> j -> desk_at s i = Some d -> desk_at s j = Some d' -> name_of d <> name_of d'.
Proof.
  intros [N _ _ _] (ins & I1 & I2 & _) (ins' & J1 & J2 & _) Hne Hd Hd' E. apply Hne.
  destruct (desk_at_inv s i d Hd) as (Ed & _). destruct (desk_at_inv s j d' Hd') as (Ed' & _).
  assert (ins = mkInstrument (d_symbol d) (Some (w_book (d_world d)))) as -> by congruence.
  assert (ins' = mkInstrument (d_symbol d') (Some (w_book (d_world d')))) as -> by congruence. cbn [in_symbol] in *.
  assert (Hk : sm_symbols_by_name (sys_symbols s) !! (sym_venue (d_symbol d), sym_symbol (d_symbol d)) = Some i)
    by (apply N; by eexists).
  assert (Hk' : sm_symbols_by_name (sys_symbols s) !! (sym_venue (d_symbol d), sym_symbol (d_symbol d)) = Some j).
  { apply N. eexists. split; [exact J1|]. cbn [in_symbol]. unfold name_of in E. by rewrite E, I2, J2. }
  congruence.
Qed.

Lemma put_desk_feed s i d d' j :
  sys_ok s -> listed s i -> listed s j -> desk_at s i = Some d -> handled d d' -> feed_step s (put_desk s d') j.
Proof.
  intros Hok Hi Hj Hd [H1 H2 H3 H4]. destruct (desk_at_inv s i d Hd) as (E & Ep & Ee & Ew).
  assert (Hp : d_pointer d' = i) by (rewrite (dt_pointer _ _ H2); exact Ep).
  unfold feed_step, sys_feed, sys_depth. rewrite (put_desk_at s d d' i j Hd Hp).
  destruct (decide (j = i)) as [->|Hne]; [rewrite Hd; apply (dt_feed _ _ H2)|].
  destruct (listed_desk s j Hj) as (dj & Ej). rewrite Ej. exists []. rewrite app_nil_r. split; [|done].
  destruct (desk_at_inv s j dj Ej) as (_ & _ & _ & Ewj). destruct (dt_news _ _ H2) as (news & Hm & Hn).
  assert (Hnames : name_of d <> name_of dj) by (eapply (listed_names s i j); done).
  unfold feed, name_of in *. cbn [d_symbol d_world w_md w_book]. rewrite Hm, level_frames_app.
  rewrite (level_frames_foreign _ _ _ Hn) by done. rewrite app_nil_r, Ewj, Ew. done.
Qed.

Lemma put_desk_listed s i d d' j :
  desk_at s i = Some d -> desk_step d d' -> listed s j -> listed (put_desk s d') j.
Proof.
  intros Hd H2 (ins & I1 & I2 & I3). destruct (desk_at_inv s i d Hd) as (E & Ep & Ee & Ew).
  assert (Hp : d_pointer d' = i) by (rewrite (dt_pointer _ _ H2); exact Ep).
  pose proof (dt_venue _ _ H2) as Hv. unfold venue_of in Hv. rewrite Ee in Hv. destruct (dt_symbol _ _ H2) as (_ & Sv & _).
  unfold listed. cbn. rewrite Hp, Hv. destruct (decide (j = i)) as [->|Hne].
  - rewrite list_lookup_insert_eq by (by eapply lookup_lt_Some). eexists. split; [done|]. rewrite E in I1. injection I1 as <-.
    cbn in *. split; [congruence|done].
  - rewrite list_lookup_insert_ne by done. by exists ins.
Qed.

(** The instruments themselves untouched. *)
Lemma sys_ok_frame s s' :
  sys_symbols s' = sys_symbols s -> ex_venue (sys_exchange s') = ex_venue (sys_exchange s) ->
  (forall i, i ∈ ex_market_changed_symbols (sys_exchange s') -> i ∈ ex_market_changed_symbols (sys_exchange s)) ->
  g_next_order_id (sys_glob s) <= g_next_order_id (sys_glob s') -> sys_ok s -> sys_ok s'.
Proof.
  intros Es Ev Em Eg [N B D M]. assert (Hl : forall i, listed s i -> listed s' i).
  { intros i Hi. unfold listed. by rewrite Es, Ev. }
  split.
  - by rewrite Es.
  - intros name i. rewrite Es, Ev. intros Hi. by eapply Hl, B.
  - intros i d Hd. destruct (desk_at_inv s' i d Hd) as (E & _ & _ & Ew). rewrite Es in E.
    assert (Hd0 : desk_at s i = Some (mkDesk (sys_exchange s) i (d_symbol d)
      (mkWorld (w_book (d_world d)) (sys_glob s) (sys_responses s) (sys_md s)))) by (unfold desk_at; by rewrite E).
    eapply desk_ok_same; [exact (D i _ Hd0)|done|done|]. by rewrite Ew.
  - intros i Hi. by apply Hl, M, Em.
Qed.

Lemma feed_step_frame s s' i : sys_symbols s' = sys_symbols s -> sys_md s' = sys_md s -> feed_step s s' i.
Proof.
  intros Es Em. apply feed_step_quiet; unfold sys_feed, sys_depth, desk_at; rewrite Es;
    destruct (sm_symbols (sys_symbols s) !! i) as [[symbol [b|]]|]; try done.
  unfold feed. cbn [d_world w_md w_book]. by rewrite Em.
Qed.

(** ** What the exchange thread does *)

Inductive SysEvent :=
  EvRequest (request : Request)
| EvMarketOrder (i : nat) (event : MarketOrderEvent)
| EvMarketTrade (i : nat) (event : MarketTradeEvent)
| EvReconcile (i : nat) (side : Side) (price : price_t) (target_qty : qty_t) (event_time seq_num : Z) (end_event : bool)
| EvFlush.

Definition run_event s (ev : SysEvent) : option System :=
  match ev with
  | EvRequest request => processRequest base_hooks s (Some request)
  | EvMarketOrder i event => on_desk s i (fun d => applyMarketOrder d event)
  | EvMarketTrade i event => on_desk s i (fun d => replayMarketTrade d event)
  | EvReconcile i side price target_qty event_time seq_num end_event =>
      on_desk s i (fun d => Some (reconcilePhantomQty d side price target_qty event_time seq_num end_event))
  | EvFlush => flushMarketEvents s
  end.

(** The request is one a gateway sends, for the instrument it names. *)
Definition sane_request s (request : Request) : Prop := forall i d,
  getSymbol (sys_symbols s) (view (req_symbol request)) (ex_venue (sys_exchange s)) = Some i -> desk_at s i = Some d ->
  match req_body request with
  | ReqAdd msg => sane_add d msg
  | ReqModify msg => sane_modify d msg
  | _ => True
  end.

Definition sane_on s (i : nat) (P : Desk -> Prop) : Prop :=
  listed s i /\ forall d, desk_at s i = Some d -> P d.

Definition sane_event s (ev : SysEvent) : Prop :=
  match ev with
  | EvRequest request => sane_request s request
  | EvMarketOrder i event => sane_on s i (fun d => sane_market d event
      /\ (moe_action event = ACTION_NEW -> moe_book_order_id event ∉ book_ids (ob_l3 (w_book (d_world d)))))
  | EvMarketTrade i event => sane_on s i (fun d => sane_trade d event)
  | EvReconcile i side price _ _ seq_num _ => sane_on s i (fun d => sane_mirror d side price seq_num)
  | EvFlush => True
  end.

(** What any event leaves. *)
Record moved s s' : Prop := {
  mv_ok : sys_ok s';
  mv_listed : forall i, listed s i -> listed s' i;
  mv_feed : forall i, listed s i -> feed_step s s' i;
  mv_names : sm_symbols_by_name (sys_symbols s') = sm_symbols_by_name (sys_symbols s);
  mv_venue : ex_venue (sys_exchange s') = ex_venue (sys_exchange s);
  mv_responses : exists l, sys_responses s' = sys_responses s ++ l;
  mv_md : exists l, sys_md s' = sys_md s ++ l
}.

Lemma moved_refl s : sys_ok s -> moved s s.
Proof. intros Hok. split; try done; [|exists []; by rewrite app_nil_r..]. intros i _. by apply feed_step_quiet. Qed.

Lemma moved_trans s1 s2 s3 : moved s1 s2 -> moved s2 s3 -> moved s1 s3.
Proof.
  intros [A1 A2 A3 A4 A5 (a & A6) (a' & A7)] [B1 B2 B3 B4 B5 (b & B6) (b' & B7)]. split.
  - done.
  - auto.
  - intros i Hi. eapply feed_step_trans; auto.
  - congruence.
  - congruence.
  - exists (a ++ b). by rewrite B6, A6, app_assoc.
  - exists (a' ++ b'). by rewrite B7, A7, app_assoc.
Qed.

Lemma on_desk_moved s i f :
  sys_ok s -> listed s i ->
  (forall d, desk_at s i = Some d -> desk_ok d -> exists d', f d = Some d' /\ handled d d') ->
  exists s', on_desk s i f = Some s' /\ sys_step s i s' /\ moved s s'.
Proof.
  intros Hok Hi Hf. destruct (listed_desk s i Hi) as (d & Hd). destruct (Hf d Hd (so_desks _ Hok i d Hd)) as (d' & E & Hh).
  exists (put_desk s d'). unfold on_desk. rewrite Hd, E. split; [done|].
  destruct (put_desk_ok s i d d' Hok Hi Hd Hh) as [H1 H2]. split; [done|]. destruct H2 as [_ S2 S3 S4 (n & S5 & _) _].
  split; try done.
  - intros j Hj. apply (put_desk_listed s i d d'); [done|apply Hh|done].
  - intros j Hj. exact (put_desk_feed s i d d' j Hok Hi Hj Hd Hh).
  - by exists n.
Qed.

Lemma frame_moved s s' :
  sys_ok s -> sys_symbols s' = sys_symbols s -> ex_venue (sys_exchange s') = ex_venue (sys_exchange s) ->
  (forall i, i ∈ ex_market_changed_symbols (sys_exchange s') -> i ∈ ex_market_changed_symbols (sys_exchange s)) ->
  g_next_order_id (sys_glob s) <= g_next_order_id (sys_glob s') -> sys_md s' = sys_md s ->
  (exists l, sys_responses s' = sys_responses s ++ l) -> moved s s'.
Proof.
  intros Hok Es Ev Em Eg Emd Hr. split; try done.
  - by eapply sys_ok_frame.
  - intros i Hi. unfold listed. by rewrite Es, Ev.
  - intros i _. by apply feed_step_frame.
  - by rewrite Es.
  - exists []. by rewrite app_nil_r.
Qed.

(** ** Requests *)

Definition rejection_for (request : Request) (reason : OrdRejectReason) (r : OrderResponse) : Prop :=
  r_response_type r = Msg.REJECT /\ r_order_status r = OrderStatus.REJECTED /\ r_reject_reason r = reason
  /\ r_request_tag r = req_request_tag request.

(** One rejection for want of a contract, and nothing else but a tick of the clock. *)
Definition unlisted_refused s (request : Request) s' : Prop := exists r,
  rejection_for request OrdReject.UNKNOWN_CONTRACT r
  /\ s' = s <| sys_glob := (sys_glob s) <| g_clock ::= S |> |> <| sys_responses := sys_responses s ++ [r] |>.

Definition is_order_request (request : Request) : bool :=
  match req_body request with ReqAdd _ | ReqModify _ | ReqCancel _ => true | _ => false end.

Lemma unlisted_moved s request s' : sys_ok s -> unlisted_refused s request s' -> moved s s'.
Proof. intros Hok (r & _ & ->). apply frame_moved; try done. by eexists. Qed.

Lemma with_symbol_moved s request reject f :
  sys_ok s ->
  (forall now slot, rejection_for request OrdReject.UNKNOWN_CONTRACT (reject now slot)) ->
  (forall i d, getSymbol (sys_symbols s) (view (req_symbol request)) (ex_venue (sys_exchange s)) = Some i ->
     desk_at s i = Some d -> desk_ok d -> exists d', f d = Some d' /\ handled d d') ->
  exists s', with_symbol s request reject f = Some s' /\ moved s s'
    /\ match getSymbol (sys_symbols s) (view (req_symbol request)) (ex_venue (sys_exchange s)) with
       | Some i => sys_step s i s'
       | None => unlisted_refused s request s'
       end.
Proof.
  intros Hok Hrej Hf. unfold with_symbol. destruct (getSymbol _ _ _) as [i|] eqn:E.
  - destruct (on_desk_moved s i f Hok (so_books _ Hok _ _ E)) as (s' & S1 & S2 & S3); [by intros d; apply Hf|]. by exists s'.
  - exists (reject_unlisted s reject). split; [done|]. assert (Hu : unlisted_refused s request (reject_unlisted s reject)).
    { unfold reject_unlisted. eexists. split; [apply Hrej|reflexivity]. }
    split; [by eapply unlisted_moved|exact Hu].
Qed.

Lemma request_moved s request :
  sys_ok s -> sane_request s request ->
  exists s', processRequest base_hooks s (Some request) = Some s' /\ moved s s'
    /\ if is_order_request request then
         match getSymbol (sys_symbols s) (view (req_symbol request)) (ex_venue (sys_exchange s)) with
         | Some i => sys_step s i s'
         | None => unlisted_refused s request s'
         end
       else s' = s.
Proof.
  intros Hok Hs. unfold processRequest, is_order_request, sane_request in *.
  destruct (req_body request) as [msg|msg|msg|msg|msg|t].
  - apply with_symbol_moved; [done|done|]. intros i d Hi Hd Hdo. destruct (new_order d request msg Hdo (Hs i d Hi Hd)) as (d' & H1 & H2 & _).
    by exists d'.
  - apply with_symbol_moved; [done|done|]. intros i d Hi Hd Hdo.
    destruct (modify_order d request msg Hdo (Hs i d Hi Hd)) as (d' & H1 & H2 & _). by exists d'.
  - apply with_symbol_moved; [done|done|]. intros i d Hi Hd Hdo. eexists. split; [done|]. by apply cancel_order.
  - exists s. split; [done|]. split; [by apply moved_refl|done].
  - exists s. split; [done|]. split; [by apply moved_refl|done].
  - exists s. split; [done|]. split; [by apply moved_refl|done].
Qed.

(** ** The flush of market events *)

Lemma flush_each_moved s l :
  sys_ok s -> Forall (listed s) l ->
  exists s', flush_each s l = Some s' /\ moved s s'
    /\ ex_market_changed_symbols (sys_exchange s') = ex_market_changed_symbols (sys_exchange s)
    /\ (forall i d, i ∈ l -> desk_at s' i = Some d -> deltas (w_book (d_world d)) = [])
    /\ (forall i d, desk_at s i = Some d -> deltas (w_book (d_world d)) = [] ->
        forall d', desk_at s' i = Some d' -> deltas (w_book (d_world d')) = []).
Proof.
  revert s. induction l as [|i l IH]; intros s Hok Hl.
  { exists s. split; [done|]. split; [by apply moved_refl|]. split; [done|]. split; [intros i d Hi; by apply elem_of_nil in Hi|].
    intros i d Hd Hz d' Hd'. congruence. }
  apply Forall_cons in Hl as [Hi Hl]. cbn [flush_each].
  destruct (listed_desk s i Hi) as (d & Hd). set (s1 := put_desk s (flushMarketDataCaches d)).
  assert (E : on_desk s i (fun d => Some (flushMarketDataCaches d)) = Some s1) by (unfold on_desk; by rewrite Hd).
  rewrite E. destruct (on_desk_moved s i (fun d => Some (flushMarketDataCaches d)) Hok Hi) as (s1' & E' & S2 & S3).
  { intros d0 Hd0 Hok0. eexists. split; [done|]. by apply flush_handled. }
  rewrite E in E'. injection E' as <-.
  destruct (desk_at_inv s i d Hd) as (_ & Ep & Ee & _). pose proof (flush_step d) as (Hst & Hdel & _).
  assert (Hp : d_pointer (flushMarketDataCaches d) = i) by (rewrite (dt_pointer _ _ Hst); exact Ep).
  assert (Hat : forall j, desk_at s1 j = _) by exact (fun j => put_desk_at s d (flushMarketDataCaches d) i j Hd Hp).
  destruct (IH s1 (mv_ok _ _ S3)) as (s' & F1 & F2 & F3 & F4 & F5).
  { eapply Forall_impl; [exact Hl|]. apply (mv_listed _ _ S3). }
  exists s'. split; [exact F1|]. split; [by eapply moved_trans|]. split; [|split].
  - rewrite F3. destruct (flush_frame d) as (Fx & _).
    change (sys_exchange s1) with (d_exchange (flushMarketDataCaches d)). by rewrite Fx, Ee.
  - intros j dj [->|Hj]%elem_of_cons Hdj; [|by eapply F4]. eapply F5; [|exact Hdel|exact Hdj].
    rewrite Hat. by rewrite decide_True.
  - intros j dj Hdj Hz dj' Hdj'. destruct (decide (j = i)) as [->|Hne].
    + eapply F5; [|exact Hdel|exact Hdj']. rewrite Hat. by rewrite decide_True.
    + eapply F5; [| |exact Hdj']; [rewrite Hat, decide_False by done; rewrite Hdj; reflexivity|exact Hz].
Qed.

Lemma flush_moved s :
  sys_ok s ->
  exists s', flushMarketEvents s = Some s' /\ moved s s' /\ ex_market_changed_symbols (sys_exchange s') = []
    /\ forall i d, i ∈ ex_market_changed_symbols (sys_exchange s) -> desk_at s' i = Some d -> deltas (w_book (d_world d)) = [].
Proof.
  intros Hok. unfold flushMarketEvents.
  destruct (flush_each_moved s (ex_market_changed_symbols (sys_exchange s)) Hok) as (s1 & -> & F2 & F3 & F4 & _).
  { apply Forall_forall. apply (so_marked _ Hok). }
  eexists. split; [done|]. split; [|split; [done|]].
  - eapply moved_trans; [exact F2|]. apply frame_moved; try done; [apply F2| |].
    + intros i Hi. by apply elem_of_nil in Hi.
    + exists []. by rewrite app_nil_r.
  - intros i d Hi Hd. unfold desk_at in Hd. cbn in Hd. destruct (sm_symbols (sys_symbols s1) !! i) as [[symbol [b|]]|] eqn:E; try done.
    injection Hd as <-. assert (Ed : desk_at s1 i = Some (mkDesk (sys_exchange s1) i symbol
      (mkWorld b (sys_glob s1) (sys_responses s1) (sys_md s1)))) by (unfold desk_at; rewrite E; reflexivity).
    exact (F4 i _ Hi Ed).
Qed.

(** ** Every run *)

Lemma event_moved s ev : sys_ok s -> sane_event s ev -> exists s', run_event s ev = Some s' /\ moved s s'.
Proof.
  intros Hok Hs. destruct ev as [request|i event|i event|i side price target_qty event_time seq_num end_event|]; cbn in *.
  - destruct (request_moved s request Hok Hs) as (s' & H1 & H2 & _). by exists s'.
  - destruct Hs as [Hi Hs]. edestruct (on_desk_moved s i) as (s' & S1 & _ & S3); [done|done| |by exists s'].
    intros d Hd Hdo. destruct (Hs d Hd) as [Ha Hb]. destruct (apply_market d event Hdo Ha Hb) as (d' & H1 & H2 & _). by exists d'.
  - destruct Hs as [Hi Hs]. edestruct (on_desk_moved s i) as (s' & S1 & _ & S3); [done|done| |by exists s'].
    intros d Hd Hdo. destruct (replay_trade d event Hdo (Hs d Hd)) as (d' & left & H1 & H2 & _). by exists d'.
  - destruct Hs as [Hi Hs]. edestruct (on_desk_moved s i) as (s' & S1 & _ & S3); [done|done| |by exists s'].
    intros d Hd Hdo. eexists. split; [done|].
    pose proof (reconcile d side price target_qty event_time seq_num end_event Hdo (Hs d Hd)) as Hr. cbv zeta in Hr.
    destruct (getLevel _ _ _); [apply Hr|]. rewrite Hr. by apply handled_refl.
  - destruct (flush_moved s Hok) as (s' & H1 & H2 & _). by exists s'.
Qed.

(** The states the exchange thread can be in. *)
Inductive reachable (s0 : System) : System -> Prop :=
| ReachStart : reachable s0 s0
| ReachEvent s ev s' : reachable s0 s -> sane_event s ev -> run_event s ev = Some s' -> reachable s0 s'.

Lemma reachable_moved s0 s : sys_ok s0 -> reachable s0 s -> moved s0 s.
Proof.
  intros Hok Hr. induction Hr as [|s ev s' Hr IH Hs E]; [by apply moved_refl|].
  destruct (event_moved s ev (mv_ok _ _ IH) Hs) as (s1 & E1 & H1). rewrite E in E1. injection E1 as <-. by eapply moved_trans.
Qed.




(** The flush of market events publishes what every marked instrument has pending and
    forgets the marks; a subscriber to any instrument still follows its book. *)
Lemma flushMarketEvents_publishes s :
  sys_ok s ->
  exists s', flushMarketEvents s = Some s' /\ sys_ok s' /\ ex_market_changed_symbols (sys_exchange s') = []
    /\ (forall i d, i ∈ ex_market_changed_symbols (sys_exchange s) -> desk_at s' i = Some d -> deltas (w_book (d_world d)) = [])
    /\ forall i, listed s i -> feed_step s s' i.
Proof.
  intros Hok. destruct (flush_moved s Hok) as (s' & H1 & H2 & H3 & H4). exists s'.
  split; [exact H1|]. split; [apply H2|]. split; [exact H3|]. split; [exact H4|apply H2].
Qed.
End System.

(** ** Witnesses *)

Definition sample_system : System RefBook Z :=
  mkSystem sample_exchange
    (mkManager [mkInstrument sample_symbol (Some (w_book desk_world))] {[symbol_key COINBASE (str "BTC-USD") := 0%nat]})
    (w_glob desk_world) [] [].

Lemma sample_listed : listed sample_system 0.
Proof. eexists. split; [reflexivity|]. split; [reflexivity|]. by eexists. Qed.

Lemma sample_desk_at : desk_at sample_system 0 = Some sample_desk.
Proof. reflexivity. Qed.

Lemma sample_system_ok : sys_ok sample_system.
Proof.
  split.
  - intros k i. cbn [sample_system sys_symbols sm_symbols_by_name sm_symbols]. rewrite lookup_singleton_Some. split.
    + intros [<- <-]. eexists. by split.
    + intros (ins & Hi & ->). apply list_lookup_singleton_Some in Hi as [-> <-]. by split.
  - intros name i Hi. unfold getSymbol in Hi. cbn [sample_system sys_symbols sm_symbols_by_name] in Hi.
    apply lookup_singleton_Some in Hi as [_ <-]. exact sample_listed.
  - intros i d Hd. destruct (desk_at_inv _ _ _ Hd) as (E & _). cbn [sample_system sys_symbols sm_symbols] in E.
    apply list_lookup_singleton_Some in E as [-> _]. rewrite sample_desk_at in Hd. apply (inj Some) in Hd as <-.
    exact sample_desk_ok.
  - intros i Hi. by apply elem_of_nil in Hi.
Qed.

Definition sample_request_add : Request := sample_request (ReqAdd (sample_add (assign 37 (str "o1")) 100 20)).

Lemma sample_sane : sane_request sample_system sample_request_add.
Proof.
  intros i d Hi Hd. destruct (desk_at_inv _ _ _ Hd) as (E & _). cbn [sample_system sys_symbols sm_symbols] in E.
  apply list_lookup_singleton_Some in E as [-> _]. rewrite sample_desk_at in Hd. apply (inj Some) in Hd as <-.
  exact sample_sane_add.
Qed.

(** A run of one request. *)
Lemma sample_run : exists s, run_event sample_system (EvRequest sample_request_add) = Some s /\ reachable sample_system s.
Proof.
  destruct (event_moved sample_system (EvRequest sample_request_add) sample_system_ok sample_sane) as (s & E & _).
  exists s. split; [exact E|]. exact (ReachEvent sample_system sample_system (EvRequest sample_request_add) s (ReachStart _) sample_sane E).
Qed.




Lemma flushMarketEvents_publishes_witness :
  exists s', flushMarketEvents sample_system = Some s' /\ sys_ok s' /\ ex_market_changed_symbols (sys_exchange s') = []
    /\ (forall i d, i ∈ ex_market_changed_symbols (sys_exchange sample_system) -> desk_at s' i = Some d ->
        deltas (w_book (d_world d)) = [])
    /\ forall i, listed sample_system i -> feed_step sample_system s' i.
Proof. exact (flushMarketEvents_publishes sample_system sample_system_ok). Defined.
