(* ===== verification/Instruments.v ===== *)
(** * Opening an instrument

    What a venue does when it first hears of a product: [createSymbol] of
    [src/common/symbol_manager.hpp], [assignMatching] of [exchange/exchange.cpp] and
    [createOrderBook] of [exchange/symbol.hpp], in the order both [addSymbol]s of [venues/]
    call them. A new book's library parts are behind [NewBooks].
    The instrument joins the others with the venue's engine and an empty book, and everything
    the exchange keeps of its instruments still holds ([open_symbol_opens]). *)

From S2P Require Import Prelude Types FixedString RingBuffer Orders Messages MarketData L3Interface.
From S2P Require Import L3Lemmas L3Reference OrderBook OrderBookInv Concrete OrderBookOps.
From S2P Require Import Sweep MatchCommon MatchLemmas FifoEngine FifoProofs MatchingConfig.
From S2P Require Import MatchContract BookState Symbol SymbolManager Exchange DeskState.
From S2P Require Import ExchangeProofs SystemProofs.

(** An [OrderBookL3] and an [ObjectPool] as constructed, the pool's slots included. *)
Class NewBooks (L3 Pool : Type) := {
  new_l3 : Z -> L3;
  new_pool : Pool;
  new_slots : ptr -> Order
}.

(** A new book is empty. *)
Class NewBooksLaws (L3 Pool : Type) `{L3Ops L3} `{NewBooks L3 Pool} : Prop := {
  law_new_levels sid s : book_side s -> getLevelsL3 (new_l3 sid) s = []
}.

Section Instruments.
Context {L3 Pool : Type} {l3ops : L3Ops L3} {poolops : ObjectPool Pool} {newbooks : NewBooks L3 Pool}.
Abbreviation System := (System L3 Pool).

Definition createOrderBook (s : Symbol) : OrderBook L3 Pool :=
  mkOrderBook (new_l3 (sym_id s)) new_slots new_pool ∅ ∅ ∅ ∅ (sym_venue s) (sym_symbol s) 0 0 [] [].

(** [storage] is the fresh array of the trade history. *)
Definition open_symbol (venue : Venue) (sys : System) (name : bytes) (storage : list MDTrade) : result (nat * System) :=
  let '(i, m) := createSymbol (sys_symbols sys) name venue storage in
  match sm_symbols m !! i with
  | None => Undefined
  | Some ins =>
      let* bound := assignMatching (sys_exchange sys) (in_symbol ins) in
      let symbol := snd bound in
      Ok (i, sys <| sys_exchange := fst bound |>
                 <| sys_symbols := m <| sm_symbols ::= <[i := mkInstrument symbol (Some (createOrderBook symbol))]> |> |>)
  end.

Definition on_symbol (f : Symbol -> Symbol) (i : nat) (sys : System) : System :=
  sys <| sys_symbols ::= fun m => m <| sm_symbols ::= alter (fun ins => ins <| in_symbol ::= f |>) i |> |>.
End Instruments.

Section Instruments.
Context {L3 Pool : Type} {l3ops : L3Ops L3} {poolops : ObjectPool Pool} {env : Environment}
  {newbooks : NewBooks L3 Pool} {newlaws : NewBooksLaws L3 Pool} {laws : L3Laws L3} {poollaws : PoolLaws Pool}.
Abbreviation System := (System L3 Pool).
Abbreviation Desk := (Desk L3 Pool).
Implicit Types sys : System.
Implicit Types d : Desk.

(** ** A new book *)

Lemma new_book_levels s side : book_side side -> getLevelsL3 (ob_l3 (createOrderBook s)) side = [].
Proof. apply law_new_levels. Qed.

Lemma new_book_inv s : book_inv None (createOrderBook s).
Proof.
  pose proof (new_book_levels s BUY (or_introl eq_refl)) as EB. pose proof (new_book_levels s SELL (or_intror eq_refl)) as ES.
  split.
  - split; rewrite ?EB, ?ES; [split; constructor|split; constructor|constructor].
  - intros id p. cbn. by rewrite lookup_empty.
  - intros k x. cbn. rewrite lookup_empty. split; [done|]. intros (id & H & _). by rewrite lookup_empty in H.
  - intros k x. cbn. rewrite lookup_empty. split; [done|]. intros (id & H & _). by rewrite lookup_empty in H.
  - intros p. unfold phantom_total, fsum. by rewrite EB, ES.
Qed.

Lemma new_book_fine s g r m : fine (mkWorld (createOrderBook s) g r m).
Proof.
  split.
  - apply new_book_inv.
  - intros side Hs. unfold priced, queue. cbn. rewrite law_new_levels by done. constructor.
  - intros id x. cbn. by rewrite lookup_empty.
  - intros id x. cbn. by rewrite lookup_empty.
Qed.

Lemma new_book_depth s side p : book_side side -> depth (createOrderBook s) side p = 0.
Proof. intros Hs. unfold depth. by rewrite new_book_levels. Qed.

(** ** Adding an instrument *)

(** A venue that never configured its matching. *)
Definition fifo_venue (e : Exchange) : Prop :=
  mc_type (ex_matching e) = FIFO /\ (ex_fifo_engine e = None \/ ex_fifo_engine e = Some FifoMatchingEngine).

Lemma fifo_assigns e s : fifo_venue e ->
  exists e', assignMatching e s = Ok (e', s <| sym_matching_engine := Some FifoMatchingEngine |> <| sym_smp_mode := ex_smp_mode e |>)
    /\ ex_venue e' = ex_venue e /\ ex_market_changed_symbols e' = ex_market_changed_symbols e /\ fifo_venue e'.
Proof.
  intros [Ht He]. unfold assignMatching, createMatchingEngine. rewrite Ht. cbn [engine_slot].
  destruct He as [E|E]; rewrite E; cbn [rbind]; eexists; (split; [done|]); (split; [done|]); (split; [done|]); (split; [done|]); by right.
Qed.

(** What stays when instruments are only added. *)
Record grown sys sys' : Prop := {
  gr_old : forall j ins, sm_symbols (sys_symbols sys) !! j = Some ins -> sm_symbols (sys_symbols sys') !! j = Some ins;
  gr_glob : sys_glob sys' = sys_glob sys;
  gr_responses : sys_responses sys' = sys_responses sys;
  gr_md : sys_md sys' = sys_md sys
}.

(** The instrument as it was opened. *)
Record opened (venue : Venue) sys (name : bytes) (i : nat) sys' d : Prop := {
  od_ok : sys_ok sys';
  od_grown : grown sys sys';
  od_venue : ex_venue (sys_exchange sys') = venue;
  od_fifo : fifo_venue (sys_exchange sys');
  od_name : getSymbol (sys_symbols sys') name venue = Some i;
  od_desk : desk_at sys' i = Some d;
  od_subscriptions : sym_num_subscriptions (d_symbol d) = 0;
  od_symbol : sym_symbol (d_symbol d) = assign 32 name;
  od_engine : sym_matching_engine (d_symbol d) = Some FifoMatchingEngine;
  od_credits : sym_traded_qty_credit (d_symbol d) = mkCredits ∅ ∅;
  od_book : exists s, w_book (d_world d) = createOrderBook s /\ sym_symbol s = assign 32 name;
  od_others : forall name', symbol_key venue name' <> symbol_key venue name ->
    getSymbol (sys_symbols sys') name' venue = getSymbol (sys_symbols sys) name' venue
}.

(** The table of instruments, the last of them with its book. *)
Lemma last_instrument (l : list (Instrument L3 Pool)) x y j :
  <[List.length l := y]> (l ++ [x]) !! j = if decide (j = List.length l) then Some y else l !! j.
Proof.
  destruct (decide (j = List.length l)) as [->|Hne].
  - apply list_lookup_insert_eq. rewrite length_app. cbn. lia.
  - rewrite list_lookup_insert_ne by done. destruct (decide (j < List.length l)%nat); [by apply lookup_app_l|].
    rewrite !lookup_ge_None_2; [done|lia|]. rewrite length_app. cbn. lia.
Qed.

(** The names still are the instruments'. *)
Lemma open_names sys sys' name venue s s' ob storage : manager_ok (sys_symbols sys) ->
  sm_symbols_by_name (sys_symbols sys) !! symbol_key venue name = None ->
  let n := List.length (sm_symbols (sys_symbols sys)) in
  s = new_symbol n name venue storage -> sym_venue s' = sym_venue s -> sym_symbol s' = sym_symbol s ->
  sm_symbols_by_name (sys_symbols sys') = <[symbol_key venue name := n]> (sm_symbols_by_name (sys_symbols sys)) ->
  (forall j, sm_symbols (sys_symbols sys') !! j = if decide (j = n) then Some (mkInstrument s' ob) else sm_symbols (sys_symbols sys) !! j) ->
  manager_ok (sys_symbols sys').
Proof.
  intros N Hn n -> E1 E2 En L k j. rewrite L, En, lookup_insert_Some, (N k j).
  assert (Hold : forall ins, sm_symbols (sys_symbols sys) !! n = Some ins -> False).
  { intros ins Hj%lookup_lt_Some. unfold n in Hj. lia. }
  destruct (decide (j = n)) as [->|Hne].
  - split.
    + intros [[<- _]|[_ (ins & Hj & _)]]; [|by destruct (Hold ins)]. eexists. split; [done|]. cbn [in_symbol]. by rewrite E1, E2.
    + intros (ins & [= <-] & ->). left. cbn [in_symbol]. by rewrite E1, E2.
  - split.
    + intros [[_ E]|[_ H]]; [by destruct Hne|exact H].
    + intros (ins & Hj & ->). right. split; [|by exists ins]. intros E. rewrite E in Hn.
      assert (Hk : sm_symbols_by_name (sys_symbols sys) !! (sym_venue (in_symbol ins), sym_symbol (in_symbol ins)) = Some j).
      { apply N. by exists ins. }
      discriminate (eq_trans (eq_sym Hk) Hn).
Qed.

(** An instrument more keeps the process in order. *)
Lemma opened_ok venue sys sys' name s : sys_ok sys -> ex_venue (sys_exchange sys) = venue -> grown sys sys' ->
  let n := List.length (sm_symbols (sys_symbols sys)) in
  manager_ok (sys_symbols sys') -> ex_venue (sys_exchange sys') = venue ->
  ex_market_changed_symbols (sys_exchange sys') = ex_market_changed_symbols (sys_exchange sys) ->
  sm_symbols_by_name (sys_symbols sys') = <[symbol_key venue name := n]> (sm_symbols_by_name (sys_symbols sys)) ->
  (forall j, sm_symbols (sys_symbols sys') !! j = if decide (j = n) then Some (mkInstrument s (Some (createOrderBook s))) else sm_symbols (sys_symbols sys) !! j) ->
  sym_venue s = venue -> sym_matching_engine s = Some FifoMatchingEngine -> sys_ok sys'.
Proof.
  intros [N B D M] Hv Hg n Hm Hv' Em En L Es Ee.
  assert (Hlist : forall j, listed sys j -> listed sys' j).
  { intros j (ins & Hj & H2 & H3). exists ins. split; [by apply (gr_old _ _ Hg)|]. rewrite Hv', <- Hv. by split. }
  split; [exact Hm| | |intros j; rewrite Em; intros Hj; by apply Hlist, M].
  - intros name' j. unfold getSymbol. rewrite Hv', En. intros [[_ <-]|[_ Hj]]%lookup_insert_Some.
    + eexists. rewrite L, decide_True by done. split; [done|]. split; [cbn; congruence|by eexists].
    + apply Hlist, (B name'). unfold getSymbol. by rewrite Hv.
  - intros j d. unfold desk_at at 1. rewrite L. destruct (decide (j = n)) as [->|Hne].
    + intros [= <-]. split; [apply new_book_fine| |by exists FifoMatchingEngine].
      intros id. unfold book_ids. cbn. rewrite (law_new_levels _ BUY) by (by left). rewrite (law_new_levels _ SELL) by (by right).
      intros Hi. by apply not_elem_of_nil in Hi.
    + destruct (sm_symbols (sys_symbols sys) !! j) as [[symbol [b|]]|] eqn:Ej; try done. intros [= <-].
      destruct (D j (mkDesk (sys_exchange sys) j symbol (mkWorld b (sys_glob sys) (sys_responses sys) (sys_md sys)))) as [D1 D2 D3].
      { unfold desk_at. by rewrite Ej. }
      split; [eapply fine_same; [|exact D1]; done| |exact D3].
      intros id Hi. cbn in *. rewrite (gr_glob _ _ Hg). by apply D2.
Qed.

Lemma open_symbol_opens venue sys name storage : sys_ok sys -> ex_venue (sys_exchange sys) = venue -> fifo_venue (sys_exchange sys) ->
  getSymbol (sys_symbols sys) name venue = None ->
  exists i sys' d, open_symbol venue sys name storage = Ok (i, sys') /\ opened venue sys name i sys' d.
Proof.
  intros Hok Hv Hf Hn. unfold open_symbol, createSymbol. unfold getSymbol in Hn. rewrite Hn.
  set (n := List.length (sm_symbols (sys_symbols sys))) in *. set (s0 := new_symbol n name venue storage) in *.
  set (m := (sys_symbols sys) <| sm_symbols ::= _ |> <| sm_symbols_by_name ::= _ |>) in *.
  assert (El : sm_symbols m !! n = Some (mkInstrument s0 None)) by (cbn; by rewrite lookup_app_r, Nat.sub_diag).
  rewrite El. destruct (fifo_assigns (sys_exchange sys) s0 Hf) as (e' & Ea & Ev & Em & Hf'). cbn [in_symbol]. rewrite Ea. cbn [rbind fst snd].
  set (s1 := s0 <| sym_matching_engine := _ |> <| sym_smp_mode := _ |>). set (sys' := sys <| sys_exchange := e' |> <| sys_symbols := _ |>).
  assert (L : forall j, sm_symbols (sys_symbols sys') !! j
    = if decide (j = n) then Some (mkInstrument s1 (Some (createOrderBook s1))) else sm_symbols (sys_symbols sys) !! j).
  { intros j. apply last_instrument. }
  assert (Hg : grown sys sys').
  { split; try done. intros j ins Hj. rewrite L, decide_False; [exact Hj|]. apply lookup_lt_Some in Hj. unfold n. lia. }
  set (d := mkDesk e' n s1 (mkWorld (createOrderBook s1) (sys_glob sys) (sys_responses sys) (sys_md sys))).
  assert (Hd : desk_at sys' n = Some d) by (unfold desk_at; by rewrite L, decide_True).
  exists n, sys', d. split; [done|].
  split; try done.
  - eapply (opened_ok venue sys sys' name s1); try done; [|by rewrite <- Hv, <- Ev].
    eapply (open_names sys sys' name venue s0 s1); try done. apply Hok.
  - by rewrite <- Hv, <- Ev.
  - unfold getSymbol. cbn. by rewrite lookup_insert_eq.
  - by exists s1.
  - intros name' Hne. unfold getSymbol. cbn. by rewrite lookup_insert_ne.
Qed.

Lemma on_symbol_put sys i d f : desk_at sys i = Some d -> on_symbol f i sys = put_desk sys (d <| d_symbol ::= f |>).
Proof.
  intros Hd. destruct (desk_at_inv sys i d Hd) as (E & Ep & Ee & Ew). unfold on_symbol, put_desk. cbn. rewrite Ep, Ee, Ew. cbn.
  destruct sys as [e [syms names] g r m]. cbn in *. f_equal. f_equal.
  apply list_eq. intros j. destruct (decide (j = i)) as [->|Hne].
  - rewrite list_lookup_alter_eq, list_lookup_insert_eq, E by (by eapply lookup_lt_Some). done.
  - by rewrite list_lookup_alter_ne, list_lookup_insert_ne.
Qed.

Lemma symbol_handled d f : desk_ok d -> same_symbol (d_symbol d) (f (d_symbol d)) -> handled d (d <| d_symbol ::= f |>).
Proof.
  intros Hd Hs. split; [|split; try done| |done].
  - eapply desk_ok_same; [exact Hd|exact Hs|done|done].
  - by left.
  - exists []. by rewrite app_nil_r.
  - exists []. rewrite app_nil_r. split; [|done]. unfold feed, name_of. cbn. by destruct Hs as (_ & _ & -> & _).
  - exists []. by rewrite app_nil_r.
Qed.

(** An instrument that was there before has another index than the new product. *)
Lemma older_elsewhere sys sys' sym i j ins : sys_ok sys -> sys_ok sys' ->
  (forall k x, sm_symbols (sys_symbols sys) !! k = Some x -> sm_symbols (sys_symbols sys') !! k = Some x) ->
  getSymbol (sys_symbols sys) sym COINBASE = None -> getSymbol (sys_symbols sys') sym COINBASE = Some i ->
  sm_symbols (sys_symbols sys) !! j = Some ins -> j <> i.
Proof.
  intros Hok Hok' Hold Hn Hi Hj ->. unfold getSymbol in *.
  destruct (proj1 (so_names _ Hok' _ i) Hi) as (ins' & Hi' & Ek). rewrite (Hold _ _ Hj) in Hi'. injection Hi' as <-.
  rewrite Ek in Hn. rewrite (proj2 (so_names _ Hok _ i)) in Hn; [done|]. by exists ins.
Qed.

End Instruments.

(** ** Concrete instruments *)

#[export] Instance reference_books : NewBooks RefBook Z := {
  new_l3 _ := ref_empty;
  new_pool := 0;
  new_slots _ := default_order 0 0
}.

#[export] Instance reference_books_laws : NewBooksLaws RefBook Z.
Proof. constructor. by intros sid s [-> | ->]. Qed.

Definition no_instruments : System RefBook Z := mkSystem sample_exchange (mkManager [] ∅) empty_globals [] [].
