(* ===== verification/OrderStore.v ===== *)
(** * The orders reported to one gateway

    Models [src/order_gateway/order_store.hpp]: orders rebuilt from the execution reports a
    gateway reads, without touching what the exchange thread owns. The two hash maps are
    [gmap]s keyed by the order id and the user id; [slick::queue] is a library, of which
    [drain] sees the reports it has not read yet. *)

From S2P Require Import Prelude Types FixedString Orders Messages.

Record OrderStore := mkStore {
  os_by_order_id : gmap bytes Order;
  os_ids_by_user : gmap bytes (list bytes)
}.

#[export] Instance OrderStore_eta : Eta OrderStore := fun s => mkStore (os_by_order_id s) (os_ids_by_user s).

Definition empty_store : OrderStore := mkStore ∅ ∅.

(** [std::string(response.order_id, strnlen(...))]. *)
Definition report_id (response : OrderResponse) : bytes := view (id_order_id (r_identity response)).

(** The order as first seen: [try_emplace] value-initialises it, whatever the clock says. *)
Definition first_seen (now : time_t) (response : OrderResponse) : Order :=
  (default_order 0 now)
    <| o_identity := mkIdentity (assign 32 (view (id_symbol (r_identity response))))
                       (assign 37 (view (id_user_id (r_identity response))))
                       (assign 37 (view (id_client_order_id (r_identity response))))
                       (assign 37 (report_id response)) |>
    <| o_created_time := r_creation_time response |>
    <| o_product_type := ProductType.SPOT |>.

(** What every report overwrites. *)
Definition fold_report (order : Order) (response : OrderResponse) : Order :=
  let order :=
    order <| o_side := r_side response |>
          <| o_type := r_order_type response |>
          <| o_time_in_force := r_time_in_force response |>
          <| o_status := r_order_status response |>
          <| o_post_only := r_post_only response |>
          <| o_price := r_price response |>
          <| o_quantity := r_qty response |>
          <| o_leaves_quantity := r_leaves_qty response |>
          <| o_cum_quantity := r_cum_qty response |>
          <| o_avg_fill_price := r_avg_fill_price response |>
          <| o_last_update_time := r_timestamp response |>
          <| o_pending_cancel := bool_decide (r_order_status response = OrderStatus.PENDING_CANCEL) |> in
  let order :=
    if bool_decide (r_exec_type response = ExecType.TRADE) then
      order <| o_last_fill_price := r_last_fill_price response |>
            <| o_last_fill_qty := r_last_qty response |>
            <| o_last_fill_time := Some (r_timestamp response) |>
            <| o_num_fills ::= fun n => u32 (n + 1) |>
    else order in
  let order :=
    order <| o_filled_value := SFmul prec emax (to_price_double (r_avg_fill_price response))
                                 (to_qty_double (r_cum_qty response)) |> in
  if bool_decide (r_order_status response = OrderStatus.REJECTED) then
    order <| o_reject_message := view (r_error_message response) |>
  else if bool_decide (r_order_status response = OrderStatus.CANCELED) then
    order <| o_cancel_message := view (r_error_message response) |>
  else order.

Definition store_apply (now : time_t) (s : OrderStore) (response : OrderResponse) : OrderStore :=
  let order_id := report_id response in
  match order_id with
  | [] => s
  | _ =>
      match os_by_order_id s !! order_id with
      | Some order => s <| os_by_order_id ::= <[order_id := fold_report order response]> |>
      | None =>
          let order := first_seen now response in
          let user := string_key (o_user_id order) in
          mkStore (<[order_id := fold_report order response]> (os_by_order_id s))
            (<[user := default [] (os_ids_by_user s !! user) ++ [order_id]]> (os_ids_by_user s))
      end
  end.

(** [drain] on what the cursor has not read; a store without a queue reads nothing. The
    second component is what is left for the next drain. *)
Definition drain (now : time_t) (s : OrderStore) (unread : option (list OrderResponse)) (max_batch : nat)
  : OrderStore * option (list OrderResponse) :=
  match unread with
  | None => (s, None)
  | Some l => (fold_left (store_apply now) (take max_batch l) s, Some (drop max_batch l))
  end.

Definition orders_of (s : OrderStore) (user_id : bytes) : list Order :=
  match os_ids_by_user s !! user_id with
  | None => []
  | Some ids => omap (fun id => os_by_order_id s !! id) (rev ids)
  end.

Definition store_find (s : OrderStore) (order_id : bytes) : option Order := os_by_order_id s !! order_id.

Definition store_size (s : OrderStore) : nat := base.size (os_by_order_id s).

(** ** Properties *)

Definition is_trade (response : OrderResponse) : bool := bool_decide (r_exec_type response = ExecType.TRADE).

Definition with_status (st : OrderStatus) (response : OrderResponse) : bool :=
  bool_decide (r_order_status response = st).

(** The reports of one order. *)
Definition reports_of (id : bytes) (l : list OrderResponse) : list OrderResponse :=
  List.filter (fun r => bool_decide (report_id r = id)) l.

(** The order a client sees, in terms of the first, the latest and all of its reports. *)
Record projects (first latest : OrderResponse) (mine : list OrderResponse) (o : Order) : Prop := {
  pj_identity : o_identity o = o_identity (first_seen 0 first);
  pj_created : o_created_time o = r_creation_time first;
  pj_terms : o_side o = r_side latest /\ o_type o = r_order_type latest
    /\ o_time_in_force o = r_time_in_force latest /\ o_post_only o = r_post_only latest
    /\ o_price o = r_price latest /\ o_quantity o = r_qty latest;
  pj_state : o_status o = r_order_status latest /\ o_leaves_quantity o = r_leaves_qty latest
    /\ o_cum_quantity o = r_cum_qty latest /\ o_avg_fill_price o = r_avg_fill_price latest
    /\ o_last_update_time o = r_timestamp latest
    /\ o_pending_cancel o = with_status OrderStatus.PENDING_CANCEL latest;
  pj_num_fills : o_num_fills o = u32 (Z.of_nat (List.length (List.filter is_trade mine)));
  pj_last_fill : (o_last_fill_price o, o_last_fill_qty o, o_last_fill_time o)
    = match last (List.filter is_trade mine) with
      | Some t => (r_last_fill_price t, r_last_qty t, Some (r_timestamp t))
      | None => (0, 0, None)
      end;
  pj_reject : o_reject_message o
    = match last (List.filter (with_status OrderStatus.REJECTED) mine) with
      | Some r => view (r_error_message r) | None => [] end;
  pj_cancel : o_cancel_message o
    = match last (List.filter (with_status OrderStatus.CANCELED) mine) with
      | Some r => view (r_error_message r) | None => [] end
}.

Lemma filter_snoc {A} (f : A -> bool) l x : List.filter f (l ++ [x]) = List.filter f l ++ (if f x then [x] else []).
Proof. rewrite List.filter_app. cbn. by destruct (f x). Qed.

Lemma last_filter_snoc {A} (f : A -> bool) l x :
  last (List.filter f (l ++ [x])) = if f x then Some x else last (List.filter f l).
Proof. rewrite filter_snoc. destruct (f x); [by rewrite last_snoc|by rewrite app_nil_r]. Qed.

Lemma u32_succ z : u32 (u32 z + 1) = u32 (z + 1).
Proof. unfold wrap. by rewrite Zplus_mod_idemp_l. Qed.

(** What folding in a report does to the fields that remember more than the latest one. *)
Lemma fold_num_fills o r :
  o_num_fills (fold_report o r) = if is_trade r then u32 (o_num_fills o + 1) else o_num_fills o.
Proof. unfold fold_report, is_trade. by repeat case_bool_decide. Qed.

Lemma fold_last_fill o r :
  (o_last_fill_price (fold_report o r), o_last_fill_qty (fold_report o r), o_last_fill_time (fold_report o r))
  = if is_trade r then (r_last_fill_price r, r_last_qty r, Some (r_timestamp r))
    else (o_last_fill_price o, o_last_fill_qty o, o_last_fill_time o).
Proof. unfold fold_report, is_trade. by repeat case_bool_decide. Qed.

Lemma fold_reject o r : o_reject_message (fold_report o r)
  = if with_status OrderStatus.REJECTED r then view (r_error_message r) else o_reject_message o.
Proof. unfold fold_report, with_status. by repeat case_bool_decide. Qed.

Lemma fold_cancel o r : o_cancel_message (fold_report o r)
  = if with_status OrderStatus.CANCELED r then view (r_error_message r) else o_cancel_message o.
Proof. unfold fold_report, with_status. repeat case_bool_decide; done || congruence. Qed.

Lemma fold_identity o r : o_identity (fold_report o r) = o_identity o.
Proof. unfold fold_report. by repeat case_bool_decide. Qed.

Lemma fold_created o r : o_created_time (fold_report o r) = o_created_time o.
Proof. unfold fold_report. by repeat case_bool_decide. Qed.

Lemma fold_terms o r : let o := fold_report o r in
  o_side o = r_side r /\ o_type o = r_order_type r /\ o_time_in_force o = r_time_in_force r
  /\ o_post_only o = r_post_only r /\ o_price o = r_price r /\ o_quantity o = r_qty r.
Proof. cbv zeta. unfold fold_report. repeat case_bool_decide; repeat split. Qed.

Lemma fold_state o r : let o := fold_report o r in
  o_status o = r_order_status r /\ o_leaves_quantity o = r_leaves_qty r
  /\ o_cum_quantity o = r_cum_qty r /\ o_avg_fill_price o = r_avg_fill_price r
  /\ o_last_update_time o = r_timestamp r
  /\ o_pending_cancel o = with_status OrderStatus.PENDING_CANCEL r.
Proof.
  unfold fold_report, with_status. cbv zeta.
  destruct (bool_decide (r_exec_type r = _)), (bool_decide (r_order_status r = OrderStatus.REJECTED)),
    (bool_decide (r_order_status r = OrderStatus.CANCELED)); done.
Qed.

(** One more report. *)
Lemma fold_report_projects first latest mine o r :
  projects first latest mine o -> projects first r (mine ++ [r]) (fold_report o r).
Proof.
  intros [P1 P2 _ _ P5 P6 P7 P8]. split; [by rewrite fold_identity|by rewrite fold_created|apply fold_terms|apply fold_state|..].
  - rewrite fold_num_fills, filter_snoc, P5. destruct (is_trade r); [|by rewrite app_nil_r].
    rewrite u32_succ, length_app. f_equal. cbn. lia.
  - rewrite fold_last_fill, last_filter_snoc, P6. by destruct (is_trade r).
  - rewrite fold_reject, last_filter_snoc, P7. by destruct (with_status OrderStatus.REJECTED r).
  - rewrite fold_cancel, last_filter_snoc, P8. by destruct (with_status OrderStatus.CANCELED r).
Qed.

(** The first one. *)
Lemma first_report_projects now r : projects r r [r] (fold_report (first_seen now r) r).
Proof.
  split; [by rewrite fold_identity|by rewrite fold_created|apply fold_terms|apply fold_state|..]; cbn [List.filter].
  - rewrite fold_num_fills. by destruct (is_trade r).
  - rewrite fold_last_fill. by destruct (is_trade r).
  - rewrite fold_reject. by destruct (with_status OrderStatus.REJECTED r).
  - rewrite fold_cancel. by destruct (with_status OrderStatus.CANCELED r).
Qed.

(** Where each order stands after a stream of reports. *)
Definition store_of (now : time_t) (l : list OrderResponse) : OrderStore := fold_left (store_apply now) l empty_store.

Lemma store_of_snoc now l r : store_of now (l ++ [r]) = store_apply now (store_of now l) r.
Proof. unfold store_of. by rewrite fold_left_app. Qed.

Lemma store_apply_find now s r id :
  os_by_order_id (store_apply now s r) !! id
  = if bool_decide (report_id r = id /\ id <> [])
    then Some (fold_report (default (first_seen now r) (os_by_order_id s !! id)) r) else os_by_order_id s !! id.
Proof.
  unfold store_apply. destruct (report_id r) as [|c rest] eqn:Er.
  { rewrite bool_decide_eq_false_2; [done|]. by intros [<- ?]. }
  rewrite <- Er. destruct (os_by_order_id s !! report_id r) as [o|] eqn:E; cbn.
  - destruct (decide (report_id r = id)) as [<-|Hne].
    + rewrite lookup_insert_eq, E. rewrite bool_decide_eq_true_2; [done|]. split; [done|congruence].
    + rewrite lookup_insert_ne by done. rewrite bool_decide_eq_false_2; [done|]. by intros [? _].
  - destruct (decide (report_id r = id)) as [<-|Hne].
    + rewrite lookup_insert_eq, E. rewrite bool_decide_eq_true_2; [done|]. split; [done|congruence].
    + rewrite lookup_insert_ne by done. rewrite bool_decide_eq_false_2; [done|]. by intros [? _].
Qed.

Lemma store_projects now l id :
  id <> [] ->
  match reports_of id l with
  | [] => store_find (store_of now l) id = None
  | first :: _ => exists o latest, store_find (store_of now l) id = Some o
      /\ last (reports_of id l) = Some latest /\ projects first latest (reports_of id l) o
  end.
Proof.
  intros Hid. unfold store_find. induction l as [|r l IH] using rev_ind; [exact (lookup_empty id)|].
  rewrite store_of_snoc, store_apply_find. unfold reports_of in *. rewrite filter_snoc.
  case_bool_decide as Hr.
  - rewrite bool_decide_eq_true_2 by (split; [done|exact Hid]).
    destruct (List.filter _ l) as [|first mine] eqn:E.
    + rewrite IH. cbn [app default]. exists (fold_report (first_seen now r) r), r. split; [done|]. split; [done|].
      apply first_report_projects.
    + destruct IH as (o & latest & -> & _ & Hp). cbn [app default]. exists (fold_report o r), r.
      split; [done|]. rewrite app_comm_cons. split; [apply last_snoc|]. by eapply fold_report_projects.
  - rewrite bool_decide_eq_false_2 by (intros [? _]; done). by rewrite app_nil_r.
Qed.

(** ** Listings *)

(** The first report of every order, in the order they came. *)
Definition firsts (l : list OrderResponse) : list OrderResponse :=
  fold_left (fun acc r => if bool_decide (report_id r = [] \/ report_id r ∈ map report_id acc) then acc else acc ++ [r]) l [].

Definition user_of (r : OrderResponse) : bytes := string_key (o_user_id (first_seen 0 r)).

Definition ids_of_user (user : bytes) (l : list OrderResponse) : list bytes :=
  map report_id (List.filter (fun r => bool_decide (user_of r = user)) (firsts l)).

Lemma firsts_snoc l r :
  firsts (l ++ [r])
  = if bool_decide (report_id r = [] \/ report_id r ∈ map report_id (firsts l)) then firsts l else firsts l ++ [r].
Proof. unfold firsts. by rewrite fold_left_app. Qed.

(** What the store holds, next to the first reports. *)
Record indexed (s : OrderStore) (l : list OrderResponse) : Prop := {
  ix_known : forall id, is_Some (os_by_order_id s !! id) <-> id ∈ map report_id (firsts l);
  ix_size : store_size s = List.length (firsts l);
  ix_users : forall user, default [] (os_ids_by_user s !! user) = ids_of_user user l
}.

Lemma store_indexed now l : indexed (store_of now l) l.
Proof.
  induction l as [|r l [K S U]] using rev_ind.
  { split; [|done|].
    - intros id. split; [|intros H; by apply elem_of_nil in H]. intros [o Ho].
      change ((∅ : gmap bytes Order) !! id = Some o) in Ho. by rewrite lookup_empty in Ho.
    - intros user. change (default [] ((∅ : gmap bytes (list bytes)) !! user) = []). by rewrite lookup_empty. }
  rewrite store_of_snoc. unfold store_apply. set (s := store_of now l) in *. unfold ids_of_user in U.
  pose proof (K (report_id r)) as Kr. split; unfold ids_of_user; rewrite firsts_snoc.
  - intros id. destruct (report_id r) as [|c rest] eqn:Er; [rewrite bool_decide_eq_true_2 by (by left); apply K|]. rewrite <- Er in *.
    destruct (os_by_order_id s !! report_id r) as [o|] eqn:E; cbn.
    + rewrite bool_decide_eq_true_2 by (right; by apply Kr). rewrite <- (K id), lookup_insert_is_Some.
      split; [intros [<-|[_ H]]; [by rewrite E|done]|]. intros H. destruct (decide (report_id r = id)); [by left|by right].
    + rewrite bool_decide_eq_false_2; [|intros [?|H]; [congruence|apply Kr in H as [? H]; congruence]].
      rewrite map_app, elem_of_app, <- (K id), lookup_insert_is_Some. cbn. rewrite list_elem_of_singleton.
      split; [intros [<-|[_ H]]; [by right|by left]|]. intros [H| ->]; [|by left].
      destruct (decide (report_id r = id)); [by left|by right].
  - unfold store_size in *. destruct (report_id r) as [|c rest] eqn:Er; [by rewrite bool_decide_eq_true_2 by (by left)|]. rewrite <- Er in *.
    destruct (os_by_order_id s !! report_id r) as [o|] eqn:E; cbn.
    + rewrite bool_decide_eq_true_2 by (right; by apply Kr). by rewrite map_size_insert_Some.
    + rewrite bool_decide_eq_false_2; [|intros [?|H]; [congruence|apply Kr in H as [? H]; congruence]].
      rewrite map_size_insert_None by done. rewrite length_app, S. cbn. lia.
  - intros user. destruct (report_id r) as [|c rest] eqn:Er; [rewrite bool_decide_eq_true_2 by (by left); apply U|]. rewrite <- Er in *.
    destruct (os_by_order_id s !! report_id r) as [o|] eqn:E; cbn.
    + rewrite bool_decide_eq_true_2 by (right; by apply Kr). apply U.
    + rewrite bool_decide_eq_false_2; [|intros [?|H]; [congruence|apply Kr in H as [? H]; congruence]].
      rewrite filter_snoc, map_app. change (string_key (o_user_id (first_seen now r))) with (user_of r).
      destruct (decide (user_of r = user)) as [<-|Hne].
      * rewrite lookup_insert_eq, bool_decide_eq_true_2 by done. cbn. by rewrite U.
      * rewrite lookup_insert_ne, bool_decide_eq_false_2 by done. cbn. by rewrite app_nil_r, U.
Qed.

Lemma omap_found {A B} (f : A -> option B) l : Forall (fun x => is_Some (f x)) l -> map Some (omap f l) = map f l.
Proof. induction 1 as [|x l [y Hy] _ IH]; [done|]. cbn. rewrite Hy. cbn. by f_equal. Qed.

(** C38. The gateway's store is the projection of the reports it read. An order is known once
    a report named it; its identity, owner and creation time are the first report's, its
    terms, status and quantities the latest one's, its fill count and last fill those of the
    trade reports alone, and its messages those of the last rejection and cancellation. *)
Theorem order_store_projects now l id :
  id <> [] ->
  match reports_of id l with
  | [] => store_find (store_of now l) id = None
  | first :: _ => exists o latest, store_find (store_of now l) id = Some o
      /\ last (reports_of id l) = Some latest /\ projects first latest (reports_of id l) o
  end.
Proof. apply store_projects. Qed.

(** A user's listing holds each of the user's orders once and found, newest first by
    first report; an order belongs to the user of its first report, the store holds exactly
    the orders some report named, and draining in bounded batches gives the same store. *)
Lemma order_store_lists now l user :
  let s := store_of now l in
  map Some (orders_of s user) = map (store_find s) (rev (ids_of_user user l))
  /\ NoDup (map report_id (firsts l)) /\ store_size s = List.length (firsts l)
  /\ (forall n, exists s1 rest, drain now empty_store (Some l) n = (s1, Some rest)
        /\ fst (drain now s1 (Some rest) (List.length rest)) = s).
Proof.
  intros s. pose proof (store_indexed now l) as [K S U]. fold s in K, S, U. split; [|split; [|split; [exact S|]]].
  - unfold orders_of. specialize (U user). destruct (os_ids_by_user s !! user) as [ids|] eqn:E; cbn in U.
    + rewrite <- U. apply omap_found, Forall_forall. intros id Hid. apply list_elem_of_In, in_rev, list_elem_of_In in Hid.
      apply K. rewrite U in Hid. unfold ids_of_user in Hid. apply list_elem_of_fmap in Hid as (r & -> & Hr).
      apply list_elem_of_In, filter_In in Hr as [Hr _]. apply list_elem_of_fmap_2. by apply list_elem_of_In.
    + by rewrite <- U.
  - clear. induction l as [|r l IH] using rev_ind; [constructor|]. rewrite firsts_snoc. case_bool_decide as H; [done|].
    rewrite map_app. apply NoDup_app. split; [done|]. split; [|apply NoDup_singleton].
    intros id Hid Hr. apply list_elem_of_singleton in Hr as ->. by destruct H; right.
  - intros n. eexists _, _. split; [reflexivity|]. cbn [drain fst]. rewrite firstn_all. unfold s, store_of.
    by rewrite <- fold_left_app, take_drop.
Qed.

(** An order acknowledged and then filled. *)
Definition sample_report (exec : ExecType) (st : OrderStatus) (leaves : qty_t) : OrderResponse :=
  default_response <| r_identity := mkIdentity (assign 32 (str "BTC-USD")) (assign 37 (str "alice")) (clear 37) (assign 37 (str "A1")) |>
    <| r_exec_type := exec |> <| r_order_status := st |> <| r_qty := 5 |> <| r_leaves_qty := leaves |>.

Lemma order_store_projects_witness :
  let l := [sample_report ExecType.NEW OrderStatus.NEW 5; sample_report ExecType.TRADE OrderStatus.PARTIALLY_FILLED 2] in
  exists o, store_find (store_of 0 l) (str "A1") = Some o /\ o_leaves_quantity o = 2 /\ o_num_fills o = 1.
Proof.
  intros l. pose proof (order_store_projects 0 l (str "A1") ltac:(vm_compute; congruence)) as H.
  assert (E : reports_of (str "A1") l = l) by (vm_compute; reflexivity). rewrite E in H.
  destruct H as (o & latest & H1 & H2 & [_ _ _ (_ & H3 & _) H4 _ _ _]). injection H2 as <-.
  exists o. split; [exact H1|]. split; [exact H3|]. rewrite H4. vm_compute. reflexivity.
Defined.
