(* ===== verification/PendingResponses.v ===== *)
(** * Requests waiting for their execution report

    Models [src/order_gateway/pending_responses.hpp]. The waiters are a list in the order
    they were added. A completion is the gateway's closure: it may register further waiters,
    so it is a value of an abstract type, and what running it registers is a function
    [registers] the development says nothing about. Every completion run is logged with the
    waiter's id and the report, or [None] for a timeout. *)

From S2P Require Import Prelude Types FixedString Orders Messages.

Section Pending.
Context {Completion : Type}.

Definition Predicate : Type := OrderResponse -> bool.

Record Waiter := mkWaiter {
  wt_id : Z;
  wt_matches : Predicate;
  wt_complete : Completion
}.

Record PendingResponses := mkPending {
  pr_waiters : list Waiter;
  pr_next_id : Z;
  pr_log : list (Z * option OrderResponse)
}.

#[export] Instance PendingResponses_eta : Eta PendingResponses := fun p =>
  mkPending (pr_waiters p) (pr_next_id p) (pr_log p).

Definition kNoId : Z := 0.

Definition no_pending : PendingResponses := mkPending [] kNoId [].

(** The list once a waiter is erased. *)
Definition with_waiters (p : PendingResponses) (l : list Waiter) : PendingResponses :=
  mkPending l (pr_next_id p) (pr_log p).

(** What a completion, once run with its report, adds. *)
Variable registers : Completion -> option OrderResponse -> list (Predicate * Completion).

Definition pending_add (p : PendingResponses) (matches : Predicate) (complete : Completion) : Z * PendingResponses :=
  let id := u64 (pr_next_id p + 1) in
  (id, p <| pr_next_id := id |> <| pr_waiters ::= fun l => l ++ [mkWaiter id matches complete] |>).

(** Running a completion: it is called once, and adds what it adds. *)
Definition run_completion (p : PendingResponses) (id : Z) (complete : Completion) (r : option OrderResponse)
  : PendingResponses :=
  fold_left (fun p pc => snd (pending_add p (fst pc) (snd pc))) (registers complete r)
    (p <| pr_log ::= fun l => l ++ [(id, r)] |>).

(** The first waiter the predicate accepts, and the others. *)
Fixpoint take_waiter (accepts : Waiter -> bool) (l : list Waiter) : option (Waiter * list Waiter) :=
  match l with
  | [] => None
  | w :: rest =>
      if accepts w then Some (w, rest)
      else match take_waiter accepts rest with Some (w', rest) => Some (w', w :: rest) | None => None end
  end.

Definition dispatch (p : PendingResponses) (response : OrderResponse) : bool * PendingResponses :=
  match take_waiter (fun w => wt_matches w response) (pr_waiters p) with
  | None => (false, p)
  | Some (w, rest) => (true, run_completion (with_waiters p rest) (wt_id w) (wt_complete w) (Some response))
  end.

Definition expire (p : PendingResponses) (id : Z) : PendingResponses :=
  match take_waiter (fun w => wt_id w =? id) (pr_waiters p) with
  | None => p
  | Some (w, rest) => run_completion (with_waiters p rest) (wt_id w) (wt_complete w) None
  end.

Definition abandon (p : PendingResponses) (id : Z) : PendingResponses :=
  match take_waiter (fun w => wt_id w =? id) (pr_waiters p) with
  | None => p
  | Some (_, rest) => with_waiters p rest
  end.

Definition waiting (p : PendingResponses) (id : Z) : bool := existsb (fun w => wt_id w =? id) (pr_waiters p).

Definition pending_size (p : PendingResponses) : nat := List.length (pr_waiters p).

(** ** Every waiter is accounted for *)

Inductive PendingOp :=
  OpAdd (matches : Predicate) (complete : Completion)
| OpDispatch (response : OrderResponse)
| OpExpire (id : Z)
| OpAbandon (id : Z).

Definition pending_step (p : PendingResponses) (o : PendingOp) : PendingResponses :=
  match o with
  | OpAdd matches complete => snd (pending_add p matches complete)
  | OpDispatch response => snd (dispatch p response)
  | OpExpire id => expire p id
  | OpAbandon id => abandon p id
  end.

Definition run_pending (l : list PendingOp) : PendingResponses := fold_left pending_step l no_pending.

Definition waiting_ids (p : PendingResponses) : list Z := map wt_id (pr_waiters p).
Definition completed_ids (p : PendingResponses) : list Z := map fst (pr_log p).

(** The ids abandoned on the way. *)
Fixpoint abandoned_from (p : PendingResponses) (l : list PendingOp) : list Z :=
  match l with
  | [] => []
  | o :: l =>
      (match o with OpAbandon id => if waiting p id then [id] else [] | _ => [] end)
      ++ abandoned_from (pending_step p o) l
  end.

(** The ids drawn so far. *)
Definition drawn (n : Z) : list Z := map (fun i => Z.of_nat i) (seq 1 (Z.to_nat n)).

Lemma drawn_succ n : 0 <= n -> drawn (n + 1) = drawn n ++ [n + 1].
Proof.
  intros Hn. unfold drawn. replace (Z.to_nat (n + 1)) with (Z.to_nat n + 1)%nat by lia.
  rewrite seq_app, map_app. cbn. repeat f_equal. lia.
Qed.

Lemma take_waiter_spec accepts l :
  match take_waiter accepts l with
  | None => Forall (fun w => accepts w = false) l
  | Some (w, rest) => accepts w = true /\ exists pre post, l = pre ++ w :: post /\ rest = pre ++ post
      /\ Forall (fun w => accepts w = false) pre
  end.
Proof.
  induction l as [|w l IH]; cbn; [done|]. destruct (accepts w) eqn:E.
  - split; [done|]. by exists [], l.
  - destruct (take_waiter accepts l) as [[w' rest]|].
    + destruct IH as (H1 & pre & post & -> & -> & H2). split; [done|]. exists (w :: pre), post.
      split; [done|]. split; [done|]. by constructor.
    + by constructor.
Qed.

(** Adding, and running a completion, on the ids. *)
Lemma add_ids p m c :
  0 <= pr_next_id p < 2 ^ 64 - 1 ->
  let p' := snd (pending_add p m c) in
  pr_next_id p' = pr_next_id p + 1 /\ waiting_ids p' = waiting_ids p ++ [pr_next_id p + 1] /\ pr_log p' = pr_log p.
Proof.
  intros Hn p'. subst p'. unfold pending_add, waiting_ids. cbn. rewrite wrap_small by lia. by rewrite map_app.
Qed.

(** What a completion registers waits at the back. *)
Lemma run_ids p id c r :
  0 <= pr_next_id p -> pr_next_id p + Z.of_nat (List.length (registers c r)) < 2 ^ 64 ->
  let p' := run_completion p id c r in
  pr_next_id p' = pr_next_id p + Z.of_nat (List.length (registers c r))
  /\ (exists added, pr_waiters p' = pr_waiters p ++ added
        /\ drawn (pr_next_id p') = drawn (pr_next_id p) ++ map wt_id added)
  /\ pr_log p' = pr_log p ++ [(id, r)].
Proof.
  intros Hn Hb p'. subst p'. unfold run_completion. set (p0 := p <| pr_log ::= _ |>).
  assert (E : pr_next_id p0 = pr_next_id p /\ pr_waiters p0 = pr_waiters p /\ pr_log p0 = pr_log p ++ [(id, r)]) by done.
  clearbody p0. destruct E as (E1 & E2 & E3). rewrite <- E1, <- E2, <- E3 in *. clear E1 E2 E3 p.
  revert p0 Hn Hb. induction (registers c r) as [|[m d] l IH]; intros p Hn Hb.
  { cbn [fold_left List.length]. split; [lia|]. split; [|done]. exists []. by rewrite !app_nil_r. }
  cbn [List.length] in Hb. destruct (add_ids p m d ltac:(lia)) as (A1 & A2 & A3).
  cbn [fold_left fst snd List.length]. destruct (IH (snd (pending_add p m d))) as (B1 & (added & B2 & B3) & B4); [lia|lia|].
  split; [lia|]. split; [|congruence].
  exists (mkWaiter (pr_next_id p + 1) m d :: added). split.
  - rewrite B2. unfold pending_add. cbn. rewrite wrap_small by lia. by rewrite <- app_assoc.
  - rewrite B3, A1, drawn_succ by lia. by rewrite <- app_assoc.
Qed.

(** The bookkeeping: every id drawn waits, has completed, or was abandoned. *)
Definition accounted (p : PendingResponses) (abandoned : list Z) : Prop :=
  0 <= pr_next_id p /\ waiting_ids p ++ completed_ids p ++ abandoned ≡ₚ drawn (pr_next_id p).

Lemma waiting_spec p id : waiting p id = bool_decide (id ∈ waiting_ids p).
Proof.
  unfold waiting, waiting_ids. induction (pr_waiters p) as [|w l IH]; [done|]. cbn [existsb map]. rewrite IH.
  apply eq_true_iff_eq. rewrite orb_true_iff, !bool_decide_eq_true, elem_of_cons, Z.eqb_eq. split; intros [H|H]; auto.
Qed.

(** Lifting a waiter out and running its completion. *)
Lemma completed_accounted p abandoned w pre post r :
  accounted p abandoned -> pr_waiters p = pre ++ w :: post ->
  pr_next_id p + Z.of_nat (List.length (registers (wt_complete w) r)) < 2 ^ 64 ->
  accounted (run_completion (with_waiters p (pre ++ post)) (wt_id w) (wt_complete w) r) abandoned.
Proof.
  intros [Hn Ha] Ew Hb. destruct (run_ids (with_waiters p (pre ++ post)) (wt_id w) (wt_complete w) r Hn Hb)
    as (R1 & (added & R2 & R3) & R4).
  unfold accounted. set (p' := run_completion _ _ _ _) in *. change (pr_next_id (with_waiters p (pre ++ post))) with (pr_next_id p) in *.
  split; [lia|]. unfold waiting_ids, completed_ids in *. rewrite R3, R2, R4.
  cbn. rewrite <- Ha, Ew, !map_app. cbn [map fst]. solve_Permutation.
Qed.

Lemma step_accounted p abandoned o k :
  (forall c r, (List.length (registers c r) <= k)%nat) ->
  accounted p abandoned -> pr_next_id p + Z.of_nat (S k) < 2 ^ 64 - 1 ->
  let p' := pending_step p o in
  accounted p' (abandoned ++ match o with OpAbandon id => if waiting p id then [id] else [] | _ => [] end)
  /\ pr_next_id p <= pr_next_id p' <= pr_next_id p + Z.of_nat (S k).
Proof.
  intros Hk Hacc Hb p'. pose proof Hacc as [Hn Ha]. subst p'.
  assert (Hrun : forall w pre post r, pr_waiters p = pre ++ w :: post ->
    let p' := run_completion (with_waiters p (pre ++ post)) (wt_id w) (wt_complete w) r in
    accounted p' (abandoned ++ []) /\ pr_next_id p <= pr_next_id p' <= pr_next_id p + Z.of_nat (S k)).
  { intros w pre post r Ew p'. pose proof (Hk (wt_complete w) r) as Hkw. rewrite app_nil_r.
    split; [apply completed_accounted; [done|done|lia]|].
    destruct (run_ids (with_waiters p (pre ++ post)) (wt_id w) (wt_complete w) r Hn) as (R1 & _);
      change (pr_next_id (with_waiters p (pre ++ post))) with (pr_next_id p) in *; [lia|]. fold p' in R1. lia. }
  destruct o as [m c|r|id|id]; cbn [pending_step].
  - destruct (add_ids p m c ltac:(lia)) as (A1 & A2 & A3). rewrite app_nil_r. split; [|lia]. split; [lia|].
    unfold completed_ids in *. rewrite A1, A2, A3, drawn_succ, <- Ha by done. solve_Permutation.
  - unfold dispatch. pose proof (take_waiter_spec (fun w => wt_matches w r) (pr_waiters p)) as Ht.
    destruct (take_waiter _ _) as [[w rest]|]; cbn [snd]; [|rewrite app_nil_r; split; [done|lia]].
    destruct Ht as (_ & pre & post & Ew & -> & _). by apply Hrun.
  - unfold expire. pose proof (take_waiter_spec (fun w => wt_id w =? id) (pr_waiters p)) as Ht.
    destruct (take_waiter _ _) as [[w rest]|]; [|rewrite app_nil_r; split; [done|lia]].
    destruct Ht as (_ & pre & post & Ew & -> & _). by apply Hrun.
  - unfold abandon. pose proof (take_waiter_spec (fun w => wt_id w =? id) (pr_waiters p)) as Ht. rewrite waiting_spec.
    destruct (take_waiter _ _) as [[w rest]|].
    + destruct Ht as (Hid & pre & post & Ew & -> & _). bool_to_prop. subst id.
      rewrite bool_decide_eq_true_2 by (unfold waiting_ids; rewrite Ew, map_app, elem_of_app; right; cbn; by apply elem_of_cons; left).
      split; [|cbn; lia]. split; [done|]. change (drawn (pr_next_id (with_waiters p (pre ++ post)))) with (drawn (pr_next_id p)).
      rewrite <- Ha. unfold waiting_ids, completed_ids. cbn. rewrite Ew, !map_app. cbn [map]. solve_Permutation.
    + rewrite bool_decide_eq_false_2; [rewrite app_nil_r; split; [done|lia]|]. intros Hin.
      apply list_elem_of_fmap in Hin as (w & -> & Hw). rewrite Forall_forall in Ht. specialize (Ht w Hw). cbn in Ht.
      by rewrite Z.eqb_refl in Ht.
Qed.

Lemma run_accounted l k p abandoned :
  (forall c r, (List.length (registers c r) <= k)%nat) -> accounted p abandoned ->
  pr_next_id p + Z.of_nat (List.length l) * Z.of_nat (S k) < 2 ^ 64 - 1 ->
  accounted (fold_left pending_step l p) (abandoned ++ abandoned_from p l).
Proof.
  intros Hk. revert p abandoned. induction l as [|o l IH]; intros p abandoned Ha Hb; [by rewrite app_nil_r|].
  cbn [List.length] in Hb. rewrite Nat2Z.inj_succ, Z.mul_succ_l in Hb.
  pose proof (Z.mul_nonneg_nonneg (Z.of_nat (List.length l)) (Z.of_nat (S k)) ltac:(lia) ltac:(lia)) as Hnn.
  destruct (step_accounted p abandoned o k Hk Ha) as [S1 S2]; [lia|].
  cbn [fold_left abandoned_from]. rewrite app_assoc. apply IH; [exact S1|]. lia.
Qed.

(** Every request waiting on an execution report is completed exactly once, unless it is
    abandoned: whatever requests come, reports, timeouts - early, late or repeated - and
    departed clients follow each other, and whatever completions register while they run,
    each id drawn is in exactly one place: still waiting, completed once, or abandoned. And
    a report completes the first waiter that accepts it and no other; one nobody accepts
    changes nothing. *)
Lemma pending_exactly_once l k response :
  (forall c r, (List.length (registers c r) <= k)%nat) ->
  Z.of_nat (List.length l) * Z.of_nat (S k) < 2 ^ 64 - 1 ->
  let p := run_pending l in
  waiting_ids p ++ completed_ids p ++ abandoned_from no_pending l ≡ₚ drawn (pr_next_id p)
  /\ NoDup (waiting_ids p ++ completed_ids p ++ abandoned_from no_pending l)
  /\ let '(claimed, p') := dispatch p response in
     if claimed then
       exists pre w post added, pr_waiters p = pre ++ w :: post /\ wt_matches w response = true
         /\ Forall (fun w => wt_matches w response = false) pre
         /\ pr_waiters p' = pre ++ post ++ added /\ pr_log p' = pr_log p ++ [(wt_id w, Some response)]
     else p' = p /\ Forall (fun w => wt_matches w response = false) (pr_waiters p).
Proof.
  intros Hk Hl p. destruct (run_accounted l k no_pending [] Hk) as [Hn Ha]; [done|change (pr_next_id no_pending) with 0; lia|].
  change (fold_left pending_step l no_pending) with p in *. cbn [app] in Ha. split; [exact Ha|]. split.
  - rewrite Ha. unfold drawn. apply NoDup_fmap_2; [intros i j; lia|apply NoDup_seq].
  - unfold dispatch. pose proof (take_waiter_spec (fun w => wt_matches w response) (pr_waiters p)) as Ht.
    destruct (take_waiter _ _) as [[w rest]|]; [|done]. destruct Ht as (H1 & pre & post & H2 & -> & H3).
    assert (Hrun : forall q id c r, exists added, pr_waiters (run_completion q id c r) = pr_waiters q ++ added
      /\ pr_log (run_completion q id c r) = pr_log q ++ [(id, r)]).
    { intros q id c r. unfold run_completion. set (q0 := q <| pr_log ::= _ |>).
      change (pr_waiters q) with (pr_waiters q0). change (pr_log q ++ [(id, r)]) with (pr_log q0). clearbody q0.
      revert q0. induction (registers c r) as [|[m d] rs IH]; intros q0; [exists []; by rewrite app_nil_r|].
      cbn [fold_left fst snd]. destruct (IH (snd (pending_add q0 m d))) as (added & B1 & B2). eexists (_ :: added).
      split; [rewrite B1; cbn; by rewrite <- app_assoc|exact B2]. }
    destruct (Hrun (with_waiters p (pre ++ post)) (wt_id w) (wt_complete w) (Some response)) as (added & R1 & R2).
    exists pre, w, post, added. rewrite R1, R2. cbn. by rewrite <- app_assoc.
Qed.
End Pending.
Arguments PendingResponses : clear implicits.
Arguments PendingOp : clear implicits.

(** Two requests, one of which registers a follow-up when it is answered. *)
Definition sample_registers (c : nat) (_ : option OrderResponse) : list (Predicate * nat) :=
  match c with O => [] | S n => [(fun _ => true, n)] end.

Lemma pending_exactly_once_witness :
  let l := [OpAdd (fun _ => true) 1%nat; OpAdd (fun _ => false) 0%nat; OpDispatch default_response; OpExpire 1; OpAbandon 2] in
  let p := run_pending sample_registers l in
  waiting_ids p = [3] /\ completed_ids p = [1] /\ [3] ++ [1] ++ [2] ≡ₚ drawn 3.
Proof.
  intros l p. assert (Hk : forall c r, (List.length (sample_registers c r) <= 1)%nat) by (intros [|n] r; cbn; lia).
  destruct (pending_exactly_once sample_registers l 1 default_response Hk ltac:(cbn; lia)) as (H & _).
  split; [reflexivity|]. split; [reflexivity|exact H].
Defined.
