(* ===== verification/RetransmitRing.v ===== *)
(** * The messages a binary session can send again

    Models [src/order_gateway/retransmit_ring.hpp]: fixed slots indexed by the sequence number
    modulo their count. [claim] hands out a reference the caller encodes into, so it is the
    slot's index together with the ring; claiming in a ring without slots divides by zero,
    which only an assertion guards, and is [None]. *)

From S2P Require Import Prelude.

Record Slot := mkSlot {
  sl_seq : Z;
  sl_size : Z;
  sl_replay_flag_offset : Z;
  sl_data : bytes
}.

#[export] Instance Slot_eta : Eta Slot := fun s => mkSlot (sl_seq s) (sl_size s) (sl_replay_flag_offset s) (sl_data s).

Definition empty_slot (message_capacity : nat) : Slot := mkSlot 0 0 0 (repeat NUL message_capacity).

Definition RetransmitRing : Type := list Slot.

(** The constructor of a given capacity; the default one has no slots. *)
Definition new_retransmit_ring (message_capacity capacity : nat) : RetransmitRing :=
  repeat (empty_slot message_capacity) (Nat.max capacity 1).

Definition slot_index (r : RetransmitRing) (seq : Z) : nat := Z.to_nat (seq mod Z.of_nat (List.length r)).

Definition claim (r : RetransmitRing) (seq : Z) : option (nat * RetransmitRing) :=
  match r with
  | [] => None
  | _ => let i := slot_index r seq in Some (i, alter (fun s => s <| sl_seq := seq |>) i r)
  end.

Definition find (r : RetransmitRing) (seq : Z) : option Slot :=
  if (seq =? 0) || match r with [] => true | _ => false end then None
  else match r !! slot_index r seq with
       | Some slot => if sl_seq slot =? seq then Some slot else None
       | None => None
       end.

(** [i] counts in 64 bits, so it passes every [count]. *)
Definition holds (r : RetransmitRing) (from count : Z) : bool :=
  forallb (fun i => bool_decide (is_Some (find r (u32 (from + Z.of_nat i))))) (seq 0 (Z.to_nat count)).

Definition clear_ring (r : RetransmitRing) : RetransmitRing := map (fun s => s <| sl_seq := 0 |>) r.

Definition resize_ring (message_capacity : nat) (r : RetransmitRing) (capacity : nat) : RetransmitRing :=
  let capacity := Nat.max capacity 1 in
  take capacity r ++ repeat (empty_slot message_capacity) (capacity - List.length r).

Definition ring_capacity (r : RetransmitRing) : nat := List.length r.

(** ** Properties *)

(** A message as a session encodes it into the slot it claimed. *)
Record Message := mkMessage {
  ms_size : Z;
  ms_replay_flag_offset : Z;
  ms_data : bytes
}.

Definition slot_of_message (seq : Z) (m : Message) : Slot := mkSlot seq (ms_size m) (ms_replay_flag_offset m) (ms_data m).

Definition send (r : RetransmitRing) (seq : Z) (m : Message) : option RetransmitRing :=
  match claim r seq with
  | None => None
  | Some (i, r) => Some (alter (fun s => mkSlot (sl_seq s) (ms_size m) (ms_replay_flag_offset m) (ms_data m)) i r)
  end.

(** A session numbers its messages from 1. *)
Fixpoint send_from (r : RetransmitRing) (next : Z) (ms : list Message) : option RetransmitRing :=
  match ms with
  | [] => Some r
  | m :: ms => match send r next m with Some r => send_from r (next + 1) ms | None => None end
  end.

(** What a ring of [n] slots holds of the messages sent. *)
Definition still_held (n sent : Z) (q : Z) : Prop := 1 <= q <= sent /\ sent < q + n.

Definition holds_last (r : RetransmitRing) (ms : list Message) : Prop :=
  forall q slot, find r q = Some slot <->
    still_held (Z.of_nat (List.length r)) (Z.of_nat (List.length ms)) q
    /\ exists m, ms !! Z.to_nat (q - 1) = Some m /\ slot = slot_of_message q m.

Lemma slot_index_lt r q : r <> [] -> (slot_index r q < List.length r)%nat.
Proof.
  intros Hr. unfold slot_index. assert (0 < List.length r)%nat by (destruct r; [done|cbn; lia]).
  pose proof (Z.mod_pos_bound q (Z.of_nat (List.length r)) ltac:(lia)). lia.
Qed.

Lemma claim_Some r q :
  r <> [] -> claim r q = Some (slot_index r q, alter (fun s => s <| sl_seq := q |>) (slot_index r q) r).
Proof. by destruct r. Qed.

Lemma send_Some r q m :
  r <> [] ->
  send r q m = Some (alter (fun s => mkSlot (sl_seq s) (ms_size m) (ms_replay_flag_offset m) (ms_data m)) (slot_index r q)
                       (alter (fun s => s <| sl_seq := q |>) (slot_index r q) r)).
Proof. intros Hr. unfold send. by rewrite claim_Some. Qed.

Lemma send_length r q m r' : send r q m = Some r' -> List.length r' = List.length r.
Proof.
  intros E. assert (Hr : r <> []) by (by intros ->). rewrite send_Some in E by done. apply (inj Some) in E as <-.
  etrans; apply length_alter.
Qed.

Lemma send_spec r q m :
  r <> [] -> exists r', send r q m = Some r'
    /\ forall i, r' !! i = if bool_decide (i = slot_index r q) then Some (slot_of_message q m) else r !! i.
Proof.
  intros Hr. rewrite send_Some by done. eexists. split; [done|].
  intros i. unfold RetransmitRing in *. case_bool_decide as Hi.
  - subst i. destruct (lookup_lt_is_Some_2 r (slot_index r q)) as [s Hs]; [by apply slot_index_lt|].
    by rewrite !list_lookup_alter_eq, Hs.
  - by rewrite !list_lookup_alter_ne by done.
Qed.

(** Two numbers a window apart do not share a slot. *)
Lemma slot_index_window r p q :
  r <> [] -> p < q < p + Z.of_nat (List.length r) -> slot_index r p <> slot_index r q.
Proof.
  intros Hr Hpq E. unfold slot_index in E. set (n := Z.of_nat (List.length r)) in *.
  pose proof (Z.mod_pos_bound p n ltac:(lia)). pose proof (Z.mod_pos_bound q n ltac:(lia)).
  assert (Em : p mod n = q mod n) by lia.
  assert (Hd : (q - p) mod n = 0) by (rewrite Zminus_mod, Em, Z.sub_diag; apply Z.mod_0_l; lia).
  rewrite Z.mod_small in Hd by lia. lia.
Qed.

(** A cleared ring holds nothing, whatever its slots still carry. *)
Lemma cleared_holds_nothing r : holds_last (clear_ring r) [].
Proof.
  intros q slot. unfold find, still_held. split; [|intros [[? ?] _]; cbn in *; lia].
  destruct ((q =? 0) || _) eqn:E; [done|]. apply orb_false_iff in E as [Hq%Z.eqb_neq _].
  unfold clear_ring, RetransmitRing in *. rewrite list_lookup_fmap. destruct (r !! _) as [s|]; cbn; [|done].
  by destruct q.
Qed.

(** Sending one more. *)
Lemma send_holds_last r ms m :
  r <> [] -> holds_last r ms -> exists r', send r (Z.of_nat (List.length ms) + 1) m = Some r' /\ holds_last r' (ms ++ [m]).
Proof.
  intros Hr Hh. set (k := Z.of_nat (List.length ms) + 1). destruct (send_spec r k m Hr) as (r' & Es & Hl).
  exists r'. split; [done|]. pose proof (send_length _ _ _ _ Es) as Hlen.
  assert (Hr' : r' <> []) by (intros ->; destruct r; done).
  assert (Hidx : forall q, slot_index r' q = slot_index r q) by (intros q; unfold slot_index; by rewrite Hlen).
  assert (Hfind : forall q, find r' q = if bool_decide (slot_index r q = slot_index r k)
    then (if q =? k then Some (slot_of_message k m) else None) else find r q).
  { intros q. unfold find. rewrite Hidx, Hl. assert (Hn : forall (A : Type) (l : list A), l <> [] -> match l with [] => true | _ => false end = false)
      by (by intros A [|]). rewrite !Hn by done. rewrite !orb_false_r. case_bool_decide as Hi; [|done].
    destruct (q =? 0) eqn:E0; bool_to_prop; [subst q; by rewrite (proj2 (Z.eqb_neq 0 k)) by (unfold k; lia)|].
    cbn [slot_of_message sl_seq]. by rewrite Z.eqb_sym. }
  intros q slot. rewrite Hfind, Hlen. unfold still_held. rewrite length_app. cbn [List.length].
  assert (Hlook : forall x, (ms ++ [m]) !! Z.to_nat (q - 1) = Some x <->
    (1 <= q -> q <= Z.of_nat (List.length ms) + 1 -> True) /\ (ms ++ [m]) !! Z.to_nat (q - 1) = Some x) by tauto.
  case_bool_decide as Hi.
  - destruct (q =? k) eqn:Eq; bool_to_prop.
    + subst q. assert (Hm : (ms ++ [m]) !! Z.to_nat (k - 1) = Some m).
      { replace (Z.to_nat (k - 1)) with (List.length ms) by (unfold k; lia). by rewrite lookup_app_r, Nat.sub_diag. }
      assert (0 < List.length r)%nat by (destruct r; [done|cbn; lia]). split.
      * intros [= <-]. split; [unfold k; lia|]. by exists m.
      * intros (_ & m' & Hm' & ->). congruence.
    + split; [done|]. intros ([[H1 H2] H3] & _). exfalso.
      apply (slot_index_window r q k); [done|unfold k in *; lia|done].
  - rewrite (Hh q slot). unfold still_held. split.
    + intros ([[H1 H2] H3] & x & Hx & ->). split.
      * split; [lia|]. destruct (decide (Z.of_nat (List.length ms) + 1 < q + Z.of_nat (List.length r))); [lia|]. exfalso.
        apply Hi. unfold slot_index, k. replace (Z.of_nat (List.length ms) + 1) with (q + 1 * Z.of_nat (List.length r)) by lia.
        by rewrite Z_mod_plus_full.
      * exists x. split; [by apply lookup_app_l_Some|done].
    + intros ([[H1 H2] H3] & x & Hx & ->). destruct (decide (q = k)) as [->|Hne]; [done|].
      split; [unfold k in *; lia|]. exists x. split; [|done].
      rewrite lookup_app_l in Hx by (unfold k in *; lia). done.
Qed.

Lemma send_all r ms0 ms :
  r <> [] -> holds_last r ms0 ->
  exists r', send_from r (Z.of_nat (List.length ms0) + 1) ms = Some r' /\ holds_last r' (ms0 ++ ms)
    /\ List.length r' = List.length r.
Proof.
  revert r ms0. induction ms as [|m ms IH]; intros r ms0 Hr Hh.
  { exists r. rewrite app_nil_r. done. }
  cbn [send_from]. destruct (send_holds_last r ms0 m Hr Hh) as (r1 & E & H1). rewrite E.
  pose proof (send_length _ _ _ _ E) as Hlen. destruct (IH r1 (ms0 ++ [m])) as (r' & E' & H' & Hl').
  { intros ->. by destruct r. } { done. }
  rewrite length_app in E'. cbn in E'. exists r'. rewrite <- app_assoc in H'. split; [|split; [done|congruence]].
  replace (Z.of_nat (List.length ms0) + 1 + 1) with (Z.of_nat (List.length ms0 + 1) + 1) by lia. exact E'.
Qed.

(** A session that numbers its messages from 1, on a ring cleared at its start - whatever
    an earlier session left in it - finds exactly its last [capacity] messages, each under its
    own number with the bytes it was sent with; an overwritten or never sent number finds
    nothing; and a range is held exactly when every number of it is, also where the range
    runs over the end of the 32-bit sequence space. *)
Lemma ring_resends_last r ms from count :
  r <> [] -> 0 <= count ->
  exists r', send_from (clear_ring r) 1 ms = Some r'
    /\ (forall q slot, find r' q = Some slot <->
          still_held (Z.of_nat (List.length r)) (Z.of_nat (List.length ms)) q
          /\ exists m, ms !! Z.to_nat (q - 1) = Some m /\ slot = slot_of_message q m)
    /\ (holds r' from count = true <->
          forall i, 0 <= i < count -> still_held (Z.of_nat (List.length r)) (Z.of_nat (List.length ms)) (u32 (from + i))).
Proof.
  intros Hr Hc. assert (Hr0 : clear_ring r <> []) by (by destruct r).
  destruct (send_all (clear_ring r) [] ms Hr0 (cleared_holds_nothing r)) as (r' & E & H & Hlen).
  assert (El : List.length r' = List.length r) by (rewrite Hlen; apply length_map).
  unfold holds_last in H. rewrite El in H. cbn [app] in H. exists r'. split; [exact E|]. split; [exact H|].
  assert (Hsome : forall q, is_Some (find r' q) <-> still_held (Z.of_nat (List.length r)) (Z.of_nat (List.length ms)) q).
  { intros q. split; [intros [slot Hs]; by apply H in Hs as [? _]|]. intros Hq. pose proof Hq as [Hq1 Hq2].
    destruct (lookup_lt_is_Some_2 ms (Z.to_nat (q - 1)) ltac:(lia)) as [m Hm]. eexists. apply H. split; [done|]. by exists m. }
  unfold holds. rewrite forallb_forall. split.
  - intros Hall i Hi. specialize (Hall (Z.to_nat i)). rewrite Z2Nat.id, bool_decide_eq_true, Hsome in Hall by lia.
    apply Hall, in_seq. lia.
  - intros Hall i Hi%in_seq. apply bool_decide_eq_true, Hsome, Hall. lia.
Qed.

Lemma ring_resends_last_witness :
  let m c := mkMessage 1 0 [c] in
  exists r', send_from (clear_ring (new_retransmit_ring 1 2)) 1 [m "a"%char; m "b"%char; m "c"%char] = Some r'
    /\ find r' 3 = Some (slot_of_message 3 (m "c"%char)) /\ (holds r' 2 2 = true) /\ (holds r' 1 2 = true -> False).
Proof.
  intros m. destruct (ring_resends_last (new_retransmit_ring 1 2) [m "a"%char; m "b"%char; m "c"%char] 1 2) as (r' & E & H & Hh);
    [done|lia|]. exists r'. split; [exact E|]. split; [apply H; split; [cbv; repeat split; congruence|by eexists]|].
  split; [vm_compute in E; by injection E as <-|]. intros Hx. apply Hh with (i := 0) in Hx; [|lia]. vm_compute in Hx.
  destruct Hx as [_ Hx]. congruence.
Defined.
