(* ===== verification/ClOrdIdIndex.v ===== *)
(** * The client order ids one session has taken

    Models [src/order_gateway/cl_ord_id_index.hpp]: ids map to the order that holds them, or
    that the requests in flight naming them are for. The hash map is a [gmap]; order number 0
    is none. [assign] asserts that it takes no other order's id: a failing assertion is
    [None]. *)

From S2P Require Import Prelude.

Section Index.
Context {K : Type} `{Countable K}.

Record Entry := mkEntry {
  en_order : Z;
  en_claims : Z;
  en_held : bool
}.

#[export] Instance Entry_eta : Eta Entry := fun e => mkEntry (en_order e) (en_claims e) (en_held e).

#[local] Abbreviation ClOrdIdIndex := (gmap K Entry).

Definition no_ids : ClOrdIdIndex := ∅.

Definition id_find (ids : ClOrdIdIndex) (id : K) : Z :=
  match ids !! id with
  | Some e => if negb (en_held e) then 0 else en_order e
  | None => 0
  end.

Definition id_claim (ids : ClOrdIdIndex) (id : K) (order_num : Z) : bool * ClOrdIdIndex :=
  match ids !! id with
  | Some e =>
      if (order_num =? 0) || negb (en_order e =? order_num) then (false, ids)
      else (true, <[id := e <| en_claims ::= fun n => u32 (n + 1) |>]> ids)
  | None => (true, <[id := mkEntry order_num 1 false]> ids)
  end.

Definition erase_if_unused (ids : ClOrdIdIndex) (id : K) (e : Entry) : ClOrdIdIndex :=
  if (en_claims e =? 0) && negb (en_held e) then delete id ids else <[id := e]> ids.

Definition id_release (ids : ClOrdIdIndex) (id : K) : ClOrdIdIndex :=
  match ids !! id with
  | Some e => if 0 <? en_claims e then erase_if_unused ids id (e <| en_claims ::= fun n => n - 1 |>) else ids
  | None => ids
  end.

Definition id_assign (ids : ClOrdIdIndex) (id : K) (order_num : Z) : option ClOrdIdIndex :=
  if order_num =? 0 then None
  else
    let entry := default (mkEntry 0 0 false) (ids !! id) in
    if negb (en_held entry) || (en_order entry =? order_num) then
      Some (<[id := entry <| en_order := order_num |> <| en_held := true |>]> ids)
    else None.

Definition id_forget (ids : ClOrdIdIndex) (id : K) (order_num : Z) : ClOrdIdIndex :=
  match ids !! id with
  | Some e => if en_order e =? order_num then erase_if_unused ids id (e <| en_held := false |>) else ids
  | None => ids
  end.

Definition id_rename (ids : ClOrdIdIndex) (from to : K) (order_num : Z) : option ClOrdIdIndex :=
  id_assign (id_forget ids from order_num) to order_num.

Definition id_size (ids : ClOrdIdIndex) : nat := base.size ids.

(** ** What a session has outstanding

    The specification keeps what the index summarises: every request in flight with the
    order it is for, and the id each working order goes by. *)

Record Outstanding := mkOutstanding {
  ou_requests : list (K * Z);
  ou_names : gmap K Z
}.

Definition requests_for (u : Outstanding) (id : K) : list Z :=
  map snd (List.filter (fun r => bool_decide (fst r = id)) (ou_requests u)).

(** Who has an interest in [id]. *)
Definition interested (u : Outstanding) (id : K) (o : Z) : Prop :=
  o ∈ requests_for u id \/ ou_names u !! id = Some o.

(** The oldest request for [id] is answered. *)
Fixpoint answer_one (id : K) (l : list (K * Z)) : list (K * Z) :=
  match l with
  | [] => []
  | r :: l => if bool_decide (fst r = id) then l else r :: answer_one id l
  end.

Inductive IndexOp :=
  OpClaim (id : K) (order_num : Z)
| OpRelease (id : K)
| OpAssign (id : K) (order_num : Z)
| OpForget (id : K) (order_num : Z)
| OpRename (from to : K) (order_num : Z).

Definition spec_claim (u : Outstanding) (id : K) (order_num : Z) : Outstanding :=
  mkOutstanding (ou_requests u ++ [(id, order_num)]) (ou_names u).

Definition spec_release (u : Outstanding) (id : K) : Outstanding :=
  mkOutstanding (answer_one id (ou_requests u)) (ou_names u).

(** The order acknowledged under [id] is the one its requests were for. *)
Definition spec_assign (u : Outstanding) (id : K) (o : Z) : Outstanding :=
  mkOutstanding (map (fun r => if bool_decide (fst r = id) then (id, o) else r) (ou_requests u)) (<[id := o]> (ou_names u)).

Definition spec_forget (u : Outstanding) (id : K) (o : Z) : Outstanding :=
  mkOutstanding (ou_requests u) (if bool_decide (ou_names u !! id = Some o) then delete id (ou_names u) else ou_names u).

(** The moves of a session: a claim is granted only when nobody else has an interest, and
    an id is assigned only when no other order goes by it. *)
Inductive session_step : Outstanding -> IndexOp -> Outstanding -> Prop :=
| step_granted u id o :
    (forall o', interested u id o' -> o <> 0 /\ o' = o) ->
    Z.of_nat (List.length (ou_requests u)) + 1 < 2 ^ 32 ->
    session_step u (OpClaim id o) (spec_claim u id o)
| step_refused u id o o' :
    interested u id o' -> (o = 0 \/ o' <> o) ->
    session_step u (OpClaim id o) u
| step_release u id : session_step u (OpRelease id) (spec_release u id)
| step_assign u id o :
    o <> 0 -> (forall o', ou_names u !! id = Some o' -> o' = o) ->
    session_step u (OpAssign id o) (spec_assign u id o)
| step_forget u id o : session_step u (OpForget id o) (spec_forget u id o)
| step_rename u from to o :
    o <> 0 -> (forall o', ou_names (spec_forget u from o) !! to = Some o' -> o' = o) ->
    session_step u (OpRename from to o) (spec_assign (spec_forget u from o) to o).

Definition index_step (ids : ClOrdIdIndex) (op : IndexOp) : option ClOrdIdIndex :=
  match op with
  | OpClaim id o => Some (snd (id_claim ids id o))
  | OpRelease id => Some (id_release ids id)
  | OpAssign id o => id_assign ids id o
  | OpForget id o => Some (id_forget ids id o)
  | OpRename from to o => id_rename ids from to o
  end.

(** What one entry says of its id. *)
Definition summarises (e : option Entry) (requests : list Z) (name : option Z) : Prop :=
  match e with
  | None => requests = [] /\ name = None
  | Some e =>
      en_claims e = Z.of_nat (List.length requests)
      /\ (requests <> [] \/ name <> None)
      /\ Forall (fun o => o = en_order e) requests
      /\ name = (if en_held e then Some (en_order e) else None)
  end.

Definition represents (ids : ClOrdIdIndex) (u : Outstanding) : Prop :=
  forall id, summarises (ids !! id) (requests_for u id) (ou_names u !! id).

(** ** One step of the index is one step of the session *)

Lemma requests_for_claim u id o id' :
  requests_for (spec_claim u id o) id' = requests_for u id' ++ (if bool_decide (id = id') then [o] else []).
Proof.
  unfold requests_for. cbn [spec_claim ou_requests]. rewrite List.filter_app, map_app. cbn. by case_bool_decide.
Qed.

Lemma requests_for_release u id id' :
  requests_for (spec_release u id) id' = if bool_decide (id = id') then tail (requests_for u id') else requests_for u id'.
Proof.
  unfold requests_for. cbn [spec_release ou_requests]. induction (ou_requests u) as [|[i o] l IH]; cbn [answer_one fst].
  { by case_bool_decide. }
  destruct (decide (i = id)) as [->|Hi].
  - rewrite (bool_decide_eq_true_2 (id = id)) by done. cbn [List.filter fst].
    destruct (decide (id = id')) as [->|Hne]; [by rewrite !bool_decide_eq_true_2 by done|by rewrite !bool_decide_eq_false_2 by done].
  - rewrite (bool_decide_eq_false_2 (i = id)) by done. cbn [List.filter fst].
    destruct (decide (i = id')) as [->|E].
    + rewrite !(bool_decide_eq_true_2 (id' = id')), (bool_decide_eq_false_2 (id = id')) in * by done. cbn [map]. by f_equal.
    + by rewrite !(bool_decide_eq_false_2 (i = id')) by done.
Qed.

Lemma requests_for_assign u id o id' :
  requests_for (spec_assign u id o) id'
  = if bool_decide (id = id') then map (fun _ => o) (requests_for u id') else requests_for u id'.
Proof.
  unfold requests_for. cbn [spec_assign ou_requests]. induction (ou_requests u) as [|[i p] l IH]; cbn [map List.filter fst].
  { by case_bool_decide. }
  destruct (decide (i = id)) as [->|Hi].
  - rewrite (bool_decide_eq_true_2 (id = id)) by done. cbn [fst].
    destruct (decide (id = id')) as [->|Hne].
    + rewrite !bool_decide_eq_true_2 in * by done. cbn [map]. by f_equal.
    + rewrite !bool_decide_eq_false_2 in * by done. exact IH.
  - rewrite (bool_decide_eq_false_2 (i = id)) by done. cbn [fst]. destruct (decide (i = id')) as [->|E].
    + rewrite !(bool_decide_eq_true_2 (id' = id')), (bool_decide_eq_false_2 (id = id')) in * by done. cbn [map]. by f_equal.
    + by rewrite (bool_decide_eq_false_2 (i = id')) by done.
Qed.

Lemma erase_if_unused_lookup ids id e id' :
  erase_if_unused ids id e !! id'
  = if bool_decide (id = id') then (if (en_claims e =? 0) && negb (en_held e) then None else Some e) else ids !! id'.
Proof.
  unfold erase_if_unused. case_bool_decide as E.
  - subst. destruct (_ && _); [apply lookup_delete_eq|apply lookup_insert_eq].
  - destruct (_ && _); [by apply lookup_delete_ne|by apply lookup_insert_ne].
Qed.

Lemma interested_spec ids u id o :
  represents ids u -> interested u id o <-> (exists e, ids !! id = Some e /\ en_order e = o).
Proof.
  intros Hr. specialize (Hr id). unfold interested. destruct (ids !! id) as [e|]; cbn in Hr.
  - destruct Hr as (Hc & Hu & Hf & Hn). split.
    + intros [Hin|Ho]; exists e; split; try done.
      * rewrite Forall_forall in Hf. symmetry. by apply Hf.
      * rewrite Hn in Ho. destruct (en_held e); congruence.
    + intros (e' & [= <-] & <-). destruct (requests_for u id) as [|o' l] eqn:E.
      * right. destruct Hu as [|Hu]; [done|]. rewrite Hn in Hu |- *. by destruct (en_held e).
      * left. inversion Hf; subst. apply list_elem_of_here.
  - destruct Hr as [-> ->]. split; [|by intros (? & ? & ?)]. intros [Hin|]; [by apply elem_of_nil in Hin|done].
Qed.

(** The answer of a claim. *)
Lemma claim_answer ids u id o :
  represents ids u -> fst (id_claim ids id o) = true <-> (forall o', interested u id o' -> o <> 0 /\ o' = o).
Proof.
  intros Hr. setoid_rewrite (interested_spec ids u id _ Hr). unfold id_claim. destruct (ids !! id) as [e|].
  - destruct (_ || _) eqn:E; bool_to_prop; cbn [fst].
    + split; [done|]. intros Ho. specialize (Ho (en_order e) (ex_intro _ e (conj eq_refl eq_refl))) as [Hz He].
      destruct E as [E|E]; bool_to_prop; congruence.
    + split; [|done]. intros _ o' (e' & [= <-] & <-). done.
  - split; [|done]. intros _ o' (? & ? & ?). done.
Qed.

Lemma claim_represents ids u id o :
  represents ids u -> (forall o', interested u id o' -> o <> 0 /\ o' = o) ->
  Z.of_nat (List.length (ou_requests u)) + 1 < 2 ^ 32 ->
  represents (snd (id_claim ids id o)) (spec_claim u id o).
Proof.
  intros Hr Hi Hsz id'. pose proof (proj2 (claim_answer ids u id o Hr) Hi) as Ha. specialize (Hr id').
  rewrite requests_for_claim. cbn [spec_claim ou_names].
  assert (Hlen : Z.of_nat (List.length (requests_for u id')) <= Z.of_nat (List.length (ou_requests u))).
  { unfold requests_for. rewrite length_map. pose proof (List.filter_length_le (fun r => bool_decide (fst r = id')) (ou_requests u)). lia. }
  unfold id_claim in *. destruct (ids !! id) as [e|] eqn:Ee.
  - destruct (_ || _) eqn:Eb; [done|]. bool_to_prop. cbn [snd]. case_bool_decide as E.
    + subst id'. rewrite lookup_insert_eq. rewrite Ee in Hr. destruct Hr as (Hc & Hu & Hf & Hn). cbn.
      repeat split; try done.
      * rewrite length_app, Hc. cbn. rewrite wrap_small by lia. lia.
      * left. by destruct (requests_for u id).
      * apply Forall_app. split; [done|]. by constructor.
    + rewrite lookup_insert_ne by done. by rewrite app_nil_r.
  - cbn [snd]. case_bool_decide as E.
    + subst id'. rewrite lookup_insert_eq. rewrite Ee in Hr. destruct Hr as [-> ->]. cbn.
      repeat split; [by left|by constructor].
    + rewrite lookup_insert_ne by done. by rewrite app_nil_r.
Qed.

Lemma release_represents ids u id : represents ids u -> represents (id_release ids id) (spec_release u id).
Proof.
  intros Hr id'. pose proof (Hr id) as H0. specialize (Hr id'). rewrite requests_for_release. cbn [spec_release ou_names].
  unfold id_release. destruct (ids !! id) as [e|] eqn:Ee.
  - destruct (0 <? en_claims e) eqn:Ec; bool_to_prop.
    + rewrite erase_if_unused_lookup. case_bool_decide as E; [|done]. subst id'. clear Hr. destruct H0 as (Hc & Hu & Hf & Hn).
      destruct (requests_for u id) as [|o l] eqn:El; [cbn in Hc; lia|]. inversion Hf; subst. cbn in Hc |- *.
      destruct (_ && _) eqn:Eb; cbn.
      * apply andb_true_iff in Eb as [Ez%Z.eqb_eq Eh%negb_true_iff].
        assert (l = []) as -> by (destruct l; [done|cbn in *; lia]). by rewrite Hn, Eh.
      * repeat split; [lia| |done|done]. apply andb_false_iff in Eb as [Eb%Z.eqb_neq|Eb%negb_false_iff].
        -- left. destruct l; [cbn in *; lia|done].
        -- right. by rewrite Hn, Eb.
    + case_bool_decide as E; [|done]. subst id'. rewrite Ee in Hr |- *. destruct Hr as (Hc & Hu & Hf & Hn).
      destruct (requests_for u id) as [|o l] eqn:El; [done|]. cbn in Hc. lia.
  - case_bool_decide as E; [|done]. subst id'. rewrite Ee in Hr |- *. destruct Hr as [-> ->]. done.
Qed.

Lemma assign_represents ids u id o :
  represents ids u -> o <> 0 -> (forall o', ou_names u !! id = Some o' -> o' = o) ->
  exists ids', id_assign ids id o = Some ids' /\ represents ids' (spec_assign u id o).
Proof.
  intros Hr Ho Hn. unfold id_assign. rewrite (proj2 (Z.eqb_neq o 0)) by done.
  set (e := default (mkEntry 0 0 false) (ids !! id)).
  assert (Hok : negb (en_held e) || (en_order e =? o) = true).
  { subst e. specialize (Hr id). destruct (ids !! id) as [e|]; cbn; [|done]. destruct Hr as (_ & _ & _ & Hr).
    destruct (en_held e); cbn; [|done]. apply Z.eqb_eq. by apply Hn. }
  rewrite Hok. eexists. split; [done|]. intros id'. rewrite requests_for_assign. cbn [spec_assign ou_names].
  specialize (Hr id'). case_bool_decide as E.
  - subst id'. rewrite !lookup_insert_eq. cbn. subst e. destruct (ids !! id) as [e|]; cbn in *.
    + destruct Hr as (Hc & _). rewrite length_map, Hc. repeat split; [by right|]. apply Forall_forall.
      intros x [y [-> _]]%list_elem_of_fmap. done.
    + destruct Hr as [-> _]. repeat split; [by right|constructor].
  - by rewrite !lookup_insert_ne.
Qed.

Lemma forget_represents ids u id o : represents ids u -> represents (id_forget ids id o) (spec_forget u id o).
Proof.
  intros Hr id'. pose proof (Hr id) as H0. specialize (Hr id'). cbn [spec_forget ou_names]. unfold id_forget.
  change (requests_for (spec_forget u id o) id') with (requests_for u id').
  destruct (ids !! id) as [e|] eqn:Ee; [destruct (en_order e =? o) eqn:Eo; bool_to_prop|].
  - rewrite erase_if_unused_lookup. destruct H0 as (Hc & Hu & Hf & Hn). case_bool_decide as E.
    + subst id'. assert (Hgone : (if bool_decide (ou_names u !! id = Some o) then delete id (ou_names u) else ou_names u) !! id = None).
      { case_bool_decide as E; [apply lookup_delete_eq|]. rewrite Hn in E |- *. destruct (en_held e); [congruence|done]. }
      rewrite Hgone. cbn. rewrite andb_true_r. destruct (en_claims e =? 0) eqn:Ez; bool_to_prop; cbn.
      * split; [|done]. destruct (requests_for u id); [done|cbn in *; lia].
      * repeat split; [done| |done]. left. by destruct (requests_for u id).
    + case_bool_decide; [by rewrite lookup_delete_ne|done].
  - destruct H0 as (Hc & Hu & Hf & Hn). rewrite bool_decide_eq_false_2; [done|]. rewrite Hn. destruct (en_held e); congruence.
  - destruct H0 as [_ Hn]. rewrite bool_decide_eq_false_2; [done|]. by rewrite Hn.
Qed.
Lemma step_represents ids u op u' :
  represents ids u -> session_step u op u' -> exists ids', index_step ids op = Some ids' /\ represents ids' u'.
Proof.
  intros Hr Hs. destruct Hs as [u id o Hi Hsz|u id o o' Hi Ho|u id|u id o Ho Hn|u id o|u from to o Ho Hn]; cbn.
  - eexists. split; [done|]. by apply claim_represents.
  - eexists. split; [done|]. apply (interested_spec ids u id o' Hr) in Hi as (e & Ee & He). unfold id_claim. rewrite Ee.
    assert (Hb : (o =? 0) || negb (en_order e =? o) = true); [|by rewrite Hb].
    destruct Ho as [->|Ho]; [done|]. rewrite (proj2 (Z.eqb_neq (en_order e) o)) by congruence. by rewrite orb_true_r.
  - eexists. split; [done|]. by apply release_represents.
  - by apply assign_represents.
  - eexists. split; [done|]. by apply forget_represents.
  - apply assign_represents; [by apply forget_represents|done|done].
Qed.

(** The histories of a session, from one with nothing outstanding. *)
Definition nothing_outstanding : Outstanding := mkOutstanding [] ∅.

Inductive session : Outstanding -> list IndexOp -> Outstanding -> Prop :=
| session_nil u : session u [] u
| session_cons u op u' ops u'' : session_step u op u' -> session u' ops u'' -> session u (op :: ops) u''.

Fixpoint run_index (ids : ClOrdIdIndex) (ops : list IndexOp) : option ClOrdIdIndex :=
  match ops with
  | [] => Some ids
  | op :: ops => match index_step ids op with Some ids => run_index ids ops | None => None end
  end.

Lemma session_represents u ops u' :
  session u ops u' -> forall ids, represents ids u -> exists ids', run_index ids ops = Some ids' /\ represents ids' u'.
Proof.
  induction 1 as [u|u op u1 ops u2 Hs _ IH]; intros ids Hr; cbn [run_index]; [by eexists|].
  destruct (step_represents ids u op u1 Hr Hs) as (ids1 & -> & H1). by apply IH.
Qed.

Lemma no_ids_represents : represents no_ids nothing_outstanding.
Proof. intros id. unfold no_ids. rewrite lookup_empty. cbn. by rewrite lookup_empty. Qed.

Definition taken (u : Outstanding) : gset K := list_to_set (map fst (ou_requests u)) ∪ dom (ou_names u).

Lemma requests_for_nil u id : requests_for u id = [] <-> id ∉ map fst (ou_requests u).
Proof.
  unfold requests_for. induction (ou_requests u) as [|[i o] l IH]; cbn; [split; [intros _; apply not_elem_of_nil|done]|].
  rewrite not_elem_of_cons. case_bool_decide as E; cbn.
  - subst. split; [done|]. by intros [? _].
  - rewrite IH. split; [intros ?; split; [congruence|done]|by intros [_ ?]].
Qed.

Lemma dom_taken ids u : represents ids u -> dom ids = taken u.
Proof.
  intros Hr. apply leibniz_equiv. intros id. unfold taken. rewrite elem_of_union, elem_of_list_to_set, !elem_of_dom.
  specialize (Hr id). destruct (ids !! id) as [e|]; cbn in Hr.
  - destruct Hr as (_ & Hu & _ & _). split; [|done]. intros _. destruct Hu as [Hu|Hu].
    + left. destruct (decide (id ∈ map fst (ou_requests u))) as [|Hn]; [done|]. by apply requests_for_nil in Hn.
    + right. by apply not_eq_None_Some.
  - destruct Hr as [Hq Hn]. apply requests_for_nil in Hq. rewrite Hn. split; [by intros []|]. by intros [?|[]].
Qed.

Lemma represents_find ids u id : represents ids u -> id_find ids id = default 0 (ou_names u !! id).
Proof.
  intros Hr. specialize (Hr id). unfold id_find. destruct (ids !! id) as [e|]; cbn in Hr.
  - destruct Hr as (_ & _ & _ & ->). by destruct (en_held e).
  - by destruct Hr as [_ ->].
Qed.

End Index.

Arguments Outstanding K {_ _}.

