(* ===== verification/TcpGateway.v ===== *)
(** * The TCP transport of an order gateway

    Models [src/order_gateway/tcp_order_gateway.hpp] and its [.cpp]. A venue derives from the
    gateway and implements the virtual calls: those are the operations of [Protocol], on a
    state of the venue's own ([send], [close] and the two-step publish of a request are what
    it does inside them). The response queue is the list of reports not yet read; the socket
    server is the sequence of callbacks it makes. *)

From S2P Require Import Prelude Types FixedString Orders Messages.

(** The virtual calls. [on_data] answers how many bytes it consumed. *)
Class Protocol (S : Type) := {
  on_connect : Z -> bytes -> S -> S;
  on_disconnect : Z -> S -> S;
  on_data : Z -> bytes -> S -> nat * S;
  on_response : OrderResponse -> S -> S;
  on_poll : S -> S
}.

(** A protocol "consumes as many whole messages from the front of data as are there": never
    more than it is given, and being shown the front first, and then what it left of that
    with the rest, is as good as being shown all of it. *)
Class FramedProtocol (S : Type) `{Protocol S} : Prop := {
  law_consumes : forall c d s, (fst (on_data c d s) <= List.length d)%nat;
  law_resumes : forall c d e s,
    let '(n, s1) := on_data c d s in
    let '(m, s2) := on_data c (drop n d ++ e) s1 in
    on_data c (d ++ e) s = ((n + m)%nat, s2)
}.

Definition MAX_RESPONSES_PER_POLL : nat := 1024.

Record TcpOrderGateway (S : Type) := mkTcpGateway {
  tg_protocol : S;
  tg_partial : gmap Z bytes;
  tg_unread : list OrderResponse
}.
Arguments mkTcpGateway {S} _ _ _.
Arguments tg_protocol {S} _.
Arguments tg_partial {S} _.
Arguments tg_unread {S} _.

#[export] Instance TcpGateway_eta {S} : Eta (TcpOrderGateway S) := fun g =>
  mkTcpGateway (tg_protocol g) (tg_partial g) (tg_unread g).

(** The constructor: what was published before it is never read. *)
Definition tcp_gateway {S} (protocol : S) : TcpOrderGateway S := mkTcpGateway protocol ∅ [].

(** What the server's loop and the engine do to a gateway. *)
Inductive NetEvent :=
  Opened (client_id : Z) (address : bytes)
| Received (client_id : Z) (data : bytes)
| Closed (client_id : Z)
| Polled
| Answered (response : OrderResponse).

Section Gateway.
Context {S : Type} {protocol : Protocol S}.
Abbreviation G := (TcpOrderGateway S).

Definition onClientConnected (client_id : Z) (client_address : bytes) (g : G) : G :=
  g <| tg_protocol ::= on_connect client_id client_address |>.

Definition onClientDisconnected (client_id : Z) (g : G) : G :=
  g <| tg_partial ::= delete client_id |> <| tg_protocol ::= on_disconnect client_id |>.

(** [None] is erasing past the end of the buffer. *)
Definition onClientData (client_id : Z) (data : bytes) (g : G) : option G :=
  match tg_partial g !! client_id with
  | None | Some [] =>
      let '(consumed, s) := on_data client_id data (tg_protocol g) in
      let g := g <| tg_protocol := s |> in
      Some (if (consumed <? List.length data)%nat
            then g <| tg_partial ::= <[client_id := drop consumed data]> |>
            else g)
  | Some buffer =>
      let buffer := buffer ++ data in
      let '(consumed, s) := on_data client_id buffer (tg_protocol g) in
      if (List.length buffer <? consumed)%nat then None
      else Some (g <| tg_protocol := s |> <| tg_partial ::= <[client_id := drop consumed buffer]> |>)
  end.

Fixpoint answer_up_to (n : nat) (g : G) : G :=
  match n, tg_unread g with
  | Datatypes.S n, response :: unread =>
      answer_up_to n (g <| tg_unread := unread |> <| tg_protocol ::= on_response response |>)
  | _, _ => g
  end.

Definition onPoll (g : G) : G :=
  (answer_up_to MAX_RESPONSES_PER_POLL g) <| tg_protocol ::= on_poll |>.

Definition net_event (e : NetEvent) (g : G) : option G :=
  match e with
  | Opened c address => Some (onClientConnected c address g)
  | Received c data => onClientData c data g
  | Closed c => Some (onClientDisconnected c g)
  | Polled => Some (onPoll g)
  | Answered response => Some (g <| tg_unread ::= fun l => l ++ [response] |>)
  end.

Fixpoint net_run (es : list NetEvent) (g : G) : option G :=
  match es with
  | [] => Some g
  | e :: es => match net_event e g with Some g => net_run es g | None => None end
  end.

(** ** Gateways that cannot be told apart

    An entry with an empty buffer is as good as none. *)

Definition pending (c : Z) (g : G) : bytes := default [] (tg_partial g !! c).

#[export] Instance gateway_equiv : Equiv G := fun g1 g2 =>
  tg_protocol g1 = tg_protocol g2 /\ tg_unread g1 = tg_unread g2 /\ forall c, pending c g1 = pending c g2.

#[export] Instance gateway_equivalence : Equivalence (≡@{G}).
Proof.
  split.
  - by intros g.
  - intros g1 g2 (Hs & Hu & H). split; [done|]. split; [done|]. intros c. by rewrite H.
  - intros g1 g2 g3 (Hs & Hu & H) (Hs' & Hu' & H'). split; [congruence|]. split; [congruence|].
    intros c. by rewrite H.
Qed.

(** [onClientData] in one piece: what is pending and the new bytes, with what the protocol
    leaves of them pending. *)
Definition leaves (client_id : Z) (buffer : bytes) (g : G) (r : nat * S) : G :=
  g <| tg_protocol := snd r |> <| tg_partial ::= <[client_id := drop (fst r) buffer]> |>.

Definition fed (client_id : Z) (data : bytes) (g : G) : G :=
  let buffer := pending client_id g ++ data in
  leaves client_id buffer g (on_data client_id buffer (tg_protocol g)).

Lemma pending_insert c c' d (g : G) :
  pending c (g <| tg_partial ::= <[c' := d]> |>) = if decide (c = c') then d else pending c g.
Proof.
  unfold pending. cbn. case_decide as E; [subst c'; by rewrite lookup_insert_eq|by rewrite lookup_insert_ne].
Qed.

Lemma pending_leaves c c' d r (g : G) :
  pending c (leaves c' d g r) = if decide (c = c') then drop (fst r) d else pending c g.
Proof. unfold leaves. by rewrite pending_insert. Qed.

Lemma pending_disconnected c c' (g : G) :
  pending c (onClientDisconnected c' g) = if decide (c = c') then [] else pending c g.
Proof.
  unfold pending. cbn. case_decide as E; [subst c'; by rewrite lookup_delete_eq|by rewrite lookup_delete_ne].
Qed.

#[export] Instance fed_proper c d : Proper ((≡) ==> (≡)) (fed c d).
Proof.
  intros g1 g2 (Hs & Hu & Hp). unfold fed. rewrite Hs, Hp.
  split; [done|]. split; [done|]. intros c'. rewrite !pending_leaves. case_decide; [done|apply Hp].
Qed.

#[export] Instance connected_proper c a : Proper ((≡) ==> (≡)) (onClientConnected c a).
Proof. intros g1 g2 (Hs & Hu & Hp). split; [cbn; by rewrite Hs|by split]. Qed.

#[export] Instance disconnected_proper c : Proper ((≡) ==> (≡)) (onClientDisconnected c).
Proof.
  intros g1 g2 (Hs & Hu & Hp). split; [cbn; by rewrite Hs|]. split; [done|].
  intros c'. rewrite !pending_disconnected. case_decide; [done|apply Hp].
Qed.

#[export] Instance answer_proper n : Proper ((≡) ==> (≡)) (answer_up_to n).
Proof.
  induction n as [|n IH]; [by intros g1 g2|]. intros g1 g2 H. pose proof H as (Hs & Hu & Hp).
  cbn. rewrite Hu. destruct (tg_unread g2) as [|r unread]; [done|]. apply IH. split; [cbn; by rewrite Hs|by split].
Qed.

#[export] Instance poll_proper : Proper ((≡) ==> (≡)) onPoll.
Proof.
  intros g1 g2 H. apply (answer_proper MAX_RESPONSES_PER_POLL) in H. unfold onPoll.
  generalize dependent (answer_up_to MAX_RESPONSES_PER_POLL g1). intros h1 H.
  generalize dependent (answer_up_to MAX_RESPONSES_PER_POLL g2). intros h2 H. destruct H as (Hs & Hu & Hp).
  split; [cbn; by rewrite Hs|by split].
Qed.

(** ** Fragmentation *)

Section Framed.
Context {framed : FramedProtocol S}.

Lemma onClientData_fed c d g : exists g', onClientData c d g = Some g' /\ g' ≡ fed c d g.
Proof.
  unfold onClientData, fed, leaves, pending.
  destruct (tg_partial g !! c) as [[|x buffer]|] eqn:E; cbn [default from_option id app].
  2: { change (x :: buffer ++ d) with ((x :: buffer) ++ d).
       pose proof (law_consumes c ((x :: buffer) ++ d) (tg_protocol g)) as Hn.
       destruct (on_data _ _ _) as [n s]. cbn [fst] in Hn.
       destruct (Nat.ltb_spec (List.length ((x :: buffer) ++ d)) n); [lia|]. by eexists. }
  all: pose proof (law_consumes c d (tg_protocol g)) as Hn; destruct (on_data _ _ _) as [n s]; cbn [fst] in Hn;
    destruct (Nat.ltb_spec n (List.length d)) as [Hlt|Hge]; [by eexists|eexists; split; [done|]];
    split; [done|split; [done|]]; intros c'; rewrite pending_insert; case_decide; [|done]; subst c';
    cbn [fst]; rewrite drop_ge by lia; unfold pending; cbn; by rewrite E.
Qed.

(** Bytes that arrive in two reads are handled as if they arrived in one. *)
Lemma fed_twice c a b g : fed c b (fed c a g) ≡ fed c (a ++ b) g.
Proof.
  unfold fed. set (d := pending c g ++ a).
  pose proof (law_resumes c d b (tg_protocol g)) as Hr. pose proof (law_consumes c d (tg_protocol g)) as Hn.
  rewrite (app_assoc (pending c g) a b). fold d. destruct (on_data c d (tg_protocol g)) as [n s1]. cbn [fst] in Hn.
  assert (pending c (leaves c d g (n, s1)) = drop n d) as -> by (by rewrite pending_leaves, decide_True).
  change (tg_protocol (leaves c d g (n, s1))) with s1.
  destruct (on_data c (drop n d ++ b) s1) as [m s2]. rewrite Hr.
  split; [done|]. split; [done|]. intros c'. rewrite !pending_leaves. case_decide; [|done].
  cbn [fst]. rewrite <- drop_drop. f_equal. by rewrite (drop_app_le _ _ n) by lia.
Qed.

Lemma net_event_proper e g1 g2 : g1 ≡ g2 ->
  exists g1' g2', net_event e g1 = Some g1' /\ net_event e g2 = Some g2' /\ g1' ≡ g2'.
Proof.
  intros H. destruct e as [c a|c d|c| |r]; cbn [net_event].
  - do 2 eexists. do 2 (split; [done|]). by rewrite H.
  - destruct (onClientData_fed c d g1) as (g1' & -> & E1), (onClientData_fed c d g2) as (g2' & -> & E2).
    exists g1', g2'. do 2 (split; [done|]). by rewrite E1, E2, H.
  - do 2 eexists. do 2 (split; [done|]). by rewrite H.
  - do 2 eexists. do 2 (split; [done|]). by rewrite H.
  - destruct H as (Hs & Hu & Hp). do 2 eexists. split; [done|]. split; [done|]. split; [done|]. cbn. by rewrite Hu.
Qed.

(** The gateway never overruns a buffer, and equivalent gateways run alike. *)
Lemma net_run_proper es g1 g2 : g1 ≡ g2 ->
  exists g1' g2', net_run es g1 = Some g1' /\ net_run es g2 = Some g2' /\ g1' ≡ g2'.
Proof.
  revert g1 g2. induction es as [|e es IH]; intros g1 g2 H; [by exists g1, g2|].
  destruct (net_event_proper e g1 g2 H) as (g1' & g2' & H1 & H2 & H'). cbn. rewrite H1, H2. by apply IH.
Qed.
End Framed.

Lemma net_run_app es1 es2 g :
  net_run (es1 ++ es2) g = match net_run es1 g with Some g => net_run es2 g | None => None end.
Proof. revert g. induction es1 as [|e es1 IH]; intros g; [done|]. cbn. destruct (net_event e g); [apply IH|done]. Qed.
End Gateway.

(** ** Reads cut differently

    The same callbacks, but for where the reads of a connection are cut, and for which
    reports the engine published before which read. *)

Inductive refragmented : list NetEvent -> list NetEvent -> Prop :=
  rf_refl es : refragmented es es
| rf_sym es1 es2 : refragmented es1 es2 -> refragmented es2 es1
| rf_trans es1 es2 es3 : refragmented es1 es2 -> refragmented es2 es3 -> refragmented es1 es3
| rf_cut before c a b after :
    refragmented (before ++ [Received c (a ++ b)] ++ after) (before ++ [Received c a; Received c b] ++ after)
| rf_answered before c a r after :
    refragmented (before ++ [Received c a; Answered r] ++ after) (before ++ [Answered r; Received c a] ++ after).

Section Refragmenting.
Context {S : Type} {protocol : Protocol S} {framed : FramedProtocol S}.
Abbreviation G := (TcpOrderGateway S).

Lemma net_run_total es (g : G) : exists g', net_run es g = Some g'.
Proof. destruct (net_run_proper es g g) as (g' & _ & E & _); [done|by eexists]. Qed.

Lemma received_answered c a r (g : G) :
  exists g1 g2, net_run [Received c a; Answered r] g = Some g1 /\ net_run [Answered r; Received c a] g = Some g2 /\ g1 ≡ g2.
Proof.
  cbn [net_run net_event]. destruct (onClientData_fed c a g) as (g1 & -> & H1).
  destruct (onClientData_fed c a (g <| tg_unread ::= fun l => l ++ [r] |>)) as (g2 & -> & H2).
  do 2 eexists. do 2 (split; [done|]). rewrite H2. destruct H1 as (Hs & Hu & Hp).
  split; [apply Hs|]. split; [cbn; by rewrite Hu|]. intros c'. exact (Hp c').
Qed.

Lemma received_twice c a b (g : G) :
  exists g1 g2, net_run [Received c (a ++ b)] g = Some g1 /\ net_run [Received c a; Received c b] g = Some g2 /\ g1 ≡ g2.
Proof.
  cbn [net_run net_event]. destruct (onClientData_fed c (a ++ b) g) as (g1 & -> & H1).
  destruct (onClientData_fed c a g) as (g2 & -> & H2). destruct (onClientData_fed c b g2) as (g3 & -> & H3).
  do 2 eexists. do 2 (split; [done|]). by rewrite H1, H3, H2, fed_twice.
Qed.

(** Two runs that agree in the middle agree at the end. *)
Lemma net_run_middle before m1 m2 after (g : G) :
  (forall g, exists g1 g2, net_run m1 g = Some g1 /\ net_run m2 g = Some g2 /\ g1 ≡ g2) ->
  exists g1 g2, net_run (before ++ m1 ++ after) g = Some g1 /\ net_run (before ++ m2 ++ after) g = Some g2 /\ g1 ≡ g2.
Proof.
  intros H. rewrite !net_run_app. destruct (net_run_total before g) as [g0 ->]. rewrite !net_run_app.
  destruct (H g0) as (g1 & g2 & -> & -> & E). by apply net_run_proper.
Qed.

(** C34. A venue's protocol cannot tell how TCP cut its clients' messages: two sequences of
    callbacks that differ only in where the reads of a connection are cut, and in when the
    engine's reports were queued relative to a read, both run without overrunning a buffer
    and leave the same protocol state, the same unread reports and the same unconsumed bytes
    of every connection. *)
Theorem fragmentation_invisible es1 es2 : refragmented es1 es2 -> forall g : G,
  exists g1 g2, net_run es1 g = Some g1 /\ net_run es2 g = Some g2 /\ g1 ≡ g2.
Proof.
  induction 1 as [es|es1 es2 _ IH|es1 es2 es3 _ IH1 _ IH2|before c a b after|before c a r after]; intros g.
  - by apply net_run_proper.
  - destruct (IH g) as (g1 & g2 & H1 & H2 & E). exists g2, g1. do 2 (split; [done|]). by rewrite E.
  - destruct (IH1 g) as (g1 & g2 & H1 & H2 & E), (IH2 g) as (g2' & g3 & H2' & H3 & E').
    exists g1, g3. replace g2' with g2 in E' by congruence. do 2 (split; [done|]). by rewrite E.
  - apply net_run_middle, received_twice.
  - apply net_run_middle, received_answered.
Qed.
End Refragmenting.

(** ** What the protocol was called with

    A protocol that also writes down its calls: [Did_data] the bytes it consumed. *)

Inductive Call :=
  Did_connect (c : Z) (address : bytes)
| Did_disconnect (c : Z)
| Did_data (c : Z) (consumed : bytes)
| Did_response (r : OrderResponse)
| Did_poll.

#[export] Instance logged {S} `{Protocol S} : Protocol (S * list Call) := {
  on_connect c a s := (on_connect c a (fst s), snd s ++ [Did_connect c a]);
  on_disconnect c s := (on_disconnect c (fst s), snd s ++ [Did_disconnect c]);
  on_data c d s := let '(n, s') := on_data c d (fst s) in (n, (s', snd s ++ [Did_data c (take n d)]));
  on_response r s := (on_response r (fst s), snd s ++ [Did_response r]);
  on_poll s := (on_poll (fst s), snd s ++ [Did_poll])
}.

(** What a connection has sent since it last closed, and what of it was consumed. *)
Definition received_step (c : Z) (acc : bytes) (e : NetEvent) : bytes :=
  match e with
  | Received c' d => if decide (c = c') then acc ++ d else acc
  | Closed c' => if decide (c = c') then [] else acc
  | _ => acc
  end.

Definition consumed_step (c : Z) (acc : bytes) (e : Call) : bytes :=
  match e with
  | Did_data c' d => if decide (c = c') then acc ++ d else acc
  | Did_disconnect c' => if decide (c = c') then [] else acc
  | _ => acc
  end.

Definition received (c : Z) (es : list NetEvent) : bytes := fold_left (received_step c) es [].
Definition consumed (c : Z) (calls : list Call) : bytes := fold_left (consumed_step c) calls [].

Definition answered (es : list NetEvent) : list OrderResponse :=
  omap (fun e => match e with Answered r => Some r | _ => None end) es.
Definition handed (calls : list Call) : list OrderResponse :=
  omap (fun e => match e with Did_response r => Some r | _ => None end) calls.

Section Logging.
Context {S : Type} {protocol : Protocol S}.
Abbreviation GL := (TcpOrderGateway (S * list Call)).

Definition calls (g : GL) : list Call := snd (tg_protocol g).

(** The gateway whose protocol does not write anything down. *)
Definition unlogged (g : GL) : TcpOrderGateway S := mkTcpGateway (fst (tg_protocol g)) (tg_partial g) (tg_unread g).

Lemma consumed_snoc c l e : consumed c (l ++ [e]) = consumed_step c (consumed c l) e.
Proof. apply fold_left_app. Qed.

Lemma received_snoc c es e : received c (es ++ [e]) = received_step c (received c es) e.
Proof. apply fold_left_app. Qed.

Lemma handed_snoc l e : handed (l ++ [e]) = handed l ++ handed [e].
Proof. apply omap_app. Qed.

Lemma answered_snoc es e : answered (es ++ [e]) = answered es ++ answered [e].
Proof. apply omap_app. Qed.

(** What a run accounts for: the bytes of every connection and the reports. *)
Definition accounts (es : list NetEvent) (g : GL) : Prop :=
  (forall c, consumed c (calls g) ++ pending c g = received c es) /\ handed (calls g) ++ tg_unread g = answered es.

Lemma answer_step n (g : GL) :
  exists done, tg_unread g = done ++ tg_unread (answer_up_to n g) /\ (List.length done <= n)%nat
    /\ (List.length done = n \/ tg_unread (answer_up_to n g) = [])
    /\ calls (answer_up_to n g) = calls g ++ map Did_response done
    /\ tg_partial (answer_up_to n g) = tg_partial g
    /\ unlogged (answer_up_to n g) = answer_up_to n (unlogged g).
Proof.
  revert g. induction n as [|n IH]; intros g.
  { exists []. cbn. rewrite app_nil_r. repeat split; auto. }
  destruct (tg_unread g) as [|r unread] eqn:E.
  { exists []. cbn. rewrite E. cbn. rewrite app_nil_r, E. repeat split; auto. lia. }
  cbn [answer_up_to]. change (tg_unread (unlogged g)) with (tg_unread g). rewrite E.
  destruct (IH (g <| tg_unread := unread |> <| tg_protocol ::= on_response r |>)) as (l & H1 & H2 & H3 & H4 & H5 & H6).
  exists (r :: l). cbn [tg_unread upd] in H1. rewrite H1 at 1. cbn [List.length map]. split; [done|]. split; [lia|].
  split; [destruct H3; [left; lia|by right]|]. split; [|by split]. rewrite H4. unfold calls. cbn. by rewrite <- app_assoc.
Qed.

Lemma consumed_responses c l done : consumed c (l ++ map Did_response done) = consumed c l.
Proof. unfold consumed. rewrite fold_left_app. by induction done. Qed.

Lemma handed_responses l done : handed (l ++ map Did_response done) = handed l ++ done.
Proof. unfold handed. rewrite omap_app. f_equal. induction done as [|r done IH]; cbn; [done|by rewrite IH]. Qed.

Lemma data_accounts c d (g g' : GL) : onClientData c d g = Some g' ->
  exists used, calls g' = calls g ++ [Did_data c used] /\ pending c g ++ d = used ++ pending c g'
    /\ (forall c', c' <> c -> pending c' g' = pending c' g) /\ tg_unread g' = tg_unread g.
Proof.
  unfold onClientData, pending at 1 2.
  destruct (tg_partial g !! c) as [[|x buffer]|] eqn:E; cbn [default from_option id app on_data logged].
  2: { destruct (on_data c _ _) as [n s]. destruct (Nat.ltb_spec (List.length (x :: buffer ++ d)) n); [done|].
       intros [= <-]. exists (take n (x :: buffer ++ d)). repeat split.
       - unfold pending. cbn [tg_partial upd]. rewrite lookup_insert_eq. cbn [default from_option id]. by rewrite take_drop.
       - intros c' Hc. unfold pending. cbn [tg_partial upd]. by rewrite lookup_insert_ne. }
  all: destruct (on_data c _ _) as [n s]; intros [= <-]; exists (take n d);
    destruct (Nat.ltb_spec n (List.length d)) as [Hlt|Hge]; repeat split;
    first [intros c' Hc; unfold pending; cbn [tg_partial upd]; rewrite ?lookup_insert_ne by done; done
          |unfold pending; cbn [tg_partial upd]; rewrite ?lookup_insert_eq, ?E; cbn [default from_option id app];
           rewrite ?take_drop, ?app_nil_r, ?take_ge by lia; done].
Qed.

(** Writing the calls down changes nothing else. *)
Lemma unlogged_data c d (g : GL) : onClientData c d (unlogged g) = unlogged <$> onClientData c d g.
Proof.
  unfold onClientData. change (tg_partial (unlogged g)) with (tg_partial g).
  change (tg_protocol (unlogged g)) with (fst (tg_protocol g)). cbn [on_data logged].
  destruct (tg_partial g !! c) as [[|x buffer]|]; destruct (on_data c _ _) as [n s].
  all: match goal with |- context [(?a <? ?b)%nat] => by destruct (a <? b)%nat end.
Qed.

Lemma unlogged_event e (g : GL) : net_event e (unlogged g) = unlogged <$> net_event e g.
Proof.
  destruct e as [c a|c d|c| |r]; try done; cbn [net_event]; [apply unlogged_data|].
  cbn [fmap option_fmap option_map]. f_equal. unfold onPoll. generalize MAX_RESPONSES_PER_POLL. intros n.
  destruct (answer_step n g) as (l & _ & _ & _ & _ & _ & <-). done.
Qed.

Lemma unlogged_run es (g : GL) : net_run es (unlogged g) = unlogged <$> net_run es g.
Proof.
  revert g. induction es as [|e es IH]; intros g; [done|]. cbn. rewrite unlogged_event.
  destruct (net_event e g); [apply IH|done].
Qed.

Lemma event_accounts es e (g g' : GL) : accounts es g -> net_event e g = Some g' -> accounts (es ++ [e]) g'.
Proof.
  intros [Hb Hr] He. unfold accounts. rewrite answered_snoc, <- Hr.
  destruct e as [c a|c d|c| |r]; cbn [net_event] in He.
  - injection He as <-. split.
    + intros c'. rewrite received_snoc, <- Hb. unfold calls. cbn [tg_protocol upd onClientConnected on_connect logged snd].
      by rewrite consumed_snoc.
    + unfold calls. cbn [tg_protocol tg_unread upd onClientConnected on_connect logged snd]. rewrite handed_snoc. cbn. by rewrite !app_nil_r.
  - destruct (data_accounts c d g g' He) as (used & E & Hd & Ho & Hu). rewrite E, Hu. split.
    + intros c'. rewrite received_snoc, consumed_snoc, <- Hb. cbn. case_decide as Ec; [subst c'|by rewrite Ho].
      by rewrite <- !app_assoc, Hd.
    + rewrite handed_snoc. cbn. by rewrite !app_nil_r.
  - injection He as <-. split.
    + intros c'. rewrite received_snoc, <- Hb, pending_disconnected. unfold calls.
      cbn [tg_protocol upd onClientDisconnected on_disconnect logged snd]. rewrite consumed_snoc. cbn. by case_decide.
    + unfold calls. cbn [tg_protocol tg_unread upd onClientDisconnected on_disconnect logged snd]. rewrite handed_snoc. cbn. by rewrite !app_nil_r.
  - injection He as <-. destruct (answer_step MAX_RESPONSES_PER_POLL g) as (l & H1 & _ & _ & H4 & H5 & _).
    unfold onPoll. generalize dependent (answer_up_to MAX_RESPONSES_PER_POLL g). intros g' H1 H4 H5.
    unfold calls at 1 2. cbn [tg_protocol tg_unread upd on_poll logged snd]. fold (calls g'). rewrite H4. split.
    + intros c'. rewrite received_snoc, consumed_snoc, consumed_responses. cbn. rewrite <- Hb.
      unfold pending. cbn. by rewrite H5.
    + rewrite handed_snoc, handed_responses, H1. cbn. by rewrite !app_nil_r, app_assoc.
  - injection He as <-. split.
    + intros c'. rewrite received_snoc. exact (Hb c').
    + cbn. by rewrite app_assoc.
Qed.

Lemma run_accounts es0 es (g g' : GL) : accounts es0 g -> net_run es g = Some g' -> accounts (es0 ++ es) g'.
Proof.
  revert es0 g. induction es as [|e es IH]; intros es0 g H; cbn.
  - intros [= <-]. by rewrite app_nil_r.
  - destruct (net_event e g) as [g1|] eqn:E; [|done]. intros Hr. rewrite cons_middle, app_assoc.
    eapply IH, Hr. by eapply event_accounts.
Qed.

Lemma poll_leaves (g : GL) k : (List.length (tg_unread g) <= MAX_RESPONSES_PER_POLL + k ->
  List.length (tg_unread (onPoll g)) <= k)%nat.
Proof.
  unfold onPoll. generalize MAX_RESPONSES_PER_POLL. intros n Hl. destruct (answer_step n g) as (l & H1 & H2 & H3 & _).
  cbn [tg_unread upd]. destruct H3 as [H3| ->]; [|cbn; lia]. rewrite H1, length_app in Hl. lia.
Qed.

Lemma polls_drain n (g : GL) : exists g', net_run (repeat Polled n) g = Some g'
  /\ (List.length (tg_unread g) <= n * MAX_RESPONSES_PER_POLL -> tg_unread g' = [])%nat.
Proof.
  revert g. induction n as [|n IH]; intros g.
  { exists g. split; [done|]. cbn. destruct (tg_unread g); [done|]. cbn. lia. }
  cbn [repeat net_run net_event]. destruct (IH (onPoll g)) as (g' & E & Hg). exists g'. split; [done|].
  intros Hl. apply Hg, poll_leaves, Hl.
Qed.
End Logging.

Section Accounting.
Context {S : Type} {protocol : Protocol S} {framed : FramedProtocol S}.

(** Whatever the interleaving of connections, reads, closures, polls and reports, a
    gateway loses, repeats and reorders nothing: what its protocol consumed of a connection
    since that last closed, followed by what is kept for it, is what the connection sent, so
    a closed connection leaves nothing to the next one of its id; the reports it was handed,
    followed by those still queued, are the published ones; and enough further turns of the
    server's loop hand it all of them. *)
Lemma gateway_accounts es s n : (List.length (answered es) <= n * MAX_RESPONSES_PER_POLL)%nat ->
  exists g : TcpOrderGateway (S * list Call), net_run es (tcp_gateway (s, [])) = Some g
    /\ net_run es (tcp_gateway s) = Some (unlogged g) /\ accounts es g
    /\ exists g', net_run (repeat Polled n) g = Some g' /\ handed (calls g') = answered es
         /\ forall c, consumed c (calls g') ++ pending c g' = received c es.
Proof.
  intros Hn. destruct (net_run_total es (tcp_gateway s)) as [g0 E0]. pose proof E0 as E.
  change (tcp_gateway s) with (unlogged (tcp_gateway (s, []))) in E. rewrite unlogged_run in E.
  destruct (net_run es (tcp_gateway (s, []))) as [g|] eqn:Eg; [|done]. injection E as <-.
  exists g. split; [done|]. split; [done|].
  assert (accounts [] (tcp_gateway (s, []))) as H0 by (split; [intros c; unfold pending; cbn; by rewrite lookup_empty|done]).
  pose proof (run_accounts [] es _ _ H0 Eg : accounts es g) as Ha. split; [done|].
  destruct (polls_drain n g) as (g' & Ep & Hg'). exists g'. split; [done|].
  destruct (run_accounts es _ _ _ Ha Ep) as [Hb Hr]. destruct Ha as [_ Hr0].
  assert (answered (es ++ repeat Polled n) = answered es /\ forall c, received c (es ++ repeat Polled n) = received c es) as [Ea Er].
  { clear. split; [unfold answered; rewrite omap_app|intros c; unfold received; rewrite fold_left_app];
      [|generalize (fold_left (received_step c) es []); intros acc]; induction n; cbn; try done. by rewrite app_nil_r. }
  split; [|intros c; by rewrite Hb, Er]. rewrite <- Ea, <- Hr, Hg'; [by rewrite app_nil_r|].
  rewrite <- Hr0, length_app in Hn. lia.
Qed.
End Accounting.

(** ** A protocol of lines

    Messages end with a line feed; the state is the list of messages each connection sent. *)

Definition LF : ascii := ascii_of_nat 10.

(** The lines at the front of [d], [acc] the start of the first, and how many bytes they take. *)
Fixpoint lines (acc d : bytes) : list bytes * nat :=
  match d with
  | [] => ([], 0%nat)
  | x :: d =>
      if bool_decide (x = LF) then let '(ls, n) := lines [] d in (acc :: ls, (List.length acc + 1 + n)%nat)
      else lines (acc ++ [x]) d
  end.

#[export] Instance line_protocol : Protocol (list (Z * bytes)) := {
  on_connect c a s := s;
  on_disconnect c s := s;
  on_data c d s := let '(ls, n) := lines [] d in (n, s ++ map (pair c) ls);
  on_response r s := s;
  on_poll s := s
}.

Lemma lines_consumes d : forall acc, (snd (lines acc d) <= List.length acc + List.length d)%nat.
Proof.
  induction d as [|x d IH]; intros acc; cbn; [lia|]. case_bool_decide.
  - specialize (IH []). destruct (lines [] d) as [ls n]. cbn in *. lia.
  - specialize (IH (acc ++ [x])). rewrite length_app in IH. cbn in *. lia.
Qed.


Lemma lines_start l : Forall (fun x => x <> LF) l -> forall acc d, lines acc (l ++ d) = lines (acc ++ l) d.
Proof.
  induction 1 as [|x l Hx _ IH]; intros acc d; [by rewrite app_nil_r|]. cbn [app lines].
  rewrite bool_decide_eq_false_2 by done. by rewrite IH, <- app_assoc.
Qed.

Lemma lines_app d e : forall acc, Forall (fun x => x <> LF) acc ->
  lines acc (d ++ e) = let '(ls, n) := lines acc d in
                       let '(ls', m) := lines [] (drop n (acc ++ d) ++ e) in (ls ++ ls', (n + m)%nat).
Proof.
  induction d as [|x d IH]; intros acc Hacc.
  - cbn [lines app]. rewrite app_nil_r, drop_0, (lines_start acc Hacc []). cbn. by destruct (lines acc e).
  - cbn [lines app]. case_bool_decide as Hx.
    + rewrite IH by constructor. cbn [app]. destruct (lines [] d) as [ls n].
      replace (drop (List.length acc + 1 + n) (acc ++ x :: d)) with (drop n d).
      2: { rewrite <- drop_drop, <- drop_drop, drop_app_length. done. }
      destruct (lines [] (drop n d ++ e)) as [ls' m]. by rewrite Nat.add_assoc.
    + rewrite IH by (apply Forall_app; auto). by rewrite <- app_assoc.
Qed.

#[export] Instance line_framed : FramedProtocol (list (Z * bytes)).
Proof.
  split.
  - intros c d s. cbn. pose proof (lines_consumes d []). by destruct (lines [] d).
  - intros c d e s. cbn. rewrite (lines_app d e []) by constructor. cbn [app].
    destruct (lines [] d) as [ls n]. destruct (lines [] (drop n d ++ e)) as [ls' m].
    by rewrite map_app, app_assoc.
Qed.

Definition line (s : string) : bytes := str s ++ [LF].

(** Two clients, the message of one cut in three and sharing a read with the next. *)
Definition sample_net (r : OrderResponse) : list NetEvent :=
  [Opened 1 (str "a"); Received 1 (str "new "); Opened 2 (str "b"); Received 2 (line "hello"); Answered r;
   Received 1 (str "order" ++ [LF] ++ str "can"); Received 1 (str "cel" ++ [LF]); Closed 2; Received 2 (str "x"); Polled].

Example sample_messages :
  (fun g => tg_protocol g) <$> net_run (sample_net default_response) (tcp_gateway [])
  = Some [(2, str "hello"); (1, str "new order"); (1, str "cancel")].
Proof. vm_compute. reflexivity. Qed.

Lemma fragmentation_invisible_witness :
  exists g1 g2 : TcpOrderGateway (list (Z * bytes)),
    net_run ([Opened 1 (str "a")] ++ [Received 1 (str "new " ++ str "order")] ++ [Received 1 [LF]]) (tcp_gateway []) = Some g1
    /\ net_run ([Opened 1 (str "a")] ++ [Received 1 (str "new "); Received 1 (str "order")] ++ [Received 1 [LF]]) (tcp_gateway []) = Some g2
    /\ g1 ≡ g2.
Proof. apply fragmentation_invisible. apply rf_cut. Defined.

Lemma gateway_accounts_witness :
  exists g : TcpOrderGateway (list (Z * bytes) * list Call),
    net_run (sample_net default_response) (tcp_gateway ([], [])) = Some g
    /\ net_run (sample_net default_response) (tcp_gateway []) = Some (unlogged g) /\ accounts (sample_net default_response) g
    /\ exists g', net_run (repeat Polled 1) g = Some g' /\ handed (calls g') = answered (sample_net default_response)
         /\ forall c, consumed c (calls g') ++ pending c g' = received c (sample_net default_response).
Proof. apply (gateway_accounts (sample_net default_response) [] 1). cbn. lia. Defined.
