(* ===== verification/MdPublisher.v ===== *)
(** * What the venues' websocket publishers share

    Models [src/market_data_publisher/sequenced_message.hpp] and the drain of
    [ws_md_publisher.cpp]. A message is serialised once and stamped per subscriber with its
    sequence number; the JSON document and its text are nlohmann's, behind [JsonText]. The
    md queue is the list of frames not yet read. *)

From S2P Require Import Prelude Types FixedString Orders Messages MarketData.
From S2P Require Import MatchingConfig.

(** What a publisher writes into the request queue. *)
Record MdRequest := mkMdRequest {
  mq_symbol : fixed_string;
  mq_msg_type : MessageType;
  mq_channel : Z;
  mq_client : Z
}.

(** [message[key] = number] and [dump()]. *)
Class JsonText (J : Type) := {
  js_set_number : J -> bytes -> Z -> J;
  js_dump : J -> bytes
}.

(** ** A stamped message *)

Definition quote : ascii := ascii_of_nat 34.
Definition quoted (s : bytes) : bytes := quote :: s ++ [quote].

Definition SEQUENCE_NUM : bytes := str "sequence_num".
Definition sequence_key : bytes := quoted SEQUENCE_NUM ++ str ":".

Fixpoint strip_prefix (p l : bytes) : option bytes :=
  match p, l with
  | [], _ => Some l
  | c :: p, x :: l => if bool_decide (c = x) then strip_prefix p l else None
  | _ :: _, [] => None
  end.

(** [find]: what precedes the first occurrence of [key], and what follows it. *)
Fixpoint find_text (key l : bytes) : option (bytes * bytes) :=
  match strip_prefix key l with
  | Some rest => Some ([], rest)
  | None =>
      match l with
      | [] => None
      | c :: l => match find_text key l with Some (a, b) => Some (c :: a, b) | None => None end
      end
  end.

Fixpoint skip_digits (l : bytes) : bytes :=
  match l with
  | [] => []
  | c :: r => if is_digit c then skip_digits r else l
  end.

Record SequencedMessage := mkSequenced {
  sm_prefix : bytes;
  sm_suffix : bytes;
  sm_sequenced : bool
}.

Section Stamping.
Context {J : Type} {jsontext : JsonText J}.

Definition sequence_message (message : J) : SequencedMessage :=
  let text := js_dump (js_set_number message SEQUENCE_NUM 0) in
  match find_text sequence_key text with
  | None => mkSequenced text [] false
  | Some (before, after) => mkSequenced (before ++ sequence_key) (skip_digits after) true
  end.

Definition render (m : SequencedMessage) (sequence_num : Z) : bytes :=
  if negb (sm_sequenced m) then sm_prefix m
  else sm_prefix m ++ to_string_u64 sequence_num ++ sm_suffix m.

(** The text of a document with a numeric member spells it in its place; the rest of the
    text does not depend on the number, and what follows a number is no digit. *)
Class JsonTextLaws : Prop := {
  law_dump_number : forall j key, exists before after, forall n, 0 <= n < 2 ^ 64 ->
    js_dump (js_set_number j key n) = before ++ (quoted key ++ str ":") ++ to_string_u64 n ++ after
    /\ skip_digits after = after
}.

Lemma strip_prefix_app p l : strip_prefix p (p ++ l) = Some l.
Proof. induction p as [|c p IH]; [done|]. cbn. by rewrite bool_decide_eq_true_2. Qed.

Lemma strip_prefix_Some p l rest : strip_prefix p l = Some rest <-> l = p ++ rest.
Proof.
  split; [|intros ->; apply strip_prefix_app]. revert l. induction p as [|c p IH]; intros l; cbn; [by intros [= ->]|].
  destruct l as [|x l]; [done|]. case_bool_decide; [|done]. subst x. by intros ->%IH.
Qed.

(** What [find] returns is an occurrence, and it returns one if there is one. *)
Lemma find_text_Some key l a b : find_text key l = Some (a, b) -> l = a ++ key ++ b.
Proof.
  revert a. induction l as [|c l IH]; intros a; cbn [find_text]; destruct (strip_prefix key _) as [rest|] eqn:E.
  - intros [= <- ->]. cbn [app]. by apply strip_prefix_Some.
  - done.
  - intros [= <- ->]. cbn [app]. by apply strip_prefix_Some.
  - destruct (find_text key l) as [[a' b']|]; [|done]. intros [= <- ->]. cbn. f_equal. by apply IH.
Qed.

Lemma find_text_occurs key a b : is_Some (find_text key (a ++ key ++ b)).
Proof.
  induction a as [|c a [[a' b'] IH]]; cbn [app].
  - destruct (key ++ b) as [|c l] eqn:E; cbn [find_text]; rewrite <- E, strip_prefix_app; by eexists.
  - cbn [find_text]. destruct (strip_prefix key _); [by eexists|]. rewrite IH. by eexists.
Qed.

Lemma skip_digits_app ds l : forallb is_digit ds = true -> skip_digits (ds ++ l) = skip_digits l.
Proof. induction ds as [|c ds IH]; [done|]. cbn. intros [-> H]%andb_true_iff. by apply IH. Qed.

(** The document spells the key once: no value in it does. *)
Definition keyed_once (message : J) : Prop :=
  forall a b a' b', js_dump (js_set_number message SEQUENCE_NUM 0) = a ++ sequence_key ++ b ->
    js_dump (js_set_number message SEQUENCE_NUM 0) = a' ++ sequence_key ++ b' -> a = a' /\ b = b'.

(** Stamping a number into the text is serialising the document with that number. *)
Lemma render_is_dump `{JsonTextLaws} message n : keyed_once message -> 0 <= n < 2 ^ 64 ->
  render (sequence_message message) n = js_dump (js_set_number message SEQUENCE_NUM n).
Proof.
  intros Honce Hn. destruct (law_dump_number message SEQUENCE_NUM) as (before & after & Hdump).
  destruct (Hdump 0 ltac:(lia)) as [E0 Hafter]. destruct (Hdump n Hn) as [En _]. fold sequence_key in E0, En.
  unfold sequence_message. rewrite En. destruct (find_text_occurs sequence_key before (to_string_u64 0 ++ after)) as [[a b] Hf].
  rewrite E0, Hf. unfold render. cbn [sm_sequenced sm_prefix sm_suffix negb].
  apply find_text_Some in Hf. rewrite <- E0 in Hf.
  destruct (Honce _ _ _ _ E0 Hf) as [-> <-]. rewrite skip_digits_app, Hafter by (vm_compute; reflexivity).
  by rewrite <- app_assoc.
Qed.
End Stamping.
Arguments JsonTextLaws J {jsontext}.

(** ** A concrete document: an object of texts and one of numbers *)

Record FlatDoc := mkFlatDoc {
  fd_texts : list (bytes * bytes);
  fd_numbers : list (bytes * Z)
}.

Definition comma_join (l : list bytes) : bytes :=
  match l with [] => [] | x :: l => x ++ flat_map (fun y => str "," ++ y) l end.

#[export] Instance flat_text : JsonText FlatDoc := {
  js_set_number j key n := mkFlatDoc (fd_texts j) ((key, n) :: List.filter (fun kv => negb (bytes_eqb (fst kv) key)) (fd_numbers j));
  js_dump j := str "{" ++ comma_join (map (fun kv => quoted (fst kv) ++ str ":" ++ to_string_u64 (snd kv)) (fd_numbers j)
                                      ++ map (fun kv => quoted (fst kv) ++ str ":" ++ quoted (snd kv)) (fd_texts j)) ++ str "}"
}.

#[export] Instance flat_text_laws : JsonTextLaws FlatDoc.
Proof.
  split. intros j key.
  set (rest := map (fun kv => quoted (fst kv) ++ str ":" ++ to_string_u64 (snd kv))
                 (List.filter (fun kv => negb (bytes_eqb (fst kv) key)) (fd_numbers j))
               ++ map (fun kv => quoted (fst kv) ++ str ":" ++ quoted (snd kv)) (fd_texts j)).
  exists (str "{"), (flat_map (fun y => str "," ++ y) rest ++ str "}"). intros n Hn. split.
  - cbn [js_dump js_set_number flat_text fd_numbers fd_texts map app fst snd comma_join]. fold rest.
    rewrite <- !app_assoc. done.
  - by destruct rest.
Qed.

Definition sample_doc : FlatDoc := mkFlatDoc [(str "channel", str "l2_data")] [].

(** ** Draining the md queue *)

Section Draining.
Context {P : Type}.
Variable publish : P -> MarketDataUpdate -> option P.

Definition max_batch : nat := 1000.

(** A frame that ends its batch. *)
Definition whole_book (update : MarketDataUpdate) : bool :=
  bool_decide (mdu_type update = SUB_RESPONSE) || bool_decide (mdu_type update = BOOK_SNAPSHOT).

(** The loop of [publish_processing], [n] frames short of the batch. *)
Fixpoint drain (n : nat) (p : P) (queue : list MarketDataUpdate) : option (P * list MarketDataUpdate) :=
  match n, queue with
  | O, _ | S _, [] => Some (p, queue)
  | S n, update :: queue =>
      match publish p update with
      | None => None
      | Some p => if whole_book update then Some (p, queue) else drain n p queue
      end
  end.

Definition publish_processing (p : P) (queue : list MarketDataUpdate) : option (P * list MarketDataUpdate) :=
  drain max_batch p queue.

(** [n] turns of the event loop. *)
Fixpoint turns (n : nat) (p : P) (queue : list MarketDataUpdate) : option (P * list MarketDataUpdate) :=
  match n with
  | O => Some (p, queue)
  | S n => match publish_processing p queue with Some (p, queue) => turns n p queue | None => None end
  end.

Fixpoint publish_all (p : P) (queue : list MarketDataUpdate) : option P :=
  match queue with
  | [] => Some p
  | update :: queue => match publish p update with Some p => publish_all p queue | None => None end
  end.

Lemma publish_all_app p q1 q2 :
  publish_all p (q1 ++ q2) = match publish_all p q1 with Some p => publish_all p q2 | None => None end.
Proof. revert p. induction q1 as [|u q1 IH]; intros p; [done|]. cbn. destruct (publish p u); [apply IH|done]. Qed.

(** A batch takes frames off the front in order, at least one if there is one, at most
    [n], and at most one whole book, which is its last. *)
Lemma drain_batch n : forall p queue p', publish_all p queue = Some p' ->
  exists batch rest p1, drain n p queue = Some (p1, rest) /\ queue = batch ++ rest /\ publish_all p batch = Some p1
    /\ (List.length batch <= n)%nat /\ (n <> 0%nat -> queue <> [] -> batch <> [])
    /\ Forall (fun u => whole_book u = false) (removelast batch).
Proof.
  induction n as [|n IH]; intros p queue p' H; [by exists [], queue, p|].
  destruct queue as [|u queue]; [exists [], [], p; repeat split; done || (cbn; lia)|].
  cbn [publish_all drain] in *. destruct (publish p u) as [p1|] eqn:E; [|done]. destruct (whole_book u) eqn:Ew.
  - exists [u], queue, p1. cbn. rewrite E. repeat split; try done. lia.
  - destruct (IH p1 queue p' H) as (batch & rest & p2 & -> & -> & H3 & H4 & _ & H6).
    exists (u :: batch), rest, p2. cbn [publish_all]. rewrite E. repeat split; try done; [cbn; lia|].
    destruct batch as [|v batch]; [constructor|]. change (removelast (u :: v :: batch)) with (u :: removelast (v :: batch)).
    by constructor.
Qed.

(** Whatever is queued is published, in order and once, in at most as many turns as frames. *)
Lemma turns_publish_all n : forall p queue p', publish_all p queue = Some p' -> (List.length queue <= n)%nat ->
  turns n p queue = Some (p', []).
Proof.
  induction n as [|n IH]; intros p queue p' H Hl; [destruct queue; [by injection H as <-|cbn in Hl; lia]|].
  cbn [turns]. unfold publish_processing.
  destruct (drain_batch max_batch p queue p' H) as (batch & rest & p1 & -> & -> & H3 & _ & H5 & _).
  rewrite publish_all_app, H3 in H. apply IH; [done|]. rewrite length_app in Hl.
  destruct batch as [|u batch]; [|cbn in Hl; lia]. cbn [app] in H5. destruct rest; [cbn; lia|by destruct (H5 ltac:(done) ltac:(done))].
Qed.
End Draining.

(** Splicing a subscriber's number into the text of a message that was serialised once is
    serialising the message with that number: every subscriber receives the text it would
    have been sent had the document been dumped for it alone. *)
Lemma stamping_is_serialising {J} {jsontext : JsonText J} {laws : JsonTextLaws J} (message : J) n :
  keyed_once message -> 0 <= n < 2 ^ 64 ->
  render (sequence_message message) n = js_dump (js_set_number message SEQUENCE_NUM n).
Proof. apply render_is_dump. Qed.

(** The places a key starts at. *)
Fixpoint starts_at (key l : bytes) (i : nat) : list nat :=
  match l with
  | [] => []
  | c :: r => (if bool_decide (take (List.length key) l = key) then [i] else []) ++ starts_at key r (S i)
  end.

Lemma starts_at_spec key l : key <> [] -> forall i a b, l = a ++ key ++ b -> (i + List.length a)%nat ∈ starts_at key l i.
Proof.
  intros Hk. induction l as [|c l IH]; intros i a b E; [by destruct a, key|]. cbn [starts_at]. destruct a as [|x a].
  - cbn [app] in E. rewrite E, take_app_length, bool_decide_eq_true_2 by done. cbn. rewrite Nat.add_0_r. by left.
  - injection E as -> E. apply elem_of_app. right. cbn [List.length]. rewrite Nat.add_succ_r. by apply (IH (S i) a b).
Qed.

Lemma stamping_is_serialising_witness :
  render (sequence_message sample_doc) 42 = js_dump (js_set_number sample_doc SEQUENCE_NUM 42)
  /\ js_dump (js_set_number sample_doc SEQUENCE_NUM 42)
     = str "{" ++ quoted (str "sequence_num") ++ str ":42," ++ quoted (str "channel") ++ str ":" ++ quoted (str "l2_data") ++ str "}".
Proof.
  split; [|vm_compute; reflexivity]. apply (stamping_is_serialising sample_doc 42); [|lia]. intros a b a' b' E1 E2.
  assert (Hs : starts_at sequence_key (js_dump (js_set_number sample_doc SEQUENCE_NUM 0)) 0 = [1%nat]) by (vm_compute; reflexivity).
  assert (H1 := starts_at_spec sequence_key _ ltac:(done) 0 a b E1). assert (H2 := starts_at_spec sequence_key _ ltac:(done) 0 a' b' E2).
  rewrite Hs in H1, H2. apply list_elem_of_singleton in H1, H2. rewrite E1 in E2.
  apply app_inj_1 in E2 as [-> E2]; [|cbn in H1, H2; congruence]. by apply app_inv_head in E2.
Defined.

(** Whatever is queued for the clients is published in order and once, in at most as many
    turns of the event loop as there are frames: a turn takes frames off the front, at least
    one if there is one, and a whole book only as its last. *)
Lemma publisher_drains_queue {P} (publish : P -> MarketDataUpdate -> option P) p queue p' :
  publish_all publish p queue = Some p' ->
  turns publish (List.length queue) p queue = Some (p', [])
  /\ (queue <> [] -> exists batch rest p1, publish_processing publish p queue = Some (p1, rest) /\ queue = batch ++ rest
        /\ batch <> [] /\ (List.length batch <= max_batch)%nat
        /\ Forall (fun u => whole_book u = false) (removelast batch)).
Proof.
  intros H. split; [by apply turns_publish_all|]. intros Hq.
  destruct (drain_batch publish max_batch p queue p' H) as (batch & rest & p1 & H1 & H2 & _ & H4 & H5 & H6).
  exists batch, rest, p1. repeat split; try done. by apply H5.
Qed.

Lemma publisher_drains_queue_witness :
  let publish (n : nat) (u : MarketDataUpdate) := Some (S n) in
  let frame t := mkMDUpdate [] COINBASE t (PLevels 0 []) in
  let queue := [frame LEVEL; frame BOOK_SNAPSHOT; frame LEVEL] in
  turns publish 3 0%nat queue = Some (3%nat, []) /\ turns publish 1 0%nat queue = Some (2%nat, [frame LEVEL]).
Proof.
  intros publish frame queue. split; [|vm_compute; reflexivity].
  exact (proj1 (publisher_drains_queue publish 0%nat queue 3%nat eq_refl)).
Defined.
