(* ===== verification/MessageParsers.v ===== *)
(** * The generic message parsers

    Models [src/order_gateway/message_parser.hpp] and [.cpp], [json_parser.hpp] and [.cpp] and
    [fix_parser.hpp] and [.cpp]: how a gateway's bytes are cut into messages and read as
    orders. JSON values and their texts are nlohmann's, behind [Json] and [JsonReader]; a FIX
    message is QuickFIX's, behind [QuickFix]. An exception is a [Throw]; logging is left out. *)

From S2P Require Import Prelude Types FixedString Orders Messages MarketData MatchingConfig MdPublisher Decimals.

(** What the parsers ask of a JSON library beside [Json]; [get<uint64_t>] throws where there is no
    number. *)
Class JsonReader (J : Type) := {
  js_parse : bytes -> option J;
  js_is_null : J -> bool;
  js_get_uint64 : J -> option Z
}.

(** A parsed FIX message: [get] of a field throws where there is none. *)
Class QuickFix (M : Type) := {
  fix_message : bytes -> option M;
  fix_is_new_order_single : M -> bool;
  fix_is_set : M -> Z -> bool;
  fix_string : M -> Z -> option bytes;
  fix_char : M -> Z -> option ascii;
  fix_double : M -> Z -> option double
}.

Inductive ProtocolType := FIX | SBE | JSON | BINARY.

(** The message of an error; [what] of an exception is its library's. *)
Inductive ParseError :=
  JsonParsingError
| JsonProcessingError (e : ConfigError)
| UnknownJsonType (msg_type : bytes)
| InvalidJsonOrder
| FixParsingError
| NewOrderSingleError.

Record ParseResult := mkParseResult {
  pr_order : option Order;
  pr_response : option OrderResponse;
  pr_error : option ParseError;
  pr_is_complete_message : bool
}.

#[export] Instance ParseResult_eta : Eta ParseResult := fun r =>
  mkParseResult (pr_order r) (pr_response r) (pr_error r) (pr_is_complete_message r).

Definition empty_result : ParseResult := mkParseResult None None None false.

Definition has_order (r : ParseResult) : bool := bool_decide (is_Some (pr_order r)).
Definition has_response (r : ParseResult) : bool := bool_decide (is_Some (pr_response r)).
Definition has_error (r : ParseResult) : bool := bool_decide (is_Some (pr_error r)).

(** [text == a || text == b || ...]. *)
Definition one_of (text : bytes) (names : list bytes) : bool := existsb (bytes_eqb text) names.

Module MessageParser.

Definition parse_side (side_str : bytes) : Side :=
  if one_of side_str [str "1"; str "B"; str "BUY"; str "buy"] then BUY
  else if one_of side_str [str "2"; str "S"; str "SELL"; str "sell"] then SELL
  else BUY.

Definition parse_order_type (type_str : bytes) : OrderType :=
  if one_of type_str [str "1"; str "MARKET"; str "market"] then OrderType.MARKET
  else if one_of type_str [str "2"; str "LIMIT"; str "limit"] then OrderType.LIMIT
  else if one_of type_str [str "3"; str "STOP"; str "stop"] then OrderType.STOP
  else if one_of type_str [str "4"; str "STOP_LIMIT"; str "stop_limit"] then OrderType.STOP_LIMIT
  else OrderType.MARKET.

Definition parse_time_in_force (tif_str : bytes) : TimeInForce :=
  if one_of tif_str [str "0"; str "DAY"; str "day"] then TimeInForce.DAY
  else if one_of tif_str [str "1"; str "GTC"; str "gtc"] then TimeInForce.GOOD_TILL_CANCEL
  else if one_of tif_str [str "3"; str "IOC"; str "ioc"] then TimeInForce.IMMEDIATE_OR_CANCEL
  else if one_of tif_str [str "4"; str "FOK"; str "fok"] then TimeInForce.FILL_OR_KILL
  else TimeInForce.DAY.

(** The enumerator's own value, in decimal. *)
Definition parser_side_to_string (side : Side) : bytes :=
  to_string_u64 match side with BUY => 0 | SELL => 1 | UNKNOWN_SIDE => 2 end.
Definition parser_order_type_to_string (type : OrderType) : bytes := [OrderType.order_type_code type].
Definition parser_order_status_to_string (status : OrderStatus) : bytes := [OrderStatus.order_status_code status].

End MessageParser.
Import MessageParser.

(** ** JSON *)

(** The counts are [int]s in the code; no message is long enough to overflow them. *)
Record Scan := mkScan {
  brace_count : Z;
  bracket_count : Z;
  in_string : bool;
  escape_next : bool
}.

#[export] Instance Scan_eta : Eta Scan := fun s =>
  mkScan (brace_count s) (bracket_count s) (in_string s) (escape_next s).

Definition backslash : ascii := ascii_of_nat 92.

Definition scan_char (s : Scan) (c : ascii) : Scan :=
  if escape_next s then s <| escape_next := false |>
  else if bool_decide (c = backslash) && in_string s then s <| escape_next := true |>
  else if bool_decide (c = quote) then s <| in_string ::= negb |>
  else if in_string s then s
  else if bool_decide (c = "{"%char) then s <| brace_count ::= fun n => n + 1 |>
  else if bool_decide (c = "}"%char) then s <| brace_count ::= fun n => n - 1 |>
  else if bool_decide (c = "["%char) then s <| bracket_count ::= fun n => n + 1 |>
  else if bool_decide (c = "]"%char) then s <| bracket_count ::= fun n => n - 1 |>
  else s.

Definition scan (s : Scan) (l : bytes) : Scan := fold_left scan_char l s.

Definition is_complete_json_message (buffer : bytes) : bool :=
  if bool_decide (buffer = []) then false
  else let s := scan (mkScan 0 0 false false) buffer in
       (brace_count s =? 0) && (bracket_count s =? 0).

Definition json_space (c : ascii) : bool := one_of [c] [str " "; ["009"%char]; ["010"%char]; ["013"%char]].

Definition json_can_handle (data : bytes) : bool :=
  match List.find (fun c => negb (json_space c)) (take 20 data) with
  | Some c => bool_decide (c = "{"%char) || bool_decide (c = "["%char)
  | None => false
  end.

Definition std_result {A} (r : StdRead A) : result A :=
  match r with Read a => Ok a | InvalidArgument | OutOfRange => Throw (RuntimeError []) end.

Definition to_price_result (d : double) : result price_t :=
  match to_price_t d with Some p => Ok p | None => Undefined end.

Section JsonParser.
Context {J : Type} {json : Json J} {reader : JsonReader J}.

(** The clock and what memory held, for a fresh [Order]. *)
Variables garbage_id now : Z.

Definition contains (j : J) (key : bytes) : bool := bool_decide (is_Some (js_find j key)).

(** [j[key].get<std::string>()]: a type error if there is no such member, or no string. *)
Definition get_text (j : J) (key : bytes) : result bytes :=
  match js_find j key ≫= js_get_string with Some s => Ok s | None => Throw BadJson end.

(** [params] or [data], where the order is nested. *)
Definition order_data (json_order : J) : J :=
  match js_find json_order (str "params") with
  | Some data => data
  | None => match js_find json_order (str "data") with Some data => data | None => json_order end
  end.

Definition get_quantity (data : J) : result Z :=
  match js_find data (str "quantity") with
  | None => Throw BadJson
  | Some v =>
      match js_get_string v with
      | Some s => std_result (stoull s)
      | None => match js_get_uint64 v with Some n => Ok n | None => Throw BadJson end
      end
  end.

Definition get_price (data : J) (otherwise : price_t) : result price_t :=
  match js_find data (str "price") with
  | None => Ok otherwise
  | Some v =>
      if js_is_null v then Ok otherwise
      else match js_get_string v with
           | Some s => let* d := std_result (stod s) in to_price_result d
           | None => if js_is_number v then to_price_result (js_get_double v) else Throw BadJson
           end
  end.

Definition get_time_in_force (data : J) (otherwise : TimeInForce) : result TimeInForce :=
  if contains data (str "timeInForce")
  then let* s := get_text data (str "timeInForce") in Ok (parse_time_in_force s)
  else Ok otherwise.

Definition parse_new_order_json (json_order : J) (client_id : Z) : result Order :=
  let order := (default_order garbage_id now) <| o_client_id := client_id |> in
  let data := order_data json_order in
  let* client_order_id := get_text data (str "clientOrderId") in
  let* symbol := get_text data (str "symbol") in
  let* side := get_text data (str "side") in
  let* type := get_text data (str "type") in
  let* quantity := get_quantity data in
  let* price := get_price data (o_price order) in
  let* tif := get_time_in_force data (o_time_in_force order) in
  Ok (order <| o_identity ::= fun i => mkIdentity (assign 32 symbol) (id_user_id i) (assign 37 client_order_id) (id_order_id i) |>
            <| o_side := parse_side side |>
            <| o_type := parse_order_type type |>
            <| o_quantity := i64 quantity |>
            <| o_leaves_quantity := i64 quantity |>
            <| o_price := price |>
            <| o_time_in_force := tif |>).

Definition with_json_order (json_msg : J) (client_id : Z) : result ParseResult :=
  let* order := parse_new_order_json json_msg client_id in
  Ok (empty_result <| pr_order := Some order |> <| pr_is_complete_message := true |>).

(** The body of the [try] once a document has been parsed. *)
Definition handle_json (json_msg : J) (client_id : Z) : result ParseResult :=
  if contains json_msg (str "method") || contains json_msg (str "type") then
    let* msg_type := get_text json_msg (if contains json_msg (str "method") then str "method" else str "type") in
    if one_of msg_type [str "newOrder"; str "ORDER"; str "order.place"] then with_json_order json_msg client_id
    else Ok (empty_result <| pr_error := Some (UnknownJsonType msg_type) |>)
  else if contains json_msg (str "clientOrderId") && contains json_msg (str "symbol") then with_json_order json_msg client_id
  else Ok (empty_result <| pr_error := Some InvalidJsonOrder |>).

(** A complete text; [None] is a cast that C++ leaves open. *)
Definition parse_complete (text : bytes) (client_id : Z) : option ParseResult :=
  match js_parse text with
  | None => Some (empty_result <| pr_error := Some JsonParsingError |>)
  | Some json_msg =>
      match handle_json json_msg client_id with
      | Ok r => Some r
      | Throw e => Some (empty_result <| pr_error := Some (JsonProcessingError e) |>)
      | Undefined => None
      end
  end.

(** [parse_message] on the parser's buffer. *)
Definition json_parse_message (message_buffer data : bytes) (client_id : Z) : option (bytes * ParseResult) :=
  let buffer := message_buffer ++ data in
  if negb (is_complete_json_message buffer) then Some (buffer, empty_result)
  else (fun r => ([], r)) <$> parse_complete buffer client_id.

(** A sequence of reads of one client. *)
Fixpoint json_reads (buffer : bytes) (reads : list bytes) (client_id : Z) : option (bytes * list ParseResult) :=
  match reads with
  | [] => Some (buffer, [])
  | data :: reads =>
      match json_parse_message buffer data client_id with
      | None => None
      | Some (buffer, r) => (fun '(buffer, rs) => (buffer, r :: rs)) <$> json_reads buffer reads client_id
      end
  end.

Lemma json_reads_app buffer r1 r2 client_id :
  json_reads buffer (r1 ++ r2) client_id
  = match json_reads buffer r1 client_id with
    | None => None
    | Some (buffer, rs) => (fun '(buffer, rs2) => (buffer, rs ++ rs2)) <$> json_reads buffer r2 client_id
    end.
Proof.
  revert buffer. induction r1 as [|d r1 IH]; intros buffer; cbn; [by destruct (json_reads buffer r2 client_id) as [[]|]|].
  destruct (json_parse_message buffer d client_id) as [[b r]|]; [|done]. rewrite IH.
  destruct (json_reads b r1 client_id) as [[b1 rs]|]; [|done]. cbn. by destruct (json_reads b1 r2 client_id) as [[]|].
Qed.
End JsonParser.

(** ** Documents as they are written *)

Inductive Doc :=
  DString (s : bytes)
| DAtom (a : bytes)
| DArray (l : list Doc)
| DObject (l : list (bytes * Doc)).

Definition escape (c : ascii) : bytes :=
  if bool_decide (c = quote) || bool_decide (c = backslash) then [backslash; c] else [c].
Definition write_string (s : bytes) : bytes := quote :: flat_map escape s ++ [quote].

Fixpoint write (d : Doc) : bytes :=
  match d with
  | DString s => write_string s
  | DAtom a => a
  | DArray l => "["%char :: comma_join (map write l) ++ ["]"%char]
  | DObject l => "{"%char :: comma_join (map (fun '(k, v) => write_string k ++ str ":" ++ write v) l) ++ ["}"%char]
  end.

(** A number, [true], [false] or [null]: no quote and no bracket. *)
Definition plain (c : ascii) : bool :=
  negb (one_of [c] [[quote]; str "{"; str "}"; str "["; str "]"]).

Fixpoint well_written (d : Doc) : Prop :=
  match d with
  | DString _ => True
  | DAtom a => forallb plain a = true
  | DArray l => (fix all l := match l with [] => True | d :: l => well_written d /\ all l end) l
  | DObject l => (fix all l := match l with [] => True | (_, d) :: l => well_written d /\ all l end) l
  end.

Definition is_composite (d : Doc) : Prop := match d with DArray _ | DObject _ => True | _ => False end.

Lemma Doc_nested_ind (P : Doc -> Prop) :
  (forall s, P (DString s)) -> (forall a, P (DAtom a)) -> (forall l, Forall P l -> P (DArray l)) ->
  (forall l, Forall (fun kv => P (snd kv)) l -> P (DObject l)) -> forall d, P d.
Proof.
  intros H1 H2 H3 H4. fix IH 1. intros [s|a|l|l]; [apply H1|apply H2|apply H3|apply H4].
  - induction l as [|d l IHl]; constructor; [apply IH|apply IHl].
  - induction l as [|[k d] l IHl]; constructor; [apply IH|apply IHl].
Qed.

(** ** What the scanner sees of them *)

Definition neutral (s : Scan) : Prop := in_string s = false /\ escape_next s = false.
Definition deeper (s1 s2 : Scan) : Prop := brace_count s1 <= brace_count s2 /\ bracket_count s1 <= bracket_count s2.

(** Text that leaves the scanner as it found it, and no less deep on the way. *)
Definition balanced (l : bytes) : Prop :=
  forall s, neutral s -> scan s l = s /\ forall p q, l = p ++ q -> deeper s (scan s p).

Lemma scan_app s a b : scan s (a ++ b) = scan (scan s a) b.
Proof. apply fold_left_app. Qed.

Lemma scan_cons s c l : scan s (c :: l) = scan (scan_char s c) l.
Proof. done. Qed.

Lemma deeper_refl s : deeper s s.
Proof. split; lia. Qed.

Lemma balanced_nil : balanced [].
Proof. intros s _. split; [done|]. intros [|c p] q; [intros _; apply deeper_refl|done]. Qed.

Lemma balanced_app a b : balanced a -> balanced b -> balanced (a ++ b).
Proof.
  intros Ha Hb s Hs. destruct (Ha s Hs) as [Ea Pa], (Hb s Hs) as [Eb Pb]. split; [by rewrite scan_app, Ea, Eb|].
  intros p q H. destruct (app_eq_app _ _ _ _ H) as (l & [[-> ->]|[-> ->]]).
  - by apply (Pa p l).
  - rewrite scan_app, Ea. by apply (Pb l q).
Qed.

Lemma scan_brackets b k :
  let s b k := mkScan b k false false in
  scan_char (s b k) "{" = s (b + 1) k /\ scan_char (s b k) "}" = s (b - 1) k
  /\ scan_char (s b k) "[" = s b (k + 1) /\ scan_char (s b k) "]" = s b (k - 1).
Proof. done. Qed.

Lemma balanced_bracketed (o c : ascii) l : (o = "{"%char /\ c = "}"%char) \/ (o = "["%char /\ c = "]"%char) -> balanced l ->
  balanced (o :: l ++ [c])
  /\ forall s, neutral s -> forall p q, o :: l ++ [c] = p ++ q -> p <> [] -> q <> [] ->
       brace_count s + bracket_count s < brace_count (scan s p) + bracket_count (scan s p) /\ deeper s (scan s p).
Proof.
  intros Hoc Hl. assert (forall s, neutral s -> let s1 := scan_char s o in neutral s1 /\ scan_char s1 c = s /\ deeper s s1
      /\ brace_count s + bracket_count s < brace_count s1 + bracket_count s1) as K.
  { intros [b k i e] [Hi He]. cbn in Hi, He. subst i e. unfold deeper, neutral.
    destruct (scan_brackets b k) as (E1 & _ & E3 & _). destruct (scan_brackets (b + 1) k) as (_ & E2 & _ & _).
    destruct (scan_brackets b (k + 1)) as (_ & _ & _ & E4).
    destruct Hoc as [[-> ->]|[-> ->]]; rewrite ?E1, ?E3, ?E2, ?E4; cbn; repeat split; try lia; f_equal; lia. }
  assert (forall s, neutral s -> forall p q, o :: l ++ [c] = p ++ q -> p <> [] -> q <> [] ->
       brace_count s + bracket_count s < brace_count (scan s p) + bracket_count (scan s p) /\ deeper s (scan s p)) as Kp.
  { intros s Hs [|x p] q E Hp Hq; [done|]. injection E as <- E. destruct (K s Hs) as (Hn & _ & [Hd1 Hd2] & Hlt).
    destruct (app_eq_app _ _ _ _ E) as (r & [[-> _]|[-> Er]]).
    - destruct (proj2 (Hl _ Hn) p r eq_refl) as [H1 H2]. rewrite scan_cons. unfold deeper. lia.
    - destruct r as [|y r]; [|by destruct r, q]. rewrite app_nil_r. rewrite scan_cons.
      rewrite (proj1 (Hl _ Hn)). unfold deeper. lia. }
  split; [|done]. intros s Hs. destruct (K s Hs) as (Hn & Hc & _). split.
  - rewrite scan_cons, scan_app, (proj1 (Hl _ Hn)). exact Hc.
  - intros p q E. destruct p as [|x p]; [apply deeper_refl|]. destruct q as [|y q].
    + rewrite app_nil_r in E. rewrite <- E. rewrite scan_cons.
      rewrite scan_app, (proj1 (Hl _ Hn)). cbn. rewrite Hc. apply deeper_refl.
    + by eapply Kp.
Qed.

Lemma balanced_plain a : forallb plain a = true -> balanced a.
Proof.
  induction a as [|c a IH]; [intros _; apply balanced_nil|]. cbn. intros [Hc Ha]%andb_true_iff.
  change (c :: a) with ([c] ++ a). apply balanced_app; [|by apply IH].
  intros s Hs. assert (scan s [c] = s) as E.
  { destruct s as [b k i e], Hs as [Hi He]. cbn in Hi, He. subst i e. unfold plain, one_of in Hc. cbn in Hc.
    unfold scan, scan_char, bytes_eqb in *. cbn. rewrite andb_false_r.
    repeat case_bool_decide; subst; try done; cbn in Hc; discriminate. }
  split; [done|]. intros [|x [|y p]] q; cbn [app]; intros [=]; subst; [apply deeper_refl|].
  rewrite E. apply deeper_refl.
Qed.

(** Inside a string nothing counts. *)
Lemma scan_escaped b k c : scan (mkScan b k true false) (escape c) = mkScan b k true false.
Proof.
  unfold escape. destruct (bool_decide (c = quote) || bool_decide (c = backslash)) eqn:E; [done|].
  apply orb_false_iff in E as [E1 E2]. unfold scan, scan_char. cbn [fold_left escape_next in_string].
  by rewrite E2, E1.
Qed.

Lemma scan_in_escape b k c p q : escape c = p ++ q ->
  brace_count (scan (mkScan b k true false) p) = b /\ bracket_count (scan (mkScan b k true false) p) = k.
Proof.
  unfold escape. destruct (bool_decide (c = quote) || bool_decide (c = backslash)) eqn:E.
  - destruct p as [|x [|y p]]; [done|intros [= <- _]; done|intros [= <- <- Ep]].
    destruct p; [|done]. by apply orb_true_iff in E as [->%bool_decide_eq_true| ->%bool_decide_eq_true].
  - apply orb_false_iff in E as [E1 E2]. destruct p as [|x p]; [done|intros [= <- Ep]]. destruct p; [|done].
    unfold scan, scan_char. cbn [fold_left escape_next in_string]. by rewrite E2, E1.
Qed.

Lemma scan_in_string b k i e l : in_string (mkScan b k i e) = true ->
  forall p q, flat_map escape l = p ++ q -> e = false ->
  brace_count (scan (mkScan b k i e) p) = b /\ bracket_count (scan (mkScan b k i e) p) = k.
Proof.
  cbn. intros -> p q E ->. revert p E. induction l as [|c l IH]; intros p E; cbn [flat_map] in E.
  { by destruct p. }
  destruct (app_eq_app _ _ _ _ E) as (r & [[Ec _]|[-> Er]]).
  - by apply (scan_in_escape b k c p r).
  - rewrite scan_app, scan_escaped. apply IH. by rewrite Er.
Qed.

Lemma scan_flat b k l : scan (mkScan b k true false) (flat_map escape l) = mkScan b k true false.
Proof. induction l as [|c l IH]; [done|]. cbn [flat_map]. by rewrite scan_app, scan_escaped. Qed.

Lemma balanced_string l : balanced (write_string l).
Proof.
  intros [b k i e] [Hi He]. cbn in Hi, He. subst i e. unfold write_string.
  assert (scan_char (mkScan b k false false) quote = mkScan b k true false) as E1 by done.
  assert (scan_char (mkScan b k true false) quote = mkScan b k false false) as E2 by done. split.
  - rewrite scan_cons, E1, scan_app, scan_flat. done.
  - intros [|x p] q E; [apply deeper_refl|]. injection E as <- E. rewrite scan_cons, E1.
    destruct (app_eq_app _ _ _ _ E) as (r & [[Ep _]|[-> Er]]).
    + destruct (scan_in_string b k true false l eq_refl p r Ep eq_refl) as [H1 H2]. unfold deeper. cbn. lia.
    + rewrite scan_app, scan_flat. destruct r as [|y r]; [split; cbn; lia|].
      injection Er as <- Er. destruct r; [|done]. rewrite scan_cons, E2. split; cbn; lia.
Qed.

Lemma balanced_join l : Forall balanced l -> balanced (comma_join l).
Proof.
  destruct l as [|x l]; [intros _; apply balanced_nil|]. intros [Hx Hl]%Forall_cons. cbn. apply balanced_app; [done|].
  induction Hl as [|y l Hy _ IH]; [apply balanced_nil|]. cbn [flat_map]. apply balanced_app; [|done].
  change (balanced ([","%char] ++ y)). apply balanced_app; [by apply balanced_plain|done].
Qed.

Lemma well_written_array l : well_written (DArray l) <-> Forall well_written l.
Proof.
  split; [intros H|]; [|induction 1; by split]. induction l as [|d l IH]; constructor; [apply H|apply IH, H].
Qed.

Lemma well_written_object l : well_written (DObject l) <-> Forall (fun kv => well_written (snd kv)) l.
Proof.
  split; [intros H|].
  - induction l as [|[k d] l IH]; constructor; [apply H|apply IH, H].
  - induction 1 as [|[k d] l H _ IH]; [done|by split].
Qed.

Lemma balanced_member k d : balanced (write d) -> balanced (write_string k ++ str ":" ++ write d).
Proof. intros H. apply balanced_app; [apply balanced_string|]. by apply balanced_app; [apply balanced_plain|]. Qed.

Lemma balanced_write d : well_written d -> balanced (write d).
Proof.
  induction d as [s|a|l IH|l IH] using Doc_nested_ind; intros Hw; cbn [write].
  - apply balanced_string.
  - by apply balanced_plain.
  - apply balanced_bracketed; [by right|]. apply balanced_join, Forall_map. apply well_written_array in Hw.
    pose proof (conj IH Hw) as Hb%Forall_and. eapply Forall_impl; [apply Hb|]. cbn. intuition.
  - apply balanced_bracketed; [by left|]. apply balanced_join, Forall_map. apply well_written_object in Hw.
    pose proof (conj IH Hw) as Hb%Forall_and. eapply Forall_impl; [apply Hb|].
    intros [k d] [H1 H2]. apply balanced_member. by apply H1.
Qed.

(** An object or array is balanced text in brackets. *)
Lemma composite_shape d : is_composite d -> well_written d -> exists o c l,
  write d = o :: l ++ [c] /\ ((o = "{"%char /\ c = "}"%char) \/ (o = "["%char /\ c = "]"%char)) /\ balanced l.
Proof.
  intros Hc Hw. destruct d as [| |l|l]; [done|done| |]; cbn [write]; do 3 eexists; (split; [done|]).
  - split; [by right|]. apply balanced_join, Forall_map. apply well_written_array in Hw.
    eapply Forall_impl; [apply Hw|]. apply balanced_write.
  - split; [by left|]. apply balanced_join, Forall_map. apply well_written_object in Hw.
    eapply Forall_impl; [apply Hw|]. intros [k d] H. by apply balanced_member, balanced_write.
Qed.

Lemma neutral_start b k : neutral (mkScan b k false false).
Proof. done. Qed.

(** A document is complete, and no proper part of it from its start is. *)
Lemma write_complete d : is_composite d -> well_written d -> is_complete_json_message (write d) = true.
Proof.
  intros Hc Hw. unfold is_complete_json_message. rewrite bool_decide_eq_false_2 by (by destruct d).
  by rewrite (proj1 (balanced_write d Hw _ (neutral_start 0 0))).
Qed.

Lemma write_prefix d p q : is_composite d -> well_written d -> write d = p ++ q -> q <> [] ->
  is_complete_json_message p = false.
Proof.
  intros Hc Hw E Hq. unfold is_complete_json_message. case_bool_decide as Hp; [done|].
  destruct (composite_shape d Hc Hw) as (o & c & l & El & Hoc & Hl).
  destruct (balanced_bracketed o c l Hoc Hl) as [_ K].
  destruct (K _ (neutral_start 0 0) p q) as [H1 H2]; [by rewrite <- El|done..|]. cbn in *. lia.
Qed.

(** ** Reads and messages *)

(** A message, the reads it arrived in, and the last of them. *)
Record Cut := mkCut { cut_doc : Doc; cut_reads : list bytes; cut_last : bytes }.

Definition cut_ok (m : Cut) : Prop :=
  is_composite (cut_doc m) /\ well_written (cut_doc m) /\ cut_last m <> []
  /\ List.concat (cut_reads m) ++ cut_last m = write (cut_doc m).

Section Framing.
Context {J : Type} {json : Json J} {reader : JsonReader J}.
Variables (garbage_id now client_id : Z).
Abbreviation reads := (fun b l => json_reads garbage_id now b l client_id).
Abbreviation complete := (fun t => parse_complete garbage_id now t client_id).

(** Reads that do not complete the message are kept. *)
Lemma reads_incomplete l : forall b, (forall p q, b ++ List.concat l = p ++ q -> is_complete_json_message p = false) ->
  reads b l = Some (b ++ List.concat l, repeat empty_result (List.length l)).
Proof.
  induction l as [|d l IH]; intros b H; cbn; [by rewrite app_nil_r|]. unfold json_parse_message.
  rewrite (H (b ++ d) (List.concat l)) by (cbn; by rewrite app_assoc). cbn.
  rewrite IH by (intros p q; rewrite <- app_assoc; apply H). cbn. by rewrite <- app_assoc.
Qed.

Lemma reads_message m : cut_ok m ->
  reads [] (cut_reads m ++ [cut_last m])
  = (fun r => ([], repeat empty_result (List.length (cut_reads m)) ++ [r])) <$> complete (write (cut_doc m)).
Proof.
  intros (Hc & Hw & Hne & E). rewrite json_reads_app.
  rewrite (reads_incomplete (cut_reads m) []).
  2: { cbn. intros p q Ep. eapply (write_prefix (cut_doc m) p (q ++ cut_last m)); [done|done| |by destruct q, (cut_last m)].
       by rewrite <- E, Ep, app_assoc. }
  cbn. unfold json_parse_message. rewrite E, write_complete by done. cbn.
  by destruct (parse_complete garbage_id now (write (cut_doc m)) client_id).
Qed.

(** C35. Objects and arrays reach the JSON reader whole however they are cut into reads, as long
    as no read holds bytes of two of them: every read but the last of a message is
    answered as incomplete, the last with the outcome of the message's own text, and nothing
    of it is left for the next, whatever the texts and numbers in it and however deep it
    nests. *)
Theorem json_messages_reassembled ms : Forall cut_ok ms -> forall outcomes,
  mapM (fun m => complete (write (cut_doc m))) ms = Some outcomes ->
  reads [] (flat_map (fun m => cut_reads m ++ [cut_last m]) ms)
  = Some ([], flat_map (fun '(m, r) => repeat empty_result (List.length (cut_reads m)) ++ [r]) (zip ms outcomes)).
Proof.
  induction 1 as [|m ms Hm _ IH]; intros outcomes; cbn [mapM]; [by intros [= <-]|].
  destruct (parse_complete garbage_id now (write (cut_doc m)) client_id) as [r|] eqn:Er; cbn [mbind option_bind]; [|done].
  destruct (mapM _ ms) as [rs|] eqn:Ers; cbn; [|done]. intros [= <-].
  cbn [flat_map zip]. rewrite json_reads_app, (reads_message m Hm), Er. cbn [fmap option_fmap option_map].
  rewrite (IH rs eq_refl). done.
Qed.

(** What follows a closing bracket without an opening one never completes. *)
Lemma reads_wedged ds : Forall (fun d => is_composite d /\ well_written d) ds -> forall b s,
  scan (mkScan 0 0 false false) b = s -> neutral s -> (brace_count s <> 0 \/ bracket_count s <> 0) -> b <> [] ->
  reads b (map write ds) = Some (b ++ List.concat (map write ds), repeat empty_result (List.length ds)).
Proof.
  induction 1 as [|d ds [Hc Hw] _ IH]; intros b s Hs Hn Hd Hb; cbn; [by rewrite app_nil_r|].
  assert (scan (mkScan 0 0 false false) (b ++ write d) = s) as Hs' by (by rewrite scan_app, Hs, (proj1 (balanced_write d Hw s Hn))).
  unfold json_parse_message, is_complete_json_message.
  rewrite bool_decide_eq_false_2 by (by destruct b). rewrite Hs'.
  assert ((brace_count s =? 0) && (bracket_count s =? 0) = false) as -> by (apply andb_false_iff; rewrite !Z.eqb_neq; done).
  cbn. rewrite (IH (b ++ write d) s Hs' Hn Hd) by (by destruct b). cbn. by rewrite <- app_assoc.
Qed.

(** One stray closing bracket silences a connection for good: after it every message the
    client sends is taken for incomplete, none is parsed or refused, and the buffer keeps
    all of them. *)
Lemma json_stray_bracket_wedges c ds : c = "}"%char \/ c = "]"%char ->
  Forall (fun d => is_composite d /\ well_written d) ds ->
  reads [] ([c] :: map write ds) = Some (c :: List.concat (map write ds), repeat empty_result (S (List.length ds))).
Proof.
  intros Hc Hds. cbn [json_reads]. unfold json_parse_message at 1. cbn [app].
  assert (is_complete_json_message [c] = false) as -> by (by destruct Hc as [->| ->]). cbn [negb].
  rewrite (reads_wedged ds Hds [c] (scan (mkScan 0 0 false false) [c])); [done|done|by destruct Hc as [->| ->]| |done].
  destruct Hc as [->| ->]; [left|right]; done.
Qed.

(** The field that names the kind of message is the one that names the order type. An
    order object that is not nested in [params] or [data] and has no [method] is either
    refused or taken for a market order: a limit order cannot be sent that way. *)
Lemma flat_json_orders_are_market j r o :
  js_find j (str "params") = None -> js_find j (str "data") = None -> js_find j (str "method") = None ->
  handle_json garbage_id now j client_id = Ok r -> pr_order r = Some o ->
  o_type o = OrderType.MARKET.
Proof.
  intros Hp Hd Hm. unfold handle_json, contains at 1 3. rewrite Hm. cbn [orb bool_decide].
  rewrite (bool_decide_eq_false_2 (is_Some None)) by (by intros []). cbn [orb].
  assert (forall t, with_json_order garbage_id now j client_id = Ok r -> get_text j (str "type") = t -> pr_order r = Some o ->
            exists s, t = Ok s /\ o_type o = parse_order_type s) as K.
  { intros t H Ht Ho. unfold with_json_order, parse_new_order_json, order_data in H. rewrite Hp, Hd in H.
    destruct (get_text j (str "clientOrderId")); cbn [rbind] in H; [|done..]. destruct (get_text j (str "symbol")); cbn [rbind] in H; [|done..].
    destruct (get_text j (str "side")); cbn [rbind] in H; [|done..]. rewrite Ht in H. destruct t as [s| |]; cbn [rbind] in H; [|done..].
    destruct (get_quantity j); cbn [rbind] in H; [|done..]. destruct (get_price j _); cbn [rbind] in H; [|done..].
    destruct (get_time_in_force j _); cbn [rbind] in H; [|done..]. exists s. split; [done|].
    injection H as <-. injection Ho as <-. done. }
  destruct (contains j (str "type")) eqn:Et.
  - destruct (get_text j (str "type")) as [t| |] eqn:E; cbn [rbind]; [|done..].
    destruct (one_of t _) eqn:Eo; [|by intros [= <-]]. intros H Ho. destruct (K _ H eq_refl Ho) as (s & [= <-] & ->).
    unfold one_of in Eo. cbn in Eo. rewrite orb_false_r, !orb_true_iff, !bytes_eqb_eq in Eo. by destruct Eo as [-> |[-> | ->]].
  - destruct (_ && _); [|by intros [= <-]]. intros H Ho. destruct (K _ H eq_refl Ho) as (s & E & _).
    exfalso. unfold contains, get_text in *. destruct (js_find j (str "type")); [|done]. by case_bool_decide as Hn; [|destruct Hn].
Qed.
End Framing.

(** ** The execution report *)

Inductive ReportValue := RText (s : bytes) | RNumber (z : Z).

Definition to_string_i64 (z : Z) : bytes := if z <? 0 then str "-" ++ to_string_u64 (- z) else to_string_u64 z.

Definition ord_reject_code (r : OrdRejectReason) : Z :=
  match r with
  | OrdReject.NONE => 0 | OrdReject.UNKNOWN => 1 | OrdReject.UNKNOWN_CONTRACT => 2 | OrdReject.UNKNOWN_ORDER => 3
  | OrdReject.MARKET_CLOSED => 4 | OrdReject.MARKET_HALTED => 5 | OrdReject.SMP => 6
  | OrdReject.INVALID_DISPLAY_QTY => 7 | OrdReject.FAK_MUST_BE_LIMIT => 8 | OrdReject.ICEBERG_MUST_BE_LIMIT => 9
  | OrdReject.ICEBERG_MUST_BE_DAY_OR_GTC => 10 | OrdReject.PRICE_CANT_BE_BELOW_STOP_PRICE => 11
  | OrdReject.PRICE_CANT_BE_ABOVE_STOP_PRICE => 12 | OrdReject.STOP_PRICE_MUST_BE_BELOW_LAST_TRADE_PRICE => 13
  | OrdReject.STOP_PRICE_MUST_BE_ABOVE_LAST_TRADE_PRICE => 14
  | OrdReject.TIME_IN_FORCE_NOT_ALLOWED_IN_CURRENT_MARKET_STATE => 15
  | OrdReject.ORDER_TYPE_NOT_ALLOWED_IN_CURRENT_MARKET_STATE => 16 | OrdReject.INVALID_TICK_SIZE => 17
  | OrdReject.INVALID_QTY => 18 | OrdReject.INVALID_MIN_QTY => 19 | OrdReject.CLIENT_ORDER_ID_ALREADY_EXISTS => 20
  | OrdReject.FOK_CANNOT_FILL => 21
  end.

(** The members set, in the order they are; prices and quantities are the fixed-point
    integers themselves. *)
Definition create_execution_report_json (r : OrderResponse) : list (bytes * ReportValue) :=
  [(str "type", RText (str "executionReport"));
   (str "clientOrderId", RText (view (id_client_order_id (r_identity r))));
   (str "exchId", RText (view (id_order_id (r_identity r))));
   (str "orderStatus", RText (parser_order_status_to_string (r_order_status r)));
   (str "price", RText (to_string_i64 (r_price r)));
   (str "quantity", RText (to_string_i64 (r_qty r)));
   (str "cumQty", RText (to_string_i64 (r_cum_qty r)));
   (str "leavesQty", RText (to_string_i64 (r_leaves_qty r)));
   (str "timestamp", RNumber (r_timestamp r))]
  ++ (if bool_decide (r_reject_reason r = OrdReject.NONE) then []
      else [(str "rejectReason", RNumber (ord_reject_code (r_reject_reason r)))]).

(** ** FIX *)

Definition SOH : ascii := "001"%char.

(** The text up to and with the first SOH, and the rest. *)
Fixpoint split_soh (l : bytes) : option (bytes * bytes) :=
  match l with
  | [] => None
  | c :: l =>
      if bool_decide (c = SOH) then Some ([c], l)
      else match split_soh l with Some (a, b) => Some (c :: a, b) | None => None end
  end.

Definition fix_can_handle (data : bytes) : bool :=
  if (List.length data <? 10)%nat then false
  else bool_decide (is_Some (strip_prefix (str "8=FIX") (take 50 data))).

Definition is_complete_fix_message (buffer : bytes) : bool :=
  bool_decide (is_Some (strip_prefix (str "8=FIX") buffer)) && bool_decide (last buffer = Some SOH).

Section FixParser.
Context {M : Type} {quickfix : QuickFix M}.
Variables garbage_id now : Z.

Definition fix_get {A} (v : option A) : result A :=
  match v with Some a => Ok a | None => Throw (RuntimeError []) end.

(** [static_cast]s of a character to an enumeration; the enumerations of the model end where
    the named values do. *)
Definition side_of_char (c : ascii) : result Side :=
  match char_code c with 0 => Ok BUY | 1 => Ok SELL | 2 => Ok UNKNOWN_SIDE | _ => Undefined end.

Definition order_type_of_char (c : ascii) : result OrderType :=
  match List.find (fun t => bool_decide (OrderType.order_type_code t = c))
          [OrderType.UNKNOWN; OrderType.MARKET; OrderType.LIMIT; OrderType.STOP; OrderType.STOP_LIMIT; OrderType.BRACKET;
           OrderType.TWAP; OrderType.ROLL_OPEN; OrderType.ROLL_CLOSE; OrderType.LIQUIDATION; OrderType.SCALED] with
  | Some t => Ok t
  | None => Undefined
  end.

Definition time_in_force_of_char (c : ascii) : result TimeInForce :=
  match List.find (fun t => bool_decide (TimeInForce.time_in_force_code t = c))
          [TimeInForce.DAY; TimeInForce.GOOD_TILL_CANCEL; TimeInForce.AT_THE_OPENING; TimeInForce.IMMEDIATE_OR_CANCEL;
           TimeInForce.FILL_OR_KILL; TimeInForce.GOOD_TILL_CROSSING; TimeInForce.GOOD_TILL_DATE] with
  | Some t => Ok t
  | None => Undefined
  end.

(** [static_cast<uint64_t>] of a double. *)
Definition trunc_u64 (d : double) : result Z :=
  match d with
  | S754_zero _ => Ok 0
  | S754_finite s m e =>
      let a := if 0 <=? e then Z.pos m * 2 ^ e else Z.pos m / 2 ^ (- e) in
      if s then (if a =? 0 then Ok 0 else Undefined) else if a <? 2 ^ 64 then Ok a else Undefined
  | _ => Undefined
  end.

Definition parse_new_order_single (message : M) (client_id : Z) : result Order :=
  let order := (default_order garbage_id now) <| o_client_id := client_id |> in
  let* cl_ord_id := fix_get (fix_string message 11) in
  let* symbol := fix_get (fix_string message 55) in
  let* side_char := fix_get (fix_char message 54) in
  let* side := side_of_char side_char in
  let* type_char := fix_get (fix_char message 40) in
  let* type := order_type_of_char type_char in
  let* qty := fix_get (fix_double message 38) in
  let* quantity := trunc_u64 qty in
  let* price :=
    if bool_decide (type = OrderType.LIMIT) || bool_decide (type = OrderType.STOP_LIMIT)
    then let* p := fix_get (fix_double message 44) in to_price_result p
    else Ok (o_price order) in
  let* tif :=
    if fix_is_set message 59 then let* c := fix_get (fix_char message 59) in time_in_force_of_char c
    else Ok (o_time_in_force order) in
  Ok (order <| o_identity ::= fun i => mkIdentity (assign 32 symbol) (id_user_id i) (assign 37 cl_ord_id) (id_order_id i) |>
            <| o_side := side |>
            <| o_type := type |>
            <| o_quantity := i64 quantity |>
            <| o_leaves_quantity := i64 quantity |>
            <| o_price := price |>
            <| o_time_in_force := tif |>).

(** What cracking a message leaves in [last_result_]; [None] is a value outside the model. *)
Definition onMessage (message : M) (client_id : Z) : option ParseResult :=
  match parse_new_order_single message client_id with
  | Ok order => Some (empty_result <| pr_order := Some order |>)
  | Throw _ => Some (empty_result <| pr_error := Some NewOrderSingleError |>)
  | Undefined => None
  end.

(** The loop over the pieces of the buffer; every turn takes one off. *)
Fixpoint fix_loop (fuel : nat) (buffer : bytes) (result : ParseResult) (client_id : Z) : option (bytes * ParseResult) :=
  match fuel with
  | O => None
  | S fuel =>
      match split_soh buffer with
      | None => Some (buffer, result <| pr_is_complete_message := false |>)
      | Some (fix_msg, buffer) =>
          if negb (is_complete_fix_message fix_msg) then fix_loop fuel buffer result client_id
          else
            match fix_message fix_msg with
            | None => Some (buffer, result <| pr_error := Some FixParsingError |>)
            | Some message =>
                if negb (fix_is_new_order_single message) then Some (buffer, result <| pr_error := Some FixParsingError |>)
                else
                  match onMessage message client_id with
                  | None => None
                  | Some r =>
                      let result := r <| pr_is_complete_message := true |> in
                      if has_order result then Some (buffer, result) else fix_loop fuel buffer result client_id
                  end
            end
      end
  end.

Definition fix_parse_message (message_buffer data : bytes) (client_id : Z) : option (bytes * ParseResult) :=
  let buffer := message_buffer ++ data in
  fix_loop (S (List.length buffer)) buffer empty_result client_id.

Fixpoint fix_reads (buffer : bytes) (reads : list (Z * bytes)) : option (bytes * list ParseResult) :=
  match reads with
  | [] => Some (buffer, [])
  | (client_id, data) :: reads =>
      match fix_parse_message buffer data client_id with
      | None => None
      | Some (buffer, r) => (fun '(buffer, rs) => (buffer, r :: rs)) <$> fix_reads buffer reads
      end
  end.
End FixParser.

(** QuickFIX refuses a text that does not start with BeginString and BodyLength: two fields. *)
Class QuickFixLaws (M : Type) `{QuickFix M} : Prop := {
  law_two_fields : forall t m, fix_message t = Some m -> (2 <= List.length (List.filter (fun c => bool_decide (c = SOH)) t))%nat
}.

Lemma split_soh_one l a b : split_soh l = Some (a, b) ->
  l = a ++ b /\ List.length (List.filter (fun c => bool_decide (c = SOH)) a) = 1%nat.
Proof.
  revert a. induction l as [|c l IH]; intros a; cbn; [done|]. case_bool_decide as Hc.
  - intros [= <- <-]. cbn. by rewrite bool_decide_eq_true_2.
  - destruct (split_soh l) as [[a' b']|]; [|done]. intros [= <- <-]. destruct (IH a' eq_refl) as [-> H].
    cbn. by rewrite bool_decide_eq_false_2.
Qed.

Section FixFraming.
Context {M : Type} {quickfix : QuickFix M} {laws : QuickFixLaws M}.
Variables garbage_id now : Z.

Lemma fix_loop_no_order client_id fuel : forall buffer result, (List.length buffer < fuel)%nat -> pr_order result = None ->
  exists buffer' r, fix_loop garbage_id now fuel buffer result client_id = Some (buffer', r) /\ pr_order r = None.
Proof.
  induction fuel as [|fuel IH]; intros buffer result Hf Hr; [lia|]. cbn [fix_loop].
  destruct (split_soh buffer) as [[a b]|] eqn:E; [|by do 2 eexists].
  destruct (split_soh_one _ _ _ E) as [-> Ha].
  assert (a <> []) by (by destruct a). assert (List.length b < fuel)%nat.
  { rewrite length_app in Hf. destruct a; [done|]. cbn in Hf. lia. }
  destruct (negb _); [by apply IH|]. destruct (fix_message a) as [m|] eqn:Em; [|by do 2 eexists].
  apply law_two_fields in Em. lia.
Qed.

(** The FIX parser never parses an order. It cuts its buffer at every field separator
    and offers QuickFIX the pieces, so no piece has a second field, and QuickFIX refuses all of
    them: whatever is read, in whatever pieces, every call returns, without an order. *)
Lemma fix_orders_never_parsed reads : forall buffer, exists buffer' rs,
  fix_reads garbage_id now buffer reads = Some (buffer', rs) /\ Forall (fun r => pr_order r = None) rs.
Proof.
  induction reads as [|[client_id data] reads IH]; intros buffer; cbn [fix_reads]; [by exists buffer, []|].
  unfold fix_parse_message.
  destruct (fix_loop_no_order client_id (S (List.length (buffer ++ data))) (buffer ++ data) empty_result) as (b & r & -> & Hr);
    [lia|done|]. destruct (IH b) as (b' & rs & -> & Hrs). exists b', (r :: rs). by repeat constructor.
Qed.
End FixFraming.

(** ** The factory *)

Inductive Parser := AJsonParser | AFixParser.

Definition create_parser (type : ProtocolType) : option Parser :=
  match type with
  | FIX => Some AFixParser
  | SBE => None
  | JSON => Some AJsonParser
  | BINARY => None
  end.

Definition create_parser_from_data (data : bytes) : option Parser :=
  match data with
  | [] => None
  | _ => if json_can_handle data then Some AJsonParser
         else if fix_can_handle data then Some AFixParser
         else Some AJsonParser
  end.

(** The codes and names a parser reads back, and those it takes for something else: a buy's
    code is no side's, a sell's is a buy's, and a GOOD_TILL_CANCEL by name is a day order. *)
Lemma parser_codes :
  map (fun s => parse_side (parser_side_to_string s)) [BUY; SELL] = [BUY; BUY]
  /\ map (fun s => parse_side (side_to_string s)) [BUY; SELL] = [BUY; SELL]
  /\ (forall t, In t [OrderType.MARKET; OrderType.LIMIT; OrderType.STOP; OrderType.STOP_LIMIT] ->
        parse_order_type (OrderType.order_type_to_string t) = t /\ parse_order_type (parser_order_type_to_string t) = t)
  /\ (forall t, In t [TimeInForce.DAY; TimeInForce.GOOD_TILL_CANCEL; TimeInForce.IMMEDIATE_OR_CANCEL; TimeInForce.FILL_OR_KILL] ->
        parse_time_in_force [TimeInForce.time_in_force_code t] = t)
  /\ parse_time_in_force (TimeInForce.time_in_force_to_string TimeInForce.GOOD_TILL_CANCEL) = TimeInForce.DAY.
Proof.
  split; [done|]. split; [done|]. split; [|split; [|done]]; intros t [<-|[<-|[<-|[<-|[]]]]]; done.
Qed.

(** ** Concrete libraries *)

(** A reader of documents by their text. *)
Definition sample_order : FlatJson :=
  JObject [(str "clientOrderId", JString (str "A1")); (str "symbol", JString (str "BTC-USD")); (str "side", JString (str "SELL"));
           (str "type", JString (str "ORDER")); (str "quantity", JString (str "25")); (str "price", JString (str "100.25"))].

Definition sample_write : Doc :=
  DObject [(str "clientOrderId", DString (str "A1")); (str "symbol", DString (str "BTC-USD")); (str "side", DString (str "SELL"));
           (str "type", DString (str "ORDER")); (str "quantity", DString (str "25")); (str "price", DString (str "100.25"))].

#[export] Instance sample_reader : JsonReader FlatJson := {
  js_parse t := if bytes_eqb t (write sample_write) then Some sample_order else None;
  js_is_null j := false;
  js_get_uint64 j := match j with JInt z => if (0 <=? z) && (z <? 2 ^ 64) then Some z else None | _ => None end
}.

Definition sample_cut : Cut :=
  mkCut sample_write [take 10 (write sample_write); take 30 (drop 10 (write sample_write))] (drop 40 (write sample_write)).

(** The price is scaled, the quantity is not. *)
Example sample_parsed :
  match parse_complete (J := FlatJson) 0 7 (write sample_write) 3 with
  | Some r => (fun o => (o_side o, o_type o, o_price o, o_quantity o, view (o_symbol o))) <$> pr_order r
  | None => None
  end = Some (SELL, OrderType.MARKET, 10025000000, 25, str "BTC-USD").
Proof. vm_compute. reflexivity. Qed.

Lemma sample_outcome : exists r, parse_complete (J := FlatJson) 0 7 (write sample_write) 3 = Some r /\ has_order r = true.
Proof. eexists. split; [vm_compute; reflexivity|reflexivity]. Qed.

Lemma sample_cut_ok : cut_ok sample_cut.
Proof. split; [done|]. split; [by cbn|]. split; done. Qed.

Lemma json_messages_reassembled_witness :
  exists r, has_order r = true
    /\ json_reads (J := FlatJson) 0 7 [] (flat_map (fun m => cut_reads m ++ [cut_last m]) [sample_cut]) 3
       = Some ([], flat_map (fun '(m, r) => repeat empty_result (List.length (cut_reads m)) ++ [r]) (zip [sample_cut] [r])).
Proof.
  destruct sample_outcome as (r & E & Hr). exists r. split; [exact Hr|].
  apply (json_messages_reassembled 0 7 3 [sample_cut]); [apply Forall_singleton, sample_cut_ok|].
  cbn [mapM cut_doc sample_cut]. rewrite E. reflexivity.
Defined.

Lemma json_stray_bracket_wedges_witness :
  json_reads (J := FlatJson) 0 7 [] (["}"%char] :: map write [sample_write; sample_write]) 3
  = Some ("}"%char :: List.concat (map write [sample_write; sample_write]), repeat empty_result 3).
Proof.
  apply (json_stray_bracket_wedges 0 7 3 "}"%char [sample_write; sample_write]); [by left|].
  repeat constructor.
Defined.

Lemma sample_handled : exists r o, handle_json (J := FlatJson) 0 7 sample_order 3 = Ok r /\ pr_order r = Some o.
Proof. do 2 eexists. split; [vm_compute; reflexivity|reflexivity]. Qed.

Lemma flat_json_orders_are_market_witness :
  exists r o, handle_json 0 7 sample_order 3 = Ok r /\ pr_order r = Some o /\ o_type o = OrderType.MARKET.
Proof.
  destruct sample_handled as (r & o & E & Eo).
  exists r, o. split; [done|]. split; [done|].
  apply (flat_json_orders_are_market 0 7 3 sample_order r o); done.
Defined.

(** A FIX library that takes any text of two fields for a buy of one. *)
#[export] Instance sample_fix : QuickFix bytes := {
  fix_message t := if (2 <=? List.length (List.filter (fun c => bool_decide (c = SOH)) t))%nat then Some t else None;
  fix_is_new_order_single _ := true;
  fix_is_set _ _ := false;
  fix_string _ _ := Some (str "X");
  fix_char _ tag := if tag =? 54 then Some "000"%char else Some "1"%char;
  fix_double _ _ := Some (double_of_Z 1)
}.

#[export] Instance sample_fix_laws : QuickFixLaws bytes.
Proof. split. intros t m. cbn [fix_message sample_fix]. by destruct (Nat.leb_spec 2 (List.length (List.filter (fun c => bool_decide (c = SOH)) t))). Qed.

(** The same message in one piece is an order. *)
Definition sample_fix_text : bytes := str "8=FIX.4.4" ++ [SOH] ++ str "9=5" ++ [SOH] ++ str "35=D" ++ [SOH] ++ str "10=000" ++ [SOH].

Lemma fix_orders_never_parsed_witness :
  (exists r, onMessage (M := bytes) 0 7 sample_fix_text 3 = Some r /\ has_order r = true)
  /\ exists buffer' rs, fix_reads (M := bytes) 0 7 [] [(3, sample_fix_text); (3, sample_fix_text)] = Some (buffer', rs)
       /\ Forall (fun r => pr_order r = None) rs.
Proof.
  split; [by eexists|]. apply (fix_orders_never_parsed 0 7 [(3, sample_fix_text); (3, sample_fix_text)] []).
Defined.
