(* ===== verification/JsonAccess.v ===== *)
(** * Reading a JSON document

    nlohmann's accessors beside those of [MatchingConfig] and [MessageParsers], as the
    gateways and the venues use them: what is missing or of the wrong kind is an exception
    ([Throw]), and what a debug build only asserts is [Undefined]. *)

From S2P Require Import Prelude Types MatchingConfig MessageParsers Decimals.

Class JsonKinds (J : Type) := {
  js_is_array : J -> bool;
  js_get_bool : J -> option bool
}.

Section Access.
Context {J : Type} {json : Json J} {items : JsonItems J} {reader : JsonReader J} {kinds : JsonKinds J}.

(** [j[key]] on a constant: a member that is missing is not checked for. *)
Definition const_at (j : J) (key : bytes) : result J :=
  match js_find j key with
  | Some v => Ok v
  | None => if js_is_object j then Undefined else Throw BadJson
  end.

(** [j.value(key, otherwise)]. *)
Definition value {A} (get : J -> option A) (j : J) (key : bytes) (otherwise : A) : result A :=
  if negb (js_is_object j) then Throw BadJson
  else match js_find j key with
       | None => Ok otherwise
       | Some v => match get v with Some a => Ok a | None => Throw BadJson end
       end.

Definition get_number (j : J) : option Z := if js_is_number j then Some (js_get_int64 j) else None.

(** [size()]: 0 of a null, 1 of a scalar. *)
Definition js_size (j : J) : nat := List.length (js_items j).

(** [j[i]] on a constant: past an array's end is not checked for. *)
Definition item_at (j : J) (i : nat) : result J :=
  if js_is_array j then defined (js_items j !! i) else Throw BadJson.

Definition get_as {A} (get : J -> option A) (j : J) : result A :=
  match get j with Some a => Ok a | None => Throw BadJson end.

(** [std::stod(j[key].get<std::string>())] on a constant. *)
Definition number_at (j : J) (key : bytes) : result double :=
  let* v := const_at j key in
  let* text := get_as js_get_string v in
  std_result (stod text).
End Access.

(** ** A concrete document, with arrays

    Local instances: a file that evaluates on it declares them again. *)

Inductive Doc :=
  DNull | DBool (b : bool) | DText (s : bytes) | DNumber (z : Z) | DArray (l : list Doc) | DObject (l : list (bytes * Doc)).

#[local] Instance doc_json : Json Doc := {
  js_find j k := match j with DObject l => snd <$> List.find (fun kv => bytes_eqb (fst kv) k) l | _ => None end;
  js_is_object j := match j with DObject _ => true | _ => false end;
  js_is_number j := match j with DNumber _ => true | _ => false end;
  js_is_number_integer j := match j with DNumber _ => true | _ => false end;
  js_get_int64 j := match j with DNumber z => z | _ => 0 end;
  js_get_double j := double_of_Z match j with DNumber z => z | _ => 0 end;
  js_get_string j := match j with DText s => Some s | _ => None end;
  js_empty_object := DObject []
}.

#[local] Instance doc_items : JsonItems Doc := fun j =>
  match j with DNull => [] | DArray l => l | DObject l => map snd l | _ => [j] end.

#[local] Instance doc_reader : JsonReader Doc := {
  js_parse _ := None;
  js_is_null j := match j with DNull => true | _ => false end;
  js_get_uint64 j := match j with DNumber z => if 0 <=? z then Some z else None | _ => None end
}.

#[local] Instance doc_kinds : JsonKinds Doc := {
  js_is_array j := match j with DArray _ => true | _ => false end;
  js_get_bool j := match j with DBool b => Some b | _ => None end
}.
