(* ===== verification/InstanceExpansion.v ===== *)
(** * One entry of the configuration, several exchanges

    Models [src/exchange/instance_expansion.hpp]: the instances a venue's entry lists, each
    merged over what they share, and the resources they claim. What nlohmann does to a
    document is [JsonEdit], with the laws of RFC 7386 for [merge_patch]. *)

From S2P Require Import Prelude Types MatchingConfig MessageParsers JsonAccess.

(** [j[key] = v] on an object or null, [erase], [merge_patch], and a string as a document. *)
Class JsonEdit (J : Type) := {
  js_assign : J -> bytes -> J -> J;
  js_erase : J -> bytes -> J;
  js_merge_patch : J -> J -> J;
  js_text : bytes -> J
}.

(** What a member becomes when an object is patched. *)
Definition patched {J} `{Json J, JsonReader J, JsonEdit J} (old new : option J) : option J :=
  match new with
  | None => old
  | Some v => if js_is_null v then None
              else Some (if js_is_object v then js_merge_patch (default js_empty_object old) v else v)
  end.

Class JsonEditLaws (J : Type) `{Json J, JsonReader J, JsonEdit J} := {
  law_no_members j k : js_is_object j = false -> js_find j k = None;
  law_text s : js_get_string (js_text s) = Some s;
  law_assign j k v : js_is_object j = true \/ js_is_null j = true ->
    js_is_object (js_assign j k v) = true
    /\ forall k', js_find (js_assign j k v) k' = if bytes_eqb k' k then Some v else js_find j k';
  law_erase j k : js_is_object j = true ->
    js_is_object (js_erase j k) = true
    /\ forall k', js_find (js_erase j k) k' = if bytes_eqb k' k then None else js_find j k';
  law_merge_patch j p : js_is_object j = true -> js_is_object p = true ->
    js_is_object (js_merge_patch j p) = true
    /\ forall k, js_find (js_merge_patch j p) k = patched (js_find j k) (js_find p k)
}.

Definition quote : bytes := [char_of 34].
Definition tick : bytes := str "'".

Section Expansion.
Context {J : Type} {json : Json J} {items : JsonItems J} {reader : JsonReader J} {kinds : JsonKinds J} {edit : JsonEdit J}.

(** Whether the logger evaluates what it is given to format. *)
Variable logs : bool.

Definition assign_member (j : J) (key : bytes) (v : J) : result J :=
  if js_is_object j || js_is_null j then Ok (js_assign j key v) else Throw BadJson.

Section Entry.
Variables (list_key venue : bytes) (default_name : J -> nat -> bytes).

(** The instance an element of the list describes, before it is asked whether it is enabled. *)
Definition make_instance (shared : J) (i : nat) (element : J) : result J :=
  let instance := js_merge_patch shared element in
  if contains instance (str "name") then Ok instance
  else assign_member instance (str "name") (js_text (default_name instance i)).

Definition log_disabled (instance : J) : result unit :=
  if logs then
    let* name := const_at instance (str "name") in
    let* _ := get_as js_get_string name in Ok tt
  else Ok tt.

Fixpoint expand_list (shared : J) (i : nat) (l : list J) (out : list J) : result (list J) :=
  match l with
  | [] => Ok out
  | element :: l =>
      if negb (js_is_object element)
      then Throw (RuntimeError (venue ++ str ": " ++ quote ++ list_key ++ quote ++ str "[" ++ to_string_u64 (Z.of_nat i) ++ str "] must be an object"))
      else
        let* instance := make_instance shared i element in
        let* enabled := value js_get_bool instance (str "enabled") true in
        if negb enabled then
          let* _ := log_disabled instance in
          expand_list shared (S i) l out
        else expand_list shared (S i) l (out ++ [instance])
  end.

Definition expand_instances (config : J) : result (list J) :=
  match js_find config list_key with
  | None =>
      let* single := if contains config (str "name") then Ok config else assign_member config (str "name") (js_text venue) in
      Ok [single]
  | Some l =>
      if negb (js_is_array l) || bool_decide (js_items l = [])
      then Throw (RuntimeError (venue ++ str ": " ++ quote ++ list_key ++ quote ++ str " must be a non-empty array"))
      else expand_list (js_erase config list_key) 0 (js_items l) []
  end.
End Entry.

(** *** What an instance owns *)

(** [shown] is what [std::format] makes of the claimed value. *)
Definition claim {K} `{Countable K} (shown : K -> bytes) (what venue : bytes) (value : K) (owner : bytes) (claimed : gmap K bytes)
  : result (gmap K bytes) :=
  match claimed !! value with
  | None => Ok (<[value := owner]> claimed)
  | Some other =>
      if bytes_eqb other owner
      then Throw (RuntimeError (venue ++ str ": " ++ tick ++ owner ++ tick ++ str " uses " ++ what ++ str " " ++ shown value ++ str " twice"))
      else Throw (RuntimeError (venue ++ str ": " ++ tick ++ other ++ tick ++ str " and " ++ tick ++ owner ++ tick
                                 ++ str " both use " ++ what ++ str " " ++ shown value))
  end.

(** [get<uint16_t>] casts any number - a real one by way of 64 bits here - and reads a
    boolean as 0 or 1. *)
Definition get_uint16 (j : J) : option Z :=
  match js_get_bool j with
  | Some b => Some (if b then 1 else 0)
  | None => u16 <$> get_number j
  end.

(** [at] throws where there is no such member. *)
Definition member_at (j : J) (key : bytes) : result J :=
  match js_find j key with Some v => Ok v | None => Throw BadJson end.

Definition group_key (group : J) : result bytes :=
  let* a := member_at group (str "address") in
  let* address := get_as js_get_string a in
  let* p := member_at group (str "port") in
  let* port := get_as get_uint16 p in
  Ok (address ++ str ":" ++ to_string_u64 port).
End Expansion.

(** ** The instances of an entry *)

Section Expanded.
Context {J : Type} {json : Json J} {items : JsonItems J} {reader : JsonReader J} {kinds : JsonKinds J} {edit : JsonEdit J} {laws : JsonEditLaws J}.
Context (logs : bool) (list_key venue : bytes) (default_name : J -> nat -> bytes).
Implicit Types config shared element instance : J.

(** What all instances share. *)
Definition shared_member config (k : bytes) : option J := if bytes_eqb k list_key then None else js_find config k.

(** The instance as RFC 7386 and the naming rule make it. *)
Record instance_of config (i : nat) element instance : Prop := {
  io_object : js_is_object instance = true;
  io_members : forall k, js_find instance k =
    match patched (shared_member config k) (js_find element k) with
    | Some v => Some v
    | None => if bytes_eqb k (str "name")
              then Some (js_text (default_name (js_merge_patch (js_erase config list_key) element) i)) else None
    end
}.

Definition is_enabled instance : bool :=
  match value js_get_bool instance (str "enabled") true with Ok b => b | _ => false end.

(** Whether it is enabled can be told, and its name can be logged. *)
Definition well_typed instance : Prop :=
  (exists b, value js_get_bool instance (str "enabled") true = Ok b)
  /\ (is_enabled instance = false -> exists name s, js_find instance (str "name") = Some name /\ js_get_string name = Some s).

Lemma make_instance_of config i element : js_is_object config = true -> js_is_object element = true ->
  exists instance, make_instance default_name (js_erase config list_key) i element = Ok instance /\ instance_of config i element instance.
Proof.
  intros Hc He. destruct (law_erase config list_key Hc) as [E1 E2]. destruct (law_merge_patch _ element E1 He) as [M1 M2].
  assert (HM : forall k, js_find (js_merge_patch (js_erase config list_key) element) k = patched (shared_member config k) (js_find element k)).
  { intros k. rewrite M2, E2. done. }
  unfold make_instance, contains. case_bool_decide as Hn.
  - eexists. split; [done|]. split; [done|]. intros k. rewrite HM. case_match; [done|]. case_match eqn:Ek; [|done].
    apply bytes_eqb_eq in Ek as ->. rewrite HM in Hn. destruct Hn. congruence.
  - unfold assign_member. rewrite M1. destruct (law_assign (js_merge_patch (js_erase config list_key) element) (str "name")
      (js_text (default_name (js_merge_patch (js_erase config list_key) element) i)) (or_introl M1)) as [A1 A2].
    eexists. split; [done|]. split; [done|]. intros k. rewrite A2, HM. case_match eqn:Ek; [|by case_match].
    apply bytes_eqb_eq in Ek as ->. rewrite <- HM. case_match eqn:Ef; [|done]. destruct Hn. by eexists.
Qed.

Lemma instance_kept config i element l out instance : js_is_object element = true ->
  make_instance default_name (js_erase config list_key) i element = Ok instance -> well_typed instance ->
  expand_list logs list_key venue default_name (js_erase config list_key) i (element :: l) out
  = expand_list logs list_key venue default_name (js_erase config list_key) (S i) l (if is_enabled instance then out ++ [instance] else out).
Proof.
  intros He Em [[b Eb] Hn]. cbn [expand_list]. rewrite He, Em. cbn [negb rbind]. unfold is_enabled in *. rewrite Eb in *. cbn [rbind].
  destruct b; [done|]. cbn [negb]. unfold log_disabled. destruct logs; [|done]. destruct Hn as (name & s & E1 & E2); [done|].
  unfold const_at, get_as. by rewrite E1; cbn; rewrite E2.
Qed.

Lemma list_expanded config l : js_is_object config = true -> Forall (fun e => js_is_object e = true) l -> forall i out,
  (forall j e instance, l !! j = Some e -> instance_of config (i + j) e instance -> well_typed instance) ->
  exists insts, Forall2 (fun ie instance => instance_of config (fst ie) (snd ie) instance) (zip (seq i (List.length l)) l) insts
    /\ expand_list logs list_key venue default_name (js_erase config list_key) i l out = Ok (out ++ List.filter is_enabled insts).
Proof.
  intros Hc Hl. induction Hl as [|e l He Hl IH]; intros i out Hw.
  { exists []. split; [constructor|]. cbn. by rewrite app_nil_r. }
  destruct (make_instance_of config i e Hc He) as (inst & Em & Hi).
  assert (Hwt : well_typed inst) by (apply (Hw 0%nat e); [done|by rewrite Nat.add_0_r]).
  destruct (IH (S i) (if is_enabled inst then out ++ [inst] else out)) as (insts & F & E).
  { intros j e' inst' Hj. rewrite Nat.add_succ_comm. by apply (Hw (S j)). }
  exists (inst :: insts). split; [by constructor|]. rewrite (instance_kept config i e l out inst He Em Hwt), E. cbn [List.filter].
  destruct (is_enabled inst); [by rewrite <- app_assoc|done].
Qed.

(** An entry that lists its instances: each is what the entry's other keys say, patched with
    the instance's own, and named by the rule where neither names it; those enabled are
    returned, in the order of the list. *)
Theorem instances_expanded config l : js_is_object config = true -> js_find config list_key = Some l ->
  js_is_array l = true -> js_items l <> [] -> Forall (fun e => js_is_object e = true) (js_items l) ->
  (forall i e instance, js_items l !! i = Some e -> instance_of config i e instance -> well_typed instance) ->
  exists insts, Forall2 (fun ie instance => instance_of config (fst ie) (snd ie) instance)
      (zip (seq 0 (List.length (js_items l))) (js_items l)) insts
    /\ expand_instances logs list_key venue default_name config = Ok (List.filter is_enabled insts).
Proof.
  intros Hc Hf Ha Hne Ho Hw. destruct (list_expanded config (js_items l) Hc Ho 0%nat []) as (insts & F & E); [done|].
  exists insts. split; [done|]. unfold expand_instances. rewrite Hf, Ha. cbn [negb orb]. by rewrite bool_decide_eq_false_2.
Qed.

(** An entry without a list is its own and only instance, named after the venue if need be. *)
Theorem single_instance config : js_is_object config = true -> js_find config list_key = None ->
  exists instance, expand_instances logs list_key venue default_name config = Ok [instance] /\ js_is_object instance = true
    /\ forall k, js_find instance k = match js_find config k with
                                    | Some v => Some v
                                    | None => if bytes_eqb k (str "name") then Some (js_text venue) else None
                                    end.
Proof.
  intros Hc Hf. unfold expand_instances, contains. rewrite Hf. case_bool_decide as Hn.
  - exists config. split; [done|]. split; [done|]. intros k. case_match; [done|]. case_match eqn:Ek; [|done].
    apply bytes_eqb_eq in Ek as ->. destruct Hn. congruence.
  - unfold assign_member. rewrite Hc. destruct (law_assign config (str "name") (js_text venue) (or_introl Hc)) as [A1 A2].
    eexists. split; [done|]. split; [done|]. intros k. rewrite A2. case_match eqn:Ek; [|by case_match].
    apply bytes_eqb_eq in Ek as ->. case_match eqn:Ef; [|done]. destruct Hn. by eexists.
Qed.

(** An element that is no object stops the expansion, named by its position, when everything
    before it is in order. *)
Theorem stray_element_refused config l pre e post : js_is_object config = true -> js_find config list_key = Some l ->
  js_is_array l = true -> js_items l = pre ++ e :: post -> Forall (fun e => js_is_object e = true) pre -> js_is_object e = false ->
  (forall i x instance, pre !! i = Some x -> instance_of config i x instance -> well_typed instance) ->
  expand_instances logs list_key venue default_name config
  = Throw (RuntimeError (venue ++ str ": " ++ quote ++ list_key ++ quote ++ str "[" ++ to_string_u64 (Z.of_nat (List.length pre)) ++ str "] must be an object")).
Proof.
  intros Hc Hf Ha El Hp He Hw. unfold expand_instances. rewrite Hf, Ha, El. cbn [negb orb].
  rewrite bool_decide_eq_false_2 by (intros [_ Hx]%app_eq_nil; discriminate). clear El.
  assert (G : forall i out, (forall j x instance, pre !! j = Some x -> instance_of config (i + j) x instance -> well_typed instance) ->
    expand_list logs list_key venue default_name (js_erase config list_key) i (pre ++ e :: post) out
    = Throw (RuntimeError (venue ++ str ": " ++ quote ++ list_key ++ quote ++ str "[" ++ to_string_u64 (Z.of_nat (i + List.length pre)) ++ str "] must be an object"))); [|by apply G].
  clear Hw. induction Hp as [|x pre Hx Hp IH]; intros i out Hw.
  { cbn [app expand_list List.length]. rewrite He, Nat.add_0_r. done. }
  destruct (make_instance_of config i x Hc Hx) as (inst & Em & Hi).
  assert (Hwt : well_typed inst) by (apply (Hw 0%nat x); [done|by rewrite Nat.add_0_r]).
  cbn [app List.length]. rewrite (instance_kept config i x _ out inst Hx Em Hwt), <- Nat.add_succ_comm. apply IH.
  intros j y inst' Hj. rewrite Nat.add_succ_comm. by apply (Hw (S j)).
Qed.
End Expanded.

(** ** Claims *)

Section Claims.
Context {K : Type} `{Countable K} (shown : K -> bytes) (what venue : bytes).

(** Claims made one after the other. *)
Fixpoint claim_all (l : list (K * bytes)) (claimed : gmap K bytes) : result (gmap K bytes) :=
  match l with
  | [] => Ok claimed
  | vo :: l => let* claimed := claim shown what venue (fst vo) (snd vo) claimed in claim_all l claimed
  end.

(** All claims hold together exactly when no value is claimed twice, and then each value
    belongs to whoever claimed it. *)
Theorem claims_exclusive l claimed claimed' : claim_all l claimed = Ok claimed' <->
  NoDup (map fst l) /\ (forall v o, (v, o) ∈ l -> claimed !! v = None)
  /\ claimed' = list_to_map l ∪ claimed.
Proof.
  revert claimed. induction l as [|[v o] l IH]; intros claimed.
  { cbn. rewrite (left_id_L ∅ (∪)). split; [|naive_solver]. intros [= ->]. split; [constructor|]. split; [|done]. by intros v o ?%elem_of_nil. }
  cbn [claim_all map fst snd]. rewrite list_to_map_cons. unfold claim. destruct (claimed !! v) as [other|] eqn:Ev.
  { split; [by case_match|]. intros (_ & Hn & _). rewrite (Hn v o) in Ev by by left. done. }
  cbn [rbind]. rewrite IH, NoDup_cons, <- insert_union_l. split.
  - intros (Hd & Hn & ->). assert (Hv : v ∉ map fst l).
    { intros ([v' o'] & E & Hin)%list_elem_of_fmap. cbn in E. subst v'. apply Hn in Hin. by rewrite lookup_insert_eq in Hin. }
    split; [done|]. split.
    + intros v' o' [[= -> ->]|Hin]%elem_of_cons; [done|]. apply Hn in Hin. by apply lookup_insert_None in Hin as [Hin _].
    + rewrite insert_union_r by (by apply not_elem_of_list_to_map). done.
  - intros ([Hv Hd] & Hn & ->). split; [done|]. split.
    + intros v' o' Hin. apply lookup_insert_None. split; [by apply (Hn v' o'); right|]. intros <-. apply Hv.
      exact (list_elem_of_fmap_2 fst _ _ Hin).
    + rewrite insert_union_r by (by apply not_elem_of_list_to_map). done.
Qed.
End Claims.

(** ** On a concrete document *)

#[local] Existing Instances doc_json doc_items doc_reader doc_kinds.

Definition member (k : bytes) (l : list (bytes * Doc)) : option Doc := snd <$> List.find (fun kv => bytes_eqb (fst kv) k) l.
Definition drop_member (k : bytes) (l : list (bytes * Doc)) : list (bytes * Doc) := List.filter (fun kv => negb (bytes_eqb (fst kv) k)) l.
Definition members (j : Doc) : list (bytes * Doc) := match j with DObject l => l | _ => [] end.

(** RFC 7386, the first of two members with one key counting. *)
Fixpoint doc_merge (patch target : Doc) : Doc :=
  match patch with
  | DObject l =>
      DObject ((fix go (l : list (bytes * Doc)) (seen : list bytes) (out : list (bytes * Doc)) :=
        match l with
        | [] => out
        | (k, v) :: l =>
            if bool_decide (k ∈ seen) then go l seen out
            else go l (k :: seen)
                   (match v with
                    | DNull => drop_member k out
                    | _ => (k, doc_merge v (default (DObject []) (member k out))) :: drop_member k out
                    end)
        end) l [] (members target))
  | _ => patch
  end.

#[local] Instance doc_edit : JsonEdit Doc := {
  js_assign j k v := DObject ((k, v) :: drop_member k (members j));
  js_erase j k := DObject (drop_member k (members j));
  js_merge_patch j p := doc_merge p j;
  js_text s := DText s
}.

Lemma member_drop k l k' : member k' (drop_member k l) = if bytes_eqb k' k then None else member k' l.
Proof.
  unfold member, drop_member. induction l as [|[a v] l IH]; cbn; [by case_match|]. destruct (bytes_eqb a k) eqn:Ea; cbn.
  - rewrite IH. apply bytes_eqb_eq in Ea as ->. destruct (bytes_eqb k' k) eqn:Ek; [done|].
    destruct (bytes_eqb k k') eqn:E; [|done]. apply bytes_eqb_eq in E as ->. by rewrite (proj2 (bytes_eqb_eq k' k')) in Ek.
  - destruct (bytes_eqb a k') eqn:E; cbn; [|exact IH]. apply bytes_eqb_eq in E as ->. by rewrite Ea.
Qed.

Lemma member_cons k v l k' : member k' ((k, v) :: l) = if bytes_eqb k k' then Some v else member k' l.
Proof. unfold member. cbn. by case_match. Qed.

Lemma bytes_eqb_sym a b : bytes_eqb a b = bytes_eqb b a.
Proof. apply eq_true_iff_eq. by rewrite !bytes_eqb_eq. Qed.

(** One member of a patch after the other. *)
Fixpoint merge_members (l : list (bytes * Doc)) (seen : list bytes) (out : list (bytes * Doc)) : list (bytes * Doc) :=
  match l with
  | [] => out
  | (k, v) :: l =>
      if bool_decide (k ∈ seen) then merge_members l seen out
      else merge_members l (k :: seen)
             (match v with
              | DNull => drop_member k out
              | _ => (k, doc_merge v (default (DObject []) (member k out))) :: drop_member k out
              end)
  end.

Lemma doc_merge_object l target : doc_merge (DObject l) target = DObject (merge_members l [] (members target)).
Proof. cbn [doc_merge]. f_equal. Qed.

Lemma merge_members_find l : forall seen out k, member k (merge_members l seen out)
  = if bool_decide (k ∈ seen) then member k out else patched (member k out) (member k l).
Proof.
  induction l as [|[a v] l IH]; intros seen out k; cbn [merge_members]. { by case_match. }
  rewrite member_cons. case_bool_decide as Ha; rewrite IH.
  - case_bool_decide as Hk; [done|]. destruct (bytes_eqb a k) eqn:E; [|done]. by apply bytes_eqb_eq in E as ->.
  - destruct (bytes_eqb a k) eqn:E.
    + apply bytes_eqb_eq in E as ->. rewrite bool_decide_eq_true_2 by (by left). rewrite (bool_decide_eq_false_2 (k ∈ seen)) by done.
      destruct v; cbn [patched js_is_null doc_reader js_is_object doc_json js_merge_patch doc_edit js_empty_object];
        rewrite ?member_cons, ?member_drop, ?(proj2 (bytes_eqb_eq k k)) by done; done.
    + assert (Ek : bytes_eqb k a = false) by (by rewrite bytes_eqb_sym).
      assert (Hne : k <> a) by (intros ->; by rewrite (proj2 (bytes_eqb_eq a a)) in E).
      assert (Eout : member k (match v with DNull => drop_member a out | _ => (a, doc_merge v (default (DObject []) (member a out))) :: drop_member a out end) = member k out).
      { destruct v; rewrite ?member_cons, ?E, member_drop, Ek; done. }
      rewrite Eout. replace (bool_decide (k ∈ a :: seen)) with (bool_decide (k ∈ seen)); [done|]. apply bool_decide_ext. set_solver.
Qed.

#[local] Instance doc_edit_laws : JsonEditLaws Doc.
Proof.
  split.
  - by intros [].
  - done.
  - intros j k v _. split; [done|]. intros k'. change (member k' ((k, v) :: drop_member k (members j)) = if bytes_eqb k' k then Some v else js_find j k').
    rewrite member_cons, member_drop, (bytes_eqb_sym k k'). case_match; [done|]. by destruct j.
  - intros j k Hj. split; [done|]. intros k'. change (member k' (drop_member k (members j)) = if bytes_eqb k' k then None else js_find j k').
    rewrite member_drop. case_match; [done|]. by destruct j.
  - intros j p Hj Hp. destruct p as [| | | | |l]; try done. cbn [js_merge_patch doc_edit]. rewrite doc_merge_object. split; [done|].
    intros k. change (member k (merge_members l [] (members j)) = patched (js_find j k) (member k l)). rewrite merge_members_find.
    rewrite bool_decide_eq_false_2 by (by intros ?%elem_of_nil). by destruct j.
Qed.

(** The second instance is switched off, the third named by its position. *)
Definition silos : Doc := DObject
  [(str "ttl", DNumber 1);
   (str "md", DObject [(str "interface", DText (str "lo")); (str "ttl", DNumber 1)]);
   (str "silos", DArray [DObject [(str "name", DText (str "a")); (str "md", DObject [(str "ttl", DNumber 4)])];
                         DObject [(str "name", DText (str "b")); (str "enabled", DBool false)];
                         DObject [(str "ttl", DNull)]])].

Definition numbered (_ : Doc) (i : nat) : bytes := str "part #" ++ to_string_u64 (Z.of_nat i).

Example silos_expanded :
  match expand_instances true (str "silos") (str "ice") numbered silos with
  | Ok [a; c] => (js_find a (str "name"), js_find a (str "md") ≫= fun md => js_find md (str "interface"),
                  js_find c (str "name"), js_find c (str "ttl"), js_find c (str "silos"))
                 = (Some (DText (str "a")), Some (DText (str "lo")), Some (DText (str "part #2")), None, None)
  | _ => False
  end.
Proof. vm_compute. reflexivity. Qed.

Lemma instances_expanded_witness : exists insts,
  expand_instances true (str "silos") (str "ice") numbered silos = Ok (List.filter is_enabled insts) /\ List.length insts = 3%nat.
Proof.
  destruct (instances_expanded true (str "silos") (str "ice") numbered silos (default DNull (js_find silos (str "silos")))) as (insts & F & E).
  - reflexivity.
  - vm_compute. reflexivity.
  - reflexivity.
  - discriminate.
  - repeat constructor.
  - intros i e inst Hi [Ho Hm]. unfold well_typed, is_enabled, value. rewrite Ho, !Hm. cbn [negb].
    destruct i as [|[|[|i]]]; [| | |by destruct i]; injection Hi as <-; vm_compute.
    + split; [by eexists|done].
    + split; [by eexists|]. intros _. do 2 eexists. split; reflexivity.
    + split; [by eexists|done].
  - exists insts. split; [exact E|]. apply Forall2_length in F. rewrite <- F. reflexivity.
Defined.
