(* ===== verification/L2Diff.v ===== *)
(** * Incremental L2 books

    Models [src/venues/hyperliquid/hyperliquid_l2_diff.cpp] and [hyperliquid_wire_format.hpp]:
    what the publisher sends of a book, and of the change between two books; and the two
    lambdas of [processL2Diff] in [hyperliquid_exchange.cpp] that keep the venue's price
    array, against which the venue numbers the levels it removed. The JSON of a level is a
    record of its texts. [encode_l2_diff] is zlib and OpenSSL on the dumped JSON and is left
    to the components that send it. *)

From stdpp Require Import sorting.
From S2P Require Import Prelude Types Orders MarketData.

Abbreviation L2Levels := (list (price_t * qty_t)).

Definition L2_PUBLISH_DEPTH : Z := 20.

Definition to_hyperliquid_number (value : Z) : bytes := to_fixed_string value 1.

Definition format_price (price : price_t) : bytes := to_hyperliquid_number price.
Definition format_qty (qty : qty_t) : bytes := to_hyperliquid_number qty.

(** ** The publisher's side *)

(** An entry of "l". *)
Record LevelChange := mkChange {
  lc_p : bytes;
  lc_s : bytes
}.

(** [emplace] keeps the first quantity of a price. *)
Definition prev_by_price (prev : L2Levels) : gmap price_t qty_t :=
  fold_left (fun m l => match m !! fst l with Some _ => m | None => <[fst l := snd l]> m end) prev ∅.

Definition diff_side (prev curr : L2Levels) (descending_index : bool) : list LevelChange * list nat :=
  let by_price := prev_by_price prev in
  let curr_prices : gset price_t := list_to_set (map fst curr) in
  let l_out := flat_map (fun l =>
    if bool_decide (by_price !! fst l = Some (snd l)) then []
    else [mkChange (format_price (fst l)) (format_qty (snd l))]) curr in
  let removed i := match prev !! i with
                   | Some l => negb (bool_decide (fst l ∈ curr_prices))
                   | None => false
                   end in
  let indices := seq 0 (List.length prev) in
  (l_out, List.filter removed (if descending_index then rev indices else indices)).

Record L2Diff := mkL2Diff {
  df_l : list LevelChange * list LevelChange;
  df_r : list nat * list nat
}.

Definition compute_l2_diff (prev_bid prev_ask curr_bid curr_ask : L2Levels) : L2Diff :=
  let '(l_bid, r_bid) := diff_side prev_bid curr_bid true in
  let '(l_ask, r_ask) := diff_side prev_ask curr_ask false in
  mkL2Diff (l_bid, l_ask) (r_bid, r_ask).

(** A level of a snapshot, and the diff baseline the same levels form. *)
Record SnapLevel := mkSnapLevel {
  sv_px : bytes;
  sv_sz : bytes;
  sv_n : Z
}.

Definition emit (level : MDLevel) : SnapLevel * (price_t * qty_t) :=
  (mkSnapLevel (format_price (ml_price level)) (format_qty (ml_qty level)) (ml_num_orders level),
   (ml_price level, ml_qty level)).

Record SplitSnapshot := mkSplit {
  sp_bids : list SnapLevel;
  sp_asks : list SnapLevel;
  sp_curr_bid : L2Levels;
  sp_curr_ask : L2Levels
}.

(** [levels[first .. first + count)]; reading past the array is [None]. *)
Definition read_levels (levels : list MDLevel) (first count : Z) : option (list MDLevel) :=
  mapM (fun i => levels !! i) (seq (Z.to_nat first) (Z.to_nat count)).

Definition split_book_snapshot (levels : list MDLevel) (num_bid num_ask : Z) : option SplitSnapshot :=
  let bid_count := Z.min num_bid L2_PUBLISH_DEPTH in
  let ask_count := Z.min num_ask L2_PUBLISH_DEPTH in
  match read_levels levels 0 bid_count, read_levels levels num_bid ask_count with
  | Some b, Some a =>
      Some (mkSplit (map (fun l => fst (emit l)) b) (map (fun l => fst (emit l)) a)
                    (map (fun l => snd (emit l)) b) (map (fun l => snd (emit l)) a))
  | _, _ => None
  end.

(** ** The receiving side: the venue's price array *)

(** Every index is resolved against the array before any removal. *)
Definition resolve_removals (ref_side : list price_t) (indices : list nat) : list price_t :=
  omap (fun idx => ref_side !! idx) indices.

Fixpoint ref_erase (price : price_t) (ref_side : list price_t) : list price_t :=
  match ref_side with
  | [] => []
  | p :: r => if p =? price then r else p :: ref_erase price r
  end.

(** [lower_bound] on an array partitioned by [isPriceBetter]: the first price that is not better. *)
Fixpoint ref_insert (side : Side) (price : price_t) (ref_side : list price_t) : list price_t :=
  match ref_side with
  | [] => [price]
  | p :: r =>
      if isPriceBetter side p price then p :: ref_insert side price r
      else if p =? price then ref_side else price :: ref_side
  end.

Definition ref_removals (ref_side : list price_t) (indices : list nat) : list price_t :=
  fold_left (fun r p => ref_erase p r) (resolve_removals ref_side indices) ref_side.

Definition ref_changes (side : Side) (prices : list price_t) (ref_side : list price_t) : list price_t :=
  fold_left (fun r p => ref_insert side p r) prices ref_side.

(** ** A subscriber

    It holds the levels of one side; it applies a diff by taking the removed levels out and
    then putting every change in its place. *)

Fixpoint put_level (side : Side) (level : price_t * qty_t) (held : L2Levels) : L2Levels :=
  match held with
  | [] => [level]
  | l :: r =>
      if isPriceBetter side (fst l) (fst level) then l :: put_level side level r
      else if fst l =? fst level then level :: r else level :: held
  end.

Fixpoint drop_level (price : price_t) (held : L2Levels) : L2Levels :=
  match held with
  | [] => []
  | l :: r => if fst l =? price then r else l :: drop_level price r
  end.

Definition read_change (c : LevelChange) : option (price_t * qty_t) :=
  match parse_fixed (lc_p c), parse_fixed (lc_s c) with
  | Some p, Some s => Some (p, s)
  | _, _ => None
  end.

Definition take_diff (side : Side) (held : L2Levels) (l : list (price_t * qty_t)) (r : list nat) : L2Levels :=
  fold_left (fun h c => put_level side c h) l
    (fold_left (fun h p => drop_level p h) (resolve_removals (map fst held) r) held).

(** One that takes the removals literally, one index after the other. *)
Definition remove_one_at_a_time {A} (held : list A) (r : list nat) : list A :=
  fold_left (fun h i => delete i h) r held.

Definition best_first (side : Side) (l : L2Levels) : Prop :=
  StronglySorted (fun a b => isPriceBetter side a b = true) (map fst l).

Definition in_width (l : L2Levels) : Prop :=
  Forall (fun x => - 2 ^ 63 <= fst x < 2 ^ 63 /\ - 2 ^ 63 <= snd x < 2 ^ 63) l.

(** The array is the prices of what a subscriber holds. *)
Lemma ref_erase_prices p held : ref_erase p (map fst held) = map fst (drop_level p held).
Proof. induction held as [|l held IH]; [done|]. cbn. destruct (fst l =? p); [done|]. by rewrite IH. Qed.

Lemma ref_insert_prices side c held : ref_insert side (fst c) (map fst held) = map fst (put_level side c held).
Proof.
  induction held as [|l held IH]; [done|]. cbn. destruct (isPriceBetter _ _ _); [by rewrite IH|].
  destruct (fst l =? fst c) eqn:E; [|done]. bool_to_prop. cbn. by rewrite E.
Qed.

Lemma ref_follows side held l r :
  ref_changes side (map fst l) (ref_removals (map fst held) r) = map fst (take_diff side held l r).
Proof.
  unfold take_diff, ref_changes, ref_removals. generalize (resolve_removals (map fst held) r). intros ps.
  assert (H1 : forall ps h, fold_left (fun r p => ref_erase p r) ps (map fst h)
    = map fst (fold_left (fun h p => drop_level p h) ps h)).
  { clear. induction ps as [|p ps IH]; intros h; [done|]. cbn. by rewrite ref_erase_prices, IH. }
  rewrite H1. generalize (fold_left (fun h p => drop_level p h) ps held). clear.
  induction l as [|c l IH]; intros h; [done|]. cbn. by rewrite ref_insert_prices, IH.
Qed.

(** ** Sorted sides *)

Definition priced_in (l : L2Levels) (p : price_t) : Prop := p ∈ map fst l.

Lemma better_trans side a b c : isPriceBetter side a b = true -> isPriceBetter side b c = true -> isPriceBetter side a c = true.
Proof. destruct side; cbn; lia. Qed.

Lemma better_irrefl side a : isPriceBetter side a a = false.
Proof. destruct side; cbn; lia. Qed.

Lemma better_total side a b : isPriceBetter side a b = true \/ a = b \/ isPriceBetter side b a = true.
Proof. destruct side; cbn; lia. Qed.

Lemma best_first_cons side x l :
  best_first side (x :: l) <-> best_first side l /\ forall y, y ∈ l -> isPriceBetter side (fst x) (fst y) = true.
Proof.
  unfold best_first. cbn [map]. split.
  - inversion 1 as [|? ? Hs Hf]; subst. split; [done|]. rewrite Forall_forall in Hf. intros y Hy. by apply Hf, list_elem_of_fmap_2.
  - intros [Hs Hf]. constructor; [done|]. apply Forall_forall. intros p (y & -> & Hy)%list_elem_of_fmap. by apply Hf.
Qed.

Lemma best_first_key side l x y : best_first side l -> x ∈ l -> y ∈ l -> fst x = fst y -> x = y.
Proof.
  induction l as [|z l IH]; [by intros ? ?%elem_of_nil|]. rewrite best_first_cons, !elem_of_cons. intros [Hs Hf] Hx Hy E.
  destruct Hx as [->|Hx], Hy as [->|Hy]; [done| | |by apply IH].
  - specialize (Hf y Hy). by rewrite E, better_irrefl in Hf.
  - specialize (Hf x Hx). by rewrite E, better_irrefl in Hf.
Qed.

(** A side is determined by its levels. *)
Lemma best_first_ext side l1 l2 :
  best_first side l1 -> best_first side l2 -> (forall x, x ∈ l1 <-> x ∈ l2) -> l1 = l2.
Proof.
  revert l2. induction l1 as [|x l1 IH]; intros [|y l2] H1 H2 He; [done| | |].
  - exfalso. apply (not_elem_of_nil y), He. by left.
  - exfalso. apply (not_elem_of_nil x), He. by left.
  - rewrite best_first_cons in H1, H2. destruct H1 as [S1 F1], H2 as [S2 F2].
    assert (x = y) as <-.
    { assert (Hx : x ∈ y :: l2) by (apply He; by left). assert (Hy : y ∈ x :: l1) by (apply He; by left).
      rewrite elem_of_cons in Hx, Hy. destruct Hx as [|Hx]; [done|]. destruct Hy as [|Hy]; [done|].
      pose proof (better_trans _ _ _ _ (F1 y Hy) (F2 x Hx)) as Hb. by rewrite better_irrefl in Hb. }
    f_equal. apply IH; [done|done|]. intros z. specialize (He z). rewrite !elem_of_cons in He.
    assert (Hz : forall l : L2Levels, (forall y, y ∈ l -> isPriceBetter side (fst x) (fst y) = true) -> z ∈ l -> z <> x).
    { intros l Hf Hin ->. specialize (Hf x Hin). by rewrite better_irrefl in Hf. }
    split; intros Hin.
    + destruct (proj1 He (or_intror Hin)) as [->|]; [|done]. by destruct (Hz l1 F1 Hin).
    + destruct (proj2 He (or_intror Hin)) as [->|]; [|done]. by destruct (Hz l2 F2 Hin).
Qed.

Lemma drop_level_spec side p h :
  best_first side h ->
  best_first side (drop_level p h) /\ forall x, x ∈ drop_level p h <-> x ∈ h /\ fst x <> p.
Proof.
  induction h as [|l h IH]; cbn [drop_level].
  { split; [done|]. intros x. split; [by intros ?%elem_of_nil|by intros [?%elem_of_nil _]]. }
  rewrite best_first_cons. intros [Hs Hf]. destruct (IH Hs) as [I1 I2]. destruct (fst l =? p) eqn:E; bool_to_prop.
  - split; [done|]. intros x. rewrite elem_of_cons. split.
    + intros Hx. split; [by right|]. intros Ex. specialize (Hf x Hx). rewrite E, Ex, better_irrefl in Hf. done.
    + by intros [[->|] ?].
  - rewrite best_first_cons. split.
    + split; [done|]. intros y [Hy _]%I2. by apply Hf.
    + intros x. rewrite !elem_of_cons, I2. split.
      * intros [->|[]]; [by split; [left|]|]. by split; [right|].
      * intros [[->|] ?]; [by left|]. by right.
Qed.

Lemma drop_levels_spec side ps h :
  best_first side h ->
  let h' := fold_left (fun h p => drop_level p h) ps h in
  best_first side h' /\ forall x, x ∈ h' <-> x ∈ h /\ fst x ∉ ps.
Proof.
  revert h. induction ps as [|p ps IH]; intros h Hh; cbn [fold_left].
  { split; [done|]. intros x. split; [intros; split; [done|apply not_elem_of_nil]|by intros []]. }
  destruct (drop_level_spec side p h Hh) as [D1 D2]. destruct (IH _ D1) as [I1 I2]. split; [exact I1|].
  intros x. rewrite I2, D2, not_elem_of_cons. tauto.
Qed.

Lemma put_level_spec side c h :
  best_first side h ->
  best_first side (put_level side c h) /\ forall x, x ∈ put_level side c h <-> x = c \/ (x ∈ h /\ fst x <> fst c).
Proof.
  induction h as [|l h IH]; cbn [put_level].
  { intros _. split; [rewrite best_first_cons; split; [constructor|by intros y ?%elem_of_nil]|].
    intros x. rewrite elem_of_cons. split; [intros [|?%elem_of_nil]; [by left|done]|intros [|[?%elem_of_nil ?]]; [by left|done]]. }
  rewrite best_first_cons. intros [Hs Hf]. destruct (IH Hs) as [I1 I2].
  destruct (isPriceBetter side (fst l) (fst c)) eqn:Eb; [|destruct (fst l =? fst c) eqn:E; bool_to_prop].
  - rewrite best_first_cons. split.
    + split; [done|]. intros y [->|[Hy _]]%I2; [done|by apply Hf].
    + intros x. rewrite !elem_of_cons, I2. split.
      * intros [->|[->|[]]]; [right; split; [by left|]|by left|right; split; [by right|done]].
        intros E. rewrite E, better_irrefl in Eb. done.
      * intros [->|[[->|] ?]]; [by right; left|by left|by right; right].
  - rewrite best_first_cons, <- E. split; [done|]. intros x. rewrite !elem_of_cons. split.
    + intros [->|Hx]; [by left|]. right. split; [by right|]. intros Ex. specialize (Hf x Hx).
      by rewrite Ex, better_irrefl in Hf.
    + intros [->|[[->|] ?]]; [by left|done|by right].
  - assert (Hc : isPriceBetter side (fst c) (fst l) = true) by (destruct (better_total side (fst l) (fst c)) as [|[|]]; congruence).
    assert (Hall : forall y, y ∈ l :: h -> isPriceBetter side (fst c) (fst y) = true).
    { intros y [->|Hy]%elem_of_cons; [done|]. eapply better_trans; [exact Hc|by apply Hf]. }
    rewrite (best_first_cons side c), best_first_cons. split; [done|]. intros x. rewrite (elem_of_cons (l :: h)). split.
    + intros [->|Hx]; [by left|]. right. split; [done|]. intros Ex. specialize (Hall x Hx). by rewrite Ex, better_irrefl in Hall.
    + intros [->|[]]; [by left|by right].
Qed.

Lemma put_levels_spec side cs h :
  best_first side h -> NoDup (map fst cs) ->
  let h' := fold_left (fun h c => put_level side c h) cs h in
  best_first side h' /\ forall x, x ∈ h' <-> x ∈ cs \/ (x ∈ h /\ fst x ∉ map fst cs).
Proof.
  revert h. induction cs as [|c cs IH]; intros h Hh; cbn [fold_left map].
  { intros _. split; [done|]. intros x. split; [intros; right; split; [done|apply not_elem_of_nil]|].
    intros [?%elem_of_nil|[]]; done. }
  intros [Hc Hnd]%NoDup_cons. destruct (put_level_spec side c h Hh) as [D1 D2]. destruct (IH _ D1 Hnd) as [I1 I2].
  split; [exact I1|]. intros x. rewrite I2, D2, not_elem_of_cons, elem_of_cons. split.
  - intros [|[[->|[]] ?]]; [by left; right|by left; left|by right].
  - intros [[->|]|[? [? ?]]]; [right; split; [by left|done]|by left|right; split; [by right|done]].
Qed.

(** ** What the diff holds *)

Lemma best_first_nodup side l : best_first side l -> NoDup (map fst l).
Proof.
  induction l as [|x l IH]; [constructor|]. rewrite best_first_cons. intros [Hs Hf]. cbn [map]. constructor; [|by apply IH].
  intros (y & E & Hy)%list_elem_of_fmap. specialize (Hf y Hy). by rewrite E, better_irrefl in Hf.
Qed.

Lemma prev_by_price_spec side prev p q :
  best_first side prev -> prev_by_price prev !! p = Some q <-> (p, q) ∈ prev.
Proof.
  intros Hs%best_first_nodup. unfold prev_by_price.
  assert (H : forall m : gmap price_t qty_t, (forall x, x ∈ map fst prev -> m !! x = None) ->
    fold_left (fun m l => match m !! fst l with Some _ => m | None => <[fst l := snd l]> m end) prev m !! p = Some q
    <-> m !! p = Some q \/ (p, q) ∈ prev).
  { induction prev as [|[x y] prev IH]; intros m Hm; cbn [fold_left fst snd].
    { split; [by left|]. by intros [|?%elem_of_nil]. }
    cbn in Hs. apply NoDup_cons in Hs as [Hx Hs]. rewrite (Hm x) by by left. rewrite IH.
    - rewrite lookup_insert, elem_of_cons. case_decide as E; [subst p|].
      + rewrite (Hm x) by by left. split.
        * intros [[= ->]|Hin]; [by right; left|]. by right; right.
        * intros [|[[= ->]|Hin]]; [done|by left|by right].
      + split; [intros [|]; [by left|by right; right]|]. intros [|[[= -> ->]|]]; [by left|done|by right].
    - done.
    - intros z Hz. rewrite lookup_insert_ne by (intros ->; done). apply Hm. by right. }
  rewrite H by (intros x _; apply lookup_empty). rewrite lookup_empty. split; [by intros [|]|by right].
Qed.

(** The changed levels, and the removed ones. *)
Definition changed (prev curr : L2Levels) : L2Levels :=
  List.filter (fun l => negb (bool_decide (prev_by_price prev !! fst l = Some (snd l)))) curr.

Definition level_change (l : price_t * qty_t) : LevelChange := mkChange (format_price (fst l)) (format_qty (snd l)).

Lemma diff_side_changes prev curr d : fst (diff_side prev curr d) = map level_change (changed prev curr).
Proof.
  unfold diff_side, changed. cbn [fst]. generalize (prev_by_price prev). intros m.
  induction curr as [|l curr IH]; [done|]. cbn [flat_map List.filter]. rewrite IH. by destruct (bool_decide _).
Qed.

Lemma changed_in prev curr x :
  x ∈ changed prev curr <-> x ∈ curr /\ prev_by_price prev !! fst x <> Some (snd x).
Proof.
  unfold changed. rewrite !list_elem_of_In, List.filter_In, negb_true_iff, bool_decide_eq_false. done.
Qed.

Lemma changed_nodup prev curr : NoDup (map fst curr) -> NoDup (map fst (changed prev curr)).
Proof.
  unfold changed. induction curr as [|l curr IH]; [constructor|]. cbn [map]. intros [Hn Hs]%NoDup_cons.
  cbn [List.filter]. destruct (negb _); [|by apply IH]. cbn [map]. constructor; [|by apply IH].
  intros (y & E & Hy)%list_elem_of_fmap. apply Hn. rewrite E. apply list_elem_of_fmap_2.
  rewrite list_elem_of_In in Hy |- *. by apply List.filter_In in Hy as [].
Qed.

Lemma read_level_change l :
  - 2 ^ 63 <= fst l < 2 ^ 63 /\ - 2 ^ 63 <= snd l < 2 ^ 63 -> read_change (level_change l) = Some l.
Proof.
  intros [Hp Hs]. unfold read_change, level_change, format_price, format_qty, to_hyperliquid_number. cbn [lc_p lc_s].
  rewrite !fixed_string_parses by done. by destruct l.
Qed.

Lemma read_changes cs : in_width cs -> mapM read_change (map level_change cs) = Some cs.
Proof.
  induction 1 as [|l cs Hl _ IH]; [done|]. cbn [map mapM]. rewrite (read_level_change l Hl). cbn [mbind option_bind]. by rewrite IH.
Qed.

Definition removed_at (prev curr : L2Levels) (i : nat) : bool :=
  match prev !! i with
  | Some l => negb (bool_decide (fst l ∈ (list_to_set (map fst curr) : gset price_t)))
  | None => false
  end.

Lemma diff_side_removals prev curr d :
  snd (diff_side prev curr d)
  = List.filter (removed_at prev curr) (if d then rev (seq 0 (List.length prev)) else seq 0 (List.length prev)).
Proof. done. Qed.

Lemma removals_resolved prev curr d p :
  p ∈ resolve_removals (map fst prev) (snd (diff_side prev curr d)) <-> p ∈ map fst prev /\ p ∉ map fst curr.
Proof.
  rewrite diff_side_removals. unfold resolve_removals. rewrite list_elem_of_omap. split.
  - intros (i & Hi & E). rewrite list_elem_of_In, List.filter_In in Hi. destruct Hi as [_ Hi].
    rewrite list_lookup_fmap in E. unfold removed_at in Hi. destruct (prev !! i) as [l|] eqn:El; [|done].
    injection E as <-. split; [by apply list_elem_of_fmap_2; eapply list_elem_of_lookup_2|].
    apply negb_true_iff, bool_decide_eq_false in Hi. by rewrite elem_of_list_to_set in Hi.
  - intros [(l & -> & Hl)%list_elem_of_fmap Hn]. apply list_elem_of_lookup in Hl as [i Hi]. exists i.
    split; [|by rewrite list_lookup_fmap, Hi]. rewrite list_elem_of_In, List.filter_In. split.
    + assert (In i (seq 0 (List.length prev))) by (apply in_seq; apply lookup_lt_Some in Hi; lia).
      destruct d; [by apply in_rev in H|done].
    + unfold removed_at. rewrite Hi. apply negb_true_iff, bool_decide_eq_false. by rewrite elem_of_list_to_set.
Qed.

(** Taking the removals one by one is right from the last index to the first. *)
Lemma removals_descend prev curr n (h : L2Levels) :
  (n <= List.length h)%nat -> take n h = take n prev ->
  remove_one_at_a_time h (List.filter (removed_at prev curr) (rev (seq 0 n)))
  = List.filter (fun l => bool_decide (fst l ∈ (list_to_set (map fst curr) : gset price_t))) (take n h) ++ drop n h.
Proof.
  unfold remove_one_at_a_time. revert h. induction n as [|n IH]; intros h Hn Ht; [done|].
  rewrite seq_S, rev_app_distr. cbn [rev app List.filter Nat.add].
  destruct (lookup_lt_is_Some_2 h n) as [l Hl]; [lia|].
  assert (Hp : prev !! n = Some l).
  { rewrite <- (lookup_take_lt prev (S n) n), <- Ht, lookup_take_lt by lia. done. }
  assert (Ht' : take n h = take n prev).
  { apply (f_equal (take n)) in Ht. by rewrite !take_take, !Nat.min_l in Ht by lia. }
  rewrite (take_S_r h n l Hl), List.filter_app. cbn [List.filter]. unfold removed_at at 1. rewrite Hp.
  destruct (bool_decide (fst l ∈ _)) eqn:E; cbn [negb].
  - rewrite IH by (done || lia). rewrite <- app_assoc. f_equal. cbn. by apply drop_S.
  - cbn [fold_left]. rewrite IH.
    + rewrite app_nil_r, delete_take_drop, take_app_le, drop_app_le by (rewrite length_take; lia).
      rewrite take_take, Nat.min_id, drop_ge by (rewrite length_take; lia). done.
    + rewrite length_delete by done. lia.
    + rewrite delete_take_drop, take_app_le by (rewrite length_take; lia). by rewrite take_take, Nat.min_id.
Qed.

Lemma put_in_order side h curr : best_first side curr -> best_first side h -> forall cs,
  NoDup (map fst cs) -> (forall x, x ∈ curr <-> x ∈ cs \/ (x ∈ h /\ fst x ∉ map fst cs)) ->
  fold_left (fun h c => put_level side c h) cs h = curr.
Proof.
  intros Hc Hh cs Hnd Hx. destruct (put_levels_spec side cs h Hh Hnd) as [P1 P2].
  apply (best_first_ext side); [done|done|]. intros x. by rewrite P2, Hx.
Qed.

(** What stays of the old side, with the changes put in, is the new side. *)
Lemma kept_and_changed side prev curr h :
  best_first side prev -> best_first side curr -> best_first side h ->
  (forall x, x ∈ h <-> x ∈ prev /\ fst x ∈ map fst curr) ->
  fold_left (fun h c => put_level side c h) (changed prev curr) h = curr.
Proof.
  intros Hp Hc Hh Hx. apply (put_in_order side); [done|done|by apply changed_nodup, (best_first_nodup side)|].
  intros x. rewrite changed_in, Hx. split.
  - intros Hin. destruct (decide (prev_by_price prev !! fst x = Some (snd x))) as [E|E]; [right|by left].
    apply (prev_by_price_spec side) in E; [|done]. rewrite <- surjective_pairing in E.
    split; [split; [done|by apply list_elem_of_fmap_2]|]. intros (y & Ey & Hy)%list_elem_of_fmap.
    apply changed_in in Hy as [Hy Hn]. assert (x = y) as <- by (by apply (best_first_key side curr)). apply Hn.
    apply (prev_by_price_spec side); [done|]. by rewrite <- surjective_pairing.
  - intros [[? ?]|[[Hin (y & Ey & Hy)%list_elem_of_fmap] Hn]]; [done|].
    destruct (decide (prev_by_price prev !! fst y = Some (snd y))) as [E|E].
    + apply (prev_by_price_spec side) in E; [|done]. rewrite <- surjective_pairing in E.
      assert (x = y) as -> by (by apply (best_first_key side prev)). done.
    + exfalso. apply Hn. rewrite Ey. apply list_elem_of_fmap_2. by apply changed_in.
Qed.

Lemma side_follows side prev curr d :
  best_first side prev -> best_first side curr -> in_width curr ->
  mapM read_change (fst (diff_side prev curr d)) = Some (changed prev curr)
  /\ take_diff side prev (changed prev curr) (snd (diff_side prev curr d)) = curr.
Proof.
  intros Hp Hc Hw. split.
  - rewrite diff_side_changes. apply read_changes. apply Forall_forall. intros x [Hx _]%changed_in.
    unfold in_width in Hw. rewrite Forall_forall in Hw. by apply Hw.
  - unfold take_diff. destruct (drop_levels_spec side (resolve_removals (map fst prev) (snd (diff_side prev curr d))) prev Hp) as [D1 D2].
    apply kept_and_changed; [done|done|done|]. intros x. rewrite D2, removals_resolved. split.
    + intros [Hx Hn]. split; [done|]. destruct (decide (fst x ∈ map fst curr)) as [|Hm]; [done|]. exfalso. apply Hn.
      split; [by apply list_elem_of_fmap_2|done].
    + intros [Hx Hm]. split; [done|]. by intros [_ ?].
Qed.

(** C36. A subscriber that holds the book last published and takes a diff - removing the
    levels its indices name, then putting each change in its price order - holds the book
    the diff was computed for, on both sides, with every price and size read back exactly
    from its text; the venue's own price array follows in step. A subscriber that takes the
    bids' removals one index after the other, in the order they come, arrives there too. *)
Theorem l2_diff_follows prev_bid prev_ask curr_bid curr_ask :
  best_first BUY prev_bid -> best_first SELL prev_ask -> best_first BUY curr_bid -> best_first SELL curr_ask ->
  in_width curr_bid -> in_width curr_ask ->
  let diff := compute_l2_diff prev_bid prev_ask curr_bid curr_ask in
  exists bids asks, mapM read_change (fst (df_l diff)) = Some bids /\ mapM read_change (snd (df_l diff)) = Some asks
    /\ take_diff BUY prev_bid bids (fst (df_r diff)) = curr_bid
    /\ take_diff SELL prev_ask asks (snd (df_r diff)) = curr_ask
    /\ ref_changes BUY (map fst bids) (ref_removals (map fst prev_bid) (fst (df_r diff))) = map fst curr_bid
    /\ ref_changes SELL (map fst asks) (ref_removals (map fst prev_ask) (snd (df_r diff))) = map fst curr_ask
    /\ fold_left (fun h c => put_level BUY c h) bids (remove_one_at_a_time prev_bid (fst (df_r diff))) = curr_bid.
Proof.
  intros P1 P2 C1 C2 W1 W2 diff. destruct (side_follows BUY prev_bid curr_bid true P1 C1 W1) as [B1 B2].
  destruct (side_follows SELL prev_ask curr_ask false P2 C2 W2) as [A1 A2].
  assert (E : diff = mkL2Diff (fst (diff_side prev_bid curr_bid true), fst (diff_side prev_ask curr_ask false))
                              (snd (diff_side prev_bid curr_bid true), snd (diff_side prev_ask curr_ask false))) by done.
  rewrite E. cbn [df_l df_r fst snd]. exists (changed prev_bid curr_bid), (changed prev_ask curr_ask).
  rewrite !ref_follows, A2, B2. do 6 (split; [done|]).
  rewrite diff_side_removals, removals_descend by done. rewrite firstn_all, drop_all, app_nil_r.
  apply kept_and_changed; [done|done| |].
  - revert P1. unfold best_first. clear. induction prev_bid as [|x prev IH]; [done|]. cbn [map List.filter].
    inversion 1 as [|? ? Hs Hf]; subst. destruct (bool_decide _); [|by apply IH]. cbn [map]. constructor; [by apply IH|].
    rewrite Forall_forall in Hf |- *. intros p (y & -> & Hy)%list_elem_of_fmap. apply Hf, list_elem_of_fmap_2.
    rewrite list_elem_of_In in Hy |- *. by apply List.filter_In in Hy as [].
  - intros x. rewrite list_elem_of_In, List.filter_In, <- list_elem_of_In, bool_decide_eq_true, elem_of_list_to_set. done.
Qed.

(** The same does not hold of the asks, whose indices ascend: the second removal finds the
    array already shifted. *)
Lemma asks_one_at_a_time :
  let prev := [(100, 1); (101, 1); (102, 1)] in
  let curr := [(102, 1)] in
  remove_one_at_a_time prev (snd (df_r (compute_l2_diff [] prev [] curr))) <> curr.
Proof. vm_compute. congruence. Qed.

Lemma l2_diff_follows_witness :
  let diff := compute_l2_diff [(99, 4); (98, 2); (97, 1)] [(101, 5)] [(98, 3)] [(100, 1); (101, 5)] in
  df_r diff = ([2; 0]%nat, []) /\ exists bids asks, mapM read_change (fst (df_l diff)) = Some bids
    /\ mapM read_change (snd (df_l diff)) = Some asks
    /\ take_diff BUY [(99, 4); (98, 2); (97, 1)] bids (fst (df_r diff)) = [(98, 3)]
    /\ take_diff SELL [(101, 5)] asks (snd (df_r diff)) = [(100, 1); (101, 5)].
Proof.
  split; [vm_compute; reflexivity|].
  destruct (l2_diff_follows [(99, 4); (98, 2); (97, 1)] [(101, 5)] [(98, 3)] [(100, 1); (101, 5)])
    as (bids & asks & H1 & H2 & H3 & H4 & _).
  1-4: unfold best_first; cbn; repeat constructor.
  1-2: repeat constructor; vm_compute; congruence.
  exists bids, asks. split; [exact H1|]. split; [exact H2|]. split; [exact H3|exact H4].
Defined.
