(* ===== verification/HyperliquidPublisher.v ===== *)
(** * Hyperliquid's websocket publisher

    Models [src/venues/hyperliquid/hyperliquid_publisher.cpp], [hyperliquid_trade_encoder.cpp]
    and [hyperliquid_channels.hpp]: which socket is subscribed to what, what each is sent,
    and the baseline the next diff of a coin is computed against. A socket is the number
    [MDSubscriptionMessage] carries for its pointer; what was sent over a connection is kept
    with the connection. JSON messages are values of [OutMessage], which carries the fields
    the code writes; a parsed client message is nlohmann's, behind [Json]. [encode_l2_diff]
    is zlib and OpenSSL: a parameter. The [/info] proxy and uWS itself are not modelled. *)

From S2P Require Import Prelude Types FixedString Orders Messages MarketData.
From S2P Require Import MatchingConfig MdPublisher L2Diff.

Inductive HyperliquidChannel := L2_BOOK | TRADES | L2.

#[export] Instance HyperliquidChannel_eq_dec : EqDecision HyperliquidChannel.
Proof. solve_decision. Defined.

Definition channel_code (ch : HyperliquidChannel) : Z :=
  match ch with L2_BOOK => 0 | TRADES => 1 | L2 => 2 end.

Definition channels : list HyperliquidChannel := [L2_BOOK; TRADES; L2].

(** The index of a per-channel array; any other byte indexes past it. *)
Definition channel_of (ch : Z) : option HyperliquidChannel :=
  if ch =? 0 then Some L2_BOOK else if ch =? 1 then Some TRADES else if ch =? 2 then Some L2 else None.

(** An array with an element per channel. *)
Record PerChannel (A : Type) := mkPer {
  pc_l2book : A;
  pc_trades : A;
  pc_l2 : A
}.
Arguments mkPer {A}.
Arguments pc_l2book {A}.
Arguments pc_trades {A}.
Arguments pc_l2 {A}.

Definition at_channel {A} (a : PerChannel A) (ch : HyperliquidChannel) : A :=
  match ch with L2_BOOK => pc_l2book a | TRADES => pc_trades a | L2 => pc_l2 a end.

Definition set_channel {A} (ch : HyperliquidChannel) (f : A -> A) (a : PerChannel A) : PerChannel A :=
  match ch with
  | L2_BOOK => mkPer (f (pc_l2book a)) (pc_trades a) (pc_l2 a)
  | TRADES => mkPer (pc_l2book a) (f (pc_trades a)) (pc_l2 a)
  | L2 => mkPer (pc_l2book a) (pc_trades a) (f (pc_l2 a))
  end.

Lemma at_set_channel {A} ch f (a : PerChannel A) c :
  at_channel (set_channel ch f a) c = if bool_decide (c = ch) then f (at_channel a c) else at_channel a c.
Proof. by destruct ch, c. Qed.

(** ** Messages *)

Record TradeJson := mkTradeJson {
  tj_coin : bytes;
  tj_side : bytes;
  tj_px : bytes;
  tj_sz : bytes;
  tj_time : Z;
  tj_hash : bytes;
  tj_tid : Z
}.

Definition ONE_MILLISECOND_NS : Z := 1000000.

Definition encode_trade (coin : bytes) (trade_id event_time : Z) (price : price_t) (qty : qty_t)
  (aggressor_side : Side) : TradeJson :=
  mkTradeJson coin (if bool_decide (aggressor_side = BUY) then str "B" else str "A")
    (to_hyperliquid_number price) (to_hyperliquid_number qty) (event_time / ONE_MILLISECOND_NS) (str "0x0") trade_id.

Definition encode_trade_summary (coin : bytes) (summary : TradeSummary) : list TradeJson :=
  [encode_trade coin (wts_trade_id summary) (u64 (wts_timestamp summary)) (wts_price summary) (wts_qty summary)
     (wts_aggressor_side summary)].

(** The first [num_trades] of the array; reading past it is [None]. *)
Definition encode_trades (coin : bytes) (trades : list MDTrade) (num_trades : Z) : option (list TradeJson) :=
  mapM (fun i => (fun t => encode_trade coin (mt_trade_id t) (mt_event_time t) (mt_price t) (mt_qty t) (mt_side t))
                   <$> trades !! i) (seq 0 (Z.to_nat num_trades)).

(** What a diff message holds before it is compressed. *)
Record L2Payload := mkL2Payload {
  pl_c : bytes;
  pl_diff : L2Diff;
  pl_t : Z
}.

Section Publisher.
Context {J Wire : Type} {json : Json J}.

Inductive OutMessage :=
  OutPong
| OutPing
| OutError (text : bytes)
| OutAck (subscription : J)
| OutHeartbeatAck
| OutHeartbeat (counter : Z)
| OutL2Book (coin : bytes) (time : Z) (bids asks : list SnapLevel)
| OutL2Snapshot (coin : bytes) (time : Z) (bids asks : list SnapLevel)
| OutL2Diff (c : Wire)
| OutTrades (trades : list TradeJson)
| OutSubscriptions (received : list bytes).

(** ** The publisher's state *)

Record SubInfo := mkSubInfo {
  si_active : gset bytes;
  si_pending : gset bytes;
  si_received : list bytes
}.

#[export] Instance SubInfo_eta : Eta SubInfo := fun s => mkSubInfo (si_active s) (si_pending s) (si_received s).

Definition no_subs : SubInfo := mkSubInfo ∅ ∅ [].

Record SocketData := mkSocket {
  sd_last_pong : Z;
  sd_subscribed_heartbeat : bool;
  sd_subs_array : PerChannel SubInfo;
  sd_sent : list OutMessage
}.

#[export] Instance SocketData_eta : Eta SocketData := fun s =>
  mkSocket (sd_last_pong s) (sd_subscribed_heartbeat s) (sd_subs_array s) (sd_sent s).

Definition sd_subs (sd : SocketData) (ch : HyperliquidChannel) : SubInfo := at_channel (sd_subs_array sd) ch.

Record Publisher := mkPublisher {
  pb_sockets : gmap Z SocketData;
  pb_subscription_info : PerChannel (gmap bytes (gset Z));
  pb_symbol_channel_client : gmap bytes (list (Z * Z));
  pb_l2_diff_baseline : gmap bytes (L2Levels * L2Levels);
  pb_requests : list MdRequest;
  pb_heartbeat_count : Z
}.

#[export] Instance Publisher_eta : Eta Publisher := fun p =>
  mkPublisher (pb_sockets p) (pb_subscription_info p) (pb_symbol_channel_client p) (pb_l2_diff_baseline p)
    (pb_requests p) (pb_heartbeat_count p).

Definition new_publisher : Publisher := mkPublisher ∅ (mkPer ∅ ∅ ∅) ∅ ∅ [] 0.

Variable encode_l2_diff : L2Payload -> Wire.

Definition on_socket (p : Publisher) (ws : Z) (f : SocketData -> SocketData) : Publisher :=
  p <| pb_sockets ::= alter f ws |>.

Definition send_to (p : Publisher) (ws : Z) (m : OutMessage) : Publisher :=
  on_socket p ws (fun sd => sd <| sd_sent ::= fun l => l ++ [m] |>).

Definition send_all (p : Publisher) (l : list Z) (m : OutMessage) : Publisher :=
  fold_left (fun p ws => send_to p ws m) l p.

Definition set_sub (ch : HyperliquidChannel) (f : SubInfo -> SubInfo) (sd : SocketData) : SocketData :=
  sd <| sd_subs_array ::= set_channel ch f |>.

(** The sockets of [subscription_info_[ch][coin]]. *)
Definition subscribers (p : Publisher) (ch : HyperliquidChannel) (coin : bytes) : gset Z :=
  default ∅ (at_channel (pb_subscription_info p) ch !! coin).

Definition set_subscribers (ch : HyperliquidChannel) (coin : bytes) (s : gset Z) (p : Publisher) : Publisher :=
  p <| pb_subscription_info ::= set_channel ch (<[coin := s]>) |>.

(** ** Connections *)

Definition open_socket (p : Publisher) (ws now : Z) : Publisher :=
  p <| pb_sockets ::= <[ws := mkSocket now false (mkPer no_subs no_subs no_subs) []]> |>.

Definition pong (p : Publisher) (ws now : Z) : Publisher := on_socket p ws (fun sd => sd <| sd_last_pong := now |>).

Definition subscribe_channel (p : Publisher) (ws : Z) (channel : HyperliquidChannel) (coin : bytes) : Publisher :=
  let ch := channel_code channel in
  let p := p <| pb_requests ::= fun q => q ++ [mkMdRequest (assign 32 coin) Msg.MD_SUBSCRIPTION ch ws] |> in
  let p := set_subscribers channel coin ({[ws]} ∪ subscribers p channel coin) p in
  let p := p <| pb_symbol_channel_client ::= fun m => <[coin := default [] (m !! coin) ++ [(ch, ws)]]> m |> in
  on_socket p ws (set_sub channel (fun s => s <| si_active ::= fun a => {[coin]} ∪ a |>
                                              <| si_pending ::= fun a => {[coin]} ∪ a |>)).

(** The first entry of the channel naming [ws] goes; an empty multimap goes with it. *)
Fixpoint erase_client (ch ws : Z) (l : list (Z * Z)) : list (Z * Z) :=
  match l with
  | [] => []
  | x :: l => if bool_decide (x = (ch, ws)) then l else x :: erase_client ch ws l
  end.

Definition unsubscribe_coin (ws : Z) (channel : HyperliquidChannel) (p : Publisher) (coin : bytes) : Publisher :=
  let ch := channel_code channel in
  let p := p <| pb_requests ::= fun q => q ++ [mkMdRequest (assign 32 coin) Msg.MD_UNSUBSCRIPTION ch ws] |> in
  let p := p <| pb_symbol_channel_client ::= fun m =>
                  match m !! coin with
                  | Some l => match erase_client ch ws l with [] => delete coin m | l => <[coin := l]> m end
                  | None => m
                  end |> in
  let coin_subs := subscribers p channel coin ∖ {[ws]} in
  let p := set_subscribers channel coin coin_subs p in
  if bool_decide (channel = L2 /\ coin_subs = ∅) then p <| pb_l2_diff_baseline ::= delete coin |> else p.

Definition unsubscribe_md (p : Publisher) (ws : Z) : Publisher :=
  match pb_sockets p !! ws with
  | None => p
  | Some sd =>
      fold_left (fun p channel =>
        let p := fold_left (unsubscribe_coin ws channel) (elements (si_active (sd_subs sd channel))) p in
        on_socket p ws (set_sub channel (fun _ => no_subs))) channels p
  end.

Definition handle_close (p : Publisher) (ws : Z) : Publisher :=
  (unsubscribe_md p ws) <| pb_sockets ::= delete ws |>.

(** Closing a socket runs its close handler. *)
Definition check_socket (now pong_timeout : Z) (p : Publisher) (ws : Z) : Publisher :=
  match pb_sockets p !! ws with
  | None => p
  | Some sd =>
      if pong_timeout <? Z.quot (now - sd_last_pong sd) 1000000000 then handle_close p ws
      else
        let p := if sd_subscribed_heartbeat sd then
                   (send_to p ws (OutHeartbeat (pb_heartbeat_count p)))
                     <| pb_heartbeat_count ::= fun n => u64 (n + 1) |>
                 else p in
        send_to p ws OutPing
  end.

Definition check_heartbeats (p : Publisher) (now pong_timeout : Z) : Publisher :=
  fold_left (check_socket now pong_timeout) (elements (dom (pb_sockets p))) p.

(** ** Client messages *)

Definition send_error (p : Publisher) (ws : Z) (text : bytes) : Publisher := send_to p ws (OutError text).

(** A message [json::parse] accepted, or the text of what it threw. Only parse errors are
    caught: the type error of a [value] on anything but an object, or of a member that is
    not a string, escapes the handler. *)
Definition handle_message (p : Publisher) (ws : Z) (message : bytes + J) : result Publisher :=
  match message with
  | inl what => Ok (send_error p ws (str "invalid JSON: " ++ what))
  | inr msg =>
      let* method := string_value msg (str "method") [] in
      if bytes_eqb method (str "ping") then Ok (send_to p ws OutPong)
      else if negb (bytes_eqb method (str "subscribe")) && negb (bytes_eqb method (str "unsubscribe")) then
        Ok (send_error p ws (str "method `" ++ method ++ str "` is not supported"))
      else match js_find msg (str "subscription") with
      | None => Ok (send_error p ws (str "missing `subscription` field"))
      | Some sub =>
          let* type := string_value sub (str "type") [] in
          if bytes_eqb type (str "l2Book") then
            let* coin := string_value sub (str "coin") [] in
            if bytes_eqb coin [] then Ok (send_error p ws (str "missing `coin` in subscription"))
            else Ok (if bytes_eqb method (str "subscribe") then subscribe_channel p ws L2_BOOK coin else p)
          else if bytes_eqb type (str "trades") then
            let* coin := string_value sub (str "coin") [] in
            if bytes_eqb coin [] then Ok (send_error p ws (str "missing `coin` in subscription"))
            else Ok (if bytes_eqb method (str "subscribe") then subscribe_channel p ws TRADES coin else p)
          else if bytes_eqb type (str "l2") then
            let* coin := string_value sub (str "c") [] in
            if bytes_eqb coin [] then Ok (send_error p ws (str "missing `c` in subscription"))
            else Ok (if bytes_eqb method (str "subscribe")
                     then subscribe_channel (send_to p ws (OutAck sub)) ws L2 coin else p)
          else if bytes_eqb type (str "heartbeat") then
            Ok (send_to (on_socket p ws (fun sd => sd <| sd_subscribed_heartbeat := true |>)) ws OutHeartbeatAck)
          else Ok (send_error p ws (str "subscription type `" ++ type ++ str "` is not supported"))
      end
  end.

(** ** Frames of the market-data queue *)

(** The snapshot of a subscriber still waiting for it. *)
Definition deliver_snapshot (channel : HyperliquidChannel) (symbol : bytes) (snapshot_msg : OutMessage)
  (update_msg : option OutMessage) (p : Publisher) (ws : Z) : Publisher :=
  match pb_sockets p !! ws with
  | None => p
  | Some sd =>
      if bool_decide (symbol ∈ si_pending (sd_subs sd channel)) then
        let p := on_socket p ws (set_sub channel (fun s => s <| si_pending ::= fun a => a ∖ {[symbol]} |>
                                                             <| si_received ::= fun l => l ++ [symbol] |>)) in
        let p := send_to p ws snapshot_msg in
        let p := match update_msg with Some m => send_to p ws m | None => p end in
        match pb_sockets p !! ws with
        | Some sd => if bool_decide (si_pending (sd_subs sd channel) = ∅)
                     then send_to p ws (OutSubscriptions (si_received (sd_subs sd channel))) else p
        | None => p
        end
      else p
  end.

(** The messages of a response, and the baseline it leaves; [None] where the code reads a
    frame as what it is not. *)
Definition response_messages (now : Z) (symbol : bytes) (channel : HyperliquidChannel) (data : MDPayload)
  : option (OutMessage * option OutMessage * option (L2Levels * L2Levels)) :=
  match channel, data with
  | L2_BOOK, PSubBook _ _ snapshot =>
      match split_book_snapshot (snap_levels snapshot) (snap_num_bid snapshot) (snap_num_ask snapshot) with
      | Some s => Some (OutL2Book symbol (now / ONE_MILLISECOND_NS) (sp_bids s) (sp_asks s), None, None)
      | None => None
      end
  | L2, PSubBook _ _ snapshot =>
      match split_book_snapshot (snap_levels snapshot) (snap_num_bid snapshot) (snap_num_ask snapshot) with
      | Some s => Some (OutL2Snapshot symbol (now / ONE_MILLISECOND_NS) (sp_bids s) (sp_asks s), None,
                        Some (sp_curr_bid s, sp_curr_ask s))
      | None => None
      end
  | TRADES, PSubTrades _ _ r =>
      match encode_trades symbol (tsr_trades r) (tsr_num_snapshot r),
            encode_trades symbol (drop (Z.to_nat (tsr_num_snapshot r)) (tsr_trades r)) (tsr_num_update r) with
      | Some a, Some b => Some (OutTrades a, if tsr_num_update r =? 0 then None else Some (OutTrades b), None)
      | _, _ => None
      end
  | _, _ => None
  end.

Definition response_header (data : MDPayload) : option (Z * MDSubscriptionRejectReason) :=
  match data with
  | PSubReject ch reason => Some (ch, reason)
  | PSubBook ch reason _ => Some (ch, reason)
  | PSubTrades ch reason _ => Some (ch, reason)
  | _ => None
  end.

Definition publish_subscription_response (now : Z) (p : Publisher) (update : MarketDataUpdate) : option Publisher :=
  let symbol := view (mdu_symbol update) in
  match response_header (mdu_data update) with
  | None => None
  | Some (ch, reject_reason) =>
      match channel_of ch with
      | None => None
      | Some channel =>
          let sockets := subscribers p channel symbol in
          if bool_decide (sockets = ∅) then Some p
          else if bool_decide (reject_reason <> MDReject.NONE) then
            let message := str "subscription to `" ++ symbol ++ str "` rejected: " ++ MDReject.md_reject_to_string reject_reason in
            Some (fold_left (fun p ws => send_error p ws message) (elements sockets) p)
          else match response_messages now symbol channel (mdu_data update) with
          | None => None
          | Some (snapshot_msg, update_msg, baseline) =>
              let p := match baseline with
                       | Some b => p <| pb_l2_diff_baseline ::= <[symbol := b]> |>
                       | None => p
                       end in
              Some (fold_left (deliver_snapshot channel symbol snapshot_msg update_msg) (elements sockets) p)
          end
      end
  end.

Definition publish_book_snapshot (now : Z) (p : Publisher) (update : MarketDataUpdate) : option Publisher :=
  let symbol := view (mdu_symbol update) in
  let l2book := subscribers p L2_BOOK symbol in
  let l2 := subscribers p L2 symbol in
  if bool_decide (l2book = ∅ /\ l2 = ∅) then Some p
  else match mdu_data update with
  | PSnapshot snapshot =>
      match split_book_snapshot (snap_levels snapshot) (snap_num_bid snapshot) (snap_num_ask snapshot) with
      | None => None
      | Some s =>
          let time_ms := now / ONE_MILLISECOND_NS in
          let p := send_all p (elements l2book) (OutL2Book symbol time_ms (sp_bids s) (sp_asks s)) in
          Some (if bool_decide (l2 = ∅) then p
                else
                  let baseline := default ([], []) (pb_l2_diff_baseline p !! symbol) in
                  let diff := compute_l2_diff (fst baseline) (snd baseline) (sp_curr_bid s) (sp_curr_ask s) in
                  let p := p <| pb_l2_diff_baseline ::= <[symbol := (sp_curr_bid s, sp_curr_ask s)]> |> in
                  send_all p (elements l2) (OutL2Diff (encode_l2_diff (mkL2Payload symbol diff time_ms))))
      end
  | _ => None
  end.

Definition publish_trade_summary (p : Publisher) (update : MarketDataUpdate) : option Publisher :=
  let symbol := view (mdu_symbol update) in
  let sockets := subscribers p TRADES symbol in
  if bool_decide (sockets = ∅) then Some p
  else match mdu_data update with
       | PTradeSummary summary => Some (send_all p (elements sockets) (OutTrades (encode_trade_summary symbol summary)))
       | _ => None
       end.

Definition publish_market_data_update (now : Z) (p : Publisher) (update : MarketDataUpdate) : option Publisher :=
  match mdu_type update with
  | SUB_RESPONSE => publish_subscription_response now p update
  | BOOK_SNAPSHOT => publish_book_snapshot now p update
  | TRADE_SUMMARY => publish_trade_summary p update
  | _ => Some p
  end.
End Publisher.
