(* ===== verification/PublisherProofs.v ===== *)
(** * What the sockets of Hyperliquid's publisher hold

    [held_book] replays what was sent over one connection: the snapshots and diffs of a coin.
    Whatever clients connect, subscribe, fall silent or leave, a subscriber of the [l2]
    channel that has had its snapshot holds the book last published. *)

From S2P Require Import Prelude Types FixedString Orders Messages MarketData.
From S2P Require Import MatchingConfig L2Diff HyperliquidPublisher.

(** Bids and asks. *)
Abbreviation Book := (L2Levels * L2Levels)%type.

Definition book_sane (b : Book) : Prop :=
  best_first BUY (fst b) /\ best_first SELL (snd b) /\ in_width (fst b) /\ in_width (snd b).

Definition read_snap (l : SnapLevel) : option (price_t * qty_t) :=
  match parse_fixed (sv_px l), parse_fixed (sv_sz l) with
  | Some p, Some s => Some (p, s)
  | _, _ => None
  end.

(** The book a frame publishes. *)
Definition frame_book (s : BookSnapshot) : option Book :=
  match split_book_snapshot (snap_levels s) (snap_num_bid s) (snap_num_ask s) with
  | Some sp => Some (sp_curr_bid sp, sp_curr_ask sp)
  | None => None
  end.

Lemma read_emitted l : in_width (map (fun l => snd (emit l)) l) ->
  mapM read_snap (map (fun l => fst (emit l)) l) = Some (map (fun l => snd (emit l)) l).
Proof.
  induction l as [|x l IH]; [done|]. cbn [map]. intros Hw. inversion Hw as [|? ? [Hp Hq] Hw']; subst.
  assert (E : read_snap (fst (emit x)) = Some (snd (emit x))).
  { unfold read_snap, emit, format_price, format_qty, to_hyperliquid_number in *. cbn [fst snd sv_px sv_sz] in *.
    by rewrite !fixed_string_parses. }
  cbn [mapM]. rewrite E. cbn [mbind option_bind]. by rewrite (IH Hw').
Qed.

(** The texts of a snapshot read back as the baseline kept for it. *)
Lemma split_reads s sp :
  split_book_snapshot (snap_levels s) (snap_num_bid s) (snap_num_ask s) = Some sp ->
  in_width (sp_curr_bid sp) -> in_width (sp_curr_ask sp) ->
  mapM read_snap (sp_bids sp) = Some (sp_curr_bid sp) /\ mapM read_snap (sp_asks sp) = Some (sp_curr_ask sp).
Proof.
  unfold split_book_snapshot. destruct (read_levels _ _ _) as [b|]; [|done]. destruct (read_levels _ _ _) as [a|]; [|done].
  intros [= <-]. cbn. intros Hb Ha. split; by apply read_emitted.
Qed.

Section Subscribers.
Context {J Wire : Type} {json : Json J}.
Variable encode_l2_diff : L2Payload -> Wire.
(** The subscriber's inflating of the message, the documented inverse of the encoder. *)
Variable decode_l2_diff : Wire -> option L2Payload.
Hypothesis decode_encode : forall p, decode_l2_diff (encode_l2_diff p) = Some p.

Abbreviation OutMessage := (@OutMessage J Wire).
Abbreviation Publisher := (@Publisher J Wire).
Abbreviation SocketData := (@SocketData J Wire).
Implicit Types p : Publisher.

Definition take_message (coin : bytes) (held : option Book) (m : OutMessage) : option Book :=
  match m with
  | OutL2Snapshot c _ bids asks =>
      if bool_decide (c = coin) then
        match mapM read_snap bids, mapM read_snap asks with Some b, Some a => Some (b, a) | _, _ => None end
      else held
  | OutL2Diff c =>
      match decode_l2_diff c with
      | Some pl =>
          if bool_decide (pl_c pl = coin) then
            match held, mapM read_change (fst (df_l (pl_diff pl))), mapM read_change (snd (df_l (pl_diff pl))) with
            | Some (b, a), Some lb, Some la =>
                Some (take_diff BUY b lb (fst (df_r (pl_diff pl))), take_diff SELL a la (snd (df_r (pl_diff pl))))
            | _, _, _ => None
            end
          else held
      | None => held
      end
  | _ => held
  end.

Definition held_book (coin : bytes) (sent : list OutMessage) : option Book := fold_left (take_message coin) sent None.

Lemma held_snoc coin sent m : held_book coin (sent ++ [m]) = take_message coin (held_book coin sent) m.
Proof. unfold held_book. by rewrite fold_left_app. Qed.

(** A message that is neither a snapshot nor a diff. *)
Definition no_book (m : OutMessage) : bool := match m with OutL2Snapshot _ _ _ _ | OutL2Diff _ => false | _ => true end.

Lemma no_book_held coin held m : no_book m = true -> take_message coin held m = held.
Proof. by destruct m. Qed.

Lemma held_diff coin sent time prev curr :
  held_book coin sent = Some prev -> book_sane prev -> book_sane curr ->
  let diff := compute_l2_diff (fst prev) (snd prev) (fst curr) (snd curr) in
  held_book coin (sent ++ [OutL2Diff (encode_l2_diff (mkL2Payload coin diff time))]) = Some curr.
Proof.
  intros Hh (P1 & P2 & _ & _) (C1 & C2 & C3 & C4) diff. rewrite held_snoc, Hh. cbn [take_message].
  rewrite decode_encode. cbn [pl_c pl_diff]. rewrite bool_decide_eq_true_2 by done. destruct prev as [b a]. cbn [fst snd] in *.
  destruct (side_follows BUY b (fst curr) true P1 C1 C3) as [B1 B2].
  destruct (side_follows SELL a (snd curr) false P2 C2 C4) as [A1 A2].
  assert (E : diff = mkL2Diff (fst (diff_side b (fst curr) true), fst (diff_side a (snd curr) false))
                              (snd (diff_side b (fst curr) true), snd (diff_side a (snd curr) false))) by done.
  rewrite E. cbn [df_l df_r fst snd]. rewrite B1, A1, B2, A2. by destruct curr.
Qed.

Lemma held_other_diff coin c sent diff time :
  c <> coin -> held_book coin (sent ++ [OutL2Diff (encode_l2_diff (mkL2Payload c diff time))]) = held_book coin sent.
Proof.
  intros Hc. rewrite held_snoc. cbn [take_message]. rewrite decode_encode. cbn [pl_c]. by rewrite bool_decide_eq_false_2.
Qed.

(** ** The invariant

    [published] is the book last published of each coin, whoever was subscribed. *)
Record publisher_ok p (published : gmap bytes Book) : Prop := {
  po_sockets : forall ws ch coin, ws ∈ subscribers p ch coin ->
    exists sd, pb_sockets p !! ws = Some sd /\ coin ∈ si_active (sd_subs sd ch);
  po_l2 : forall ws coin sd, ws ∈ subscribers p L2 coin -> pb_sockets p !! ws = Some sd ->
    coin ∉ si_pending (sd_subs sd L2) ->
    exists b, pb_l2_diff_baseline p !! coin = Some b /\ published !! coin = Some b
      /\ held_book coin (sd_sent sd) = Some b;
  po_sane : forall coin b, pb_l2_diff_baseline p !! coin = Some b -> book_sane b
}.

(** Steps in which the connections see no book and keep their subscriptions. *)
Record quiet_step p p' : Prop := {
  qs_info : forall ch coin, subscribers p' ch coin = subscribers p ch coin;
  qs_baseline : pb_l2_diff_baseline p' = pb_l2_diff_baseline p;
  qs_stay : forall ws, is_Some (pb_sockets p' !! ws) <-> is_Some (pb_sockets p !! ws);
  qs_same : forall ws sd sd', pb_sockets p !! ws = Some sd -> pb_sockets p' !! ws = Some sd' ->
    (forall ch, sd_subs sd' ch = sd_subs sd ch) /\ forall coin, held_book coin (sd_sent sd') = held_book coin (sd_sent sd)
}.

#[export] Instance quiet_step_refl : Reflexive quiet_step.
Proof. intros p. split; try done. intros ws sd sd' E1 E2. by rewrite E1 in E2; injection E2 as <-. Qed.

#[export] Instance quiet_step_trans : Transitive quiet_step.
Proof.
  intros p1 p2 p3 [A1 A2 A3 A4] [B1 B2 B3 B4]. split.
  - intros ch coin. by rewrite B1, A1.
  - congruence.
  - intros ws. by rewrite B3, A3.
  - intros ws sd sd' E1 E3. destruct (proj2 (A3 ws) ltac:(by eexists)) as [sd2 E2].
    destruct (A4 ws sd sd2 E1 E2) as [X1 X2]. destruct (B4 ws sd2 sd' E2 E3) as [Y1 Y2].
    split; intros; [by rewrite Y1, X1|by rewrite Y2, X2].
Qed.

Lemma quiet_ok p p' published : quiet_step p p' -> publisher_ok p published -> publisher_ok p' published.
Proof.
  intros [Q1 Q2 Q3 Q4] [O1 O2 O3]. split.
  - intros ws ch coin. rewrite Q1. intros (sd & E & Ha)%O1. destruct (proj2 (Q3 ws) ltac:(by eexists)) as [sd' E'].
    exists sd'. split; [done|]. destruct (Q4 ws sd sd' E E') as [H _]. by rewrite H.
  - intros ws coin sd' Hin E' Hp. rewrite Q1 in Hin. destruct (proj1 (Q3 ws) ltac:(by eexists)) as [sd E].
    destruct (Q4 ws sd sd' E E') as [H1 H2]. rewrite H1 in Hp. rewrite H2, Q2. by apply (O2 ws).
  - intros coin b. rewrite Q2. apply O3.
Qed.

Lemma on_socket_lookup p ws f ws' :
  pb_sockets (on_socket p ws f) !! ws' = if bool_decide (ws = ws') then f <$> pb_sockets p !! ws' else pb_sockets p !! ws'.
Proof.
  unfold on_socket. cbn. case_bool_decide; [subst; apply lookup_alter_eq|by apply lookup_alter_ne].
Qed.

Lemma quiet_on_socket p ws f :
  (forall sd ch, sd_subs (f sd) ch = sd_subs sd ch) ->
  (forall sd coin, held_book coin (sd_sent (f sd)) = held_book coin (sd_sent sd)) -> quiet_step p (on_socket p ws f).
Proof.
  intros H1 H2. split; try done.
  - intros ws'. rewrite on_socket_lookup. case_bool_decide; [|done]. by rewrite fmap_is_Some.
  - intros ws' sd sd' E. rewrite on_socket_lookup, E. case_bool_decide; intros [= <-]; [|done]. split; intros; [apply H1|apply H2].
Qed.

Lemma quiet_send p ws m : no_book m = true -> quiet_step p (send_to p ws m).
Proof.
  intros Hm. apply quiet_on_socket; [done|]. intros sd coin.
  etrans; [apply (held_snoc coin (sd_sent sd) m)|by apply no_book_held].
Qed.

Lemma quiet_fold {A} (f : Publisher -> A -> Publisher) l p :
  (forall p x, quiet_step p (f p x)) -> quiet_step p (fold_left f l p).
Proof. intros H. revert p. induction l as [|x l IH]; intros p; [done|]. cbn. etrans; [apply H|apply IH]. Qed.

Lemma quiet_send_all p l m : no_book m = true -> quiet_step p (send_all p l m).
Proof. intros Hm. apply quiet_fold. intros. by apply quiet_send. Qed.

(** Sending to each socket of a set. *)
Lemma send_all_lookup p l m ws :
  NoDup l ->
  pb_sockets (send_all p l m) !! ws
  = if bool_decide (ws ∈ l) then (fun sd => sd <| sd_sent ::= fun s => s ++ [m] |>) <$> pb_sockets p !! ws
    else pb_sockets p !! ws.
Proof.
  unfold send_all. revert p. induction l as [|x l IH]; intros p; cbn [fold_left]; [done|]. intros [Hx Hnd]%NoDup_cons.
  rewrite IH by done. unfold send_to. rewrite on_socket_lookup. destruct (decide (x = ws)) as [->|Hne].
  - rewrite bool_decide_eq_false_2, bool_decide_eq_true_2, bool_decide_eq_true_2 by (done || by left). done.
  - rewrite (bool_decide_eq_false_2 (x = ws)) by done. destruct (decide (ws ∈ l)) as [Hin|Hin].
    + rewrite !bool_decide_eq_true_2 by (done || by right). done.
    + rewrite !bool_decide_eq_false_2; [done| |done]. rewrite elem_of_cons. intros [|]; [by subst|done].
Qed.

Lemma send_all_rest p l m :
  pb_subscription_info (send_all p l m) = pb_subscription_info p
  /\ pb_l2_diff_baseline (send_all p l m) = pb_l2_diff_baseline p.
Proof. unfold send_all. revert p. induction l as [|x l IH]; intros p; [done|]. apply (IH (send_to p x m)). Qed.

Lemma published_unseen p published symbol b :
  subscribers p L2 symbol = ∅ -> publisher_ok p published -> publisher_ok p (<[symbol := b]> published).
Proof.
  intros He [O1 O2 O3]. split; [done| |done]. intros ws coin sd Hin E Hp. destruct (decide (symbol = coin)) as [->|Hne].
  - rewrite He in Hin. set_solver.
  - rewrite lookup_insert_ne by done. by apply (O2 ws).
Qed.

(** A snapshot frame reaches every subscriber of the coin, as a snapshot or as a diff. *)
Lemma publish_book_ok p published now update s b :
  publisher_ok p published -> mdu_data update = PSnapshot s -> frame_book s = Some b -> book_sane b ->
  exists p', publish_book_snapshot encode_l2_diff now p update = Some p'
    /\ publisher_ok p' (<[view (mdu_symbol update) := b]> published).
Proof.
  intros Hok Ed Hb Hs. unfold publish_book_snapshot. set (symbol := view (mdu_symbol update)).
  case_bool_decide as Hemp; [exists p; split; [done|]; apply published_unseen; [apply Hemp|done]|].
  rewrite Ed. unfold frame_book in Hb. destruct (split_book_snapshot _ _ _) as [sp|]; [|done]. injection Hb as <-.
  eexists. split; [done|].
  set (msg := OutL2Book _ _ _ _). set (p1 := send_all p (elements (subscribers p L2_BOOK symbol)) msg).
  pose proof (quiet_send_all p (elements (subscribers p L2_BOOK symbol)) msg eq_refl) as Hq. fold p1 in Hq.
  pose proof (quiet_ok _ _ _ Hq Hok) as Hok1. pose proof (qs_info _ _ Hq L2 symbol) as Esub.
  case_bool_decide as Hl2; [by apply published_unseen; [rewrite Esub|]|]. clear Hemp.
  set (curr := (sp_curr_bid sp, sp_curr_ask sp)) in *. set (prev := default ([], []) _).
  set (diff := compute_l2_diff _ _ _ _).
  set (p2 := p1 <| pb_l2_diff_baseline ::= <[symbol := curr]> |>).
  set (m := OutL2Diff _). set (l := elements (subscribers p L2 symbol)).
  destruct (send_all_rest p2 l m) as [R1 R2]. pose proof (send_all_lookup p2 l m) as Hlook.
  assert (Hnd : NoDup l) by apply NoDup_elements.
  assert (Hinl : forall ws, ws ∈ l <-> ws ∈ subscribers p1 L2 symbol) by (intros ws; unfold l; by rewrite elem_of_elements, Esub).
  set (p3 := send_all p2 l m) in *. destruct Hok1 as [O1 O2 O3]. split.
  - intros ws ch coin Hin. unfold subscribers in Hin. rewrite R1 in Hin. destruct (O1 ws ch coin Hin) as (sd & E & Ha).
    rewrite (Hlook ws Hnd). change (pb_sockets p2 !! ws) with (pb_sockets p1 !! ws). rewrite E.
    case_bool_decide; by eexists.
  - intros ws coin sd' Hin E' Hp. unfold subscribers in Hin. rewrite R1 in Hin. change (ws ∈ subscribers p1 L2 coin) in Hin.
    rewrite (Hlook ws Hnd) in E'. change (pb_sockets p2 !! ws) with (pb_sockets p1 !! ws) in E'.
    destruct (O1 ws L2 coin Hin) as (sd & E & _). rewrite E in E'. rewrite R2.
    change (pb_l2_diff_baseline p2) with (<[symbol := curr]> (pb_l2_diff_baseline p1)).
    assert (Hp' : coin ∉ si_pending (sd_subs sd L2)) by (revert Hp; case_bool_decide; by injection E' as <-).
    destruct (O2 ws coin sd Hin E Hp') as (b & B1 & B2 & B3).
    destruct (decide (symbol = coin)) as [Ec|Ec].
    + rewrite <- Ec in *. exists curr. rewrite !lookup_insert_eq. do 2 (split; [done|]).
      rewrite bool_decide_eq_true_2 in E' by (by apply Hinl). injection E' as <-.
      assert (Hprev : prev = b) by (unfold prev; by rewrite B1).
      exact (held_diff symbol (sd_sent sd) (now / ONE_MILLISECOND_NS) prev curr ltac:(by rewrite Hprev)
        ltac:(rewrite Hprev; by eapply O3) Hs).
    + exists b. rewrite !lookup_insert_ne by done. do 2 (split; [done|]).
      revert E'. case_bool_decide; intros [= <-]; [|done]. rewrite <- B3.
      exact (held_other_diff coin symbol (sd_sent sd) diff (now / ONE_MILLISECOND_NS) Ec).
  - intros coin b. rewrite R2. change (pb_l2_diff_baseline p2) with (<[symbol := curr]> (pb_l2_diff_baseline p1)).
    rewrite lookup_insert. case_decide; [by intros [= <-]|apply O3].
Qed.

(** ** Responses to a subscription *)

(** What the snapshot message of a channel must do. *)
Definition snapshot_for (channel : HyperliquidChannel) (symbol : bytes) (b : option Book) (m : OutMessage) : Prop :=
  if bool_decide (channel = L2)
  then (forall held, take_message symbol held m = b) /\ (forall coin held, symbol <> coin -> take_message coin held m = held)
  else no_book m = true.

Lemma set_sub_subs ch f (sd : SocketData) c :
  sd_subs (set_sub ch f sd) c = if bool_decide (c = ch) then f (sd_subs sd c) else sd_subs sd c.
Proof. apply at_set_channel. Qed.

Lemma deliver_ok p published channel symbol m update_msg ws b :
  publisher_ok p published -> snapshot_for channel symbol (Some b) m ->
  (forall u, update_msg = Some u -> no_book u = true) ->
  (channel = L2 -> pb_l2_diff_baseline p !! symbol = Some b /\ published !! symbol = Some b) ->
  let p' := deliver_snapshot channel symbol m update_msg p ws in
  publisher_ok p' published /\ pb_l2_diff_baseline p' = pb_l2_diff_baseline p.
Proof.
  intros Hok Hm Hu Hb. unfold deliver_snapshot. destruct (pb_sockets p !! ws) as [sd|] eqn:E; [|done].
  case_bool_decide as Hpend; [|done].
  set (f := set_sub channel _). set (p2 := send_to (on_socket p ws f) ws m). cbv zeta.
  assert (H2 : publisher_ok p2 published).
  { set (g := fun sd : SocketData => (f sd) <| sd_sent ::= fun l => l ++ [m] |>).
    assert (Hl : forall ws', pb_sockets p2 !! ws' = if bool_decide (ws = ws') then g <$> pb_sockets p !! ws' else pb_sockets p !! ws').
    { intros ws'. unfold p2, send_to. rewrite !on_socket_lookup. case_bool_decide; [|done]. by destruct (pb_sockets p !! ws'). }
    destruct Hok as [O1 O2 O3]. split; [| |exact O3].
    - intros ws' ch coin Hin. destruct (O1 ws' ch coin Hin) as (sd' & E' & Ha). rewrite Hl, E'. case_bool_decide; [|by eexists].
      eexists. split; [done|]. change (sd_subs (g sd') ch) with (sd_subs (f sd') ch). unfold f. rewrite set_sub_subs.
      by destruct (bool_decide (ch = channel)).
    - intros ws' coin sd' Hin E' Hp. rewrite Hl in E'. revert E'. case_bool_decide as Hw; [subst ws'|by intros E'; apply (O2 ws')].
      rewrite E. intros [= <-]. change (held_book coin (sd_sent (g sd))) with (held_book coin (sd_sent sd ++ [m])). rewrite held_snoc.
      change (sd_subs (g sd) L2) with (sd_subs (f sd) L2) in Hp. unfold f in Hp. rewrite set_sub_subs in Hp.
      unfold snapshot_for in Hm. destruct (decide (channel = L2)) as [->|Hne].
      + rewrite bool_decide_eq_true_2 in * by done. destruct Hm as [M1 M2], (Hb eq_refl) as [B1 B2].
        destruct (decide (symbol = coin)) as [<-|Hc].
        * exists b. rewrite M1. done.
        * rewrite M2 by done. apply (O2 ws); [done|done|]. cbn in Hp. set_solver.
      + rewrite bool_decide_eq_false_2 in Hm by done. rewrite (no_book_held _ _ _ Hm).
        apply (O2 ws); [done|done|]. rewrite bool_decide_eq_false_2 in Hp by congruence. done. }
  set (p3 := match update_msg with Some _ => _ | None => _ end).
  assert (Q3 : quiet_step p2 p3).
  { unfold p3. destruct update_msg; [apply quiet_send; by apply Hu|done]. }
  assert (Q4 : quiet_step p3 match pb_sockets p3 !! ws with
    | Some sd => if bool_decide (si_pending (sd_subs sd channel) = ∅)
                 then send_to p3 ws (OutSubscriptions (si_received (sd_subs sd channel))) else p3
    | None => p3 end).
  { destruct (pb_sockets p3 !! ws); [|done]. case_bool_decide; [by apply quiet_send|done]. }
  split; [eapply quiet_ok; [exact Q4|]; by eapply quiet_ok|]. by rewrite (qs_baseline _ _ Q4), (qs_baseline _ _ Q3).
Qed.

Lemma deliver_all_ok published channel symbol m update_msg b l : forall p,
  publisher_ok p published -> snapshot_for channel symbol (Some b) m ->
  (forall u, update_msg = Some u -> no_book u = true) ->
  (channel = L2 -> pb_l2_diff_baseline p !! symbol = Some b /\ published !! symbol = Some b) ->
  publisher_ok (fold_left (deliver_snapshot channel symbol m update_msg) l p) published.
Proof.
  induction l as [|ws l IH]; intros p Hok Hm Hu Hb; [done|]. cbn [fold_left].
  destruct (deliver_ok p published channel symbol m update_msg ws b Hok Hm Hu Hb) as [H1 H2].
  apply IH; [done|done|done|]. by rewrite H2.
Qed.

(** Everyone subscribed to the coin's diffs is still waiting for the snapshot. *)
Definition all_waiting p (coin : bytes) : Prop :=
  forall ws sd, ws ∈ subscribers p L2 coin -> pb_sockets p !! ws = Some sd -> coin ∈ si_pending (sd_subs sd L2).

(** A response the frame of which is what its channel expects. On [l2] it must not tell a new
    subscriber of a book the others were not told of. *)
Definition response_ok p (symbol : bytes) (channel : HyperliquidChannel) (data : MDPayload) : Prop :=
  match channel, data with
  | TRADES, PSubTrades _ _ r =>
      0 <= tsr_num_snapshot r /\ 0 <= tsr_num_update r
      /\ tsr_num_snapshot r + tsr_num_update r <= Z.of_nat (List.length (tsr_trades r))
  | L2_BOOK, PSubBook _ _ s => exists b, frame_book s = Some b /\ book_sane b
  | L2, PSubBook _ _ s =>
      exists b, frame_book s = Some b /\ book_sane b /\ (all_waiting p symbol \/ pb_l2_diff_baseline p !! symbol = Some b)
  | _, _ => False
  end.

Lemma encode_trades_some coin trades n :
  0 <= n <= Z.of_nat (List.length trades) -> is_Some (encode_trades coin trades n).
Proof.
  intros Hn. unfold encode_trades. apply mapM_is_Some, Forall_forall. intros i Hi%elem_of_seq.
  apply fmap_is_Some, lookup_lt_is_Some. lia.
Qed.

Lemma new_baseline_ok p published symbol b :
  publisher_ok p published -> book_sane b -> all_waiting p symbol \/ pb_l2_diff_baseline p !! symbol = Some b ->
  publisher_ok (p <| pb_l2_diff_baseline ::= <[symbol := b]> |>) (<[symbol := b]> published).
Proof.
  intros [O1 O2 O3] Hs Hw. split; [exact O1| |].
  - intros ws coin sd Hin E Hp. cbn [pb_l2_diff_baseline upd]. change (ws ∈ subscribers p L2 coin) in Hin.
    destruct (decide (symbol = coin)) as [<-|Hne].
    + exists b. cbn. rewrite !lookup_insert_eq. do 2 (split; [done|]). destruct (O2 ws symbol sd Hin E Hp) as (b' & B1 & _ & B3).
      destruct Hw as [Hw|Hw]; [by destruct (Hp (Hw ws sd Hin E))|congruence].
    + cbn. rewrite !lookup_insert_ne by done. by apply (O2 ws).
  - intros coin b'. cbn. rewrite lookup_insert. case_decide; [by intros [= <-]|apply O3].
Qed.

(** The book a frame publishes, if it does. *)
Definition publishes (update : MarketDataUpdate) : option Book :=
  match mdu_type update, mdu_data update with
  | BOOK_SNAPSHOT, PSnapshot s => frame_book s
  | SUB_RESPONSE, PSubBook ch MDReject.NONE s => if ch =? channel_code L2 then frame_book s else None
  | _, _ => None
  end.

Definition publish_in (published : gmap bytes Book) (update : MarketDataUpdate) : gmap bytes Book :=
  match publishes update with
  | Some b => <[view (mdu_symbol update) := b]> published
  | None => published
  end.

Lemma frame_book_split s b : frame_book s = Some b -> exists sp,
  split_book_snapshot (snap_levels s) (snap_num_bid s) (snap_num_ask s) = Some sp /\ b = (sp_curr_bid sp, sp_curr_ask sp).
Proof. unfold frame_book. destruct (split_book_snapshot _ _ _) as [sp|]; [|done]. intros [= <-]. by exists sp. Qed.

Lemma publish_response_ok p published now update ch reason channel :
  publisher_ok p published -> mdu_type update = SUB_RESPONSE ->
  response_header (mdu_data update) = Some (ch, reason) -> channel_of ch = Some channel ->
  (reason = MDReject.NONE -> response_ok p (view (mdu_symbol update)) channel (mdu_data update)) ->
  exists p', publish_subscription_response now p update = Some p' /\ publisher_ok p' (publish_in published update).
Proof.
  intros Hok Ety Eh Ec Hr. unfold publish_subscription_response. rewrite Eh, Ec. set (symbol := view (mdu_symbol update)) in *.
  assert (Ech : ch = channel_code channel).
  { unfold channel_of in Ec. repeat case_test; bool_to_prop; try done; by injection Ec as <-. }
  assert (Hnone : reason <> MDReject.NONE \/ channel <> L2 -> publish_in published update = published).
  { intros Hn. unfold publish_in, publishes. rewrite Ety. destruct (mdu_data update); try done. injection Eh as -> ->.
    destruct Hn as [Hn|Hn]; [by destruct reason|]. subst ch. by destruct channel, reason. }
  case_bool_decide as Hemp.
  { exists p. split; [done|]. destruct (decide (channel = L2)) as [->|Hn]; [|by rewrite Hnone by by right].
    unfold publish_in. destruct (publishes update); [by apply published_unseen|done]. }
  case_bool_decide as Hrej.
  { eexists. split; [done|]. rewrite Hnone by by left. eapply quiet_ok; [|exact Hok]. apply quiet_fold. intros. by apply quiet_send. }
  assert (reason = MDReject.NONE) as -> by (destruct reason; [done|by destruct Hrej|by destruct Hrej]). specialize (Hr eq_refl).
  destruct channel, (mdu_data update) eqn:Ed; try done; cbn [response_header] in Eh; injection Eh as -> ->; cbn [response_messages].
  - destruct Hr as (b & Hb & _). destruct (frame_book_split _ _ Hb) as (sp & -> & _).
    eexists. split; [done|]. rewrite Hnone by by right. by apply (deliver_all_ok _ _ _ _ _ ([], [])).
  - destruct Hr as (H1 & H2 & H3). destruct (encode_trades_some symbol (tsr_trades s) (tsr_num_snapshot s)) as [a ->]; [lia|].
    destruct (encode_trades_some symbol (drop (Z.to_nat (tsr_num_snapshot s)) (tsr_trades s)) (tsr_num_update s)) as [c ->].
    { rewrite length_drop. lia. }
    eexists. split; [done|]. rewrite Hnone by by right. apply (deliver_all_ok _ _ _ _ _ ([], [])); [done|done| |done].
    intros u. case_test; [done|]. by intros [= <-].
  - destruct Hr as (b & Hb & Hs & Hw). assert (Epub : publish_in published update = <[symbol := b]> published).
    { unfold publish_in, publishes. rewrite Ety, Ed, Ech. cbn [channel_code Z.eqb Pos.eqb]. by rewrite Hb. }
    destruct (frame_book_split _ _ Hb) as (sp & Esp & ->). rewrite Esp. destruct Hs as (S1 & S2 & S3 & S4).
    eexists. split; [done|]. rewrite Epub. apply (deliver_all_ok _ _ _ _ _ (sp_curr_bid sp, sp_curr_ask sp)).
    + by apply new_baseline_ok.
    + unfold snapshot_for. rewrite bool_decide_eq_true_2 by done. split.
      * intros held. cbn [take_message]. rewrite bool_decide_eq_true_2 by done.
        destruct (split_reads s sp Esp S3 S4) as [-> ->]. done.
      * intros coin held Hne. cbn [take_message]. by rewrite bool_decide_eq_false_2.
    + done.
    + intros _. cbn. by rewrite !lookup_insert_eq.
Qed.

(** ** Clients that come, subscribe and go *)

Lemma subscribers_set ch coin l p ch' coin' :
  subscribers (set_subscribers ch coin l p) ch' coin'
  = if bool_decide (ch' = ch /\ coin' = coin) then l else subscribers p ch' coin'.
Proof.
  unfold subscribers, set_subscribers. cbn [pb_subscription_info upd]. rewrite at_set_channel.
  destruct (decide (ch' = ch)) as [->|Hc].
  - rewrite (bool_decide_eq_true_2 (ch = ch)) by done. rewrite lookup_insert. case_decide as E.
    + subst. by rewrite bool_decide_eq_true_2.
    + rewrite bool_decide_eq_false_2; [done|]. by intros [_ ?].
  - rewrite (bool_decide_eq_false_2 (ch' = ch)) by done. rewrite bool_decide_eq_false_2; [done|]. by intros [? _].
Qed.

Lemma open_ok p published ws now :
  publisher_ok p published -> pb_sockets p !! ws = None -> publisher_ok (open_socket p ws now) published.
Proof.
  intros [O1 O2 O3] Hn. split; [| |exact O3].
  - intros ws' ch coin Hin. destruct (O1 ws' ch coin Hin) as (sd & E & Ha). exists sd. split; [|done].
    cbn. rewrite lookup_insert_ne; [done|congruence].
  - intros ws' coin sd Hin E Hp. destruct (O1 ws' L2 coin Hin) as (sd' & E' & _).
    cbn in E. rewrite lookup_insert_ne in E by congruence. by apply (O2 ws').
Qed.

Lemma subscribe_ok p published ws ch coin :
  publisher_ok p published -> is_Some (pb_sockets p !! ws) -> publisher_ok (subscribe_channel p ws ch coin) published.
Proof.
  intros [O1 O2 O3] [sd0 E0]. unfold subscribe_channel. set (f := set_sub ch _).
  assert (Hsub : forall ch' coin', subscribers (subscribe_channel p ws ch coin) ch' coin'
    = if bool_decide (ch' = ch /\ coin' = coin) then {[ws]} ∪ subscribers p ch coin else subscribers p ch' coin').
  { intros ch' coin'. apply (subscribers_set ch coin _ p). }
  unfold subscribe_channel in Hsub. fold f in Hsub. set (p' := on_socket _ _ _) in *.
  assert (Hl : forall ws', pb_sockets p' !! ws' = if bool_decide (ws = ws') then f <$> pb_sockets p !! ws' else pb_sockets p !! ws').
  { intros ws'. unfold p'. rewrite on_socket_lookup. done. }
  assert (Ha : forall sd c, si_active (sd_subs (f sd) c) = if bool_decide (c = ch) then {[coin]} ∪ si_active (sd_subs sd c) else si_active (sd_subs sd c)).
  { intros sd c. unfold f. rewrite set_sub_subs. by case_bool_decide. }
  assert (Hp : forall sd c, si_pending (sd_subs (f sd) c) = if bool_decide (c = ch) then {[coin]} ∪ si_pending (sd_subs sd c) else si_pending (sd_subs sd c)).
  { intros sd c. unfold f. rewrite set_sub_subs. by case_bool_decide. }
  split; [| |exact O3].
  - intros ws' ch' coin' Hin. rewrite Hl. rewrite Hsub in Hin. destruct (decide (ws = ws')) as [<-|Hne].
    + rewrite bool_decide_eq_true_2 by done. rewrite E0. eexists. split; [done|]. rewrite Ha. revert Hin. case_bool_decide as Hc.
      * destruct Hc as [-> ->]. intros _. rewrite bool_decide_eq_true_2 by done. set_solver.
      * intros (sd & E & Hact)%O1. rewrite E0 in E. injection E as <-. case_bool_decide; set_solver.
    + rewrite bool_decide_eq_false_2 by done. revert Hin. case_bool_decide as Hc; [|by intros Hin; apply O1].
      destruct Hc as [-> ->]. rewrite elem_of_union, elem_of_singleton. intros [|Hin]; [congruence|by apply O1].
  - intros ws' coin' sd' Hin E' Hpend. rewrite Hl in E'. rewrite Hsub in Hin. destruct (decide (ws = ws')) as [<-|Hne].
    + rewrite bool_decide_eq_true_2, E0 in E' by done. injection E' as <-. rewrite Hp in Hpend.
      destruct (decide (L2 = ch /\ coin' = coin)) as [[<- ->]|Hc].
      * rewrite bool_decide_eq_true_2 in Hpend by done. set_solver.
      * rewrite bool_decide_eq_false_2 in Hin by done. apply (O2 ws coin' sd0 Hin E0).
        revert Hpend. case_bool_decide; set_solver.
    + rewrite bool_decide_eq_false_2 in E' by done. apply (O2 ws' coin' sd'); [|done|done]. revert Hin.
      case_bool_decide as Hc; [|done]. destruct Hc as [<- ->]. rewrite elem_of_union, elem_of_singleton. by intros [|].
Qed.

(** What taking subscriptions away leaves. *)
Record thinned p (ws : Z) p' : Prop := {
  th_subs : forall ch coin, subscribers p' ch coin ⊆ subscribers p ch coin;
  th_others : forall ch coin ws', ws' <> ws -> ws' ∈ subscribers p ch coin -> ws' ∈ subscribers p' ch coin;
  th_sockets : pb_sockets p' = pb_sockets p;
  th_baseline : forall coin, pb_l2_diff_baseline p' !! coin = pb_l2_diff_baseline p !! coin
    \/ (pb_l2_diff_baseline p' !! coin = None /\ subscribers p' L2 coin = ∅)
}.

Lemma thinned_ok p published ws p' : thinned p ws p' -> publisher_ok p published -> publisher_ok p' published.
Proof.
  intros [T1 T2 T3 T4] [O1 O2 O3]. split.
  - intros ws' ch coin Hin. rewrite T3. by apply O1, T1.
  - intros ws' coin sd Hin E Hp. rewrite T3 in E. destruct (T4 coin) as [->|[_ He]].
    + apply (O2 ws'); [by apply T1|done|done].
    + rewrite He in Hin. set_solver.
  - intros coin b. destruct (T4 coin) as [->|[-> _]]; [apply O3|done].
Qed.

Lemma thinned_self p ws : thinned p ws p.
Proof. split; [done|done|done|by left]. Qed.

Lemma thinned_trans p1 p2 p3 ws : thinned p1 ws p2 -> thinned p2 ws p3 -> thinned p1 ws p3.
Proof.
  intros [A1 A2 A3 A4] [B1 B2 B3 B4]. split.
  - intros. etrans; [apply B1|apply A1].
  - intros. by apply B2, A2.
  - congruence.
  - intros coin. destruct (B4 coin) as [->|]; [|by right]. destruct (A4 coin) as [|[-> He]]; [by left|right].
    split; [done|]. specialize (B1 L2 coin). set_solver.
Qed.

Lemma unsubscribe_coin_thins ws ch p coin :
  thinned p ws (unsubscribe_coin ws ch p coin) /\ ws ∉ subscribers (unsubscribe_coin ws ch p coin) ch coin.
Proof.
  unfold unsubscribe_coin. set (p1 := p <| pb_requests ::= _ |> <| pb_symbol_channel_client ::= _ |>).
  set (coin_subs := subscribers p1 ch coin ∖ {[ws]}).
  set (p2 := set_subscribers ch coin coin_subs p1).
  assert (Hs : forall ch' coin', subscribers p2 ch' coin'
    = if bool_decide (ch' = ch /\ coin' = coin) then coin_subs else subscribers p ch' coin').
  { intros. etrans; [apply (subscribers_set ch coin coin_subs p1)|done]. }
  assert (Hsub : forall ch' coin', subscribers p2 ch' coin' ⊆ subscribers p ch' coin').
  { intros. rewrite Hs. case_bool_decide as Hc; [|done]. destruct Hc as [-> ->]. unfold coin_subs.
    change (subscribers p1 ch coin) with (subscribers p ch coin). set_solver. }
  assert (Hoth : forall ch' coin' ws', ws' <> ws -> ws' ∈ subscribers p ch' coin' -> ws' ∈ subscribers p2 ch' coin').
  { intros ch' coin' ws' Hne Hin. rewrite Hs. case_bool_decide as Hc; [|done]. destruct Hc as [-> ->]. unfold coin_subs.
    change (subscribers p1 ch coin) with (subscribers p ch coin). set_solver. }
  assert (Hnot : ws ∉ subscribers p2 ch coin).
  { rewrite Hs, bool_decide_eq_true_2 by done. unfold coin_subs. set_solver. }
  case_bool_decide as Hc; [|by split; [split; [done|done|done|by left]|]].
  split; [|done]. split; [done|done|done|]. intros coin'. cbn. destruct (decide (coin = coin')) as [<-|Hne].
  - right. rewrite lookup_delete_eq. split; [done|]. destruct Hc as [-> Hc].
    change (subscribers p2 L2 coin = ∅). by rewrite Hs, bool_decide_eq_true_2.
  - left. by rewrite lookup_delete_ne.
Qed.

Lemma unsubscribe_coins_thin ws ch l : forall p,
  let p' := fold_left (unsubscribe_coin ws ch) l p in
  thinned p ws p' /\ forall coin, coin ∈ l -> ws ∉ subscribers p' ch coin.
Proof.
  induction l as [|coin l IH]; intros p; cbn [fold_left]; [split; [apply thinned_self|by intros ? ?%elem_of_nil]|].
  destruct (unsubscribe_coin_thins ws ch p coin) as [H1 H2]. destruct (IH (unsubscribe_coin ws ch p coin)) as [H3 H4].
  split; [by eapply thinned_trans|]. intros c [->|Hc]%elem_of_cons; [|by apply H4].
  pose proof (th_subs _ _ _ H3 ch coin). set_solver.
Qed.

(** Forgetting a channel of a socket no longer subscribed there. *)
Lemma reset_sub_ok p published ws ch :
  publisher_ok p published -> (forall coin, ws ∉ subscribers p ch coin) ->
  publisher_ok (on_socket p ws (set_sub ch (fun _ => no_subs))) published.
Proof.
  intros [O1 O2 O3] Hn. split; [| |exact O3].
  - intros ws' ch' coin Hin. change (ws' ∈ subscribers p ch' coin) in Hin. destruct (O1 ws' ch' coin Hin) as (sd & E & Ha).
    rewrite on_socket_lookup, E. case_bool_decide as Hw; [subst ws'|by eexists]. eexists. split; [done|].
    rewrite set_sub_subs, bool_decide_eq_false_2; [done|]. intros ->. exact (Hn coin Hin).
  - intros ws' coin sd' Hin E' Hp. change (ws' ∈ subscribers p L2 coin) in Hin. rewrite on_socket_lookup in E'.
    revert E'. case_bool_decide as Hw; [subst ws'|by intros E'; apply (O2 ws')].
    destruct (pb_sockets p !! ws) as [sd|] eqn:E; [|done]. intros [= <-].
    assert (Hne : L2 <> ch) by (intros <-; exact (Hn coin Hin)).
    rewrite set_sub_subs, bool_decide_eq_false_2 in Hp by done. exact (O2 ws coin sd Hin E Hp).
Qed.

Lemma unsubscribe_channel_ok p published ws ch sd :
  publisher_ok p published -> pb_sockets p !! ws = Some sd ->
  let p1 := fold_left (unsubscribe_coin ws ch) (elements (si_active (sd_subs sd ch))) p in
  let p' := on_socket p1 ws (set_sub ch (fun _ => no_subs)) in
  publisher_ok p' published /\ (forall coin, ws ∉ subscribers p' ch coin)
  /\ (forall c coin, subscribers p' c coin ⊆ subscribers p c coin)
  /\ pb_sockets p' !! ws = Some (set_sub ch (fun _ => no_subs) sd).
Proof.
  intros Hok E p1 p'. destruct (unsubscribe_coins_thin ws ch (elements (si_active (sd_subs sd ch))) p) as [T1 T2].
  fold p1 in T1, T2. assert (Hn : forall coin, ws ∉ subscribers p1 ch coin).
  { intros coin Hin. pose proof (th_subs _ _ _ T1 ch coin ws Hin) as Hin0.
    destruct (po_sockets _ _ Hok ws ch coin Hin0) as (sd' & E' & Ha). rewrite E in E'. injection E' as <-.
    by apply (T2 coin); [by apply elem_of_elements|]. }
  split; [apply reset_sub_ok; [by eapply thinned_ok|done]|]. split; [exact Hn|]. split; [apply T1|].
  unfold p'. rewrite on_socket_lookup, bool_decide_eq_true_2 by done. by rewrite (th_sockets _ _ _ T1), E.
Qed.

Lemma close_ok p published ws : publisher_ok p published -> publisher_ok (handle_close p ws) published.
Proof.
  intros Hok. unfold handle_close, unsubscribe_md. destruct (pb_sockets p !! ws) as [sd|] eqn:E.
  - cbn [fold_left channels].
    destruct (unsubscribe_channel_ok p published ws L2_BOOK sd Hok E) as (A1 & A2 & A3 & A4).
    set (p1 := on_socket (fold_left _ _ p) ws _) in *. cbv zeta in *.
    destruct (unsubscribe_channel_ok p1 published ws TRADES _ A1 A4) as (B1 & B2 & B3 & B4).
    change (sd_subs (set_sub L2_BOOK (fun _ => no_subs) sd) TRADES) with (sd_subs sd TRADES) in *.
    set (p2 := on_socket (fold_left _ _ p1) ws _) in *. cbv zeta in *.
    destruct (unsubscribe_channel_ok p2 published ws L2 _ B1 B4) as (C1 & C2 & C3 & C4).
    change (sd_subs (set_sub TRADES (fun _ => no_subs) (set_sub L2_BOOK (fun _ => no_subs) sd)) L2) with (sd_subs sd L2) in *.
    set (p3 := on_socket (fold_left _ _ p2) ws _) in *. cbv zeta in *.
    assert (Hn : forall ch coin, ws ∉ subscribers p3 ch coin).
    { intros [] coin Hin.
      - exact (A2 coin (B3 L2_BOOK coin ws (C3 L2_BOOK coin ws Hin))).
      - exact (B2 coin (C3 TRADES coin ws Hin)).
      - exact (C2 coin Hin). }
    clear - C1 Hn. destruct C1 as [O1 O2 O3]. split; [| |exact O3].
    + intros ws' ch coin Hin. change (ws' ∈ subscribers p3 ch coin) in Hin. cbn.
      rewrite lookup_delete_ne by (intros ->; exact (Hn ch coin Hin)). by apply O1.
    + intros ws' coin sd' Hin E'. change (ws' ∈ subscribers p3 L2 coin) in Hin. cbn in E'.
      rewrite lookup_delete_ne in E' by (intros ->; exact (Hn L2 coin Hin)). exact (O2 ws' coin sd' Hin E').
  - destruct Hok as [O1 O2 O3]. split; [| |exact O3].
    + intros ws' ch coin Hin. destruct (O1 ws' ch coin Hin) as (sd & E' & Ha). cbn.
      rewrite lookup_delete_ne by congruence. by eexists.
    + intros ws' coin sd' Hin E'. cbn in E'. rewrite lookup_delete in E'. case_decide; [done|]. exact (O2 ws' coin sd' Hin E').
Qed.

Lemma heartbeats_ok p published now timeout : publisher_ok p published -> publisher_ok (check_heartbeats p now timeout) published.
Proof.
  unfold check_heartbeats. generalize (elements (dom (pb_sockets p))). intros l. revert p.
  induction l as [|ws l IH]; intros p Hok; [done|]. cbn [fold_left]. apply IH. unfold check_socket.
  destruct (pb_sockets p !! ws) as [sd|]; [|done]. case_test; [by apply close_ok|].
  eapply quiet_ok; [by apply quiet_send|]. case_test; [|done].
  eapply quiet_ok; [|exact Hok]. etrans; [apply (quiet_send p ws (OutHeartbeat (pb_heartbeat_count p)) eq_refl)|]. split; try done.
  intros ws' sd1 sd2 E1 E2. assert (Some sd1 = Some sd2) as [= ->] by (etrans; [symmetry; exact E1|exact E2]). done.
Qed.

(** ** Everything the publisher is told *)

Inductive Event :=
  EvOpen (ws now : Z)
| EvClose (ws : Z)
| EvPong (ws now : Z)
| EvHeartbeats (now pong_timeout : Z)
| EvMessage (ws : Z) (message : bytes + J)
| EvFrame (now : Z) (update : MarketDataUpdate).

Definition run_event p (e : Event) : option Publisher :=
  match e with
  | EvOpen ws now => Some (open_socket p ws now)
  | EvClose ws => Some (handle_close p ws)
  | EvPong ws now => Some (pong p ws now)
  | EvHeartbeats now pong_timeout => Some (check_heartbeats p now pong_timeout)
  | EvMessage ws message => match handle_message p ws message with Ok p => Some p | _ => None end
  | EvFrame now update => publish_market_data_update encode_l2_diff now p update
  end.

(** A JSON object whose member, if it has it, is a string. *)
Definition readable (j : J) (key : bytes) : Prop := exists s, string_value j key [] = Ok s.

Definition readable_message (message : bytes + J) : Prop :=
  match message with
  | inl _ => True
  | inr msg => readable msg (str "method")
      /\ forall sub, js_find msg (str "subscription") = Some sub ->
           readable sub (str "type") /\ readable sub (str "coin") /\ readable sub (str "c")
  end.

Definition frame_ok p (update : MarketDataUpdate) : Prop :=
  match mdu_type update with
  | SUB_RESPONSE => exists ch reason channel, response_header (mdu_data update) = Some (ch, reason)
      /\ channel_of ch = Some channel
      /\ (reason = MDReject.NONE -> response_ok p (view (mdu_symbol update)) channel (mdu_data update))
  | BOOK_SNAPSHOT => exists s b, mdu_data update = PSnapshot s /\ frame_book s = Some b /\ book_sane b
  | TRADE_SUMMARY => exists s, mdu_data update = PTradeSummary s
  | _ => True
  end.

Definition event_ok p (e : Event) : Prop :=
  match e with
  | EvOpen ws _ => pb_sockets p !! ws = None
  | EvMessage ws message => is_Some (pb_sockets p !! ws) /\ readable_message message
  | EvFrame _ update => frame_ok p update
  | _ => True
  end.

Definition publish_by (published : gmap bytes Book) (e : Event) : gmap bytes Book :=
  match e with EvFrame _ update => publish_in published update | _ => published end.

Lemma message_ok p published ws message :
  publisher_ok p published -> is_Some (pb_sockets p !! ws) -> readable_message message ->
  exists p', handle_message p ws message = Ok p' /\ publisher_ok p' published.
Proof.
  intros Hok Hws Hr.
  assert (Hsend : forall m, no_book m = true -> publisher_ok (send_to p ws m) published).
  { intros m Hm. eapply quiet_ok; [by apply quiet_send|done]. }
  destruct message as [what|msg]; [eexists; split; [done|by apply Hsend]|].
  destruct Hr as [[method Em] Hsub]. cbn [handle_message]. rewrite Em. cbn [rbind].
  case_test; [eexists; split; [done|by apply Hsend]|].
  case_test; [eexists; split; [done|by apply Hsend]|].
  destruct (js_find msg (str "subscription")) as [sub|]; [|eexists; split; [done|by apply Hsend]].
  destruct (Hsub sub eq_refl) as ((ty & Et) & (coin & Ecoin) & (c & Ecc)). rewrite Et, Ecoin, Ecc. cbn [rbind].
  assert (Hsubscribe : forall ch name (b : bool), publisher_ok (if b then subscribe_channel p ws ch name else p) published).
  { intros ch name []; [by apply subscribe_ok|done]. }
  repeat case_test; (eexists; split; [reflexivity|]); try (by apply Hsend); try done; try (by apply subscribe_ok).
  - apply subscribe_ok; [by apply Hsend|]. unfold send_to. rewrite on_socket_lookup, bool_decide_eq_true_2 by done.
    by apply fmap_is_Some.
  - eapply quiet_ok; [|exact Hok]. etrans; [|by apply quiet_send]. by apply quiet_on_socket.
Qed.

Lemma event_preserves p published e :
  publisher_ok p published -> event_ok p e ->
  exists p', run_event p e = Some p' /\ publisher_ok p' (publish_by published e).
Proof.
  intros Hok He. destruct e as [ws now|ws|ws now|now timeout|ws message|now update]; cbn [run_event publish_by event_ok] in *.
  - eexists. split; [done|]. by apply open_ok.
  - eexists. split; [done|]. by apply close_ok.
  - eexists. split; [done|]. eapply quiet_ok; [|exact Hok]. by apply quiet_on_socket.
  - eexists. split; [done|]. by apply heartbeats_ok.
  - destruct He as [Hws Hr]. destruct (message_ok p published ws message Hok Hws Hr) as (p' & -> & H). by exists p'.
  - unfold publish_market_data_update, frame_ok in *. destruct (mdu_type update) eqn:Et;
      try (exists p; split; [done|]; unfold publish_in, publishes; rewrite Et; exact Hok).
    + destruct He as [s Hs]. assert (E : publish_in published update = published) by (unfold publish_in, publishes; by rewrite Et).
      rewrite E. unfold publish_trade_summary. case_bool_decide; [by eexists|]. rewrite Hs. eexists. split; [done|].
      eapply quiet_ok; [|exact Hok]. by apply quiet_send_all.
    + destruct He as (s & b & H1 & H2 & H3). destruct (publish_book_ok p published now update s b Hok H1 H2 H3) as (p' & -> & H).
      exists p'. split; [done|]. unfold publish_in, publishes. by rewrite Et, H1, H2.
    + destruct He as (ch & reason & channel & H1 & H2 & H3). by eapply publish_response_ok.
Qed.

(** Every history of the publisher. *)
Inductive publishing : Publisher -> gmap bytes Book -> Prop :=
| publishing_new : publishing new_publisher ∅
| publishing_step p published e p' :
    publishing p published -> event_ok p e -> run_event p e = Some p' ->
    publishing p' (publish_by published e).

Lemma publishing_ok p published : publishing p published -> publisher_ok p published.
Proof.
  induction 1 as [|p published e p' _ IH He Hr].
  - split.
    + intros ws ch coin Hin. assert (He : subscribers (new_publisher : Publisher) ch coin = ∅) by by destruct ch. rewrite He in Hin. set_solver.
    + intros ws coin sd Hin. unfold subscribers in Hin. cbn in Hin. rewrite lookup_empty in Hin. set_solver.
    + intros coin b. cbn. by rewrite lookup_empty.
  - destruct (event_preserves p published e IH He) as (p'' & E & H). congruence.
Qed.

(** C22. Clients of the compressed book channel never drift. In every history of connections,
    messages, heartbeats, departures and frames, the publisher handles what it is told, and
    each subscriber of a coin's [l2] channel that has had its snapshot, replaying the
    snapshots and compressed diffs it was sent, holds exactly the book last published of the
    coin - provided a response sent for a new subscriber repeats the book the others already
    hold, or there are no others. *)
Theorem l2_subscribers_hold_book p published :
  publishing p published ->
  (forall e, event_ok p e -> exists p', run_event p e = Some p' /\ publishing p' (publish_by published e))
  /\ forall ws coin, ws ∈ subscribers p L2 coin -> exists sd, pb_sockets p !! ws = Some sd
       /\ (coin ∉ si_pending (sd_subs sd L2) ->
           exists b, published !! coin = Some b /\ held_book coin (sd_sent sd) = Some b).
Proof.
  intros Hp. pose proof (publishing_ok p published Hp) as Hok. split.
  - intros e He. destruct (event_preserves p published e Hok He) as (p' & E & _). exists p'. split; [done|]. by econstructor.
  - intros ws coin Hin. destruct (po_sockets _ _ Hok ws L2 coin Hin) as (sd & E & _). exists sd. split; [done|].
    intros Hpend. destruct (po_l2 _ _ Hok ws coin sd Hin E Hpend) as (b & _ & H1 & H2). by exists b.
Qed.

(** ** The response that leaves subscribers behind *)

Lemma deliver_idle channel symbol m update_msg ws sd l : forall p,
  pb_sockets p !! ws = Some sd -> symbol ∉ si_pending (sd_subs sd channel) ->
  pb_sockets (fold_left (deliver_snapshot channel symbol m update_msg) l p) !! ws = Some sd.
Proof.
  induction l as [|ws' l IH]; intros p E Hp; [done|]. cbn [fold_left]. apply IH; [|done]. unfold deliver_snapshot.
  destruct (pb_sockets p !! ws') as [sd'|] eqn:E'; [|done]. case_bool_decide as Hpend; [|done].
  assert (Hne : ws' <> ws) by (intros ->; congruence).
  assert (Hon : forall p f, pb_sockets (on_socket p ws' f) !! ws = pb_sockets p !! ws).
  { intros q f. by rewrite on_socket_lookup, bool_decide_eq_false_2. }
  assert (Hsend : forall p m, pb_sockets (send_to p ws' m) !! ws = pb_sockets p !! ws) by (intros; apply Hon).
  set (p1 := on_socket p ws' _). assert (E1 : pb_sockets p1 !! ws = Some sd) by (unfold p1; by rewrite Hon).
  set (p2 := match update_msg with Some _ => _ | None => _ end).
  assert (E2 : pb_sockets p2 !! ws = Some sd) by (unfold p2; destruct update_msg; by rewrite !Hsend).
  destruct (pb_sockets p2 !! ws'); [|done]. case_bool_decide; [by rewrite Hsend|done].
Qed.

Lemma diff_same side l d : best_first side l -> diff_side l l d = ([], []).
Proof.
  intros Hs. rewrite (surjective_pairing (diff_side l l d)). f_equal.
  - rewrite diff_side_changes. assert (changed l l = []) as ->; [|done].
    destruct (changed l l) as [|x r] eqn:E; [done|]. exfalso.
    assert (Hx : x ∈ changed l l) by (rewrite E; by left). apply changed_in in Hx as [Hx Hn]. apply Hn.
    apply (prev_by_price_spec side); [done|]. by rewrite <- surjective_pairing.
  - destruct (snd (diff_side l l d)) as [|i r] eqn:E; [done|]. exfalso.
    assert (Hi : In i (snd (diff_side l l d))) by (rewrite E; by left).
    rewrite diff_side_removals, List.filter_In in Hi. destruct Hi as [_ Hi]. unfold removed_at in Hi.
    destruct (l !! i) as [x|] eqn:El; [|done]. apply negb_true_iff, bool_decide_eq_false in Hi. apply Hi.
    rewrite elem_of_list_to_set. apply list_elem_of_fmap_2. by eapply list_elem_of_lookup_2.
Qed.

Lemma deliver_rest channel symbol m update_msg l : forall p,
  pb_subscription_info (fold_left (deliver_snapshot channel symbol m update_msg) l p) = pb_subscription_info p
  /\ pb_l2_diff_baseline (fold_left (deliver_snapshot channel symbol m update_msg) l p) = pb_l2_diff_baseline p.
Proof.
  induction l as [|x l IH]; intros q; [done|]. cbn [fold_left].
  destruct (IH (deliver_snapshot channel symbol m update_msg q x)) as [-> ->].
  unfold deliver_snapshot. destruct (pb_sockets q !! x); [|done]. case_bool_decide; [|done]. cbv zeta.
  set (p2 := match update_msg with Some _ => _ | None => _ end).
  assert (E : pb_subscription_info p2 = pb_subscription_info q /\ pb_l2_diff_baseline p2 = pb_l2_diff_baseline q).
  { unfold p2. by destruct update_msg. }
  destruct (pb_sockets p2 !! x); [|done]. by case_bool_decide.
Qed.

(** A response for a coin passes over the sockets that have had theirs. *)
Lemma response_passes_over p now update ws coin sd s b' :
  ws ∈ subscribers p L2 coin -> pb_sockets p !! ws = Some sd -> coin ∉ si_pending (sd_subs sd L2) ->
  view (mdu_symbol update) = coin -> mdu_data update = PSubBook (channel_code L2) MDReject.NONE s ->
  frame_book s = Some b' ->
  exists p', publish_subscription_response now p update = Some p' /\ pb_sockets p' !! ws = Some sd
    /\ pb_subscription_info p' = pb_subscription_info p
    /\ pb_l2_diff_baseline p' = <[coin := b']> (pb_l2_diff_baseline p).
Proof.
  intros Hin E Hpend <- Ed Hb. set (coin := view (mdu_symbol update)) in *.
  unfold publish_subscription_response. rewrite Ed. cbn [response_header channel_code]. change (channel_of 2) with (Some L2).
  fold coin. cbv zeta iota. rewrite (bool_decide_eq_false_2 (subscribers p L2 coin = ∅)) by set_solver.
  rewrite bool_decide_eq_false_2 by tauto. cbn [response_messages].
  destruct (frame_book_split _ _ Hb) as (sp & -> & Eb). eexists. split; [done|].
  split; [by apply deliver_idle|].
  match goal with |- pb_subscription_info (fold_left (deliver_snapshot _ _ ?m _) ?l ?q) = _ /\ _ =>
    destruct (deliver_rest L2 coin m None l q) as [-> ->] end.
  by rewrite Eb.
Qed.

(** A snapshot of the book the baseline already has keeps a socket on the book it holds. *)
Lemma snapshot_keeps p now update ws coin sd s b b' :
  ws ∈ subscribers p L2 coin -> pb_sockets p !! ws = Some sd -> held_book coin (sd_sent sd) = Some b ->
  pb_l2_diff_baseline p !! coin = Some b' -> best_first BUY (fst b') -> best_first SELL (snd b') ->
  view (mdu_symbol update) = coin -> mdu_data update = PSnapshot s -> frame_book s = Some b' ->
  exists p' sd', publish_book_snapshot encode_l2_diff now p update = Some p' /\ pb_l2_diff_baseline p' !! coin = Some b'
    /\ pb_sockets p' !! ws = Some sd' /\ held_book coin (sd_sent sd') = Some b.
Proof.
  intros Hin E Hh Hbase S1 S2 <- Ed Hb. set (coin := view (mdu_symbol update)) in *.
  unfold publish_book_snapshot. rewrite Ed. fold coin. cbv zeta.
  rewrite bool_decide_eq_false_2 by (intros [_ ?]; set_solver).
  destruct (frame_book_split _ _ Hb) as (sp & -> & Eb). rewrite (bool_decide_eq_false_2 (subscribers p L2 coin = ∅)) by set_solver.
  set (l1 := elements (subscribers p L2_BOOK coin)). set (m1 := OutL2Book _ _ _ _). set (p1 := send_all p l1 m1).
  destruct (send_all_rest p l1 m1) as [_ Q2]. fold p1 in Q2. rewrite Q2, Hbase. cbn [default].
  set (p2 := p1 <| pb_l2_diff_baseline ::= _ |>). set (l2 := elements _). set (m2 := OutL2Diff _).
  set (sd1 := if bool_decide (ws ∈ l1) then (sd <| sd_sent ::= fun l => l ++ [m1] |>) else sd).
  assert (Hsd1 : held_book coin (sd_sent sd1) = Some b).
  { unfold sd1. case_bool_decide; [|done]. etrans; [apply (held_snoc coin (sd_sent sd) m1)|done]. }
  eexists. exists (sd1 <| sd_sent ::= fun l => l ++ [m2] |>). split; [done|].
  destruct (send_all_rest p2 l2 m2) as [_ ->]. split; [cbn; by rewrite lookup_insert_eq, Eb|]. split.
  - rewrite send_all_lookup, bool_decide_eq_true_2; [|by apply elem_of_elements|apply NoDup_elements].
    change (pb_sockets p2 !! ws) with (pb_sockets p1 !! ws). unfold p1. rewrite send_all_lookup, E by apply NoDup_elements.
    unfold sd1. by case_bool_decide.
  - etrans; [apply (held_snoc coin (sd_sent sd1) m2)|]. rewrite Hsd1. unfold m2. cbn [take_message]. rewrite decode_encode.
    cbn [pl_c pl_diff]. rewrite bool_decide_eq_true_2 by done. rewrite Eb in S1, S2 |- *. cbn [fst snd] in *.
    unfold compute_l2_diff. rewrite (diff_same BUY), (diff_same SELL) by done. by destruct b.
Qed.

(** The proviso of [l2_subscribers_hold_book] is needed, and nothing repairs what breaks
    it: when a new subscriber's response shows a book other than the one last published - a
    client's order that rested since is enough - a socket that already follows the coin is
    sent nothing, keeps the old book, and is kept on it by the next snapshot of that same
    book, whose diff is computed against what it never received. *)
Lemma l2_response_strands p published now now' update update' ws coin sd b b' s s' :
  publishing p published ->
  ws ∈ subscribers p L2 coin -> pb_sockets p !! ws = Some sd -> coin ∉ si_pending (sd_subs sd L2) ->
  held_book coin (sd_sent sd) = Some b ->
  view (mdu_symbol update) = coin -> mdu_data update = PSubBook (channel_code L2) MDReject.NONE s ->
  frame_book s = Some b' -> book_sane b' -> b' <> b ->
  view (mdu_symbol update') = coin -> mdu_data update' = PSnapshot s' -> frame_book s' = Some b' ->
  exists p' p'' sd'', publish_subscription_response now p update = Some p'
    /\ publish_book_snapshot encode_l2_diff now' p' update' = Some p''
    /\ pb_l2_diff_baseline p'' !! coin = Some b'
    /\ pb_sockets p'' !! ws = Some sd'' /\ held_book coin (sd_sent sd'') = Some b.
Proof.
  intros Hp Hin E Hpend Hh Es Ed Hb (S1 & S2 & _) Hne Es' Ed' Hb'.
  destruct (response_passes_over p now update ws coin sd s b' Hin E Hpend Es Ed Hb) as (p' & Ep & E' & Ri & Rb).
  destruct (snapshot_keeps p' now' update' ws coin sd s' b b') as (p'' & sd'' & Ep' & H1 & H2 & H3); try done.
  - unfold subscribers in *. by rewrite Ri.
  - by rewrite Rb, lookup_insert_eq.
  - by exists p', p'', sd''.
Qed.
End Subscribers.

(** ** Two subscribers of one coin *)

Definition sample_levels (s : Side) (l : L2Levels) : list MDLevel :=
  map (fun x => mkMDLevel 0 0 (fst x) (snd x) 1 0 ACTION_NEW F_NONE s) l.

Definition sample_snapshot (b : Book) : BookSnapshot :=
  mkBookSnapshot (Z.of_nat (List.length (fst b))) (Z.of_nat (List.length (snd b)))
    (sample_levels BUY (fst b) ++ sample_levels SELL (snd b)).

Definition snapshot_frame (b : Book) : MarketDataUpdate :=
  mkMDUpdate (assign 32 (str "BTC")) HYPERLIQUID BOOK_SNAPSHOT (PSnapshot (sample_snapshot b)).

Definition response_frame (b : Book) : MarketDataUpdate :=
  mkMDUpdate (assign 32 (str "BTC")) HYPERLIQUID SUB_RESPONSE (PSubBook 2 MDReject.NONE (sample_snapshot b)).

Definition book1 : Book := ([(99, 4); (98, 2)], [(101, 5)]).
Definition book2 : Book := ([(98, 3)], [(100, 1); (101, 5)]).
Definition book3 : Book := ([(98, 3)], [(101, 5)]).

Definition subscribe_text : FlatJson :=
  JObject [(str "method", JString (str "subscribe"));
           (str "subscription", JObject [(str "type", JString (str "l2")); (str "c", JString (str "BTC"))])].

Definition sample_events : list (@Event FlatJson) :=
  [EvOpen 1 0; EvMessage 1 (inr subscribe_text); EvFrame 0 (response_frame book1);
   EvOpen 2 0; EvFrame 0 (snapshot_frame book2); EvMessage 2 (inr subscribe_text)].

Definition run_events (l : list (@Event FlatJson)) : option (@Publisher FlatJson L2Payload) :=
  fold_left (fun p e => match p with Some p => run_event id p e | None => None end) l (Some new_publisher).

Definition sample_state (k : nat) : @Publisher FlatJson L2Payload := default new_publisher (run_events (take k sample_events)).
Definition sample_published (k : nat) : gmap bytes Book := fold_left publish_by (take k sample_events) ∅.

Definition sample_publisher : @Publisher FlatJson L2Payload := sample_state 6.

Lemma sample_step k e :
  publishing id (sample_state k) (sample_published k) -> event_ok (sample_state k) e ->
  run_event id (sample_state k) e = Some (sample_state (S k)) ->
  publish_by (sample_published k) e = sample_published (S k) ->
  publishing id (sample_state (S k)) (sample_published (S k)).
Proof. intros H1 H2 H3 <-. by econstructor. Qed.

Lemma sample_publishing : publishing id sample_publisher {[str "BTC" := book2]}.
Proof.
  assert (Hs1 : book_sane book1) by (repeat split; unfold best_first, in_width; cbn; repeat constructor; cbn; lia).
  assert (Hs2 : book_sane book2) by (repeat split; unfold best_first, in_width; cbn; repeat constructor; cbn; lia).
  assert (Hr : readable_message (inr subscribe_text)).
  { split; [by eexists|]. intros sub [= <-]. split; [by eexists|]. split; by eexists. }
  assert (P0 : publishing id (sample_state 0) (sample_published 0)) by apply publishing_new.
  assert (P1 : publishing id (sample_state 1) (sample_published 1)).
  { apply (sample_step 0 (EvOpen 1 0) P0); vm_compute; reflexivity. }
  assert (P2 : publishing id (sample_state 2) (sample_published 2)).
  { apply (sample_step 1 (EvMessage 1 (inr subscribe_text)) P1); [|vm_compute; reflexivity..].
    split; [eexists; vm_compute; reflexivity|exact Hr]. }
  assert (P3 : publishing id (sample_state 3) (sample_published 3)).
  { apply (sample_step 2 (EvFrame 0 (response_frame book1)) P2); [|vm_compute; reflexivity..].
    exists 2, MDReject.NONE, L2. split; [reflexivity|]. split; [reflexivity|]. intros _. exists book1. split; [vm_compute; reflexivity|].
    split; [exact Hs1|]. left. intros ws sd Hin E'.
    assert (Hx : subscribers (sample_state 2) L2 (view (mdu_symbol (response_frame book1))) = {[1]}) by (vm_compute; reflexivity).
    rewrite Hx, elem_of_singleton in Hin. subst ws. vm_compute in E'. injection E' as <-. vm_compute. reflexivity. }
  assert (P4 : publishing id (sample_state 4) (sample_published 4)).
  { apply (sample_step 3 (EvOpen 2 0) P3); vm_compute; reflexivity. }
  assert (P5 : publishing id (sample_state 5) (sample_published 5)).
  { apply (sample_step 4 (EvFrame 0 (snapshot_frame book2)) P4); [|vm_compute; reflexivity..].
    exists (sample_snapshot book2), book2. split; [reflexivity|]. split; [vm_compute; reflexivity|exact Hs2]. }
  assert (P6 : publishing id (sample_state 6) (sample_published 6)).
  { apply (sample_step 5 (EvMessage 2 (inr subscribe_text)) P5); [|vm_compute; reflexivity..].
    split; [eexists; vm_compute; reflexivity|exact Hr]. }
  assert (E : {[str "BTC" := book2]} = sample_published 6) by (vm_compute; reflexivity).
  rewrite E. exact P6.
Qed.

(** The first subscriber was sent a snapshot and then a diff. *)
Lemma l2_subscribers_hold_book_witness :
  exists sd, pb_sockets sample_publisher !! 1 = Some sd
    /\ exists b, ({[str "BTC" := book2]} : gmap bytes Book) !! str "BTC" = Some b /\ held_book Some (str "BTC") (sd_sent sd) = Some b.
Proof.
  destruct (l2_subscribers_hold_book id Some (fun p => eq_refl) sample_publisher _ sample_publishing) as [_ H].
  destruct (H 1 (str "BTC")) as (sd & E & Hh); [vm_compute; reflexivity|]. exists sd. split; [exact E|]. apply Hh.
  vm_compute in E. injection E as <-. vm_compute. congruence.
Defined.

(** The second subscriber's response shows a book without the offer at 100, which the first
    was never told is gone. *)
Lemma l2_response_strands_witness :
  exists p' p'' sd'', publish_subscription_response 0 sample_publisher (response_frame book3) = Some p'
    /\ publish_book_snapshot id 0 p' (snapshot_frame book3) = Some p''
    /\ pb_l2_diff_baseline p'' !! str "BTC" = Some book3
    /\ pb_sockets p'' !! 1 = Some sd'' /\ held_book Some (str "BTC") (sd_sent sd'') = Some book2.
Proof.
  destruct (pb_sockets sample_publisher !! 1) as [sd|] eqn:E; [|exfalso; vm_compute in E; congruence].
  assert (Hs3 : book_sane book3) by (repeat split; unfold best_first, in_width; cbn; repeat constructor; cbn; lia).
  apply (l2_response_strands id Some (fun p => eq_refl) sample_publisher {[str "BTC" := book2]} 0 0 (response_frame book3)
    (snapshot_frame book3) 1 (str "BTC") sd book2 book3 (sample_snapshot book3) (sample_snapshot book3)).
  - exact sample_publishing.
  - vm_compute. reflexivity.
  - exact E.
  - vm_compute in E. injection E as <-. vm_compute. congruence.
  - vm_compute in E. injection E as <-. vm_compute. reflexivity.
  - vm_compute. reflexivity.
  - reflexivity.
  - vm_compute. reflexivity.
  - exact Hs3.
  - vm_compute. congruence.
  - vm_compute. reflexivity.
  - reflexivity.
  - vm_compute. reflexivity.
Defined.
