(* ===== verification/CoinbaseFeed.v ===== *)
(** * Coinbase's live feed

    Models the feed side of [src/venues/coinbase/coinbase_exchange.cpp] and
    [coinbase_feed_callbacks.cpp]: the per-symbol queue that puts events of independent
    channels back into venue-time order, the sequence every book mutation is stamped with,
    and what an event, a level-2 snapshot or a trade snapshot does to the instrument. The
    SDK's batches are lists of records, its doubles already parsed; [std::priority_queue] is
    the list it holds, popped at its greatest element. Feeds, sockets, subscriptions and
    [poll] are SDK and I/O. *)

From S2P Require Import Prelude Types FixedString RingBuffer Orders Messages MarketData.
From S2P Require Import L3Interface OrderBook MatchCommon FifoEngine ProRata MatchingConfig.
From S2P Require Import Symbol SymbolManager Exchange.

Definition ONE_SECOND_NS : Z := 1000000000.

Inductive EventType := LEVEL_UPDATE | TRADE_PRINT.

#[export] Instance EventType_eq_dec : EqDecision EventType.
Proof. solve_decision. Defined.

Record Event := mkEvent {
  ev_type : EventType;
  ev_received_time : Z;
  ev_event_time : Z;
  ev_sequence_id : Z;
  ev_seq_num : Z;
  ev_price : price_t;
  ev_qty : qty_t;
  ev_side : Side;
  ev_flags : Z
}.

(** [EventCompare(a, b)]: [a] is processed after [b]. *)
Definition EventCompare (a b : Event) : bool :=
  if negb (ev_event_time a =? ev_event_time b) then ev_event_time b <? ev_event_time a
  else if negb (bool_decide (ev_type a = ev_type b)) then negb (bool_decide (ev_type a = TRADE_PRINT))
  else ev_sequence_id a <? ev_sequence_id b.

(** [top] and [pop]. *)
Fixpoint pop_event (q : list Event) : option (Event * list Event) :=
  match q with
  | [] => None
  | e :: r =>
      match pop_event r with
      | None => Some (e, [])
      | Some (t, r') => if EventCompare e t then Some (t, e :: r') else Some (e, r)
      end
  end.

Record SymbolEventState := mkEventState {
  es_pending_events : list Event;
  es_last_event_time : Z;
  es_last_sequence_id : Z;
  es_last_seq_num : Z;
  es_next_sequence_id : Z;
  es_last_published_level_seq_num : Z;
  es_level_update_buffer : list MDLevel;
  es_next_book_seq_num : Z
}.

#[export] Instance SymbolEventState_eta : Eta SymbolEventState := fun s =>
  mkEventState (es_pending_events s) (es_last_event_time s) (es_last_sequence_id s) (es_last_seq_num s)
    (es_next_sequence_id s) (es_last_published_level_seq_num s) (es_level_update_buffer s) (es_next_book_seq_num s).

Definition no_events : SymbolEventState := mkEventState [] 0 0 0 0 0 [] 0.

(** ** The SDK's batches *)

Record Level2Update := mkLevel2Update {
  lu_price_level : double;
  lu_new_quantity : double;
  lu_event_time : Z;
  lu_side : Side
}.

(** [tr_trade_id] is what [from_chars] reads of the id's text, if it reads a number. *)
Record MarketTrade := mkMarketTrade {
  tr_product_id : bytes;
  tr_trade_id : option Z;
  tr_price : double;
  tr_size : double;
  tr_time : Z;
  tr_side : Side
}.

(** ** Queueing *)

(** The end of both enqueueing loops. *)
Definition push_event (s : SymbolEventState) (evt : Z -> Event) : SymbolEventState :=
  let e := evt (es_next_sequence_id s) in
  s <| es_next_sequence_id ::= fun n => u64 (n + 1) |>
    <| es_last_event_time ::= fun t => if t <? ev_event_time e then ev_event_time e else t |>
    <| es_pending_events ::= fun q => q ++ [e] |>.

Section Coinbase.
Context {L3 Pool : Type} {l3ops : L3Ops L3} {poolops : ObjectPool Pool} {env : Environment}.
Abbreviation World := (World L3 Pool).
Abbreviation Desk := (Desk L3 Pool).
Abbreviation System := (System L3 Pool).

(** The index [OrderBookL3::getLevel] returns next to a level, or to none. *)
Variable level_index : L3 -> Side -> price_t -> Z.

(** One pass of [onLevel2Updates]' loop; [g] is the state of the clock. *)
Definition enqueue_level2 (seq_num : Z) (dispatched_last : bool) (s : SymbolEventState) (g : Globals)
  (update : Level2Update) : option (SymbolEventState * Globals) :=
  match to_price_t (lu_price_level update), to_qty_t (lu_new_quantity update) with
  | Some price, Some qty =>
      let now := env_clock (g_clock g) in
      Some (push_event s (fun sequence_id =>
              mkEvent LEVEL_UPDATE now (lu_event_time update) sequence_id seq_num price qty (lu_side update)
                (if dispatched_last then F_END_EVENT else F_NONE)),
            g <| g_clock ::= S |>)
  | _, _ => None
  end.

Fixpoint enqueue_level2_all (seq_num : Z) (first : bool) (s : SymbolEventState) (g : Globals)
  (updates : list Level2Update) : option (SymbolEventState * Globals) :=
  match updates with
  | [] => Some (s, g)
  | update :: rest =>
      match enqueue_level2 seq_num first s g update with
      | Some (s, g) => enqueue_level2_all seq_num false s g rest
      | None => None
      end
  end.

Definition enqueue_trade (seq_num : Z) (first : bool) (s : SymbolEventState) (g : Globals)
  (trade : MarketTrade) : option (SymbolEventState * Globals) :=
  match to_price_t (tr_price trade), to_qty_t (tr_size trade) with
  | Some price, Some qty =>
      let now := env_clock (g_clock g) in
      Some (push_event s (fun sequence_id =>
              mkEvent TRADE_PRINT now (tr_time trade) sequence_id seq_num price qty (tr_side trade)
                (if first then F_END_EVENT else F_NONE)),
            g <| g_clock ::= S |>)
  | _, _ => None
  end.

(** ** Dispatching *)

Definition nextBookSeqNum (b : OrderBook L3 Pool) (s : SymbolEventState) : Z * SymbolEventState :=
  let book_seq := getLastSeqNum (ob_l3 b) in
  let n := if es_next_book_seq_num s <? book_seq then book_seq else es_next_book_seq_num s in
  (u64 (n + 1), s <| es_next_book_seq_num := u64 (n + 1) |>).

Definition ends_event (event : Event) : bool := negb (Z.land (ev_flags event) F_END_EVENT =? 0).

(** The incoming aggressor of a new level or a print: what does not trade rests. *)
Definition take_and_rest (d : Desk) (side : Side) (price : price_t) (qty : qty_t) (event_time book_seq_num : Z)
  (last : bool) : option (Desk * list TradeSummaryInfo * qty_t) :=
  let '(order_id, w) := nextOrderId (d_world d) in
  match sym_matching_engine (d_symbol d) with
  | None => None
  | Some engine =>
      match engine_match_feed engine w side order_id price qty event_time book_seq_num with
      | None => None
      | Some (trade_summaries, qty, w) =>
          let w := if qty =? 0 then w else addBookOrder w order_id side price qty event_time book_seq_num last in
          Some (d <| d_world := w |>, trade_summaries, qty)
      end
  end.

Definition credit_summary (side : Side) (event_time : time_t) (d : Desk) (summary : TradeSummaryInfo) : Desk :=
  publishTradeSummary
    (d <| d_symbol ::= fun s => s <| sym_traded_qty_credit ::= fun c =>
            creditTradedQty c (opposite_side side) (ts_price summary) (ts_phantom_qty summary) event_time |> |>)
    summary.

(** What an event does to the book, and the action its row starts from. *)
Definition apply_level_event (d : Desk) (event : Event) (book_seq_num : Z) : option (Desk * MDUpdateAction) :=
  match getLevel (ob_l3 (w_book (d_world d))) (ev_side event) (ev_price event) with
  | None =>
      match take_and_rest d (ev_side event) (ev_price event) (ev_qty event) (ev_event_time event) book_seq_num
              (ends_event event) with
      | None => None
      | Some (d, trade_summaries, qty) =>
          Some (flushMarketDataCaches (publishTradeSummaries d trade_summaries),
                if qty =? 0 then ACTION_CHANGE else ACTION_NEW)
      end
  | Some _ =>
      Some (reconcilePhantomQty d (ev_side event) (ev_price event) (ev_qty event) (ev_event_time event) book_seq_num
              (ends_event event), ACTION_CHANGE)
  end.

(** The rows of an earlier sequence go out before the row of this event joins the buffer. *)
Definition flush_level_buffer (d : Desk) (s : SymbolEventState) (event : Event) : Desk * SymbolEventState :=
  let s := if es_last_published_level_seq_num s =? 0
           then s <| es_last_published_level_seq_num := ev_seq_num event |> else s in
  match last (es_level_update_buffer s) with
  | Some row =>
      if negb (ev_seq_num event =? es_last_published_level_seq_num s) then
        (d <| d_world ::= fun w => publishLevelUpdate (d_exchange d) w (sym_symbol (d_symbol d)) (es_level_update_buffer s) |>,
         s <| es_last_published_level_seq_num := ml_seq_num row |> <| es_level_update_buffer := [] |>)
      else (d, s)
  | None => (d, s)
  end.

Definition event_row (event : Event) (known : bool) (index : Z) (action : MDUpdateAction) (b : OrderBook L3 Pool) : MDLevel :=
  let new_level := getLevel (ob_l3 b) (ev_side event) (ev_price event) in
  mkMDLevel (ev_event_time event) (ev_seq_num event) (ev_price event)
    (match new_level with Some l => lv_total_quantity l | None => 0 end)
    (match new_level with Some l => u32 (Z.of_nat (List.length (lv_orders l))) | None => 0 end)
    (match new_level with
     | Some _ => if known then index else level_index (ob_l3 b) (ev_side event) (ev_price event)
     | None => index
     end)
    (match new_level with Some _ => action | None => ACTION_DELETE end)
    (ev_flags event) (ev_side event).

Definition dispatchEvent (d : Desk) (event : Event) (s : SymbolEventState) (book_seq_num : Z)
  : option (Desk * SymbolEventState) :=
  match ev_type event with
  | LEVEL_UPDATE =>
      let b := w_book (d_world d) in
      if ev_event_time event <? ob_last_update_time b then Some (d, s)
      else
        let index := level_index (ob_l3 b) (ev_side event) (ev_price event) in
        let known := bool_decide (is_Some (getLevel (ob_l3 b) (ev_side event) (ev_price event))) in
        match apply_level_event d event book_seq_num with
        | None => None
        | Some (d, action) =>
            let d := desk_book d (fun b => setLastUpdate b (ev_event_time event) (ev_seq_num event)) in
            let '(d, s) := flush_level_buffer d s event in
            let row := event_row event known index action (w_book (d_world d)) in
            Some (d, s <| es_level_update_buffer ::= fun l => l ++ [row] |>)
        end
  | TRADE_PRINT =>
      match take_and_rest d (ev_side event) (ev_price event) (ev_qty event) (ev_event_time event) book_seq_num
              (ends_event event) with
      | None => None
      | Some (d, trade_summaries, _) =>
          Some (flushMarketDataCaches (fold_left (credit_summary (ev_side event) (ev_event_time event)) trade_summaries d), s)
      end
  end.

(** An event may leave the queue: a second behind the newest seen, or a second in it. *)
Definition event_ready (force : bool) (now : Z) (s : SymbolEventState) (event : Event) : bool :=
  if force then true
  else
    let safe_by_time_gap := (0 <? es_last_event_time s)
                            && (u64 (ev_event_time event + ONE_SECOND_NS) <=? es_last_event_time s) in
    let safe_by_timeout := ONE_SECOND_NS <=? u64 (now - ev_received_time event) in
    safe_by_time_gap || safe_by_timeout.

Definition release_event (d : Desk) (s : SymbolEventState) (event : Event) : option (Desk * SymbolEventState) :=
  let '(book_seq_num, s) := nextBookSeqNum (w_book (d_world d)) s in
  match dispatchEvent d event s book_seq_num with
  | None => None
  | Some (d, s) => Some (d, s <| es_last_sequence_id := ev_sequence_id event |> <| es_last_seq_num := ev_seq_num event |>)
  end.

(** The loop over one symbol's queue: every pass pops an event, so the queue's length is
    fuel enough. *)
Fixpoint process_symbol (fuel : nat) (force : bool) (now : Z) (d : Desk) (s : SymbolEventState)
  : option (Desk * SymbolEventState) :=
  match fuel with
  | O => Some (d, s)
  | S fuel =>
      match pop_event (es_pending_events s) with
      | None => Some (d, s)
      | Some (event, rest) =>
          if event_ready force now s event then
            match release_event d (s <| es_pending_events := rest |>) event with
            | Some (d, s) => process_symbol fuel force now d s
            | None => None
            end
          else Some (d, s)
      end
  end.

(** ** Snapshots *)

(** One level of a snapshot, stamped with the snapshot's own sequence. *)
Definition snapshot_level (d : Desk) (seq_num book_seq_num : Z) (update : Level2Update) (last : bool) : option Desk :=
  match to_price_t (lu_price_level update), to_qty_t (lu_new_quantity update) with
  | Some price, Some qty =>
      match take_and_rest d (lu_side update) price qty (lu_event_time update) book_seq_num last with
      | None => None
      | Some (d, trade_summaries, _) =>
          let d := publishTradeSummaries d trade_summaries in
          Some (if ob_last_update_time (w_book (d_world d)) <? lu_event_time update
                then desk_book d (fun b => setLastUpdate b (lu_event_time update) seq_num) else d)
      end
  | _, _ => None
  end.

Fixpoint snapshot_levels (d : Desk) (seq_num book_seq_num : Z) (updates : list Level2Update) : option Desk :=
  match updates with
  | [] => Some d
  | update :: rest =>
      match snapshot_level d seq_num book_seq_num update (match rest with [] => true | _ => false end) with
      | Some d => snapshot_levels d seq_num book_seq_num rest
      | None => None
      end
  end.

(** The book rebuilt: everything queued or buffered for the old one is dropped. [updates] in
    reverse is the order they are applied in. *)
Definition rebuild_book (d : Desk) (s : SymbolEventState) (seq_num : Z) (updates : list Level2Update)
  : option (Desk * SymbolEventState) :=
  let d := desk_book d clearMDOrders in
  let s := s <| es_pending_events := [] |> <| es_level_update_buffer := [] |>
             <| es_last_published_level_seq_num := 0 |> in
  let '(book_seq_num, s) := nextBookSeqNum (w_book (d_world d)) s in
  match snapshot_levels d seq_num book_seq_num (rev updates) with
  | None => None
  | Some d => Some (d, s)
  end.

(** [LEVEL2]'s channel number is the SDK's. *)
Definition publish_rebuilt (level2_channel : Z) (pending : bool) (d : Desk) : Desk :=
  d <| d_world ::= fun w =>
         (if pending then populateL2SubscriptionResponse w level2_channel else populateL2Snapshot w)
           <| w_book ::= fun b => b <| ob_md_level_update_cache := [] |> <| ob_md_order_update_cache := [] |> |> |>.

(** One print of a trade snapshot, into the tape only. *)
Definition seed_trade (seq_num : Z) (d : Desk) (trade : MarketTrade) : option Desk :=
  match to_price_t (tr_price trade), to_qty_t (tr_size trade) with
  | Some price, Some qty =>
      let '(trade_id, e) :=
        match tr_trade_id trade with
        | None => nextVenueTradeId (d_exchange d)
        | Some trade_id =>
            (trade_id, if ex_next_trade_id (d_exchange d) <=? trade_id
                       then (d_exchange d) <| ex_next_trade_id := u64 (trade_id + 1) |> else d_exchange d)
        end in
      Some (d <| d_exchange := e |>
              <| d_symbol ::= fun s =>
                   symbol_recordTrade s (mkMDTrade trade_id (tr_time trade) seq_num price qty F_NOT_IN_BOOK (tr_side trade)) |>)
  | _, _ => None
  end.

(** Coinbase lists the newest first; the tape is filled from the oldest. *)
Fixpoint seed_trades (seq_num : Z) (d : Desk) (trades : list MarketTrade) : option Desk :=
  match trades with
  | [] => Some d
  | trade :: rest => match seed_trade seq_num d trade with Some d => seed_trades seq_num d rest | None => None end
  end.

(** ** The venue *)

Record CoinbaseExchange := mkCoinbase {
  cb_system : System;
  cb_symbol_event_state : gmap nat SymbolEventState;
  cb_pending_level2 : gset nat;
  cb_pending_trades : gset nat
}.

#[export] Instance CoinbaseExchange_eta : Eta CoinbaseExchange := fun c =>
  mkCoinbase (cb_system c) (cb_symbol_event_state c) (cb_pending_level2 c) (cb_pending_trades c).

(** [symbol_event_state_[symbol]] creates what is missing. *)
Definition event_state (c : CoinbaseExchange) (i : nat) : SymbolEventState :=
  default no_events (cb_symbol_event_state c !! i).

Definition find_product (c : CoinbaseExchange) (product_id : bytes) : option nat :=
  getSymbol (sys_symbols (cb_system c)) product_id (ex_venue (sys_exchange (cb_system c))).

(** A handler on one instrument and its events. *)
Definition on_feed (c : CoinbaseExchange) (i : nat)
  (f : Desk -> SymbolEventState -> option (Desk * SymbolEventState)) : option CoinbaseExchange :=
  match desk_at (cb_system c) i with
  | None => None
  | Some d =>
      match f d (event_state c i) with
      | None => None
      | Some (d, s) => Some (c <| cb_system ::= fun sys => put_desk sys d |> <| cb_symbol_event_state ::= <[i := s]> |>)
      end
  end.

(** The iteration order over the hash map is unspecified; [map_to_list] is one of them. *)
Definition processSequencedEvents (c : CoinbaseExchange) (force : bool) : option CoinbaseExchange :=
  let now := env_clock (g_clock (sys_glob (cb_system c))) in
  let c := c <| cb_system ::= fun sys => sys <| sys_glob ::= fun g => g <| g_clock ::= S |> |> |> in
  fold_left (fun c i =>
    match c with
    | None => None
    | Some c => on_feed c i (fun d s => process_symbol (List.length (es_pending_events s)) force now d s)
    end) (map fst (map_to_list (cb_symbol_event_state c))) (Some c).

Definition onLevel2Updates (c : CoinbaseExchange) (seq_num : Z) (product_id : bytes) (updates : list Level2Update)
  : option CoinbaseExchange :=
  match find_product c product_id with
  | None => Some c
  | Some i =>
      match enqueue_level2_all seq_num true (event_state c i) (sys_glob (cb_system c)) (rev updates) with
      | None => None
      | Some (s, g) => Some (c <| cb_symbol_event_state ::= <[i := s]> |>
                               <| cb_system ::= fun sys => sys <| sys_glob := g |> |>)
      end
  end.

(** The marker goes to the batch's first trade, whichever product it is of. *)
Fixpoint enqueue_trades (seq_num : Z) (first : bool) (c : CoinbaseExchange) (trades : list MarketTrade)
  : option CoinbaseExchange :=
  match trades with
  | [] => Some c
  | trade :: rest =>
      match find_product c (tr_product_id trade) with
      | None => enqueue_trades seq_num false c rest
      | Some i =>
          match enqueue_trade seq_num first (event_state c i) (sys_glob (cb_system c)) trade with
          | None => None
          | Some (s, g) =>
              enqueue_trades seq_num false
                (c <| cb_symbol_event_state ::= <[i := s]> |> <| cb_system ::= fun sys => sys <| sys_glob := g |> |>) rest
          end
      end
  end.

Definition onMarketTrades (c : CoinbaseExchange) (seq_num : Z) (trades : list MarketTrade) : option CoinbaseExchange :=
  enqueue_trades seq_num true c trades.

Definition onLevel2Snapshot (level2_channel : Z) (c : CoinbaseExchange) (seq_num : Z) (product_id : bytes)
  (updates : list Level2Update) : option CoinbaseExchange :=
  match find_product c product_id with
  | None => Some c
  | Some i =>
      let pending := bool_decide (i ∈ cb_pending_level2 c) in
      let c' := on_feed c i (fun d s =>
        match rebuild_book d s seq_num updates with
        | None => None
        | Some (d, s) => Some (publish_rebuilt level2_channel pending d, s)
        end) in
      (fun c => if pending then c <| cb_pending_level2 ::= fun p => p ∖ {[i]} |> else c) <$> c'
  end.

Definition onMarketTradesSnapshot (trades_channel : Z) (c : CoinbaseExchange) (seq_num : Z)
  (snapshots : list MarketTrade) : option CoinbaseExchange :=
  match snapshots with
  | [] => Some c
  | newest :: _ =>
      match find_product c (tr_product_id newest) with
      | None => Some c
      | Some i =>
          if negb (bool_decide (i ∈ cb_pending_trades c)) then Some c
          else
            (fun sys => c <| cb_system := sys |> <| cb_pending_trades ::= fun p => p ∖ {[i]} |>) <$>
            on_desk (cb_system c) i (fun d =>
              match seed_trades seq_num d (rev snapshots) with
              | None => None
              | Some d => Some (publishTradeSubscriptionResponse d trades_channel)
              end)
      end
  end.
End Coinbase.
Arguments CoinbaseExchange : clear implicits.
