(* ===== verification/CoinbaseOrder.v ===== *)
(** * The order Coinbase's events are dispatched in

    The comparison of the queue is a lexicographic order - venue time, trades before level
    updates, then the queue's own numbers backwards - so what is popped is determined by
    what is queued, and the two enqueueing loops, which walk their batches in opposite
    directions, both come out chronological. *)

From stdpp Require Import sorting.
From S2P Require Import Prelude Types FixedString RingBuffer Orders Messages MarketData.
From S2P Require Import L3Interface OrderBook MatchCommon FifoEngine ProRata MatchingConfig.
From S2P Require Import Symbol SymbolManager Exchange CoinbaseFeed.
From S2P Require Import L3Reference Concrete DeskState SystemProofs.

(** [a] is dispatched before [b]. *)
Definition before (a b : Event) : Prop := EventCompare b a = true.

Definition type_rank (t : EventType) : Z := match t with TRADE_PRINT => 0 | LEVEL_UPDATE => 1 end.

Lemma before_lex a b :
  before a b <->
  ev_event_time a < ev_event_time b
  \/ (ev_event_time a = ev_event_time b
      /\ (type_rank (ev_type a) < type_rank (ev_type b)
          \/ (type_rank (ev_type a) = type_rank (ev_type b) /\ ev_sequence_id b < ev_sequence_id a))).
Proof.
  unfold before, EventCompare. destruct (ev_event_time b =? ev_event_time a) eqn:E; bool_to_prop; cbn [negb].
  2: { rewrite Z.ltb_lt. lia. }
  destruct (ev_type a) eqn:Ta, (ev_type b) eqn:Tb; repeat case_bool_decide; try done; cbn [negb type_rank]; rewrite ?Z.ltb_lt.
  - lia.
  - split; [done|lia].
  - split; [lia|done].
  - lia.
Qed.

Lemma before_trans a b c : before a b -> before b c -> before a c.
Proof. rewrite !before_lex. lia. Qed.

Lemma before_irrefl a : ~ before a a.
Proof. rewrite before_lex. lia. Qed.

Lemma before_total a b : ev_sequence_id a <> ev_sequence_id b -> before a b \/ before b a.
Proof. rewrite !before_lex. destruct (ev_type a), (ev_type b); cbn; lia. Qed.

(** ** What is popped *)

Lemma pop_event_spec q t r :
  pop_event q = Some (t, r) -> q ≡ₚ t :: r /\ Forall (fun e => ~ before e t) r.
Proof.
  revert t r. induction q as [|e q IH]; intros t r; [done|]. cbn [pop_event]. destruct (pop_event q) as [[t' r']|] eqn:E.
  - destruct (IH t' r' eq_refl) as [Hp Hf]. destruct (EventCompare e t') eqn:Ec; intros [= <- <-].
    + split; [rewrite Hp; apply Permutation_swap|]. constructor; [|done]. intros Hb. apply (before_irrefl e).
      by eapply before_trans; [exact Hb|].
    + split; [done|]. rewrite Hp. constructor; [unfold before; congruence|]. apply Forall_forall. intros x Hx Hb.
      rewrite Forall_forall in Hf. assert (Hn : ~ before t' e) by (unfold before; congruence).
      apply (Hf x Hx). destruct (decide (ev_sequence_id t' = ev_sequence_id e)) as [Hs|Hs].
      * rewrite before_lex in *. destruct (ev_type x), (ev_type e), (ev_type t'); cbn in *; lia.
      * destruct (before_total t' e Hs) as [|Ht]; [done|]. by eapply before_trans.
  - destruct q; [|cbn in E; destruct (pop_event q) as [[? ?]|]; [by case_match|done]]. intros [= <- <-]. split; [done|constructor].
Qed.

Lemma pop_event_some e q : is_Some (pop_event (e :: q)).
Proof. cbn. destruct (pop_event q) as [[t r]|]; [|by eexists]. case_match; by eexists. Qed.

(** Popping until the queue is empty. *)
Fixpoint dispatch_order (fuel : nat) (q : list Event) : list Event :=
  match fuel with
  | O => []
  | S fuel => match pop_event q with Some (e, r) => e :: dispatch_order fuel r | None => [] end
  end.

Definition whole_order (q : list Event) : list Event := dispatch_order (List.length q) q.

Definition distinct_ids (q : list Event) : Prop := NoDup (map ev_sequence_id q).

Lemma whole_order_perm q : whole_order q ≡ₚ q.
Proof.
  unfold whole_order. remember (List.length q) as n eqn:En. revert q En. induction n as [|n IH]; intros q En; [by destruct q|].
  cbn [dispatch_order]. destruct q as [|e q]; [done|]. destruct (pop_event_some e q) as [[t r] E]. rewrite E.
  destruct (pop_event_spec _ _ _ E) as [Hp _]. rewrite Hp. constructor. apply IH.
  apply Permutation_length in Hp. cbn in *. lia.
Qed.

Lemma distinct_perm q q' : q ≡ₚ q' -> distinct_ids q -> distinct_ids q'.
Proof. unfold distinct_ids. intros Hp. by rewrite Hp. Qed.

Lemma whole_order_sorted q : distinct_ids q -> StronglySorted before (whole_order q).
Proof.
  unfold whole_order. remember (List.length q) as n eqn:En. revert q En. induction n as [|n IH]; intros q En Hd; [constructor|].
  cbn [dispatch_order]. destruct q as [|e q]; [done|]. destruct (pop_event_some e q) as [[t r] E]. rewrite E.
  destruct (pop_event_spec _ _ _ E) as [Hp Hf]. assert (Hlen : n = List.length r) by (apply Permutation_length in Hp; cbn in *; lia).
  pose proof (distinct_perm _ _ Hp Hd) as Hd'. unfold distinct_ids in Hd'. cbn in Hd'. apply NoDup_cons in Hd' as [Hn Hd'].
  constructor; [by apply IH|]. subst n. apply Forall_forall. intros x Hx.
  assert (Hxr : x ∈ r) by (by rewrite <- (whole_order_perm r)).
  rewrite Forall_forall in Hf. destruct (before_total t x) as [|Hb]; [|done|by destruct (Hf x Hxr)].
  intros Es. apply Hn. rewrite Es. by apply list_elem_of_fmap_2.
Qed.

Lemma sorted_unique l l' : StronglySorted before l -> StronglySorted before l' -> l ≡ₚ l' -> l = l'.
Proof.
  revert l'. induction l as [|x l IH]; intros l' Hs Hs' Hp.
  { by apply Permutation_nil in Hp. }
  destruct l' as [|y l']; [symmetry in Hp; by apply Permutation_nil in Hp|].
  inversion Hs as [|? ? Sl Fl]; subst. inversion Hs' as [|? ? Sl' Fl']; subst. rewrite Forall_forall in Fl, Fl'.
  assert (x = y) as <-.
  { assert (Hx : x ∈ y :: l') by (rewrite <- Hp; by left). assert (Hy : y ∈ x :: l) by (rewrite Hp; by left).
    rewrite elem_of_cons in Hx, Hy. destruct Hx as [|Hx]; [done|]. destruct Hy as [|Hy]; [done|]. exfalso.
    apply (before_irrefl x). eapply before_trans; [by apply Fl|by apply Fl']. }
  f_equal. apply IH; [done|done|]. by apply (Permutation_cons_inv (a := x)).
Qed.

Lemma sorted_filter (f : Event -> bool) l : StronglySorted before l -> StronglySorted before (List.filter f l).
Proof.
  induction 1 as [|x l Hs IH Hf]; [constructor|]. cbn. destruct (f x); [|done]. constructor; [done|].
  rewrite Forall_forall in Hf |- *. intros y Hy. apply Hf. rewrite list_elem_of_In in Hy |- *. by apply List.filter_In in Hy as [].
Qed.

Lemma filter_perm {A} (f : A -> bool) l l' : l ≡ₚ l' -> List.filter f l ≡ₚ List.filter f l'.
Proof.
  induction 1 as [|x l l' _ IH|x y l|l1 l2 l3 _ IH1 _ IH2]; cbn; [done| | |by etrans].
  - destruct (f x); [by constructor|done].
  - destruct (f x), (f y); done || apply Permutation_swap.
Qed.

(** ** A batch *)

(** What an event says. *)
Definition content (e : Event) : Z * price_t * qty_t * Side := (ev_event_time e, ev_price e, ev_qty e, ev_side e).
Definition content_time (c : Z * price_t * qty_t * Side) : Z := fst (fst (fst c)).

(** A queue whose numbers are distinct and all drawn, with room for [n] more. *)
Record queue_ok (s : SymbolEventState) (n : Z) : Prop := {
  qo_distinct : distinct_ids (es_pending_events s);
  qo_drawn : Forall (fun e => ev_sequence_id e < es_next_sequence_id s) (es_pending_events s);
  qo_room : 0 <= es_next_sequence_id s /\ es_next_sequence_id s + n < 2 ^ 64
}.

(** [evs] joined the queue under consecutive numbers. *)
Record joined (t : EventType) (s : SymbolEventState) (evs : list Event) (s' : SymbolEventState) : Prop := {
  jn_pending : es_pending_events s' = es_pending_events s ++ evs;
  jn_next : es_next_sequence_id s' = es_next_sequence_id s + Z.of_nat (List.length evs);
  jn_numbers : map ev_sequence_id evs
    = map (fun i => es_next_sequence_id s + Z.of_nat i) (seq 0 (List.length evs));
  jn_type : Forall (fun e => ev_type e = t) evs
}.

Lemma seq_shift_numbers n k :
  map (fun i => n + 1 + Z.of_nat i) (seq 0 k) = map (fun i => n + Z.of_nat i) (seq 1 k).
Proof. rewrite <- seq_shift, map_map. apply map_ext. intros i. lia. Qed.

Lemma push_joined t s evt n :
  queue_ok s n -> 0 < n -> ev_type (evt (es_next_sequence_id s)) = t ->
  ev_sequence_id (evt (es_next_sequence_id s)) = es_next_sequence_id s ->
  joined t s [evt (es_next_sequence_id s)] (push_event s evt) /\ queue_ok (push_event s evt) (n - 1).
Proof.
  intros [Hd Hl [H0 Hr]] Hn Ht Hi. assert (Enext : es_next_sequence_id (push_event s evt) = es_next_sequence_id s + 1).
  { cbn. apply wrap_small. lia. }
  assert (Ep : es_pending_events (push_event s evt) = es_pending_events s ++ [evt (es_next_sequence_id s)]) by done.
  split.
  - split; [done|by rewrite Enext| |by constructor]. cbn. rewrite Hi. f_equal. lia.
  - split; rewrite ?Ep, ?Enext; [| |lia].
    + unfold distinct_ids. rewrite map_app. apply NoDup_app. split; [done|]. split; [|apply NoDup_singleton].
      intros i (e & -> & He)%list_elem_of_fmap [E|E%elem_of_nil]%elem_of_cons; [|done]. rewrite Forall_forall in Hl.
      specialize (Hl e He). lia.
    + apply Forall_app. split; [|constructor; [lia|constructor]]. eapply Forall_impl; [exact Hl|]. cbn. lia.
Qed.

Lemma joined_cons t s e s1 evs s' :
  joined t s [e] s1 -> joined t s1 evs s' -> joined t s (e :: evs) s'.
Proof.
  intros [A1 A2 A3 A4] [B1 B2 B3 B4]. split.
  - by rewrite B1, A1, <- app_assoc.
  - rewrite B2, A2. cbn [List.length]. lia.
  - cbn [map List.length seq] in *. injection A3 as A3. rewrite A3, B3, A2. cbn [List.length]. f_equal.
    rewrite <- seq_shift_numbers. apply map_ext. intros i. lia.
  - apply Forall_cons. split; [by inversion A4|done].
Qed.

#[export] Instance Event_eq_dec : EqDecision Event.
Proof. solve_decision. Defined.

(** ** Enqueueing a batch, of either kind *)

Section Enqueue.
Context {X : Type}.
Variable one : bool -> SymbolEventState -> Globals -> X -> option (SymbolEventState * Globals).
Variable t : EventType.
Variable says : X -> Z * price_t * qty_t * Side -> Prop.

Hypothesis one_pushes : forall first s g x s' g', one first s g x = Some (s', g') ->
  exists evt, s' = push_event s evt /\ forall i, ev_type (evt i) = t /\ ev_sequence_id (evt i) = i
    /\ ev_flags (evt i) = (if first then F_END_EVENT else F_NONE) /\ says x (content (evt i)).

Fixpoint enqueue_all (first : bool) (s : SymbolEventState) (g : Globals) (l : list X) : option (SymbolEventState * Globals) :=
  match l with
  | [] => Some (s, g)
  | x :: rest => match one first s g x with Some (s, g) => enqueue_all false s g rest | None => None end
  end.

(** The marker is on the first of the batch, if anywhere. *)
Definition marked_first (first : bool) (evs : list Event) : Prop :=
  match evs with
  | [] => True
  | e :: r => ev_flags e = (if first then F_END_EVENT else F_NONE) /\ Forall (fun e => ev_flags e = F_NONE) r
  end.

Lemma enqueue_all_joins l : forall first s g s' g' n,
  enqueue_all first s g l = Some (s', g') -> queue_ok s n -> Z.of_nat (List.length l) <= n ->
  exists evs, joined t s evs s' /\ queue_ok s' (n - Z.of_nat (List.length l))
    /\ Forall2 (fun x e => says x (content e)) l evs /\ marked_first first evs.
Proof.
  induction l as [|x l IH]; intros first s g s' g' n; cbn [enqueue_all List.length].
  - intros [= <- <-] Hq _. exists []. split; [|split; [by replace (n - Z.of_nat 0) with n by lia|done]].
    split; cbn; rewrite ?app_nil_r; [done|lia|done|done].
  - destruct (one first s g x) as [[s1 g1]|] eqn:E1; [|done]. intros E Hq Hn.
    destruct (one_pushes _ _ _ _ _ _ E1) as (evt & -> & Hevt). set (i := es_next_sequence_id s).
    destruct (Hevt i) as (T1 & T2 & T3 & T4). destruct (push_joined t s evt n Hq ltac:(lia) T1 T2) as [J1 Q1].
    destruct (IH false _ g1 s' g' (n - 1) E Q1 ltac:(lia)) as (evs & J2 & Q2 & F2 & M2).
    exists (evt i :: evs). split; [by eapply joined_cons|]. split; [by replace (n - _) with (n - 1 - Z.of_nat (List.length l)) by lia|].
    split; [by constructor|]. split; [done|]. destruct evs as [|e r]; [constructor|]. by constructor; apply M2.
Qed.

(** Venue times do not grow along the batch as it is enqueued. *)
Lemma joined_reverse s evs s' :
  joined t s evs s' -> StronglySorted (fun a b => content_time b <= content_time a) (map content evs) ->
  StronglySorted before (rev evs).
Proof.
  intros [_ _ Hnum Htype] Hs. clear - Hnum Htype Hs. set (n := es_next_sequence_id s) in *. clearbody n.
  revert n Hnum. induction evs as [|e evs IH]; intros n Hnum; [constructor|]. cbn [map List.length seq rev] in *.
  injection Hnum as En Hnum. inversion Htype as [|? ? Te Tr]; subst. inversion Hs as [|? ? Ss Sf]; subst.
  assert (Hnum' : map ev_sequence_id evs = map (fun i => n + 1 + Z.of_nat i) (seq 0 (List.length evs))).
  { rewrite Hnum, seq_shift_numbers. done. }
  specialize (IH Tr Ss (n + 1) Hnum'). clear Hnum. assert (Hall : Forall (fun x => before x e) evs).
  { apply Forall_forall. intros x Hx. rewrite Forall_forall in Tr. rewrite Forall_forall in Sf. apply before_lex.
    specialize (Tr x Hx). cbn beta in Tr. rewrite Tr. assert (Hid : ev_sequence_id x ∈ map ev_sequence_id evs) by by apply list_elem_of_fmap_2.
    rewrite Hnum' in Hid. apply list_elem_of_fmap in Hid as (k & Ek & _).
    specialize (Sf (content x) ltac:(by apply list_elem_of_fmap_2)). unfold content_time, content in Sf. cbn in Sf. lia. }
  clear - IH Hall. assert (Hrev : Forall (fun x => before x e) (rev evs)) by (by apply Forall_rev).
  induction IH as [|y l Hs IHs Hf]; cbn [app]; [repeat constructor|]. inversion Hrev; subst. constructor; [by apply IHs|].
  apply Forall_app. split; [done|by constructor].
Qed.
End Enqueue.

(** What of a queue's order comes from one batch. *)
Definition of_batch (evs : list Event) (l : list Event) : list Event := List.filter (fun e => bool_decide (e ∈ evs)) l.

Lemma of_batch_perm q evs old new :
  distinct_ids q -> q = old ++ evs ++ new -> of_batch evs q ≡ₚ evs.
Proof.
  intros Hd ->. unfold of_batch. rewrite !List.filter_app.
  assert (Hnone : forall l, (forall e, e ∈ l -> e ∉ evs) -> List.filter (fun e => bool_decide (e ∈ evs)) l = []).
  { induction l as [|e l IH]; [done|]. intros Hl. cbn. rewrite bool_decide_eq_false_2 by (apply Hl; by left). apply IH.
    intros x Hx. apply Hl. by right. }
  unfold distinct_ids in Hd. rewrite !map_app in Hd. apply NoDup_app in Hd as (_ & H1 & Hd). apply NoDup_app in Hd as (_ & H2 & _).
  rewrite (Hnone old), (Hnone new).
  - rewrite app_nil_r. cbn. assert (Hall : forall l, (forall e, e ∈ l -> e ∈ evs) -> List.filter (fun e => bool_decide (e ∈ evs)) l = l).
    { induction l as [|e l IH]; [done|]. intros Hl. cbn. rewrite bool_decide_eq_true_2 by (apply Hl; by left). f_equal. apply IH.
      intros x Hx. apply Hl. by right. }
    by rewrite Hall.
  - intros e He He'. apply (H2 (ev_sequence_id e)); by apply list_elem_of_fmap_2.
  - intros e He He'. apply (H1 (ev_sequence_id e)); [by apply list_elem_of_fmap_2|]. apply elem_of_app. left. by apply list_elem_of_fmap_2.
Qed.

(** A batch enqueued backwards comes out forwards. *)
Lemma batch_dispatched q evs old new :
  distinct_ids q -> q = old ++ evs ++ new -> StronglySorted before (rev evs) ->
  of_batch evs (whole_order q) = rev evs.
Proof.
  intros Hd Hq Hs. apply sorted_unique; [by apply sorted_filter, whole_order_sorted|done|].
  etrans; [apply filter_perm, whole_order_perm|]. etrans; [by eapply of_batch_perm|apply Permutation_rev].
Qed.

(** The marker closes the batch on the last event dispatched. *)
Definition marked_last (l : list Event) : Prop :=
  l = [] \/ exists l0 e, l = l0 ++ [e] /\ ev_flags e = F_END_EVENT /\ Forall (fun e => ev_flags e = F_NONE) l0.

Lemma marked_rev evs : marked_first true evs -> marked_last (rev evs).
Proof.
  destruct evs as [|e r]; [by left|]. intros [He Hr]. right. exists (rev r), e. split; [done|]. split; [done|]. by apply Forall_rev.
Qed.

Definition level2_says (u : Level2Update) (c : Z * price_t * qty_t * Side) : Prop :=
  exists p q, to_price_t (lu_price_level u) = Some p /\ to_qty_t (lu_new_quantity u) = Some q
    /\ c = (lu_event_time u, p, q, lu_side u).

Definition trade_says (u : MarketTrade) (c : Z * price_t * qty_t * Side) : Prop :=
  exists p q, to_price_t (tr_price u) = Some p /\ to_qty_t (tr_size u) = Some q /\ c = (tr_time u, p, q, tr_side u).

Lemma says_times {X} (time : X -> Z) (says : X -> Z * price_t * qty_t * Side -> Prop) l evs :
  (forall x c, says x c -> content_time c = time x) -> Forall2 (fun x e => says x (content e)) l evs ->
  StronglySorted (fun a b => time b <= time a) l ->
  StronglySorted (fun a b => content_time b <= content_time a) (map content evs).
Proof.
  intros Ht. induction 1 as [|x e l evs Hx Hl IH]; [constructor|]. inversion 1 as [|? ? Ss Sf]; subst. cbn [map].
  constructor; [by apply IH|]. apply Forall_forall. intros c (e' & -> & He')%list_elem_of_fmap. rewrite (Ht _ _ Hx).
  apply list_elem_of_lookup in He' as [k Hk]. destruct (Forall2_lookup_r _ _ _ _ _ Hl Hk) as (x' & Hx' & Hs).
  rewrite (Ht _ _ Hs). rewrite Forall_forall in Sf. by apply Sf; eapply list_elem_of_lookup_2.
Qed.

Lemma sorted_rev {X} (R : X -> X -> Prop) l : StronglySorted R l -> StronglySorted (fun a b => R b a) (rev l).
Proof.
  induction 1 as [|x l Hs IH Hf]; [constructor|]. cbn. apply Forall_rev in Hf.
  induction IH as [|y r Hr IHr Hy]; cbn; [repeat constructor|]. inversion Hf; subst. constructor; [by apply IHr|].
  apply Forall_app. split; [done|by constructor].
Qed.

Lemma Forall2_rev {X Y} (P : X -> Y -> Prop) l k : Forall2 P l k -> Forall2 P (rev l) (rev k).
Proof. rewrite !rev_alt. apply Forall2_reverse. Qed.

Section Callbacks.
Context {L3 Pool : Type} {l3ops : L3Ops L3} {poolops : ObjectPool Pool} {env : Environment}.
Abbreviation CoinbaseExchange := (CoinbaseExchange L3 Pool).

Lemma level2_pushes seq_num first s g u s' g' :
  enqueue_level2 seq_num first s g u = Some (s', g') ->
  exists evt, s' = push_event s evt /\ forall i, ev_type (evt i) = LEVEL_UPDATE /\ ev_sequence_id (evt i) = i
    /\ ev_flags (evt i) = (if first then F_END_EVENT else F_NONE) /\ level2_says u (content (evt i)).
Proof.
  unfold enqueue_level2. destruct (to_price_t _) as [p|] eqn:Ep; [|done]. destruct (to_qty_t _) as [q|] eqn:Eq; [|done].
  intros E. apply (inj Some) in E. apply pair_equal_spec in E as [<- _]. eexists. split; [reflexivity|]. intros i.
  do 3 (split; [done|]). by exists p, q.
Qed.

Lemma trade_pushes seq_num first s g u s' g' :
  enqueue_trade seq_num first s g u = Some (s', g') ->
  exists evt, s' = push_event s evt /\ forall i, ev_type (evt i) = TRADE_PRINT /\ ev_sequence_id (evt i) = i
    /\ ev_flags (evt i) = (if first then F_END_EVENT else F_NONE) /\ trade_says u (content (evt i)).
Proof.
  unfold enqueue_trade. destruct (to_price_t _) as [p|] eqn:Ep; [|done]. destruct (to_qty_t _) as [q|] eqn:Eq; [|done].
  intros E. apply (inj Some) in E. apply pair_equal_spec in E as [<- _]. eexists. split; [reflexivity|]. intros i.
  do 3 (split; [done|]). by exists p, q.
Qed.

Lemma level2_all seq_num l : forall first s g,
  enqueue_level2_all seq_num first s g l = enqueue_all (enqueue_level2 seq_num) first s g l.
Proof.
  induction l as [|u l IH]; intros first s g; [done|]. cbn. destruct (enqueue_level2 _ _ _ _ _) as [[s1 g1]|]; [apply IH|done].
Qed.

Lemma event_state_at (c : CoinbaseExchange) i s g :
  event_state (c <| cb_symbol_event_state ::= <[i := s]> |> <| cb_system ::= fun sys => sys <| sys_glob := g |> |>) i = s.
Proof. unfold event_state. cbn. by rewrite lookup_insert_eq. Qed.

(** The trades of one product go to one queue. *)
Lemma trades_all seq_num i product l : forall first (c : CoinbaseExchange) c',
  find_product c product = Some i -> Forall (fun tr => tr_product_id tr = product) l ->
  enqueue_trades seq_num first c l = Some c' ->
  exists g', enqueue_all (enqueue_trade seq_num) first (event_state c i) (sys_glob (cb_system c)) l
    = Some (event_state c' i, g').
Proof.
  induction l as [|u l IH]; intros first c c' Hf Hl; cbn [enqueue_trades enqueue_all].
  { intros [= <-]. by eexists. }
  inversion Hl as [|? ? Hu Hl']; subst. rewrite Hf. destruct (enqueue_trade _ _ _ _ _) as [[s g]|]; [|done]. intros E.
  pose proof (fun H => IH false _ _ H Hl' E) as IH'. destruct (IH' Hf) as (g' & E'). exists g'. by rewrite event_state_at in E'.
Qed.

Lemma level2_queued (c : CoinbaseExchange) seq_num product i updates c' :
  find_product c product = Some i -> onLevel2Updates c seq_num product updates = Some c' ->
  exists g', enqueue_all (enqueue_level2 seq_num) true (event_state c i) (sys_glob (cb_system c)) (rev updates)
    = Some (event_state c' i, g') /\ find_product c' product = Some i.
Proof.
  intros Hf. unfold onLevel2Updates. rewrite Hf, level2_all. destruct (enqueue_all _ _ _ _ _) as [[s g]|]; [|done].
  intros E. apply (inj Some) in E as <-. exists g. by rewrite event_state_at.
Qed.

(** Coinbase's two channels are put back into venue order. After a level-2 batch, listed
    oldest first, and a trade batch, listed newest first, were queued for an instrument on
    top of whatever waited there: popping empties the queue of exactly what is in it, in
    order of venue time; of each batch every update and every print comes out once, with the
    batch's price, quantity and side, from the oldest to the newest, and the end-of-event
    marker is on the last of it; and a print goes before every level update of its time or
    later, so the level is measured against a book that has absorbed the trade. *)
Lemma dispatch_is_chronological (c c1 c2 : CoinbaseExchange) i product seq1 updates seq2 trades :
  find_product c product = Some i -> Forall (fun tr => tr_product_id tr = product) trades ->
  queue_ok (event_state c i) (Z.of_nat (List.length updates) + Z.of_nat (List.length trades)) ->
  StronglySorted (fun a b => lu_event_time a <= lu_event_time b) updates ->
  StronglySorted (fun a b => tr_time b <= tr_time a) trades ->
  onLevel2Updates c seq1 product updates = Some c1 -> onMarketTrades c1 seq2 trades = Some c2 ->
  let q := es_pending_events (event_state c2 i) in
  exists levels prints, q = es_pending_events (event_state c i) ++ levels ++ prints
    /\ whole_order q ≡ₚ q /\ StronglySorted before (whole_order q)
    /\ of_batch levels (whole_order q) = rev levels
    /\ Forall2 (fun u e => level2_says u (content e)) updates (rev levels) /\ marked_last (rev levels)
    /\ of_batch prints (whole_order q) = rev prints
    /\ Forall2 (fun u e => trade_says u (content e)) (rev trades) (rev prints) /\ marked_last (rev prints)
    /\ forall e e', e ∈ prints -> e' ∈ levels -> ev_event_time e <= ev_event_time e' -> before e e'.
Proof.
  intros Hf Hp Hq Hs1 Hs2 E1 E2 q. set (n := Z.of_nat _ + Z.of_nat _) in *.
  destruct (level2_queued c seq1 product i updates c1 Hf E1) as (g1 & F1 & Hf1).
  destruct (trades_all seq2 i product trades true c1 c2 Hf1 Hp E2) as (g2 & F2).
  destruct (enqueue_all_joins _ LEVEL_UPDATE level2_says (level2_pushes seq1) _ _ _ _ _ _ n F1 Hq
    ltac:(rewrite length_rev; lia)) as (levels & J1 & Q1 & S1 & M1).
  rewrite length_rev in Q1.
  destruct (enqueue_all_joins _ TRADE_PRINT trade_says (trade_pushes seq2) _ _ _ _ _ _ _ F2 Q1 ltac:(lia))
    as (prints & J2 & Q2 & S2 & M2).
  exists levels, prints. assert (Eq : q = es_pending_events (event_state c i) ++ levels ++ prints).
  { unfold q. by rewrite (jn_pending _ _ _ _ J2), (jn_pending _ _ _ _ J1), <- app_assoc. }
  assert (Hd : distinct_ids q) by apply (qo_distinct _ _ Q2).
  split; [exact Eq|]. split; [apply whole_order_perm|]. split; [by apply whole_order_sorted|].
  split; [|split; [|split; [by apply marked_rev|split; [|split; [|split; [by apply marked_rev|]]]]]].
  - apply (batch_dispatched q levels (es_pending_events (event_state c i)) prints); [done|done|].
    eapply joined_reverse; [exact J1|]. apply (says_times lu_event_time level2_says (rev updates)); [|done|].
    + by intros x cc (p & qq & _ & _ & ->).
    + by apply (sorted_rev _ _ Hs1).
  - apply Forall2_rev in S1. by rewrite rev_involutive in S1.
  - apply (batch_dispatched q prints (es_pending_events (event_state c i) ++ levels) []); [done|by rewrite app_nil_r, <- app_assoc|].
    eapply joined_reverse; [exact J2|]. apply (says_times tr_time trade_says trades); [|done|done].
    by intros x cc (p & qq & _ & _ & ->).
  - by apply Forall2_rev.
  - intros e e' He He' Ht. apply before_lex. pose proof (jn_type _ _ _ _ J1) as T1. pose proof (jn_type _ _ _ _ J2) as T2.
    rewrite Forall_forall in T1. rewrite Forall_forall in T2. rewrite (T1 e' He'), (T2 e He). cbn. lia.
Qed.
End Callbacks.

(** ** Witness *)

Definition sample_coinbase : CoinbaseExchange RefBook Z := mkCoinbase sample_system ∅ ∅ ∅.

Definition sample_updates : list Level2Update :=
  [mkLevel2Update (double_of_Z 100) (double_of_Z 4) 10 BUY; mkLevel2Update (double_of_Z 101) (double_of_Z 2) 20 SELL].

Definition sample_trades : list MarketTrade :=
  [mkMarketTrade (str "BTC-USD") (Some 8) (double_of_Z 101) (double_of_Z 1) 20 BUY;
   mkMarketTrade (str "BTC-USD") (Some 7) (double_of_Z 100) (double_of_Z 3) 10 SELL].

Definition after_updates : CoinbaseExchange RefBook Z :=
  default sample_coinbase (onLevel2Updates sample_coinbase 5 (str "BTC-USD") sample_updates).

Definition after_trades : CoinbaseExchange RefBook Z :=
  default sample_coinbase (onMarketTrades after_updates 6 sample_trades).

Lemma dispatch_is_chronological_witness :
  let q := es_pending_events (event_state after_trades 0) in
  exists levels prints, q = levels ++ prints
    /\ whole_order q ≡ₚ q /\ StronglySorted before (whole_order q)
    /\ of_batch levels (whole_order q) = rev levels
    /\ Forall2 (fun u e => level2_says u (content e)) sample_updates (rev levels) /\ marked_last (rev levels)
    /\ of_batch prints (whole_order q) = rev prints
    /\ Forall2 (fun u e => trade_says u (content e)) (rev sample_trades) (rev prints) /\ marked_last (rev prints)
    /\ forall e e', e ∈ prints -> e' ∈ levels -> ev_event_time e <= ev_event_time e' -> before e e'.
Proof.
  apply (dispatch_is_chronological sample_coinbase after_updates after_trades 0 (str "BTC-USD") 5 sample_updates 6 sample_trades).
  - vm_compute. reflexivity.
  - repeat constructor.
  - split; [constructor|constructor|vm_compute; split; congruence].
  - repeat constructor; vm_compute; congruence.
  - repeat constructor; vm_compute; congruence.
  - vm_compute. reflexivity.
  - vm_compute. reflexivity.
Defined.
