(* ===== verification/CoinbaseProofs.v ===== *)
(** * What a Coinbase event does to an instrument

    A print or a new level trades and rests what is left, a level the book already has is
    mirrored; each mutation is stamped so that the book cannot discard it. The loop over an
    instrument's queue dispatches, in queue order, exactly the events that may leave it. *)

From S2P Require Import Prelude Types FixedString RingBuffer Orders Messages MarketData.
From S2P Require Import L3Interface L3Lemmas OrderBook OrderBookInv OrderBookOps.
From S2P Require Import Sweep MatchCommon MatchLemmas FifoEngine FifoProofs FifoOrders.
From S2P Require Import ProRata Allocation ProRataSweep ProRataProofs MatchingConfig MatchContract.
From S2P Require Import BookState Symbol SymbolProofs SymbolManager Exchange DeskState.
From S2P Require Import L3Reference Concrete ExchangeProofs.
From S2P Require Import MarketProofs Reconcile CoinbaseFeed CoinbaseOrder.

(** A sweep leaves orders as they were, or their front one smaller. *)
Lemma sweep_keeps (P : L3Order -> Prop) limit skip qty fl :
  (forall o q, P o -> P (o <| l3_quantity := q |>)) ->
  Forall (fun x => P x.2) fl -> Forall (fun x => P x.2) (sweep limit skip qty fl).2.
Proof.
  intros HP Hf. revert qty. induction Hf as [|[p o] fl Ho Hf IH]; intros qty; [constructor|].
  cbn [sweep]. destruct (negb _ || _); [by constructor|]. destruct (skip _).
  - specialize (IH qty). by destruct (sweep limit skip qty fl) as [[? ?] ?].
  - destruct (_ <=? _).
    + specialize (IH (qty - l3_quantity o)). by destruct (sweep limit skip (qty - l3_quantity o) fl) as [[? ?] ?].
    + constructor; [by apply HP|done].
Qed.

Lemma shave_keeps {L3 Pool} `{!L3Ops L3} `{!ObjectPool Pool} (P : L3Order -> Prop) (b : OrderBook L3 Pool) diff os :
  (forall o q, P o -> P (o <| l3_quantity := q |>)) -> Forall P os -> Forall P (shave b diff os).
Proof.
  intros HP Hf. revert diff. induction Hf as [|o os Ho Hf IH]; intros diff; [constructor|]. cbn [shave].
  case_bool_decide; [|by constructor]. destruct (_ <=? _); [done|]. constructor; [|done]. case_match; auto.
Qed.

Section Dispatch.
Context {L3 Pool : Type} {l3ops : L3Ops L3} {laws : L3Laws L3} {poolops : ObjectPool Pool}
  {poollaws : PoolLaws Pool} {env : Environment}.
Abbreviation World := (World L3 Pool).
Abbreviation Desk := (Desk L3 Pool).
Implicit Types w : World.
Implicit Types d : Desk.

(** No order rests under priority 0. *)
Definition ranked_order (o : L3Order) : Prop := l3_priority o <> 0.

Definition ranked w : Prop := forall s, book_side s -> Forall (fun x => ranked_order x.2) (queue w s).

(** At most one order number and one priority were drawn. *)
Record drew_one (g g' : Globals) : Prop := {
  d1_number : g_next_order_id g <= g_next_order_id g' <= g_next_order_id g + 1;
  d1_priority : g_next_priority g <= g_next_priority g' <= g_next_priority g + 1;
  d1_trade_id : ids_in_width g -> ids_in_width g'
}.

(** A mutation of the book stamped [seq]. *)
Record mutates (seq : Z) d d' : Prop := {
  mu_handled : handled d d';
  mu_drew : drew_one (w_glob (d_world d)) (w_glob (d_world d'));
  mu_ranked : ranked (d_world d');
  mu_accepted : seq_accepted (ob_l3 (w_book (d_world d'))) seq = true
}.

(** What follows the mutation leaves book and numbers alone. *)
Lemma mutates_then seq d d1 d2 :
  mutates seq d d1 -> handled d1 d2 -> ob_l3 (w_book (d_world d2)) = ob_l3 (w_book (d_world d1)) ->
  w_glob (d_world d2) = w_glob (d_world d1) -> mutates seq d d2.
Proof.
  intros [M1 M2 M3 M4] H E1 E2. split.
  - by etrans.
  - by rewrite E2.
  - intros s Hs. unfold queue. rewrite E1. by apply M3.
  - by rewrite E1.
Qed.

(** ** An aggressor of the venue *)

Record sane_print d (side : Side) (price : price_t) (qty : qty_t) (seq : Z) : Prop := {
  sp_desk : desk_ok d;
  sp_fifo : sym_matching_engine (d_symbol d) = Some FifoMatchingEngine;
  sp_ranked : ranked (d_world d);
  sp_room : roomy (w_glob (d_world d));
  sp_number : 0 <= g_next_order_id (w_glob (d_world d)) < 2 ^ 64 - 1;
  sp_side : book_side side;
  sp_price : price <> NULL_PRICE;
  sp_qty : 0 <= qty;
  sp_accepted : seq_accepted (ob_l3 (w_book (d_world d))) seq = true
}.

(** The FIFO engine on a book whose orders are ranked. *)
Lemma fifo_feeds w side id price qty ts seq :
  fine w -> ranked w -> ids_in_width (w_glob w) -> book_side side -> 0 <= qty ->
  seq_accepted (ob_l3 (w_book w)) seq = true ->
  exists summaries left w', engine_match_feed FifoMatchingEngine w side id price qty ts seq = Some (summaries, left, w')
    /\ feed_outcome w side qty seq summaries left w' /\ ranked w'.
Proof.
  intros Hf Hr Ht Hs Hq Ha. pose proof (engine_feed_contract FifoMatchingEngine I) as Hengine.
  destruct (feed_contract w side id price qty ts seq Hs (fn_inv _ Hf) Ha Ht) as (summaries & left & w' & H1 & H2).
  { by apply (fn_priced _ Hf), opposite_book_side. } { done. } { exact I. }
  exists summaries, left, w'. split; [exact H1|]. split; [exact H2|].
  pose proof (feed_sweeps (opposite_side side) id price qty w ts seq (opposite_book_side _ Hs) (fn_inv _ Hf) Ha Ht
    (fn_priced _ Hf _ (opposite_book_side _ Hs))) as Href.
  pose proof (sweep_keeps ranked_order (within (opposite_side side) price) never_skip qty (queue w (opposite_side side))
    (fun o q H => H) (Hr _ (opposite_book_side _ Hs))) as Hk.
  destruct (sweep _ _ _ _) as [[acts q'] fl']. destruct Href as (summaries' & w'' & E & _ & Hfed).
  change (engine_match_feed FifoMatchingEngine w side id price qty ts seq)
    with (fifo_match_feed w side id price qty ts seq) in H1.
  rewrite feed_match_side, E in H1 by done. injection H1 as _ _ <-. intros s Hs'.
  assert (Hc : s = opposite_side side \/ s = side) by (destruct Hs as [-> | ->], Hs' as [-> | ->]; cbn; auto).
  destruct Hc as [->| ->].
  - by rewrite (fd_queue _ _ _ _ _ _ _ _ _ Hfed).
  - pose proof (fd_other _ _ _ _ _ _ _ _ _ Hfed) as Eo.
    assert (Eoo : opposite_side (opposite_side side) = side) by (by destruct Hs as [-> | ->]). rewrite Eoo in Eo.
    unfold queue. rewrite Eo. by apply Hr.
Qed.

(** Its remainder, in the book or nothing. *)
Definition remainder d (side : Side) (price : price_t) (left : qty_t) d' : Prop :=
  let id := g_next_order_id (w_glob (d_world d)) in
  if left =? 0 then id ∉ book_ids (ob_l3 (w_book (d_world d')))
  else (price, mkL3Order id left (g_next_priority (w_glob (d_world d)) + 1)) ∈ queue (d_world d') side.

Lemma queue_rests w id side price q seq w' :
  rests_anew w id side price q seq w' ->
  (price, mkL3Order id q (g_next_priority (w_glob w) + 1)) ∈ queue w' side.
Proof.
  intros Hr. destruct (ra_side _ _ _ _ _ _ _ Hr) as [E _]. unfold queue. rewrite E, flat_levels_insert.
  apply elem_of_cons. by left.
Qed.

Lemma ranked_rests w id side price q seq w' :
  roomy (w_glob w) -> ranked w -> book_side side -> rests_anew w id side price q seq w' -> ranked w'.
Proof.
  intros [Hroom _] Hk Hs Hr s Hs'. destruct (ra_side _ _ _ _ _ _ _ Hr) as [E Eo].
  assert (Hc : s = side \/ s = opposite_side side) by (destruct Hs as [-> | ->], Hs' as [-> | ->]; cbn; auto).
  unfold queue. destruct Hc as [->| ->].
  - rewrite E, flat_levels_insert. constructor; [|by apply Hk]. unfold ranked_order. cbn. lia.
  - rewrite Eo. by apply Hk.
Qed.

Lemma same_counters_drew g g' : same_counters g g' -> drew_one g g'.
Proof. intros (A1 & A2 & _ & _ & A5). split; [lia|lia|exact A5]. Qed.

(** The world a number was drawn in. *)
Lemma number_drawn d side price qty seq :
  sane_print d side price qty seq ->
  let n := g_next_order_id (w_glob (d_world d)) in
  exists w0, nextOrderId (d_world d) = (n, w0) /\ w_book w0 = w_book (d_world d) /\ w_md w0 = w_md (d_world d)
    /\ w_responses w0 = w_responses (d_world d)
    /\ w_glob w0 = (w_glob (d_world d)) <| g_next_order_id := n + 1 |> /\ fine w0 /\ ranked w0
    /\ n ∉ book_ids (ob_l3 (w_book w0)).
Proof.
  intros [S1 S2 S3 S4 S5 _ _ _ _] n. eexists. split; [reflexivity|]. do 3 (split; [done|]).
  split; [cbn; fold n; by rewrite (wrap_small 64) by (unfold n; lia)|]. split; [by apply (fine_same (d_world d)), S1|].
  split; [exact S3|]. intros Hi. pose proof (dk_ids _ S1 n Hi). unfold n in *. lia.
Qed.

Lemma take_rests d side price qty ts seq last :
  sane_print d side price qty seq ->
  exists w' summaries left, take_and_rest d side price qty ts seq last = Some (d <| d_world := w' |>, summaries, left)
    /\ mutates seq d (d <| d_world := w' |>) /\ 0 <= left /\ zsum (map ts_qty summaries) + left = qty
    /\ w_md w' = w_md (d_world d) /\ remainder d side price left (d <| d_world := w' |>).
Proof.
  intros Hs. destruct (number_drawn _ _ _ _ _ Hs) as (w0 & E & Eb & Em & Er & Eg & Hf & Hk & Hnin).
  pose proof Hs as [S1 S2 _ S4 S5 S6 S7 S8 S9]. unfold take_and_rest. rewrite E, S2. set (n := g_next_order_id _) in *.
  assert (Ht : ids_in_width (w_glob w0)) by (rewrite Eg; apply S4).
  destruct (fifo_feeds w0 side n price qty ts seq Hf Hk Ht S6 S8) as (summaries & left & w1 & -> & Hm & Hk1).
  { by rewrite Eb. }
  pose proof (fo_left _ _ _ _ _ _ _ Hm) as Hl. pose proof (fo_traded _ _ _ _ _ _ _ Hm) as Htr.
  pose proof (st_counters _ _ (fo_stepped _ _ _ _ _ _ _ Hm)) as (C1 & C2 & _ & _ & C5).
  rewrite Eg in C1, C2. cbn in C1, C2.
  assert (H1 : handled d (d <| d_world := w1 |>)).
  { apply (feed_world_handled d w0 side qty seq summaries left w1); try done. rewrite Eg. cbn. fold n. lia. }
  destruct (left =? 0) eqn:El; bool_to_prop.
  - exists w1, summaries, left. split; [done|]. split; [|split; [done|split; [done|split]]].
    + split; [exact H1| |exact Hk1|apply Hm]. split; cbn [d_world upd]; [fold n; lia|lia|]. intros H. by apply C5.
    + by rewrite (fo_md _ _ _ _ _ _ _ Hm).
    + unfold remainder. rewrite El. cbn [d_world upd]. fold n. intros Hi. by apply Hnin, (fo_ids _ _ _ _ _ _ _ Hm).
  - assert (Hroom : roomy (w_glob w1)) by (split; [rewrite C1; apply S4|by apply C5]).
    assert (Hnin1 : n ∉ book_ids (ob_l3 (w_book w1))) by (intros Hi; by apply Hnin, (fo_ids _ _ _ _ _ _ _ Hm)).
    pose proof (add_rests w1 n side price left ts seq last (dk_fine _ (hd_ok _ _ H1)) (dk_ids _ (hd_ok _ _ H1)) Hroom Hnin1
      ltac:(lia) S6 S7 ltac:(lia) (fo_accepted _ _ _ _ _ _ _ Hm)) as Hr.
    set (w2 := addBookOrder _ _ _ _ _ _ _ _) in *. exists w2, summaries, left. split; [done|].
    pose proof Hr as [R1 R2 R3 R4 R5 R6 [R7 R8] R9].
    assert (H2 : handled (d <| d_world := w1 |>) (d <| d_world := w2 |>)).
    { change (d <| d_world := w2 |>) with ((d <| d_world := w1 |>) <| d_world := w2 |>).
      apply world_handled; try done; [apply H1|]. exists []. by rewrite app_nil_r. }
    split; [|split; [done|split; [done|split]]].
    + split; [by etrans| |by eapply ranked_rests|exact R9]. cbn [d_world upd]. rewrite R6. split; cbn; [fold n; lia|lia|].
      intros H. by apply C5.
    + by rewrite R7, (fo_md _ _ _ _ _ _ _ Hm).
    + unfold remainder. rewrite (proj2 (Z.eqb_neq left 0)) by done. cbn [d_world upd]. fold n. rewrite <- C1.
      by apply (queue_rests w1 n side price left seq).
Qed.

(** ** Mirroring a level *)

Lemma sane_print_mirror d side price qty seq : sane_print d side price qty seq -> sane_mirror d side price seq.
Proof.
  intros [S1 S2 S3 S4 S5 S6 S7 S8 S9]. split; try done. apply Forall_forall. intros o Ho%at_level_in.
  pose proof (S3 side S6) as Hf. rewrite Forall_forall in Hf. by apply (Hf (price, o)).
Qed.

(** The mirror's own draws and stamp. *)
Lemma reconcile_draws d side price qty ts seq last :
  sane_print d side price qty seq ->
  let d' := reconcilePhantomQty d side price qty ts seq last in
  drew_one (w_glob (d_world d)) (w_glob (d_world d')) /\ seq_accepted (ob_l3 (w_book (d_world d'))) seq = true
  /\ w_md (d_world d') = w_md (d_world d).
Proof.
  intros Hs d'. pose proof (sane_print_mirror _ _ _ _ _ Hs) as Hm. pose proof Hs as [S1 S2 S3 S4 S5 S6 S7 S8 S9].
  assert (Hsame : forall dd : Desk, w_glob (d_world dd) = w_glob (d_world d) -> ob_l3 (w_book (d_world dd)) = ob_l3 (w_book (d_world d)) ->
    w_md (d_world dd) = w_md (d_world d) -> drew_one (w_glob (d_world d)) (w_glob (d_world dd))
    /\ seq_accepted (ob_l3 (w_book (d_world dd))) seq = true /\ w_md (d_world dd) = w_md (d_world d)).
  { intros dd -> -> ->. split; [split; [lia|lia|done]|done]. }
  subst d'. unfold reconcilePhantomQty. destruct (getLevel _ side price) as [level|] eqn:El; [|by apply Hsame].
  destruct (takeTradedQty _ _ _ _) as [unreflected credits].
  set (target := if 0 <? unreflected then _ else qty). set (md := getMDLevelQty _ price).
  destruct (md <? target) eqn:E1; bool_to_prop; [|destruct (target <? md) eqn:E2; bool_to_prop].
  - pose proof (credits_handled d credits S1) as H0. set (d0 := d <| d_symbol ::= _ |>) in *.
    assert (Hm0 : sane_mirror d0 side price seq) by by destruct Hm.
    destruct (mirror_grow d0 side price (target - md) ts seq last (hd_ok _ _ H0) Hm0 ltac:(lia)) as (_ & Hr).
    destruct Hr as [_ _ _ _ _ R6 [R7 _] R9]. split; [|by split]. rewrite R6.
    change (w_glob (d_world d0)) with (w_glob (d_world d)). split; cbn; [lia|lia|done].
  - destruct (reductions_planned d side price level (md - target) ts seq last S1 Hm El ltac:(lia)) as [Hp _].
    split; [split; cbn; [lia|lia|done]|]. split; [exact (pl_accepted _ _ _ _ _ _ Hp)|done].
  - by apply Hsame.
Qed.

Lemma at_levels_ranked w s : (forall p, Forall ranked_order (at_level p (queue w s))) -> Forall (fun x => ranked_order x.2) (queue w s).
Proof.
  intros H. apply Forall_forall. intros [p o] Hin. specialize (H p). rewrite Forall_forall in H. apply H. by apply at_level_in.
Qed.

Lemma ranked_at w s p : ranked w -> book_side s -> Forall ranked_order (at_level p (queue w s)).
Proof.
  intros Hk Hs. apply Forall_forall. intros o Ho%at_level_in. specialize (Hk s Hs). rewrite Forall_forall in Hk. by apply (Hk (p, o)).
Qed.

Lemma queue_insert_forall (P : L3Order -> Prop) o os : P o -> Forall P os -> Forall P (queue_insert o os).
Proof. intros Ho. induction 1 as [|x os Hx Hos IH]; cbn [queue_insert]; [by constructor|]. case_match; by repeat constructor. Qed.

Lemma mirrored_ranked d side price qty ts d' :
  desk_ok d -> roomy (w_glob (d_world d)) -> book_side side -> ranked (d_world d) -> mirrored d side price qty ts d' -> ranked (d_world d').
Proof.
  intros Hd [Hroom _] Hs Hk Hm s Hs'.
  assert (Hc : s = side \/ s = opposite_side side) by (destruct Hs as [-> | ->], Hs' as [-> | ->]; cbn; auto).
  destruct Hc as [->| ->]; [|rewrite (mi_other _ _ _ _ _ _ Hm); by apply Hk].
  apply at_levels_ranked. intros p. destruct (decide (p = price)) as [->|Hp].
  2: { rewrite (mi_prices _ _ _ _ _ _ Hm) by done. by apply ranked_at. }
  pose proof (mi_queue _ _ _ _ _ _ Hm) as E. cbv zeta in E. rewrite E. destruct (_ <? 0).
  - apply queue_insert_forall; [unfold ranked_order; cbn; lia|by apply ranked_at].
  - apply Forall_rev, shave_keeps; [by intros o q H|]. by apply Forall_rev, ranked_at.
Qed.

Lemma reconcile_mutates d side price qty ts seq last level :
  sane_print d side price qty seq -> getLevel (ob_l3 (w_book (d_world d))) side price = Some level ->
  let d' := reconcilePhantomQty d side price qty ts seq last in
  mutates seq d d' /\ mirrored d side price qty ts d' /\ w_md (d_world d') = w_md (d_world d).
Proof.
  intros Hs El d'. destruct (reconcile_draws d side price qty ts seq last Hs) as (D1 & D2 & D3).
  pose proof (reconcile d side price qty ts seq last (sp_desk _ _ _ _ _ Hs) (sane_print_mirror _ _ _ _ _ Hs)) as Hm.
  rewrite El in Hm. cbv zeta in Hm. fold d' in Hm, D1, D2, D3. split; [|by split].
  split; [by apply (mi_handled _ _ _ _ _ _ Hm)|done| |done].
  eapply mirrored_ranked; [apply Hs|apply Hs|apply Hs|apply Hs|exact Hm].
Qed.

(** ** Publishing what traded *)

Lemma credit_summary_handled side ts d summary :
  desk_ok d -> handled d (credit_summary side ts d summary).
Proof.
  intros Hd. unfold credit_summary. set (c := fun s => s <| sym_traded_qty_credit ::= _ |>).
  pose proof (credits_handled d (sym_traded_qty_credit (c (d_symbol d))) Hd) as H1.
  change (d <| d_symbol ::= fun s => s <| sym_traded_qty_credit := sym_traded_qty_credit (c (d_symbol d)) |> |>)
    with (d <| d_symbol ::= c |>) in H1.
  etrans; [exact H1|]. by apply (summaries_handled _ [summary]), H1.
Qed.

Definition credit_all (side : Side) (ts : time_t) (c : Credits) (l : list TradeSummaryInfo) : Credits :=
  fold_left (fun c summary => creditTradedQty c (opposite_side side) (ts_price summary) (ts_phantom_qty summary) ts) l c.

Lemma credit_summaries side ts l : forall d, desk_ok d ->
  let d' := fold_left (credit_summary side ts) l d in
  handled d d' /\ w_book (d_world d') = w_book (d_world d) /\ w_glob (d_world d') = w_glob (d_world d)
  /\ traded_in (w_md (d_world d')) = traded_in (w_md (d_world d)) + zsum (map ts_qty l)
  /\ sym_traded_qty_credit (d_symbol d') = credit_all side ts (sym_traded_qty_credit (d_symbol d)) l.
Proof.
  induction l as [|x l IH]; intros d Hd; [split; [by apply handled_refl|cbn; do 3 (split; [done || lia|]); done]|].
  cbn [fold_left]. pose proof (credit_summary_handled side ts d x Hd) as H1.
  destruct (IH _ (hd_ok _ _ H1)) as (I1 & I2 & I3 & I4 & I5). split; [by etrans|]. rewrite I2, I3, I4, I5.
  do 2 (split; [done|]). split; [|done].
  pose proof (publish_summaries_traded (d <| d_symbol ::= fun s => s <| sym_traded_qty_credit ::= fun c =>
            creditTradedQty c (opposite_side side) (ts_price x) (ts_phantom_qty x) ts |> |>) [x]) as E.
  change (publishTradeSummaries _ [x]) with (credit_summary side ts d x) in E. rewrite E. cbn [map zsum d_world]. 
  change (d_world (d <| d_symbol ::= _ |>)) with (d_world d). lia.
Qed.

Lemma flush_keeps d :
  ob_l3 (w_book (d_world (flushMarketDataCaches d))) = ob_l3 (w_book (d_world d))
  /\ w_glob (d_world (flushMarketDataCaches d)) = w_glob (d_world d).
Proof. destruct (flush_frame d) as (_ & _ & _ & F4 & _ & F6). by rewrite F6, F4. Qed.

(** ** What an event comes to *)

(** The event traded what it could as an aggressor and rested what was left. *)
Record traded_and_rested d (e : Event) (summaries : list TradeSummaryInfo) (left : qty_t) d' : Prop := {
  tr_left : 0 <= left;
  tr_total : zsum (map ts_qty summaries) + left = ev_qty e;
  tr_published : traded_in (w_md (d_world d')) = traded_in (w_md (d_world d)) + zsum (map ts_qty summaries);
  tr_remainder : remainder d (ev_side e) (ev_price e) left d'
}.

Inductive dispatched d (e : Event) d' : Prop :=
| DispatchPrint summaries left :
    ev_type e = TRADE_PRINT -> traded_and_rested d e summaries left d' ->
    sym_traded_qty_credit (d_symbol d')
    = credit_all (ev_side e) (ev_event_time e) (sym_traded_qty_credit (d_symbol d)) summaries ->
    dispatched d e d'
| DispatchStale :
    ev_type e = LEVEL_UPDATE -> ev_event_time e < ob_last_update_time (w_book (d_world d)) -> d' = d ->
    dispatched d e d'
| DispatchNewLevel summaries left :
    ev_type e = LEVEL_UPDATE -> ob_last_update_time (w_book (d_world d)) <= ev_event_time e ->
    getLevel (ob_l3 (w_book (d_world d))) (ev_side e) (ev_price e) = None ->
    traded_and_rested d e summaries left d' ->
    ob_last_update_time (w_book (d_world d')) = ev_event_time e -> dispatched d e d'
| DispatchLevel level d1 :
    ev_type e = LEVEL_UPDATE -> ob_last_update_time (w_book (d_world d)) <= ev_event_time e ->
    getLevel (ob_l3 (w_book (d_world d))) (ev_side e) (ev_price e) = Some level ->
    mirrored d (ev_side e) (ev_price e) (ev_qty e) (ev_event_time e) d1 ->
    ob_l3 (w_book (d_world d')) = ob_l3 (w_book (d_world d1)) ->
    traded_in (w_md (d_world d')) = traded_in (w_md (d_world d)) ->
    ob_last_update_time (w_book (d_world d')) = ev_event_time e -> dispatched d e d'.

Lemma remainder_same_book d side price left d1 d2 :
  ob_l3 (w_book (d_world d2)) = ob_l3 (w_book (d_world d1)) ->
  remainder d side price left d1 -> remainder d side price left d2.
Proof. unfold remainder, queue. by intros ->. Qed.

Lemma take_published d side price qty ts seq last :
  sane_print d side price qty seq ->
  exists d1 summaries left, take_and_rest d side price qty ts seq last = Some (d1, summaries, left)
    /\ mutates seq d d1 /\ 0 <= left /\ zsum (map ts_qty summaries) + left = qty
    /\ w_md (d_world d1) = w_md (d_world d) /\ d_symbol d1 = d_symbol d /\ remainder d side price left d1.
Proof.
  intros Hs. destruct (take_rests d side price qty ts seq last Hs) as (w' & summaries & left & E & H1 & H2 & H3 & H4 & H5).
  by exists (d <| d_world := w' |>), summaries, left.
Qed.

Lemma print_dispatched d e seq :
  sane_print d (ev_side e) (ev_price e) (ev_qty e) seq -> ev_type e = TRADE_PRINT ->
  exists d1 summaries left, take_and_rest d (ev_side e) (ev_price e) (ev_qty e) (ev_event_time e) seq (ends_event e)
      = Some (d1, summaries, left)
    /\ let d' := flushMarketDataCaches (fold_left (credit_summary (ev_side e) (ev_event_time e)) summaries d1) in
       mutates seq d d' /\ dispatched d e d'.
Proof.
  intros Hs Et. destruct (take_published d _ _ _ (ev_event_time e) seq (ends_event e) Hs)
    as (d1 & summaries & left & E & H1 & H2 & H3 & H4 & H5 & H6).
  exists d1, summaries, left. split; [exact E|]. cbv zeta.
  destruct (credit_summaries (ev_side e) (ev_event_time e) summaries d1 (hd_ok _ _ (mu_handled _ _ _ H1)))
    as (C1 & C2 & C3 & C4 & C5).
  set (d2 := fold_left _ summaries d1) in *. destruct (flush_keeps d2) as [F1 F2].
  destruct (flush_frame d2) as (_ & Fs & _).
  split.
  - eapply mutates_then; [exact H1|etrans; [exact C1|apply flush_handled, C1]|by rewrite F1, C2|by rewrite F2, C3].
  - eapply (DispatchPrint d e _ summaries left Et).
    + split; [done|done|by rewrite flush_traded, C4, H4|]. eapply remainder_same_book; [|exact H6]. by rewrite F1, C2.
    + by rewrite Fs, C5, H5.
Qed.

(** The level branch, before the row is buffered. *)
Lemma level_applied d e seq :
  sane_print d (ev_side e) (ev_price e) (ev_qty e) seq -> ev_type e = LEVEL_UPDATE ->
  ob_last_update_time (w_book (d_world d)) <= ev_event_time e ->
  exists d1 action, apply_level_event d e seq = Some (d1, action) /\ mutates seq d d1
    /\ forall d', ob_l3 (w_book (d_world d')) = ob_l3 (w_book (d_world d1)) ->
         traded_in (w_md (d_world d')) = traded_in (w_md (d_world d1)) ->
         ob_last_update_time (w_book (d_world d')) = ev_event_time e -> dispatched d e d'.
Proof.
  intros Hs Et Hold. unfold apply_level_event. destruct (getLevel _ _ _) as [level|] eqn:El.
  - destruct (reconcile_mutates d _ _ _ (ev_event_time e) seq (ends_event e) level Hs El) as (R1 & R2 & R3).
    eexists _, _. split; [reflexivity|]. split; [exact R1|]. intros d' E1 E2 E3.
    eapply (DispatchLevel d e d' level); try done. by rewrite E2, R3.
  - destruct (take_published d _ _ _ (ev_event_time e) seq (ends_event e) Hs)
      as (d1 & summaries & left & -> & H1 & H2 & H3 & H4 & H5 & H6).
    pose proof (summaries_handled d1 summaries (hd_ok _ _ (mu_handled _ _ _ H1))) as H7.
    destruct (publish_summaries_frame d1 summaries) as (P1 & P2 & _). pose proof (publish_summaries_traded d1 summaries) as P3.
    set (d2 := publishTradeSummaries d1 summaries) in *. destruct (flush_keeps d2) as [F1 F2].
    eexists _, _. split; [reflexivity|]. split.
    + eapply mutates_then; [exact H1|etrans; [exact H7|apply flush_handled, H7]|by rewrite F1, P1|by rewrite F2, P2].
    + intros d' E1 E2 E3. eapply (DispatchNewLevel d e d' summaries left); try done. split; [done|done| |].
      * by rewrite E2, flush_traded, P3, H4.
      * eapply remainder_same_book; [|exact H6]. by rewrite E1, F1, P1.
Qed.

(** ** The row of a level event *)

Lemma fine_last_update w ts seq : fine w -> fine (w <| w_book ::= fun b => setLastUpdate b ts seq |>).
Proof. intros [[I1 I2 I3 I4 I5] H2 H3 H4]. split; [by split|exact H2|exact H3|exact H4]. Qed.

(** Only the time of the last update and frames may differ. *)
Record only_published d d' : Prop := {
  op_symbol : d_symbol d' = d_symbol d;
  op_pointer : d_pointer d' = d_pointer d;
  op_exchange : d_exchange d' = d_exchange d;
  op_l3 : ob_l3 (w_book (d_world d')) = ob_l3 (w_book (d_world d));
  op_fine : fine (d_world d) -> fine (d_world d');
  op_glob : w_glob (d_world d') = w_glob (d_world d);
  op_traded : traded_in (w_md (d_world d')) = traded_in (w_md (d_world d))
}.

Lemma last_update_published d ts seq : only_published d (desk_book d (fun b => setLastUpdate b ts seq)).
Proof. split; try done. apply fine_last_update. Qed.

(** The rows held back go out before a row of another sequence joins. *)
Definition buffered d (s : SymbolEventState) (row : MDLevel) d' (s' : SymbolEventState) : Prop :=
  es_level_update_buffer s' = es_level_update_buffer s ++ [row]
  \/ es_level_update_buffer s' = [row]
     /\ exists t, w_md (d_world d') = w_md (d_world d) ++ [mkMDUpdate (name_of d) (ex_venue (d_exchange d)) t
          (PLevels (u32 (Z.of_nat (List.length (es_level_update_buffer s)))) (es_level_update_buffer s))].

(** The counters of the queue are not touched. *)
Record same_queue (s s' : SymbolEventState) : Prop := {
  sq_pending : es_pending_events s' = es_pending_events s;
  sq_last_event : es_last_event_time s' = es_last_event_time s;
  sq_next : es_next_sequence_id s' = es_next_sequence_id s;
  sq_stamp : es_next_book_seq_num s' = es_next_book_seq_num s
}.

Lemma flush_level_published d s e row d1 s1 :
  flush_level_buffer d s e = (d1, s1) ->
  let s2 := s1 <| es_level_update_buffer ::= fun l => l ++ [row] |> in
  only_published d d1 /\ same_queue s s2 /\ ob_last_update_time (w_book (d_world d1)) = ob_last_update_time (w_book (d_world d))
  /\ buffered d s row d1 s2.
Proof.
  unfold flush_level_buffer. set (s0 := if _ =? 0 then _ else s).
  assert (Hb : es_level_update_buffer s0 = es_level_update_buffer s /\ same_queue s s0) by (unfold s0; case_match; by repeat split).
  destruct Hb as [Hb [Q1 Q2 Q3 Q4]]. rewrite Hb. destruct (last (es_level_update_buffer s)) as [r|] eqn:El; [case_match|].
  - intros [= <- <-]. split; [split; try done; [intros Hf; by apply (fine_same (d_world d))|]|].
    + etrans; [apply traded_app|]. unfold traded_in at 2. cbn. lia.
    + split; [by split|]. split; [done|]. right. split; [done|]. eexists. cbn. reflexivity.
  - intros [= <- <-]. split; [by split|]. split; [by split|]. split; [done|]. left. cbn. by rewrite Hb.
  - intros [= <- <-]. split; [by split|]. split; [by split|]. split; [done|]. left. cbn. by rewrite Hb.
Qed.

(** The row says what the book holds. *)
Definition row_of_book d (e : Event) (row : MDLevel) : Prop :=
  ml_event_time row = ev_event_time e /\ ml_seq_num row = ev_seq_num e /\ ml_price row = ev_price e /\ ml_side row = ev_side e
  /\ ml_qty row = depth (w_book (d_world d)) (ev_side e) (ev_price e)
  /\ (ml_update_action row = ACTION_DELETE <-> getLevel (ob_l3 (w_book (d_world d))) (ev_side e) (ev_price e) = None).

Lemma event_row_of_book level_index d e known index action :
  fine (d_world d) -> book_side (ev_side e) -> action <> ACTION_DELETE ->
  row_of_book d e (event_row level_index e known index action (w_book (d_world d))).
Proof.
  intros Hf Hs Ha. unfold row_of_book, event_row. cbn. do 4 (split; [done|]). split.
  - unfold depth, level_qty. by rewrite law_level by (done || apply (bi_l3 _ _ (fn_inv _ Hf))).
  - by destruct (getLevel _ _ _).
Qed.

(** ** One event leaves the queue *)

(** The instrument of a FIFO venue and its queue, with numbers for [n] more events. *)
Record feed_ok (n : Z) d (s : SymbolEventState) : Prop := {
  fk_desk : desk_ok d;
  fk_fifo : sym_matching_engine (d_symbol d) = Some FifoMatchingEngine;
  fk_ranked : ranked (d_world d);
  fk_numbers : 0 <= g_next_order_id (w_glob (d_world d)) < 2 ^ 64 - n;
  fk_priorities : 0 <= g_next_priority (w_glob (d_world d)) < 2 ^ 64 - n;
  fk_trades : ids_in_width (w_glob (d_world d));
  fk_stamp : 0 <= es_next_book_seq_num s < 2 ^ 64 - n;
  fk_seq : getLastSeqNum (ob_l3 (w_book (d_world d))) < 2 ^ 64 - n
}.

Definition sane_event (e : Event) : Prop := book_side (ev_side e) /\ ev_price e <> NULL_PRICE /\ 0 <= ev_qty e.

Definition same_place d d' : Prop :=
  d_pointer d' = d_pointer d /\ same_symbol (d_symbol d) (d_symbol d') /\ venue_of d' = venue_of d.

#[export] Instance same_place_trans : Transitive same_place.
Proof.
  intros d1 d2 d3 (A1 & (A2 & A3 & A4 & A5 & A6) & A7) (B1 & (B2 & B3 & B4 & B5 & B6) & B7).
  split; [congruence|]. split; [repeat split; congruence|congruence].
Qed.

Lemma handled_place d d' : handled d d' -> same_place d d'.
Proof. intros H. split; [apply H|]. split; apply H. Qed.

Record released d (s : SymbolEventState) (e : Event) d' (s' : SymbolEventState) : Prop := {
  rl_dispatched : dispatched d e d';
  rl_place : same_place d d';
  rl_pending : es_pending_events s' = es_pending_events s;
  rl_newest : es_last_event_time s' = es_last_event_time s;
  rl_stamp : es_next_book_seq_num s < es_next_book_seq_num s'
    /\ getLastSeqNum (ob_l3 (w_book (d_world d))) < es_next_book_seq_num s';
  rl_row : ev_type e = LEVEL_UPDATE -> ob_last_update_time (w_book (d_world d)) <= ev_event_time e ->
    exists row, row_of_book d' e row
      /\ (es_level_update_buffer s' = es_level_update_buffer s ++ [row]
          \/ es_level_update_buffer s' = [row]
             /\ exists t, mkMDUpdate (name_of d) (venue_of d) t
                  (PLevels (u32 (Z.of_nat (List.length (es_level_update_buffer s)))) (es_level_update_buffer s))
                  ∈ w_md (d_world d'))
}.

Lemma stamp_accepted (l3 : L3) seq : 0 < seq -> seq_accepted l3 seq = true -> getLastSeqNum l3 <= seq.
Proof. unfold seq_accepted. intros Hs Ha. rewrite (proj2 (Z.ltb_lt 0 seq) Hs) in Ha. cbn in Ha. bool_to_prop. lia. Qed.

Lemma feed_ok_print n d s e :
  feed_ok n d s -> 1 <= n -> sane_event e ->
  let '(seq, s') := nextBookSeqNum (w_book (d_world d)) s in
  s' = s <| es_next_book_seq_num := seq |> /\ es_next_book_seq_num s < seq < 2 ^ 64 - (n - 1)
  /\ getLastSeqNum (ob_l3 (w_book (d_world d))) < seq
  /\ sane_print d (ev_side e) (ev_price e) (ev_qty e) seq.
Proof.
  intros [K1 K2 K3 K4 K5 K6 K7 K8] Hn (E1 & E2 & E3). unfold nextBookSeqNum.
  set (book_seq := getLastSeqNum _) in *. set (m := if _ <? book_seq then _ else _).
  assert (Hm : 0 <= m < 2 ^ 64 - n /\ es_next_book_seq_num s <= m /\ book_seq <= m).
  { unfold m. destruct (_ <? book_seq) eqn:E; bool_to_prop; lia. }
  assert (Eu : u64 (m + 1) = m + 1) by (apply wrap_small; lia). rewrite Eu. split; [done|]. split; [lia|]. split; [lia|].
  split; try done; [split; [lia|done]|lia|]. unfold seq_accepted. apply negb_true_iff, andb_false_iff. right.
  apply Z.ltb_ge. fold book_seq. lia.
Qed.

(** A mutation stamped with the sequence drawn leaves room for the rest. *)
Lemma feed_ok_after n d s d' s' seq :
  feed_ok n d s -> 1 <= n -> 0 < seq < 2 ^ 64 - (n - 1) -> es_next_book_seq_num s' = seq ->
  desk_ok d' -> same_symbol (d_symbol d) (d_symbol d') -> drew_one (w_glob (d_world d)) (w_glob (d_world d')) ->
  ranked (d_world d') -> getLastSeqNum (ob_l3 (w_book (d_world d'))) <= seq -> feed_ok (n - 1) d' s'.
Proof.
  intros [K1 K2 K3 K4 K5 K6 K7 K8] Hn Hseq Es Hd (_ & _ & _ & Ef & _) [D1 D2 D3] Hk Hl.
  split; try done; [by rewrite Ef|lia|lia|by apply D3|lia|lia].
Qed.

Lemma only_published_ok d d' : only_published d d' -> desk_ok d -> desk_ok d'.
Proof.
  intros [P1 P2 P3 P4 P5 P6 P7] Hd. eapply desk_ok_world; [exact Hd|by rewrite P1|apply P5, Hd|].
  intros i Hi. unfold book_ids in Hi. rewrite P4 in Hi. rewrite P6. by apply (dk_ids _ Hd).
Qed.

Section Loop.
Variable level_index : L3 -> Side -> price_t -> Z.

Lemma apply_level_action d e seq d1 action : apply_level_event d e seq = Some (d1, action) -> action <> ACTION_DELETE.
Proof.
  unfold apply_level_event. destruct (getLevel _ _ _); [by intros [= _ <-]|].
  destruct (take_and_rest _ _ _ _ _ _ _) as [[[dd ss] q]|]; [|done]. destruct (q =? 0); by intros [= _ <-].
Qed.

(** A level update that is not stale. *)
Lemma dispatch_level d s e seq :
  sane_print d (ev_side e) (ev_price e) (ev_qty e) seq -> ev_type e = LEVEL_UPDATE ->
  ob_last_update_time (w_book (d_world d)) <= ev_event_time e ->
  exists d' s', dispatchEvent level_index d e s seq = Some (d', s') /\ desk_ok d' /\ dispatched d e d' /\ same_place d d'
    /\ same_queue s s' /\ drew_one (w_glob (d_world d)) (w_glob (d_world d')) /\ ranked (d_world d')
    /\ seq_accepted (ob_l3 (w_book (d_world d'))) seq = true
    /\ exists row, row_of_book d' e row
      /\ (es_level_update_buffer s' = es_level_update_buffer s ++ [row]
          \/ es_level_update_buffer s' = [row]
             /\ exists t, mkMDUpdate (name_of d) (venue_of d) t
                  (PLevels (u32 (Z.of_nat (List.length (es_level_update_buffer s)))) (es_level_update_buffer s))
                  ∈ w_md (d_world d')).
Proof.
  intros Hs Et Hold. unfold dispatchEvent. rewrite Et, (proj2 (Z.ltb_ge _ _) Hold).
  set (index := level_index _ _ _). set (known := bool_decide _). clearbody index known.
  destruct (level_applied d e seq Hs Et Hold) as (d1 & action & E1 & [M1 M2 M3 M4] & Hdisp). cbv zeta. rewrite E1.
  pose proof (last_update_published d1 (ev_event_time e) (ev_seq_num e)) as P1.
  set (d2 := desk_book d1 _) in *. destruct (flush_level_buffer d2 s e) as [d3 s3] eqn:E3.
  set (row := event_row level_index e known index action (w_book (d_world d3))).
  destruct (flush_level_published d2 s e row d3 s3 E3) as (P2 & Hq & El & Hb).
  assert (Ok3 : desk_ok d3) by (eapply only_published_ok; [exact P2|]; eapply only_published_ok; [exact P1|apply M1]).
  destruct P1 as [A1 A2 A3 A4 A5 A6 A7], P2 as [B1 B2 B3 B4 B5 B6 B7].
  pose proof (handled_place _ _ M1) as (L1 & L2 & L3').
  exists d3. eexists. split; [reflexivity|]. split; [exact Ok3|].
  split; [apply Hdisp; [by rewrite B4|by rewrite B7|by rewrite El]|].
  split; [split; [by rewrite B2, A2|]; split; [by rewrite B1, A1|unfold venue_of in *; by rewrite B3, A3]|].
  split; [exact Hq|]. split; [by rewrite B6, A6|]. split; [intros sd Hsd; unfold queue; rewrite B4, A4; by apply M3|].
  split; [by rewrite B4, A4|]. exists row. split.
  - apply event_row_of_book; [apply Ok3|apply Hs|by eapply apply_level_action].
  - destruct Hb as [Hb|(Hb & t & Hmd)]; [by left|right]. split; [exact Hb|]. exists t. rewrite Hmd.
    unfold venue_of, name_of in *. rewrite A1, A3, L3'. destruct L2 as (_ & _ & -> & _).
    apply elem_of_app. right. by apply list_elem_of_singleton.
Qed.

Lemma release n d s e :
  feed_ok n d s -> 1 <= n -> sane_event e ->
  exists d' s', release_event level_index d s e = Some (d', s') /\ feed_ok (n - 1) d' s' /\ released d s e d' s'.
Proof.
  intros Hk Hn He. pose proof (feed_ok_print n d s e Hk Hn He) as Hp. unfold release_event.
  destruct (nextBookSeqNum _ s) as [seq s1]. destruct Hp as (-> & H1 & H2 & Hs). set (s1 := s <| es_next_book_seq_num := seq |>) in *.
  pose proof (fk_stamp _ _ _ Hk) as Hst.
  destruct (ev_type e) eqn:Et.
  - destruct (decide (ev_event_time e < ob_last_update_time (w_book (d_world d)))) as [Hstale|Hold].
    { unfold dispatchEvent. rewrite Et, (proj2 (Z.ltb_lt _ _) Hstale). eexists _, _. split; [reflexivity|]. split.
      - eapply (feed_ok_after n d s _ _ seq); try done; [lia|apply Hs|split; [lia|lia|done]|apply Hs|lia].
      - split; try done; [by apply DispatchStale|cbn; lia|intros _ H; lia]. }
    destruct (dispatch_level d s1 e seq Hs Et ltac:(lia)) as (d' & s' & E & Ok & Hd & Hpl & [Q1 Q2 Q3 Q4] & Hdr & Hr & Ha & Hrow).
    rewrite E. eexists _, _. split; [reflexivity|]. split.
    + eapply (feed_ok_after n d s _ _ seq); try done; [lia|apply Hpl|]. apply stamp_accepted; [lia|done].
    + split; try done. cbn. rewrite Q4. cbn. lia.
  - destruct (print_dispatched d e seq Hs Et) as (d1 & summaries & left & E & [M1 M2 M3 M4] & Hd).
    unfold dispatchEvent. rewrite Et, E. eexists _, _. split; [reflexivity|]. split.
    + eapply (feed_ok_after n d s _ _ seq); try done; [lia|apply M1|apply (handled_place _ _ M1)|]. apply stamp_accepted; [lia|done].
    + split; try done; [by apply handled_place|cbn; lia|by rewrite Et].
Qed.

(** ** The loop *)

Lemma whole_order_pop q e r : pop_event q = Some (e, r) -> whole_order q = e :: whole_order r.
Proof.
  intros E. destruct (pop_event_spec _ _ _ E) as [Hp _]. apply Permutation_length in Hp. unfold whole_order.
  rewrite Hp. cbn [List.length dispatch_order]. by rewrite E.
Qed.

Lemma pop_event_none q : pop_event q = None -> q = [].
Proof. destruct q as [|e q]; [done|]. destruct (pop_event_some e q) as [x ->]. done. Qed.

(** The events of a list, released one after the other; what waits in the queue meanwhile is
    not part of it. *)
Inductive released_all : Desk -> SymbolEventState -> list Event -> Desk -> SymbolEventState -> Prop :=
| ReleasedNone d s : released_all d s [] d s
| ReleasedNext d s q e es d1 s1 d2 s2 :
    released d (s <| es_pending_events := q |>) e d1 s1 -> released_all d1 s1 es d2 s2 ->
    released_all d s (e :: es) d2 s2.

Lemma event_ready_same force now s s' e :
  es_last_event_time s' = es_last_event_time s -> event_ready force now s' e = event_ready force now s e.
Proof. unfold event_ready. by intros ->. Qed.

Lemma process_loop force now fuel : forall n d s,
  feed_ok n d s -> Forall sane_event (es_pending_events s) ->
  (List.length (es_pending_events s) <= fuel)%nat -> Z.of_nat (List.length (es_pending_events s)) <= n ->
  exists d' s' pre post, process_symbol level_index fuel force now d s = Some (d', s')
    /\ whole_order (es_pending_events s) = pre ++ post /\ released_all d s pre d' s'
    /\ Forall (fun e => event_ready force now s e = true) pre
    /\ match post with [] => True | e :: _ => event_ready force now s e = false end
    /\ whole_order (es_pending_events s') = post /\ feed_ok (n - Z.of_nat (List.length pre)) d' s'.
Proof.
  assert (Hstop : forall n d s post, feed_ok n d s -> whole_order (es_pending_events s) = post ->
    match post with [] => True | e :: _ => event_ready force now s e = false end ->
    exists d' s' pre post, Some (d, s) = Some (d', s')
    /\ whole_order (es_pending_events s) = pre ++ post /\ released_all d s pre d' s'
    /\ Forall (fun e => event_ready force now s e = true) pre
    /\ match post with [] => True | e :: _ => event_ready force now s e = false end
    /\ whole_order (es_pending_events s') = post /\ feed_ok (n - Z.of_nat (List.length pre)) d' s').
  { intros n d s post Hk Hw Hp. exists d, s, [], post. cbn [List.length]. rewrite Z.sub_0_r.
    split; [done|]. split; [done|]. split; [constructor|]. by split; [constructor|]. }
  induction fuel as [|fuel IH]; intros n d s Hk Hs Hlen Hn.
  { cbn [process_symbol]. apply (Hstop n d s []); [done| |done]. destruct (es_pending_events s) as [|? ?]; [done|cbn in Hlen; lia]. }
  cbn [process_symbol]. destruct (pop_event (es_pending_events s)) as [[e r]|] eqn:Ep.
  2: { apply (Hstop n d s []); [done| |done]. by rewrite (pop_event_none _ Ep). }
  pose proof (whole_order_pop _ _ _ Ep) as Hw. destruct (event_ready force now s e) eqn:Er.
  2: { by apply (Hstop n d s (e :: whole_order r)). }
  destruct (pop_event_spec _ _ _ Ep) as [Hperm _]. rewrite Hperm in Hs. apply Forall_cons in Hs as [He Hs].
  apply Permutation_length in Hperm. cbn [List.length] in Hperm. rewrite Hperm in *.
  assert (Hk0 : feed_ok n d (s <| es_pending_events := r |>)) by (destruct Hk; by split).
  destruct (release n d _ e Hk0 ltac:(lia) He) as (d1 & s1 & -> & Hk1 & Hr1).
  pose proof (rl_pending _ _ _ _ _ Hr1) as Ep1. cbn [es_pending_events upd] in Ep1.
  pose proof (rl_newest _ _ _ _ _ Hr1) as El1. cbn [es_last_event_time upd] in El1.
  destruct (IH (n - 1) d1 s1 Hk1) as (d' & s' & pre & post & -> & W1 & W2 & W3 & W4 & W5 & W6); rewrite ?Ep1; try done; try lia.
  exists d', s', (e :: pre), post. split; [done|]. split; [by rewrite Hw, <- Ep1, W1|]. split; [by econstructor|].
  split; [|split; [|split; [done|]]].
  - constructor; [done|]. eapply Forall_impl; [exact W3|]. intros x. cbn beta. by rewrite (event_ready_same force now s s1) by done.
  - destruct post; [done|]. by rewrite (event_ready_same force now s s1) in W4 by done.
  - cbn [List.length]. replace (n - _) with (n - 1 - Z.of_nat (List.length pre)) by lia. exact W6.
Qed.

End Loop.
End Dispatch.

(** ** Witness *)

(** The levels of the side before the price. *)
Definition sample_level_index (b : RefBook) (s : Side) (p : price_t) : Z :=
  Z.of_nat (List.length (List.filter (fun l => isPriceBetter s (lv_price l) p) (getLevelsL3 b s))).

Definition sample_queue : SymbolEventState := event_state after_trades 0.

Definition ranked_check (w : World RefBook Z) : bool :=
  forallb (fun s => forallb (fun x => negb (l3_priority x.2 =? 0)) (queue w s)) [BUY; SELL].

Lemma ranked_check_sound w : ranked_check w = true -> ranked w.
Proof.
  unfold ranked_check. rewrite forallb_forall. intros E s Hs. apply Forall_forall. intros x Hx.
  assert (Hin : In s [BUY; SELL]) by (destruct Hs as [-> | ->]; cbn; auto). specialize (E s Hin).
  rewrite forallb_forall in E. specialize (E x ltac:(by apply list_elem_of_In)). unfold ranked_order. by bool_to_prop.
Qed.

Lemma sample_ranked : ranked (d_world sample_desk).
Proof. apply ranked_check_sound. vm_compute. reflexivity. Qed.

Definition sane_check (l : list Event) : bool :=
  forallb (fun e => bool_decide (ev_side e = BUY \/ ev_side e = SELL) && negb (ev_price e =? NULL_PRICE) && (0 <=? ev_qty e)) l.

Lemma sane_check_sound l : sane_check l = true -> Forall sane_event l.
Proof.
  unfold sane_check. rewrite forallb_forall. intros E. apply Forall_forall. intros e He.
  specialize (E e ltac:(by apply list_elem_of_In)). apply andb_true_iff in E as [[E1 E2]%andb_true_iff E3].
  apply bool_decide_eq_true in E1. bool_to_prop. by split.
Qed.

Lemma sample_feed_ok : feed_ok 4 sample_desk sample_queue.
Proof.
  split; [exact sample_desk_ok|reflexivity|exact sample_ranked|..]; vm_compute; repeat split; congruence.
Qed.

Lemma sample_sane_events : Forall sane_event (es_pending_events sample_queue).
Proof. apply sane_check_sound. vm_compute. reflexivity. Qed.

