(* ===== verification/CoinbasePublisher.v ===== *)
(** * Coinbase's websocket publisher

    Models [src/venues/coinbase/coinbase_publisher.cpp] and [coinbase_trade_encoder.cpp]:
    which socket is subscribed to what, what each is sent and under which sequence number.
    A socket is the number [MDSubscriptionMessage] carries for its pointer; what was sent
    over a connection is kept with the connection. A message is [Sequenced n timestamp body]
    where [body] carries the fields the code writes. The multimap of a symbol's sockets is
    the list of its entries; a socket found there that is no longer open is read after it
    was freed, which is [None]. The channels' numbers and names are the SDK's, behind
    [CoinbaseSdk]; a parsed client message is nlohmann's, behind [Json] and [JsonItems]. *)

From S2P Require Import Prelude Types FixedString Timestamp Orders Messages MarketData.
From S2P Require Import MatchingConfig MdPublisher.

(** [coinbase::WebSocketChannel] and its [to_string]; how many producers a client registers. *)
Class CoinbaseSdk := {
  LEVEL2 : Z;
  MARKET_TRADES : Z;
  TICKER : Z;
  USER : Z;
  HEARTBEATS : Z;
  CHANNEL_COUNT : Z;
  PRODUCER_TYPE_COUNT : Z;
  channel_to_string : Z -> bytes
}.

(** Distinct enumerators below the count, which a byte holds. *)
Class CoinbaseSdkLaws `{CoinbaseSdk} : Prop := {
  law_channels : NoDup [LEVEL2; MARKET_TRADES; TICKER; USER; HEARTBEATS];
  law_range : Forall (fun c => 0 <= c < CHANNEL_COUNT) [LEVEL2; MARKET_TRADES; TICKER; USER; HEARTBEATS];
  law_count : CHANNEL_COUNT <= 256
}.

(** ** Messages *)

Record L2Row := mkL2Row {
  lr_side : bytes;
  lr_price_level : bytes;
  lr_new_quantity : bytes;
  lr_event_time : option bytes
}.

Record TradeRow := mkTradeRow {
  cr_trade_id : bytes;
  cr_product_id : bytes;
  cr_price : bytes;
  cr_size : bytes;
  cr_side : bytes;
  cr_time : bytes
}.

Inductive Body :=
  L2Data (type product_id : bytes) (updates : list L2Row)
| MarketTrades (type : bytes) (trades : list TradeRow)
| TickerSnapshot
| Subscriptions (channels : gmap bytes (list bytes))
| Heartbeat (current_time : bytes) (counter : Z).

Inductive OutMessage :=
  Sequenced (sequence_num : Z) (timestamp : bytes) (body : Body)
| Failure (text : bytes)
| Ping.

(** *** Encoding trades *)

Definition TRADE_TIME_DIGITS : Z := 6.
Definition ENVELOPE_TIME_DIGITS : Z := 9.

Definition encode_trade (product_id : bytes) (trade_id event_time : Z) (price : price_t) (qty : qty_t)
  (aggressor_side : Side) : TradeRow :=
  mkTradeRow (to_string_u64 trade_id) product_id (to_price_string price) (to_qty_string qty)
    (side_to_string aggressor_side) (format_timestamp_iso8601 event_time TRADE_TIME_DIGITS).

Definition encode_market_trade (product_id : bytes) (summary : TradeSummary) : Body :=
  MarketTrades (str "update")
    [encode_trade product_id (wts_trade_id summary) (u64 (wts_timestamp summary)) (wts_price summary) (wts_qty summary)
       (wts_aggressor_side summary)].

(** Reading past the array is [None]. *)
Definition encode_market_trades (product_id event_type : bytes) (trades : list MDTrade) (num_trades : Z)
  (newest_first : bool) : option Body :=
  let n := Z.to_nat num_trades in
  MarketTrades event_type <$>
    mapM (fun i => (fun t => encode_trade product_id (mt_trade_id t) (mt_event_time t) (mt_price t) (mt_qty t) (mt_side t))
                     <$> trades !! (if newest_first then n - 1 - i else i)%nat) (seq 0 n).

(** *** Encoding levels *)

Definition snapshot_row (side : bytes) (level : MDLevel) : L2Row :=
  mkL2Row side (to_price_string (ml_price level)) (to_qty_string (ml_qty level)) None.

Definition read_range (levels : list MDLevel) (first last : Z) : option (list MDLevel) :=
  mapM (fun i => levels !! i) (seq (Z.to_nat first) (Z.to_nat (last - first))).

(** Both loops over the levels of a snapshot. *)
Definition snapshot_rows (snapshot : BookSnapshot) : option (list L2Row) :=
  let total_levels := u32 (snap_num_bid snapshot + snap_num_ask snapshot) in
  match read_range (snap_levels snapshot) 0 (snap_num_bid snapshot),
        read_range (snap_levels snapshot) (snap_num_bid snapshot) total_levels with
  | Some bids, Some asks =>
      Some (map (snapshot_row (str "bid")) bids ++ map (snapshot_row (str "offer")) asks)
  | _, _ => None
  end.

Definition update_row (level : MDLevel) : L2Row :=
  mkL2Row (if bool_decide (ml_side level = BUY) then str "bid" else str "offer") (to_price_string (ml_price level))
    (to_qty_string (ml_qty level)) (Some (format_timestamp_iso8601 (ml_event_time level) 9)).

Definition update_rows (num_level_update : Z) (levels : list MDLevel) : option (list L2Row) :=
  map update_row <$> read_range levels 0 num_level_update.

(** ** The publisher's state *)

Record SubscriptionInfo := mkSubInfo {
  active_subscriptions : gset bytes;
  pending_subscriptions : gset bytes;
  received_subscriptions : list bytes
}.

#[export] Instance SubscriptionInfo_eta : Eta SubscriptionInfo := fun s =>
  mkSubInfo (active_subscriptions s) (pending_subscriptions s) (received_subscriptions s).

Definition no_subs : SubscriptionInfo := mkSubInfo ∅ ∅ [].

(** The array [subscription_info] maps the channels it was not told about to [no_subs]. *)
Record PerSocketData := mkSocket {
  sd_seq_num : Z;
  sd_last_pong : Z;
  sd_subscribed_heartbeat : bool;
  sd_subscription_info : gmap Z SubscriptionInfo;
  sd_sent : list OutMessage
}.

#[export] Instance PerSocketData_eta : Eta PerSocketData := fun s =>
  mkSocket (sd_seq_num s) (sd_last_pong s) (sd_subscribed_heartbeat s) (sd_subscription_info s) (sd_sent s).

Definition sub_info (sd : PerSocketData) (channel : Z) : SubscriptionInfo :=
  default no_subs (sd_subscription_info sd !! channel).

(** [heartbeat_start] is when the first heartbeat was rendered. *)
Record CoinbasePublisher := mkPublisher {
  pb_sockets : gmap Z PerSocketData;
  pb_clients : gset Z;
  pb_symbol_channel_client : gmap bytes (list (Z * Z));
  pb_subscription_info : gmap Z (gmap bytes (gset Z));
  pb_requests : list MdRequest;
  pb_heartbeat_count : Z;
  pb_heartbeat_start : option Z
}.

#[export] Instance CoinbasePublisher_eta : Eta CoinbasePublisher := fun p =>
  mkPublisher (pb_sockets p) (pb_clients p) (pb_symbol_channel_client p) (pb_subscription_info p)
    (pb_requests p) (pb_heartbeat_count p) (pb_heartbeat_start p).

Definition new_publisher : CoinbasePublisher := mkPublisher ∅ ∅ ∅ ∅ [] 0 None.

(** ** Sending *)

Definition on_socket (p : CoinbasePublisher) (ws : Z) (f : PerSocketData -> PerSocketData) : option CoinbasePublisher :=
  match pb_sockets p !! ws with
  | Some sd => Some (p <| pb_sockets ::= <[ws := f sd]> |>)
  | None => None
  end.

Definition send_to (m : OutMessage) (p : CoinbasePublisher) (ws : Z) : option CoinbasePublisher :=
  on_socket p ws (fun sd => sd <| sd_sent ::= fun l => l ++ [m] |>).

(** [user_data->seq_num++] goes into the message. *)
Definition stamp (timestamp : bytes) (body : Body) (sd : PerSocketData) : PerSocketData :=
  sd <| sd_sent ::= fun l => l ++ [Sequenced (sd_seq_num sd) timestamp body] |>
     <| sd_seq_num ::= fun n => u64 (n + 1) |>.

Definition send_sequenced (timestamp : bytes) (body : Body) (p : CoinbasePublisher) (ws : Z) : option CoinbasePublisher :=
  on_socket p ws (stamp timestamp body).

(** A loop over sockets or entries. *)
Fixpoint each {P A} (f : P -> A -> option P) (l : list A) (p : P) : option P :=
  match l with
  | [] => Some p
  | x :: l => match f p x with Some p => each f l p | None => None end
  end.

Definition set_info (channel : Z) (f : SubscriptionInfo -> SubscriptionInfo) (sd : PerSocketData) : PerSocketData :=
  sd <| sd_subscription_info ::= <[channel := f (sub_info sd channel)]> |>.

Definition send_error (ws : Z) (error_msg : bytes) (p : CoinbasePublisher) : option CoinbasePublisher :=
  send_to (Failure error_msg) p ws.

Section Publisher.
Context {sdk : CoinbaseSdk} {J : Type} {json : Json J} {items : JsonItems J}.

(** What the clock shows where a message is built, rendered to nanoseconds; a handler is
    given one reading of it for everything it builds. *)
Definition now_text (now : Z) : bytes := format_time_point now 9.

(** ** Connections *)

(** uWebSockets value-initialises the user data of a new socket. *)
Definition open_socket (p : CoinbasePublisher) (ws now : Z) : CoinbasePublisher :=
  p <| pb_sockets ::= <[ws := mkSocket 0 now false ∅ []]> |> <| pb_clients ::= fun c => {[ws]} ∪ c |>.

Definition pong (p : CoinbasePublisher) (ws now : Z) : option CoinbasePublisher :=
  on_socket p ws (fun sd => sd <| sd_last_pong := now |>).

(** The sockets of [subscription_info_[channel][symbol]]. *)
Definition subscribers (p : CoinbasePublisher) (channel : Z) (symbol : bytes) : gset Z :=
  default ∅ (default ∅ (pb_subscription_info p !! channel) !! symbol).

Definition set_subscribers (channel : Z) (symbol : bytes) (s : gset Z) (p : CoinbasePublisher) : CoinbasePublisher :=
  p <| pb_subscription_info ::= fun m => <[channel := <[symbol := s]> (default ∅ (m !! channel))]> m |>.

Definition push_request (type : MessageType) (channel ws : Z) (symbol : bytes) (p : CoinbasePublisher) : CoinbasePublisher :=
  p <| pb_requests ::= fun q => q ++ [mkMdRequest (assign 32 symbol) type (u8 channel) ws] |>.

(** The body of each of [handle_message]'s three product loops. *)
Definition subscribe_product (ws channel_index : Z) (p : CoinbasePublisher) (symbol : bytes) : option CoinbasePublisher :=
  let p := push_request Msg.MD_SUBSCRIPTION channel_index ws symbol p in
  let p := set_subscribers channel_index symbol ({[ws]} ∪ subscribers p channel_index symbol) p in
  match on_socket p ws (set_info channel_index (fun s =>
          s <| active_subscriptions ::= fun a => {[symbol]} ∪ a |> <| pending_subscriptions ::= fun a => {[symbol]} ∪ a |>)) with
  | Some p => Some (p <| pb_symbol_channel_client ::= fun m =>
                           <[symbol := default [] (m !! symbol) ++ [(channel_index, ws)]]> m |>)
  | None => None
  end.

(** The first entry of the channel naming [ws] goes. *)
Fixpoint erase_client (channel ws : Z) (l : list (Z * Z)) : list (Z * Z) :=
  match l with
  | [] => []
  | x :: l => if bool_decide (x = (channel, ws)) then l else x :: erase_client channel ws l
  end.

Definition unsubscribe_symbol (ws channel : Z) (p : CoinbasePublisher) (symbol : bytes) : CoinbasePublisher :=
  let p := push_request Msg.MD_UNSUBSCRIPTION channel ws symbol p in
  let p := p <| pb_symbol_channel_client ::= fun m =>
                  match m !! symbol with
                  | Some l => match erase_client channel ws l with [] => delete symbol m | l => <[symbol := l]> m end
                  | None => m
                  end |> in
  set_subscribers channel symbol (subscribers p channel symbol ∖ {[ws]}) p.

Definition unsubscribe_channel (ws : Z) (p : CoinbasePublisher) (channel : Z) : option CoinbasePublisher :=
  match pb_sockets p !! ws with
  | None => None
  | Some sd =>
      let p := fold_left (unsubscribe_symbol ws channel) (elements (active_subscriptions (sub_info sd channel))) p in
      on_socket p ws (set_info channel (fun _ => no_subs))
  end.

Definition unsubscribe_md (p : CoinbasePublisher) (ws : Z) : option CoinbasePublisher :=
  each (unsubscribe_channel ws) (seqZ 0 CHANNEL_COUNT) p.

(** The socket is gone when its close handler returns. *)
Definition handle_close (p : CoinbasePublisher) (ws : Z) : option CoinbasePublisher :=
  (fun p => p <| pb_clients ::= fun c => c ∖ {[ws]} |> <| pb_sockets ::= delete ws |>) <$> unsubscribe_md p ws.

(** Closing a socket runs its close handler. *)
Definition check_socket (now pong_timeout : Z) (wall : Z) (p : CoinbasePublisher) (ws : Z) : option CoinbasePublisher :=
  match pb_sockets p !! ws with
  | None => None
  | Some sd =>
      if pong_timeout <? Z.quot (now - sd_last_pong sd) 1000000000 then
        handle_close (p <| pb_clients ::= fun c => c ∖ {[ws]} |>) ws
      else if sd_subscribed_heartbeat sd then
        let start := default wall (pb_heartbeat_start p) in
        let body := Heartbeat (format_heatbeat_timestamp start wall) (pb_heartbeat_count p) in
        let p := p <| pb_heartbeat_start := Some start |> <| pb_heartbeat_count ::= fun n => u64 (n + 1) |> in
        match send_sequenced (now_text wall) body p ws with Some p => send_to Ping p ws | None => None end
      else send_to Ping p ws
  end.

Definition check_heartbeats (p : CoinbasePublisher) (now pong_timeout wall : Z) : option CoinbasePublisher :=
  each (check_socket now pong_timeout wall) (elements (pb_clients p)) p.

(** ** Client messages *)

(** What escapes the handler ends the publisher's thread; touching a socket that is not open
    is [Undefined]. *)

(** [get<std::string>] of each product. *)
Fixpoint subscribe_products (ws channel_index : Z) (prods : list J) (p : CoinbasePublisher) : result CoinbasePublisher :=
  match prods with
  | [] => Ok p
  | prod :: prods =>
      match js_get_string prod with
      | None => Throw BadJson
      | Some symbol => let* p := defined (subscribe_product ws channel_index p symbol) in
                       subscribe_products ws channel_index prods p
      end
  end.

(** [msg["product_ids"]]: a member that is missing is created null. *)
Definition product_ids (msg : J) : list J :=
  match js_find msg (str "product_ids") with Some v => js_items v | None => [] end.

Definition subscribe_heartbeats (now ws : Z) (p : CoinbasePublisher) : option CoinbasePublisher :=
  match on_socket p ws (fun sd => sd <| sd_subscribed_heartbeat := true |>) with
  | Some p => send_sequenced (now_text now) (Subscriptions {[str "heartbeats" := [str "heartbeats"]]}) p ws
  | None => None
  end.

(** A socket the publisher does not know starts again from zero. *)
Definition greet (ws : Z) (p : CoinbasePublisher) : option CoinbasePublisher :=
  if bool_decide (ws ∈ pb_clients p) then Some p
  else (fun p => p <| pb_clients ::= fun c => {[ws]} ∪ c |>) <$> on_socket p ws (fun sd => sd <| sd_seq_num := 0 |>).

(** A message [json::parse] accepted, or the text of what it threw. Only parse errors are
    caught. *)
Definition handle_message (now : Z) (p : CoinbasePublisher) (ws : Z) (message : bytes + J) : result CoinbasePublisher :=
  match message with
  | inl what => defined (send_error ws (str "Invalid JSON: " ++ what) p)
  | inr msg =>
      if bool_decide (js_find msg (str "type") ≫= js_get_string = Some (str "subscribe")) then
        let* p := defined (greet ws p) in
        match js_find msg (str "channel") ≫= js_get_string with
        | None => Throw BadJson
        | Some channel =>
            if bytes_eqb channel (str "level2") then subscribe_products ws LEVEL2 (product_ids msg) p
            else if bytes_eqb channel (str "market_trades") then subscribe_products ws MARKET_TRADES (product_ids msg) p
            else if bytes_eqb channel (str "ticker") then subscribe_products ws TICKER (product_ids msg) p
            else if bytes_eqb channel (str "heartbeats") then defined (subscribe_heartbeats now ws p)
            else defined (send_error ws (str "channel `" ++ channel ++ str "` is not supported") p)
        end
      else
        let* type := string_value msg (str "type") [] in
        defined (send_error ws (str "type `" ++ type ++ str "` is not supported") p)
  end.

(** ** Frames of the market-data queue *)

Definition response_header (data : MDPayload) : option (Z * MDSubscriptionRejectReason) :=
  match data with
  | PSubReject ch reason => Some (ch, reason)
  | PSubBook ch reason _ => Some (ch, reason)
  | PSubTrades ch reason _ => Some (ch, reason)
  | _ => None
  end.

(** The snapshot a response turns into, and the update that may follow it; [None] where the
    code reads a frame as what it is not. *)
Definition response_bodies (symbol : bytes) (channel : Z) (data : MDPayload) : option (Body * option Body) :=
  if channel =? LEVEL2 then
    match data with
    | PSubBook _ _ snapshot => (fun rows => (L2Data (str "snapshot") symbol rows, None)) <$> snapshot_rows snapshot
    | _ => None
    end
  else if channel =? MARKET_TRADES then
    match data with
    | PSubTrades _ _ r =>
        match encode_market_trades symbol (str "snapshot") (tsr_trades r) (tsr_num_snapshot r) true with
        | None => None
        | Some snapshot =>
            if tsr_num_update r =? 0 then Some (snapshot, None)
            else (fun u => (snapshot, Some u)) <$>
                 encode_market_trades symbol (str "update") (drop (Z.to_nat (tsr_num_snapshot r)) (tsr_trades r))
                   (tsr_num_update r) false
        end
    | _ => None
    end
  else Some (TickerSnapshot, None).

(** What the socket is subscribed to, channel by channel: the object's members. *)
Definition confirmation (channel : Z) (sd : PerSocketData) : gmap bytes (list bytes) :=
  fold_left (fun m i =>
    if i =? channel then m
    else if bool_decide (received_subscriptions (sub_info sd i) = []) then m
    else <[channel_to_string i := received_subscriptions (sub_info sd i)]> m)
    (seqZ 0 CHANNEL_COUNT) {[channel_to_string channel := received_subscriptions (sub_info sd channel)]}.

(** The snapshot of a subscriber still waiting for it, and its confirmation with the last. *)
Definition deliver_snapshot (timestamp : bytes) (channel : Z) (symbol : bytes) (snapshot : Body) (update : option Body)
  (sd : PerSocketData) : PerSocketData :=
  if bool_decide (symbol ∈ pending_subscriptions (sub_info sd channel)) then
    let sd := set_info channel (fun s => s <| pending_subscriptions ::= fun a => a ∖ {[symbol]} |>
                                           <| received_subscriptions ::= fun l => l ++ [symbol] |>) sd in
    let sd := stamp timestamp snapshot sd in
    let sd := match update with Some u => stamp timestamp u sd | None => sd end in
    if bool_decide (pending_subscriptions (sub_info sd channel) = ∅)
    then stamp timestamp (Subscriptions (confirmation channel sd)) sd else sd
  else sd.

(** The sockets of a response: told why it was rejected, or sent what it turns into. *)
Definition respond (now : Z) (symbol : bytes) (channel : Z) (reject_reason : MDSubscriptionRejectReason) (data : MDPayload)
  (p : CoinbasePublisher) : option CoinbasePublisher :=
  let sockets := subscribers p channel symbol in
  if bool_decide (sockets = ∅) then Some p
  else if bool_decide (reject_reason <> MDReject.NONE) then
    let message := str "Subscription to " ++ symbol ++ str " rejected: " ++ MDReject.md_reject_to_string reject_reason in
    each (fun p ws => send_error ws message p) (elements sockets) p
  else if bool_decide (channel ∈ [LEVEL2; MARKET_TRADES; TICKER]) then
    match response_bodies symbol channel data with
    | None => None
    | Some (snapshot, trades) =>
        each (fun p ws => on_socket p ws (deliver_snapshot (now_text now) channel symbol snapshot trades))
          (elements sockets) p
    end
  else Some p.

Definition publish_subscription_response (now : Z) (p : CoinbasePublisher) (update : MarketDataUpdate)
  : option CoinbasePublisher :=
  match response_header (mdu_data update) with
  | None => None
  | Some (channel, reject_reason) =>
      if negb (channel <? CHANNEL_COUNT) then None
      else respond now (view (mdu_symbol update)) channel reject_reason (mdu_data update) p
  end.

(** [equal_range] of a channel in [symbol_channel_client_[symbol]]. *)
Definition entries (p : CoinbasePublisher) (symbol : bytes) (channel : Z) : list Z :=
  map snd (List.filter (fun e => fst e =? channel) (default [] (pb_symbol_channel_client p !! symbol))).

(** The three publishers of a frame build it only when someone is there to be sent it. *)
Definition publish_level_snapshot (now : Z) (p : CoinbasePublisher) (update : MarketDataUpdate) : option CoinbasePublisher :=
  let symbol := view (mdu_symbol update) in
  let range := entries p symbol LEVEL2 in
  if bool_decide (range = []) then Some p
  else match mdu_data update with
       | PSnapshot snapshot =>
           match snapshot_rows snapshot with
           | Some rows => each (send_sequenced (now_text now) (L2Data (str "snapshot") symbol rows)) range p
           | None => None
           end
       | _ => None
       end.

Definition publish_level_update (now : Z) (p : CoinbasePublisher) (update : MarketDataUpdate) : option CoinbasePublisher :=
  let symbol := view (mdu_symbol update) in
  let range := entries p symbol LEVEL2 in
  if bool_decide (range = []) then Some p
  else match mdu_data update with
       | PLevels num_level_update levels =>
           match update_rows num_level_update levels with
           | Some rows => each (send_sequenced (now_text now) (L2Data (str "update") symbol rows)) range p
           | None => None
           end
       | _ => None
       end.

Definition publish_trade_summary (now : Z) (p : CoinbasePublisher) (update : MarketDataUpdate) : option CoinbasePublisher :=
  let symbol := view (mdu_symbol update) in
  let range := entries p symbol MARKET_TRADES in
  if bool_decide (range = []) then Some p
  else match mdu_data update with
       | PTradeSummary summary => each (send_sequenced (now_text now) (encode_market_trade symbol summary)) range p
       | _ => None
       end.

(** The assertion fails for any subscriber of the channel. *)
Definition publish_order_update (p : CoinbasePublisher) (update : MarketDataUpdate) : option CoinbasePublisher :=
  if bool_decide (entries p (view (mdu_symbol update)) USER = []) then Some p else None.

Definition publish_market_data_update (now : Z) (p : CoinbasePublisher) (update : MarketDataUpdate)
  : option CoinbasePublisher :=
  match mdu_type update with
  | LEVEL => publish_level_update now p update
  | ORDER => publish_order_update p update
  | SUB_RESPONSE => publish_subscription_response now p update
  | BOOK_SNAPSHOT => publish_level_snapshot now p update
  | TRADE_SUMMARY => publish_trade_summary now p update
  | _ => Some p
  end.
End Publisher.

(** ** Concrete channels *)

Definition sample_channel (c : Z) : bytes :=
  if c =? 0 then str "level2" else if c =? 1 then str "market_trades" else if c =? 2 then str "ticker"
  else if c =? 3 then str "user" else str "heartbeats".

#[export] Instance sample_sdk : CoinbaseSdk := {
  LEVEL2 := 0; MARKET_TRADES := 1; TICKER := 2; USER := 3; HEARTBEATS := 4; CHANNEL_COUNT := 5; PRODUCER_TYPE_COUNT := 2;
  channel_to_string := sample_channel
}.

#[export] Instance sample_sdk_laws : CoinbaseSdkLaws.
Proof. split; cbn [LEVEL2 MARKET_TRADES TICKER USER HEARTBEATS CHANNEL_COUNT sample_sdk]; [|repeat constructor; lia|lia].
  apply NoDup_ListNoDup. repeat constructor; cbn; lia.
Qed.

(** A client asking for the book of a product. *)
Definition subscribe_level2 (product : bytes) : FlatJson :=
  JObject [(str "type", JString (str "subscribe")); (str "channel", JString (str "level2")); (str "product_ids", JString product)].
