(* ===== verification/CoinbasePublisherProofs.v ===== *)
(** * What the sockets of Coinbase's publisher are sent

    [sockets_keep] is the induction over everything the publisher is told: what opening a
    connection, stamping a message and the bookkeeping of one socket keep, every history
    keeps. With it, each connection's messages are numbered without a gap. *)

From S2P Require Import Prelude Types FixedString Timestamp Orders Messages MarketData.
From S2P Require Import MatchingConfig MdPublisher CoinbasePublisher OrderBookInv.

(** ** Everything the publisher is told *)

Section Events.
Context {sdk : CoinbaseSdk} {J : Type} {json : Json J} {items : JsonItems J}.
Implicit Types p : CoinbasePublisher.
Implicit Types sd : PerSocketData.

Inductive Event :=
  EvOpen (ws now : Z)
| EvClose (ws : Z)
| EvPong (ws now : Z)
| EvHeartbeats (now pong_timeout wall : Z)
| EvMessage (now ws : Z) (message : bytes + J)
| EvFrame (now : Z) (update : MarketDataUpdate).

Definition run_event p (e : Event) : option CoinbasePublisher :=
  match e with
  | EvOpen ws now => Some (open_socket p ws now)
  | EvClose ws => handle_close p ws
  | EvPong ws now => pong p ws now
  | EvHeartbeats now pong_timeout wall => check_heartbeats p now pong_timeout wall
  | EvMessage now ws message => match handle_message now p ws message with Ok p => Some p | _ => None end
  | EvFrame now update => publish_market_data_update now p update
  end.

Definition run_events (es : list Event) p : option CoinbasePublisher := each run_event es p.

(** ** Invariants of a socket *)

(** The updates the publisher makes to one socket's data. *)
Inductive socket_update : PerSocketData -> PerSocketData -> Prop :=
| up_stamp timestamp body sd : socket_update sd (stamp timestamp body sd)
| up_plain m sd : (forall n t b, m <> Sequenced n t b) -> socket_update sd (sd <| sd_sent ::= fun l => l ++ [m] |>)
| up_info channel f sd : socket_update sd (set_info channel f sd)
| up_pong now sd : socket_update sd (sd <| sd_last_pong := now |>)
| up_heartbeat sd : socket_update sd (sd <| sd_subscribed_heartbeat := true |>).

(** [clients_] holds the open sockets, those being closed apart. *)
Definition known (X : gset Z) p : Prop := pb_clients p ∖ X = dom (pb_sockets p) ∖ X.

Section Keep.
Variable P : PerSocketData -> Prop.
Hypothesis P_update : forall sd sd', P sd -> socket_update sd sd' -> P sd'.
Hypothesis P_fresh : forall now, P (mkSocket 0 now false ∅ []).

Definition kept (X : gset Z) p : Prop := known X p /\ map_Forall (fun _ => P) (pb_sockets p).

Lemma on_socket_kept X p ws f p' : (forall sd, P sd -> P (f sd)) -> kept X p -> on_socket p ws f = Some p' -> kept X p'.
Proof.
  intros Hf [Hk Hp]. unfold on_socket. destruct (pb_sockets p !! ws) as [sd|] eqn:E; [|done]. intros [= <-]. split.
  - unfold known in *. cbn. apply elem_of_dom_2 in E. rewrite Hk, dom_insert_L. set_solver.
  - cbn. apply map_Forall_insert_2; [|done]. by apply Hf, (Hp ws).
Qed.

Lemma each_kept X {A} (f : CoinbasePublisher -> A -> option CoinbasePublisher) :
  (forall p x p', kept X p -> f p x = Some p' -> kept X p') -> forall l p p', kept X p -> each f l p = Some p' -> kept X p'.
Proof.
  intros Hf l. induction l as [|x l IH]; intros p p' Hp; cbn [each]; [by intros [= <-]|].
  destruct (f p x) as [p1|] eqn:E; [|done]. apply IH. by eapply Hf.
Qed.

Lemma update_kept f : (forall sd, socket_update sd (f sd)) -> forall sd, P sd -> P (f sd).
Proof. intros Hf sd Hp. by eapply P_update. Qed.

Lemma send_sequenced_kept X timestamp body p ws p' : kept X p -> send_sequenced timestamp body p ws = Some p' -> kept X p'.
Proof. intros Hp. apply on_socket_kept; [|done]. apply update_kept. constructor. Qed.

Lemma send_to_kept X m p ws p' : (forall n t b, m <> Sequenced n t b) -> kept X p -> send_to m p ws = Some p' -> kept X p'.
Proof. intros Hm Hp. apply on_socket_kept; [|done]. apply update_kept. by constructor. Qed.

Lemma open_kept X p ws now : kept X p -> kept X (open_socket p ws now).
Proof.
  intros [Hk Hp]. split; [unfold known in *; cbn; rewrite dom_insert_L; set_solver|]. cbn. by apply map_Forall_insert_2.
Qed.

Lemma kept_fields X p p' : pb_sockets p' = pb_sockets p -> pb_clients p' = pb_clients p -> kept X p -> kept X p'.
Proof. intros E1 E2 [Hk Hp]. split; [unfold known in *; congruence|]. by rewrite E1. Qed.

Lemma subscribe_kept X ws channel p symbol p' : kept X p -> subscribe_product ws channel p symbol = Some p' -> kept X p'.
Proof.
  intros Hp. unfold subscribe_product. set (p1 := set_subscribers _ _ _ _).
  destruct (on_socket p1 ws _) as [p2|] eqn:E; [|done]. intros [= <-].
  apply (kept_fields X p2); [done|done|]. eapply on_socket_kept; [|by apply (kept_fields X p p1)|exact E].
  apply update_kept. constructor.
Qed.

Lemma subscribe_products_kept X ws channel prods : forall p p', kept X p -> subscribe_products ws channel prods p = Ok p' -> kept X p'.
Proof.
  induction prods as [|prod prods IH]; intros p p' Hp; cbn [subscribe_products]; [by intros [= <-]|].
  destruct (js_get_string prod) as [symbol|]; [|done]. destruct (subscribe_product _ _ p symbol) as [p1|] eqn:E; [|done].
  cbn. apply IH. by eapply subscribe_kept.
Qed.

Lemma unsubscribe_symbols_rest ws channel l : forall p,
  let p' := fold_left (unsubscribe_symbol ws channel) l p in
  pb_sockets p' = pb_sockets p /\ pb_clients p' = pb_clients p.
Proof. induction l as [|symbol l IH]; intros p; [done|]. cbn [fold_left]. destruct (IH (unsubscribe_symbol ws channel p symbol)) as [-> ->]. done. Qed.

Lemma unsubscribe_channel_kept X ws p channel p' : kept X p -> unsubscribe_channel ws p channel = Some p' -> kept X p'.
Proof.
  intros Hp. unfold unsubscribe_channel. destruct (pb_sockets p !! ws) as [sd|]; [|done]. apply on_socket_kept.
  - apply update_kept. constructor.
  - destruct (unsubscribe_symbols_rest ws channel (elements (active_subscriptions (sub_info sd channel))) p) as [E1 E2].
    by eapply kept_fields.
Qed.

Lemma close_kept p ws p' : kept {[ws]} p -> handle_close p ws = Some p' -> kept ∅ p'.
Proof.
  intros Hp. unfold handle_close, unsubscribe_md. destruct (each _ _ p) as [p1|] eqn:E; [|done]. intros [= <-].
  apply (each_kept {[ws]} (unsubscribe_channel ws)) in E as [Hk H1]; [|intros; by eapply unsubscribe_channel_kept|done].
  split; [unfold known in *; cbn; by rewrite dom_delete_L, Hk|]. cbn. by apply map_Forall_delete.
Qed.

Lemma kept_more p ws : kept ∅ p -> kept {[ws]} p.
Proof. intros [Hk Hp]. split; [|done]. unfold known in *. rewrite !difference_empty_L in Hk. by rewrite Hk. Qed.

Lemma heartbeats_kept p now pong_timeout wall p' :
  kept ∅ p -> check_heartbeats p now pong_timeout wall = Some p' -> kept ∅ p'.
Proof.
  unfold check_heartbeats. apply each_kept. intros p1 ws p2 Hp. unfold check_socket.
  destruct (pb_sockets p1 !! ws) as [sd|]; [|done]. case_test.
  - apply close_kept. destruct (kept_more p1 ws Hp) as [Hk Hp']. split; [|done]. unfold known in *. cbn. by rewrite difference_twice_L.
  - case_test; [|by apply send_to_kept].
    destruct (send_sequenced _ _ _ _) as [p3|] eqn:E; [|done]. apply send_to_kept; [done|].
    eapply send_sequenced_kept; [|exact E]. by apply (kept_fields ∅ p1).
Qed.

(** The publisher knows every open socket, so no number is taken back. *)
Lemma greet_known p ws p' : known ∅ p -> greet ws p = Some p' -> p' = p.
Proof.
  unfold known, greet, on_socket. rewrite !difference_empty_L. intros Hk. case_bool_decide as Hc; [by intros [= <-]|].
  rewrite Hk, not_elem_of_dom in Hc. by rewrite Hc.
Qed.

Lemma defined_Ok {A} (o : option A) a : defined o = Ok a -> o = Some a.
Proof. destruct o; [by intros [= ->]|done]. Qed.

Lemma subscribe_heartbeats_kept now ws p p' : kept ∅ p -> subscribe_heartbeats now ws p = Some p' -> kept ∅ p'.
Proof.
  intros Hp. unfold subscribe_heartbeats. destruct (on_socket p ws _) as [p1|] eqn:E; [|done].
  apply send_sequenced_kept. eapply on_socket_kept; [|exact Hp|exact E]. apply update_kept. constructor.
Qed.

Lemma error_kept ws text p p' : kept ∅ p -> defined (send_error ws text p) = Ok p' -> kept ∅ p'.
Proof. intros Hp H%defined_Ok. eapply send_to_kept; [|exact Hp|exact H]. done. Qed.

Lemma message_kept now p ws message p' : kept ∅ p -> handle_message now p ws message = Ok p' -> kept ∅ p'.
Proof.
  intros Hp. destruct message as [what|msg]; cbn [handle_message]; [by apply error_kept|].
  destruct (bool_decide _).
  - destruct (greet ws p) as [p1|] eqn:Eg; [|done]. cbn [defined rbind]. apply (greet_known p ws p1 (proj1 Hp)) in Eg as ->.
    destruct (_ ≫= js_get_string) as [channel|]; [|done].
    repeat (case_test; [by apply subscribe_products_kept|]). case_test; [|by apply error_kept].
    intros H%defined_Ok. by eapply subscribe_heartbeats_kept.
  - destruct (string_value _ _ _) as [type| |]; [|done|done]. by apply error_kept.
Qed.

Lemma deliver_updates timestamp channel symbol snapshot update :
  forall sd, P sd -> P (deliver_snapshot timestamp channel symbol snapshot update sd).
Proof.
  assert (Hstamp : forall b sd, P sd -> P (stamp timestamp b sd)) by (intros b sd Hs; eapply P_update; [done|constructor]).
  intros sd Hp. unfold deliver_snapshot. case_bool_decide; [|done]. set (sd1 := stamp _ _ _).
  assert (H1 : P sd1) by (apply Hstamp; eapply P_update; [done|constructor]).
  set (sd2 := match update with Some _ => _ | None => _ end). assert (H2 : P sd2) by (unfold sd2; destruct update; [by apply Hstamp|done]).
  case_bool_decide; [by apply Hstamp|done].
Qed.

Lemma frame_kept now p update p' : kept ∅ p -> publish_market_data_update now p update = Some p' -> kept ∅ p'.
Proof.
  intros Hp. unfold publish_market_data_update.
  assert (Hsend : forall timestamp body l p', each (send_sequenced timestamp body) l p = Some p' -> kept ∅ p').
  { intros timestamp body l q. apply each_kept; [|done]. intros. by eapply send_sequenced_kept. }
  destruct (mdu_type update); try (by intros [= <-]).
  - unfold publish_level_update. case_bool_decide; [by intros [= <-]|]. destruct (mdu_data update); try done.
    destruct (update_rows _ _); [apply Hsend|done].
  - unfold publish_order_update. case_bool_decide; [by intros [= <-]|done].
  - unfold publish_trade_summary. case_bool_decide; [by intros [= <-]|]. destruct (mdu_data update); try done. apply Hsend.
  - unfold publish_level_snapshot. case_bool_decide; [by intros [= <-]|]. destruct (mdu_data update); try done.
    destruct (snapshot_rows _); [apply Hsend|done].
  - unfold publish_subscription_response. destruct (response_header _) as [[channel reason]|]; [|done].
    case_test; [done|]. unfold respond. case_bool_decide; [by intros [= <-]|]. case_bool_decide.
    { apply each_kept; [|done]. intros p1 ws p2 Hp1. by apply send_to_kept. }
    case_bool_decide; [|by intros [= <-]]. destruct (response_bodies _ _ _) as [[snapshot trades]|]; [|done].
    apply each_kept; [|done]. intros p1 ws p2 Hp1. apply on_socket_kept; [|done]. apply deliver_updates.
Qed.

Lemma event_kept p e p' : kept ∅ p -> run_event p e = Some p' -> kept ∅ p'.
Proof.
  intros Hp. destruct e as [ws now|ws|ws now|now timeout wall|now ws message|now update]; cbn [run_event].
  - intros [= <-]. by apply open_kept.
  - apply close_kept. by apply kept_more.
  - apply on_socket_kept; [|done]. apply update_kept. constructor.
  - by apply heartbeats_kept.
  - destruct (handle_message now p ws message) eqn:E; [|done|done]. intros [= <-]. by eapply message_kept.
  - by apply frame_kept.
Qed.

(** What one update keeps of a socket's data, every history keeps of every socket. *)
Lemma sockets_keep es p' : run_events es new_publisher = Some p' ->
  pb_clients p' = dom (pb_sockets p') /\ forall ws sd, pb_sockets p' !! ws = Some sd -> P sd.
Proof.
  intros H. apply (each_kept ∅ run_event) in H as [Hk Hp].
  - unfold known in Hk. rewrite !difference_empty_L in Hk. split; [done|]. intros ws sd E. by apply (Hp ws).
  - intros. by eapply event_kept.
  - split; [|apply map_Forall_empty]. done.
Qed.
End Keep.

(** ** Sequence numbers *)

Definition number_of (m : OutMessage) : option Z := match m with Sequenced n _ _ => Some n | _ => None end.

Definition numbers (sent : list OutMessage) : list Z := omap number_of sent.

Definition numbered sd : Prop :=
  numbers (sd_sent sd) = map (fun i => u64 (Z.of_nat i)) (seq 0 (List.length (numbers (sd_sent sd))))
  /\ sd_seq_num sd = u64 (Z.of_nat (List.length (numbers (sd_sent sd)))).

Lemma numbers_snoc sent m : numbers (sent ++ [m]) = numbers sent ++ match number_of m with Some n => [n] | None => [] end.
Proof. unfold numbers. rewrite omap_app. f_equal. Qed.

Lemma numbered_update sd sd' : numbered sd -> socket_update sd sd' -> numbered sd'.
Proof.
  intros [H1 H2] U. destruct U as [timestamp body sd|m sd Hm|channel f sd|now sd|sd]; try done; unfold numbered; cbn.
  - rewrite numbers_snoc, length_app. cbn [number_of List.length]. rewrite Nat.add_1_r. rewrite seq_S, map_app, <- H1, H2. split; [done|].
    unfold wrap. rewrite Nat2Z.inj_succ, Zplus_mod_idemp_l. f_equal.
  - rewrite numbers_snoc. assert (E : number_of m = None) by (destruct m; [by destruct (Hm sequence_num timestamp body)|done|done]).
    rewrite E, app_nil_r. done.
Qed.

(** Whatever clients connect, subscribe or leave and whatever is published, the messages
    that carry a sequence number were numbered 0, 1, 2, ... on every connection. *)
Lemma numbered_always es p ws sd : run_events es new_publisher = Some p -> pb_sockets p !! ws = Some sd -> numbered sd.
Proof. intros H. apply (sockets_keep numbered numbered_update) in H as [_ H]; [by apply H|done]. Qed.
End Events.

(** C26. Whatever clients connect, subscribe, fall silent or leave, and whatever is
    published, the messages sent over one connection that carry a sequence number were
    numbered 0, 1, 2, ... without a gap, and the publisher knows exactly the sockets that are
    open. *)
Theorem coinbase_numbers_gapless {sdk : CoinbaseSdk} {J} {json : Json J} {items : JsonItems J} es p ws sd :
  run_events es new_publisher = Some p -> pb_sockets p !! ws = Some sd ->
  numbers (sd_sent sd) = map (fun i => u64 (Z.of_nat i)) (seq 0 (List.length (numbers (sd_sent sd))))
  /\ pb_clients p = dom (pb_sockets p).
Proof.
  intros H E. destruct (numbered_always es p ws sd H E) as [Hn _].
  by apply (sockets_keep numbered numbered_update) in H as [Hk _].
Qed.

Definition sample_level (s : Side) (price qty : Z) : MDLevel := mkMDLevel 1700000000000000000 1 price qty 1 0 ACTION_CHANGE F_NONE s.

Definition sample_update (type : MDUpdateType) (data : MDPayload) : MarketDataUpdate :=
  mkMDUpdate (assign 32 (str "BTC-USD")) COINBASE type data.

(** A subscription, its answer and a level update, seen by the client. *)
Definition sample_history : list (@Event FlatJson) :=
  [EvOpen 7 0; EvMessage 0 7 (inr (subscribe_level2 (str "BTC-USD")));
   EvFrame 0 (sample_update SUB_RESPONSE (PSubBook 0 MDReject.NONE (mkBookSnapshot 1 0 [sample_level BUY 100 5])));
   EvFrame 0 (sample_update LEVEL (PLevels 1 [sample_level SELL 101 3]))].

Lemma coinbase_numbers_gapless_witness : exists p sd,
  run_events sample_history new_publisher = Some p /\ pb_sockets p !! 7 = Some sd /\ numbers (sd_sent sd) = [0; 1; 2]
  /\ pb_clients p = dom (pb_sockets p).
Proof.
  assert (E : exists p sd, run_events sample_history new_publisher = Some p /\ pb_sockets p !! 7 = Some sd
    /\ numbers (sd_sent sd) = [0; 1; 2]) by (eexists _, _; split; [vm_compute; reflexivity|split; vm_compute; reflexivity]).
  destruct E as (p & sd & E1 & E2 & E3). exists p, sd. do 3 (split; [assumption|]).
  exact (proj2 (coinbase_numbers_gapless sample_history p 7 sd E1 E2)).
Defined.
