(* ===== verification/CoinbaseSubscribers.v ===== *)
(** * What the subscribers of Coinbase's publisher hold

    [held_levels] is what a client reads out of the messages of one connection: the levels of
    the last snapshot of a product and of every update since, back from their texts. The
    specification is [view_event]: what the frames alone say each subscriber was owed. As
    long as nobody subscribes twice to a product on one connection, every event is handled
    and every subscriber holds what it was owed; subscribing twice leaves an entry behind
    that outlives the connection. *)

From S2P Require Import Prelude Types FixedString Timestamp Orders Messages MarketData.
From S2P Require Import MatchingConfig MdPublisher CoinbasePublisher OrderBookInv CoinbasePublisherProofs.

Abbreviation Levels := (list (Side * price_t * qty_t)).

(** ** Reading the rows back *)

Definition level_in_width (l : MDLevel) : Prop :=
  - 2 ^ 63 <= ml_price l < 2 ^ 63 /\ - 2 ^ 63 <= ml_qty l < 2 ^ 63.

Definition read_side (s : bytes) : option Side :=
  if bytes_eqb s (str "bid") then Some BUY else if bytes_eqb s (str "offer") then Some SELL else None.

Definition read_row (row : L2Row) : option (Side * price_t * qty_t) :=
  match read_side (lr_side row), parse_fixed (lr_price_level row), parse_fixed (lr_new_quantity row) with
  | Some s, Some p, Some q => Some (s, p, q)
  | _, _, _ => None
  end.

(** The levels a frame carries, bids and asks told apart as the frame tells them. *)
Definition at_side (s : Side) (l : MDLevel) : Side * price_t * qty_t := (s, ml_price l, ml_qty l).

Definition update_level (l : MDLevel) : Side * price_t * qty_t := at_side (if bool_decide (ml_side l = BUY) then BUY else SELL) l.

Definition update_levels (num_level_update : Z) (levels : list MDLevel) : Levels :=
  map update_level (take (Z.to_nat num_level_update) levels).

Definition snapshot_levels (s : BookSnapshot) : Levels :=
  let bids := Z.to_nat (snap_num_bid s) in
  map (at_side BUY) (take bids (snap_levels s))
  ++ map (at_side SELL) (take (Z.to_nat (snap_num_ask s)) (drop bids (snap_levels s))).

Definition snapshot_fits (s : BookSnapshot) : Prop :=
  0 <= snap_num_bid s /\ 0 <= snap_num_ask s /\ snap_num_bid s + snap_num_ask s < 2 ^ 32
  /\ snap_num_bid s + snap_num_ask s <= Z.of_nat (List.length (snap_levels s))
  /\ Forall level_in_width (snap_levels s).

Definition update_fits (num_level_update : Z) (levels : list MDLevel) : Prop :=
  0 <= num_level_update <= Z.of_nat (List.length levels) /\ Forall level_in_width levels.

Lemma mapM_range {A} (l : list A) b : forall a, (a + b <= List.length l)%nat ->
  mapM (fun i => l !! i) (seq a b) = Some (take b (drop a l)).
Proof.
  induction b as [|b IH]; intros a H; [done|]. cbn [seq mapM]. destruct (lookup_lt_is_Some_2 l a) as [x E]; [lia|].
  rewrite E. cbn [mbind option_bind]. rewrite (IH (S a)) by lia. cbn. by rewrite (drop_S l x a E).
Qed.

Lemma read_side_row side (l : MDLevel) row :
  read_side (lr_side row) = Some side -> lr_price_level row = to_price_string (ml_price l) ->
  lr_new_quantity row = to_qty_string (ml_qty l) -> level_in_width l -> read_row row = Some (at_side side l).
Proof.
  intros E1 E2 E3 [H1 H2]. unfold read_row. rewrite E1, E2, E3. unfold to_price_string, to_qty_string.
  by rewrite !fixed_string_parses.
Qed.

Lemma read_map (f : MDLevel -> L2Row) (g : MDLevel -> Side * price_t * qty_t) l :
  (forall x, level_in_width x -> read_row (f x) = Some (g x)) -> Forall level_in_width l -> mapM read_row (map f l) = Some (map g l).
Proof.
  intros Hf. induction 1 as [|x l Hx _ IH]; [done|]. cbn [map mapM]. rewrite (Hf x Hx). cbn [mbind option_bind]. by rewrite IH.
Qed.

Lemma mapM_app_Some {A B} (f : A -> option B) l1 l2 k1 k2 :
  mapM f l1 = Some k1 -> mapM f l2 = Some k2 -> mapM f (l1 ++ l2) = Some (k1 ++ k2).
Proof. rewrite !mapM_Some. apply Forall2_app. Qed.

Lemma snapshot_rows_read s : snapshot_fits s ->
  exists rows, snapshot_rows s = Some rows /\ mapM read_row rows = Some (snapshot_levels s).
Proof.
  intros (H1 & H2 & H3 & H4 & H5). unfold snapshot_rows, read_range. rewrite wrap_small by lia.
  rewrite Z.sub_0_r, !mapM_range by lia. eexists. split; [done|]. unfold snapshot_levels.
  replace (Z.to_nat (snap_num_bid s + snap_num_ask s - snap_num_bid s)) with (Z.to_nat (snap_num_ask s)) by lia.
  rewrite drop_0. apply mapM_app_Some; apply read_map.
  - intros x Hx. by eapply read_side_row.
  - by apply Forall_take.
  - intros x Hx. by eapply read_side_row.
  - by apply Forall_take, Forall_drop.
Qed.

Lemma update_rows_read n levels : update_fits n levels ->
  exists rows, update_rows n levels = Some rows /\ mapM read_row rows = Some (update_levels n levels).
Proof.
  intros [H1 H2]. unfold update_rows, read_range. rewrite Z.sub_0_r, mapM_range by lia. eexists. split; [done|].
  unfold update_levels. rewrite drop_0. apply read_map; [|by apply Forall_take].
  intros x Hx. unfold update_level. eapply read_side_row; [|done|done|done]. cbn. by case_bool_decide.
Qed.

(** ** What a client holds *)

(** The levels read since the last snapshot of the product, the snapshot included. *)
Definition take_message (symbol : bytes) (held : option Levels) (m : OutMessage) : option Levels :=
  match m with
  | Sequenced _ _ (L2Data type product_id rows) =>
      if bytes_eqb product_id symbol then
        match mapM read_row rows with
        | None => None
        | Some ls => if bytes_eqb type (str "snapshot") then Some ls else (fun h => h ++ ls) <$> held
        end
      else held
  | _ => held
  end.

Definition held_levels (symbol : bytes) (sent : list OutMessage) : option Levels := fold_left (take_message symbol) sent None.

Lemma levels_snoc symbol sent m : held_levels symbol (sent ++ [m]) = take_message symbol (held_levels symbol sent) m.
Proof. unfold held_levels. by rewrite fold_left_app. Qed.

(** The quantity a client shows at a price: what it read last, nothing if it read nothing. *)
Definition shown (side : Side) (price : price_t) (ls : Levels) : qty_t := follow ls side price 0.

Section Subscribers.
Context {sdk : CoinbaseSdk} {sdklaws : CoinbaseSdkLaws} {J : Type} {json : Json J} {items : JsonItems J}.
Implicit Types p : CoinbasePublisher.
Implicit Types sd : PerSocketData.
Abbreviation Event := (@Event J).

(** ** Who is subscribed *)

(** An open connection that asked for a product on a channel. *)
Definition active_in p (ws ch : Z) (symbol : bytes) : Prop :=
  exists sd, pb_sockets p !! ws = Some sd /\ symbol ∈ active_subscriptions (sub_info sd ch).

Definition client_list p (symbol : bytes) : list (Z * Z) := default [] (pb_symbol_channel_client p !! symbol).

Record publisher_ok p : Prop := {
  ck_clients : known ∅ p;
  ck_entries : forall symbol ch ws, (ch, ws) ∈ client_list p symbol <-> active_in p ws ch symbol;
  ck_nodup : forall symbol, NoDup (client_list p symbol);
  ck_subs : forall ch symbol ws, ws ∈ subscribers p ch symbol <-> active_in p ws ch symbol;
  ck_channels : forall ws ch symbol, active_in p ws ch symbol -> ch ∈ [LEVEL2; MARKET_TRADES; TICKER]
}.

Lemma entries_spec p symbol ch ws : publisher_ok p -> ws ∈ entries p symbol ch <-> active_in p ws ch symbol.
Proof.
  intros Hok. rewrite <- (ck_entries p Hok). unfold entries, client_list. rewrite list_elem_of_fmap. split.
  - intros ([c w] & -> & Hin). rewrite list_elem_of_In, filter_In, <- list_elem_of_In in Hin. destruct Hin as [Hin E].
    cbn in *. bool_to_prop. by subst.
  - intros Hin. exists (ch, ws). split; [done|]. rewrite list_elem_of_In, filter_In, <- list_elem_of_In. split; [done|]. cbn. lia.
Qed.

Lemma entries_nodup p symbol ch : publisher_ok p -> NoDup (entries p symbol ch).
Proof.
  intros Hok. unfold entries. pose proof (ck_nodup p Hok symbol) as H. unfold client_list in H.
  induction H as [|[c w] l Hx _ IH]; [constructor|]. cbn [List.filter fst]. case_test; [|done]. bool_to_prop. subst c.
  cbn [map snd]. constructor; [|done]. rewrite list_elem_of_fmap. intros ([c' w'] & E & Hin). cbn in E. subst w'.
  rewrite list_elem_of_In, filter_In, <- list_elem_of_In in Hin. destruct Hin as [Hin E]. cbn in E. bool_to_prop. by subst c'.
Qed.

(** ** Loops over sockets *)

Lemma each_on_socket f l : forall p, NoDup l -> (forall ws, ws ∈ l -> is_Some (pb_sockets p !! ws)) ->
  exists ss, each (fun p ws => on_socket p ws f) l p = Some (p <| pb_sockets := ss |>)
    /\ forall ws, ss !! ws = if bool_decide (ws ∈ l) then f <$> pb_sockets p !! ws else pb_sockets p !! ws.
Proof.
  induction l as [|x l IH]; intros p Hnd Hall.
  { exists (pb_sockets p). split; [by destruct p|]. intros ws. by rewrite bool_decide_eq_false_2 by apply not_elem_of_nil. }
  apply NoDup_cons in Hnd as [Hx Hnd]. cbn [each]. unfold on_socket at 1. destruct (Hall x) as [sd E]; [by left|]. rewrite E.
  destruct (IH (p <| pb_sockets ::= <[x := f sd]> |>) Hnd) as (ss & -> & Hss).
  { intros ws Hin. cbn. rewrite lookup_insert. case_decide; [by eexists|]. apply Hall. by right. }
  exists ss. split; [done|]. intros ws. rewrite Hss. cbn. destruct (decide (x = ws)) as [<-|Hne].
  - rewrite (bool_decide_eq_false_2 (x ∈ l)), bool_decide_eq_true_2, lookup_insert_eq, E by (done || by left). done.
  - rewrite lookup_insert_ne by done. destruct (decide (ws ∈ l)).
    + rewrite !bool_decide_eq_true_2 by (done || by right). done.
    + rewrite !bool_decide_eq_false_2; [done| |done]. rewrite elem_of_cons. intros [|]; [by subst|done].
Qed.

(** New data for some sockets that keeps their subscriptions. *)
Lemma sockets_ok p ss : publisher_ok p ->
  (forall ws, match pb_sockets p !! ws, ss !! ws with
              | Some sd, Some sd' => forall ch, active_subscriptions (sub_info sd' ch) = active_subscriptions (sub_info sd ch)
              | None, None => True
              | _, _ => False
              end) -> publisher_ok (p <| pb_sockets := ss |>).
Proof.
  intros [O1 O2 O3 O4 O5] H. set (p' := p <| pb_sockets := ss |>).
  assert (E : forall ws ch symbol, active_in p' ws ch symbol <-> active_in p ws ch symbol).
  { intros ws ch symbol. unfold active_in, p'. cbn. specialize (H ws).
    destruct (pb_sockets p !! ws) as [sd|], (ss !! ws) as [sd'|]; try done.
    split; intros (? & [= <-] & Hin); eexists; (split; [done|]); [by rewrite <- H|by rewrite H]. }
  split.
  - unfold known in *. cbn. rewrite !difference_empty_L in *. rewrite O1. apply set_eq. intros ws. rewrite !elem_of_dom.
    specialize (H ws). destruct (pb_sockets p !! ws), (ss !! ws); try done; by split; intros [].
  - intros symbol ch ws. rewrite E. apply O2.
  - exact O3.
  - intros ch symbol ws. rewrite E. apply O4.
  - intros ws ch symbol. rewrite E. apply O5.
Qed.

(** ** What a subscriber is owed

    Nothing to a connection that did not subscribe; to one that did, whether it still waits
    for its snapshot, and the levels it was sent, if any were. *)
Definition Owed : Type := option (bool * option Levels).

Definition View : Type := Z -> bytes -> Owed.

Implicit Types v : View.

Definition owed_frame (update : MarketDataUpdate) (o : Owed) : Owed :=
  match o with
  | None => None
  | Some (waiting, held) =>
      match mdu_type update, mdu_data update with
      | LEVEL, PLevels n levels => Some (waiting, (fun h => h ++ update_levels n levels) <$> held)
      | BOOK_SNAPSHOT, PSnapshot s => Some (waiting, Some (snapshot_levels s))
      | SUB_RESPONSE, PSubBook ch MDReject.NONE s =>
          if (ch =? LEVEL2) && waiting then Some (false, Some (snapshot_levels s)) else o
      | _, _ => o
      end
  end.

(** The products a message subscribes its connection to, if it does. *)
Definition channel_number (channel : bytes) : option Z :=
  if bytes_eqb channel (str "level2") then Some LEVEL2
  else if bytes_eqb channel (str "market_trades") then Some MARKET_TRADES
  else if bytes_eqb channel (str "ticker") then Some TICKER
  else None.

Definition is_subscribe (msg : J) : bool :=
  bool_decide (js_find msg (str "type") ≫= js_get_string = Some (str "subscribe")).

Definition subscribes (message : bytes + J) : option (Z * list bytes) :=
  match message with
  | inl _ => None
  | inr msg =>
      if is_subscribe msg then
        channel ← js_find msg (str "channel") ≫= js_get_string;
        ch ← channel_number channel; symbols ← mapM js_get_string (product_ids msg); Some (ch, symbols)
      else None
  end.

Definition view_event (v : View) (e : Event) : View :=
  match e with
  | EvOpen ws _ => fun w s => if bool_decide (w = ws) then None else v w s
  | EvMessage _ ws message =>
      match subscribes message with
      | Some (ch, symbols) => fun w s =>
          if bool_decide (w = ws /\ ch = LEVEL2 /\ s ∈ symbols) then Some (true, None) else v w s
      | None => v
      end
  | EvFrame _ update => fun w s => if bytes_eqb s (view (mdu_symbol update)) then owed_frame update (v w s) else v w s
  | _ => v
  end.

(** What a connection's data says of a product. *)
Definition owed_by sd (symbol : bytes) : Owed :=
  let info := sub_info sd LEVEL2 in
  if bool_decide (symbol ∈ active_subscriptions info)
  then Some (bool_decide (symbol ∈ pending_subscriptions info), held_levels symbol (sd_sent sd)) else None.

Definition agrees (o : Owed) sd (symbol : bytes) : Prop :=
  owed_by sd symbol = o
  /\ (o = None -> symbol ∉ pending_subscriptions (sub_info sd LEVEL2) /\ held_levels symbol (sd_sent sd) = None).

Definition views_ok (v : View) p : Prop :=
  forall ws sd symbol, pb_sockets p !! ws = Some sd -> agrees (v ws symbol) sd symbol.

(** *** Updates of one socket *)

(** Nothing about books changes. *)
Definition quiet (f : PerSocketData -> PerSocketData) : Prop :=
  forall sd, (forall ch, sub_info (f sd) ch = sub_info sd ch)
    /\ forall symbol, held_levels symbol (sd_sent (f sd)) = held_levels symbol (sd_sent sd).

Definition no_levels (m : OutMessage) : bool := match m with Sequenced _ _ (L2Data _ _ _) => false | _ => true end.

Lemma cb_quiet_send m : no_levels m = true -> quiet (fun sd => sd <| sd_sent ::= fun l => l ++ [m] |>).
Proof.
  intros Hm sd. split; [done|]. intros symbol. etrans; [apply (levels_snoc symbol (sd_sent sd) m)|]. by destruct m as [? ? []| |].
Qed.

Lemma quiet_stamp timestamp body : (forall t s r, body <> L2Data t s r) -> quiet (stamp timestamp body).
Proof.
  intros Hb sd. split; [done|]. intros symbol. etrans; [apply (levels_snoc symbol (sd_sent sd))|].
  destruct body as [t s r| | | |]; try done. by destruct (Hb t s r).
Qed.

Lemma quiet_agrees f o sd symbol : quiet f -> agrees o sd symbol -> agrees o (f sd) symbol.
Proof. intros Hf. destruct (Hf sd) as [H1 H2]. unfold agrees, owed_by. by rewrite H1, H2. Qed.

(** A message with levels of a product. *)
Lemma stamp_levels timestamp type symbol rows ls sd s : mapM read_row rows = Some ls ->
  held_levels s (sd_sent (stamp timestamp (L2Data type symbol rows) sd))
  = if bytes_eqb symbol s then
      if bytes_eqb type (str "snapshot") then Some ls else (fun h => h ++ ls) <$> held_levels s (sd_sent sd)
    else held_levels s (sd_sent sd).
Proof. intros E. etrans; [apply (levels_snoc s (sd_sent sd))|]. cbn [take_message]. by rewrite E. Qed.

Lemma stamp_agrees timestamp type symbol rows ls o sd s : mapM read_row rows = Some ls -> agrees o sd s ->
  (symbol = s -> o <> None) ->
  agrees (if bytes_eqb symbol s then
            (fun wh => (fst wh, if bytes_eqb type (str "snapshot") then Some ls else (fun h => h ++ ls) <$> snd wh)) <$> o
          else o) (stamp timestamp (L2Data type symbol rows) sd) s.
Proof.
  intros Er [H1 H2] Hne. unfold agrees, owed_by in *. rewrite (stamp_levels _ _ _ _ _ _ _ Er).
  change (sub_info (stamp _ _ sd) LEVEL2) with (sub_info sd LEVEL2). destruct (bytes_eqb symbol s) eqn:Es; [|done].
  apply bytes_eqb_eq in Es. specialize (Hne Es). case_bool_decide; [|by subst o]. subst o. cbn [fmap option_fmap option_map fst snd].
  by split.
Qed.

(** ** Frames *)

(** Sending every subscriber of the product's levels one message with levels. *)
Lemma send_levels_ok v p timestamp type symbol rows ls :
  publisher_ok p -> views_ok v p -> mapM read_row rows = Some ls ->
  exists p', each (send_sequenced timestamp (L2Data type symbol rows)) (entries p symbol LEVEL2) p = Some p'
    /\ publisher_ok p' /\ views_ok (fun w s => if bytes_eqb s symbol then
         (fun wh => (fst wh, if bytes_eqb type (str "snapshot") then Some ls else (fun h => h ++ ls) <$> snd wh)) <$> v w s
         else v w s) p'.
Proof.
  intros Hok Hv Er. set (f := stamp timestamp (L2Data type symbol rows)).
  destruct (each_on_socket f (entries p symbol LEVEL2) p) as (ss & E & Hss).
  { by apply entries_nodup. }
  { intros ws (sd & E & _)%entries_spec; [by eexists|done]. }
  exists (p <| pb_sockets := ss |>). split; [exact E|]. split.
  - apply sockets_ok; [done|]. intros ws. rewrite Hss. destruct (pb_sockets p !! ws) as [sd|]; cbn; by case_bool_decide.
  - intros ws sd' s E'. cbn in E'. rewrite Hss in E'.
    destruct (pb_sockets p !! ws) as [sd|] eqn:Ews; [|by destruct (bool_decide _)].
    assert (Hin : ws ∈ entries p symbol LEVEL2 <-> symbol ∈ active_subscriptions (sub_info sd LEVEL2)).
    { rewrite entries_spec by done. split; [intros (sd0 & E0 & H); rewrite Ews in E0; by injection E0 as ->|by exists sd]. }
    specialize (Hv ws sd s Ews). assert (Ebs : bytes_eqb s symbol = bytes_eqb symbol s) by (unfold bytes_eqb; apply bool_decide_ext; done).
    rewrite Ebs. revert E'. case_bool_decide as Hw.
    + intros [= <-]. eapply stamp_agrees; [done|done|]. intros <-. apply Hin in Hw. destruct Hv as [Hv _]. unfold owed_by in Hv.
      rewrite bool_decide_eq_true_2 in Hv by done. intros E0. by rewrite E0 in Hv.
    + intros [= <-]. destruct (bytes_eqb symbol s) eqn:Es; [|done]. apply bytes_eqb_eq in Es. subst s.
      destruct Hv as [Hv1 Hv2]. unfold owed_by in Hv1. rewrite bool_decide_eq_false_2 in Hv1 by (by rewrite <- Hin).
      rewrite <- Hv1 in *. cbn. split; [unfold owed_by; by rewrite bool_decide_eq_false_2 by (by rewrite <- Hin)|by intros _; apply Hv2].
Qed.

(** Something sent to or noted of some sockets that is not about books. *)
Lemma quiet_each_ok v p f l : quiet f -> NoDup l -> (forall ws, ws ∈ l -> is_Some (pb_sockets p !! ws)) ->
  publisher_ok p -> views_ok v p ->
  exists p', each (fun p ws => on_socket p ws f) l p = Some p' /\ publisher_ok p' /\ views_ok v p'.
Proof.
  intros Hf Hnd Hall Hok Hv. destruct (each_on_socket f l p Hnd Hall) as (ss & E & Hss).
  exists (p <| pb_sockets := ss |>). split; [exact E|]. split.
  - apply sockets_ok; [done|]. intros ws. rewrite Hss. destruct (pb_sockets p !! ws) as [sd|]; cbn; case_bool_decide; try done.
    intros ch. by rewrite (proj1 (Hf sd) ch).
  - intros ws sd' s E'. cbn in E'. rewrite Hss in E'. revert E'. case_bool_decide; [|by apply Hv].
    destruct (pb_sockets p !! ws) as [sd|] eqn:Ews; [|done]. intros [= <-]. apply quiet_agrees; [done|]. by apply Hv.
Qed.

Lemma quiet_one_ok v p f ws : quiet f -> is_Some (pb_sockets p !! ws) -> publisher_ok p -> views_ok v p ->
  exists p', on_socket p ws f = Some p' /\ publisher_ok p' /\ views_ok v p'.
Proof.
  intros Hf Hws Hok Hv. destruct (quiet_each_ok v p f [ws] Hf) as (p' & E & H); try done.
  - apply NoDup_singleton.
  - by intros w ->%list_elem_of_singleton.
  - exists p'. split; [|done]. cbn in E. by destruct (on_socket p ws f).
Qed.

Lemma on_socket_alive p ws f p' : on_socket p ws f = Some p' -> forall w, is_Some (pb_sockets p' !! w) <-> is_Some (pb_sockets p !! w).
Proof.
  unfold on_socket. destruct (pb_sockets p !! ws) as [sd|] eqn:E; [|done]. intros [= <-] w. cbn. rewrite lookup_insert.
  case_decide; [subst; rewrite E; split; by eexists|done].
Qed.

Lemma sub_info_set ch f sd c : sub_info (set_info ch f sd) c = if bool_decide (c = ch) then f (sub_info sd ch) else sub_info sd c.
Proof.
  unfold sub_info at 1, set_info. cbn. rewrite lookup_insert. case_bool_decide; [subst; by rewrite decide_True|].
  by rewrite decide_False.
Qed.

Lemma stamp_info timestamp body sd c : sub_info (stamp timestamp body sd) c = sub_info sd c.
Proof. done. Qed.

Lemma deliver_active timestamp ch symbol snapshot update sd c :
  active_subscriptions (sub_info (deliver_snapshot timestamp ch symbol snapshot update sd) c) = active_subscriptions (sub_info sd c).
Proof.
  unfold deliver_snapshot. case_bool_decide; [|done]. cbv zeta. set (sd1 := set_info _ _ sd).
  assert (E1 : active_subscriptions (sub_info sd1 c) = active_subscriptions (sub_info sd c)).
  { unfold sd1. rewrite sub_info_set. case_bool_decide; [by subst|done]. }
  destruct update; case_bool_decide; by rewrite !stamp_info.
Qed.

(** The answer to who waits for one. *)
Definition answered (ls : Levels) (o : Owed) : Owed := match o with Some (true, _) => Some (false, Some ls) | _ => o end.

(** The snapshot of a subscriber of levels that waits for it. *)
Lemma deliver_levels timestamp symbol rows ls o sd s : mapM read_row rows = Some ls -> agrees o sd s ->
  agrees (if bytes_eqb s symbol then answered ls o else o)
    (deliver_snapshot timestamp LEVEL2 symbol (L2Data (str "snapshot") symbol rows) None sd) s.
Proof.
  intros Er [H1 H2]. unfold deliver_snapshot. destruct (decide (symbol ∈ pending_subscriptions (sub_info sd LEVEL2))) as [Hp|Hp].
  - rewrite bool_decide_eq_true_2 by done. cbv zeta. set (sd1 := set_info _ _ sd).
    assert (Hf : agrees (if bytes_eqb s symbol then answered ls o else o)
      (stamp timestamp (L2Data (str "snapshot") symbol rows) sd1) s).
    { unfold agrees, owed_by in *. rewrite (stamp_levels _ _ _ _ _ _ _ Er), stamp_info. unfold sd1.
      rewrite sub_info_set, (bool_decide_eq_true_2 (LEVEL2 = LEVEL2)) by done. cbn [active_subscriptions pending_subscriptions upd].
      change (sd_sent (set_info _ _ sd)) with (sd_sent sd). change (bytes_eqb (str "snapshot") (str "snapshot")) with true. cbn iota.
      destruct (bytes_eqb symbol s) eqn:Es.
      - apply bytes_eqb_eq in Es. subst s. rewrite (proj2 (bytes_eqb_eq symbol symbol) eq_refl).
        revert H1. case_bool_decide as Ha; intros <-; [|by destruct (H2 eq_refl)].
        rewrite (bool_decide_eq_true_2 (symbol ∈ pending_subscriptions _)) by done.
        rewrite (bool_decide_eq_false_2 (symbol ∈ _ ∖ _)) by set_solver. done.
      - assert (Hne : s <> symbol) by (intros ->; rewrite (proj2 (bytes_eqb_eq symbol symbol) eq_refl) in Es; done).
        assert (En : bytes_eqb s symbol = false) by (unfold bytes_eqb; by rewrite bool_decide_eq_false_2).
        rewrite En, <- H1. split; [|rewrite H1; intros Hn; destruct (H2 Hn); set_solver].
        case_bool_decide; [|done]. do 2 f_equal. apply bool_decide_ext. set_solver. }
    case_bool_decide; [|exact Hf]. apply quiet_agrees; [by apply quiet_stamp|exact Hf].
  - rewrite bool_decide_eq_false_2 by done. destruct (bytes_eqb s symbol) eqn:Es; [|by split]. apply bytes_eqb_eq in Es. subst s.
    split; [|intros Hn; apply H2; by destruct o as [[[] ?]|]]. unfold answered. rewrite H1. unfold owed_by in H1.
    rewrite (bool_decide_eq_false_2 (symbol ∈ pending_subscriptions _)) in H1 by done. by destruct o as [[[] ?]|]; case_bool_decide.
Qed.

Definition no_levels_body (b : Body) : Prop := forall t s r, b <> L2Data t s r.

Lemma deliver_other timestamp ch symbol snapshot update o sd s : ch <> LEVEL2 -> no_levels_body snapshot ->
  (forall u, update = Some u -> no_levels_body u) -> agrees o sd s ->
  agrees o (deliver_snapshot timestamp ch symbol snapshot update sd) s.
Proof.
  intros Hch Hs Hu Ha. unfold deliver_snapshot. case_bool_decide; [|done]. cbv zeta. set (sd1 := set_info _ _ sd).
  assert (H1 : agrees o sd1 s).
  { unfold agrees, owed_by in *. unfold sd1. by rewrite sub_info_set, (bool_decide_eq_false_2 (LEVEL2 = ch)) by congruence. }
  assert (Hst : forall b sd, no_levels_body b -> agrees o sd s -> agrees o (stamp timestamp b sd) s).
  { intros b sd0 Hb. apply quiet_agrees. by apply quiet_stamp. }
  destruct update as [u|].
  - assert (H2 : agrees o (stamp timestamp u (stamp timestamp snapshot sd1)) s) by (apply Hst; [by apply Hu|by apply Hst]).
    case_bool_decide; [by apply Hst|done].
  - assert (H2 : agrees o (stamp timestamp snapshot sd1) s) by by apply Hst. case_bool_decide; [by apply Hst|done].
Qed.

(** Frames whose counts and fields are what their types promise. *)
Definition trades_fit (r : MDTradeSnapshotResponse) : Prop :=
  0 <= tsr_num_snapshot r /\ 0 <= tsr_num_update r
  /\ tsr_num_snapshot r + tsr_num_update r <= Z.of_nat (List.length (tsr_trades r)).

Definition response_fits (ch : Z) (data : MDPayload) : Prop :=
  if ch =? LEVEL2 then exists r s, data = PSubBook ch r s /\ snapshot_fits s
  else if ch =? MARKET_TRADES then exists r s, data = PSubTrades ch r s /\ trades_fit s
  else forall r s, data <> PSubBook LEVEL2 r s.

Definition frame_fits (update : MarketDataUpdate) : Prop :=
  match mdu_type update with
  | LEVEL => exists n levels, mdu_data update = PLevels n levels /\ update_fits n levels
  | TRADE_SUMMARY => exists s, mdu_data update = PTradeSummary s
  | BOOK_SNAPSHOT => exists s, mdu_data update = PSnapshot s /\ snapshot_fits s
  | SUB_RESPONSE => exists ch reason, response_header (mdu_data update) = Some (ch, reason) /\ ch < CHANNEL_COUNT
      /\ (reason = MDReject.NONE -> response_fits ch (mdu_data update))
  | _ => True
  end.

Lemma encode_market_trades_some symbol type trades n newest_first : 0 <= n <= Z.of_nat (List.length trades) ->
  exists b, encode_market_trades symbol type trades n newest_first = Some b /\ no_levels_body b.
Proof.
  intros Hn. unfold encode_market_trades.
  assert (H : is_Some (mapM (fun i => (fun t => encode_trade symbol (mt_trade_id t) (mt_event_time t) (mt_price t) (mt_qty t) (mt_side t))
                     <$> trades !! (if newest_first then Z.to_nat n - 1 - i else i)%nat) (seq 0 (Z.to_nat n)))).
  { apply mapM_is_Some, Forall_forall. intros i Hi%elem_of_seq. apply fmap_is_Some, lookup_lt_is_Some. destruct newest_first; lia. }
  destruct H as [rows ->]. by eexists.
Qed.

Lemma no_user_entries p symbol : publisher_ok p -> entries p symbol USER = [].
Proof.
  intros Hok. destruct (entries p symbol USER) as [|ws l] eqn:E; [done|]. exfalso.
  assert (Hin : ws ∈ entries p symbol USER) by (rewrite E; by left).
  apply entries_spec in Hin; [|done]. apply (ck_channels p Hok) in Hin. pose proof law_channels as Hnd.
  apply NoDup_cons in Hnd as [N1 Hnd]. apply NoDup_cons in Hnd as [N2 Hnd]. apply NoDup_cons in Hnd as [N3 _]. set_solver.
Qed.

(** A view that does not move the subscribers of levels. *)
Lemma views_ext v v' p : (forall w s, v' w s = v w s) -> views_ok v p -> views_ok v' p.
Proof. intros E Hv ws sd s Es. rewrite E. by apply Hv. Qed.

Lemma view_frame_quiet update v : (forall o, owed_frame update o = o) ->
  forall w s, (if bytes_eqb s (view (mdu_symbol update)) then owed_frame update (v w s) else v w s) = v w s.
Proof. intros H w s. rewrite H. by destruct (bytes_eqb _ _). Qed.

Lemma subscribers_alive p ch symbol : publisher_ok p ->
  forall ws, ws ∈ elements (subscribers p ch symbol) -> is_Some (pb_sockets p !! ws).
Proof. intros Hok ws Hin%elem_of_elements. apply (ck_subs p Hok) in Hin as (sd & E & _). by eexists. Qed.

Definition frame_view (v : View) (update : MarketDataUpdate) : View :=
  fun w s => if bytes_eqb s (view (mdu_symbol update)) then owed_frame update (v w s) else v w s.

(** Delivering the answer to a subscription of levels. *)
Lemma deliver_all_levels v p timestamp symbol rows ls :
  publisher_ok p -> views_ok v p -> mapM read_row rows = Some ls ->
  exists p', each (fun p ws => on_socket p ws (deliver_snapshot timestamp LEVEL2 symbol (L2Data (str "snapshot") symbol rows) None))
               (elements (subscribers p LEVEL2 symbol)) p = Some p'
    /\ publisher_ok p'
    /\ views_ok (fun w s => if bytes_eqb s symbol then answered ls (v w s)
                            else v w s) p'.
Proof.
  intros Hok Hv Er. set (f := deliver_snapshot _ _ _ _ _).
  destruct (each_on_socket f (elements (subscribers p LEVEL2 symbol)) p (NoDup_elements _)) as (ss & E & Hss); [by apply subscribers_alive|].
  exists (p <| pb_sockets := ss |>). split; [exact E|]. split.
  - apply sockets_ok; [done|]. intros ws. rewrite Hss. destruct (pb_sockets p !! ws) as [sd|]; cbn; case_bool_decide; try done.
    intros ch. apply deliver_active.
  - intros ws sd' s E'. cbn in E'. rewrite Hss in E'. destruct (pb_sockets p !! ws) as [sd|] eqn:Ews; [|by destruct (bool_decide _)].
    specialize (Hv ws sd s Ews). revert E'. case_bool_decide as Hw; intros [= <-]; [by apply deliver_levels|].
    destruct (bytes_eqb s symbol) eqn:Es; [|done]. apply bytes_eqb_eq in Es. subst s.
    rewrite elem_of_elements, (ck_subs p Hok) in Hw.
    assert (Hn : symbol ∉ active_subscriptions (sub_info sd LEVEL2)) by (intros Hin; apply Hw; by exists sd).
    destruct Hv as [H1 H2]. unfold owed_by in H1. rewrite bool_decide_eq_false_2 in H1 by done. rewrite <- H1 in H2 |- *.
    split; [unfold owed_by; by rewrite bool_decide_eq_false_2|done].
Qed.

Lemma deliver_all_other v p timestamp ch symbol snapshot update :
  ch <> LEVEL2 -> no_levels_body snapshot -> (forall u, update = Some u -> no_levels_body u) ->
  publisher_ok p -> views_ok v p ->
  exists p', each (fun p ws => on_socket p ws (deliver_snapshot timestamp ch symbol snapshot update))
               (elements (subscribers p ch symbol)) p = Some p' /\ publisher_ok p' /\ views_ok v p'.
Proof.
  intros Hch Hs Hu Hok Hv. set (f := deliver_snapshot _ _ _ _ _).
  destruct (each_on_socket f (elements (subscribers p ch symbol)) p (NoDup_elements _)) as (ss & E & Hss); [by apply subscribers_alive|].
  exists (p <| pb_sockets := ss |>). split; [exact E|]. split.
  - apply sockets_ok; [done|]. intros ws. rewrite Hss. destruct (pb_sockets p !! ws) as [sd|]; cbn; case_bool_decide; try done.
    intros c. apply deliver_active.
  - intros ws sd' s E'. cbn in E'. rewrite Hss in E'. revert E'. case_bool_decide; [|by apply Hv].
    destruct (pb_sockets p !! ws) as [sd|] eqn:Ews; [|done]. intros [= <-]. apply deliver_other; try done. by apply Hv.
Qed.

(** A response that says nothing of levels. *)
Lemma response_quiet v p update ch reason : mdu_type update = SUB_RESPONSE ->
  response_header (mdu_data update) = Some (ch, reason) ->
  reason <> MDReject.NONE \/ (forall r s, mdu_data update <> PSubBook LEVEL2 r s) ->
  views_ok v p -> views_ok (frame_view v update) p.
Proof.
  intros Et Eh H Hv. apply (views_ext v); [|done]. apply view_frame_quiet. intros [[w h]|]; [|done]. unfold owed_frame. rewrite Et.
  destruct (mdu_data update) as [| | | | | |c r s|] eqn:Ed; try done. cbn in Eh. injection Eh as -> ->.
  destruct reason; try done. destruct (ch =? LEVEL2) eqn:E; [|done]. bool_to_prop. subst ch.
  by destruct H as [H|H]; [|destruct (H MDReject.NONE s)].
Qed.

(** The answer to a subscription, or its rejection. *)
Lemma respond_ok v p now update ch reason :
  publisher_ok p -> views_ok v p -> mdu_type update = SUB_RESPONSE ->
  response_header (mdu_data update) = Some (ch, reason) ->
  (reason = MDReject.NONE -> response_fits ch (mdu_data update)) ->
  exists p', respond now (view (mdu_symbol update)) ch reason (mdu_data update) p = Some p'
    /\ publisher_ok p' /\ views_ok (frame_view v update) p'.
Proof.
  intros Hok Hv Et Eh Hf. unfold respond. set (symbol := view (mdu_symbol update)).
  pose proof (fun q => response_quiet v q update ch reason Et Eh) as Hquiet.
  destruct (decide (reason = MDReject.NONE)) as [Hr|Hr].
  - rewrite (bool_decide_eq_false_2 (reason <> _)) by (by intros []). specialize (Hf Hr). unfold response_fits in Hf.
    destruct (ch =? LEVEL2) eqn:El; bool_to_prop.
    + destruct Hf as (r & s & Ed & Hfits). rewrite Ed in *. cbn in Eh. injection Eh as ->. subst ch reason.
      destruct (snapshot_rows_read s Hfits) as (rows & Erows & Er). unfold response_bodies. rewrite Z.eqb_refl, Erows. cbn [fmap option_fmap option_map].
      destruct (deliver_all_levels v p (now_text now) symbol rows _ Hok Hv Er) as (p' & E & H1 & H2).
      exists p'. rewrite (bool_decide_eq_true_2 (LEVEL2 ∈ _)) by by left.
      split; [case_bool_decide as He; [by rewrite He, elements_empty in E|done]|]. split; [done|].
      eapply views_ext; [|exact H2]. intros w s0. cbv beta. unfold frame_view, owed_frame, answered. rewrite Et, Ed, Z.eqb_refl.
      fold symbol. destruct (bytes_eqb s0 symbol); [|done]. by destruct (v w s0) as [[[] ?]|].
    + assert (Hn : forall r s, mdu_data update <> PSubBook LEVEL2 r s).
      { destruct (ch =? MARKET_TRADES); [|done]. destruct Hf as (r & s & -> & _). done. }
      case_bool_decide; [exists p; split; [done|]; split; [done|]; apply Hquiet; [by right|done]|].
      case_bool_decide; [|exists p; split; [done|]; split; [done|]; apply Hquiet; [by right|done]].
      assert (Hb : exists a u, response_bodies symbol ch (mdu_data update) = Some (a, u) /\ no_levels_body a
        /\ forall b, u = Some b -> no_levels_body b).
      { unfold response_bodies. rewrite (proj2 (Z.eqb_neq ch LEVEL2) El). destruct (ch =? MARKET_TRADES); [|by eexists _, None].
        destruct Hf as (r & s & -> & F1 & F2 & F3).
        destruct (encode_market_trades_some symbol (str "snapshot") (tsr_trades s) (tsr_num_snapshot s) true) as (a & -> & Ha); [lia|].
        destruct (encode_market_trades_some symbol (str "update") (drop (Z.to_nat (tsr_num_snapshot s)) (tsr_trades s))
                    (tsr_num_update s) false) as (b & -> & Hb); [rewrite length_drop; lia|].
        case_test; [by eexists _, None|]. eexists _, (Some b). split; [done|]. split; [done|]. by intros ? [= <-]. }
      destruct Hb as (a & u & -> & Ha & Hu).
      destruct (deliver_all_other v p (now_text now) ch symbol a u El Ha Hu Hok Hv) as (p' & E & H1 & H2).
      exists p'. split; [exact E|]. split; [done|]. apply Hquiet; [by right|done].
  - rewrite (bool_decide_eq_true_2 (reason <> _)) by done.
    destruct (quiet_each_ok v p (fun sd => sd <| sd_sent ::= fun l => l ++ [Failure (str "Subscription to " ++ symbol ++ str " rejected: "
      ++ MDReject.md_reject_to_string reason)] |>) (elements (subscribers p ch symbol))) as (p' & E & H1 & H2); try done.
    { by apply cb_quiet_send. }
    { apply NoDup_elements. }
    { by apply subscribers_alive. }
    exists p'. split; [case_bool_decide as He; [by rewrite He, elements_empty in E|exact E]|]. split; [done|].
    apply Hquiet; [by left|done].
Qed.

Lemma frame_preserves v p now update : publisher_ok p -> views_ok v p -> frame_fits update ->
  exists p', publish_market_data_update now p update = Some p' /\ publisher_ok p' /\ views_ok (frame_view v update) p'.
Proof.
  intros Hok Hv Hf. unfold publish_market_data_update, frame_fits, frame_view in *. set (symbol := view (mdu_symbol update)) in *.
  destruct (mdu_type update) eqn:Et;
    try (exists p; split; [done|]; split; [done|]; apply (views_ext v); [|done]; apply view_frame_quiet; intros [[]|]; [|done];
         unfold owed_frame; by rewrite Et).
  - destruct Hf as (n & levels & Ed & Hfits). unfold publish_level_update. fold symbol. rewrite Ed.
    destruct (update_rows_read n levels Hfits) as (rows & -> & Er).
    destruct (send_levels_ok v p (now_text now) (str "update") symbol rows _ Hok Hv Er) as (p' & E & H1 & H2).
    exists p'. split; [case_bool_decide as Hn; [by rewrite Hn in E|done]|]. split; [done|].
    eapply views_ext; [|exact H2]. intros w s. cbv beta. unfold owed_frame. rewrite Et, Ed.
    destruct (bytes_eqb s symbol); [|done]. by destruct (v w s) as [[]|].
  - unfold publish_order_update. fold symbol. rewrite (no_user_entries p symbol Hok). exists p. split; [done|]. split; [done|].
    apply (views_ext v); [|done]. apply view_frame_quiet. intros [[]|]; [|done]. unfold owed_frame. by rewrite Et.
  - destruct Hf as [s Ed]. unfold publish_trade_summary. fold symbol. rewrite Ed. 
    destruct (quiet_each_ok v p (stamp (now_text now) (encode_market_trade symbol s)) (entries p symbol MARKET_TRADES)) as (p' & E & H1 & H2);
      [by apply quiet_stamp|by apply entries_nodup|by intros ws (sd & E & _)%entries_spec|done|done|].
    exists p'. split; [case_bool_decide as Hn; [by rewrite Hn in E|done]|]. split; [done|].
    apply (views_ext v); [|done]. apply view_frame_quiet. intros [[]|]; [|done]. unfold owed_frame. by rewrite Et.
  - destruct Hf as (s & Ed & Hfits). unfold publish_level_snapshot. fold symbol. rewrite Ed.
    destruct (snapshot_rows_read s Hfits) as (rows & -> & Er).
    destruct (send_levels_ok v p (now_text now) (str "snapshot") symbol rows _ Hok Hv Er) as (p' & E & H1 & H2).
    exists p'. split; [case_bool_decide as Hn; [by rewrite Hn in E|done]|]. split; [done|].
    eapply views_ext; [|exact H2]. intros w s0. cbv beta. unfold owed_frame. rewrite Et, Ed.
    destruct (bytes_eqb s0 symbol); [|done]. by destruct (v w s0) as [[]|].
  - destruct Hf as (ch & reason & Eh & Hch & Hf). unfold publish_subscription_response. fold symbol. rewrite Eh.
    rewrite (proj2 (Z.ltb_lt ch CHANNEL_COUNT) Hch). cbn [negb].
    by apply respond_ok.
Qed.

(** ** Connections *)

Lemma cb_open_ok v p ws now : publisher_ok p -> views_ok v p -> pb_sockets p !! ws = None ->
  publisher_ok (open_socket p ws now) /\ views_ok (view_event v (EvOpen ws now)) (open_socket p ws now).
Proof.
  intros [O1 O2 O3 O4 O5] Hv Hn.
  assert (E : forall w ch symbol, active_in (open_socket p ws now) w ch symbol <-> active_in p w ch symbol).
  { intros w ch symbol. unfold active_in. cbn. destruct (decide (ws = w)) as [<-|Hne].
    - rewrite lookup_insert_eq, Hn. split; [|by intros (? & ? & _)]. intros (sd & [= <-] & Hin). cbn in Hin. by apply elem_of_empty in Hin.
    - by rewrite lookup_insert_ne. }
  split; [split|].
  - unfold known in *. cbn. rewrite dom_insert_L. set_solver.
  - intros symbol ch w. rewrite E. apply O2.
  - exact O3.
  - intros ch symbol w. rewrite E. apply O4.
  - intros w ch symbol. rewrite E. apply O5.
  - intros w sd s. cbn. rewrite lookup_insert. case_decide as Hw.
    + subst w. intros [= <-]. rewrite bool_decide_eq_true_2 by done. split; [|done].
      unfold owed_by. rewrite bool_decide_eq_false_2; [done|]. apply not_elem_of_empty.
    + rewrite bool_decide_eq_false_2 by congruence. apply Hv.
Qed.

Lemma cb_subscribers_set p c s x c' s' :
  subscribers (set_subscribers c s x p) c' s' = if bool_decide (c' = c /\ s' = s) then x else subscribers p c' s'.
Proof.
  unfold subscribers, set_subscribers. cbn [pb_subscription_info upd]. rewrite lookup_insert. case_decide as Hc; cbn [default].
  - subst c'. cbn [default from_option id]. rewrite lookup_insert. case_decide as Hs; cbn [default from_option id].
    + subst. by rewrite bool_decide_eq_true_2.
    + rewrite bool_decide_eq_false_2; [done|]. by intros [_ ->].
  - rewrite bool_decide_eq_false_2; [done|]. by intros [-> _].
Qed.

(** One more product of a channel a connection was not subscribed to. *)
Lemma cb_subscribe_ok v p ws ch symbol : publisher_ok p -> views_ok v p -> is_Some (pb_sockets p !! ws) ->
  ch ∈ [LEVEL2; MARKET_TRADES; TICKER] -> ~ active_in p ws ch symbol ->
  exists p', subscribe_product ws ch p symbol = Some p' /\ publisher_ok p'
    /\ views_ok (fun w s => if bool_decide (w = ws /\ ch = LEVEL2 /\ s = symbol) then Some (true, None) else v w s) p'
    /\ (forall w, is_Some (pb_sockets p' !! w) <-> is_Some (pb_sockets p !! w))
    /\ (forall w c s, active_in p' w c s <-> active_in p w c s \/ (w = ws /\ c = ch /\ s = symbol)).
Proof.
  intros [O1 O2 O3 O4 O5] Hv [sd Esd] Hch Hna. unfold subscribe_product, on_socket. cbn [pb_sockets upd push_request set_subscribers].
  rewrite Esd. eexists. split; [done|]. set (f := set_info ch _).
  match goal with |- publisher_ok ?q /\ _ => set (p' := q) end.
  assert (Hf : forall c, active_subscriptions (sub_info (f sd) c)
    = if bool_decide (c = ch) then {[symbol]} ∪ active_subscriptions (sub_info sd ch) else active_subscriptions (sub_info sd c)).
  { intros c. unfold f. rewrite sub_info_set. by case_bool_decide. }
  assert (Hl : forall w, pb_sockets p' !! w = if bool_decide (ws = w) then Some (f sd) else pb_sockets p !! w).
  { intros w. unfold p'. cbn. rewrite lookup_insert. by case_decide; case_bool_decide. }
  assert (E : forall w c s, active_in p' w c s <-> active_in p w c s \/ (w = ws /\ c = ch /\ s = symbol)).
  { intros w c s. unfold active_in. rewrite Hl. case_bool_decide as Hw.
    - subst w. rewrite Esd. split.
      + intros (? & [= <-] & Hin). rewrite Hf in Hin. revert Hin. case_bool_decide; [subst c; set_solver|]. intros Hin. left. by eexists.
      + intros [(? & [= <-] & Hin)|(_ & -> & ->)]; eexists; (split; [done|]); rewrite Hf; case_bool_decide; subst; set_solver.
    - split; [by left|]. by intros [|(-> & _)]. }
  assert (Hc : forall s, client_list p' s = if bool_decide (s = symbol) then client_list p symbol ++ [(ch, ws)] else client_list p s).
  { intros s. unfold client_list, p'. cbn [pb_symbol_channel_client]. rewrite lookup_insert. case_decide; case_bool_decide; try congruence; by subst. }
  assert (Hnl : (ch, ws) ∉ client_list p symbol) by (by rewrite O2).
  split; [split|].
  - unfold known in *. unfold p'. cbn. rewrite dom_insert_L, O1. apply elem_of_dom_2 in Esd. set_solver.
  - intros s c w. rewrite E, Hc, <- O2. case_bool_decide; [|set_solver]. subst s. rewrite elem_of_app, list_elem_of_singleton. naive_solver.
  - intros s. rewrite Hc. case_bool_decide; [|apply O3]. apply NoDup_app. split; [apply O3|]. split; [|apply NoDup_singleton].
    by intros x Hx ->%list_elem_of_singleton.
  - intros c s w. rewrite E, <- O4.
    change (subscribers p' c s) with (subscribers (set_subscribers ch symbol ({[ws]} ∪ subscribers p ch symbol) p) c s).
    rewrite cb_subscribers_set. case_bool_decide as Hcs; [destruct Hcs as [-> ->]; set_solver|naive_solver].
  - intros w c s. rewrite E. intros [|(-> & -> & ->)]; [by eapply O5|done].
  - split; [|split; [|exact E]].
    + intros w sd' s. rewrite Hl. case_bool_decide as Hw.
      * subst w. intros [= <-]. specialize (Hv ws sd s Esd). unfold agrees, owed_by in *. rewrite Hf.
        change (sd_sent (f sd)) with (sd_sent sd). destruct (decide (ch = LEVEL2)) as [->|Hne].
        -- rewrite (bool_decide_eq_true_2 (LEVEL2 = LEVEL2)) by done. unfold f. rewrite sub_info_set, (bool_decide_eq_true_2 (LEVEL2 = LEVEL2)) by done.
           cbn [pending_subscriptions upd]. destruct (decide (s = symbol)) as [->|Hs].
           ++ rewrite !bool_decide_eq_true_2 by (done || set_solver). split; [|done]. do 2 f_equal.
              destruct Hv as [H1 H2]. rewrite bool_decide_eq_false_2 in H1; [by destruct (H2 (eq_sym H1))|]. intros Hin. apply Hna. by eexists.
           ++ rewrite (bool_decide_eq_false_2 (ws = ws /\ _)) by naive_solver. destruct Hv as [<- H2]. split; [|intros Hn; destruct (H2 Hn); set_solver].
              destruct (decide (s ∈ active_subscriptions (sub_info sd LEVEL2))).
              ** rewrite (bool_decide_eq_true_2 (s ∈ {[symbol]} ∪ active_subscriptions _)),
                   (bool_decide_eq_true_2 (s ∈ active_subscriptions _)) by set_solver.
                 do 2 f_equal. apply bool_decide_ext. set_solver.
              ** by rewrite (bool_decide_eq_false_2 (s ∈ {[symbol]} ∪ active_subscriptions _)),
                   (bool_decide_eq_false_2 (s ∈ active_subscriptions _)) by set_solver.
        -- rewrite (bool_decide_eq_false_2 (LEVEL2 = ch)), (bool_decide_eq_false_2 (ws = ws /\ _)) by naive_solver.
           unfold f. rewrite sub_info_set, (bool_decide_eq_false_2 (LEVEL2 = ch)) by congruence. done.
      * intros E'. rewrite bool_decide_eq_false_2 by (intros [-> _]; done). by apply Hv.
    + intros w. rewrite Hl. case_bool_decide; [subst; rewrite Esd; split; by eexists|done].
Qed.

Lemma subscribe_products_ok ws ch prods : ch ∈ [LEVEL2; MARKET_TRADES; TICKER] -> forall symbols v p,
  mapM js_get_string prods = Some symbols -> NoDup symbols -> (forall s, s ∈ symbols -> ~ active_in p ws ch s) ->
  publisher_ok p -> views_ok v p -> is_Some (pb_sockets p !! ws) ->
  exists p', subscribe_products ws ch prods p = Ok p' /\ publisher_ok p'
    /\ views_ok (fun w s => if bool_decide (w = ws /\ ch = LEVEL2 /\ s ∈ symbols) then Some (true, None) else v w s) p'.
Proof.
  intros Hch. induction prods as [|prod prods IH]; intros symbols v p; cbn [mapM subscribe_products].
  - intros [= <-] _ _ Hok Hv _. exists p. split; [done|]. split; [done|]. apply (views_ext v); [|done]. intros w s.
    rewrite bool_decide_eq_false_2; [done|]. intros (_ & _ & Hin). by apply elem_of_nil in Hin.
  - destruct (js_get_string prod) as [symbol|]; [|done]. cbn [mbind option_bind].
    destruct (mapM js_get_string prods) as [rest|]; [|done]. cbn. intros [= <-] [Hx Hnd]%NoDup_cons Hna Hok Hv Hws.
    destruct (cb_subscribe_ok v p ws ch symbol Hok Hv Hws Hch) as (p1 & E & H1 & H2 & H3 & H4); [apply Hna; by left|].
    rewrite E. cbn [defined rbind]. match type of H2 with views_ok ?v1 _ => destruct (IH rest v1 p1 eq_refl Hnd) as (p' & E' & H5 & H6) end; [|exact H1|exact H2|by apply H3|].
    { intros s Hin. rewrite H4. intros [Ha|(_ & _ & ->)]; [|done]. by apply (Hna s); [right|]. }
    exists p'. split; [done|]. split; [done|]. eapply views_ext; [|exact H6]. intros w s. cbv beta.
    destruct (decide (w = ws /\ ch = LEVEL2)) as [[-> ->]|Hn].
    + repeat case_bool_decide; try done; set_solver.
    + rewrite !bool_decide_eq_false_2 by naive_solver. done.
Qed.

(** A client message whose members have the types the handler reads them at, and that
    subscribes its connection to nothing twice. *)
Definition message_fits p (ws : Z) (message : bytes + J) : Prop :=
  match message with
  | inl _ => True
  | inr msg =>
      if is_subscribe msg then
        exists channel, js_find msg (str "channel") ≫= js_get_string = Some channel
          /\ forall ch, channel_number channel = Some ch ->
               exists symbols, mapM js_get_string (product_ids msg) = Some symbols /\ NoDup symbols
                 /\ forall s, s ∈ symbols -> ~ active_in p ws ch s
      else exists type, string_value msg (str "type") [] = Ok type
  end.

Lemma cb_message_ok v p now ws message : publisher_ok p -> views_ok v p -> is_Some (pb_sockets p !! ws) -> message_fits p ws message ->
  exists p', handle_message now p ws message = Ok p' /\ publisher_ok p' /\ views_ok (view_event v (EvMessage now ws message)) p'.
Proof.
  intros Hok Hv Hws Hf.
  assert (Herr : forall text, exists p', defined (send_error ws text p) = Ok p' /\ publisher_ok p' /\ views_ok v p').
  { intros text. destruct (quiet_one_ok v p _ ws (cb_quiet_send (Failure text) eq_refl) Hws Hok Hv) as (p' & E & H).
    exists p'. split; [|done]. unfold send_error, send_to. by rewrite E. }
  destruct message as [what|msg]; cbn [handle_message view_event subscribes]; [apply Herr|].
  cbn [message_fits] in Hf. unfold is_subscribe in *. destruct (bool_decide _); [|destruct Hf as [type ->]; apply Herr].
  assert (Eg : greet ws p = Some p).
  { unfold greet. rewrite bool_decide_eq_true_2; [done|]. pose proof (ck_clients p Hok) as Hk. unfold known in Hk.
    rewrite !difference_empty_L in Hk. rewrite Hk. by apply elem_of_dom. }
  rewrite Eg. cbn [defined rbind]. destruct Hf as (channel & -> & Hf). cbn [mbind option_bind]. unfold channel_number in *.
  assert (Hsub : forall ch, ch ∈ [LEVEL2; MARKET_TRADES; TICKER] ->
    (forall c, Some ch = Some c -> exists symbols, mapM js_get_string (product_ids msg) = Some symbols /\ NoDup symbols
                 /\ forall s, s ∈ symbols -> ~ active_in p ws c s) ->
    exists p', subscribe_products ws ch (product_ids msg) p = Ok p' /\ publisher_ok p'
      /\ views_ok match (symbols ← mapM js_get_string (product_ids msg); Some (ch, symbols)) with
           | Some (ch, symbols) => fun w s => if bool_decide (w = ws /\ ch = LEVEL2 /\ s ∈ symbols) then Some (true, None) else v w s
           | None => v end p').
  { intros ch Hch Hs. destruct (Hs ch eq_refl) as (symbols & E & Hnd & Hna). rewrite E. cbn [mbind option_bind].
    by apply subscribe_products_ok. }
  repeat (case_test; [apply Hsub; [set_solver|done]|]). cbn [mbind option_bind].
  case_test; [|apply Herr]. unfold subscribe_heartbeats.
  destruct (quiet_one_ok v p (fun sd => sd <| sd_subscribed_heartbeat := true |>) ws) as (p1 & E1 & H1 & H2); [done..|]. rewrite E1.
  assert (Hws1 : is_Some (pb_sockets p1 !! ws)).
  { by apply (on_socket_alive p ws _ p1 E1). }
  destruct (quiet_one_ok v p1 (stamp (now_text now) (Subscriptions {[str "heartbeats" := [str "heartbeats"]]})) ws) as (p2 & E2 & H3 & H4);
    [by apply quiet_stamp|done..|]. exists p2. split; [|done]. unfold send_sequenced. by rewrite E2.
Qed.

(** ** Leaving *)

Lemma erase_client_spec ch ws l x : NoDup l -> x ∈ erase_client ch ws l <-> x ∈ l /\ x <> (ch, ws).
Proof.
  induction 1 as [|y l Hy Hnd IH]; cbn [erase_client]; [set_solver|]. case_bool_decide as E; [subst y|]; set_solver.
Qed.

Lemma erase_client_nodup ch ws l : NoDup l -> NoDup (erase_client ch ws l).
Proof.
  induction 1 as [|y l Hy Hnd IH]; cbn [erase_client]; [constructor|]. case_bool_decide; [done|]. constructor; [|done].
  rewrite erase_client_spec by done. by intros [].
Qed.

(** What taking products of a channel away from one connection leaves. *)
Record thinned (ws ch : Z) (l : list bytes) p p' : Prop := {
  tn_sockets : pb_sockets p' = pb_sockets p;
  tn_clients : pb_clients p' = pb_clients p;
  tn_nodup : forall s, NoDup (client_list p' s);
  tn_entries : forall s x, x ∈ client_list p' s <-> x ∈ client_list p s /\ ~ (x = (ch, ws) /\ s ∈ l);
  tn_subs : forall c s w, w ∈ subscribers p' c s <-> w ∈ subscribers p c s /\ ~ (w = ws /\ c = ch /\ s ∈ l)
}.

Lemma unsubscribe_symbol_thins ws ch p symbol : (forall s, NoDup (client_list p s)) ->
  thinned ws ch [symbol] p (unsubscribe_symbol ws ch p symbol).
Proof.
  intros Hnd. set (p' := unsubscribe_symbol ws ch p symbol).
  assert (E : forall s, client_list p' s = if bool_decide (s = symbol) then erase_client ch ws (client_list p s) else client_list p s).
  { intros s. unfold client_list, p', unsubscribe_symbol. cbn [pb_symbol_channel_client set_subscribers push_request upd].
    destruct (pb_symbol_channel_client p !! symbol) as [l|] eqn:El.
    - case_bool_decide as Hs.
      + subst s. rewrite El. cbn [default from_option id]. destruct (erase_client ch ws l); [by rewrite lookup_delete_eq|by rewrite lookup_insert_eq].
      + destruct (erase_client ch ws l); [by rewrite lookup_delete_ne|by rewrite lookup_insert_ne].
    - case_bool_decide; [subst s; by rewrite El|done]. }
  split; try done.
  - intros s. rewrite E. case_bool_decide; [by apply erase_client_nodup|done].
  - intros s x. rewrite E. case_bool_decide; [rewrite erase_client_spec by done|]; set_solver.
  - intros c s w. unfold p', unsubscribe_symbol. rewrite cb_subscribers_set. case_bool_decide as Hc.
    + destruct Hc as [-> ->]. cbn [pb_subscription_info]. change (w ∈ subscribers p ch symbol ∖ {[ws]} <-> w ∈ subscribers p ch symbol
        /\ ~ (w = ws /\ ch = ch /\ symbol ∈ [symbol])). set_solver.
    + change (w ∈ subscribers p c s <-> w ∈ subscribers p c s /\ ~ (w = ws /\ c = ch /\ s ∈ [symbol])). set_solver.
Qed.

Lemma unsubscribe_symbols_thin ws ch l : forall p, (forall s, NoDup (client_list p s)) ->
  thinned ws ch l p (fold_left (unsubscribe_symbol ws ch) l p).
Proof.
  induction l as [|symbol l IH]; intros p Hnd; cbn [fold_left].
  - split; try done; intros; set_solver.
  - destruct (unsubscribe_symbol_thins ws ch p symbol Hnd) as [A1 A2 A3 A4 A5].
    destruct (IH (unsubscribe_symbol ws ch p symbol) A3) as [B1 B2 B3 B4 B5]. split; [congruence|congruence|done| |].
    + intros s x. rewrite B4, A4. set_solver.
    + intros c s w. rewrite B5, A5. set_solver.
Qed.

(** A connection that gives up one channel. *)
Lemma cb_unsubscribe_channel_ok p ws ch : publisher_ok p -> is_Some (pb_sockets p !! ws) ->
  exists p', unsubscribe_channel ws p ch = Some p' /\ publisher_ok p'
    /\ (forall w c s, active_in p' w c s <-> active_in p w c s /\ ~ (w = ws /\ c = ch))
    /\ pb_clients p' = pb_clients p /\ is_Some (pb_sockets p' !! ws)
    /\ forall w, w <> ws -> pb_sockets p' !! w = pb_sockets p !! w.
Proof.
  intros [O1 O2 O3 O4 O5] [sd Esd]. unfold unsubscribe_channel. rewrite Esd. set (l := elements _).
  destruct (unsubscribe_symbols_thin ws ch l p O3) as [T1 T2 T3 T4 T5]. set (p1 := fold_left _ l p) in *.
  unfold on_socket. rewrite T1, Esd. eexists. split; [done|]. set (f := set_info ch (fun _ => no_subs)).
  match goal with |- publisher_ok ?q /\ _ => set (p' := q) end.
  assert (Hl : forall w, pb_sockets p' !! w = if bool_decide (ws = w) then Some (f sd) else pb_sockets p !! w).
  { intros w. unfold p'. cbn [pb_sockets upd]. rewrite lookup_insert, T1. by case_decide; case_bool_decide. }
  assert (E : forall w c s, active_in p' w c s <-> active_in p w c s /\ ~ (w = ws /\ c = ch)).
  { intros w c s. unfold active_in. rewrite Hl. case_bool_decide as Hw.
    - subst w. rewrite Esd. unfold f. split.
      + intros (? & [= <-] & Hin). rewrite sub_info_set in Hin. revert Hin. case_bool_decide; [|intros Hin; split; [by eexists|naive_solver]].
        intros Hin. by apply elem_of_empty in Hin.
      + intros [(? & [= <-] & Hin) Hn]. eexists. split; [done|]. rewrite sub_info_set. case_bool_decide; [naive_solver|done].
    - split; [|by intros [? _]]. intros H. split; [done|]. by intros [-> _]. }
  assert (Hall : forall s, active_in p ws ch s <-> s ∈ l).
  { intros s. unfold l. rewrite elem_of_elements. unfold active_in. rewrite Esd. split; [by intros (? & [= <-] & ?)|by eexists]. }
  assert (Hdom : dom (pb_sockets p') = dom (pb_sockets p)).
  { apply set_eq. intros w. rewrite !elem_of_dom, Hl. case_bool_decide; [subst w; rewrite Esd; split; by eexists|done]. }
  split; [split|split; [done|split; [done|split; [|]]]].
  - unfold known in *. rewrite Hdom, <- O1. unfold p'. cbn [pb_clients upd]. by rewrite T2.
  - intros s c w. rewrite E. change (client_list p' s) with (client_list p1 s). rewrite T4, O2. rewrite <- Hall. naive_solver.
  - exact T3.
  - intros c s w. rewrite E. change (subscribers p' c s) with (subscribers p1 c s). rewrite T5, O4, <- Hall. naive_solver.
  - intros w c s. rewrite E. intros [H _]. by eapply O5.
  - by rewrite Hl, bool_decide_eq_true_2.
  - intros w Hw. by rewrite Hl, bool_decide_eq_false_2.
Qed.

Lemma unsubscribe_channels_ok ws l : forall p, publisher_ok p -> is_Some (pb_sockets p !! ws) ->
  exists p', each (unsubscribe_channel ws) l p = Some p' /\ publisher_ok p'
    /\ (forall w c s, active_in p' w c s <-> active_in p w c s /\ ~ (w = ws /\ c ∈ l))
    /\ pb_clients p' = pb_clients p /\ is_Some (pb_sockets p' !! ws)
    /\ forall w, w <> ws -> pb_sockets p' !! w = pb_sockets p !! w.
Proof.
  induction l as [|ch l IH]; intros p Hok Hws; cbn [each].
  - exists p. split; [done|]. split; [done|]. split; [|done]. intros w c s. set_solver.
  - destruct (cb_unsubscribe_channel_ok p ws ch Hok Hws) as (p1 & -> & A1 & A2 & A3 & A4 & A5).
    destruct (IH p1 A1 A4) as (p' & -> & B1 & B2 & B3 & B4 & B5). exists p'. split; [done|]. split; [done|].
    split; [intros w c s; rewrite B2, A2; set_solver|]. split; [congruence|]. split; [done|].
    intros w Hw. by rewrite B5, A5.
Qed.

(** Leaving takes every trace of the connection with it. *)
Lemma cb_close_ok v p ws : publisher_ok p -> views_ok v p -> is_Some (pb_sockets p !! ws) ->
  exists p', handle_close p ws = Some p' /\ publisher_ok p' /\ views_ok v p'
    /\ forall w, w <> ws -> pb_sockets p' !! w = pb_sockets p !! w.
Proof.
  intros Hok Hv Hws. unfold handle_close, unsubscribe_md.
  destruct (unsubscribe_channels_ok ws (seqZ 0 CHANNEL_COUNT) p Hok Hws) as (p1 & -> & [O1 O2 O3 O4 O5] & A2 & A3 & A4 & A5).
  eexists. split; [done|]. match goal with |- publisher_ok ?q /\ _ => set (p' := q) end.
  assert (Hnone : forall c s, ~ active_in p1 ws c s).
  { intros c s H. pose proof (O5 _ _ _ H) as Hc. apply A2 in H as [_ H]. apply H. split; [done|]. apply elem_of_seqZ.
    pose proof law_range as Hr. rewrite Forall_forall in Hr. apply (Hr c). set_solver. }
  assert (E : forall w c s, active_in p' w c s <-> active_in p1 w c s).
  { intros w c s. unfold active_in, p'. cbn [pb_sockets upd]. rewrite lookup_delete. case_decide; [|done]. subst w.
    split; [by intros (? & ? & _)|]. intros H. by destruct (Hnone c s). }
  split; [split|split].
  - unfold known in *. unfold p'. cbn [pb_clients pb_sockets upd]. rewrite dom_delete_L. set_solver.
  - intros s c w. rewrite E. apply O2.
  - exact O3.
  - intros c s w. rewrite E. apply O4.
  - intros w c s. rewrite E. apply O5.
  - intros w sd s. unfold p'. cbn [pb_sockets upd]. rewrite lookup_delete. case_decide; [done|]. rewrite A5 by done. apply Hv.
  - intros w Hw. unfold p'. cbn [pb_sockets upd]. by rewrite lookup_delete_ne, A5.
Qed.

(** The clients a publisher lists do not matter to who leaves. *)
Lemma unsubscribe_symbols_clients ws ch X l : forall p,
  fold_left (unsubscribe_symbol ws ch) l (p <| pb_clients := X |>) = (fold_left (unsubscribe_symbol ws ch) l p) <| pb_clients := X |>.
Proof. induction l as [|s l IH]; intros p; [done|]. apply (IH (unsubscribe_symbol ws ch p s)). Qed.

Lemma unsubscribe_channels_clients ws X l : forall p,
  each (unsubscribe_channel ws) l (p <| pb_clients := X |>) = (fun q => q <| pb_clients := X |>) <$> each (unsubscribe_channel ws) l p.
Proof.
  induction l as [|ch l IH]; intros p; [done|]. cbn [each].
  assert (E : unsubscribe_channel ws (p <| pb_clients := X |>) ch = (fun q => q <| pb_clients := X |>) <$> unsubscribe_channel ws p ch).
  { unfold unsubscribe_channel. change (pb_sockets (p <| pb_clients := X |>)) with (pb_sockets p).
    destruct (pb_sockets p !! ws) as [sd|]; [|done]. rewrite unsubscribe_symbols_clients. unfold on_socket.
    set (q := fold_left _ _ p). change (pb_sockets (q <| pb_clients := X |>)) with (pb_sockets q).
    by destruct (pb_sockets q !! ws). }
  rewrite E. destruct (unsubscribe_channel ws p ch) as [q|]; [|done]. apply IH.
Qed.

Lemma close_forgotten p ws : handle_close (p <| pb_clients ::= fun c => c ∖ {[ws]} |>) ws = handle_close p ws.
Proof.
  unfold handle_close, unsubscribe_md. change (p <| pb_clients ::= fun c => c ∖ {[ws]} |>) with (p <| pb_clients := pb_clients p ∖ {[ws]} |>).
  rewrite unsubscribe_channels_clients. destruct (each (unsubscribe_channel ws) (seqZ 0 CHANNEL_COUNT) p) as [q|] eqn:E; [|done].
  pose proof (unsubscribe_channels_clients ws (pb_clients p) (seqZ 0 CHANNEL_COUNT) p) as Hq.
  replace (p <| pb_clients := pb_clients p |>) with p in Hq by (by destruct p). rewrite E in Hq.
  assert (Ec : pb_clients q = pb_clients p) by (apply (f_equal (fmap pb_clients)) in Hq; cbn in Hq; by injection Hq).
  cbn [fmap option_fmap option_map]. destruct q. cbn in *. by rewrite Ec, difference_twice_L.
Qed.

(** ** Heartbeats *)

Lemma check_socket_ok v p now pong_timeout wall ws : publisher_ok p -> views_ok v p -> is_Some (pb_sockets p !! ws) ->
  exists p', check_socket now pong_timeout wall p ws = Some p' /\ publisher_ok p' /\ views_ok v p'
    /\ forall w, w <> ws -> is_Some (pb_sockets p !! w) -> is_Some (pb_sockets p' !! w).
Proof.
  intros Hok Hv Hws. unfold check_socket. destruct Hws as [sd Esd]. rewrite Esd. assert (Hws : is_Some (pb_sockets p !! ws)) by by eexists.
  assert (Hping : forall q, publisher_ok q -> views_ok v q -> is_Some (pb_sockets q !! ws) ->
    exists p', send_to Ping q ws = Some p' /\ publisher_ok p' /\ views_ok v p'
      /\ forall w, is_Some (pb_sockets p' !! w) <-> is_Some (pb_sockets q !! w)).
  { intros q H1 H2 H3. destruct (quiet_one_ok v q _ ws (cb_quiet_send Ping eq_refl) H3 H1 H2) as (p' & E & A1 & A2).
    exists p'. split; [exact E|]. split; [done|]. split; [done|]. by eapply on_socket_alive. }
  case_test; [|case_test].
  - rewrite close_forgotten. destruct (cb_close_ok v p ws Hok Hv Hws) as (p' & E & H1 & H2 & H3).
    exists p'. split; [done|]. split; [done|]. split; [done|]. intros w Hw. by rewrite H3.
  - set (start := default wall (pb_heartbeat_start p)).
    set (p1 := p <| pb_heartbeat_start := Some start |> <| pb_heartbeat_count ::= fun n => u64 (n + 1) |>).
    assert (Hok1 : publisher_ok p1) by (destruct Hok; split; done).
    destruct (quiet_one_ok v p1 (stamp (now_text wall) (Heartbeat (format_heatbeat_timestamp start wall) (pb_heartbeat_count p))) ws)
      as (p2 & E2 & A1 & A2); [by apply quiet_stamp|done..|].
    pose proof (on_socket_alive p1 ws _ p2 E2) as Ha. unfold send_sequenced. rewrite E2.
    destruct (Hping p2 A1 A2) as (p' & E & B1 & B2 & B3); [by apply Ha|]. exists p'. split; [done|]. split; [done|]. split; [done|].
    intros w _ Hw. by apply B3, Ha.
  - destruct (Hping p Hok Hv Hws) as (p' & E & B1 & B2 & B3). exists p'. split; [done|]. split; [done|]. split; [done|].
    intros w _ Hw. by apply B3.
Qed.

Lemma cb_heartbeats_ok v p now pong_timeout wall : publisher_ok p -> views_ok v p ->
  exists p', check_heartbeats p now pong_timeout wall = Some p' /\ publisher_ok p' /\ views_ok v p'.
Proof.
  intros Hok Hv. unfold check_heartbeats. pose proof (NoDup_elements (pb_clients p)) as Hnd.
  assert (Hall : forall ws, ws ∈ elements (pb_clients p) -> is_Some (pb_sockets p !! ws)).
  { intros ws Hin%elem_of_elements. pose proof (ck_clients p Hok) as Hk. unfold known in Hk. rewrite !difference_empty_L in Hk.
    rewrite Hk in Hin. by apply elem_of_dom. }
  revert Hnd Hall. generalize (elements (pb_clients p)). intros l. revert p Hok Hv.
  induction l as [|ws l IH]; intros p Hok Hv Hnd Hall; cbn [each]; [by exists p|]. apply NoDup_cons in Hnd as [Hx Hnd].
  destruct (check_socket_ok v p now pong_timeout wall ws Hok Hv) as (p1 & -> & H1 & H2 & H3); [apply Hall; by left|].
  apply IH; [done|done|done|]. intros w Hin. apply H3; [by intros ->|]. apply Hall. by right.
Qed.

(** ** Every history *)

Definition event_fits p (e : Event) : Prop :=
  match e with
  | EvOpen ws _ => pb_sockets p !! ws = None
  | EvClose ws | EvPong ws _ => is_Some (pb_sockets p !! ws)
  | EvMessage _ ws message => is_Some (pb_sockets p !! ws) /\ message_fits p ws message
  | EvFrame _ update => frame_fits update
  | EvHeartbeats _ _ _ => True
  end.

(** A history in which each event is one the code meets: sockets open before they speak,
    messages and frames have the shape of their types, nobody subscribes twice. *)
Fixpoint fits_all p (es : list Event) : Prop :=
  match es with
  | [] => True
  | e :: es => event_fits p e /\ forall p', run_event p e = Some p' -> fits_all p' es
  end.

Lemma cb_event_preserves v p e : publisher_ok p -> views_ok v p -> event_fits p e ->
  exists p', run_event p e = Some p' /\ publisher_ok p' /\ views_ok (view_event v e) p'.
Proof.
  intros Hok Hv He. destruct e as [ws now|ws|ws now|now timeout wall|now ws message|now update]; cbn [run_event view_event event_fits] in *.
  - eexists. split; [done|]. by apply cb_open_ok.
  - destruct (cb_close_ok v p ws Hok Hv He) as (p' & E & H1 & H2 & _). by exists p'.
  - apply quiet_one_ok; try done.
  - by apply cb_heartbeats_ok.
  - destruct He as [Hws Hm]. destruct (cb_message_ok v p now ws message Hok Hv Hws Hm) as (p' & -> & H). by exists p'.
  - by apply frame_preserves.
Qed.

Definition no_view : View := fun _ _ => None.

Lemma new_publisher_ok : publisher_ok new_publisher /\ views_ok no_view new_publisher.
Proof.
  assert (H : forall w c s, ~ active_in new_publisher w c s) by (intros w c s (sd & E & _); done).
  split; [split|].
  - done.
  - intros s c w. split; [by intros ?%elem_of_nil|intros Ha; by destruct (H w c s)].
  - intros s. constructor.
  - intros c s w. split; [|intros Ha; by destruct (H w c s)]. intros Hin. by apply elem_of_empty in Hin.
  - intros w c s Ha. by destruct (H w c s).
  - done.
Qed.

Lemma history_ok es : forall v p, publisher_ok p -> views_ok v p -> fits_all p es ->
  exists p', run_events es p = Some p' /\ publisher_ok p' /\ views_ok (fold_left view_event es v) p'.
Proof.
  induction es as [|e es IH]; intros v p Hok Hv Hf; [by exists p|]. cbn [fits_all] in Hf. destruct Hf as [He Hf].
  destruct (cb_event_preserves v p e Hok Hv He) as (p1 & E & H1 & H2). unfold run_events. cbn [each fold_left]. rewrite E.
  apply IH; [done|done|by apply Hf].
Qed.

(** ** Subscribing twice *)

(** How often an entry is in a product's multimap. *)
Definition copies p (s : bytes) (x : Z * Z) : nat := List.length (List.filter (fun y => bool_decide (y = x)) (client_list p s)).

Lemma erase_client_copies ch ws x l :
  (List.length (List.filter (fun y => bool_decide (y = x)) l)
   <= List.length (List.filter (fun y => bool_decide (y = x)) (erase_client ch ws l)) + (if bool_decide (x = (ch, ws)) then 1 else 0))%nat.
Proof.
  induction l as [|y l IH]; cbn [erase_client List.filter]; [cbn; lia|]. destruct (bool_decide (y = (ch, ws))) eqn:E; bool_to_prop.
  - subst y. destruct (decide (x = (ch, ws))) as [->|Hne].
    + rewrite bool_decide_eq_true_2 by done. cbn. lia.
    + rewrite (bool_decide_eq_false_2 ((ch, ws) = x)) by congruence. lia.
  - cbn [List.filter]. destruct (bool_decide (y = x)); cbn [List.length]; lia.
Qed.

Lemma unsubscribe_symbol_copies ws ch p symbol s x :
  (copies p s x <= copies (unsubscribe_symbol ws ch p symbol) s x + (if bool_decide (x = (ch, ws) /\ s = symbol) then 1 else 0))%nat.
Proof.
  unfold copies, client_list, unsubscribe_symbol. cbn [pb_symbol_channel_client set_subscribers push_request upd].
  destruct (pb_symbol_channel_client p !! symbol) as [l|] eqn:El; [|lia].
  destruct (decide (s = symbol)) as [->|Hs].
  - assert (E : default [] (match erase_client ch ws l with [] => delete symbol (pb_symbol_channel_client p)
      | l0 => <[symbol:=l0]> (pb_symbol_channel_client p) end !! symbol) = erase_client ch ws l).
    { destruct (erase_client ch ws l); [by rewrite lookup_delete_eq|by rewrite lookup_insert_eq]. }
    rewrite El. cbn [default from_option id]. etrans; [apply (erase_client_copies ch ws x l)|].
    apply Nat.add_le_mono; [|repeat case_bool_decide; naive_solver lia].
    rewrite <- E at 1. done.
  - assert (E : (match erase_client ch ws l with [] => delete symbol (pb_symbol_channel_client p)
      | l0 => <[symbol:=l0]> (pb_symbol_channel_client p) end) !! s = pb_symbol_channel_client p !! s).
    { destruct (erase_client ch ws l); [by rewrite lookup_delete_ne|by rewrite lookup_insert_ne]. }
    rewrite <- E at 1. lia.
Qed.

Lemma unsubscribe_symbols_copies ws ch s x l : forall p, NoDup l ->
  (copies p s x <= copies (fold_left (unsubscribe_symbol ws ch) l p) s x + (if bool_decide (x = (ch, ws) /\ s ∈ l) then 1 else 0))%nat.
Proof.
  induction l as [|symbol l IH]; intros p; [cbn; lia|]. intros [Hx Hnd]%NoDup_cons. cbn [fold_left].
  etrans; [apply (unsubscribe_symbol_copies ws ch p symbol)|]. pose proof (IH (unsubscribe_symbol ws ch p symbol) Hnd) as H.
  revert H. repeat case_bool_decide; try lia; set_solver.
Qed.

Lemma unsubscribe_channels_copies ws s x l : forall p p', NoDup l -> each (unsubscribe_channel ws) l p = Some p' ->
  (copies p s x <= copies p' s x + (if bool_decide (fst x ∈ l) then 1 else 0))%nat.
Proof.
  induction l as [|ch l IH]; intros p p'; cbn [each]; [intros _ [= <-]; lia|]. intros [Hx Hnd]%NoDup_cons.
  destruct (unsubscribe_channel ws p ch) as [p1|] eqn:E; [|done]. intros H. pose proof (IH p1 p' Hnd H) as H2.
  unfold unsubscribe_channel in E. destruct (pb_sockets p !! ws) as [sd|]; [|done]. set (m := elements _) in E.
  pose proof (unsubscribe_symbols_copies ws ch s x m p (NoDup_elements _)) as H1. set (q := fold_left _ m p) in *.
  unfold on_socket in E. destruct (pb_sockets q !! ws) as [sd'|]; [|done].
  assert (Ec : copies p1 s x = copies q s x) by (by injection E as <-). rewrite Ec in H2.
  assert (F1 : x = (ch, ws) /\ s ∈ m -> fst x ∉ l) by (by intros [-> _]).
  assert (F2 : x = (ch, ws) /\ s ∈ m -> fst x ∈ ch :: l) by (intros [-> _]; by left).
  assert (F3 : fst x ∈ l -> fst x ∈ ch :: l) by (intros; by right).
  revert H1 H2. destruct (decide (fst x ∈ ch :: l)) as [Hin|Hin].
  - rewrite (bool_decide_eq_true_2 (fst x ∈ ch :: l)) by done. repeat case_bool_decide; intros; try lia; exfalso; by apply F1.
  - rewrite (bool_decide_eq_false_2 (fst x ∈ ch :: l)) by done. repeat case_bool_decide; intros; try lia; exfalso; auto.
Qed.

(** A loop over sockets one of which is not open does not survive it. *)
Lemma each_dead f l ws : forall p, ws ∈ l -> pb_sockets p !! ws = None -> each (fun p w => on_socket p w f) l p = None.
Proof.
  induction l as [|x l IH]; intros p Hin Hn; [by apply elem_of_nil in Hin|]. cbn [each].
  destruct (on_socket p x f) as [p1|] eqn:E; [|done]. assert (Hx : x <> ws) by (intros ->; unfold on_socket in E; by rewrite Hn in E).
  apply IH; [by apply elem_of_cons in Hin as [|]|]. unfold on_socket in E. destruct (pb_sockets p !! x); [|done]. injection E as <-.
  cbn. by rewrite lookup_insert_ne.
Qed.

Lemma copies_entry p s ch ws : (0 < copies p s (ch, ws))%nat -> ws ∈ entries p s ch.
Proof.
  unfold copies, entries, client_list. intros H.
  destruct (List.filter (fun y => bool_decide (y = (ch, ws))) _) as [|y l] eqn:E; [cbn in H; lia|].
  assert (Hy : In y (List.filter (fun y => bool_decide (y = (ch, ws))) (default [] (pb_symbol_channel_client p !! s)))) by (rewrite E; by left).
  apply filter_In in Hy as [Hy ->%bool_decide_eq_true_1]. apply list_elem_of_fmap. exists (ch, ws). split; [done|].
  apply list_elem_of_In, filter_In. split; [done|]. cbn. lia.
Qed.

(** A second subscription to the same product leaves an entry that survives the connection,
    and the next level update of the product reads the socket after it is gone. *)
Lemma second_subscription_dangles p ws symbol p1 p2 :
  publisher_ok p -> active_in p ws LEVEL2 symbol ->
  subscribe_product ws LEVEL2 p symbol = Some p1 -> handle_close p1 ws = Some p2 ->
  forall now update n levels, mdu_type update = LEVEL -> view (mdu_symbol update) = symbol ->
    mdu_data update = PLevels n levels -> publish_market_data_update now p2 update = None.
Proof.
  intros Hok Ha E1 E2 now update n levels Et Es Ed.
  assert (C0 : (1 <= copies p symbol (LEVEL2, ws))%nat).
  { apply (ck_entries p Hok) in Ha. apply list_elem_of_In in Ha. unfold copies.
    destruct (List.filter (fun y => bool_decide (y = (LEVEL2, ws))) (client_list p symbol)) as [|y l] eqn:E; [|cbn; lia].
    exfalso. assert (Hin : In (LEVEL2, ws) (List.filter (fun y => bool_decide (y = (LEVEL2, ws))) (client_list p symbol)))
      by (apply filter_In; split; [done|by apply bool_decide_eq_true_2]). by rewrite E in Hin. }
  assert (C1 : (2 <= copies p1 symbol (LEVEL2, ws))%nat).
  { unfold subscribe_product in E1. destruct (on_socket _ ws _) as [q|] eqn:E; [|done]. injection E1 as <-.
    assert (Eq : pb_symbol_channel_client q = pb_symbol_channel_client p).
    { unfold on_socket in E. destruct (pb_sockets _ !! ws); [|done]. by injection E as <-. }
    unfold copies, client_list in *. cbn [pb_symbol_channel_client upd]. rewrite lookup_insert_eq, Eq. cbn [default from_option id].
    rewrite List.filter_app, length_app. cbn [List.filter]. rewrite bool_decide_eq_true_2 by done. cbn [List.length]. lia. }
  unfold handle_close, unsubscribe_md in E2. destruct (each _ _ p1) as [q|] eqn:E; [|done]. injection E2 as <-.
  pose proof (unsubscribe_channels_copies ws symbol (LEVEL2, ws) _ p1 q (NoDup_seqZ _ _) E) as C2.
  assert (Hin : ws ∈ entries q symbol LEVEL2) by (apply copies_entry; revert C2; case_bool_decide; lia).
  match goal with |- publish_market_data_update now ?r update = None => set (p2 := r) end.
  unfold publish_market_data_update. rewrite Et. unfold publish_level_update. rewrite Es, Ed.
  change (entries p2 symbol LEVEL2) with (entries q symbol LEVEL2).
  rewrite bool_decide_eq_false_2 by (intros E0; rewrite E0 in Hin; by apply elem_of_nil in Hin).
  destruct (update_rows n levels); [|done]. apply (each_dead _ _ ws); [done|]. unfold p2. cbn. by rewrite lookup_delete_eq.
Qed.
End Subscribers.

(** C4. In every history in which sockets are open before they speak, messages and frames have
    the shape of their types and nobody subscribes twice to a product of a channel, every
    event is handled, and every open connection is subscribed to the levels of exactly the
    products it asked for, waits for a snapshot exactly as long as none answered it, and reads
    out of its messages - from their texts - exactly the levels of the last snapshot it was
    owed and of every update published since. *)
Theorem coinbase_subscribers_hold {sdk : CoinbaseSdk} {sdklaws : CoinbaseSdkLaws} {J} {json : Json J} {items : JsonItems J} es :
  fits_all new_publisher es ->
  exists p, run_events es new_publisher = Some p
    /\ forall ws sd symbol, pb_sockets p !! ws = Some sd ->
         owed_by sd symbol = fold_left view_event es no_view ws symbol.
Proof.
  intros Hf. destruct new_publisher_ok as [Hok Hv]. destruct (history_ok es no_view new_publisher Hok Hv Hf) as (p & E & _ & H).
  exists p. split; [done|]. intros ws sd symbol Es. by destruct (H ws sd symbol Es).
Qed.

(** Subscribing to a product's levels a second time on one connection leaves an entry that
    outlives the connection: once the connection has closed, publishing any level update of
    the product dereferences the closed socket. *)
Lemma coinbase_second_subscription_dangles {sdk : CoinbaseSdk} {sdklaws : CoinbaseSdkLaws} p ws symbol p1 p2 :
  publisher_ok p -> active_in p ws LEVEL2 symbol ->
  subscribe_product ws LEVEL2 p symbol = Some p1 -> handle_close p1 ws = Some p2 ->
  forall now update n levels, mdu_type update = LEVEL -> view (mdu_symbol update) = symbol ->
    mdu_data update = PLevels n levels -> publish_market_data_update now p2 update = None.
Proof. apply second_subscription_dangles. Qed.

(** ** A concrete history *)

Lemma fits_all_step {sdk : CoinbaseSdk} {J} {json : Json J} {items : JsonItems J} p e es q :
  event_fits p e -> run_event p e = Some q -> fits_all q es -> fits_all p (e :: es).
Proof. intros He E H. split; [done|]. intros p'. rewrite E. by intros [= <-]. Qed.

Definition active_inb p (ws ch : Z) (symbol : bytes) : bool :=
  match pb_sockets p !! ws with
  | Some sd => bool_decide (symbol ∈ active_subscriptions (sub_info sd ch))
  | None => false
  end.

Lemma active_inb_spec p ws ch symbol : active_inb p ws ch symbol = true <-> active_in p ws ch symbol.
Proof.
  unfold active_inb, active_in. destruct (pb_sockets p !! ws) as [sd|]; [|by split; [|intros (? & ? & _)]].
  rewrite bool_decide_eq_true. split; [by eexists|]. by intros (? & [= <-] & ?).
Qed.

(** A message that subscribes to one product it was not subscribed to. *)
Lemma subscribe_level2_fits p ws product : active_inb p ws LEVEL2 product = false ->
  message_fits p ws (inr (subscribe_level2 product)).
Proof.
  intros H. exists (str "level2"). split; [done|]. intros ch [= <-]. exists [product]. split; [done|]. split; [apply NoDup_singleton|].
  intros s ->%list_elem_of_singleton. intros Ha%active_inb_spec. apply (eq_true_false_abs _ Ha H).
Qed.

Lemma sample_history_fits : fits_all new_publisher sample_history.
Proof.
  eapply fits_all_step; [done|vm_compute; reflexivity|].
  eapply fits_all_step; [split; [by eexists|by apply subscribe_level2_fits]|vm_compute; reflexivity|].
  eapply fits_all_step; [|vm_compute; reflexivity|].
  { exists 0, MDReject.NONE. split; [done|]. split; [done|]. intros _. eexists _, _. split; [done|].
    repeat split; cbn; try lia. repeat constructor; cbn; lia. }
  eapply fits_all_step; [|vm_compute; reflexivity|done].
  eexists _, _. split; [done|]. repeat split; cbn; try lia. repeat constructor; cbn; lia.
Qed.

Lemma coinbase_subscribers_hold_witness : fits_all new_publisher sample_history
  /\ exists p, run_events sample_history new_publisher = Some p
       /\ forall ws sd symbol, pb_sockets p !! ws = Some sd ->
            owed_by sd symbol = fold_left view_event sample_history no_view ws symbol.
Proof. split; [exact sample_history_fits|]. exact (coinbase_subscribers_hold sample_history sample_history_fits). Defined.

Lemma coinbase_second_subscription_dangles_witness :
  exists p p1 p2, publisher_ok p /\ active_in p 7 LEVEL2 (str "BTC-USD")
    /\ subscribe_product 7 LEVEL2 p (str "BTC-USD") = Some p1 /\ handle_close p1 7 = Some p2
    /\ publish_market_data_update 0 p2 (sample_update LEVEL (PLevels 1 [sample_level SELL 101 3])) = None.
Proof.
  assert (H : exists p p1 p2, publisher_ok p /\ active_inb p 7 LEVEL2 (str "BTC-USD") = true
    /\ subscribe_product 7 LEVEL2 p (str "BTC-USD") = Some p1 /\ handle_close p1 7 = Some p2).
  { destruct (history_ok sample_history no_view new_publisher (proj1 new_publisher_ok) (proj2 new_publisher_ok) sample_history_fits)
      as (p & E & Hok & _).
    assert (Hp : match run_events sample_history new_publisher with
      | Some p => active_inb p 7 LEVEL2 (str "BTC-USD")
          && match subscribe_product 7 LEVEL2 p (str "BTC-USD") with
             | Some p1 => match handle_close p1 7 with Some _ => true | None => false end
             | None => false end
      | None => false end = true) by (vm_compute; reflexivity).
    rewrite E in Hp. destruct (subscribe_product 7 LEVEL2 p (str "BTC-USD")) as [p1|] eqn:E1; [|by rewrite andb_false_r in Hp].
    destruct (handle_close p1 7) as [p2|] eqn:E2; [|by rewrite andb_false_r in Hp]. apply andb_true_iff in Hp as [Hp _].
    by exists p, p1, p2. }
  destruct H as (p & p1 & p2 & H1 & H2%active_inb_spec & H3 & H4). exists p, p1, p2. do 4 (split; [assumption|]).
  exact (coinbase_second_subscription_dangles p 7 (str "BTC-USD") p1 p2 H1 H2 H3 H4 0
    (sample_update LEVEL (PLevels 1 [sample_level SELL 101 3])) 1 [sample_level SELL 101 3] eq_refl eq_refl eq_refl).
Defined.
