(* ===== verification/CoinbaseClients.v ===== *)
(** * A client's book is the exchange's

    The composition of the exchange with Coinbase's publisher: a client that was answered
    with the book of an instrument and reads the levels of every frame published since, out
    of the texts it is sent, shows at every price what the exchange's book shows - at any
    later flush, whatever clients and venue did in between. *)

From S2P Require Import Prelude Types FixedString RingBuffer Orders Messages MarketData.
From S2P Require Import L3Interface L3Lemmas OrderBook OrderBookInv MatchingConfig BookState.
From S2P Require Import L3Reference Concrete Symbol SymbolManager Exchange DeskState SystemProofs.
From S2P Require Import MdPublisher CoinbasePublisher CoinbasePublisherProofs CoinbaseSubscribers.

Section Clients.
Context {L3 Pool : Type} {l3ops : L3Ops L3} {laws : L3Laws L3} {poolops : ObjectPool Pool}
  {poollaws : PoolLaws Pool} {env : Environment} {sdk : CoinbaseSdk}.
Abbreviation OrderBook := (OrderBook L3 Pool).
Abbreviation System := (System L3 Pool).
Implicit Types b : OrderBook.
Implicit Types s : System.

(** ** The snapshot of a book shows its depth *)

Definition level_row (side : Side) (l : Level) : Side * price_t * qty_t := (side, lv_price l, lv_total_quantity l).

Lemma fill_levels_rows side frame first ls : map (at_side side) (fill_levels frame first ls) = map (level_row side) ls.
Proof.
  unfold fill_levels. etrans; [apply (fmap_imap (fun i l => fill_level (env_level_slot frame (first + i)) l) (at_side side) ls)|].
  etrans; [|apply (imap_const (level_row side) ls)]. by apply imap_ext.
Qed.

Lemma fill_levels_length frame first ls : List.length (fill_levels frame first ls) = List.length ls.
Proof. apply length_imap. Qed.

(** A snapshot counts the levels of a side in 32 bits. *)
Definition countable_sides b : Prop :=
  forall side, Z.of_nat (List.length (getLevelsL3 (ob_l3 b) side)) < 2 ^ 32.

Lemma snapshot_rows_of_book b frame : countable_sides b ->
  snapshot_levels (book_snapshot b frame)
  = map (level_row BUY) (getLevelsL3 (ob_l3 b) BUY) ++ map (level_row SELL) (getLevelsL3 (ob_l3 b) SELL).
Proof.
  intros Hc. pose proof (Hc BUY) as Hb. pose proof (Hc SELL) as Ha. unfold snapshot_levels, book_snapshot. cbn [snap_num_bid snap_num_ask snap_levels]. rewrite !wrap_small, !Nat2Z.id by lia.
  set (bids := getLevelsL3 (ob_l3 b) BUY) in *. set (asks := getLevelsL3 (ob_l3 b) SELL) in *.
  set (fa := fill_levels frame (List.length bids) asks).
  assert (Ea : List.length fa = List.length asks) by apply fill_levels_length. rewrite <- Ea, <- (fill_levels_length frame 0 bids).
  rewrite take_app_length, drop_app_length, take_ge by done. unfold fa. by rewrite !fill_levels_rows.
Qed.

(** Rows of one side with distinct prices: the last read is the only one. *)
Lemma follow_rows side ls : StronglySorted (better_level side) ls -> forall p q,
  follow (map (level_row side) ls) side p q = match List.find (fun l => lv_price l =? p) ls with
                                              | Some l => lv_total_quantity l
                                              | None => q
                                              end.
Proof.
  induction 1 as [|l ls Hs IH Hall]; intros p q; [done|]. cbn [map List.find]. unfold follow in *. cbn [fold_left].
  rewrite IH. cbn [level_row fst snd]. rewrite bool_decide_eq_true_2 by done. cbn [andb]. destruct (lv_price l =? p) eqn:E; [|done].
  bool_to_prop. destruct (List.find (fun l => lv_price l =? p) ls) as [x|] eqn:Ef; [|done]. apply find_some in Ef as [Hin Ex]. bool_to_prop.
  rewrite Forall_forall in Hall. apply list_elem_of_In, Hall in Hin. unfold better_level, isPriceBetter in Hin. exfalso. destruct side; bool_to_prop; lia.
Qed.

Lemma follow_elsewhere side' side ls : side' <> side -> forall p q, follow (map (level_row side') ls) side p q = q.
Proof.
  intros Hne. unfold follow. induction ls as [|l ls IH]; intros p q; [done|]. cbn [map fold_left]. rewrite IH. cbn.
  by rewrite bool_decide_eq_false_2.
Qed.

Lemma snapshot_shows_depth b frame side p : book_inv None b -> book_side side -> countable_sides b ->
  shown side p (snapshot_levels (book_snapshot b frame)) = depth b side p.
Proof.
  intros Hinv Hs Hc. unfold shown, depth, level_qty. rewrite (snapshot_rows_of_book b frame Hc), follow_app.
  destruct (bi_l3 _ _ Hinv) as [[_ S1] [_ S2] _]. destruct Hs as [-> | ->].
  - rewrite (follow_rows BUY) by done. by rewrite follow_elsewhere.
  - rewrite (follow_elsewhere BUY) by done. by rewrite (follow_rows SELL).
Qed.

(** ** The frames that follow *)

(** A frame of the exchange between two flushes, as a client of the instrument sees it: its
    name is a zero-filled buffer, a level frame counts the levels it carries and each is of a
    side, and the book is not published anew. *)
Definition incremental (name : fixed_string) (u : MarketDataUpdate) : Prop :=
  (view (mdu_symbol u) = view name -> mdu_symbol u = name)
  /\ (mdu_symbol u = name ->
        match mdu_type u, mdu_data u with
        | LEVEL, PLevels n levels => n = Z.of_nat (List.length levels) /\ Forall (fun l => book_side (ml_side l)) levels
        | LEVEL, _ | BOOK_SNAPSHOT, _ | _, PLevels _ _ => False
        | _, _ => True
        end).

Definition owed_after (name : fixed_string) (frames : list MarketDataUpdate) (o : Owed) : Owed :=
  fold_left (fun o u => if bytes_eqb (view name) (view (mdu_symbol u)) then owed_frame u o else o) frames o.

Lemma update_levels_deltas levels : Forall (fun l => book_side (ml_side l)) levels ->
  update_levels (Z.of_nat (List.length levels)) levels = map delta levels.
Proof.
  intros H. unfold update_levels. rewrite Nat2Z.id, take_ge by done. induction H as [|l levels Hl _ IH]; [done|].
  cbn [map]. f_equal; [|done]. unfold update_level, delta, at_side. by destruct Hl as [-> | ->].
Qed.

Lemma owed_increments name frames : Forall (incremental name) frames -> forall ls,
  owed_after name frames (Some (false, Some ls)) = Some (false, Some (ls ++ level_frames name frames)).
Proof.
  induction 1 as [|u frames [Hn Hu] _ IH]; intros ls; [cbn; by rewrite app_nil_r|].
  unfold owed_after, level_frames in *. cbn [fold_left flat_map].
  assert (E : (if bytes_eqb (view name) (view (mdu_symbol u)) then owed_frame u (Some (false, Some ls)) else Some (false, Some ls))
    = Some (false, Some (ls ++ frame_deltas name u))).
  { destruct (bytes_eqb _ _) eqn:Eb.
    - apply bytes_eqb_eq in Eb. specialize (Hn (eq_sym Eb)). specialize (Hu Hn). unfold owed_frame, frame_deltas.
      destruct (mdu_type u), (mdu_data u) as [| | | | | |c [] s0|]; try done; rewrite ?app_nil_r; rewrite ?andb_false_r; try done.
      destruct Hu as [-> Hs]. rewrite bool_decide_eq_true_2, update_levels_deltas by done. done.
    - unfold frame_deltas. destruct (mdu_data u); rewrite ?app_nil_r; try done. rewrite bool_decide_eq_false_2; [by rewrite app_nil_r|].
      intros Hx. rewrite Hx in Eb. by rewrite (proj2 (bytes_eqb_eq _ _) eq_refl) in Eb. }
  rewrite E, IH. by rewrite app_assoc.
Qed.

End Clients.

(** ** A concrete run *)

Definition incrementalb (name : fixed_string) (u : MarketDataUpdate) : bool :=
  if bytes_eqb (view (mdu_symbol u)) (view name) then
    bytes_eqb (mdu_symbol u) name
    && match mdu_type u, mdu_data u with
       | LEVEL, PLevels n levels =>
           (n =? Z.of_nat (List.length levels)) && forallb (fun l => negb (bool_decide (ml_side l = UNKNOWN_SIDE))) levels
       | LEVEL, _ | BOOK_SNAPSHOT, _ | _, PLevels _ _ => false
       | _, _ => true
       end
  else true.

Lemma incrementalb_spec name u : incrementalb name u = true -> incremental name u.
Proof.
  unfold incrementalb, incremental. destruct (bytes_eqb (view _) _) eqn:E.
  - intros [H1 H2]%andb_true_iff. apply bytes_eqb_eq in H1. split; [done|]. intros _. revert H2.
    destruct (mdu_type u), (mdu_data u); try done. intros [H2 H3]%andb_true_iff. bool_to_prop. split; [done|].
    apply List.Forall_forall. rewrite forallb_forall in H3. intros l Hl. specialize (H3 l Hl). bool_to_prop. unfold book_side.
    destruct (ml_side l); [by left|by right|done].
  - intros _. split; [|intros H].
    + intros H. by rewrite H, (proj2 (bytes_eqb_eq _ _) eq_refl) in E.
    + by rewrite H, (proj2 (bytes_eqb_eq _ _) eq_refl) in E.
Qed.

(** The instrument is flushed under the name, and [frames] can be followed. *)
Definition followable (name : fixed_string) (s : System RefBook Z) (i : nat) (frames : list MarketDataUpdate) : bool :=
  match desk_at s i with
  | Some d => match deltas (w_book (d_world d)) with [] => true | _ => false end && bytes_eqb (name_of d) name
  | None => false
  end && forallb (incrementalb name) frames.

Lemma followable_spec name s i frames : followable name s i frames = true ->
  exists d, desk_at s i = Some d /\ deltas (w_book (d_world d)) = [] /\ name_of d = name /\ Forall (incremental name) frames.
Proof.
  unfold followable. destruct (desk_at s i) as [d|]; [|done]. intros [[H1 H2]%andb_true_iff H3]%andb_true_iff. exists d.
  split; [done|]. split; [by destruct (deltas _)|]. split; [by apply bytes_eqb_eq|].
  apply List.Forall_forall. rewrite forallb_forall in H3. intros u Hu. by apply incrementalb_spec, H3.
Qed.

Definition sides_countable (s : System RefBook Z) (i : nat) : bool :=
  match desk_at s i with
  | Some d => forallb (fun side => Z.of_nat (List.length (getLevelsL3 (ob_l3 (w_book (d_world d))) side)) <? 2 ^ 32) [BUY; SELL; UNKNOWN_SIDE]
  | None => false
  end.

Lemma sides_countable_spec s i d : sides_countable s i = true -> desk_at s i = Some d -> countable_sides (w_book (d_world d)).
Proof.
  unfold sides_countable. intros H E. rewrite E in H. cbn [forallb] in H. bool_to_prop. by intros [].
Qed.

(** A client order rests what it does not trade; then its client cancels it. *)
Definition sample_request_cancel : Request := sample_request (ReqCancel (mkCancelOrder client_name (clear 37) (assign 37 (str "o1")))).

Definition sample_flushed : option (System RefBook Z) := SystemProofs.run_event sample_system (EvRequest sample_request_add).

Definition sample_cancelled : option (System RefBook Z) :=
  match sample_flushed with Some s => SystemProofs.run_event s (EvRequest sample_request_cancel) | None => None end.

Definition sample_news : list MarketDataUpdate :=
  match sample_flushed, sample_cancelled with Some s0, Some s => drop (List.length (sys_md s0)) (sys_md s) | _, _ => [] end.

