(* ===== verification/CoinbaseSubscriptions.v ===== *)
(** * Products, subscriptions and live feeds of the Coinbase venue

    Models what [src/venues/coinbase/coinbase_exchange.cpp] and [coinbase_feed_callbacks.cpp]
    do between a client's subscription and the SDK: creating the instrument, starting and
    stopping the feed of a product, remembering on which channel a snapshot is awaited, and
    starting again after a disconnection. A feed is the number of its construction, and its
    SDK client too; what the feeds asked of the SDK is kept in order. *)

From S2P Require Import Prelude Types FixedString RingBuffer Orders Messages MarketData.
From S2P Require Import L3Interface OrderBook MatchingConfig Symbol SymbolManager Exchange.
From S2P Require Import Instruments CoinbaseFeed CoinbasePublisher.

(** One [CoinbaseLiveWSFeed]; the offset separates its producers from the other feeds'. *)
Record LiveFeed := mkLiveFeed {
  lf_symbols : list bytes;
  lf_producer_offset : Z
}.

(** What a feed asks of its client: both channels of its products. *)
Inductive FeedCall := FeedSubscribe (feed : nat) (symbols : list bytes) | FeedUnsubscribe (feed : nat) (symbols : list bytes).

Section Venue.
Context {L3 Pool : Type} {l3ops : L3Ops L3} {poolops : ObjectPool Pool} {env : Environment}
  {newbooks : NewBooks L3 Pool} {sdk : CoinbaseSdk}.
Abbreviation System := (System L3 Pool).
Abbreviation CoinbaseExchange := (CoinbaseExchange L3 Pool).

(** The exchange with its feeds: [cv_made] are the feeds constructed, [cv_md_feeds] and
    [cv_map_symbol_feed] the pointers to those it holds. *)
Record CoinbaseVenue := mkVenue {
  cv_exchange : CoinbaseExchange;
  cv_use_live_feed : bool;
  cv_made : list LiveFeed;
  cv_md_feeds : list nat;
  cv_map_symbol_feed : gmap bytes nat;
  cv_calls : list FeedCall
}.

#[export] Instance CoinbaseVenue_eta : Eta CoinbaseVenue := fun v =>
  mkVenue (cv_exchange v) (cv_use_live_feed v) (cv_made v) (cv_md_feeds v) (cv_map_symbol_feed v) (cv_calls v).

Implicit Types v : CoinbaseVenue.

Definition venue_product v (sym : bytes) : option nat := find_product (cv_exchange v) sym.

(** ** Instruments *)

(** [storage] is the fresh array of the trade history. *)
Definition addSymbol (sys : System) (product_id : bytes) (storage : list MDTrade) : result (nat * System) :=
  match getSymbol (sys_symbols sys) product_id (ex_venue (sys_exchange sys)) with
  | Some _ => Undefined
  | None => open_symbol COINBASE sys product_id storage
  end.

(** [num_subscriptions_.fetch_add(1)]. *)
Definition count_subscription (i : nat) v : CoinbaseVenue :=
  v <| cv_exchange ::= fun c => c <| cb_system ::= on_symbol (fun s => s <| sym_num_subscriptions ::= fun n => u16 (n + 1) |>) i |> |>.

(** ** Feeds *)

Definition start_feed (f : nat) v : CoinbaseVenue :=
  match cv_made v !! f with
  | Some lf => if bool_decide (lf_symbols lf = []) then v
               else v <| cv_calls ::= fun l => l ++ [FeedSubscribe f (lf_symbols lf)] |>
  | None => v
  end.

Definition stop_feed (f : nat) v : CoinbaseVenue :=
  match cv_made v !! f with
  | Some lf => v <| cv_calls ::= fun l => l ++ [FeedUnsubscribe f (lf_symbols lf)] |>
  | None => v
  end.

(** A new product's own feed, started and remembered. *)
Definition attach_feed (sym : bytes) (id : Z) v : CoinbaseVenue :=
  let f := List.length (cv_made v) in
  let v := v <| cv_made ::= fun l => l ++ [mkLiveFeed [sym] (u32 (id * PRODUCER_TYPE_COUNT))] |>
             <| cv_md_feeds ::= fun l => l ++ [f] |> in
  let v := start_feed f v in
  v <| cv_map_symbol_feed ::= fun m => match m !! sym with Some _ => m | None => <[sym := f]> m end |>.

(** ** Requests *)

(** The snapshot the book can give now. *)
Definition answer (i : nat) (channel : Z) v : result CoinbaseVenue :=
  let respond (d : Desk L3 Pool) :=
    if channel =? LEVEL2 then d <| d_world ::= fun w => populateL2SubscriptionResponse w channel |>
    else publishTradeSubscriptionResponse d MARKET_TRADES in
  let* sys := defined (on_desk (cb_system (cv_exchange v)) i (fun d => Some (respond d))) in
  Ok (v <| cv_exchange ::= fun c => c <| cb_system := sys |> |>).

Definition await (channel : Z) (i : nat) v : CoinbaseVenue :=
  v <| cv_exchange ::= fun c =>
         if channel =? LEVEL2 then c <| cb_pending_level2 ::= fun p => {[i]} ∪ p |>
         else c <| cb_pending_trades ::= fun p => {[i]} ∪ p |> |>.

Definition awaited v (channel : Z) : gset nat :=
  if channel =? LEVEL2 then cb_pending_level2 (cv_exchange v) else cb_pending_trades (cv_exchange v).

Definition is_streamed (channel : Z) : bool := (channel =? LEVEL2) || (channel =? MARKET_TRADES).

(** The id of the instrument at [i]. *)
Definition symbol_id v (i : nat) : Z :=
  match sm_symbols (sys_symbols (cb_system (cv_exchange v))) !! i with Some ins => sym_id (in_symbol ins) | None => 0 end.

(** The first subscription to a product creates it. *)
Definition subscribe_new (sym : bytes) (channel : Z) (storage : list MDTrade) v : result CoinbaseVenue :=
  let* added := addSymbol (cb_system (cv_exchange v)) sym storage in
  let i := fst added in
  let v := v <| cv_exchange ::= fun c => c <| cb_system := snd added |> |> in
  if cv_use_live_feed v then
    if negb (is_streamed channel || (channel =? HEARTBEATS)) then Ok v
    else
      let v := if is_streamed channel then await channel i v else v in
      Ok (count_subscription i (attach_feed sym (symbol_id v i) v))
  else
    if is_streamed channel then let* v := answer i channel v in Ok (count_subscription i v)
    else if channel =? HEARTBEATS then Ok (count_subscription i v)
    else Ok v.

Definition handleMdSubscription v (request : Request) (msg : MDSubscriptionMessage) (storage : list MDTrade)
  : result CoinbaseVenue :=
  let sym := view (req_symbol request) in
  match venue_product v sym with
  | None => subscribe_new sym (mds_channel msg) storage v
  | Some i =>
      let v := count_subscription i v in
      if is_streamed (mds_channel msg) && bool_decide (i ∉ awaited v (mds_channel msg)) then answer i (mds_channel msg) v
      else Ok v
  end.

(** What [fetch_sub] found. *)
Definition num_subscriptions v (i : nat) : Z :=
  match sm_symbols (sys_symbols (cb_system (cv_exchange v))) !! i with
  | Some ins => sym_num_subscriptions (in_symbol ins)
  | None => 0
  end.

Definition handleMdUnsubscription v (request : Request) (msg : MDSubscriptionMessage) : CoinbaseVenue :=
  let sym := view (req_symbol request) in
  match venue_product v sym with
  | None => v
  | Some i =>
      let before := num_subscriptions v i in
      let v := v <| cv_exchange ::= fun c => c <| cb_system ::=
                 on_symbol (fun s => s <| sym_num_subscriptions ::= fun n => u16 (n - 1) |>) i |> |> in
      if before =? 1 then
        match cv_map_symbol_feed v !! sym with
        | Some feed =>
            (stop_feed feed v) <| cv_md_feeds ::= List.filter (fun f => negb (Nat.eqb f feed)) |>
                               <| cv_map_symbol_feed ::= delete sym |>
        | None => v
        end
      else v
  end.

(** ** The SDK's callbacks *)

(** A product whose feed was lost awaits both snapshots again, on an empty tape. *)
Definition await_again (storage : list MDTrade) v (sym : bytes) : CoinbaseVenue :=
  match venue_product v sym with
  | Some i =>
      (await MARKET_TRADES i (await LEVEL2 i v))
        <| cv_exchange ::= fun c => c <| cb_system ::= on_symbol (fun s => clearTradeHistory s storage) i |> |>
  | None => v
  end.

(** The products of a feed, in the order of the hash map. *)
Definition products_of v (feed : nat) : list bytes :=
  map fst (List.filter (fun kf => Nat.eqb (snd kf) feed) (map_to_list (cv_map_symbol_feed v))).

Definition onMarketDataDisconnected v (client : nat) (storage : list MDTrade) : CoinbaseVenue :=
  if negb (bool_decide (client ∈ cv_md_feeds v)) then v
  else match products_of v client with
       | [] => v
       | symbols => start_feed client (fold_left (await_again storage) symbols v)
       end.
(** [processRequest] with the venue's handlers in place of the base class's. *)
Definition venue_request v (request : Request) (storage : list MDTrade) : result CoinbaseVenue :=
  match req_body request with
  | ReqSubscribe msg => handleMdSubscription v request msg storage
  | ReqUnsubscribe msg => Ok (handleMdUnsubscription v request msg)
  | _ =>
      let* sys := defined (processRequest base_hooks (cb_system (cv_exchange v)) (Some request)) in
      Ok (v <| cv_exchange ::= fun c => c <| cb_system := sys |> |>)
  end.
End Venue.
Arguments CoinbaseVenue : clear implicits.
