(* ===== verification/CoinbaseFeeds.v ===== *)
(** * The feeds of the Coinbase venue over time

    Histories of everything the exchange thread does: requests, the SDK's callbacks, the
    sequenced events. The SDK streams exactly the feeds of the products that have one
    ([coinbase_feeds_match]); a product that is known and has no feed never gets one
    ([coinbase_unfed_stays]). *)

From S2P Require Import Prelude Types FixedString RingBuffer Orders Messages MarketData.
From S2P Require Import L3Interface OrderBook MatchingConfig Symbol SymbolManager Exchange.
From S2P Require Import Instruments CoinbaseFeed CoinbasePublisher CoinbaseSubscriptions.

Section Feeds.
Context {L3 Pool : Type} {l3ops : L3Ops L3} {poolops : ObjectPool Pool} {env : Environment}
  {newbooks : NewBooks L3 Pool} {sdk : CoinbaseSdk}.
Context (level_index : L3 -> Side -> price_t -> Z).
Abbreviation World := (World L3 Pool).
Abbreviation Desk := (Desk L3 Pool).
Abbreviation System := (System L3 Pool).
Abbreviation CoinbaseExchange := (CoinbaseExchange L3 Pool).
Abbreviation CoinbaseVenue := (CoinbaseVenue L3 Pool).
Implicit Types d : Desk.
Implicit Types v : CoinbaseVenue.

(** ** No handler moves an instrument or changes the venue *)

Definition keeps d d' : Prop := d_pointer d' = d_pointer d /\ ex_venue (d_exchange d') = ex_venue (d_exchange d).

#[export] Instance keeps_refl : Reflexive keeps.
Proof. by split. Qed.

#[export] Instance keeps_trans : Transitive keeps.
Proof. intros d1 d2 d3 [] []. split; congruence. Qed.

Lemma keeps_fold {A} (f : Desk -> A -> Desk) l d : (forall d x, keeps d (f d x)) -> keeps d (fold_left f l d).
Proof. intros Hf. revert d. induction l as [|x l IH]; intros d; [done|]. cbn [fold_left]. etrans; [apply Hf|apply IH]. Qed.

Lemma keeps_summary d s : keeps d (publishTradeSummary d s).
Proof. done. Qed.

Lemma keeps_summaries d l : keeps d (publishTradeSummaries d l).
Proof. apply keeps_fold, keeps_summary. Qed.

Lemma keeps_flush d : keeps d (flushMarketDataCaches d).
Proof. unfold flushMarketDataCaches. by repeat case_match. Qed.

Lemma keeps_take d side price qty t seq last d' l q :
  take_and_rest d side price qty t seq last = Some (d', l, q) -> keeps d d'.
Proof.
  unfold take_and_rest. destruct (nextOrderId _). destruct (sym_matching_engine _); [|done].
  destruct (engine_match_feed _ _ _ _ _ _ _ _) as [[[? ?] ?]|]; [|done]. by intros [= <- _ _].
Qed.

Lemma keeps_reconcile d side price qty t seq last : keeps d (reconcilePhantomQty d side price qty t seq last).
Proof. unfold reconcilePhantomQty. repeat case_match; try done; etrans; (apply keeps_flush || done). Qed.

Lemma keeps_apply d e seq d' a : apply_level_event d e seq = Some (d', a) -> keeps d d'.
Proof.
  unfold apply_level_event. destruct (getLevel _ _ _); [intros [= <- _]; apply keeps_reconcile|].
  destruct (take_and_rest _ _ _ _ _ _ _) as [[[d1 l] q]|] eqn:E; [|done]. intros [= <- _].
  etrans; [by eapply keeps_take|]. etrans; [apply keeps_summaries|apply keeps_flush].
Qed.

Lemma keeps_buffer d s e d' s' : flush_level_buffer d s e = (d', s') -> keeps d d'.
Proof. unfold flush_level_buffer. repeat case_match; by intros [= <- _]. Qed.

Lemma keeps_dispatch d e s seq d' s' : dispatchEvent level_index d e s seq = Some (d', s') -> keeps d d'.
Proof.
  unfold dispatchEvent. destruct (ev_type e).
  - destruct (_ <? _); [by intros [= <- _]|]. destruct (apply_level_event _ _ _) as [[d1 a]|] eqn:E; [|done].
    destruct (flush_level_buffer _ _ _) as [d2 s2] eqn:E2. intros [= <- _].
    etrans; [by eapply keeps_apply|]. by apply keeps_buffer in E2.
  - destruct (take_and_rest _ _ _ _ _ _ _) as [[[d1 l] q]|] eqn:E; [|done]. intros [= <- _].
    etrans; [by eapply keeps_take|]. etrans; [|apply keeps_flush]. by apply keeps_fold.
Qed.

Lemma keeps_process fuel force now d s d' s' : process_symbol level_index fuel force now d s = Some (d', s') -> keeps d d'.
Proof.
  revert d s. induction fuel as [|fuel IH]; intros d s; cbn; [by intros [= <- _]|].
  destruct (pop_event _) as [[e rest]|]; [|by intros [= <- _]]. destruct (event_ready _ _ _ _); [|by intros [= <- _]].
  unfold release_event. destruct (dispatchEvent _ _ _ _ _) as [[d1 s1]|] eqn:E; [|done].
  intros H. etrans; [by eapply keeps_dispatch|]. by eapply IH.
Qed.

Lemma keeps_snapshot_level d seq book_seq u last d' : snapshot_level d seq book_seq u last = Some d' -> keeps d d'.
Proof.
  unfold snapshot_level. destruct (to_price_t (lu_price_level u)), (to_qty_t (lu_new_quantity u)); try done.
  destruct (take_and_rest _ _ _ _ _ _ _) as [[[d1 l] q]|] eqn:E; [|done]. intros [= <-].
  etrans; [by eapply keeps_take|]. etrans; [apply (keeps_summaries _ l)|]. by case_match.
Qed.

Lemma keeps_snapshot_levels d seq book_seq us d' : snapshot_levels d seq book_seq us = Some d' -> keeps d d'.
Proof.
  revert d. induction us as [|u us IH]; intros d; cbn; [by intros [= <-]|].
  destruct (snapshot_level _ _ _ _ _) as [d1|] eqn:E; [|done]. intros H. etrans; [by eapply keeps_snapshot_level|by eapply IH].
Qed.

Lemma keeps_rebuild d s seq us d' s' : rebuild_book d s seq us = Some (d', s') -> keeps d d'.
Proof.
  unfold rebuild_book. cbn. destruct (snapshot_levels _ _ _ _) as [d1|] eqn:E; [|done].
  intros [= <- _]. by apply keeps_snapshot_levels in E.
Qed.

Lemma keeps_seed d seq ts d' : seed_trades seq d ts = Some d' -> keeps d d'.
Proof.
  revert d. induction ts as [|t ts IH]; intros d; cbn; [by intros [= <-]|].
  destruct (seed_trade _ _ _) as [d1|] eqn:E; [|done]. intros H. etrans; [|by eapply IH]. revert E.
  unfold seed_trade. destruct (to_price_t (tr_price t)), (to_qty_t (tr_size t)); try done. destruct (tr_trade_id t); [case_match|]; by intros [= <-].
Qed.

Lemma keeps_new d request msg d' : handleNewOrderRequest d request msg = Some d' -> keeps d d'.
Proof.
  unfold handleNewOrderRequest. destruct (negb _ && _); [by intros [= <-]|]. destruct (allocateOrder _) as [o w].
  destruct (clientIdFor (d_exchange d) (add_user_id msg)) as [id e] eqn:Ee.
  assert (Ev : ex_venue e = ex_venue (d_exchange d)).
  { revert Ee. unfold clientIdFor. repeat case_match; by intros [= _ <-]. }
  destruct (symbol_addOrder _ _ _ _) as [[[r l] w']|]; [|done]. intros [= <-]. etrans; [|apply keeps_flush].
  assert (K : keeps d (publishTradeSummaries (d <| d_exchange := e |> <| d_world := w' |>) l)) by (etrans; [|apply keeps_summaries]; by split).
  etrans; [exact K|]. by case_match.
Qed.

Lemma keeps_modify d request msg d' : handleModifyOrderRequest d request msg = Some d' -> keeps d d'.
Proof.
  unfold handleModifyOrderRequest. destruct (find_for_request _ _ _); [|by intros [= <-]]. destruct (get_current_time_ns _) as [now w].
  destruct (symbol_modifyOrder _ _ _ _ _ _) as [[[r l] w']|]; [|done]. intros [= <-]. etrans; [|apply keeps_flush].
  assert (K : keeps d (publishTradeSummaries (d <| d_world := w' |>) l)) by (etrans; [|apply keeps_summaries]; by split).
  etrans; [exact K|]. by case_match.
Qed.

Lemma keeps_cancel d request msg : keeps d (handleCancelOrderRequest d request msg).
Proof. unfold handleCancelOrderRequest. destruct (find_for_request _ _ _); [|done]. etrans; [|apply keeps_flush]. done. Qed.

(** ** Names are only added *)

Definition known v (sym : bytes) : Prop := is_Some (venue_product v sym).

(** The names of one state are names of the next, at the same venue. *)
Record names_grow (s s' : System) : Prop := {
  ng_names : sm_symbols_by_name (sys_symbols s) ⊆ sm_symbols_by_name (sys_symbols s');
  ng_venue : ex_venue (sys_exchange s') = ex_venue (sys_exchange s)
}.

#[export] Instance names_grow_refl : Reflexive names_grow.
Proof. by split. Qed.

#[export] Instance names_grow_trans : Transitive names_grow.
Proof. intros s1 s2 s3 [] []. split; [by etrans|congruence]. Qed.

Definition system_of v : System := cb_system (cv_exchange v).

Lemma known_grows v v' sym : names_grow (system_of v) (system_of v') -> known v sym -> known v' sym.
Proof.
  intros [Hn Hv] [i Hi]. exists i. unfold venue_product, find_product, getSymbol in *. unfold system_of in *. rewrite Hv.
  by eapply lookup_weaken.
Qed.

Lemma put_desk_grows s i d d' : desk_at s i = Some d -> keeps d d' -> names_grow s (put_desk s d').
Proof.
  intros Hd [_ Hv]. split; [done|]. cbn. rewrite Hv. revert Hd. unfold desk_at.
  destruct (_ !! i) as [[symbol [b|]]|]; try done. by intros [= <-].
Qed.

Lemma on_desk_grows s i f s' : on_desk s i f = Some s' -> (forall d d', f d = Some d' -> keeps d d') -> names_grow s s'.
Proof.
  unfold on_desk. intros H Hf. destruct (desk_at s i) as [d|] eqn:Ed; [|done].
  destruct (f d) as [d'|] eqn:E; [|done]. injection H as <-. eapply put_desk_grows; [done|by apply Hf].
Qed.

Lemma on_feed_grows c i f c' : on_feed c i f = Some c' ->
  (forall d s d' s', f d s = Some (d', s') -> keeps d d') -> names_grow (cb_system c) (cb_system c').
Proof.
  unfold on_feed. intros H Hf. destruct (desk_at (cb_system c) i) as [d|] eqn:Ed; [|done].
  destruct (f d _) as [[d' s']|] eqn:E; [|done]. injection H as <-. cbn. eapply put_desk_grows; [done|by eapply Hf].
Qed.

Lemma request_grows s request s' : processRequest base_hooks s (Some request) = Some s' -> names_grow s s'.
Proof.
  assert (W : forall reject f s', with_symbol s request reject f = Some s' -> (forall d d', f d = Some d' -> keeps d d') -> names_grow s s').
  { intros reject f s1. unfold with_symbol. destruct (getSymbol _ _ _); [apply on_desk_grows|]. by intros [= <-]. }
  cbn. destruct (req_body request) as [m|m|m|m|m|t]; try (by intros [= <-]); intros H; eapply W; try exact H; intros d d'.
  - apply keeps_new.
  - apply keeps_modify.
  - intros [= <-]. apply keeps_cancel.
Qed.

Lemma sequenced_grows c force c' : processSequencedEvents level_index c force = Some c' -> names_grow (cb_system c) (cb_system c').
Proof.
  unfold processSequencedEvents. set (now := env_clock _). set (c0 := c <| cb_system ::= _ |>).
  assert (H0 : names_grow (cb_system c) (cb_system c0)) by done. generalize (map fst (map_to_list (cb_symbol_event_state c0))).
  intros l H. etrans; [exact H0|]. clear H0. clearbody c0. revert c0 H. induction l as [|i l IH]; intros c0; cbn [fold_left]; [by intros [= <-]|].
  destruct (on_feed c0 i _) as [c1|] eqn:E.
  - intros H. etrans; [eapply on_feed_grows; [exact E|intros d s d' s'; apply keeps_process]|by apply IH].
  - intros H. exfalso. revert H. clear. induction l as [|j l IH]; [done|exact IH].
Qed.

Lemma level2_grows c seq product us c' : onLevel2Updates c seq product us = Some c' -> names_grow (cb_system c) (cb_system c').
Proof.
  unfold onLevel2Updates. destruct (find_product c product); [|by intros [= <-]].
  destruct (enqueue_level2_all _ _ _ _ _) as [[s g]|]; [|done]. by intros [= <-].
Qed.

Lemma trades_grow c seq first ts c' : enqueue_trades seq first c ts = Some c' -> names_grow (cb_system c) (cb_system c').
Proof.
  revert c first. induction ts as [|t ts IH]; intros c first; cbn [enqueue_trades]; [by intros [= <-]|].
  destruct (find_product c (tr_product_id t)) as [i|]; [|apply IH]. destruct (enqueue_trade _ _ _ _ _) as [[s g]|]; [|done].
  intros H. etrans; [|by apply IH in H]. done.
Qed.

Lemma snapshot_grows c seq product us c' : onLevel2Snapshot LEVEL2 c seq product us = Some c' -> names_grow (cb_system c) (cb_system c').
Proof.
  unfold onLevel2Snapshot. destruct (find_product c product) as [i|]; [|by intros [= <-]].
  destruct (on_feed c i _) as [c1|] eqn:E; [|done]. intros Hc.
  assert (H : names_grow (cb_system c) (cb_system c1)); [|cbn in Hc; destruct (bool_decide _); injection Hc as <-; exact H].
  eapply on_feed_grows; [exact E|]. intros d s d' s'. cbn beta. destruct (rebuild_book d s seq us) as [[d1 s1]|] eqn:Er; [|done].
  intros [= <- _]. apply keeps_rebuild in Er. etrans; [exact Er|done].
Qed.

Lemma trades_snapshot_grows c seq ts c' : onMarketTradesSnapshot MARKET_TRADES c seq ts = Some c' -> names_grow (cb_system c) (cb_system c').
Proof.
  unfold onMarketTradesSnapshot. destruct ts as [|t ts]; [by intros [= <-]|]. destruct (find_product c (tr_product_id t)) as [i|]; [|by intros [= <-]].
  destruct (negb _); [by intros [= <-]|]. destruct (on_desk _ i _) as [s|] eqn:E; [|done]. intros [= <-].
  eapply on_desk_grows; [exact E|]. intros d d'. cbn beta. destruct (seed_trades _ _ _) as [d1|] eqn:Es; [|done]. intros [= <-].
  apply keeps_seed in Es. etrans; [exact Es|done].
Qed.

(** ** What each step does to the feeds *)

Lemma Ok_inj {A} (a b : A) : Ok a = Ok b -> a = b.
Proof. by injection 1. Qed.

Record same_feeds v v' : Prop := {
  sf_live : cv_use_live_feed v' = cv_use_live_feed v;
  sf_made : cv_made v' = cv_made v;
  sf_feeds : cv_md_feeds v' = cv_md_feeds v;
  sf_map : cv_map_symbol_feed v' = cv_map_symbol_feed v;
  sf_calls : cv_calls v' = cv_calls v
}.

(** A new feed for a product without one. *)
Record attached (sym : bytes) v v' : Prop := {
  af_live : cv_use_live_feed v' = cv_use_live_feed v;
  af_was : cv_use_live_feed v = true;
  af_made : exists id, cv_made v' = cv_made v ++ [mkLiveFeed [sym] id];
  af_feeds : cv_md_feeds v' = cv_md_feeds v ++ [List.length (cv_made v)];
  af_map : cv_map_symbol_feed v' = (match cv_map_symbol_feed v !! sym with
                                    | Some _ => cv_map_symbol_feed v
                                    | None => <[sym := List.length (cv_made v)]> (cv_map_symbol_feed v) end);
  af_calls : cv_calls v' = cv_calls v ++ [FeedSubscribe (List.length (cv_made v)) [sym]]
}.

Lemma attach_attached sym id v : cv_use_live_feed v = true -> attached sym v (attach_feed sym id v).
Proof.
  intros Hl. unfold attach_feed, start_feed. cbn. rewrite lookup_app_r, Nat.sub_diag by done. cbn. by split; cbn; try done; eexists.
Qed.

Lemma assign_venue e s e' s' : assignMatching e s = Ok (e', s') -> ex_venue e' = ex_venue e.
Proof.
  unfold assignMatching, set_engine_slot. destruct (engine_slot _ _); [by intros [= <- _]|].
  destruct (createMatchingEngine _); cbn; try done. case_match; by intros [= <- _].
Qed.

Lemma addSymbol_new sys product storage i sys' : addSymbol sys product storage = Ok (i, sys') ->
  names_grow sys sys' /\ getSymbol (sys_symbols sys') product COINBASE = Some i /\ sys_responses sys' = sys_responses sys
  /\ sys_md sys' = sys_md sys /\ sys_glob sys' = sys_glob sys.
Proof.
  unfold addSymbol, open_symbol. destruct (getSymbol _ _ _); [done|]. unfold createSymbol, getSymbol.
  destruct (sm_symbols_by_name (sys_symbols sys) !! symbol_key COINBASE product) as [j|] eqn:Ej; cbn.
  - destruct (_ !! j) as [ins|]; [|done]. destruct (assignMatching _ _) as [[e s]|?|] eqn:Ea; try done. cbn. intros [= <- <-].
    apply assign_venue in Ea. by split; [split; cbn|].
  - rewrite lookup_app_r, Nat.sub_diag by done. cbn. destruct (assignMatching _ _) as [[e s]|?|] eqn:Ea; try done. cbn. intros [= <- <-].
    apply assign_venue in Ea. split; [split; cbn; [by apply insert_subseteq|done]|]. cbn. by rewrite lookup_insert_eq.
Qed.

Lemma answer_feeds i channel v v' : answer i channel v = Ok v' -> names_grow (system_of v) (system_of v') /\ same_feeds v v'.
Proof.
  unfold answer. destruct (on_desk _ _ _) as [sys|] eqn:E; [|done]. cbn. intros [= <-]. split; [|by split].
  eapply on_desk_grows; [exact E|]. intros d d'. intros [= <-]. by case_match.
Qed.

Lemma count_feeds i v : names_grow (system_of v) (system_of (count_subscription i v)) /\ same_feeds v (count_subscription i v).
Proof. by repeat split. Qed.

Lemma same_feeds_trans v1 v2 v3 : same_feeds v1 v2 -> same_feeds v2 v3 -> same_feeds v1 v3.
Proof. intros [] []. split; congruence. Qed.

Lemma attached_same sym v1 v2 v3 v4 : same_feeds v1 v2 -> attached sym v2 v3 -> same_feeds v3 v4 -> attached sym v1 v4.
Proof.
  intros [A1 A2 A3 A4 A5] [B1 B2 B3 B4 B5 B6] [C1 C2 C3 C4 C5]. rewrite A1, A2, A3, A4, A5 in *. split; try congruence.
  destruct B3 as [id B3]. exists id. congruence.
Qed.

Lemma subscription_feeds v request msg storage v' : ex_venue (sys_exchange (system_of v)) = COINBASE ->
  handleMdSubscription v request msg storage = Ok v' ->
  let sym := view (req_symbol request) in
  names_grow (system_of v) (system_of v') /\ known v' sym
  /\ (same_feeds v v' \/ (~ known v sym /\ attached sym v v')).
Proof.
  intros Hv. unfold handleMdSubscription. cbn zeta. set (sym := view (req_symbol request)).
  assert (K : forall w i, names_grow (system_of v) (system_of w) -> getSymbol (sys_symbols (system_of w)) sym COINBASE = Some i -> known w sym).
  { intros w i [_ Hg] Hi. exists i. unfold venue_product, find_product. unfold system_of in *. by rewrite Hg, Hv. }
  destruct (venue_product v sym) as [i|] eqn:Ei.
  - assert (Hk : known v sym) by (by exists i).
    destruct (_ && _); [|intros [= <-]; split; [done|split; [by apply (known_grows v)|by left]]].
    intros H. apply answer_feeds in H as [H1 H2]. pose proof (count_feeds i v) as [H3 H4].
    split; [by etrans|]. split; [apply (known_grows v); [by etrans|done]|]. left. by eapply same_feeds_trans.
  - unfold subscribe_new. fold (system_of v). destruct (addSymbol _ _ _) as [[i sys]|?|] eqn:Ea; try done. cbn [rbind fst snd]. cbv zeta.
    apply addSymbol_new in Ea as (Hg & Hi & _). set (v1 := v <| cv_exchange ::= fun c => c <| cb_system := sys |> |>).
    assert (H1 : names_grow (system_of v) (system_of v1) /\ same_feeds v v1) by done. destruct H1 as [H1 F1].
    assert (Ei1 : getSymbol (sys_symbols (system_of v1)) sym COINBASE = Some i) by done.
    assert (Hn : ~ known v sym) by (intros [j Hj]; congruence). clearbody v1.
    destruct (cv_use_live_feed v1) eqn:El.
    + destruct (negb _); [intros H; apply Ok_inj in H as <-; split; [done|split; [by eapply K|by left]]|]. intros H; apply Ok_inj in H as <-.
      set (v2 := if is_streamed _ then _ else v1).
      assert (F2 : same_feeds v1 v2 /\ system_of v2 = system_of v1).
      { unfold v2, await, system_of. destruct (is_streamed _); [|done]. split; [by split|]. cbn. by case_match. }
      destruct F2 as [F2 E2]. assert (El2 : cv_use_live_feed v2 = true) by (by rewrite (sf_live _ _ F2)). clearbody v2.
      assert (Ea : forall id, system_of (attach_feed sym id v2) = system_of v2).
      { intros id. unfold attach_feed, start_feed, system_of. cbn. rewrite lookup_app_r, Nat.sub_diag by done. done. }
      assert (Hg2 : names_grow (system_of v) (system_of (count_subscription i (attach_feed sym (symbol_id v2 i) v2)))).
      { etrans; [exact H1|]. etrans; [|apply count_feeds]. by rewrite Ea, E2. }
      split; [done|]. split; [eapply K; [done|]|].
      { instantiate (1 := i). change (getSymbol (sys_symbols (system_of (attach_feed sym (symbol_id v2 i) v2))) sym COINBASE = Some i).
        by rewrite Ea, E2. }
      right. split; [done|]. eapply attached_same; [|by apply attach_attached|apply count_feeds]. by eapply same_feeds_trans.
    + destruct (is_streamed _).
      * destruct (answer i _ v1) as [v2|?|] eqn:E2; try done. cbn. intros [= <-]. apply answer_feeds in E2 as [G2 F2].
        pose proof (count_feeds i v2) as [G3 F3]. split; [do 2 (etrans; [eassumption|]); done|].
        split; [|left; by do 2 (eapply same_feeds_trans; [eassumption|])].
        apply (known_grows v1); [by etrans|]. by eapply K.
      * assert (Hk : known v1 sym) by by eapply K. pose proof (count_feeds i v1) as [G2 F2].
        case_match; intros H0; apply Ok_inj in H0 as <-; [|split; [done|split; [done|by left]]].
        split; [by etrans|]. split; [by apply (known_grows v1)|]. left. by eapply same_feeds_trans.
Qed.

Lemma await_grows channel i v : names_grow (system_of v) (system_of (await channel i v)) /\ same_feeds v (await channel i v).
Proof. unfold await, system_of. split; [cbn; by case_match|by split]. Qed.

Lemma await_again_grows storage v sym : names_grow (system_of v) (system_of (await_again storage v sym)) /\ same_feeds v (await_again storage v sym).
Proof.
  unfold await_again. destruct (venue_product v sym) as [i|]; [|by repeat split].
  destruct (await_grows LEVEL2 i v) as [A1 A2]. destruct (await_grows MARKET_TRADES i (await LEVEL2 i v)) as [B1 B2].
  split; [etrans; [exact A1|]; etrans; [exact B1|by split]|]. eapply same_feeds_trans; [exact A2|]. eapply same_feeds_trans; [exact B2|by split].
Qed.

Lemma await_all_grows storage l v :
  names_grow (system_of v) (system_of (fold_left (await_again storage) l v)) /\ same_feeds v (fold_left (await_again storage) l v).
Proof.
  revert v. induction l as [|sym l IH]; intros v; [by repeat split|]. cbn [fold_left].
  destruct (await_again_grows storage v sym) as [A1 A2]. destruct (IH (await_again storage v sym)) as [B1 B2].
  split; [by etrans|by eapply same_feeds_trans].
Qed.

(** ** Histories *)

Inductive VenueEvent :=
  VeRequest (request : Request) (storage : list MDTrade)
| VeDisconnected (client : nat) (storage : list MDTrade)
| VeLevel2Snapshot (seq_num : Z) (product_id : bytes) (updates : list Level2Update)
| VeLevel2Updates (seq_num : Z) (product_id : bytes) (updates : list Level2Update)
| VeTradesSnapshot (seq_num : Z) (trades : list MarketTrade)
| VeTrades (seq_num : Z) (trades : list MarketTrade)
| VeSequenced (force : bool).

Definition on_exchange v (c : option CoinbaseExchange) : result CoinbaseVenue :=
  let* c := defined c in Ok (v <| cv_exchange := c |>).

Definition venue_event v (e : VenueEvent) : result CoinbaseVenue :=
  let c := cv_exchange v in
  match e with
  | VeRequest request storage => venue_request v request storage
  | VeDisconnected client storage => Ok (onMarketDataDisconnected v client storage)
  | VeLevel2Snapshot seq_num product_id updates => on_exchange v (onLevel2Snapshot LEVEL2 c seq_num product_id updates)
  | VeLevel2Updates seq_num product_id updates => on_exchange v (onLevel2Updates c seq_num product_id updates)
  | VeTradesSnapshot seq_num trades => on_exchange v (onMarketTradesSnapshot MARKET_TRADES c seq_num trades)
  | VeTrades seq_num trades => on_exchange v (onMarketTrades c seq_num trades)
  | VeSequenced force => on_exchange v (processSequencedEvents level_index c force)
  end.

Fixpoint run_venue (es : list VenueEvent) v : result CoinbaseVenue :=
  match es with
  | [] => Ok v
  | e :: es => let* v := venue_event v e in run_venue es v
  end.

Lemma run_snoc es e v w v' : run_venue es v = Ok w -> venue_event w e = Ok v' -> run_venue (es ++ [e]) v = Ok v'.
Proof.
  revert v. induction es as [|x es IH]; intros v; cbn [run_venue app].
  - intros H. apply Ok_inj in H as ->. by intros ->.
  - destruct (venue_event v x) as [u|?|]; try done. apply IH.
Qed.

(** What an event does to the feeds: nothing, a feed for a new product, the end of a feed, or
    one more subscription of a feed it holds. *)
Inductive feeds_step v v' : Prop :=
  fs_same (Hs : same_feeds v v')
| fs_attached (sym : bytes) (Hn : ~ known v sym) (Hk : known v' sym) (Ha : attached sym v v')
| fs_stopped (sym : bytes) (feed : nat) (Hm : cv_map_symbol_feed v !! sym = Some feed)
    (Hs : same_feeds ((stop_feed feed v) <| cv_md_feeds ::= List.filter (fun f => negb (Nat.eqb f feed)) |>
                                         <| cv_map_symbol_feed ::= delete sym |>) v')
| fs_restarted (feed : nat) (Hf : feed ∈ cv_md_feeds v) (Hp : products_of v feed <> []) (Hs : same_feeds (start_feed feed v) v').

Lemma start_same f v v' : same_feeds v v' -> same_feeds (start_feed f v) (start_feed f v').
Proof.
  intros [S1 S2 S3 S4 S5]. unfold start_feed. rewrite S2. destruct (cv_made v !! f) as [lf|]; [|by split].
  case_bool_decide; [by split|]. split; cbn; congruence.
Qed.

Lemma same_start f v : system_of (start_feed f v) = system_of v.
Proof. unfold start_feed. repeat case_match; done. Qed.

Lemma unsubscription_feeds v request msg :
  names_grow (system_of v) (system_of (handleMdUnsubscription v request msg)) /\ feeds_step v (handleMdUnsubscription v request msg).
Proof.
  unfold handleMdUnsubscription. set (sym := view (req_symbol request)).
  destruct (venue_product v sym) as [i|]; [|split; [done|by apply fs_same]].
  set (w := v <| cv_exchange ::= _ |>). assert (Hw : names_grow (system_of v) (system_of w) /\ same_feeds v w) by (by repeat split).
  destruct Hw as [G F]. assert (Em : cv_map_symbol_feed w !! sym = cv_map_symbol_feed v !! sym) by done.
  assert (Est : forall feed, same_feeds ((stop_feed feed v) <| cv_md_feeds ::= List.filter (fun f => negb (Nat.eqb f feed)) |>
                                         <| cv_map_symbol_feed ::= delete sym |>)
                               ((stop_feed feed w) <| cv_md_feeds ::= List.filter (fun f => negb (Nat.eqb f feed)) |>
                                         <| cv_map_symbol_feed ::= delete sym |>)
                             /\ system_of (stop_feed feed w) = system_of w).
  { intros feed. unfold stop_feed. change (cv_made w) with (cv_made v). by destruct (cv_made v !! feed). }
  clearbody w. destruct (_ =? 1); [|split; [done|by apply fs_same]].
  destruct (cv_map_symbol_feed w !! sym) as [feed|] eqn:Ef; [|split; [done|by apply fs_same]].
  destruct (Est feed) as [E1 E2]. split.
  - etrans; [exact G|]. unfold system_of in *. cbn. by rewrite E2.
  - by apply (fs_stopped _ _ sym feed).
Qed.

Lemma disconnected_feeds v client storage :
  names_grow (system_of v) (system_of (onMarketDataDisconnected v client storage)) /\ feeds_step v (onMarketDataDisconnected v client storage).
Proof.
  unfold onMarketDataDisconnected. case_bool_decide as Hf; cbn [negb]; [|split; [done|by apply fs_same]].
  destruct (products_of v client) as [|sym l] eqn:Ep; [split; [done|by apply fs_same]|].
  destruct (await_all_grows storage (sym :: l) v) as [G F]. split; [by rewrite same_start|].
  apply (fs_restarted _ _ client); [done|by rewrite Ep|by apply start_same].
Qed.

Lemma event_feeds v e v' : ex_venue (sys_exchange (system_of v)) = COINBASE -> venue_event v e = Ok v' ->
  names_grow (system_of v) (system_of v') /\ feeds_step v v'.
Proof.
  assert (X : forall c v', on_exchange v c = Ok v' -> (forall c', c = Some c' -> names_grow (system_of v) (cb_system c')) ->
    names_grow (system_of v) (system_of v') /\ feeds_step v v').
  { intros [c|] w; [|done]. cbn. intros [= <-] Hc. split; [by apply Hc|]. apply fs_same. by split. }
  intros Hv. destruct e as [request storage|client storage|seq p us|seq p us|seq ts|seq ts|force]; cbn [venue_event].
  - unfold venue_request.
    assert (R : forall s : option System, (let* sys := defined s in Ok (v <| cv_exchange ::= fun c => c <| cb_system := sys |> |>)) = Ok v' ->
      (forall s', s = Some s' -> names_grow (system_of v) s') -> names_grow (system_of v) (system_of v') /\ feeds_step v v').
    { intros [s|]; [|done]. cbn. intros [= <-] Hs. split; [by apply Hs|]. apply fs_same. by split. }
    destruct (req_body request) eqn:Eb; try (intros H; eapply R; [exact H|]; intros s'; apply request_grows).
    + intros H. destruct (subscription_feeds v request m storage v' Hv H) as (G & K & [F|[N A]]); (split; [done|]);
        [by apply fs_same|by eapply fs_attached].
    + intros H. apply Ok_inj in H as <-. apply unsubscription_feeds.
  - intros H. apply Ok_inj in H as <-. apply disconnected_feeds.
  - intros H. eapply X; [exact H|]. intros c'. apply snapshot_grows.
  - intros H. eapply X; [exact H|]. intros c'. apply level2_grows.
  - intros H. eapply X; [exact H|]. intros c'. apply trades_snapshot_grows.
  - intros H. eapply X; [exact H|]. intros c'. apply trades_grow.
  - intros H. eapply X; [exact H|]. intros c'. apply sequenced_grows.
Qed.

(** ** What holds of the feeds *)

Definition upstream_call (s : gset nat) (c : FeedCall) : gset nat :=
  match c with FeedSubscribe f _ => {[f]} ∪ s | FeedUnsubscribe f _ => s ∖ {[f]} end.

(** The feeds the SDK streams after these calls. *)
Definition upstream (calls : list FeedCall) : gset nat := fold_left upstream_call calls ∅.

#[local] Arguments upstream : simpl never.

Lemma upstream_snoc calls c : upstream (calls ++ [c]) = upstream_call (upstream calls) c.
Proof. unfold upstream. by rewrite fold_left_app. Qed.

Record feeds_ok v : Prop := {
  fo_venue : ex_venue (sys_exchange (system_of v)) = COINBASE;
  fo_map : forall sym f, cv_map_symbol_feed v !! sym = Some f ->
    f ∈ cv_md_feeds v /\ known v sym /\ exists id, cv_made v !! f = Some (mkLiveFeed [sym] id);
  fo_feeds : forall f, f ∈ cv_md_feeds v -> exists sym, cv_map_symbol_feed v !! sym = Some f;
  fo_nodup : NoDup (cv_md_feeds v);
  fo_upstream : forall f, f ∈ upstream (cv_calls v) <-> f ∈ cv_md_feeds v
}.

Lemma feeds_ok_same v v' : feeds_ok v -> names_grow (system_of v) (system_of v') -> same_feeds v v' -> feeds_ok v'.
Proof.
  intros [O1 O2 O3 O4 O5] G [S1 S2 S3 S4 S5]. split; rewrite ?S2, ?S3, ?S4, ?S5; try done.
  - by rewrite (ng_venue _ _ G).
  - intros sym f Hf. destruct (O2 sym f Hf) as (A & B & C). split; [done|]. split; [by eapply known_grows|done].
Qed.

(** A feed held and what it streams. *)
Lemma feed_of v f : feeds_ok v -> f ∈ cv_md_feeds v -> exists sym id, cv_map_symbol_feed v !! sym = Some f /\ cv_made v !! f = Some (mkLiveFeed [sym] id).
Proof. intros O Hf. destruct (fo_feeds v O f Hf) as [sym Hs]. destruct (fo_map v O sym f Hs) as (_ & _ & id & Hi). by exists sym, id. Qed.

Lemma feeds_ok_step v v' : feeds_ok v -> names_grow (system_of v) (system_of v') -> feeds_step v v' -> feeds_ok v'.
Proof.
  intros O G [S|sym Hn Hk A|sym feed Hm S|feed Hf Hp S].
  - by eapply feeds_ok_same.
  - destruct O as [O1 O2 O3 O4 O5]. destruct A as [A1 A2 (id & A3) A4 A5 A6]. set (n := List.length (cv_made v)) in *.
    assert (Hu : cv_map_symbol_feed v !! sym = None).
    { destruct (cv_map_symbol_feed v !! sym) as [f|] eqn:E; [|done]. destruct (O2 sym f E) as (_ & K & _). done. }
    rewrite Hu in A5. assert (Hnew : n ∉ cv_md_feeds v).
    { intros Hin. destruct (O3 n Hin) as (s & Hs). destruct (O2 s n Hs) as (_ & _ & ? & Hi). apply lookup_lt_Some in Hi. unfold n in Hi. lia. }
    split; rewrite ?A3, ?A4, ?A5, ?A6.
    + by rewrite (ng_venue _ _ G).
    + intros s f. destruct (decide (s = sym)) as [->|Hne].
      * rewrite lookup_insert_eq. intros [= <-]. split; [by apply elem_of_app; right; apply list_elem_of_singleton|]. split; [done|].
        exists id. by rewrite lookup_app_r, Nat.sub_diag.
      * rewrite lookup_insert_ne by done. intros Hs. destruct (O2 s f Hs) as (B1 & B2 & i & B3).
        split; [apply elem_of_app; by left|]. split; [by eapply known_grows|]. exists i. by apply lookup_app_l_Some.
    + intros f [Hf| ->%list_elem_of_singleton]%elem_of_app; [|exists sym; by rewrite lookup_insert_eq].
      destruct (O3 f Hf) as [s Hs]. exists s. rewrite lookup_insert_ne; [done|]. intros <-. congruence.
    + apply NoDup_app. split; [done|]. split; [|apply NoDup_singleton]. intros f Hf ->%list_elem_of_singleton. done.
    + intros f. rewrite upstream_snoc. cbn. rewrite elem_of_union, elem_of_singleton, O5, elem_of_app, list_elem_of_singleton. tauto.
  - eapply feeds_ok_same; [| |exact S].
    2:{ etrans; [|exact G]. unfold stop_feed, system_of. destruct (cv_made v !! feed); done. }
    destruct O as [O1 O2 O3 O4 O5]. destruct (O2 sym feed Hm) as (Hf & _ & id & Hi). unfold stop_feed. rewrite Hi.
    assert (Hin : forall f, f ∈ List.filter (fun f => negb (Nat.eqb f feed)) (cv_md_feeds v) <-> f ∈ cv_md_feeds v /\ f <> feed).
    { intros f. rewrite !list_elem_of_In, filter_In, negb_true_iff, Nat.eqb_neq. done. }
    split; cbn.
    + done.
    + intros s f. rewrite lookup_delete_Some. intros [Hne Hs]. destruct (O2 s f Hs) as (B1 & B2 & i & B3). split; [|by split; [|exists i]].
      rewrite Hin. split; [done|]. intros ->. congruence.
    + intros f. rewrite Hin. intros [Hf' Hne]. destruct (O3 f Hf') as [s Hs]. exists s. rewrite lookup_delete_ne; [done|]. intros <-. congruence.
    + by apply NoDup_ListNoDup, List.NoDup_filter, NoDup_ListNoDup.
    + intros f. rewrite upstream_snoc. cbn. rewrite elem_of_difference, elem_of_singleton, O5, Hin. done.
  - eapply feeds_ok_same; [| |exact S]; [|by rewrite same_start].
    destruct (feed_of v feed O Hf) as (s & id & _ & Hi). destruct O as [O1 O2 O3 O4 O5]. unfold start_feed. rewrite Hi. cbn.
    split; try done. intros f. cbn. rewrite upstream_snoc. cbn. rewrite elem_of_union, elem_of_singleton, O5. split; [intros [->|]; done|auto].
Qed.

Lemma event_ok v e v' : feeds_ok v -> venue_event v e = Ok v' -> names_grow (system_of v) (system_of v') /\ feeds_step v v' /\ feeds_ok v'.
Proof. intros O E. destruct (event_feeds v e v' (fo_venue v O) E) as [G S]. split; [done|]. split; [done|]. by eapply feeds_ok_step. Qed.

Lemma run_ok v es v' : feeds_ok v -> run_venue es v = Ok v' -> feeds_ok v'.
Proof.
  revert v. induction es as [|e es IH]; intros v O; cbn; [by intros [= <-]|].
  destruct (venue_event v e) as [w|?|] eqn:E; try done. cbn. apply IH. by eapply event_ok.
Qed.

(** A product known without a feed. *)
Definition unfed v (sym : bytes) : Prop := known v sym /\ cv_map_symbol_feed v !! sym = None.

Definition call_symbols (c : FeedCall) : list bytes := match c with FeedSubscribe _ l | FeedUnsubscribe _ l => l end.

Lemma step_unfed v v' sym : feeds_ok v -> names_grow (system_of v) (system_of v') -> feeds_step v v' -> unfed v sym ->
  unfed v' sym /\ exists news, cv_calls v' = cv_calls v ++ news /\ Forall (fun c => sym ∉ call_symbols c) news.
Proof.
  intros O G S [Hk Hm]. assert (Hk' : known v' sym) by by eapply known_grows. destruct S as [S|s Hn _ A|s feed Hs S|feed Hf Hp S].
  - split; [split; [done|]|exists []; split; [|done]]; [by rewrite (sf_map _ _ S)|by rewrite (sf_calls _ _ S), app_nil_r].
  - assert (Hne : s <> sym) by (intros ->; done). destruct A as [_ _ _ _ A5 A6]. split; [split; [done|]|eexists; split; [exact A6|]].
    + rewrite A5. destruct (cv_map_symbol_feed v !! s); [done|]. by rewrite lookup_insert_ne.
    + apply Forall_singleton. cbn. by intros ->%list_elem_of_singleton.
  - destruct (fo_map v O s feed Hs) as (_ & _ & id & Hi). assert (Hne : s <> sym) by congruence. unfold stop_feed in S. rewrite Hi in S.
    split; [split; [done|]|eexists; split; [exact (sf_calls _ _ S)|]].
    + rewrite (sf_map _ _ S). cbn. by rewrite lookup_delete_ne.
    + apply Forall_singleton. cbn. by intros ->%list_elem_of_singleton.
  - destruct (feed_of v feed O Hf) as (s & id & Hs & Hi). assert (Hne : s <> sym) by congruence. unfold start_feed in S. rewrite Hi in S. cbn in S.
    split; [split; [done|]|eexists; split; [exact (sf_calls _ _ S)|]].
    + by rewrite (sf_map _ _ S).
    + apply Forall_singleton. cbn. by intros ->%list_elem_of_singleton.
Qed.

Lemma run_unfed v es v' sym : feeds_ok v -> run_venue es v = Ok v' -> unfed v sym ->
  unfed v' sym /\ exists news, cv_calls v' = cv_calls v ++ news /\ Forall (fun c => sym ∉ call_symbols c) news.
Proof.
  revert v. induction es as [|e es IH]; intros v O; cbn.
  - intros [= <-] Hu. split; [done|]. exists []. by rewrite app_nil_r.
  - destruct (venue_event v e) as [w|?|] eqn:E; try done. cbn. intros H Hu. destruct (event_ok v e w O E) as (G & S & Ow).
    destruct (step_unfed v w sym O G S Hu) as (Hu' & n1 & E1 & F1). destruct (IH w Ow H Hu') as (Hu'' & n2 & E2 & F2).
    split; [done|]. exists (n1 ++ n2). split; [by rewrite E2, E1, app_assoc|by apply Forall_app].
Qed.

(** The last subscriber leaves: the feed goes, the product stays. *)
Lemma last_leaves v request msg i : venue_product v (view (req_symbol request)) = Some i -> num_subscriptions v i = 1 ->
  unfed (handleMdUnsubscription v request msg) (view (req_symbol request)).
Proof.
  intros Hi Hn. pose proof (unsubscription_feeds v request msg) as [G _]. split; [apply (known_grows v _ _ G); by exists i|].
  unfold handleMdUnsubscription. rewrite Hi, Hn. cbn [Z.eqb Pos.eqb]. set (w := v <| cv_exchange ::= _ |>). clearbody w.
  destruct (cv_map_symbol_feed w !! view (req_symbol request)) as [feed|] eqn:E; [|exact E].
  unfold stop_feed. destruct (cv_made w !! feed); cbn; apply lookup_delete_eq.
Qed.

(** A first subscription to a channel the venue does not stream creates the product only. *)
Lemma unstreamed_creates v request msg storage v' : feeds_ok v -> ~ known v (view (req_symbol request)) ->
  is_streamed (mds_channel msg) = false -> mds_channel msg <> HEARTBEATS -> cv_use_live_feed v = true ->
  handleMdSubscription v request msg storage = Ok v' -> unfed v' (view (req_symbol request)) /\ cv_calls v' = cv_calls v.
Proof.
  intros O Hn Hs Hh Hl H. destruct (subscription_feeds v request msg storage v' (fo_venue v O) H) as (_ & Hk & _).
  assert (E : cv_map_symbol_feed v' = cv_map_symbol_feed v /\ cv_calls v' = cv_calls v).
  { revert H. unfold handleMdSubscription. destruct (venue_product v _) as [i|] eqn:Ei; [exfalso; apply Hn; by exists i|].
    unfold subscribe_new. destruct (addSymbol _ _ _) as [[i s]|?|]; try done. cbn [rbind fst snd].
    set (w := v <| cv_exchange ::= _ |>). assert (Ew : cv_use_live_feed w = true /\ cv_map_symbol_feed w = cv_map_symbol_feed v /\ cv_calls w = cv_calls v) by done.
    clearbody w. destruct Ew as (E1 & E2 & E3). rewrite E1, Hs, (proj2 (Z.eqb_neq _ _) Hh). cbn [orb negb]. intros H. by apply Ok_inj in H as <-. }
  destruct E as [E1 E2]. split; [|done]. split; [done|]. rewrite E1. destruct (_ !! _) as [f|] eqn:Ef; [|done].
  destruct (fo_map v O _ f Ef) as (_ & K & _). done.
Qed.

(** A venue as constructed. *)
Record new_venue v : Prop := {
  nv_venue : ex_venue (sys_exchange (system_of v)) = COINBASE;
  nv_feeds : cv_made v = [] /\ cv_md_feeds v = [] /\ cv_map_symbol_feed v = ∅ /\ cv_calls v = []
}.

Lemma new_venue_ok v : new_venue v -> feeds_ok v.
Proof.
  intros [H1 (H2 & H3 & H4 & H5)]. split; rewrite ?H2, ?H3, ?H4, ?H5; try done.
  - intros f Hf. by apply not_elem_of_nil in Hf.
  - constructor.
  - intros f. unfold upstream. cbn. rewrite elem_of_empty. split; [done|]. intros Hf. by apply not_elem_of_nil in Hf.
Qed.

(** C25. The feeds of the venue: after any history of client requests, SDK callbacks and
    sequenced events, the feeds the SDK has been asked to stream and not to stop are exactly
    the feeds the exchange holds, each held once; each is the feed of exactly one product, a
    product the exchange knows, and streams that product and no other. *)
Theorem coinbase_feeds_match v0 es v : new_venue v0 -> run_venue es v0 = Ok v ->
  (forall f, f ∈ upstream (cv_calls v) <-> f ∈ cv_md_feeds v) /\ NoDup (cv_md_feeds v)
  /\ (forall f, f ∈ cv_md_feeds v <-> exists sym, cv_map_symbol_feed v !! sym = Some f)
  /\ (forall sym sym' f, cv_map_symbol_feed v !! sym = Some f -> cv_map_symbol_feed v !! sym' = Some f -> sym' = sym)
  /\ (forall sym f, cv_map_symbol_feed v !! sym = Some f -> known v sym /\ lf_symbols <$> cv_made v !! f = Some [sym]).
Proof.
  intros Hv Hr. pose proof (run_ok v0 es v (new_venue_ok v0 Hv) Hr) as [O1 O2 O3 O4 O5].
  split; [done|]. split; [done|]. split; [|split].
  - intros f. split; [apply O3|]. intros [sym Hs]. by apply (O2 sym f).
  - intros s s' f H H'. destruct (O2 s f H) as (_ & _ & ? & E). destruct (O2 s' f H') as (_ & _ & ? & E'). congruence.
  - intros sym f Hs. destruct (O2 sym f Hs) as (_ & K & id & E). by rewrite E.
Qed.

(** A product without a feed never gets one: once an instrument exists and no feed is
    mapped to it, no later history of subscriptions, unsubscriptions, disconnections, market
    data and orders gives it one or asks the SDK anything about it, although the venue runs on
    live feeds. Two requests lead there: the last unsubscription from a product, whose next
    subscriber is then answered from the book as it was left; and a first subscription to a
    channel that is not streamed, such as the ticker. *)
Lemma coinbase_unfed_stays v0 es v sym : new_venue v0 -> run_venue es v0 = Ok v ->
  (forall request msg i, view (req_symbol request) = sym -> venue_product v sym = Some i -> num_subscriptions v i = 1 ->
     unfed (handleMdUnsubscription v request msg) sym)
  /\ (forall request msg storage v', view (req_symbol request) = sym -> ~ known v sym -> is_streamed (mds_channel msg) = false ->
        mds_channel msg <> HEARTBEATS -> cv_use_live_feed v = true -> handleMdSubscription v request msg storage = Ok v' -> unfed v' sym)
  /\ (unfed v sym -> forall es' v', run_venue es' v = Ok v' ->
        unfed v' sym /\ exists news, cv_calls v' = cv_calls v ++ news /\ Forall (fun c => sym ∉ call_symbols c) news).
Proof.
  intros Hv Hr. pose proof (run_ok v0 es v (new_venue_ok v0 Hv) Hr) as O. split; [|split].
  - intros request msg i <-. apply last_leaves.
  - intros request msg storage v' <- Hn Hs Hh Hl H. by apply (unstreamed_creates v request msg storage v').
  - intros Hu es' v' Hr'. by apply (run_unfed v es').
Qed.
End Feeds.
