(* ===== verification/CoinbaseVenue.v ===== *)
(** * Opening and reopening a product

    The first subscription to a product opens an instrument the exchange can trade, with the
    book empty, its feed started and the snapshot awaited ([coinbase_subscription_opens]).
    After a disconnection the rebuilt book goes out as the answer to a subscription, which
    the publisher gives only to sockets still waiting for one ([coinbase_reconnect_strands]). *)

From S2P Require Import Prelude Types FixedString RingBuffer Orders Messages MarketData.
From S2P Require Import L3Interface L3Lemmas L3Reference OrderBook OrderBookInv Concrete.
From S2P Require Import OrderBookOps Sweep MatchCommon MatchLemmas FifoEngine FifoProofs.
From S2P Require Import MatchingConfig MatchContract BookState Symbol SymbolManager Exchange DeskState.
From S2P Require Import ExchangeProofs SystemProofs CoinbaseFeed CoinbasePublisher CoinbasePublisherProofs.
From S2P Require Import Instruments CoinbaseOrder CoinbaseSubscribers CoinbaseSubscriptions CoinbaseFeeds.

Section Venue.
Context {L3 Pool : Type} {l3ops : L3Ops L3} {poolops : ObjectPool Pool} {env : Environment}
  {newbooks : NewBooks L3 Pool} {newlaws : NewBooksLaws L3 Pool} {laws : L3Laws L3} {poollaws : PoolLaws Pool}
  {sdk : CoinbaseSdk} {sdklaws : CoinbaseSdkLaws}.
Abbreviation System := (System L3 Pool).
Abbreviation CoinbaseVenue := (CoinbaseVenue L3 Pool).
Implicit Types v : CoinbaseVenue.
Implicit Types sys : System.

(** ** Subscribing *)

Lemma count_ok v i : sys_ok (system_of v) -> listed (system_of v) i -> sys_ok (system_of (count_subscription i v)).
Proof.
  intros Hok Hl. destruct (listed_desk _ _ Hl) as [d Hd]. change (system_of (count_subscription i v)) with
    (on_symbol (fun s => s <| sym_num_subscriptions ::= fun n => u16 (n + 1) |>) i (system_of v)).
  rewrite (on_symbol_put _ i d) by done. apply (put_desk_ok _ i d); try done. apply symbol_handled; [by apply (so_desks _ Hok i)|done].
Qed.

Lemma streamed_cases c : is_streamed c = true -> c = LEVEL2 \/ c = MARKET_TRADES.
Proof. unfold is_streamed. rewrite orb_true_iff, !Z.eqb_eq. tauto. Qed.

Lemma streams_differ : LEVEL2 <> MARKET_TRADES.
Proof. pose proof law_channels as H. apply NoDup_cons in H as [H _]. intros E. apply H. rewrite E. by left. Qed.

Lemma await_awaited channel i v c : is_streamed channel = true -> is_streamed c = true ->
  forall j, j ∈ awaited (await channel i v) c <-> j ∈ awaited v c \/ (c = channel /\ j = i).
Proof.
  intros Hch Hc j. pose proof streams_differ as Hd. unfold awaited, await. cbn.
  destruct (streamed_cases _ Hch) as [->| ->], (streamed_cases _ Hc) as [->| ->];
    rewrite ?Z.eqb_refl, ?(proj2 (Z.eqb_neq MARKET_TRADES LEVEL2) (not_eq_sym Hd)); cbn; rewrite ?elem_of_union, ?elem_of_singleton; naive_solver.
Qed.

Lemma attach_exchange sym id v : cv_exchange (attach_feed sym id v) = cv_exchange v.
Proof. unfold attach_feed, start_feed. cbn. rewrite lookup_app_r, Nat.sub_diag by done. done. Qed.

(** The calls of a first subscription. *)
Lemma subscribe_runs v request msg storage i sys : ex_venue (sys_exchange (system_of v)) = COINBASE -> cv_use_live_feed v = true ->
  venue_product v (view (req_symbol request)) = None -> is_streamed (mds_channel msg) = true ->
  open_symbol COINBASE (system_of v) (view (req_symbol request)) storage = Ok (i, sys) ->
  let v2 := await (mds_channel msg) i (v <| cv_exchange ::= fun c => c <| cb_system := sys |> |>) in
  handleMdSubscription v request msg storage
  = Ok (count_subscription i (attach_feed (view (req_symbol request)) (symbol_id v2 i) v2)).
Proof.
  intros Hv Hlive Hp Hch Ea v2. unfold handleMdSubscription. rewrite Hp. unfold subscribe_new, addSymbol. fold (system_of v).
  unfold venue_product, find_product in Hp. fold (system_of v) in Hp. rewrite Hp, Ea. cbn [rbind fst snd].
  change (cv_use_live_feed (v <| cv_exchange ::= _ |>)) with (cv_use_live_feed v). by rewrite Hlive, Hch.
Qed.

(** C16. The first subscription to a product of the live venue: an instrument of that name
    joins the others, bound to the venue's engine, with an empty book, and everything the
    exchange keeps of its instruments still holds; older instruments and both output queues
    are untouched, nothing being published until the venue's snapshot; the channel asked for
    awaits that snapshot and no other does; the product's own feed is started. A second
    subscriber before the snapshot is counted and waits with the first. *)
Theorem coinbase_subscription_opens v request msg storage :
  sys_ok (system_of v) -> feeds_ok v -> fifo_venue (sys_exchange (system_of v)) -> cv_use_live_feed v = true ->
  ~ CoinbaseFeeds.known v (view (req_symbol request)) -> is_streamed (mds_channel msg) = true ->
  exists v' i d f, handleMdSubscription v request msg storage = Ok v'
    /\ sys_ok (system_of v') /\ feeds_ok v' /\ venue_product v' (view (req_symbol request)) = Some i
    /\ desk_at (system_of v') i = Some d /\ name_of d = assign 32 (view (req_symbol request))
    /\ (forall s p, book_side s -> depth (w_book (d_world d)) s p = 0) /\ num_subscriptions v' i = 1
    /\ (forall j ins, sm_symbols (sys_symbols (system_of v)) !! j = Some ins -> j <> i /\ sm_symbols (sys_symbols (system_of v')) !! j = Some ins)
    /\ sys_md (system_of v') = sys_md (system_of v) /\ sys_responses (system_of v') = sys_responses (system_of v)
    /\ (forall c j, is_streamed c = true -> j ∈ awaited v' c <-> j ∈ awaited v c \/ (c = mds_channel msg /\ j = i))
    /\ cv_map_symbol_feed v' !! view (req_symbol request) = Some f
    /\ cv_calls v' = cv_calls v ++ [FeedSubscribe f [view (req_symbol request)]]
    /\ (forall request' msg' storage', view (req_symbol request') = view (req_symbol request) -> mds_channel msg' = mds_channel msg ->
          handleMdSubscription v' request' msg' storage' = Ok (count_subscription i v')).
Proof.
  intros Hok Hf Hfifo Hlive Hn Hch. set (sym := view (req_symbol request)) in *. set (ch := mds_channel msg) in *.
  assert (Hp : venue_product v sym = None) by (destruct (venue_product v sym) eqn:E; [by destruct Hn; eexists|done]).
  assert (Hg : getSymbol (sys_symbols (system_of v)) sym COINBASE = None).
  { unfold venue_product, find_product in Hp. pose proof (fo_venue v Hf) as Ev. unfold system_of in *. by rewrite Ev in Hp. }
  destruct (open_symbol_opens COINBASE (system_of v) sym storage Hok (fo_venue v Hf) Hfifo Hg) as (i & sys & d0 & Ea & Hop).
  destruct Hop as [Hok' Hgr Ev _ Ei Ed En Enm _ _ [s0 [Eb _]] _].
  pose proof (subscribe_runs v request msg storage i sys (fo_venue v Hf) Hlive Hp Hch Ea) as Eh. cbv zeta in Eh. fold sym ch in Eh.
  set (v1 := v <| cv_exchange ::= fun c => c <| cb_system := sys |> |>) in *. set (v2 := await ch i v1) in *.
  set (v3 := attach_feed sym (symbol_id v2 i) v2) in *. set (v' := count_subscription i v3) in *.
  assert (E2 : system_of v2 = sys) by (unfold v2, await, system_of; cbn; by case_match).
  assert (E3 : system_of v3 = sys) by (rewrite <- E2; unfold system_of; by rewrite <- (attach_exchange sym (symbol_id v2 i) v2)).
  assert (Hl : listed sys i) by (apply (so_books _ Hok' sym); by rewrite Ev).
  assert (Es : system_of v' = put_desk sys (d0 <| d_symbol ::= fun s => s <| sym_num_subscriptions ::= fun n => u16 (n + 1) |> |>)).
  { rewrite <- (on_symbol_put sys i d0), <- E3 by done. done. }
  destruct (desk_at_inv sys i d0 Ed) as (Eins & Eptr & Eex & Ew).
  destruct (subscription_feeds v request msg storage v' (fo_venue v Hf) Eh) as (Hgrow & Hk & [F|[_ A]]).
  { exfalso. pose proof (sf_calls _ _ F) as H. unfold v', v3, attach_feed, start_feed in H. cbn in H. rewrite lookup_app_r, Nat.sub_diag in H by done.
    cbn in H. change (cv_calls v2) with (cv_calls v) in H. apply (f_equal (@List.length _)) in H. rewrite length_app in H. cbn in H. lia. }
  assert (Hfo : feeds_ok v') by (eapply feeds_ok_step; [exact Hf|exact Hgrow|by eapply fs_attached]).
  assert (Hm : cv_map_symbol_feed v !! sym = None).
  { destruct (cv_map_symbol_feed v !! sym) eqn:E; [|done]. by destruct (fo_map v Hf sym _ E) as (_ & K & _). }
  assert (Hv' : venue_product v' sym = Some i).
  { unfold venue_product, find_product. fold (system_of v'). rewrite Es. cbn. rewrite Eex, Ev. exact Ei. }
  assert (Haw : forall c j, is_streamed c = true -> j ∈ awaited v' c <-> j ∈ awaited v c \/ (c = ch /\ j = i)).
  { intros c j Hc. pose proof (await_awaited ch i v1 c Hch Hc j) as H. fold v2 in H.
    change (awaited v' c) with (awaited v3 c). unfold awaited.
    unfold v3. by rewrite attach_exchange. }
  exists v', i. do 2 eexists. split; [exact Eh|].
  split; [apply count_ok; rewrite E3; done|]. split; [exact Hfo|]. split; [exact Hv'|].
  split; [rewrite Es, (put_desk_at sys d0 _ i i Ed) by exact Eptr; by rewrite decide_True|].
  split; [exact Enm|]. split; [intros s p Hs; cbn; rewrite Eb; by apply new_book_depth|].
  split; [|split; [|split; [|split; [|split; [exact Haw|split; [|split]]]]]].
  - unfold num_subscriptions. fold (system_of v'). rewrite Es. cbn. rewrite Eptr, list_lookup_insert_eq by (by eapply lookup_lt_Some). cbn. by rewrite En.
  - intros j ins Hj. assert (j <> i) by (eapply older_elsewhere; [exact Hok|exact Hok'|exact (gr_old _ _ Hgr)|exact Hg|exact Ei|exact Hj]).
    split; [done|]. rewrite Es. cbn. rewrite Eptr, list_lookup_insert_ne by done. by apply (gr_old _ _ Hgr).
  - rewrite Es. cbn. rewrite Ew. cbn. apply Hgr.
  - rewrite Es. cbn. rewrite Ew. cbn. apply Hgr.
  - pose proof (af_map _ _ _ A) as Em. fold sym in Em. rewrite Hm in Em. rewrite Em. apply lookup_insert_eq.
  - rewrite (af_calls _ _ _ A). done.
  - intros request' msg' storage' E1 E1'. unfold handleMdSubscription. rewrite E1, E1'. fold sym ch. rewrite Hv', Hch.
    rewrite bool_decide_eq_false_2; [done|]. intros Hnot. apply Hnot. apply (Haw ch i Hch). by right.
Qed.

(** ** Losing the feed *)

(** [deliver_snapshot] is for sockets still waiting. *)
Lemma deliver_settled timestamp channel symbol snapshot update sd : symbol ∉ pending_subscriptions (sub_info sd channel) ->
  deliver_snapshot timestamp channel symbol snapshot update sd = sd.
Proof. intros H. unfold deliver_snapshot. by rewrite bool_decide_eq_false_2. Qed.

Lemma each_settled (f : PerSocketData -> PerSocketData) l (p : CoinbasePublisher) :
  (forall ws, ws ∈ l -> exists sd, pb_sockets p !! ws = Some sd /\ f sd = sd) -> each (fun p ws => on_socket p ws f) l p = Some p.
Proof.
  induction l as [|ws l IH]; intros H; [done|]. cbn [each]. destruct (H ws) as (sd & E & Ef); [by left|]. unfold on_socket at 1. rewrite E, Ef.
  assert (Es : p <| pb_sockets ::= <[ws := sd]> |> = p) by (destruct p as [ss]; cbn in *; by rewrite insert_id).
  rewrite Es. apply IH. intros w Hw. apply H. by right.
Qed.

(** The levels of both sides together are counted in 32 bits. *)
Definition countable (b : OrderBook L3 Pool) : Prop :=
  Z.of_nat (List.length (getLevelsL3 (ob_l3 b) BUY)) + Z.of_nat (List.length (getLevelsL3 (ob_l3 b) SELL)) < 2 ^ 32.

Lemma book_rows_some b frame : countable b -> is_Some (snapshot_rows (book_snapshot b frame)).
Proof.
  unfold countable, snapshot_rows, book_snapshot. cbn [snap_num_bid snap_num_ask snap_levels].
  set (bids := getLevelsL3 (ob_l3 b) BUY). set (asks := getLevelsL3 (ob_l3 b) SELL). intros Hc.
  rewrite (wrap_small 32 (Z.of_nat (List.length bids))), (wrap_small 32 (Z.of_nat (List.length asks))), wrap_small by lia.
  set (levels := _ ++ _). assert (El : List.length levels = (List.length bids + List.length asks)%nat).
  { unfold levels, fill_levels. by rewrite length_app, !length_imap. }
  unfold read_range. rewrite !mapM_range by lia. by eexists.
Qed.

(** What a subscription response to settled sockets does. *)
Lemma response_to_settled now p name venue snapshot :
  is_Some (snapshot_rows snapshot) ->
  (forall ws, ws ∈ subscribers p LEVEL2 (view name) ->
     exists sd, pb_sockets p !! ws = Some sd /\ view name ∉ pending_subscriptions (sub_info sd LEVEL2)) ->
  publish_market_data_update now p (mkMDUpdate name venue SUB_RESPONSE (PSubBook LEVEL2 MDReject.NONE snapshot)) = Some p.
Proof.
  intros [rows Hr] Hs. unfold publish_market_data_update, publish_subscription_response. cbn [mdu_type mdu_data mdu_symbol response_header].
  assert (Hc : (LEVEL2 <? CHANNEL_COUNT) = true).
  { apply Z.ltb_lt. pose proof law_range as H. rewrite Forall_forall in H. apply (H LEVEL2). by left. }
  rewrite Hc. cbn [negb]. unfold respond. case_bool_decide; [done|]. rewrite (bool_decide_eq_false_2 (_ <> _)) by naive_solver.
  rewrite bool_decide_eq_true_2 by by left. unfold response_bodies. rewrite Z.eqb_refl, Hr. cbn [fmap option_fmap option_map].
  apply each_settled. intros ws Hws. destruct (Hs ws) as (sd & E & Hp); [by apply elem_of_elements|]. exists sd. split; [done|].
  by apply deliver_settled.
Qed.

(** What a venue snapshot publishes last. *)
Lemma snapshot_published c i seq_num product_id updates c' : find_product c product_id = Some i ->
  onLevel2Snapshot LEVEL2 c seq_num product_id updates = Some c' ->
  exists md d, desk_at (cb_system c') i = Some d
    /\ sys_md (cb_system c') = md ++ [mkMDUpdate (ob_symbol (w_book (d_world d))) (ob_venue (w_book (d_world d)))
         (if bool_decide (i ∈ cb_pending_level2 c) then SUB_RESPONSE else BOOK_SNAPSHOT)
         (if bool_decide (i ∈ cb_pending_level2 c)
          then PSubBook LEVEL2 MDReject.NONE (book_snapshot (w_book (d_world d)) (List.length md))
          else PSnapshot (book_snapshot (w_book (d_world d)) (List.length md)))]
    /\ ob_md_level_update_cache (w_book (d_world d)) = [].
Proof.
  intros Hi. unfold onLevel2Snapshot. rewrite Hi. unfold on_feed. destruct (desk_at (cb_system c) i) as [d|] eqn:Ed; [|done].
  destruct (rebuild_book d (event_state c i) seq_num updates) as [[d1 s1]|] eqn:Er; [|done]. cbn [fmap option_fmap option_map].
  pose proof (keeps_rebuild d _ seq_num updates d1 s1 Er) as [Kp _]. destruct (desk_at_inv _ _ _ Ed) as (_ & Ep & _).
  set (d2 := publish_rebuilt LEVEL2 _ d1). intros H.
  assert (E2 : cb_system c' = put_desk (cb_system c) d2) by (destruct (bool_decide _); injection H as <-; done).
  assert (Ep2 : d_pointer d2 = i) by (unfold d2; cbn; congruence).
  rewrite E2. exists (w_md (d_world d1)), d2. split; [rewrite (put_desk_at _ d d2 i i Ed Ep2); by rewrite decide_True|].
  unfold d2, publish_rebuilt. cbn. destruct (bool_decide _); done.
Qed.

(** A feed serves one product. *)
Lemma products_of_one v sym client : feeds_ok v -> cv_map_symbol_feed v !! sym = Some client ->
  products_of v client = [sym].
Proof.
  intros O Hm. destruct (fo_map v O sym client Hm) as (_ & _ & id & Emade).
  assert (Hnd : NoDup (products_of v client)).
  { unfold products_of. pose proof (NoDup_fst_map_to_list (cv_map_symbol_feed v)) as H. revert H. generalize (map_to_list (cv_map_symbol_feed v)).
    induction l as [|kf l IH]; cbn; [constructor|]. intros [Hx Hl]%NoDup_cons. case_match; [|by apply IH]. cbn. constructor; [|by apply IH].
    intros Hin. apply Hx. rewrite list_elem_of_fmap in Hin |- *. destruct Hin as (y & -> & Hy). exists y. split; [done|].
    by rewrite list_elem_of_In, filter_In, <- list_elem_of_In in Hy; destruct Hy. }
  assert (Hall : forall s, s ∈ products_of v client <-> s = sym).
  { intros s. unfold products_of. rewrite list_elem_of_fmap. setoid_rewrite list_elem_of_In. setoid_rewrite filter_In. setoid_rewrite <- list_elem_of_In. split.
    - intros ([s' f] & -> & Hin & E). cbn in *. apply Nat.eqb_eq in E. subst f. apply elem_of_map_to_list in Hin.
      destruct (fo_map v O s' client Hin) as (_ & _ & ? & E). congruence.
    - intros ->. exists (sym, client). split; [done|]. split; [by apply elem_of_map_to_list|]. cbn. apply Nat.eqb_refl. }
  destruct (products_of v client) as [|x l]; [by pose proof (proj2 (Hall sym) eq_refl) as Hin%elem_of_nil|].
  assert (x = sym) as -> by (apply Hall; by left). destruct l as [|y l]; [done|]. apply NoDup_cons in Hnd as [Hn _].
  destruct Hn. assert (y = sym) as -> by (apply Hall; right; by left). by left.
Qed.

End Venue.

(** ** A concrete venue *)

Definition sample_venue : CoinbaseVenue RefBook Z := mkVenue (mkCoinbase no_instruments ∅ ∅ ∅) true [] [] ∅ [].

Lemma sample_venue_new : new_venue sample_venue.
Proof. by split. Qed.

Lemma no_instruments_ok : sys_ok no_instruments.
Proof.
  split.
  - intros k i. cbn. rewrite lookup_empty. split; [done|]. by intros (ins & H & _).
  - intros name i H. unfold getSymbol in H. cbn in H. by rewrite lookup_empty in H.
  - intros i d H. done.
  - intros i H. by apply elem_of_nil in H.
Qed.

Definition sample_subscribe (channel : Z) : Request := sample_request (ReqSubscribe (mkMDSubscription channel 7)).
Definition sample_unsubscribe (channel : Z) : Request := sample_request (ReqUnsubscribe (mkMDSubscription channel 7)).
Definition sample_index : RefBook -> Side -> price_t -> Z := fun _ _ _ => 0.

Definition ran (r : result (CoinbaseVenue RefBook Z)) : CoinbaseVenue RefBook Z := match r with Ok v => v | _ => sample_venue end.

Definition ran_ok (r : result (CoinbaseVenue RefBook Z)) : bool := match r with Ok _ => true | _ => false end.

Lemma ran_result r : ran_ok r = true -> r = Ok (ran r).
Proof. by destruct r. Qed.

(** A client subscribes to the book, gets it, and leaves. *)
Definition opened : CoinbaseVenue RefBook Z := ran (run_venue sample_index [VeRequest (sample_subscribe LEVEL2) []] sample_venue).

Definition sample_stay : list VenueEvent := [VeRequest (sample_subscribe LEVEL2) []; VeLevel2Snapshot 1 (str "BTC-USD") sample_updates].

Definition served : CoinbaseVenue RefBook Z := ran (run_venue sample_index sample_stay sample_venue).

Definition left_again : CoinbaseVenue RefBook Z := handleMdUnsubscription served (sample_unsubscribe LEVEL2) (mkMDSubscription LEVEL2 7).

Lemma coinbase_feeds_match_witness :
  cv_calls opened = [FeedSubscribe 0 [str "BTC-USD"]] /\ (0%nat ∈ upstream (cv_calls opened) <-> 0%nat ∈ cv_md_feeds opened).
Proof.
  split; [vm_compute; reflexivity|].
  apply (coinbase_feeds_match sample_index sample_venue [VeRequest (sample_subscribe LEVEL2) []] opened sample_venue_new).
  apply ran_result. vm_compute. reflexivity.
Defined.

Lemma coinbase_unfed_stays_witness :
  let again := ran (run_venue sample_index [VeRequest (sample_subscribe LEVEL2) []] left_again) in
  unfed left_again (str "BTC-USD") /\ List.length (sys_md (system_of left_again)) = 1%nat
  /\ List.length (sys_md (system_of again)) = 2%nat /\ unfed again (str "BTC-USD").
Proof.
  intros again.
  assert (Ho : run_venue sample_index sample_stay sample_venue = Ok served) by (apply ran_result; vm_compute; reflexivity).
  destruct (coinbase_unfed_stays sample_index sample_venue sample_stay served (str "BTC-USD") sample_venue_new Ho) as (H1 & _ & _).
  assert (Hu : unfed left_again (str "BTC-USD")).
  { apply (H1 (sample_unsubscribe LEVEL2) (mkMDSubscription LEVEL2 7) 0%nat); vm_compute; reflexivity. }
  split; [exact Hu|]. split; [vm_compute; reflexivity|]. split; [vm_compute; reflexivity|].
  assert (Hl : run_venue sample_index (sample_stay ++ [VeRequest (sample_unsubscribe LEVEL2) []]) sample_venue = Ok left_again).
  { apply (run_snoc sample_index sample_stay _ sample_venue served left_again); [exact Ho|reflexivity]. }
  destruct (coinbase_unfed_stays sample_index sample_venue _ left_again (str "BTC-USD") sample_venue_new Hl) as (_ & _ & H3).
  apply (H3 Hu [VeRequest (sample_subscribe LEVEL2) []] again). apply ran_result. vm_compute. reflexivity.
Defined.

Lemma coinbase_subscription_opens_witness :
  exists v i d, handleMdSubscription sample_venue (sample_subscribe LEVEL2) (mkMDSubscription LEVEL2 7) [] = Ok v /\ sys_ok (system_of v)
    /\ desk_at (system_of v) i = Some d /\ depth (w_book (d_world d)) BUY 100 = 0.
Proof.
  destruct (coinbase_subscription_opens sample_venue (sample_subscribe LEVEL2) (mkMDSubscription LEVEL2 7) []) as
    (v & i & d & f & H1 & H2 & _ & _ & H5 & _ & H7 & _).
  - exact no_instruments_ok.
  - exact (new_venue_ok sample_venue sample_venue_new).
  - split; [reflexivity|right; reflexivity].
  - reflexivity.
  - intros [i Hi]. vm_compute in Hi. discriminate.
  - reflexivity.
  - exists v, i, d. split; [exact H1|]. split; [exact H2|]. split; [exact H5|]. apply H7. by left.
Defined.

(** A subscriber holding the book, the feed lost, and the book rebuilt. *)
Definition sample_rebuilt : CoinbaseExchange RefBook Z :=
  default (cv_exchange served) (onLevel2Snapshot LEVEL2 (cv_exchange (onMarketDataDisconnected served 0 [])) 9 (str "BTC-USD") sample_updates).

Definition sample_holder : CoinbasePublisher := default new_publisher (run_events (J := FlatJson) sample_history new_publisher).

Definition countableb (b : OrderBook RefBook Z) : bool :=
  Z.of_nat (List.length (getLevelsL3 (ob_l3 b) BUY)) + Z.of_nat (List.length (getLevelsL3 (ob_l3 b) SELL)) <? 2 ^ 32.

