(* ===== verification/MulticastFeed.v ===== *)
(** * The multicast packet feed

    Models [src/md_feed/multicast_packet_feed.hpp]: lines that are added, muted, left and
    rejoined, the packets they deliver and the batches the exchange thread drains. Per-line
    state is kept in bit masks as the code keeps it. What a socket call returns is an
    argument of the step that makes it; [slick::queue] is the list of packets not yet
    drained, and a receiver that laps the reader is a step of its own, [lose]. What the feed
    logged, and what it asked of its sockets, are kept with it. Threads and sockets are
    slick-socket's.

    [line_of] reads the bit masks of the feed as one small machine per line; [set_joined]
    moves the machine of its line and no other ([membership_machine]). A membership that
    could not be changed is tried again, not before its pause and at the first poll after it
    ([membership_recovers]). Packets reach the venue in the order they were accepted, none
    twice ([packets_in_order]). *)

From S2P Require Import Prelude Types FixedString Orders Messages MarketData MatchingConfig.

Definition MAX_LINES : Z := 32.
Definition MEMBERSHIP_RETRY_NS : Z := 100000000.

Record Receiver := mkReceiver {
  rc_name : bytes;
  rc_multicast_address : bytes;
  rc_port : Z;
  rc_interface_address : bytes;
  rc_receive_buffer_size : Z;
  rc_line : Z
}.

(** An attempt to change a membership: which line, whether to join, when, and the error. *)
Record Attempt := mkAttempt {
  at_line : Z;
  at_join : bool;
  at_now : Z;
  at_error : Z
}.

Record MulticastPacketFeed := mkFeed {
  mf_name : bytes;
  mf_packets : list (Z * bytes);
  mf_queue_size : Z;
  mf_max_packets_per_poll : Z;
  mf_muted : Z;
  mf_oversized : Z;
  mf_loss_count : Z;
  mf_wanted_left : Z;
  mf_left : Z;
  mf_failing : Z;
  mf_retry_at_ns : list Z;
  mf_started : bool;
  mf_receivers : list Receiver;
  mf_by_line : gmap Z Receiver;
  mf_attempts : list Attempt;
  mf_logged : list Attempt
}.

#[export] Instance MulticastPacketFeed_eta : Eta MulticastPacketFeed := fun f =>
  mkFeed (mf_name f) (mf_packets f) (mf_queue_size f) (mf_max_packets_per_poll f) (mf_muted f) (mf_oversized f)
    (mf_loss_count f) (mf_wanted_left f) (mf_left f) (mf_failing f) (mf_retry_at_ns f) (mf_started f) (mf_receivers f)
    (mf_by_line f) (mf_attempts f) (mf_logged f).

Implicit Types f : MulticastPacketFeed.

(** ** Construction *)

Section Config.
Context {J : Type} {json : Json J}.

(** [config.value(key, default)] of an integer. *)
Definition int_value (config : J) (key : bytes) (default_value : Z) : result Z :=
  if negb (js_is_object config) then Throw BadJson
  else match js_find config key with
       | None => Ok default_value
       | Some v => if js_is_number v then Ok (js_get_int64 v) else Throw BadJson
       end.

Definition new_feed (name : bytes) (config : J) : result MulticastPacketFeed :=
  let* queue_size := int_value config (str "queue_size") (Z.shiftl 1 24) in
  let* max_packets_per_poll := int_value config (str "max_packets_per_poll") 256 in
  if u32 max_packets_per_poll =? 0
  then Throw (RuntimeError (str "feed " ++ name ++ str ": max_packets_per_poll must be above 0"))
  else Ok (mkFeed name [] (u32 queue_size) (u32 max_packets_per_poll) 0 0 0 0 0 0 (replicate 32 0) false [] ∅ [] []).

Definition has_group (config : J) (key : bytes) : bool := match js_find config key with Some _ => true | None => false end.

(** [at(key).get<T>()]. *)
Definition at_member (group : J) (key : bytes) : result J :=
  match js_find group key with Some v => Ok v | None => Throw BadJson end.

(** [add_line]: the new receiver, or [false]. [line] is a [uint8_t]; the interface slick-socket
    defaults to is its own. The assertion that the feed has not started is [Undefined]. *)
Definition add_line (default_interface : bytes) (config : J) f (key : bytes) (line : Z) : result (MulticastPacketFeed * bool) :=
  if mf_started f then Undefined
  else match js_find config key with
  | None => Ok (f, false)
  | Some group =>
      if MAX_LINES <=? line then Ok (f, false)
      else
        let* address := at_member group (str "address") in
        match js_get_string address with
        | None => Throw BadJson
        | Some address =>
            let* port := at_member group (str "port") in
            if negb (js_is_number port) then Throw BadJson
            else
              let* interface := string_value config (str "interface") default_interface in
              let* size := int_value config (str "receive_buffer_size") (Z.shiftl 1 22) in
              let r := mkReceiver (mf_name f ++ str " " ++ key) address (u16 (js_get_int64 port)) interface (swrap 32 size) line in
              Ok (f <| mf_receivers ::= fun l => l ++ [r] |> <| mf_by_line ::= <[line := r]> |>, true)
        end
  end.
End Config.

(** ** Running *)

(** Starting joins every group; a line still wanted left stays muted. *)
Definition start f : MulticastPacketFeed :=
  f <| mf_started := true |> <| mf_left := 0 |> <| mf_failing := 0 |> <| mf_retry_at_ns := replicate 32 0 |>.

Definition stop f : MulticastPacketFeed := f <| mf_started := false |>.

Definition bit (line : Z) : Z := Z.shiftl 1 line.

Definition is_set (mask line : Z) : bool := negb (Z.land mask (bit line) =? 0).

(** [deliver]: whether the packet was queued. *)
Definition deliver f (line : Z) (data : bytes) : MulticastPacketFeed * bool :=
  if is_set (mf_muted f) line then (f, false)
  else
    let n := u32 (Z.of_nat (List.length data) + 1) in
    if mf_queue_size f <? n then (f <| mf_oversized ::= fun n => u64 (n + 1) |>, false)
    else (f <| mf_packets ::= fun q => q ++ [(line, data)] |>, true).

(** A receiver overwrites the oldest [n] packets nobody has drained. *)
Definition lose f (n : nat) : MulticastPacketFeed :=
  f <| mf_packets ::= drop n |>
    <| mf_loss_count ::= fun c => u64 (c + zsum (map (fun x => Z.of_nat (List.length (snd x)) + 1) (take n (mf_packets f)))) |>.

Definition mute f (line : Z) (muted : bool) : MulticastPacketFeed :=
  f <| mf_muted ::= fun m => if muted then Z.lor m (bit line) else Z.land m (Z.lnot (bit line)) |>.

(** [change_membership]; [error] is what the socket would answer. A line without a group, or
    a receiver that is not running, has nothing to change. *)
Definition change_membership f (line error : Z) : Z :=
  match mf_by_line f !! line with Some _ => if mf_started f then error else 0 | None => 0 end.

(** [set_joined]'s first half: what the venue wants now. *)
Definition want_joined f (line : Z) (joined : bool) : MulticastPacketFeed :=
  let want_left := if joined then 0 else bit line in
  if Z.land (mf_wanted_left f) (bit line) =? want_left then f
  else
    (mute (f <| mf_wanted_left ::= fun m => Z.lxor m (bit line) |>) line (negb joined))
      <| mf_failing ::= fun m => Z.land m (Z.lnot (bit line)) |>
      <| mf_retry_at_ns ::= <[Z.to_nat line := 0]> |>.

Definition retry_at f (line : Z) : Z := default 0 (mf_retry_at_ns f !! Z.to_nat line).

Definition set_joined f (line : Z) (joined : bool) (now_ns error : Z) : MulticastPacketFeed :=
  let want_left := if joined then 0 else bit line in
  let f := want_joined f line joined in
  if (Z.land (mf_left f) (bit line) =? want_left) || (now_ns <? retry_at f line) then f
  else
    let error := change_membership f line error in
    let attempt := mkAttempt line joined now_ns error in
    let f := f <| mf_attempts ::= fun l => l ++ [attempt] |> in
    if negb (error =? 0) then
      let f := f <| mf_retry_at_ns ::= <[Z.to_nat line := u64 (now_ns + MEMBERSHIP_RETRY_NS)]> |> in
      if is_set (mf_failing f) line then f
      else f <| mf_failing ::= fun m => Z.lor m (bit line) |> <| mf_logged ::= fun l => l ++ [attempt] |>
    else
      f <| mf_left ::= fun m => Z.lxor m (bit line) |> <| mf_failing ::= fun m => Z.land m (Z.lnot (bit line)) |>.

(** [drain]: the packets handed over, and their number. An entry always carries its line. *)
Definition drain f : MulticastPacketFeed * list (Z * bytes) :=
  let n := Z.to_nat (mf_max_packets_per_poll f) in
  (f <| mf_packets ::= drop n |>, take n (mf_packets f)).

(** ** Bits *)

Lemma testbit_bit line i : 0 <= line -> 0 <= i -> Z.testbit (bit line) i = bool_decide (i = line).
Proof.
  intros Hl Hi. unfold bit. rewrite Z.shiftl_1_l. case_bool_decide as E; [subst; by apply Z.pow2_bits_true|].
  apply Z.pow2_bits_false. congruence.
Qed.

Lemma land_bit m line : 0 <= line -> Z.land m (bit line) = if Z.testbit m line then bit line else 0.
Proof.
  intros Hl. apply Z.bits_inj'. intros i Hi. rewrite Z.land_spec, testbit_bit by done.
  case_bool_decide as E; [subst i|].
  - destruct (Z.testbit m line) eqn:Em; [rewrite testbit_bit, bool_decide_eq_true_2 by done; done|by rewrite Z.bits_0].
  - rewrite andb_false_r. destruct (Z.testbit m line); [by rewrite testbit_bit, bool_decide_eq_false_2 by done|by rewrite Z.bits_0].
Qed.

Lemma bit_nonzero line : 0 <= line -> bit line <> 0.
Proof. intros Hl E. pose proof (testbit_bit line line Hl Hl) as H. rewrite E, Z.bits_0, bool_decide_eq_true_2 in H; done. Qed.

Lemma is_set_testbit m line : 0 <= line -> is_set m line = Z.testbit m line.
Proof.
  intros Hl. unfold is_set. rewrite land_bit by done. destruct (Z.testbit m line); [|done].
  by rewrite (proj2 (Z.eqb_neq _ _) (bit_nonzero line Hl)).
Qed.

(** Comparing a masked bit with what is wanted of it. *)
Lemma masked_is m line (want : bool) : 0 <= line ->
  (Z.land m (bit line) =? (if want then 0 else bit line)) = Bool.eqb (Z.testbit m line) (negb want).
Proof.
  intros Hl. rewrite land_bit by done. pose proof (bit_nonzero line Hl) as Hn.
  destruct (Z.testbit m line), want; cbn [negb Bool.eqb]; rewrite ?Z.eqb_refl; try done;
    [by rewrite (proj2 (Z.eqb_neq _ _) Hn)|by rewrite (proj2 (Z.eqb_neq 0 _) (not_eq_sym Hn))].
Qed.

Lemma lor_bit m line i : 0 <= line -> 0 <= i -> Z.testbit (Z.lor m (bit line)) i = if bool_decide (i = line) then true else Z.testbit m i.
Proof. intros Hl Hi. rewrite Z.lor_spec, testbit_bit by done. case_bool_decide; [by rewrite orb_true_r|by rewrite orb_false_r]. Qed.

Lemma clear_bit m line i : 0 <= line -> 0 <= i ->
  Z.testbit (Z.land m (Z.lnot (bit line))) i = if bool_decide (i = line) then false else Z.testbit m i.
Proof.
  intros Hl Hi. rewrite Z.land_spec, Z.lnot_spec, testbit_bit by done. case_bool_decide; cbn; [by rewrite andb_false_r|by rewrite andb_true_r].
Qed.

Lemma flip_bit m line i : 0 <= line -> 0 <= i ->
  Z.testbit (Z.lxor m (bit line)) i = if bool_decide (i = line) then negb (Z.testbit m i) else Z.testbit m i.
Proof. intros Hl Hi. rewrite Z.lxor_spec, testbit_bit by done. case_bool_decide; [by rewrite xorb_true_r|by rewrite xorb_false_r]. Qed.

(** ** One line *)

Record Line := mkLine {
  ln_muted : bool;
  ln_wanted_left : bool;
  ln_left : bool;
  ln_failing : bool;
  ln_retry_at : Z;
  ln_running : bool
}.

#[export] Instance Line_eta : Eta Line := fun l =>
  mkLine (ln_muted l) (ln_wanted_left l) (ln_left l) (ln_failing l) (ln_retry_at l) (ln_running l).

Definition line_of f (i : Z) : Line :=
  mkLine (Z.testbit (mf_muted f) i) (Z.testbit (mf_wanted_left f) i) (Z.testbit (mf_left f) i)
    (Z.testbit (mf_failing f) i) (retry_at f i) (mf_started f).

Definition line_want (l : Line) (joined : bool) : Line :=
  if Bool.eqb (ln_wanted_left l) (negb joined) then l
  else mkLine (negb joined) (negb joined) (ln_left l) false 0 (ln_running l).

(** Nothing to do or too early; tried and failed; done. *)
Definition line_attempts (l : Line) (joined : bool) (now : Z) : bool :=
  let l := line_want l joined in negb (Bool.eqb (ln_left l) (negb joined)) && (ln_retry_at l <=? now).

Definition line_join (l : Line) (joined : bool) (now error : Z) : Line :=
  let l' := line_want l joined in
  if negb (line_attempts l joined now) then l'
  else if error =? 0 then l' <| ln_left := negb joined |> <| ln_failing := false |>
  else l' <| ln_retry_at := u64 (now + MEMBERSHIP_RETRY_NS) |> <| ln_failing := true |>.

(** The state of every line fits its masks and arrays. *)
Definition line_range (line : Z) : Prop := 0 <= line < MAX_LINES.

Definition sized f : Prop := List.length (mf_retry_at_ns f) = Z.to_nat MAX_LINES.

Lemma retry_at_insert l line i t : line_range line -> line_range i -> List.length l = Z.to_nat MAX_LINES ->
  default 0 (<[Z.to_nat line := t]> l !! Z.to_nat i) = if bool_decide (i = line) then t else default 0 (l !! Z.to_nat i).
Proof.
  unfold line_range. intros Hl Hi Hn. case_bool_decide as E.
  - subst i. rewrite list_lookup_insert_eq; [done|]. rewrite Hn. unfold MAX_LINES in *. lia.
  - rewrite list_lookup_insert_ne; [done|]. lia.
Qed.

Lemma want_joined_line f line joined i : line_range line -> line_range i -> sized f ->
  line_of (want_joined f line joined) i = (if bool_decide (i = line) then line_want (line_of f i) joined else line_of f i)
  /\ sized (want_joined f line joined).
Proof.
  intros Hrl Hri Hn. unfold sized in Hn. pose proof (proj1 Hrl) as Hl. pose proof (proj1 Hri) as Hi. unfold want_joined. rewrite masked_is by done. unfold line_want, line_of at 3. cbn [ln_wanted_left].
  destruct (decide (i = line)) as [Ei|Hne].
  - subst i. rewrite (bool_decide_eq_true_2 (line = line)) by done. destruct (Bool.eqb _ _) eqn:Hw; [done|]. split.
    + unfold line_of, retry_at, mute. cbn. rewrite flip_bit, clear_bit, retry_at_insert, !(bool_decide_eq_true_2 (line = line)) by done.
      f_equal; [|revert Hw; by destruct (Z.testbit (mf_wanted_left f) line), joined].
      destruct joined; cbn [negb]; [by rewrite clear_bit, bool_decide_eq_true_2 by done|by rewrite lor_bit, bool_decide_eq_true_2 by done].
    + unfold sized. cbn. by rewrite length_insert.
  - rewrite (bool_decide_eq_false_2 (i = line)) by done. destruct (Bool.eqb _ _) eqn:Hw; [done|]. split.
    + unfold line_of, retry_at, mute. cbn. rewrite flip_bit, clear_bit, retry_at_insert, !(bool_decide_eq_false_2 (i = line)) by done. f_equal.
      destruct joined; cbn [negb]; [by rewrite clear_bit, bool_decide_eq_false_2 by done|by rewrite lor_bit, bool_decide_eq_false_2 by done].
    + unfold sized. cbn. by rewrite length_insert.
Qed.

(** [set_joined] is the machine of its line. *)
Lemma set_joined_line f line joined now error i : line_range line -> line_range i -> sized f ->
  line_of (set_joined f line joined now error) i
  = (if bool_decide (i = line) then line_join (line_of f i) joined now (change_membership f line error) else line_of f i)
  /\ sized (set_joined f line joined now error).
Proof.
  intros Hrl Hri Hn. destruct (want_joined_line f line joined i Hrl Hri Hn) as [Ew Hn1].
  assert (Ec : change_membership f line error = change_membership (want_joined f line joined) line error).
  { unfold change_membership, want_joined. by destruct (_ =? _). }
  pose proof (proj1 Hrl) as Hl. pose proof (proj1 Hri) as Hi. unfold set_joined. rewrite masked_is, Ec by done.
  destruct (want_joined_line f line joined line Hrl Hrl Hn) as [El _]. rewrite (bool_decide_eq_true_2 (line = line)) in El by done.
  set (w := want_joined f line joined) in *. clearbody w. unfold sized in Hn1.
  assert (Ha : line_attempts (line_of f line) joined now = negb (Bool.eqb (Z.testbit (mf_left w) line) (negb joined)) && (retry_at w line <=? now)).
  { unfold line_attempts. rewrite <- El. done. }
  assert (Es : (Bool.eqb (Z.testbit (mf_left w) line) (negb joined) || (now <? retry_at w line)) = negb (line_attempts (line_of f line) joined now)).
  { rewrite Ha, negb_andb, negb_involutive. f_equal. by rewrite Z.ltb_antisym. }
  rewrite Es. unfold line_join. case_bool_decide as Ei.
  - subst i. destruct (negb (line_attempts (line_of f line) joined now)) eqn:Eat; [by rewrite Ew|].
    rewrite <- Ew. rewrite Ha in Eat. apply negb_false_iff, andb_true_iff in Eat as [Eleft _].
    set (err := change_membership w line error). destruct (err =? 0); cbn [negb].
    + split; [|done]. unfold line_of, retry_at. cbn. rewrite flip_bit, clear_bit, !(bool_decide_eq_true_2 (line = line)) by done.
      f_equal. revert Eleft. by destruct (Z.testbit (mf_left w) line), joined.
    + rewrite is_set_testbit by done. cbn. destruct (Z.testbit (mf_failing w) line) eqn:Ef.
      * split; [|unfold sized; cbn; by rewrite length_insert].
        unfold line_of, retry_at. cbn. rewrite retry_at_insert, (bool_decide_eq_true_2 (line = line)), Ef by done. done.
      * split; [|unfold sized; cbn; by rewrite length_insert].
        unfold line_of, retry_at. cbn. rewrite lor_bit, retry_at_insert, !(bool_decide_eq_true_2 (line = line)) by done. done.
  - destruct (negb (line_attempts (line_of f line) joined now)); [by rewrite Ew|]. rewrite <- Ew.
    set (err := change_membership w line error). destruct (err =? 0); cbn [negb].
    + split; [|done]. unfold line_of, retry_at. cbn. by rewrite flip_bit, clear_bit, !(bool_decide_eq_false_2 (i = line)) by done.
    + rewrite is_set_testbit by done. cbn. destruct (Z.testbit (mf_failing w) line).
      * split; [|unfold sized; cbn; by rewrite length_insert].
        unfold line_of, retry_at. cbn. by rewrite retry_at_insert, (bool_decide_eq_false_2 (i = line)) by done.
      * split; [|unfold sized; cbn; by rewrite length_insert].
        unfold line_of, retry_at. cbn. by rewrite lor_bit, retry_at_insert, !(bool_decide_eq_false_2 (i = line)) by done.
Qed.

(** ** Histories *)

Inductive FeedEvent :=
  FeDeliver (line : Z) (data : bytes)
| FeLose (n : nat)
| FeMute (line : Z) (muted : bool)
| FeSetJoined (line : Z) (joined : bool) (now error : Z)
| FeDrain
| FeStart
| FeStop.

(** The feed, the packets it accepted and the packets it handed over. *)
Record FeedRun := mkRun {
  fr_feed : MulticastPacketFeed;
  fr_accepted : list (Z * bytes);
  fr_handed : list (Z * bytes)
}.

Definition feed_event (r : FeedRun) (e : FeedEvent) : FeedRun :=
  let f := fr_feed r in
  match e with
  | FeDeliver line data =>
      let '(f', ok) := deliver f line data in
      mkRun f' (if ok then fr_accepted r ++ [(line, data)] else fr_accepted r) (fr_handed r)
  | FeLose n => mkRun (lose f n) (fr_accepted r) (fr_handed r)
  | FeMute line muted => mkRun (mute f line muted) (fr_accepted r) (fr_handed r)
  | FeSetJoined line joined now error => mkRun (set_joined f line joined now error) (fr_accepted r) (fr_handed r)
  | FeDrain => let '(f', packets) := drain f in mkRun f' (fr_accepted r) (fr_handed r ++ packets)
  | FeStart => mkRun (start f) (fr_accepted r) (fr_handed r)
  | FeStop => mkRun (stop f) (fr_accepted r) (fr_handed r)
  end.

Definition run_feed (es : list FeedEvent) f : FeedRun := fold_left feed_event es (mkRun f [] []).

(** The line an event is about, within the masks. *)
Definition in_range (e : FeedEvent) : Prop :=
  match e with
  | FeDeliver line _ | FeMute line _ | FeSetJoined line _ _ _ => line_range line
  | _ => True
  end.

(** One line's view of an event; [grouped] is whether a group was added for the line. *)
Definition line_event (i : Z) (grouped : bool) (l : Line) (e : FeedEvent) : Line :=
  match e with
  | FeMute line muted => if bool_decide (i = line) then l <| ln_muted := muted |> else l
  | FeSetJoined line joined now error =>
      if bool_decide (i = line) then line_join l joined now (if grouped && ln_running l then error else 0) else l
  | FeStart => mkLine (ln_muted l) (ln_wanted_left l) false false 0 true
  | FeStop => l <| ln_running := false |>
  | _ => l
  end.

Lemma mute_line f line muted i : line_range line -> line_range i ->
  line_of (mute f line muted) i = if bool_decide (i = line) then (line_of f i) <| ln_muted := muted |> else line_of f i.
Proof.
  intros [Hl _] [Hi _]. unfold line_of, mute, retry_at. cbn. case_bool_decide as E.
  - subst i. f_equal. destruct muted; [by rewrite lor_bit, bool_decide_eq_true_2|by rewrite clear_bit, bool_decide_eq_true_2].
  - f_equal. destruct muted; [by rewrite lor_bit, bool_decide_eq_false_2|by rewrite clear_bit, bool_decide_eq_false_2].
Qed.

Lemma start_line f i : line_range i ->
  line_of (start f) i = mkLine (ln_muted (line_of f i)) (ln_wanted_left (line_of f i)) false false 0 true /\ sized (start f).
Proof.
  intros [Hi Hi']. unfold line_of, retry_at, sized. cbn. rewrite !Z.bits_0. split; [|done]. f_equal.
  assert (E : ∀ n k, default 0 (replicate n 0 !! k) = 0).
  { intros n. induction n as [|n IH]; intros [|k]; cbn; try done. }
  apply (E 32%nat).
Qed.

Lemma by_line_set_joined f line joined now error : mf_by_line (set_joined f line joined now error) = mf_by_line f.
Proof.
  unfold set_joined, want_joined. by repeat match goal with |- context [if ?b then _ else _] => destruct b end.
Qed.

Lemma feed_event_line r e i : line_range i -> in_range e -> sized (fr_feed r) ->
  line_of (fr_feed (feed_event r e)) i = line_event i (match mf_by_line (fr_feed r) !! i with Some _ => true | None => false end) (line_of (fr_feed r) i) e
  /\ sized (fr_feed (feed_event r e)) /\ mf_by_line (fr_feed (feed_event r e)) = mf_by_line (fr_feed r).
Proof.
  intros Hi He Hn. destruct e as [line data|n|line muted|line joined now error| | |]; cbn [feed_event line_event fr_feed in_range] in *; try done.
  - unfold deliver. destruct (is_set _ _); [done|]. by destruct (_ <? _).
  - split; [by apply mute_line|done].
  - destruct (set_joined_line (fr_feed r) line joined now error i He Hi Hn) as [E1 E2].
    split; [|split; [done|apply by_line_set_joined]]. rewrite E1. case_bool_decide; [|done]. subst line. unfold change_membership.
    by destruct (mf_by_line _ !! i); [destruct (mf_started _) eqn:Es|]; cbn [andb ln_running line_of]; rewrite ?Es.
  - by destruct (start_line (fr_feed r) i Hi) as [-> ?].
Qed.

Lemma feed_line r es i : line_range i -> Forall in_range es -> sized (fr_feed r) ->
  line_of (fr_feed (fold_left feed_event es r)) i
  = fold_left (line_event i (match mf_by_line (fr_feed r) !! i with Some _ => true | None => false end)) es (line_of (fr_feed r) i).
Proof.
  intros Hi He. revert r. induction He as [|e es He _ IH]; intros r Hn; [done|]. cbn [fold_left].
  destruct (feed_event_line r e i Hi He Hn) as (E1 & E2 & E3). rewrite IH by done. by rewrite E1, E3.
Qed.

(** A line muted only because it is unwanted stays so. *)
Lemma muted_as_wanted i grouped es l : Forall (fun e => match e with FeMute line _ => line <> i | _ => True end) es ->
  ln_muted l = ln_wanted_left l -> let l' := fold_left (line_event i grouped) es l in ln_muted l' = ln_wanted_left l'.
Proof.
  intros Hes. revert l. induction Hes as [|e es He _ IH]; intros l Hl; [done|]. cbn [fold_left]. apply IH.
  destruct e as [| |line muted|line joined now error| | |]; cbn [line_event]; try done.
  - by rewrite bool_decide_eq_false_2 by congruence.
  - case_bool_decide; [|done]. unfold line_join.
    assert (Hw : ln_muted (line_want l joined) = ln_wanted_left (line_want l joined)) by (unfold line_want; by destruct (Bool.eqb _ _)).
    destruct (negb _); [done|]. by destruct (_ =? 0).
Qed.

(** ** Waiting and trying again *)

Definition polls (line : Z) (joined : bool) (ps : list (Z * Z)) f : MulticastPacketFeed :=
  fold_left (fun f p => set_joined f line joined (fst p) (snd p)) ps f.

Section Polling.
Context (line : Z) (joined : bool) (Hline : line_range line).

Definition wants f : Prop := sized f /\ ln_wanted_left (line_of f line) = negb joined.

Lemma wants_idle f : wants f -> want_joined f line joined = f.
Proof.
  intros [_ Hw]. unfold want_joined. rewrite masked_is by apply Hline. cbn in Hw. by rewrite Hw, eqb_reflx.
Qed.

Lemma poll_waits f now error : wants f -> now < retry_at f line -> set_joined f line joined now error = f.
Proof.
  intros Hf Hn. unfold set_joined. rewrite wants_idle, (proj2 (Z.ltb_lt _ _) Hn), orb_true_r by done. done.
Qed.

Lemma polls_wait f ps : wants f -> Forall (fun p => fst p < retry_at f line) ps -> polls line joined ps f = f.
Proof. intros Hf. unfold polls. induction 1 as [|p ps Hp _ IH]; [done|]. cbn [fold_left]. by rewrite poll_waits. Qed.

Lemma poll_line f now error : sized f ->
  line_of (set_joined f line joined now error) line = line_join (line_of f line) joined now (change_membership f line error)
  /\ sized (set_joined f line joined now error).
Proof. intros Hf. by destruct (set_joined_line f line joined now error line Hline Hline Hf) as [-> ?]; rewrite bool_decide_eq_true_2. Qed.

Lemma line_want_wanted l : ln_wanted_left (line_want l joined) = negb joined.
Proof. unfold line_want. destruct (Bool.eqb _ _) eqn:E; [by apply eqb_prop in E|done]. Qed.

Lemma line_want_idle l : ln_wanted_left l = negb joined -> line_want l joined = l.
Proof. intros H. unfold line_want. by rewrite H, eqb_reflx. Qed.

Lemma poll_fails f now error : sized f -> line_attempts (line_of f line) joined now = true -> change_membership f line error <> 0 ->
  let f' := set_joined f line joined now error in
  wants f' /\ ln_failing (line_of f' line) = true /\ retry_at f' line = u64 (now + MEMBERSHIP_RETRY_NS)
  /\ ln_left (line_of f' line) = joined.
Proof.
  intros Hf Ha He f'. destruct (poll_line f now error Hf) as [E Hs]. fold f' in E, Hs.
  assert (Hr : retry_at f' line = ln_retry_at (line_of f' line)) by done. unfold wants. rewrite Hr, E. unfold line_join. rewrite Ha. cbn [negb].
  rewrite (proj2 (Z.eqb_neq _ _) He). cbn. split; [split; [done|apply line_want_wanted]|]. split; [done|]. split; [done|].
  unfold line_attempts in Ha. apply andb_true_iff in Ha as [Ha _]. revert Ha.
  by destruct (ln_left (line_want (line_of f line) joined)), joined.
Qed.

(** While a streak of failures lasts, nothing more is logged. *)
Lemma poll_quiet f now error : wants f -> ln_failing (line_of f line) = true -> ln_left (line_of f line) = joined -> change_membership f line error <> 0 ->
  let f' := set_joined f line joined now error in
  mf_logged f' = mf_logged f /\ wants f' /\ ln_failing (line_of f' line) = true /\ ln_left (line_of f' line) = joined
  /\ change_membership f' line error = change_membership f line error.
Proof.
  intros Hf Hfail Hleft He f'.
  assert (Hc : change_membership f' line error = change_membership f line error).
  { unfold change_membership, f'. rewrite by_line_set_joined.
    assert (Es : mf_started (set_joined f line joined now error) = mf_started f); [|by rewrite Es].
    unfold set_joined, want_joined. by repeat match goal with |- context [if ?b then _ else _] => destruct b end. }
  destruct (line_attempts (line_of f line) joined now) eqn:Ha.
  - destruct (poll_fails f now error (proj1 Hf) Ha He) as (H1 & H2 & _ & H4). split_and!; try done.
    unfold f', set_joined. rewrite wants_idle by done. destruct (_ || _); [done|]. rewrite (proj2 (Z.eqb_neq _ _) He). cbn [negb].
    rewrite is_set_testbit by apply Hline. cbn in Hfail |- *. by rewrite Hfail.
  - assert (E : f' = f); [|by rewrite E]. destruct Hf as [Hf1 Hf2]. apply poll_waits; [done|].
    unfold line_attempts in Ha. rewrite (line_want_idle _ Hf2), Hleft in Ha. apply andb_false_iff in Ha as [Ha|Ha].
    + by destruct joined.
    + apply Z.leb_gt in Ha. done.
Qed.

Lemma polls_quiet f ps : wants f -> ln_failing (line_of f line) = true -> ln_left (line_of f line) = joined ->
  Forall (fun p => snd p <> 0) ps -> (forall e, e <> 0 -> change_membership f line e <> 0) ->
  mf_logged (polls line joined ps f) = mf_logged f.
Proof.
  intros Hf Hfail Hleft Hps. revert f Hf Hfail Hleft. unfold polls. induction Hps as [|p ps Hp _ IH]; intros f Hf Hfail Hleft Hc; [done|]. cbn [fold_left].
  destruct (poll_quiet f (fst p) (snd p) Hf Hfail Hleft (Hc _ Hp)) as (E1 & E2 & E3 & E4 & E5). rewrite IH; try done.
  intros e He. revert E5. unfold change_membership in *.
  pose proof (Hc e He) as Hce. pose proof (Hc _ Hp) as Hcp. unfold change_membership in Hce, Hcp.
  rewrite by_line_set_joined in *. destruct (mf_by_line f !! line); [|done]. destruct (mf_started f); [|done].
  destruct (mf_started _); [done|]. intros E. congruence.
Qed.
End Polling.

(** ** Packets in order *)

Definition packet_bytes (ps : list (Z * bytes)) : Z := zsum (map (fun x => Z.of_nat (List.length (snd x)) + 1) ps).

#[local] Arguments packet_bytes : simpl never.

Lemma packet_bytes_app ps qs : packet_bytes (ps ++ qs) = packet_bytes ps + packet_bytes qs.
Proof. unfold packet_bytes. by rewrite map_app, zsum_app. Qed.

Definition loses (e : FeedEvent) : bool := match e with FeLose (S _) => true | _ => false end.

(** What was handed over and what is still queued, against what was accepted. *)
Record in_order (q0 : list (Z * bytes)) (c0 : Z) (r : FeedRun) : Prop := mkInOrder {
  io_subset : sublist (fr_handed r ++ mf_packets (fr_feed r)) (q0 ++ fr_accepted r);
  io_bytes : u64 (mf_loss_count (fr_feed r) + packet_bytes (fr_handed r ++ mf_packets (fr_feed r)))
             = u64 (c0 + packet_bytes (q0 ++ fr_accepted r))
}.

Lemma u64_shift a b c : u64 (u64 a + b + c) = u64 (a + b + c).
Proof. unfold u64, wrap. rewrite <- !Z.add_assoc. by rewrite Zplus_mod_idemp_l. Qed.

Lemma set_joined_packets f line joined now error :
  mf_packets (set_joined f line joined now error) = mf_packets f /\ mf_loss_count (set_joined f line joined now error) = mf_loss_count f
  /\ mf_max_packets_per_poll (set_joined f line joined now error) = mf_max_packets_per_poll f.
Proof. unfold set_joined, want_joined. by repeat match goal with |- context [if ?b then _ else _] => destruct b end. Qed.

Lemma feed_event_order q0 c0 r e : in_order q0 c0 r -> in_order q0 c0 (feed_event r e).
Proof.
  intros [Hs Hb]. destruct e as [line data|n|line muted|line joined now error| | |]; cbn [feed_event]; try by split.
  - unfold deliver. destruct (is_set _ _); [by split|]. destruct (_ <? _); [by split|]. split; cbn.
    + rewrite !app_assoc. by apply sublist_app.
    + rewrite (app_assoc (fr_handed r)), (app_assoc q0), (packet_bytes_app (fr_handed r ++ _)), (packet_bytes_app (q0 ++ _)), !Z.add_assoc.
      unfold wrap in *. by rewrite <- Zplus_mod_idemp_l, Hb, Zplus_mod_idemp_l.
  - split; cbn.
    + etrans; [|exact Hs]. apply sublist_app; [done|]. apply sublist_drop.
    + rewrite <- Hb, packet_bytes_app, packet_bytes_app. unfold wrap. rewrite Zplus_mod_idemp_l.
      fold (packet_bytes (take n (mf_packets (fr_feed r)))). rewrite <- (take_drop n (mf_packets (fr_feed r))) at 3.
      rewrite packet_bytes_app. f_equal. lia.
  - destruct (set_joined_packets (fr_feed r) line joined now error) as (E1 & E2 & _). split; cbn [fr_feed fr_handed fr_accepted]; by rewrite E1, ?E2.
  - split; cbn; by rewrite <- app_assoc, take_drop.
Qed.

Lemma feed_order q0 c0 r es : in_order q0 c0 r -> in_order q0 c0 (fold_left feed_event es r).
Proof. revert r. induction es as [|e es IH]; intros r Hr; [done|]. cbn [fold_left]. by apply IH, feed_event_order. Qed.

Lemma feed_event_whole q0 r e : loses e = false -> fr_handed r ++ mf_packets (fr_feed r) = q0 ++ fr_accepted r ->
  fr_handed (feed_event r e) ++ mf_packets (fr_feed (feed_event r e)) = q0 ++ fr_accepted (feed_event r e).
Proof.
  intros He Hr. destruct e as [line data|[|n]|line muted|line joined now error| | |]; cbn [feed_event]; try done.
  - unfold deliver. destruct (is_set _ _); [done|]. destruct (_ <? _); [done|]. cbn. by rewrite !app_assoc, Hr.
  - cbn [fr_handed fr_feed fr_accepted]. by rewrite (proj1 (set_joined_packets _ _ _ _ _)).
  - cbn. by rewrite <- app_assoc, take_drop.
Qed.

Lemma feed_whole q0 r es : Forall (fun e => loses e = false) es -> fr_handed r ++ mf_packets (fr_feed r) = q0 ++ fr_accepted r ->
  let r' := fold_left feed_event es r in fr_handed r' ++ mf_packets (fr_feed r') = q0 ++ fr_accepted r'.
Proof. intros Hes. revert r. induction Hes as [|e es He _ IH]; intros r Hr; [done|]. cbn [fold_left]. by apply IH, feed_event_whole. Qed.

(** Draining alone empties the queue. *)
Lemma drains_empty n r : (0 < mf_max_packets_per_poll (fr_feed r)) ->
  (List.length (mf_packets (fr_feed r)) <= n * Z.to_nat (mf_max_packets_per_poll (fr_feed r)))%nat ->
  let r' := fold_left feed_event (replicate n FeDrain) r in
  mf_packets (fr_feed r') = [] /\ fr_handed r' = fr_handed r ++ mf_packets (fr_feed r).
Proof.
  intros Hm. revert r Hm. induction n as [|n IH]; intros r Hm Hn.
  - destruct (mf_packets (fr_feed r)) eqn:E; [|cbn in Hn; lia]. cbn. by rewrite E, app_nil_r.
  - cbn [replicate fold_left]. destruct (IH (feed_event r FeDrain)) as [E1 E2]; [done| |].
    { cbn. rewrite length_drop. lia. }
    split; [done|]. rewrite E2. cbn. by rewrite <- app_assoc, take_drop.
Qed.

(** ** The properties *)

(** The membership machine: [set_joined], [mute], [start] and [stop] work on bit masks and
    arrays shared by all the lines. Read line by line, they are a small machine per line: after
    any history of deliveries, losses, drains, mutes, membership polls, starts and stops, the
    bits and the retry time of a line are what that line's own events lead to, whatever the
    other lines did; and a line nobody muted by hand is muted exactly while it is not wanted. *)
Lemma membership_machine f es i : line_range i -> Forall in_range es -> sized f ->
  let grouped := match mf_by_line f !! i with Some _ => true | None => false end in
  line_of (fr_feed (run_feed es f)) i = fold_left (line_event i grouped) es (line_of f i)
  /\ (Forall (fun e => match e with FeMute line _ => line <> i | _ => True end) es ->
      is_set (mf_muted f) i = is_set (mf_wanted_left f) i ->
      is_set (mf_muted (fr_feed (run_feed es f))) i = is_set (mf_wanted_left (fr_feed (run_feed es f))) i).
Proof.
  intros Hi He Hn grouped. pose proof (feed_line (mkRun f [] []) es i Hi He Hn) as E. split; [exact E|].
  intros Hes. rewrite !is_set_testbit by apply Hi. intros Hm. unfold run_feed in *.
  change (ln_muted (line_of (fr_feed (fold_left feed_event es (mkRun f [] []))) i)
          = ln_wanted_left (line_of (fr_feed (fold_left feed_event es (mkRun f [] []))) i)).
  rewrite E. by apply muted_as_wanted.
Qed.

(** C39. A membership that could not be changed: after a failed join or leave at [t], polls of
    the line before its retry time leave the feed exactly as it is (no socket call, no log, no
    change); the first poll from then on whose socket call succeeds leaves the line in the
    state wanted, no longer failing; and however many more polls fail first, whenever they
    come, the streak is logged no further. *)
Theorem membership_recovers f line joined t error early late now : line_range line -> sized f ->
  line_attempts (line_of f line) joined t = true -> change_membership f line error <> 0 ->
  0 <= t -> t + MEMBERSHIP_RETRY_NS < 2 ^ 64 -> t + MEMBERSHIP_RETRY_NS <= now ->
  Forall (fun p => fst p < t + MEMBERSHIP_RETRY_NS) early -> Forall (fun p => snd p <> 0) late ->
  let failed := set_joined f line joined t error in
  polls line joined early failed = failed
  /\ mf_logged (polls line joined late failed) = mf_logged failed
  /\ (let f' := set_joined failed line joined now 0 in
      is_set (mf_left f') line = negb joined /\ is_set (mf_failing f') line = false
      /\ is_set (mf_muted f') line = is_set (mf_muted failed) line
      /\ mf_logged f' = mf_logged failed /\ mf_packets f' = mf_packets f).
Proof.
  intros Hl Hf Ha He Ht Ht' Hnow Hearly Hlate failed.
  destruct (poll_fails line joined Hl f t error Hf Ha He) as (Hw & Hfail & Hretry & Hleft). fold failed in Hw, Hfail, Hretry, Hleft.
  assert (Er : retry_at failed line = t + MEMBERSHIP_RETRY_NS).
  { rewrite Hretry. apply (wrap_small 64). unfold MEMBERSHIP_RETRY_NS in *. lia. }
  split; [apply polls_wait; [done|done|by rewrite Er]|]. split; [|].
  - apply polls_quiet; try done. intros e Hne. revert He. unfold change_membership, failed. rewrite by_line_set_joined.
    destruct (mf_by_line f !! line); [|done].
    assert (Es : mf_started (set_joined f line joined t error) = mf_started f); [|rewrite Es; by destruct (mf_started f)].
    unfold set_joined, want_joined. by repeat match goal with |- context [if ?b then _ else _] => destruct b end.
  - assert (Ha' : line_attempts (line_of failed line) joined now = true).
    { unfold line_attempts. rewrite (line_want_idle joined _ (proj2 Hw)), Hleft. change (ln_retry_at (line_of failed line)) with (retry_at failed line).
      rewrite Er, (proj2 (Z.leb_le _ _) Hnow). by destruct joined. }
    assert (Ec : change_membership failed line 0 = 0) by (unfold change_membership; destruct (_ !! _); [by destruct (mf_started _)|done]).
    destruct (poll_line line joined Hl failed now 0 (proj1 Hw)) as [E _]. rewrite Ec in E. unfold line_join in E.
    rewrite Ha', (line_want_idle joined _ (proj2 Hw)) in E. cbn [negb Z.eqb] in E.
    cbn zeta. rewrite !is_set_testbit by apply Hl.
    pose proof (f_equal ln_left E) as E1. pose proof (f_equal ln_failing E) as E2. pose proof (f_equal ln_muted E) as E3. cbn in E1, E2, E3.
    split_and!; [done|done|done| |].
    + unfold set_joined. rewrite (wants_idle line joined Hl failed Hw), Ec. by destruct (_ || _).
    + rewrite (proj1 (set_joined_packets _ _ _ _ _)). apply set_joined_packets.
Qed.

(** Packets in order: of the packets the queue accepted, those handed to the venue followed
    by those still queued are a subsequence, in the order of acceptance, so nothing is
    reordered, duplicated or made up; every accepted byte (the line's byte included) is handed
    over, queued or in [loss_count]; nothing is missing at all while no receiver laps the
    reader; and draining alone hands over everything queued, in as many polls as its cap
    requires. *)
Lemma packets_in_order f es : mf_packets f = [] ->
  let r := run_feed es f in
  sublist (fr_handed r ++ mf_packets (fr_feed r)) (fr_accepted r)
  /\ u64 (mf_loss_count (fr_feed r) + packet_bytes (fr_handed r ++ mf_packets (fr_feed r))) = u64 (mf_loss_count f + packet_bytes (fr_accepted r))
  /\ (Forall (fun e => loses e = false) es -> fr_handed r ++ mf_packets (fr_feed r) = fr_accepted r)
  /\ (forall n, 0 < mf_max_packets_per_poll (fr_feed r) ->
      (List.length (mf_packets (fr_feed r)) <= n * Z.to_nat (mf_max_packets_per_poll (fr_feed r)))%nat ->
      let r' := fold_left feed_event (replicate n FeDrain) r in
      mf_packets (fr_feed r') = [] /\ fr_handed r' = fr_handed r ++ mf_packets (fr_feed r)).
Proof.
  intros Hq r.
  destruct (feed_order [] (mf_loss_count f) (mkRun f [] []) es) as [Hs Hb]; [split; cbn; by rewrite Hq|].
  split; [done|]. split; [done|]. split; [|intros n; apply drains_empty].
  intros Hes. apply (feed_whole [] (mkRun f [] []) es Hes). cbn. by rewrite Hq.
Qed.

(** ** A concrete feed: two lines with groups, a third without. *)

Definition sample_receiver (line : Z) : Receiver := mkReceiver (str "feed") (str "239.1.1.1") 5000 (str "0.0.0.0") 4194304 line.

Definition sample_feed : MulticastPacketFeed :=
  mkFeed (str "feed") [] 64 2 0 0 0 0 0 0 (replicate 32 0) true [sample_receiver 0; sample_receiver 1]
    (<[0 := sample_receiver 0]> (<[1 := sample_receiver 1]> ∅)) [] [].

Definition sample_events : list FeedEvent :=
  [FeStart; FeDeliver 0 (str "a"); FeSetJoined 1 false 1000 0; FeDeliver 1 (str "b"); FeDeliver 0 (str "c");
   FeSetJoined 1 true 2000 98; FeSetJoined 1 true 3000 0; FeDeliver 1 (str "d"); FeLose 1; FeDrain; FeSetJoined 1 true 200000000 0].

Example sample_feed_runs :
  let r := run_feed sample_events sample_feed in
  fr_handed r = [(0, str "c"); (1, str "d")] /\ mf_left (fr_feed r) = 0 /\ List.length (mf_logged (fr_feed r)) = 1%nat.
Proof. vm_compute. done. Qed.

Lemma membership_machine_witness :
  is_set (mf_muted (fr_feed (run_feed sample_events sample_feed))) 1 = is_set (mf_wanted_left (fr_feed (run_feed sample_events sample_feed))) 1.
Proof.
  apply (membership_machine sample_feed sample_events 1).
  - split; [discriminate|reflexivity].
  - repeat constructor; discriminate.
  - reflexivity.
  - repeat constructor; discriminate.
  - reflexivity.
Defined.

Lemma membership_recovers_witness :
  let failed := set_joined sample_feed 1 false 1000 98 in
  mf_left failed = 0 /\ List.length (mf_logged failed) = 1%nat
  /\ is_set (mf_left (set_joined failed 1 false 200000000 0)) 1 = true.
Proof.
  split; [reflexivity|]. split; [reflexivity|].
  apply (membership_recovers sample_feed 1 false 1000 98 [(2000, 0)] [(300000000, 98)] 200000000);
    [split; [discriminate|reflexivity]|reflexivity|reflexivity|discriminate|discriminate|reflexivity|discriminate
    |repeat constructor|repeat constructor; discriminate].
Defined.

Lemma packets_in_order_witness :
  let r := run_feed (sample_events ++ [FeDeliver 0 (str "e")]) sample_feed in
  List.length (fr_accepted r) = 4%nat /\ mf_loss_count (fr_feed r) = 2
  /\ sublist (fr_handed r ++ mf_packets (fr_feed r)) (fr_accepted r).
Proof.
  split; [reflexivity|]. split; [reflexivity|].
  apply (packets_in_order sample_feed (sample_events ++ [FeDeliver 0 (str "e")])). reflexivity.
Defined.
