(* ===== verification/RestGateway.v ===== *)
(** * What the HTTP gateways share

    Models what [src/venues/coinbase/coinbase_rest_order_gateway.cpp] and
    [src/venues/hyperliquid/hyperliquid_rest_order_gateway.cpp] do alike: a handler runs in a
    [try] block, publishes requests, polls the response queue for the answer while the
    exchange's thread works, and writes one reply. [Action] is that block: a state and a
    result, the state surviving an exception. uWebSockets, JWT and the text of a JSON document
    are libraries; a reply's body is the document, or the text where the code writes one. *)

From S2P Require Import Prelude Types FixedString Orders Messages MatchingConfig MdPublisher.
From S2P Require Import Decimals MessageParsers.

(** ** Effects *)

Definition Action (S A : Type) : Type := S -> result A * S.

#[export] Instance action_ret {S} : MRet (Action S) := fun _ a s => (Ok a, s).
#[export] Instance action_bind {S} : MBind (Action S) := fun _ _ k m s =>
  match m s with
  | (Ok a, s) => k a s
  | (Throw e, s) => (Throw e, s)
  | (Undefined, s) => (Undefined, s)
  end.

Definition lift {S A} (r : result A) : Action S A := fun s => (r, s).
Definition get_state {S} : Action S S := fun s => (Ok s, s).
Definition change {S} (f : S -> S) : Action S unit := fun s => (Ok tt, f s).

Lemma bind_act {S A B} (m : Action S A) (k : A -> Action S B) s :
  (m ≫= k) s = match m s with (Ok a, s) => k a s | (Throw e, s) => (Throw e, s) | (Undefined, s) => (Undefined, s) end.
Proof. done. Qed.

Lemma bind_lift {S A B} (a : A) (k : A -> Action S B) s : (lift (Ok a) ≫= k) s = k a s.
Proof. done. Qed.

(** [mapM] with the effects in order, the first failure ending it. *)
Fixpoint each_in_turn {S A B} (f : A -> Action S B) (l : list A) : Action S (list B) :=
  match l with
  | [] => mret []
  | x :: l => f x ≫= fun y => each_in_turn f l ≫= fun ys => mret (y :: ys)
  end.

(** [holds P m Q E]: started in [P], the action returns a value and a state in [Q] or fails in
    a state in [E]. *)
Definition holds {S A} (P : S -> Prop) (m : Action S A) (Q : A -> S -> Prop) (E : S -> Prop) : Prop :=
  forall s, P s -> match m s with (Ok a, s') => Q a s' | (_, s') => E s' end.

Lemma holds_ret {S A} (a : A) (Q : A -> S -> Prop) E : holds (Q a) (mret a) Q E.
Proof. by intros s. Qed.

Lemma holds_bind {S A B} (P : S -> Prop) (m : Action S A) Q (k : A -> Action S B) R E :
  holds P m Q E -> (forall a, holds (Q a) (k a) R E) -> holds P (m ≫= k) R E.
Proof.
  intros Hm Hk s Hs. rewrite bind_act. specialize (Hm s Hs). destruct (m s) as [[a| |] s']; [by apply Hk|done|done].
Qed.

(** What may fail changes nothing. *)
Lemma holds_try {S A B} (P : S -> Prop) (r : result A) (k : A -> Action S B) Q :
  (forall a, r = Ok a -> holds P (k a) Q P) -> holds P (lift r ≫= k) Q P.
Proof. intros H s Hs. unfold lift. rewrite bind_act. destruct r as [a| |]; [|done..]. by apply (H a). Qed.

Lemma holds_read {S A} (P : S -> Prop) (k : S -> Action S A) Q E :
  (forall s, P s -> holds P (k s) Q E) -> holds P (get_state ≫= k) Q E.
Proof. intros H s Hs. exact (H s Hs s Hs). Qed.

Lemma holds_each {S A B} (P : S -> Prop) (f : A -> Action S B) l :
  (forall x, holds P (f x) (fun _ => P) P) -> holds P (each_in_turn f l) (fun _ => P) P.
Proof.
  intros Hf. induction l as [|x l IH]; cbn; [exact (holds_ret [] (fun _ => P) P)|]. eapply holds_bind; [apply Hf|]. intros y.
  eapply holds_bind; [apply IH|]. intros ys. exact (holds_ret (y :: ys) (fun _ => P) P).
Qed.

(** ** Replies *)

(** [OWhat before] is [before + e.what()], [OEcho] a value of the request. *)
Inductive Out (J : Type) :=
  OText (s : bytes)
| OBool (b : bool)
| ONumber (z : Z)
| ONull
| OArray (l : list (Out J))
| OObject (l : list (bytes * Out J))
| OWhat (before : bytes)
| OEcho (j : J).
Arguments OText {J} s.
Arguments OBool {J} b.
Arguments ONumber {J} z.
Arguments ONull {J}.
Arguments OArray {J} l.
Arguments OObject {J} l.
Arguments OWhat {J} before.
Arguments OEcho {J} j.

(** [Around before after] is [before + e.what() + after]. *)
Inductive HttpBody (J : Type) :=
  Document (d : Out J)
| Text (t : bytes)
| Around (before after : bytes).
Arguments Document {J} d.
Arguments Text {J} t.
Arguments Around {J} before after.

Record HttpReply (J : Type) := mkReply {
  hr_status : bytes;
  hr_body : HttpBody J
}.
Arguments mkReply {J} hr_status hr_body.
Arguments hr_status {J} h.
Arguments hr_body {J} h.

Definition OK_200 : bytes := str "200 OK".
Definition BAD_REQUEST_400 : bytes := str "400 Bad Request".
Definition UNAUTHORIZED_401 : bytes := str "401 Unauthorized".
Definition INTERNAL_500 : bytes := str "500 Internal Server Error".
Definition TIMEOUT_504 : bytes := str "504 Gateway Timeout".

(** The literals of the code: an object of strings, written out. *)
Definition flat_json (members : list (bytes * bytes)) : bytes :=
  str "{" ++ comma_join (map (fun '(k, v) => quoted k ++ str ":" ++ quoted v) members) ++ str "}".

Record HttpRequest := mkHttpRequest {
  hq_header : bytes -> bytes;
  hq_parameter : bytes -> bytes;
  hq_query : bytes -> bytes
}.

(** ** The two queues, seen from a gateway

    [ge_turns requests responses] is what the exchange publishes, poll by poll until the
    handler's deadline, once it has been given [requests] and has published [responses].
    [ge_request_tag], [ge_modify] and [ge_cancel] are what a recycled request slot still
    holds where the handler does not write: its tag, and its bytes read as that message. *)
Class GatewayEnv := {
  ge_clock : nat -> time_t;
  ge_request_tag : nat -> Z;
  ge_modify : nat -> ModifyOrderMessage;
  ge_cancel : nat -> CancelOrderMessage;
  ge_turns : list Request -> list OrderResponse -> list (list OrderResponse)
}.

Record Transport := mkTransport {
  tr_requests : list Request;
  tr_responses : list OrderResponse;
  tr_clock : nat
}.

#[export] Instance Transport_eta : Eta Transport := fun t =>
  mkTransport (tr_requests t) (tr_responses t) (tr_clock t).

Section Transport.
Context {env : GatewayEnv}.

Definition now_ns (t : Transport) : time_t * Transport := (ge_clock (tr_clock t), t <| tr_clock ::= S |>).

(** [reserve], the fields every handler writes, and [publish]. *)
Definition publish_request (symbol : bytes) (body : nat -> RequestBody) (t : Transport) : Request * Transport :=
  let slot := List.length (tr_requests t) in
  let '(now, t) := now_ns t in
  let request := mkRequest now (assign 32 symbol) (ge_request_tag slot) (body slot) in
  (request, t <| tr_requests ::= fun q => q ++ [request] |>).

(** [initial_reading_index]: what is published from now on. *)
Definition initial_reading_index (t : Transport) : nat := List.length (tr_responses t).

(** Poll by poll: something may have been published, one response is read, and either it is
    the awaited one or the handler sleeps. *)
Fixpoint await_response (matches : OrderResponse -> bool) (turns : list (list OrderResponse)) (index : nat)
  (q : list OrderResponse) : option OrderResponse * list OrderResponse :=
  match turns with
  | [] => (None, q)
  | news :: turns =>
      let q := q ++ news in
      match q !! index with
      | None => await_response matches turns index q
      | Some data => if matches data then (Some data, q) else await_response matches turns (S index) q
      end
  end.

Definition wait_for (matches : OrderResponse -> bool) (polls : nat) (index : nat) (t : Transport)
  : option OrderResponse * Transport :=
  let '(r, q) := await_response matches (take polls (ge_turns (tr_requests t) (tr_responses t))) index (tr_responses t) in
  (r, t <| tr_responses := q |>).

Definition wait_until (matches : OrderResponse -> bool) (index : nat) (t : Transport)
  : option OrderResponse * Transport :=
  wait_for matches (List.length (ge_turns (tr_requests t) (tr_responses t))) index t.
End Transport.

(** ** Waiting *)

(** A handler that is answered got the first response it was looking for among those
    published after it took its index; one that is not never had one to read. *)
Lemma await_first matches turns index q r q' :
  await_response matches turns index q = (Some r, q') ->
  exists skipped, (index + List.length skipped < List.length q')%nat
    /\ take (List.length skipped) (drop index q') = skipped /\ q' !! (index + List.length skipped)%nat = Some r
    /\ Forall (fun x => matches x = false) skipped /\ matches r = true /\ exists news, q' = q ++ news.
Proof.
  revert index q. induction turns as [|news turns IH]; intros index q; cbn; [done|].
  destruct ((q ++ news) !! index) as [data|] eqn:E; [destruct (matches data) eqn:Em|].
  - intros [= <- <-]. exists []. cbn. rewrite Nat.add_0_r. apply lookup_lt_Some in E as Hl.
    repeat split; try done. by eexists.
  - intros H. destruct (IH _ _ H) as (sk & H1 & H2 & H3 & H4 & H5 & more & H6). exists (data :: sk). cbn [List.length].
    rewrite <- !Nat.add_succ_comm. split; [done|]. split; [|split; [done|split; [by constructor|split; [done|]]]].
    + assert (E' : q' !! index = Some data) by (rewrite H6; by apply lookup_app_l_Some).
      rewrite (drop_S _ _ _ E'). cbn. by rewrite H2.
    + rewrite H6, <- app_assoc. by eexists.
  - intros H. destruct (IH _ _ H) as (sk & H1 & H2 & H3 & H4 & H5 & more & H6). exists sk.
    repeat split; try done. rewrite H6, <- app_assoc. by eexists.
Qed.

Lemma polls_append matches turns index q : exists news, snd (await_response matches turns index q) = q ++ news.
Proof.
  revert index q. induction turns as [|news turns IH]; intros index q; cbn; [exists []; by rewrite app_nil_r|].
  destruct ((q ++ news) !! index) as [data|]; [destruct (matches data); [by eexists|]|];
    [destruct (IH (S index) (q ++ news)) as [more E]|destruct (IH index (q ++ news)) as [more E]];
    rewrite E, <- app_assoc; by eexists.
Qed.

(** Nothing to match, nothing answered. *)
Lemma await_none matches turns index q : Forall (fun x => matches x = false) (drop index q ++ List.concat turns) ->
  fst (await_response matches turns index q) = None.
Proof.
  revert index q. induction turns as [|news turns IH]; intros index q; cbn; [done|]. rewrite app_assoc.
  intros H. destruct ((q ++ news) !! index) as [data|] eqn:E.
  - assert (Hd : drop index (q ++ news) = data :: drop (S index) (q ++ news)) by by apply drop_S.
    assert (Hq : Forall (fun x => matches x = false) (drop index (q ++ news) ++ List.concat turns)).
    { rewrite Forall_app in H |- *. destruct H as [H1 H2]. split; [|done]. rewrite Forall_app in H1. destruct H1 as [H1 H3].
      rewrite drop_app. apply Forall_app. split; [done|]. by apply Forall_drop. }
    rewrite Hd in Hq. cbn in Hq. apply Forall_cons in Hq as [Hm Hq]. rewrite Hm. by apply IH.
  - apply IH. apply lookup_ge_None in E. rewrite drop_ge in H |- * by (rewrite ?length_app in *; lia). cbn in H |- *.
    by apply Forall_app in H as [_ H].
Qed.

(** If the next response to come is the awaited one, the handler gets it however long it
    takes within its polls. *)
Lemma await_next matches r rest turns q : matches r = true -> List.concat turns = r :: rest ->
  exists q', await_response matches turns (List.length q) q = (Some r, q').
Proof.
  intros Hm. revert q. induction turns as [|news turns IH]; intros q; cbn; [done|]. destruct news as [|x news]; cbn.
  - intros E. rewrite app_nil_r. rewrite (lookup_ge_None_2 q) by done. by apply IH.
  - intros [= -> E]. rewrite lookup_app_r, Nat.sub_diag by done. cbn. rewrite Hm. by eexists.
Qed.
