(* ===== verification/CoinbaseOrderJson.v ===== *)
(** * Coinbase's JSON for an order

    Models [src/venues/coinbase/coinbase_common.hpp]: an order as the REST listing and the
    snapshot of the user channel show it, a document that nlohmann writes out; before it
    [std::round], the six-place text of a double by [std::to_string], the comparison of
    doubles with literals and the tick-size test [is_multiple_of] of
    [coinbase_rest_order_gateway.cpp]. The sign [printf] gives a NaN is the platform's;
    here it has none. *)

From S2P Require Import Prelude Types FixedString Timestamp Orders Decimals Messages MatchingConfig.
From S2P Require Import MdPublisher MessageParsers RestGateway.

(** A double written in the source as [m * 10^e]. *)
Definition literal (m e : Z) : Types.double := of_decimal false m e.

Definition signed (s : bool) (z : Z) : Z := if s then - z else z.

(** Halves away from zero; an integer that fits 53 bits is exact. *)
Definition round_away (d : Types.double) : Types.double :=
  match d with
  | S754_finite s m e =>
      if 0 <=? e then d
      else match (2 * Zpos m + 2 ^ (- e)) / 2 ^ (1 - e) with
           | 0 => S754_zero s
           | n => double_of_Z (signed s n)
           end
  | _ => d
  end.

Definition is_multiple_of (value increment : Types.double) : bool :=
  if SFltb increment (literal 1 (-12)) then true
  else
    let ratio := SFdiv prec emax value increment in
    SFltb (SFabs (SFsub prec emax ratio (round_away ratio))) (literal 1 (-6)).

(** [n / d], halves to even: how [printf] rounds. *)
Definition div_even (n d : Z) : Z :=
  let q := n / d in
  match Z.compare (2 * (n mod d)) d with
  | Lt => q
  | Gt => q + 1
  | Eq => if Z.even q then q else q + 1
  end.

Definition six_places (s : bool) (n : Z) : bytes :=
  (if s then str "-" else []) ++ dec_digits 320 (n / 10 ^ 6) [] ++ str "."
  ++ frac_digits 6 (n mod 10 ^ 6) [].

Definition double_to_string (d : Types.double) : bytes :=
  match d with
  | S754_zero s => six_places s 0
  | S754_infinity s => (if s then str "-" else []) ++ str "inf"
  | S754_nan => str "nan"
  | S754_finite s m e =>
      six_places s (if 0 <=? e then Zpos m * 2 ^ e * 10 ^ 6 else div_even (Zpos m * 10 ^ 6) (2 ^ (- e)))
  end.

Example text_third : double_to_string (SFdiv prec emax (double_of_Z 2) (double_of_Z 3)) = str "0.666667".
Proof. vm_compute. reflexivity. Qed.
Example text_price : double_to_string (to_price_double 6000000000000) = str "60000.000000".
Proof. vm_compute. reflexivity. Qed.
Example text_large : double_to_string (literal 1 22) = str "10000000000000000000000.000000".
Proof. vm_compute. reflexivity. Qed.
Example text_negative : double_to_string (SFopp (to_price_double 50000000)) = str "-0.500000".
Proof. vm_compute. reflexivity. Qed.
Example rounds : map (fun z => round_away (SFdiv prec emax (double_of_Z z) (double_of_Z 2))) [5; 4; 3; 1; -1; -5]
  = map double_of_Z [3; 2; 2; 1; -1; -3].
Proof. vm_compute. reflexivity. Qed.
Example tick_of_a_cent : map (fun p => is_multiple_of (to_price_double p) (literal 1 (-2))) [5000001000000; 5000001500000; 0]
  = [true; false; true].
Proof. vm_compute. reflexivity. Qed.

Definition to_coinbase_string (tif : TimeInForce) : bytes :=
  match tif with
  | TimeInForce.GOOD_TILL_DATE => str "GOOD_UNTIL_DATE_TIME"
  | TimeInForce.GOOD_TILL_CANCEL => str "GOOD_UNTIL_CANCELLED"
  | TimeInForce.IMMEDIATE_OR_CANCEL => str "IMMEDIATE_OR_CANCEL"
  | TimeInForce.FILL_OR_KILL => str "FILL_OR_KILL"
  | _ => str "UNKNOWN_TIME_IN_FORCE"
  end.

Section OrderJson.
Context {J : Type}.
Implicit Types o : Order.

Definition text_member (key : string) (value : bytes) : bytes * Out J := (str key, OText value).

(** A configuration no branch fills stays null. *)
Definition order_configuration o : Out J :=
  let size := text_member "base_size" (to_qty_string (o_quantity o)) in
  let limit := text_member "limit_price" (to_price_string (o_price o)) in
  match o_type o, o_time_in_force o with
  | OrderType.MARKET, TimeInForce.IMMEDIATE_OR_CANCEL => OObject [(str "market_market_ioc", OObject [size])]
  | OrderType.MARKET, TimeInForce.FILL_OR_KILL => OObject [(str "market_market_fok", OObject [size])]
  | OrderType.LIMIT, TimeInForce.GOOD_TILL_CANCEL =>
      OObject [(str "limit_limit_gtc", OObject [size; limit; (str "post_only", OBool (o_post_only o))])]
  | OrderType.LIMIT, TimeInForce.IMMEDIATE_OR_CANCEL => OObject [(str "sor_limit_ioc", OObject [size; limit])]
  | OrderType.LIMIT, TimeInForce.FILL_OR_KILL => OObject [(str "market_market_fok", OObject [size; limit])]
  | _, _ => ONull
  end.

(** [part / whole * 100]. *)
Definition percentage (part whole : double) : bytes :=
  double_to_string (SFmul prec emax (SFdiv prec emax part whole) (double_of_Z 100)).

(** [now] is when the order is shown: [created_time] is that instant. *)
Definition order_to_json (now : time_t) o : Out J :=
  OObject
    [text_member "order_id" (view (o_order_id o));
     text_member "product_id" (view (o_symbol o));
     text_member "user_id" (view (o_user_id o));
     (str "order_configuration", order_configuration o);
     text_member "side" (side_to_string (o_side o));
     text_member "client_order_id" (view (o_client_order_id o));
     text_member "status" (OrderStatus.order_status_to_string (o_status o));
     text_member "time_in_force" (to_coinbase_string (o_time_in_force o));
     text_member "created_time" (format_time_point now 3);
     text_member "completion_percentage" (percentage (cum_qty_double o) (qty_double o));
     text_member "filled_size" (to_qty_string (o_cum_quantity o));
     text_member "average_filled_price" (to_price_string (o_avg_fill_price o));
     text_member "number_of_fills" (to_string_u64 (o_num_fills o));
     text_member "fee" (double_to_string (o_fee o));
     text_member "filled_value" (double_to_string (o_filled_value o));
     (str "pending_cancel", OBool (o_pending_cancel o));
     (str "size_in_quote", OBool false);
     text_member "total_fee" (double_to_string (o_fee o));
     (str "size_inclusive_of_fees", OBool false);
     text_member "total_value_after_fees" (double_to_string (SFsub prec emax (o_filled_value o) (o_fee o)));
     text_member "trigger_status" (str "UNKNOWN_TRIGGER_STATUS");
     text_member "order_type" (OrderType.order_type_to_string (o_type o));
     text_member "reject_reason" [];
     (str "settled", OBool false);
     text_member "product_type" (ProductType.product_type_to_string (o_product_type o));
     text_member "reject_message" (o_reject_message o);
     text_member "cancel_message" (o_cancel_message o);
     text_member "order_placement_source" (str "UNKNOWN_PLACEMENT_SOURCE");
     text_member "outstanding_hold_amount" [];
     (str "is_liquidation", OBool false);
     text_member "last_fill_time" (match o_last_fill_time o with Some t => format_timestamp_iso8601 t 3 | None => [] end);
     (str "edit_history", OArray []);
     text_member "leverage" [];
     text_member "margin_type" (str "CROSS");
     (str "attached_order_configuration", OArray [ONull]);
     (str "current_pending_replace", OArray [ONull]);
     (str "commission_detail_total", OArray [ONull]);
     text_member "workable_size" (to_qty_string (o_leaves_quantity o));
     text_member "workable_size_completion_pct" (percentage (leaves_qty_double o) (qty_double o))].
End OrderJson.
