(* ===== verification/CoinbaseRest.v ===== *)
(** * Coinbase's REST order gateway

    Models [src/venues/coinbase/coinbase_rest_order_gateway.cpp]: products, authentication,
    the checks before an order is queued, and what each route publishes, waits for and
    answers. Everything a handler remembers is [CoinbaseRest]; it runs on the gateway's only
    thread, so handlers are one after the other, each an [Action] that the exchange's thread
    runs beside. Serving HTTP is uWebSockets', decoding a token jwt-cpp's. *)

From S2P Require Import Prelude Types FixedString Orders Messages MatchingConfig MdPublisher.
From S2P Require Import Decimals MessageParsers JsonAccess OrderStore CoinbaseOrderJson RestGateway.

(** [jwt::decode(token).get_subject()]; [None] is an exception. *)
Class Jwt := jwt_subject : bytes -> option bytes.

(** [sub.substr(sub.rfind('/') + 1)]. *)
Fixpoint after_last_slash (l : bytes) : bytes :=
  match l with
  | [] => []
  | c :: r => if existsb (fun x => bool_decide (x = "/"%char)) r then after_last_slash r
              else if bool_decide (c = "/"%char) then r else l
  end.

Definition unauthorized (message : bytes) : bytes :=
  flat_json [(str "error", str "UNAUTHORIZED"); (str "message", message)].

Definition authenticate {jwt : Jwt} (req : HttpRequest) : bytes + bytes :=
  let auth_header := match hq_header req (str "authorization") with
                     | [] => hq_header req (str "Authorization") | h => h end in
  match auth_header with
  | [] => inr (unauthorized (str "Authorization header required"))
  | _ =>
      match strip_prefix (str "Bearer ") auth_header with
      | None => inr (unauthorized (str "Invalid auth token"))
      | Some token => match jwt_subject token with
                      | Some sub => inl (after_last_slash sub)
                      | None => inr (unauthorized (str "Invalid token"))
                      end
      end
  end.

(** ** Filters of the listing *)

Definition lower (c : ascii) : ascii :=
  if (65 <=? char_code c) && (char_code c <=? 90) then char_of (char_code c + 32) else c.

Definition rest_iequals (lhs rhs : bytes) : bool := bytes_eqb (map lower lhs) (map lower rhs).

Definition matches_order_status (filter : bytes) (status : OrderStatus) : bool :=
  if rest_iequals filter (str "OPEN") then
    match status with
    | OrderStatus.NEW | OrderStatus.PARTIALLY_FILLED | OrderStatus.PENDING_NEW
    | OrderStatus.PENDING_CANCEL | OrderStatus.PENDING_REPLACE | OrderStatus.REPLACED => true
    | _ => false
    end
  else rest_iequals filter (OrderStatus.order_status_to_string status).

(** [strtoull] in base 10 and where it stopped; [None] is no conversion, and a value that does
    not fit is the largest. *)
Definition strtoull (text : bytes) : option (Z * bytes) :=
  let '(s, l) := split_sign (skip_spaces text) in
  let '(ds, rest) := span is_digit l in
  if bool_decide (ds = []) then None
  else Some (if 2 ^ 64 <=? dec_value ds then 2 ^ 64 - 1 else if s then u64 (- dec_value ds) else dec_value ds, rest).

(** ** The gateway *)

Record CoinbaseRest (J : Type) := mkCoinbaseRest {
  cr_products_text : bytes;
  cr_product_by_id : gmap bytes J;
  cr_order_id_to_symbol : gmap bytes bytes;
  cr_orders : OrderStore;
  cr_cursor : nat;
  cr_transport : Transport
}.
Arguments mkCoinbaseRest {J}.
Arguments cr_products_text {J} _.
Arguments cr_product_by_id {J} _.
Arguments cr_order_id_to_symbol {J} _.
Arguments cr_orders {J} _.
Arguments cr_cursor {J} _.
Arguments cr_transport {J} _.

#[export] Instance CoinbaseRest_eta {J} : Eta (CoinbaseRest J) := fun g =>
  mkCoinbaseRest (cr_products_text g) (cr_product_by_id g) (cr_order_id_to_symbol g) (cr_orders g) (cr_cursor g) (cr_transport g).

(** The order types of [order_configuration]. *)
Record OrderConfig := mkOrderConfig {
  oc_type : OrderType;
  oc_tif : TimeInForce;
  oc_price : price_t;
  oc_qty : qty_t
}.

Section CoinbaseRest.
Context {J : Type} {json : Json J} {items : JsonItems J} {reader : JsonReader J} {kinds : JsonKinds J}.
Context {jwt : Jwt} {env : GatewayEnv}.
Abbreviation Gateway := (CoinbaseRest J).
Abbreviation Reply := (HttpReply J).

Definition to_qty_result (d : double) : result qty_t :=
  match to_qty_t d with Some q => Ok q | None => Undefined end.

(** [std::stod(j[key].get<std::string>())], scaled. *)
Definition read_double (j : J) (key : bytes) : result double := let* s := get_text j key in std_result (stod s).
Definition read_price (j : J) (key : bytes) : result price_t := let* d := read_double j key in to_price_result d.
Definition read_qty (j : J) (key : bytes) : result qty_t := let* d := read_double j key in to_qty_result d.

(** ** Products *)

Fixpoint index_products (l : list J) (m : gmap bytes J) : result (gmap bytes J) :=
  match l with
  | [] => Ok m
  | prod :: l => let* id := get_text prod (str "product_id") in index_products l (<[id := prod]> m)
  end.

(** The constructor's last step; [products] is the configured list or what the venue sent. *)
Definition load_products (products : bytes) : result (gmap bytes J) :=
  match products with
  | [] => Ok ∅
  | _ => match js_parse products with
         | None => Throw BadJson
         | Some j => match js_find j (str "products") with
                     | Some l => index_products (js_items l) ∅
                     | None => if js_is_object j || js_is_null j then Ok ∅ else Throw BadJson
                     end
         end
  end.

Definition product_number (product : J) (key : bytes) : result double :=
  match js_find product key with
  | None => Ok double_zero
  | Some v => match js_get_string v with
              | Some s => std_result (stod s)
              | None => if js_is_number v then Ok (js_get_double v) else Throw BadJson
              end
  end.

Definition positive (d : double) : bool := SFltb (literal 1 (-12)) d.

(** [None] is valid; otherwise the type of the error and its details. *)
Definition validate_order (g : Gateway) (product_id : bytes) (price_d qty_d : double) (order_type : OrderType)
  : result (option (bytes * bytes)) :=
  match cr_product_by_id g !! product_id with
  | None => Ok (Some (str "INVALID_PRODUCT_ID", str "Unknown product: " ++ product_id))
  | Some pj =>
      let* price_inc := product_number pj (str "price_increment") in
      let* base_inc := product_number pj (str "base_increment") in
      let* base_min := product_number pj (str "base_min_size") in
      if bool_decide (order_type <> OrderType.MARKET) && positive price_inc && negb (is_multiple_of price_d price_inc) then
        Ok (Some (str "INVALID_LIMIT_PRICE_POST_ONLY",
                  str "price " ++ double_to_string price_d ++ str " is not a multiple of tick size " ++ double_to_string price_inc))
      else if positive base_min && SFltb qty_d (SFsub prec emax base_min (literal 1 (-9))) then
        Ok (Some (str "INVALID_ORDER_CONFIG",
                  str "qty " ++ double_to_string qty_d ++ str " is below minimum order size " ++ double_to_string base_min))
      else if positive base_inc && negb (is_multiple_of qty_d base_inc) then
        Ok (Some (str "INVALID_ORDER_CONFIG",
                  str "qty " ++ double_to_string qty_d ++ str " is not a multiple of base increment " ++ double_to_string base_inc))
      else Ok None
  end.

(** ** Plumbing *)

Definition on_transport {A} (f : Transport -> A * Transport) : Action Gateway A := fun g =>
  let '(a, t) := f (cr_transport g) in (Ok a, g <| cr_transport := t |>).

Definition error_document (error : bytes) (message : Out J) : Out J :=
  OObject [(str "error", OText error); (str "message", message)].

(** The three [catch] clauses; [Undefined] is outside the model. *)
Definition respond_to (action : Action Gateway Reply) (g : Gateway) : option (Reply * Gateway) :=
  match action g with
  | (Ok reply, g) => Some (reply, g)
  | (Throw BadJson, g) =>
      Some (mkReply BAD_REQUEST_400 (Document (error_document (str "INVALID_ARGUMENT") (OWhat (str "Missing or invalid field: ")))), g)
  | (Throw _, g) =>
      Some (mkReply INTERNAL_500 (Document (error_document (str "INTERNAL_ERROR") (OWhat (str "Unexpected error: ")))), g)
  | (Undefined, _) => None
  end.

(** A [POST] route: who asks, the whole body in its chunks, and the parsed body's handler. *)
Definition post (req : HttpRequest) (chunks : list bytes) (handler : bytes -> J -> Action Gateway Reply) (g : Gateway)
  : option (Reply * Gateway) :=
  match authenticate req with
  | inr error => Some (mkReply UNAUTHORIZED_401 (Text error), g)
  | inl user_id =>
      match js_parse (List.concat chunks) with
      | None => Some (mkReply BAD_REQUEST_400 (Document (error_document (str "INVALID_REQUEST") (OWhat (str "Invalid JSON: ")))), g)
      | Some body => respond_to (handler user_id body) g
      end
  end.

(** ** GET routes *)

Definition get_products (g : Gateway) : Reply := mkReply OK_200 (Text (cr_products_text g)).

Definition handle_get_product (g : Gateway) (req : HttpRequest) : Reply :=
  match cr_product_by_id g !! hq_parameter req (str "product_id") with
  | Some product => mkReply OK_200 (Document (OEcho product))
  | None => mkReply BAD_REQUEST_400
              (Text (flat_json [(str "error", str "INVALID_ARGUMENT"); (str "error_details", str "valid product_id is required");
                                (str "message", str "valid product_id is required")]))
  end.

Definition DRAIN_BATCH : nat := Z.to_nat 4096.

(** [orders_.drain()]. *)
Definition catch_up (g : Gateway) : Gateway :=
  let '(now, t) := now_ns (cr_transport g) in
  let '(orders, unread) := drain now (cr_orders g) (Some (drop (cr_cursor g) (tr_responses t))) DRAIN_BATCH in
  g <| cr_transport := t |> <| cr_orders := orders |>
    <| cr_cursor := (List.length (tr_responses t) - List.length (default [] unread))%nat |>.

Definition listed_by (product_id order_side order_status : bytes) (o : Order) : bool :=
  (bool_decide (product_id = []) || bytes_eqb product_id (view (o_symbol o)))
  && (bool_decide (order_side = []) || rest_iequals order_side (side_to_string (o_side o)))
  && (bool_decide (order_status = []) || matches_order_status order_status (o_status o)).

Definition parse_limit (limit_param : bytes) : option (option Z) :=
  match limit_param with
  | [] => Some None
  | _ => match strtoull (view limit_param) with
         | Some (n, []) => Some (Some n)
         | _ => None
         end
  end.

Definition at_most (limit : option Z) (l : list Order) : list Order :=
  match limit with
  | None => l
  | Some n => if n <? Z.of_nat (List.length l) then take (Z.to_nat n) l else l
  end.

Definition handle_get_orders (req : HttpRequest) (g : Gateway) : Reply * Gateway :=
  match authenticate req with
  | inr error => (mkReply UNAUTHORIZED_401 (Text error), g)
  | inl user_id =>
      match parse_limit (hq_query req (str "limit")) with
      | None => (mkReply BAD_REQUEST_400
                   (Text (flat_json [(str "error", str "INVALID_ARGUMENT"); (str "error_details", str "limit must be a number");
                                     (str "message", str "limit must be a number")])), g)
      | Some limit =>
          let g := catch_up g in
          let kept := List.filter (listed_by (hq_query req (str "product_id")) (hq_query req (str "order_side"))
                                     (hq_query req (str "order_status"))) (orders_of (cr_orders g) user_id) in
          let '(now, t) := now_ns (cr_transport g) in
          (mkReply OK_200 (Document (OObject [(str "orders", OArray (map (order_to_json now) (at_most limit kept)));
                                              (str "sequence", OText (str "0")); (str "has_next", OBool false);
                                              (str "cursor", OText [])])),
           g <| cr_transport := t |>)
      end
  end.

(** ** Creating an order *)

(** [None] is an unsupported configuration. *)
Definition parse_order_configuration (config : option J) : result (option OrderConfig) :=
  let variant key := config ≫= fun j => js_find j (str key) in
  match variant "limit_limit_gtc"%string with
  | Some cfg =>
      let* qty := read_qty cfg (str "base_size") in
      let* price := read_price cfg (str "limit_price") in
      Ok (Some (mkOrderConfig OrderType.LIMIT TimeInForce.GOOD_TILL_CANCEL price qty))
  | None =>
  match variant "market_market_ioc"%string with
  | Some cfg =>
      let* qty := read_qty cfg (str "base_size") in
      Ok (Some (mkOrderConfig OrderType.MARKET TimeInForce.IMMEDIATE_OR_CANCEL NULL_PRICE qty))
  | None =>
  match variant "sor_limit_ioc"%string with
  | Some cfg =>
      let* qty := read_qty cfg (str "base_size") in
      let* price := read_price cfg (str "limit_price") in
      Ok (Some (mkOrderConfig OrderType.LIMIT TimeInForce.IMMEDIATE_OR_CANCEL price qty))
  | None =>
  match variant "market_market_fok"%string with
  | Some cfg =>
      let* qty := read_qty cfg (str "base_size") in
      if contains cfg (str "limit_price") then
        let* price := read_price cfg (str "limit_price") in
        Ok (Some (mkOrderConfig OrderType.LIMIT TimeInForce.FILL_OR_KILL price qty))
      else Ok (Some (mkOrderConfig OrderType.MARKET TimeInForce.FILL_OR_KILL NULL_PRICE qty))
  | None => Ok None
  end end end end.

Definition refused_order (message details : bytes) : Reply :=
  mkReply BAD_REQUEST_400
    (Document (OObject [(str "success", OBool false);
       (str "error_response", OObject [(str "message", OText message); (str "error_details", OText details);
                                       (str "new_order_failure_reason", OText message)])])).

Definition UNSUPPORTED : bytes := str "Unsupported order_configuration type".

Definition add_message (user_id client_order_id : bytes) (side : Side) (c : OrderConfig) : AddOrderMessage :=
  mkAddOrder (assign 37 user_id) (assign 37 client_order_id) side (oc_type c) (oc_tif c) (oc_price c) (oc_qty c)
    NULL_PRICE NULL_PRICE 0.

(** Five seconds of polls a hundred microseconds apart. *)
Definition CREATE_POLLS : nat := Z.to_nat (5000 * 1000 / 100).

Definition user_of (r : OrderResponse) : bytes := view (id_user_id (r_identity r)).
Definition client_id_of (r : OrderResponse) : bytes := view (id_client_order_id (r_identity r)).

(** The response a creation waits for. *)
Definition answers_create (user_id client_order_id : bytes) (r : OrderResponse) : bool :=
  bytes_eqb (user_of r) user_id && bytes_eqb (client_id_of r) client_order_id.

Definition TIMED_OUT : Reply :=
  mkReply TIMEOUT_504 (Text (flat_json [(str "error", str "TIMEOUT"); (str "message", str "Order processing timeout")])).

(** The two assertions on the response are only checked in debug builds. *)
Definition answer_create (product_id side_str client_order_id : bytes) (order_config : J) (matched : option OrderResponse)
  : Action Gateway Reply :=
  match matched with
  | None => mret TIMED_OUT
  | Some r =>
      if bool_decide (r_order_status r = OrderStatus.REJECTED) then
        let reason := OrdReject.ord_reject_to_string (r_reject_reason r) in
        mret (refused_order reason (match view (r_error_message r) with [] => reason | m => m end))
      else
        let order_id := report_id r in
        change (fun g => match order_id with
                         | [] => g
                         | _ => g <| cr_order_id_to_symbol ::= <[order_id := product_id]> |>
                         end) ≫= fun _ =>
        mret (mkReply OK_200 (Document (OObject
          [(str "success", OBool true);
           (str "success_response", OObject [(str "order_id", OText order_id); (str "product_id", OText product_id);
                                             (str "side", OText side_str); (str "client_order_id", OText client_order_id)]);
           (str "order_configuration", OEcho order_config)])))
  end.

Definition submit_order (product_id user_id client_order_id : bytes) (side : Side) (c : OrderConfig)
  : Action Gateway (option OrderResponse) :=
  on_transport (fun t =>
    let response_read_index := initial_reading_index t in
    let '(_, t) := publish_request product_id (fun _ => ReqAdd (add_message user_id client_order_id side c)) t in
    wait_for (answers_create user_id client_order_id) CREATE_POLLS response_read_index t).

Definition create_order (user_id : bytes) (body : J) : Action Gateway Reply :=
  lift (get_text body (str "product_id")) ≫= fun product_id =>
  lift (get_text body (str "side")) ≫= fun side_str =>
  lift (get_text body (str "client_order_id")) ≫= fun client_order_id =>
  let order_config := js_find body (str "order_configuration") in
  lift (parse_order_configuration order_config) ≫= fun parsed =>
  match parsed, order_config with
  | Some c, Some order_config =>
      let side := if bytes_eqb side_str (str "BUY") then BUY else SELL in
      let price_d := if oc_price c =? NULL_PRICE then double_zero else to_price_double (oc_price c) in
      get_state ≫= fun g =>
      lift (validate_order g product_id price_d (to_qty_double (oc_qty c)) (oc_type c)) ≫= fun invalid =>
      match invalid with
      | Some (error_type, error_details) => mret (refused_order error_type error_details)
      | None =>
          submit_order product_id user_id client_order_id side c ≫= fun matched =>
          answer_create product_id side_str client_order_id order_config matched
      end
  | _, _ => mret (refused_order UNSUPPORTED UNSUPPORTED)
  end.

Definition handle_create_order (req : HttpRequest) (chunks : list bytes) : Gateway -> option (Reply * Gateway) :=
  post req chunks create_order.

(** ** Cancelling *)

Definition answers_request (user_id : bytes) (request : Request) (r : OrderResponse) : bool :=
  bytes_eqb (user_of r) user_id && (r_request_time r =? req_time_stamp request).

(** The outcome of one id of the batch. *)
Record CancelEntry := mkCancelEntry {
  ce_order_id : bytes;
  ce_submitted : bool;
  ce_reject_reason : OrdRejectReason
}.

Definition cancel_message (user_id order_id : bytes) : CancelOrderMessage :=
  mkCancelOrder (assign 37 user_id) (assign 37 order_id) (clear 37).

Definition cancel_one (user_id : bytes) (oid_json : J) : Action Gateway CancelEntry :=
  lift (match js_get_string oid_json with Some s => Ok s | None => Throw BadJson end) ≫= fun order_id =>
  get_state ≫= fun g =>
  match cr_order_id_to_symbol g !! order_id with
  | None => mret (mkCancelEntry order_id false OrdReject.NONE)
  | Some symbol =>
      on_transport (fun t =>
        let response_read_index := initial_reading_index t in
        let '(request, t) := publish_request symbol (fun _ => ReqCancel (cancel_message user_id order_id)) t in
        wait_until (answers_request user_id request) response_read_index t) ≫= fun data =>
      mret (mkCancelEntry order_id true
              (match data with
               | Some r => if bool_decide (r_order_status r = OrderStatus.REJECTED) then r_reject_reason r else OrdReject.NONE
               | None => OrdReject.NONE
               end))
  end.

Definition cancelled (e : CancelEntry) : bool := ce_submitted e && bool_decide (ce_reject_reason e = OrdReject.NONE).

Definition cancel_result (e : CancelEntry) : Out J :=
  OObject [(str "success", OBool (cancelled e));
           (str "failure_reason", OText (if negb (ce_submitted e) then str "UNKNOWN_ORDER"
                                         else if cancelled e then [] else OrdReject.ord_reject_to_string (ce_reject_reason e)));
           (str "order_id", OText (ce_order_id e))].

Definition forget_cancelled (entries : list CancelEntry) (m : gmap bytes bytes) : gmap bytes bytes :=
  fold_left (fun m e => if cancelled e then delete (ce_order_id e) m else m) entries m.

Definition batch_cancel (user_id : bytes) (body : J) : Action Gateway Reply :=
  lift (if js_is_object body || js_is_null body then Ok tt else Throw BadJson) ≫= fun _ =>
  let order_ids := match js_find body (str "order_ids") with
                   | Some l => if js_is_array l then js_items l else []
                   | None => []
                   end in
  match order_ids with
  | [] => mret (mkReply BAD_REQUEST_400
                  (Text (flat_json [(str "error", str "INVALID_ARGUMENT"); (str "message", str "order_ids must be a non-empty array")])))
  | _ =>
      each_in_turn (cancel_one user_id) order_ids ≫= fun entries =>
      change (fun g => g <| cr_order_id_to_symbol ::= forget_cancelled entries |>) ≫= fun _ =>
      mret (mkReply OK_200 (Document (OObject [(str "results", OArray (map cancel_result entries))])))
  end.

Definition handle_batch_cancel (req : HttpRequest) (chunks : list bytes) : Gateway -> option (Reply * Gateway) :=
  post req chunks batch_cancel.

(** ** Amending *)

Definition edit_failed (reason : bytes) : Reply :=
  mkReply BAD_REQUEST_400
    (Document (OObject [(str "success", OBool false);
                        (str "errors", OArray [OObject [(str "edit_failure_reason", OText reason)]])])).

Definition EDITED : Reply :=
  mkReply OK_200 (Document (OObject [(str "success", OBool true); (str "errors", OArray [])])).

Definition optional {A} (j : J) (key : bytes) (read : J -> bytes -> result A) (otherwise : A) : result A :=
  if contains j key then read j key else Ok otherwise.

(** What is checked of an amendment: the parts it does not name count as zero. *)
Definition validate_edit (g : Gateway) (symbol : bytes) (new_price : price_t) (new_qty : qty_t)
  : result (option (bytes * bytes)) :=
  if (new_price =? NULL_PRICE) && (new_qty =? 0) then Ok None
  else validate_order g symbol (if new_price =? NULL_PRICE then double_zero else to_price_double new_price)
         (if new_qty =? 0 then double_zero else to_qty_double new_qty)
         (if new_price =? NULL_PRICE then OrderType.MARKET else OrderType.LIMIT).

Definition modify_message (user_id order_id : bytes) (new_price : price_t) (new_qty : qty_t) : ModifyOrderMessage :=
  mkModifyOrder (assign 37 user_id) (assign 37 order_id) (clear 37) new_price new_qty.

Definition edit_order (user_id : bytes) (body : J) : Action Gateway Reply :=
  lift (get_text body (str "order_id")) ≫= fun order_id =>
  get_state ≫= fun g =>
  match cr_order_id_to_symbol g !! order_id with
  | None => mret (edit_failed (str "UNKNOWN_ORDER"))
  | Some symbol =>
      lift (optional body (str "price") read_price NULL_PRICE) ≫= fun new_price =>
      lift (optional body (str "size") read_qty 0) ≫= fun new_qty =>
      lift (validate_edit g symbol new_price new_qty) ≫= fun invalid =>
      match invalid with
      | Some (error_type, _) => mret (edit_failed error_type)
      | None =>
          on_transport (fun t =>
            let response_read_index := initial_reading_index t in
            let '(request, t) := publish_request symbol (fun _ => ReqModify (modify_message user_id order_id new_price new_qty)) t in
            wait_until (answers_request user_id request) response_read_index t) ≫= fun data =>
          let reject_reason := match data with
                               | None => OrdReject.UNKNOWN
                               | Some r => if bool_decide (r_order_status r = OrderStatus.REJECTED) then r_reject_reason r
                                           else OrdReject.NONE
                               end in
          mret (if bool_decide (reject_reason = OrdReject.NONE) then EDITED
                else edit_failed (OrdReject.ord_reject_to_string reject_reason))
      end
  end.

Definition handle_edit_order (req : HttpRequest) (chunks : list bytes) : Gateway -> option (Reply * Gateway) :=
  post req chunks edit_order.
End CoinbaseRest.
