(* ===== verification/CoinbaseRestProofs.v ===== *)
(** * What Coinbase's REST clients are told

    The routes of [CoinbaseRest] composed with the exchange of [Exchange]: what a client is
    answered is what the exchange did with its request. Where the code breaks that - an id
    that does not fit its field, an amendment that names only a price or only a size, an
    answer that does not come - the theorem says what happens instead. *)

From S2P Require Import Prelude Types FixedString RingBuffer Orders Messages MarketData.
From S2P Require Import L3Interface L3Lemmas OrderBook OrderBookInv OrderBookOps.
From S2P Require Import Sweep MatchCommon MatchLemmas FifoEngine FifoProofs FifoOrders.
From S2P Require Import ProRata MatchingConfig MatchContract BookState Symbol SymbolProofs.
From S2P Require Import SymbolManager Exchange DeskState L3Reference Concrete.
From S2P Require Import ExchangeProofs MarketProofs Reconcile SystemProofs.
From S2P Require Import MdPublisher Decimals MessageParsers JsonAccess OrderStore CoinbaseOrderJson RestGateway CoinbaseRest.

(** ** The exchange's first response *)

Section FirstResponse.
Context {L3 Pool : Type} {l3ops : L3Ops L3} {laws : L3Laws L3} {poolops : ObjectPool Pool}
  {poollaws : PoolLaws Pool} {env : Environment}.
Abbreviation System := (System L3 Pool).
Implicit Types s : System.

(** What the exchange answers to a new order before anything else. *)
Definition first_answer s (request : Request) (msg : AddOrderMessage) (r : OrderResponse) : Prop :=
  match getSymbol (sys_symbols s) (view (req_symbol request)) (ex_venue (sys_exchange s)) with
  | None => r_order_status r = OrderStatus.REJECTED /\ r_reject_reason r = OrdReject.UNKNOWN_CONTRACT
  | Some i => exists d, desk_at s i = Some d
      /\ if duplicate_id d msg
         then r_order_status r = OrderStatus.REJECTED /\ r_reject_reason r = OrdReject.CLIENT_ORDER_ID_ALREADY_EXISTS
         else r_order_status r = OrderStatus.PENDING_NEW /\ report_id r = view (id_order_id (taken_identity d msg))
  end.

Lemma first_answered s request msg :
  sys_ok s -> sane_request s request -> req_body request = ReqAdd msg ->
  (size (add_user_id msg) <= 36)%nat -> (size (add_client_order_id msg) <= 36)%nat ->
  exists s' r rest, processRequest base_hooks s (Some request) = Some s' /\ sys_responses s' = sys_responses s ++ r :: rest
    /\ user_of r = view (add_user_id msg) /\ client_id_of r = view (add_client_order_id msg) /\ first_answer s request msg r.
Proof.
  intros Hok Hs Hb Hu Hc. unfold processRequest, first_answer. rewrite Hb. unfold with_symbol.
  destruct (getSymbol _ _ _) as [i|] eqn:Ei.
  - destruct (listed_desk s i (so_books _ Hok _ _ Ei)) as [d Hd]. unfold on_desk. rewrite Hd.
    pose proof (Hs i d Ei Hd) as Hsane. rewrite Hb in Hsane.
    destruct (new_order d request msg (so_desks _ Hok i d Hd) Hsane) as (d' & E & _ & H). rewrite E.
    destruct (desk_at_inv s i d Hd) as (_ & _ & _ & Ew). exists (put_desk s d').
    assert (Er : w_responses (d_world d) = sys_responses s) by (rewrite Ew; done).
    destruct (duplicate_id d msg) eqn:Hdup.
    + unfold handleNewOrderRequest in E. fold (duplicate_id d msg) in E.
      change (negb _ && bool_decide _) with (duplicate_id d msg) in E. rewrite Hdup in E. injection E as <-.
      eexists _, []. split; [done|]. split; [cbn; by rewrite Er|]. split; [done|]. split; [done|]. exists d. rewrite Hdup. done.
    + destruct (tk_pending _ _ _ _ H) as (r & rest & R1 & R2 & R3 & R4 & R5). exists r, rest. split; [done|].
      split; [cbn; by rewrite R1, Er|]. unfold user_of, client_id_of. rewrite R5. cbn.
      split; [by apply assign_fits|]. split; [by apply assign_fits|]. exists d. rewrite Hdup. split; [done|]. split; [done|].
      unfold report_id. by rewrite R5.
  - eexists _, _, []. split; [done|]. split; [done|]. done.
Qed.
End FirstResponse.

(** ** Creating an order *)

Section Create.
Context {J : Type} {json : Json J} {items : JsonItems J} {reader : JsonReader J} {kinds : JsonKinds J}.
Context {jwt : Jwt} {genv : GatewayEnv}.
Abbreviation Gateway := (CoinbaseRest J).
Implicit Types g : Gateway.

(** A body whose order passes the gateway's own checks. *)
Record queued g (body : J) (product_id side_str client_order_id : bytes) (config : J) (c : OrderConfig) : Prop := {
  qd_product : get_text body (str "product_id") = Ok product_id;
  qd_side : get_text body (str "side") = Ok side_str;
  qd_client : get_text body (str "client_order_id") = Ok client_order_id;
  qd_config : js_find body (str "order_configuration") = Some config;
  qd_parsed : parse_order_configuration (Some config) = Ok (Some c);
  qd_valid : validate_order g product_id (if oc_price c =? NULL_PRICE then double_zero else to_price_double (oc_price c))
               (to_qty_double (oc_qty c)) (oc_type c) = Ok None
}.

Definition side_named (side_str : bytes) : Side := if bytes_eqb side_str (str "BUY") then BUY else SELL.

Lemma create_queued g user_id body product_id side_str client_order_id config c :
  queued g body product_id side_str client_order_id config c ->
  create_order user_id body g
  = (submit_order product_id user_id client_order_id (side_named side_str) c ≫= fun matched =>
     answer_create product_id side_str client_order_id config matched) g.
Proof.
  intros [H1 H2 H3 H4 H5 H6]. unfold create_order. rewrite H1, bind_lift, H2, bind_lift, H3, bind_lift. cbv zeta.
  rewrite H4, H5, bind_lift. unfold get_state. rewrite bind_act, H6, bind_lift. done.
Qed.

(** The request of a creation, as it is queued. *)
Definition create_request g (product_id : bytes) (msg : AddOrderMessage) : Request :=
  mkRequest (ge_clock (tr_clock (cr_transport g))) (assign 32 product_id)
    (ge_request_tag (List.length (tr_requests (cr_transport g)))) (ReqAdd msg).

(** What the exchange publishes until the handler gives up. *)
Definition published_meanwhile g (request : Request) (polls : nat) : list (list OrderResponse) :=
  take polls (ge_turns (tr_requests (cr_transport g) ++ [request]) (tr_responses (cr_transport g))).

Lemma submit_order_waits g product_id user_id client_order_id side c :
  let msg := add_message user_id client_order_id side c in let request := create_request g product_id msg in
  let waited := await_response (answers_create user_id client_order_id) (published_meanwhile g request CREATE_POLLS)
                  (List.length (tr_responses (cr_transport g))) (tr_responses (cr_transport g)) in
  submit_order product_id user_id client_order_id side c g
  = (Ok (fst waited),
     g <| cr_transport := mkTransport (tr_requests (cr_transport g) ++ [request]) (snd waited) (S (tr_clock (cr_transport g))) |>).
Proof.
  cbv zeta. unfold submit_order, on_transport, publish_request, wait_for, now_ns, published_meanwhile. cbn [fst snd].
  destruct (cr_transport g) as [reqs resps clock] eqn:Et. cbn [tr_requests tr_responses tr_clock upd].
  unfold create_request. rewrite Et. cbn [tr_requests tr_responses tr_clock].
  by destruct (await_response _ _ _ _).
Qed.

(** What the client of a creation is told, given the first response. *)
Definition told (user_id product_id side_str client_order_id : bytes) (config : J) (r : OrderResponse) : HttpReply J :=
  if bool_decide (r_order_status r = OrderStatus.REJECTED) then
    let reason := OrdReject.ord_reject_to_string (r_reject_reason r) in
    refused_order reason (match view (r_error_message r) with [] => reason | m => m end)
  else
    mkReply OK_200 (Document (OObject
      [(str "success", OBool true);
       (str "success_response", OObject [(str "order_id", OText (report_id r)); (str "product_id", OText product_id);
                                         (str "side", OText side_str); (str "client_order_id", OText client_order_id)]);
       (str "order_configuration", OEcho config)])).

(** Which product a later cancellation or amendment of an id is sent to. *)
Definition remembered (product_id : bytes) (r : OrderResponse) (m : gmap bytes bytes) : gmap bytes bytes :=
  if bool_decide (r_order_status r = OrderStatus.REJECTED) then m
  else match report_id r with [] => m | id => <[id := product_id]> m end.

Lemma answer_create_told g user_id product_id side_str client_order_id config r :
  exists g', answer_create product_id side_str client_order_id config (Some r) g
    = (Ok (told user_id product_id side_str client_order_id config r), g')
    /\ cr_order_id_to_symbol g' = remembered product_id r (cr_order_id_to_symbol g)
    /\ cr_transport g' = cr_transport g.
Proof.
  unfold answer_create, told, remembered. case_bool_decide; [by eexists|].
  unfold change. rewrite bind_act. destruct (report_id r); by eexists.
Qed.

(** The handler, when the first response published is the one it waits for. *)
Lemma create_told g user_id body product_id side_str client_order_id config c r rest :
  queued g body product_id side_str client_order_id config c ->
  user_of r = user_id -> client_id_of r = client_order_id ->
  let request := create_request g product_id (add_message user_id client_order_id (side_named side_str) c) in
  List.concat (published_meanwhile g request CREATE_POLLS) = r :: rest ->
  exists g', respond_to (create_order user_id body) g = Some (told user_id product_id side_str client_order_id config r, g')
    /\ tr_requests (cr_transport g') = tr_requests (cr_transport g) ++ [request]
    /\ cr_order_id_to_symbol g' = remembered product_id r (cr_order_id_to_symbol g).
Proof.
  intros Hq Hu Hc request Hp. unfold respond_to. rewrite (create_queued _ _ _ _ _ _ _ _ Hq), bind_act, submit_order_waits. fold request.
  assert (Hm : answers_create user_id client_order_id r = true).
  { unfold answers_create. apply andb_true_iff. by rewrite !bytes_eqb_eq. }
  destruct (await_next _ r rest _ (tr_responses (cr_transport g)) Hm Hp) as (q' & ->). cbn [fst snd].
  edestruct answer_create_told as (g' & -> & Em & Et). exists g'. split; [done|]. rewrite Et, Em. done.
Qed.
End Create.

Section CreateAtExchange.
Context {L3 Pool : Type} {l3ops : L3Ops L3} {laws : L3Laws L3} {poolops : ObjectPool Pool}
  {poollaws : PoolLaws Pool} {env : Environment}.
Context {J : Type} {json : Json J} {items : JsonItems J} {reader : JsonReader J} {kinds : JsonKinds J}.
Context {jwt : Jwt} {genv : GatewayEnv}.

(** A text that a wire field of [n] bytes holds whole. *)
Definition wire_text (n : nat) (s : bytes) : Prop := nul_free s /\ (List.length s < n)%nat.

Lemma wire_view n s : (1 < n)%nat -> wire_text n s -> view (assign n s) = s.
Proof. intros Hn [H1 H2]. rewrite assign_view by (done || lia). apply take_ge. lia. Qed.

End CreateAtExchange.

(** ** Ids that do not fit *)

Section LongIds.
Context {L3 Pool : Type} {l3ops : L3Ops L3} {laws : L3Laws L3} {poolops : ObjectPool Pool}
  {poollaws : PoolLaws Pool} {env : Environment}.
Context {J : Type} {json : Json J} {items : JsonItems J} {reader : JsonReader J} {kinds : JsonKinds J}.
Context {jwt : Jwt} {genv : GatewayEnv}.

(** Texts in a response end within their fields. *)
Definition terminated (r : OrderResponse) : Prop := (FixedString.size (id_client_order_id (r_identity r)) <= 36)%nat.

(** A client order id of more than 36 bytes is queued cut short, and then no response is
    the one the handler compares with the whole id: whatever the exchange does with the order
    - it takes it and may fill it - the client is told after five seconds that the request
    timed out, and the gateway remembers nothing by which the order could be cancelled. *)
Lemma long_client_id_times_out (s : System L3 Pool) (g : CoinbaseRest J) user_id body product_id side_str client_order_id config c :
  sys_ok s -> queued g body product_id side_str client_order_id config c ->
  wire_text 37 user_id -> nul_free client_order_id -> (36 < List.length client_order_id)%nat ->
  let msg := add_message user_id client_order_id (side_named side_str) c in
  let request := create_request g product_id msg in
  sane_request s request -> Forall terminated (List.concat (published_meanwhile g request CREATE_POLLS)) ->
  (exists s' r rest, processRequest base_hooks s (Some request) = Some s' /\ sys_responses s' = sys_responses s ++ r :: rest
     /\ first_answer s request msg r)
  /\ exists g', respond_to (create_order user_id body) g = Some (TIMED_OUT, g')
    /\ tr_requests (cr_transport g') = tr_requests (cr_transport g) ++ [request]
    /\ view (add_client_order_id msg) = take 36 client_order_id
    /\ cr_order_id_to_symbol g' = cr_order_id_to_symbol g.
Proof.
  intros Hok Hq Hu Hn Hl msg request Hs Ht.
  assert (Ec : view (add_client_order_id msg) = take 36 client_order_id) by (apply assign_view; [lia|done]).
  split.
  - destruct (first_answered s request msg Hok Hs eq_refl) as (s' & r & rest & E & Er & _ & _ & Hf); [..|by exists s', r, rest].
    + unfold FixedString.size. change (add_user_id msg) with (assign 37 user_id). rewrite (wire_view 37) by (lia || done). destruct Hu. lia.
    + unfold FixedString.size. rewrite Ec, length_take. lia.
  - unfold respond_to. rewrite (create_queued _ _ _ _ _ _ _ _ Hq), bind_act, submit_order_waits. fold msg request.
    destruct (await_response _ _ _ _) as [found q] eqn:E. cbn [fst snd].
    pose proof (await_none (answers_create user_id client_order_id) (published_meanwhile g request CREATE_POLLS)
      (List.length (tr_responses (cr_transport g))) (tr_responses (cr_transport g))) as Hnone.
    rewrite E in Hnone. cbn [fst] in Hnone. rewrite Hnone; [by eexists|]. rewrite drop_all. cbn [app].
    eapply Forall_impl; [exact Ht|]. intros r Hr. unfold answers_create. apply andb_false_iff. right.
    apply not_true_iff_false. rewrite bytes_eqb_eq. intros <-. unfold terminated, FixedString.size in Hr. unfold client_id_of in Hl. lia.
Qed.
End LongIds.

(** ** Amendments that name only one of the two *)

Section PartialEdits.
Context {J : Type} {json : Json J} {items : JsonItems J} {reader : JsonReader J} {kinds : JsonKinds J}.
Context {jwt : Jwt} {genv : GatewayEnv}.

(** The numbers of a product with a smallest order. *)
Record has_minimum (product : J) : Prop := {
  hm_tick : exists d, product_number product (str "price_increment") = Ok d;
  hm_step : exists d, product_number product (str "base_increment") = Ok d;
  hm_least : exists d, product_number product (str "base_min_size") = Ok d /\ positive d = true
    /\ SFltb double_zero (SFsub prec emax d (literal 1 (-9))) = true
}.

Lemma validate_zero g symbol product price_d type : cr_product_by_id g !! symbol = Some product -> has_minimum product ->
  exists error, validate_order g symbol price_d double_zero type = Ok (Some error).
Proof.
  intros Hp [(p & Ep) (b & Eb) (m & Em & Hm & Hz)]. unfold validate_order. rewrite Hp, Ep, Eb, Em. cbn [rbind].
  rewrite Hm, Hz. cbn [andb]. case_match; by eexists.
Qed.

(** An amendment through the gateway has to name both the price and the size. One that names
    only a price is validated as if it asked for a size of zero, so for any product with a
    smallest order it is refused and nothing is sent. One that names only a size is sent with
    the null price, which to the engines is no limit at all: the amended order may trade at
    any price on the book. *)
Lemma partial_edits_misfire (g : CoinbaseRest J) user_id body order_id symbol product :
  get_text body (str "order_id") = Ok order_id -> cr_order_id_to_symbol g !! order_id = Some symbol ->
  cr_product_by_id g !! symbol = Some product -> has_minimum product ->
  (forall p, contains body (str "price") = true -> read_price body (str "price") = Ok p -> p <> NULL_PRICE ->
     contains body (str "size") = false -> exists reason, respond_to (edit_order user_id body) g = Some (edit_failed reason, g))
  /\ (forall q, contains body (str "size") = true -> read_qty body (str "size") = Ok q -> contains body (str "price") = false ->
        validate_edit g symbol NULL_PRICE q = Ok None ->
        exists reply g' request, respond_to (edit_order user_id body) g = Some (reply, g')
          /\ tr_requests (cr_transport g') = tr_requests (cr_transport g) ++ [request]
          /\ req_body request = ReqModify (modify_message user_id order_id NULL_PRICE q))
  /\ (forall side level_price, beyond_limit side level_price NULL_PRICE = false).
Proof.
  intros Hid Hm Hp Hmin. split; [|split; [|done]].
  - intros p Hc Hr Hne Hs. unfold respond_to, edit_order. rewrite Hid, bind_lift. unfold get_state. rewrite bind_act, Hm.
    unfold optional. rewrite Hc, Hr, bind_lift, Hs, bind_lift. unfold validate_edit.
    rewrite (proj2 (Z.eqb_neq p NULL_PRICE) Hne). cbn [andb]. rewrite Z.eqb_refl.
    destruct (validate_zero g symbol product (to_price_double p) OrderType.LIMIT Hp Hmin) as [[reason details] E].
    rewrite E, bind_lift. by exists reason.
  - intros q Hc Hr Hs Hv. unfold respond_to, edit_order. rewrite Hid, bind_lift. unfold get_state. rewrite bind_act, Hm.
    unfold optional. rewrite Hs, bind_lift, Hc, Hr, bind_lift, Hv, bind_lift. unfold on_transport. rewrite bind_act.
    unfold publish_request, now_ns. destruct (cr_transport g) as [reqs resps clock]. cbn [tr_requests tr_responses tr_clock upd].
    unfold wait_until, wait_for. cbn [tr_requests tr_responses tr_clock upd].
    destruct (await_response _ _ _ _) as [found l]. cbn [mret action_ret]. eexists _, _, _. split; [done|]. done.
Qed.
End PartialEdits.

(** ** A concrete gateway at the sample exchange *)

#[export] Instance sample_jwt : Jwt := fun token => Some token.

#[export] Instance sample_kinds : JsonKinds FlatJson := {
  js_is_array j := match j with JObject _ => true | _ => false end;
  js_get_bool j := match j with JInt z => Some (z =? 1) | _ => None end
}.

(** The exchange takes the newest request between the first poll and the second. *)
Definition sample_turns (requests : list Request) (responses : list OrderResponse) : list (list OrderResponse) :=
  match last requests with
  | None => []
  | Some request => match processRequest base_hooks sample_system (Some request) with
                    | Some s' => [[]; sys_responses s']
                    | None => []
                    end
  end.

#[export] Instance sample_gateway_env : GatewayEnv := {
  ge_clock n := 1000 + Z.of_nat n;
  ge_request_tag n := 0;
  ge_modify n := mkModifyOrder (clear 37) (clear 37) (clear 37) 0 0;
  ge_cancel n := mkCancelOrder (clear 37) (clear 37) (clear 37);
  ge_turns := sample_turns
}.

Definition sample_product : FlatJson :=
  JObject [(str "product_id", JString (str "BTC-USD")); (str "price_increment", JString (str "0.01"));
           (str "base_increment", JString (str "0.00000001")); (str "base_min_size", JString (str "0.0001"))].

Definition sample_rest : CoinbaseRest FlatJson :=
  mkCoinbaseRest [] {[str "BTC-USD" := sample_product]} {[str "7" := str "BTC-USD"]} empty_store 0 (mkTransport [] [] 0).

Definition sample_config_gtc : FlatJson :=
  JObject [(str "limit_limit_gtc", JObject [(str "base_size", JString (str "0.5")); (str "limit_price", JString (str "100.25"))])].

Definition sample_create (client_order_id : bytes) : FlatJson :=
  JObject [(str "product_id", JString (str "BTC-USD")); (str "side", JString (str "BUY"));
           (str "client_order_id", JString client_order_id); (str "order_configuration", sample_config_gtc)].

Definition sample_terms : OrderConfig := mkOrderConfig OrderType.LIMIT TimeInForce.GOOD_TILL_CANCEL 10025000000 50000000.

Lemma sample_queued client_order_id :
  queued sample_rest (sample_create client_order_id) (str "BTC-USD") (str "BUY") client_order_id sample_config_gtc sample_terms.
Proof. split; vm_compute; reflexivity. Qed.

Lemma sample_rest_sane request msg : req_body request = ReqAdd msg -> add_side msg = BUY -> 0 <= add_qty msg ->
  (FixedString.size (add_client_order_id msg) <= 36)%nat -> sane_request sample_system request.
Proof.
  intros Hb H1 H2 H3 i d Hi Hd. rewrite Hb. destruct (desk_at_inv _ _ _ Hd) as (E & _). cbn [sample_system sys_symbols sm_symbols] in E.
  apply list_lookup_singleton_Some in E as [-> _]. rewrite sample_desk_at in Hd. apply (inj Some) in Hd as <-.
  split; [left; congruence|done|done|vm_compute; reflexivity|vm_compute; repeat split; congruence|vm_compute; repeat split; congruence|].
  exact sample_desk_fits.
Qed.

Lemma wire_of_string s : forallb (fun c => negb (bool_decide (c = NUL))) s = true -> nul_free s.
Proof. rewrite forallb_forall. intros H. apply Forall_forall. intros c Hc%list_elem_of_In%H. by bool_to_prop. Qed.

Lemma some_polls : (2 <= CREATE_POLLS)%nat.
Proof. unfold CREATE_POLLS. apply Nat2Z.inj_le. rewrite Z2Nat.id by done. done. Qed.

Lemma sample_published client_order_id s' : let msg := add_message (str "alice") client_order_id (side_named (str "BUY")) sample_terms in
  let request := create_request sample_rest (str "BTC-USD") msg in
  processRequest base_hooks sample_system (Some request) = Some s' ->
  List.concat (published_meanwhile sample_rest request CREATE_POLLS) = sys_responses s'.
Proof.
  cbv zeta. intros E. unfold published_meanwhile. change (ge_turns ?a ?b) with (sample_turns a b). unfold sample_turns.
  cbn [sample_rest cr_transport tr_requests tr_responses app]. cbn [last]. rewrite E.
  rewrite take_ge by (pose proof some_polls; cbn; lia). cbn. by rewrite app_nil_r.
Qed.


Definition long_id : bytes := str "0123456789012345678901234567890123456789".

Definition long_request : Request :=
  create_request sample_rest (str "BTC-USD") (add_message (str "alice") long_id (side_named (str "BUY")) sample_terms).

Lemma long_terminated :
  (fun s' => forallb (fun r => Nat.leb (FixedString.size (id_client_order_id (r_identity r))) 36) (sys_responses s'))
    <$> processRequest base_hooks sample_system (Some long_request) = Some true.
Proof. vm_compute. reflexivity. Qed.

Lemma long_client_id_times_out_witness :
  let msg := add_message (str "alice") long_id (side_named (str "BUY")) sample_terms in
  let request := create_request sample_rest (str "BTC-USD") msg in
  (exists s' r rest, processRequest base_hooks sample_system (Some request) = Some s' /\ sys_responses s' = r :: rest
     /\ first_answer sample_system request msg r)
  /\ exists g', respond_to (create_order (str "alice") (sample_create long_id)) sample_rest = Some (TIMED_OUT, g')
    /\ tr_requests (cr_transport g') = [request]
    /\ view (add_client_order_id msg) = take 36 long_id
    /\ cr_order_id_to_symbol g' = {[str "7" := str "BTC-USD"]}.
Proof.
  intros msg request. assert (Hs : sane_request sample_system request).
  { apply (sample_rest_sane request msg); [done|done|done|]. apply Nat.leb_le. vm_compute. reflexivity. }
  apply (long_client_id_times_out sample_system sample_rest (str "alice") (sample_create long_id) _ _ _ sample_config_gtc).
  - exact sample_system_ok.
  - apply sample_queued.
  - split; [apply wire_of_string; reflexivity|]. apply Nat.ltb_lt. reflexivity.
  - apply wire_of_string. reflexivity.
  - apply Nat.ltb_lt. reflexivity.
  - exact Hs.
  - pose proof long_terminated as Ht. destruct (processRequest base_hooks sample_system (Some long_request)) as [s'|] eqn:E; [|done].
    rewrite (sample_published long_id s' E). injection Ht as Ht. rewrite forallb_forall in Ht. apply Forall_forall.
    intros r Hr%list_elem_of_In%Ht. by apply Nat.leb_le.
Defined.

Definition sample_edit (members : list (bytes * FlatJson)) : FlatJson := JObject ((str "order_id", JString (str "7")) :: members).

Lemma sample_has_minimum : has_minimum sample_product.
Proof.
  split; [eexists; vm_compute; reflexivity..|]. eexists. split; [vm_compute; reflexivity|]. split; vm_compute; reflexivity.
Qed.

Lemma partial_edits_misfire_witness :
  (exists reason, respond_to (edit_order (str "alice") (sample_edit [(str "price", JString (str "101"))])) sample_rest
     = Some (edit_failed reason, sample_rest))
  /\ exists reply g' request, respond_to (edit_order (str "alice") (sample_edit [(str "size", JString (str "0.25"))])) sample_rest
          = Some (reply, g') /\ tr_requests (cr_transport g') = [request]
       /\ req_body request = ReqModify (modify_message (str "alice") (str "7") NULL_PRICE 25000000).
Proof.
  assert (Hid : forall members, get_text (sample_edit members) (str "order_id") = Ok (str "7")) by (intros members; vm_compute; reflexivity).
  assert (Hm : cr_order_id_to_symbol sample_rest !! str "7" = Some (str "BTC-USD")) by (vm_compute; reflexivity).
  assert (Hp : cr_product_by_id sample_rest !! str "BTC-USD" = Some sample_product) by (vm_compute; reflexivity).
  split.
  - refine (proj1 (partial_edits_misfire sample_rest (str "alice") _ (str "7") (str "BTC-USD") sample_product (Hid _) Hm Hp
      sample_has_minimum) 10100000000 _ _ _ _); [vm_compute; reflexivity|vm_compute; reflexivity|done|vm_compute; reflexivity].
  - refine (proj1 (proj2 (partial_edits_misfire sample_rest (str "alice") _ (str "7") (str "BTC-USD") sample_product (Hid _) Hm Hp
      sample_has_minimum)) 25000000 _ _ _ _); vm_compute; reflexivity.
Defined.

(** The sample book's client sells at 100. Given only a new size, its order sells at 99. *)
Example resized_below_its_limit :
  let msg := mkModifyOrder client_name (uuid_name 0) (clear 37) NULL_PRICE 8 in
  o_price (order_at desk_world 0) = 100 /\ o_side (order_at desk_world 0) = SELL
  /\ (fun d => flat_map (fun u => match mdu_data u with PTradeSummary t => [(wts_price t, wts_qty t)] | _ => [] end)
                 (w_md (d_world d))) <$> handleModifyOrderRequest sample_desk (sample_request (ReqModify msg)) msg = Some [(99, 4)].
Proof. vm_compute. auto. Qed.
