(* ===== verification/CoinbaseRestSafety.v ===== *)
(** * Whose orders Coinbase's REST gateway touches

    [served] is any sequence of calls answered by the gateway of [CoinbaseRest], whoever makes
    them and whatever they hold. What the gateway sends the exchange for a caller is traced
    back to what it told its callers before. *)

From S2P Require Import Prelude Types FixedString Orders Messages MatchingConfig MdPublisher.
From S2P Require Import Decimals MessageParsers JsonAccess OrderStore CoinbaseOrderJson RestGateway CoinbaseRest.
From S2P Require Import DeskState CoinbaseRestProofs.

Section Calls.
Context {J : Type} {json : Json J} {items : JsonItems J} {reader : JsonReader J} {kinds : JsonKinds J}.
Context {jwt : Jwt} {genv : GatewayEnv}.
Abbreviation Gateway := (CoinbaseRest J).
Abbreviation Reply := (HttpReply J).

Inductive Route := GetProduct | GetOrders | CreateOrder | BatchCancel | EditOrder.

Record Call := mkCall { cl_route : Route; cl_request : HttpRequest; cl_chunks : list bytes }.

Definition serve (call : Call) (g : Gateway) : option (Reply * Gateway) :=
  match cl_route call with
  | GetProduct => Some (handle_get_product g (cl_request call), g)
  | GetOrders => Some (handle_get_orders (cl_request call) g)
  | CreateOrder => handle_create_order (cl_request call) (cl_chunks call) g
  | BatchCancel => handle_batch_cancel (cl_request call) (cl_chunks call) g
  | EditOrder => handle_edit_order (cl_request call) (cl_chunks call) g
  end.

Abbreviation Log := (list (Call * Reply)).

(** A gateway that has just started, with any products. *)
Definition fresh (g : Gateway) : Prop := cr_order_id_to_symbol g = ∅ /\ tr_requests (cr_transport g) = [].

Inductive served : Log -> Gateway -> Prop :=
| ServedNone g : fresh g -> served [] g
| ServedCall log g call reply g' : served log g -> serve call g = Some (reply, g') -> served (log ++ [(call, reply)]) g'.

(** The reply that reports the order [id] of [product]. *)
Definition success_document (id product side client_order_id : bytes) (config : J) : Out J :=
  OObject [(str "success", OBool true);
           (str "success_response", OObject [(str "order_id", OText id); (str "product_id", OText product);
                                             (str "side", OText side); (str "client_order_id", OText client_order_id)]);
           (str "order_configuration", OEcho config)].

Definition reports (id product : bytes) (reply : Reply) : Prop := exists side client_order_id config,
  reply = mkReply OK_200 (Document (success_document id product side client_order_id config)).

Definition created (log : Log) (id product : bytes) : Prop := exists call reply,
  (call, reply) ∈ log /\ cl_route call = CreateOrder /\ reports id product reply.

Definition asked (log : Log) (user_id : bytes) : Prop := exists call reply,
  (call, reply) ∈ log /\ authenticate (cl_request call) = inl user_id.

(** A request for one of [users], about one of the orders [known]. *)
Definition traced (users : bytes -> Prop) (known : bytes -> bytes -> Prop) (request : Request) : Prop :=
  match req_body request with
  | ReqAdd m => exists user_id, users user_id /\ add_user_id m = assign 37 user_id
  | ReqCancel m => exists user_id id product, users user_id /\ known id product
      /\ m = cancel_message user_id id /\ req_symbol request = assign 32 product
  | ReqModify m => exists user_id id product price qty, users user_id /\ known id product
      /\ m = modify_message user_id id price qty /\ req_symbol request = assign 32 product
  | _ => False
  end.

Record traceable (users : bytes -> Prop) (known : bytes -> bytes -> Prop) (g : Gateway) : Prop := {
  tc_known : forall id product, cr_order_id_to_symbol g !! id = Some product -> known id product;
  tc_requests : Forall (traced users known) (tr_requests (cr_transport g))
}.

Lemma traced_weaken (users users' : bytes -> Prop) (known known' : bytes -> bytes -> Prop) r :
  (forall u, users u -> users' u) -> (forall id p, known id p -> known' id p) ->
  traced users known r -> traced users' known' r.
Proof.
  intros Hu Hk. unfold traced. destruct (req_body r); [intros (u & ? & ?); exists u; auto|intros (u & id & p & x & q & ? & ? & ?); by exists u, id, p, x, q; auto
    |intros (u & id & p & ? & ? & ?); by exists u, id, p; auto|done..].
Qed.

Lemma traceable_weaken (users users' : bytes -> Prop) (known known' : bytes -> bytes -> Prop) g :
  (forall u, users u -> users' u) -> (forall id p, known id p -> known' id p) ->
  traceable users known g -> traceable users' known' g.
Proof.
  intros Hu Hk [T1 T2]. split; [eauto|]. eapply Forall_impl; [exact T2|]. intros r. by apply traced_weaken.
Qed.

Section Steps.
Variables (users : bytes -> Prop) (known : bytes -> bytes -> Prop).
Abbreviation I := (traceable users known).

(** Queueing a traced request and waiting. *)
Lemma send_traced {A} symbol body (wait : Transport -> Request -> Transport -> A * Transport) :
  (forall slot request, req_body request = body slot -> req_symbol request = assign 32 symbol -> traced users known request) ->
  (forall t0 request t, tr_requests (snd (wait t0 request t)) = tr_requests t) ->
  holds I (on_transport (fun t0 => let '(request, t) := publish_request symbol body t0 in wait t0 request t)) (fun _ => I) I.
Proof.
  intros Hb Hw g [T1 T2]. unfold on_transport, publish_request, now_ns. cbn [upd].
  specialize (Hw (cr_transport g) (mkRequest (ge_clock (tr_clock (cr_transport g))) (assign 32 symbol) (ge_request_tag (List.length (tr_requests (cr_transport g))))
    (body (List.length (tr_requests (cr_transport g))))) ). destruct (cr_transport g) as [reqs resps clock] eqn:Et.
  cbn [tr_requests tr_clock tr_responses upd] in *. set (request := mkRequest _ _ _ _) in *. specialize (Hw (mkTransport (reqs ++ [request]) resps (S clock))).
  cbn in Hw |- *. destruct (wait _ request _) as [a t]. cbn in Hw. split; [exact T1|]. cbn. rewrite Hw. apply Forall_app.
  split; [exact T2|]. constructor; [|constructor]. by eapply Hb.
Qed.

Lemma wait_requests (matches : OrderResponse -> bool) polls index t : tr_requests (snd (wait_for matches polls index t)) = tr_requests t.
Proof. unfold wait_for. by destruct (await_response _ _ _ _). Qed.

Lemma create_traced user_id body : users user_id ->
  holds I (create_order user_id body)
    (fun reply g => traceable users (fun id p => known id p \/ reports id p reply) g) I.
Proof.
  intros Hu. assert (Hret : forall reply, holds I (mret reply) (fun reply g => traceable users (fun id p => known id p \/ reports id p reply) g) I).
  { intros reply g Hg. cbn. eapply traceable_weaken; [done| |exact Hg]. auto. }
  unfold create_order. apply holds_try. intros product_id _. apply holds_try. intros side_str _. apply holds_try. intros client_order_id _.
  cbv zeta. apply holds_try. intros [c|] _; [|apply Hret].
  destruct (js_find body (str "order_configuration")) as [config|]; [|apply Hret].
  apply holds_read. intros g _. apply holds_try. intros [[e1 e2]|] _; [apply Hret|].
  unfold submit_order. eapply holds_bind with (Q := fun _ => I).
  - apply (send_traced product_id (fun _ => ReqAdd _) (fun t0 _ t => wait_for _ CREATE_POLLS (initial_reading_index t0) t)).
    + intros slot request E _. unfold traced. rewrite E. by exists user_id.
    + intros t0 request t. apply wait_requests.
  - clear g. intros [r|]; [|apply Hret]. intros g Hg.
    destruct (answer_create_told g user_id product_id side_str client_order_id config r) as (g' & E & Em & Et). rewrite E.
    apply (traceable_weaken users users known (fun id p => known id p \/ reports id p (told user_id product_id side_str client_order_id config r))) in Hg;
      [|done|by left]. destruct Hg as [T1 T2]. split; [|by rewrite Et]. intros id p. rewrite Em.
    unfold remembered. case_bool_decide as Hr; [apply T1|]. destruct (report_id r) as [|x l] eqn:Eid; [apply T1|].
    rewrite lookup_insert_Some. intros [[<- <-]|[_ H2]]; [right|by apply T1]. unfold told.
    rewrite bool_decide_eq_false_2, Eid by done. by eexists _, _, _.
Qed.

Lemma cancel_one_traced user_id oid : users user_id -> holds I (cancel_one user_id oid) (fun _ => I) I.
Proof.
  intros Hu. unfold cancel_one. apply holds_try. intros order_id _. apply holds_read. intros g [T1 _].
  destruct (cr_order_id_to_symbol g !! order_id) as [symbol|] eqn:E; [|exact (holds_ret _ (fun _ => I) I)].
  eapply holds_bind; [|intros data; exact (holds_ret _ (fun _ => I) I)].
  apply (send_traced symbol (fun _ => ReqCancel _)
    (fun t0 request t => wait_until (answers_request user_id request) (initial_reading_index t0) t)).
  - intros slot request E1 E2. unfold traced. rewrite E1. exists user_id, order_id, symbol. auto.
  - intros t0 request t. apply wait_requests.
Qed.

Lemma batch_cancel_traced user_id body : users user_id -> holds I (batch_cancel user_id body) (fun _ => I) I.
Proof.
  intros Hu. unfold batch_cancel. apply holds_try. intros _ _. cbv zeta. case_match; [exact (holds_ret _ (fun _ => I) I)|].
  eapply holds_bind; [apply holds_each; intros x; by apply cancel_one_traced|]. intros entries.
  eapply holds_bind with (Q := fun _ => I); [|intros _; exact (holds_ret _ (fun _ => I) I)].
  intros g [T1 T2]. cbn. split; [|exact T2]. cbn. intros id p. revert T1. generalize (cr_order_id_to_symbol g). unfold forget_cancelled.
  clear. induction entries as [|e entries IH]; intros m T1; cbn; [apply T1|]. apply IH. intros id' p'.
  destruct (cancelled e); [|apply T1]. intros [_ H]%lookup_delete_Some. by apply T1.
Qed.

Lemma edit_traced user_id body : users user_id -> holds I (edit_order user_id body) (fun _ => I) I.
Proof.
  intros Hu. unfold edit_order. apply holds_try. intros order_id _. apply holds_read. intros g [T1 _].
  destruct (cr_order_id_to_symbol g !! order_id) as [symbol|] eqn:E; [|exact (holds_ret _ (fun _ => I) I)].
  apply holds_try. intros price _. apply holds_try. intros qty _. apply holds_try. intros [[e1 e2]|] _; [exact (holds_ret _ (fun _ => I) I)|].
  eapply holds_bind; [|intros data; exact (holds_ret _ (fun _ => I) I)].
  apply (send_traced symbol (fun _ => ReqModify _)
    (fun t0 request t => wait_until (answers_request user_id request) (initial_reading_index t0) t)).
  - intros slot request E1 E2. unfold traced. rewrite E1. exists user_id, order_id, symbol, price, qty. auto.
  - intros t0 request t. apply wait_requests.
Qed.
End Steps.

Lemma post_holds (P : Gateway -> Prop) (Q : Reply -> Gateway -> Prop) req chunks handler g reply g' :
  (forall user_id body, authenticate req = inl user_id -> holds P (handler user_id body) Q P) ->
  (forall reply g, P g -> Q reply g) -> P g -> post req chunks handler g = Some (reply, g') -> Q reply g'.
Proof.
  intros Hh Hpq Hg. unfold post, respond_to. destruct (authenticate req) as [user_id|error]; [|intros [= <- <-]; auto].
  destruct (js_parse (List.concat chunks)) as [body|]; [|intros [= <- <-]; auto].
  specialize (Hh user_id body eq_refl g Hg). destruct (handler user_id body g) as [[a|e|] g1]; [|destruct e|done]; intros [= <- <-]; auto.
Qed.

(** Calls one after the other, each with its reply. *)
Fixpoint serve_all (calls : list Call) (log : Log) (g : Gateway) : option (Log * Gateway) :=
  match calls with
  | [] => Some (log, g)
  | call :: calls =>
      match serve call g with
      | Some (reply, g) => serve_all calls (log ++ [(call, reply)]) g
      | None => None
      end
  end.

Lemma serve_all_served calls log g log' g' : served log g -> serve_all calls log g = Some (log', g') -> served log' g'.
Proof.
  revert log g. induction calls as [|call calls IH]; intros log g H; cbn; [by intros [= <- <-]|].
  destruct (serve call g) as [[reply g1]|] eqn:E; [|done]. apply IH. by eapply ServedCall.
Qed.

Lemma serve_traced log g call reply g' :
  traceable (asked log) (created log) g -> serve call g = Some (reply, g') ->
  traceable (asked (log ++ [(call, reply)])) (created (log ++ [(call, reply)])) g'.
Proof.
  set (log' := log ++ [(call, reply)]). intros Hg.
  assert (Hu : forall user_id, authenticate (cl_request call) = inl user_id -> asked log' user_id).
  { intros u Hu. exists call, reply. split; [|done]. apply elem_of_app. right. by left. }
  assert (Hk : forall id p, created log id p -> created log' id p).
  { intros id p (c & r & H1 & H2). exists c, r. split; [|done]. apply elem_of_app. by left. }
  assert (Hg' : traceable (asked log') (created log) g).
  { eapply traceable_weaken; [|done|exact Hg]. intros u (c & r & H1 & H2). exists c, r. split; [|done]. apply elem_of_app. by left. }
  assert (Hsame : forall g2, cr_order_id_to_symbol g2 = cr_order_id_to_symbol g -> tr_requests (cr_transport g2) = tr_requests (cr_transport g) ->
            traceable (asked log') (created log') g2).
  { intros g2 E1 E2. destruct Hg' as [T1 T2]. split; [intros id p; rewrite E1; intros H; by apply Hk, T1|].
    rewrite E2. eapply Forall_impl; [exact T2|]. intros r. apply traced_weaken; auto. }
  unfold serve. destruct (cl_route call) eqn:Er.
  - intros [= <- <-]. by apply Hsame.
  - intros [= E]. unfold handle_get_orders in E. destruct (authenticate _); [|by injection E as <- <-; apply Hsame].
    destruct (parse_limit _) as [limit|]; [|by injection E as <- <-; apply Hsame]. cbv zeta in E. unfold catch_up, now_ns in E. cbn in E.
    injection E as _ <-. by apply Hsame.
  - intros E. eapply (post_holds (traceable (asked log') (created log))
      (fun reply g => traceable (asked log') (fun id p => created log id p \/ reports id p reply) g)) in E; [| | |exact Hg'].
    + eapply traceable_weaken; [done| |exact E]. intros id p [H|H]; [by apply Hk|]. exists call, reply.
      split; [apply elem_of_app; right; by left|done].
    + intros user_id body Ha. by apply create_traced, Hu.
    + intros r g2 Hg2. eapply traceable_weaken; [done| |exact Hg2]. auto.
  - intros E. eapply (post_holds (traceable (asked log') (created log')) (fun _ => traceable (asked log') (created log'))) in E;
      [exact E| |auto|by apply Hsame]. intros user_id body Ha. by apply batch_cancel_traced, Hu.
  - intros E. eapply (post_holds (traceable (asked log') (created log')) (fun _ => traceable (asked log') (created log'))) in E;
      [exact E| |auto|by apply Hsame]. intros user_id body Ha. by apply edit_traced, Hu.
Qed.

(** C29. The gateway keeps to its own orders. Through any sequence of calls, by anybody and
    with any content, every cancellation and amendment it sends the exchange names an order
    id and the product that an earlier reply of its own reported as created, on behalf of a
    user whose token it accepted, and every new order is on behalf of such a user; nothing
    else is ever sent. Products are remembered for reported orders only. *)
Theorem gateway_keeps_to_its_orders log g : served log g ->
  Forall (traced (asked log) (created log)) (tr_requests (cr_transport g))
  /\ forall id product, cr_order_id_to_symbol g !! id = Some product -> created log id product.
Proof.
  intros H. enough (traceable (asked log) (created log) g) as [T1 T2] by done.
  induction H as [g [F1 F2]|log g call reply g' Hs IH E]; [|by eapply serve_traced].
  split; [|by rewrite F2]. intros id product. by rewrite F1, lookup_empty.
Qed.
End Calls.

(** ** A served gateway *)

Definition sample_fresh : CoinbaseRest FlatJson :=
  mkCoinbaseRest [] {[str "BTC-USD" := sample_product]} ∅ empty_store 0 (mkTransport [] [] 0).

Definition sample_headers (name : bytes) : bytes :=
  if bytes_eqb name (str "authorization") then str "Bearer users/alice" else [].

Definition sample_http : HttpRequest := mkHttpRequest sample_headers (fun _ => []) (fun _ => []).

(** The two bodies alice sends: an order, and the cancellation of the id the
    sample exchange gives it. *)
#[export] Instance rest_reader : JsonReader FlatJson := {
  js_parse t := if bytes_eqb t (str "create") then Some (sample_create (str "o7"))
                else if bytes_eqb t (str "cancel") then Some (JObject [(str "order_ids", JObject [(str "0", JString (repeat "B"%char 36))])])
                else None;
  js_is_null j := false;
  js_get_uint64 j := match j with JInt z => Some z | _ => None end
}.

Definition sample_calls : list Call :=
  [mkCall CreateOrder sample_http [str "cre"; str "ate"]; mkCall BatchCancel sample_http [str "cancel"]].

(** Two requests are sent, an order and a cancellation. *)
Lemma sample_calls_served :
  (fun '(log, g) => map (fun r => match req_body r with ReqAdd _ => 0 | ReqCancel _ => 1 | _ => 2 end) (tr_requests (cr_transport g)))
    <$> serve_all sample_calls [] sample_fresh = Some [0; 1].
Proof. vm_compute. reflexivity. Qed.

Lemma gateway_keeps_to_its_orders_witness : exists log g, serve_all sample_calls [] sample_fresh = Some (log, g)
  /\ List.length (tr_requests (cr_transport g)) = 2%nat
  /\ Forall (traced (asked log) (created log)) (tr_requests (cr_transport g))
  /\ forall id product, cr_order_id_to_symbol g !! id = Some product -> created log id product.
Proof.
  pose proof sample_calls_served as H. destruct (serve_all sample_calls [] sample_fresh) as [[log g]|] eqn:E; [|done].
  exists log, g. split; [done|]. split; [injection H as H; by rewrite <- (length_map (fun r => match req_body r with ReqAdd _ => 0 | ReqCancel _ => 1 | _ => 2 end)), H|].
  apply (gateway_keeps_to_its_orders log g), (serve_all_served sample_calls [] sample_fresh); [|exact E].
  apply ServedNone. split; reflexivity.
Defined.
