(* ===== verification/HyperliquidExchange.v ===== *)
(** * The Hyperliquid venue

    Models [src/venues/hyperliquid/hyperliquid_exchange.cpp] and its header, and
    [hyperliquid_live_ws_feed.hpp] and [.cpp]: what the venue's messages do to an instrument,
    which subscribers are answered when, and what the feeds ask of the SDK. A message is the
    JSON document the SDK hands over. The SDK runs its callbacks where [drainEventQueue]
    polls it, so what it hands over in one poll is an argument; the numbers of its
    subscriptions and the decoding of a compressed diff are [HyperliquidSdk]. An exception
    that escapes a handler ends the exchange's thread: a [Throw] has no state. *)

From S2P Require Import Prelude Types FixedString RingBuffer Orders Messages MarketData.
From S2P Require Import L3Interface OrderBook MatchCommon MatchingConfig Symbol SymbolManager Exchange.
From S2P Require Import Decimals MessageParsers JsonAccess Instruments L2Diff HyperliquidPublisher CoinbaseFeed.

(** [hyperliquid::decode_l2_diff], where [None] is an exception, and the number the SDK
    gives its n-th subscription. *)
Class HyperliquidSdk (J : Type) := {
  decode_l2_diff : bytes -> option J;
  subscription_id : nat -> Z
}.

Inductive FeedEventType := FEED_L2_BOOK | FEED_TRADES.

Definition to_milli_ns (event_time_ms : Z) : Z := u64 (event_time_ms * ONE_MILLISECOND_NS).

(** ** The live feed *)

Inductive InfoCall :=
  InfoSubscribe (channel : bytes) (coin : bytes)
| InfoUnsubscribe (channel : bytes) (coin : bytes) (id : Z).

Record LiveFeed := mkLiveFeed {
  lf_base_url : bytes;
  lf_coins : list bytes;
  lf_sub_ids : gmap bytes (Z * Z);
  lf_started : bool;
  lf_calls : list InfoCall
}.

#[export] Instance LiveFeed_eta : Eta LiveFeed := fun f =>
  mkLiveFeed (lf_base_url f) (lf_coins f) (lf_sub_ids f) (lf_started f) (lf_calls f).

Definition new_feed (base_url : bytes) (coins : list bytes) : LiveFeed := mkLiveFeed base_url coins ∅ false [].

Section Feed.
Context {J : Type} {sdk : HyperliquidSdk J}.

Definition subscriptions_made (f : LiveFeed) : nat :=
  List.length (List.filter (fun c => match c with InfoSubscribe _ _ => true | _ => false end) (lf_calls f)).

Definition subscribeCoin (coin : bytes) (f : LiveFeed) : LiveFeed :=
  let n := subscriptions_made f in
  f <| lf_calls ::= fun l => l ++ [InfoSubscribe (str "l2") coin; InfoSubscribe (str "trades") coin] |>
    <| lf_sub_ids ::= <[coin := (subscription_id n, subscription_id (S n))]> |>.

Definition feed_start (f : LiveFeed) : LiveFeed :=
  let f := f <| lf_started := true |> in
  fold_left (fun f coin => subscribeCoin coin f) (lf_coins f) f.

(** In the order of the hash map. *)
Definition feed_stop (f : LiveFeed) : LiveFeed :=
  let unsubscribe kv := [InfoUnsubscribe (str "l2") (fst kv) (fst (snd kv)); InfoUnsubscribe (str "trades") (fst kv) (snd (snd kv))] in
  f <| lf_calls ::= fun l => l ++ flat_map unsubscribe (map_to_list (lf_sub_ids f)) |>
    <| lf_sub_ids := ∅ |> <| lf_started := false |>.

Definition addCoin (coin : bytes) (f : LiveFeed) : LiveFeed :=
  let f := if bool_decide (coin ∈ lf_coins f) then f else f <| lf_coins ::= fun l => l ++ [coin] |> in
  if lf_started f && bool_decide (lf_sub_ids f !! coin = None) then subscribeCoin coin f else f.
End Feed.

(** ** Reading a message *)

Section Messages.
Context {J : Type} {json : Json J} {items : JsonItems J} {reader : JsonReader J} {kinds : JsonKinds J}.

(** A level, a changed level or a trade: price and size under their keys. *)
Definition read_level (price_key size_key : bytes) (level : J) : result (price_t * qty_t) :=
  let* px := number_at level price_key in
  let* sz := number_at level size_key in
  let* price := to_price_result px in
  let* qty := to_qty_result sz in
  Ok (price, qty).

Definition read_time (key : bytes) (data : J) : result Z :=
  let* event_time_ms := value js_get_uint64 data key 0 in
  Ok (to_milli_ns event_time_ms).
End Messages.

(** A loop whose body may throw. *)
Fixpoint each {A S} (f : A -> S -> result S) (l : list A) (s : S) : result S :=
  match l with
  | [] => Ok s
  | a :: l => let* s := f a s in each f l s
  end.

(** ** What a message does to an instrument *)

Section Instrument.
Context {L3 Pool : Type} {l3ops : L3Ops L3} {poolops : ObjectPool Pool} {env : Environment}.
Context {J : Type} {json : Json J} {items : JsonItems J} {reader : JsonReader J} {kinds : JsonKinds J}.
Abbreviation World := (World L3 Pool).
Abbreviation Desk := (Desk L3 Pool).

(** [OrderBookL3::addOrder] with priority and sequence 0. *)
Definition rest_untimed (order_id : Z) (side : Side) (price : price_t) (qty : qty_t) (event_time_ns : Z) (w : World) : World :=
  w <| w_book := fst (l3_call (w_book w) (l3_addOrder (ob_l3 (w_book w)) order_id side price qty event_time_ns 0 0 true)) |>.

Definition rest_remainder (order_id : Z) (side : Side) (price : price_t) (qty : qty_t) (event_time_ns : Z) (d : Desk) : Desk :=
  if 0 <? qty then d <| d_world ::= rest_untimed order_id side price qty event_time_ns |> else d.

(** Without an engine nothing trades. *)
Definition match_incoming (order_id : Z) (side : Side) (price : price_t) (qty : qty_t) (event_time_ns : Z) (d : Desk)
  : result (Desk * list TradeSummaryInfo * qty_t) :=
  match sym_matching_engine (d_symbol d) with
  | None => Ok (d, [], qty)
  | Some engine =>
      let* m := defined (engine_match_feed engine (d_world d) side order_id price qty event_time_ns 0) in
      let '(trade_summaries, qty, w) := m in
      Ok (d <| d_world := w |>, trade_summaries, qty)
  end.

(** A level the book does not have yet. *)
Definition new_level (side : Side) (price : price_t) (qty : qty_t) (event_time_ns : Z) (d : Desk) : result Desk :=
  let '(order_id, w) := nextOrderId (d_world d) in
  let* m := match_incoming order_id side price qty event_time_ns (d <| d_world := w |>) in
  let '(d, trade_summaries, qty) := m in
  Ok (rest_remainder order_id side price qty event_time_ns (publishTradeSummaries d trade_summaries)).

Definition applyPhantomLevelUpdate (side : Side) (price : price_t) (target_qty : qty_t) (event_time_ns : Z) (d : Desk) : result Desk :=
  match getLevel (ob_l3 (w_book (d_world d))) side price with
  | None => if target_qty <=? 0 then Ok d else new_level side price target_qty event_time_ns d
  | Some _ => Ok (reconcilePhantomQty d side price target_qty event_time_ns 0 true)
  end.

(** *** Snapshots *)

Definition snapshot_level (side : Side) (event_time_ns : Z) (level : J) (s : Desk * list price_t) : result (Desk * list price_t) :=
  let* pq := read_level (str "px") (str "sz") level in
  let '(price, qty) := pq in
  if qty <=? 0 then Ok s
  else
    let* d := new_level side price qty event_time_ns (fst s) in
    Ok (d, snd s ++ [price]).

Definition process_side (side_levels : J) (side : Side) (event_time_ns : Z) (s : Desk * list price_t) : result (Desk * list price_t) :=
  each (snapshot_level side event_time_ns) (js_items side_levels) s.

(** What [l2_ref_levels_] keeps of an instrument. *)
Abbreviation RefLevels := (list price_t * list price_t)%type.

Definition apply_snapshot (levels_arr : J) (event_time_ns : Z) (d : Desk) : result (Desk * RefLevels) :=
  let d := desk_book d clearMDOrders in
  let* bids := item_at levels_arr 0 in
  let* b := process_side bids BUY event_time_ns (d, []) in
  let* asks := item_at levels_arr 1 in
  let* a := process_side asks SELL event_time_ns (fst b, []) in
  Ok (desk_book (fst a) (fun book => setLastUpdate book event_time_ns 0), (snd b, snd a)).

(** *** Diffs *)

(** One [get<size_t>()] after the other. *)
Definition read_indices (indices : J) : result (list nat) :=
  each (fun idx l => let* n := get_as js_get_uint64 idx in Ok (l ++ [Z.to_nat n])) (js_items indices) [].

Definition remove_level (side : Side) (event_time_ns : Z) (price : price_t) (s : Desk * list price_t) : result (Desk * list price_t) :=
  let* d := applyPhantomLevelUpdate side price 0 event_time_ns (fst s) in
  Ok (d, ref_erase price (snd s)).

Definition apply_removals (indices : J) (side : Side) (event_time_ns : Z) (s : Desk * list price_t) : result (Desk * list price_t) :=
  let* l := read_indices indices in
  each (remove_level side event_time_ns) (resolve_removals (snd s) l) s.

Definition change_level (side : Side) (event_time_ns : Z) (level : J) (s : Desk * list price_t) : result (Desk * list price_t) :=
  let* pq := read_level (str "p") (str "s") level in
  let* d := applyPhantomLevelUpdate side (fst pq) (snd pq) event_time_ns (fst s) in
  Ok (d, ref_insert side (fst pq) (snd s)).

Definition apply_changes (side_levels : J) (side : Side) (event_time_ns : Z) (s : Desk * list price_t) : result (Desk * list price_t) :=
  each (change_level side event_time_ns) (js_items side_levels) s.

(** On the side's half of the mirror. *)
Definition on_bids (f : Desk * list price_t -> result (Desk * list price_t)) (s : Desk * RefLevels) : result (Desk * RefLevels) :=
  let* r := f (fst s, fst (snd s)) in Ok (fst r, (snd r, snd (snd s))).

Definition on_asks (f : Desk * list price_t -> result (Desk * list price_t)) (s : Desk * RefLevels) : result (Desk * RefLevels) :=
  let* r := f (fst s, snd (snd s)) in Ok (fst r, (fst (snd s), snd r)).

Definition apply_diff (data levels_arr : J) (event_time_ns : Z) (s : Desk * RefLevels) : result (Desk * RefLevels) :=
  let* s := match js_find data (str "r") with
            | Some removed =>
                if js_is_array removed && (js_size removed =? 2)%nat then
                  let* bids := item_at removed 0 in
                  let* s := on_bids (apply_removals bids BUY event_time_ns) s in
                  let* asks := item_at removed 1 in
                  on_asks (apply_removals asks SELL event_time_ns) s
                else Ok s
            | None => Ok s
            end in
  let* bids := item_at levels_arr 0 in
  let* s := on_bids (apply_changes bids BUY event_time_ns) s in
  let* asks := item_at levels_arr 1 in
  let* s := on_asks (apply_changes asks SELL event_time_ns) s in
  Ok (desk_book (fst s) (fun book => setLastUpdate book event_time_ns 0), snd s).

(** *** Trades *)

Definition replay_trade (event_time_ns : Z) (side : Side) (pq : price_t * qty_t) (d : Desk) : result Desk :=
  let '(order_id, w) := nextOrderId (d_world d) in
  let d := d <| d_world := w |> in
  match sym_matching_engine (d_symbol d) with
  | None => Ok d
  | Some _ =>
      let* m := match_incoming order_id side (fst pq) (snd pq) event_time_ns d in
      let '(d, trade_summaries, qty) := m in
      let d := rest_remainder order_id side (fst pq) qty event_time_ns d in
      Ok (fold_left (credit_summary side event_time_ns) trade_summaries d)
  end.

Definition process_trade (trade : J) (d : Desk) : result Desk :=
  let* side_str := value js_get_string trade (str "side") (str "B") in
  let side := if bytes_eqb side_str (str "B") then BUY else SELL in
  let* px := number_at trade (str "px") in
  let* sz := number_at trade (str "sz") in
  let* event_time_ns := read_time (str "time") trade in
  let* price := to_price_result px in
  let* qty := to_qty_result sz in
  replay_trade event_time_ns side (price, qty) d.

(** *** Publishing *)

Definition clear_caches (d : Desk) : Desk :=
  desk_book d (fun b => b <| ob_md_level_update_cache := [] |> <| ob_md_order_update_cache := [] |>).

Definition answer_l2 (ch : HyperliquidChannel) (d : Desk) : Desk :=
  d <| d_world ::= fun w => populateL2SubscriptionResponse w (channel_code ch) |>.

(** The snapshot of the book, when it is not the first one of both channels. *)
Definition finalizeL2Event (i : nat) (pending : PerChannel (gset nat)) (d : Desk) : PerChannel (gset nat) * Desk :=
  let l2book_was_pending := bool_decide (i ∈ at_channel pending L2_BOOK) in
  let '(pending, d) := if l2book_was_pending
                       then (set_channel L2_BOOK (fun s => s ∖ {[i]}) pending, answer_l2 L2_BOOK d) else (pending, d) in
  let l2_was_pending := bool_decide (i ∈ at_channel pending L2) in
  let '(pending, d) := if l2_was_pending
                       then (set_channel L2 (fun s => s ∖ {[i]}) pending, answer_l2 L2 d) else (pending, d) in
  (pending, if negb l2book_was_pending || negb l2_was_pending then d <| d_world ::= populateL2Snapshot |> else d).
End Instrument.

Abbreviation RefLevels := (list price_t * list price_t)%type.

(** ** The venue *)

Section Venue.
Context {L3 Pool : Type} {l3ops : L3Ops L3} {poolops : ObjectPool Pool} {env : Environment} {newbooks : NewBooks L3 Pool}.
Context {J : Type} {json : Json J} {items : JsonItems J} {reader : JsonReader J} {kinds : JsonKinds J} {sdk : HyperliquidSdk J}.
Abbreviation World := (World L3 Pool).
Abbreviation Desk := (Desk L3 Pool).
Abbreviation System := (System L3 Pool).

(** The array of a new instrument's tape, by the instrument's position. *)
Variable storage : nat -> list MDTrade.

Record FeedEvent := mkFeedEvent {
  fe_type : FeedEventType;
  fe_data : J
}.

(** [hx_made] are the feeds constructed, [hx_md_feeds] and [hx_map_coin_feed] the pointers to
    those it holds. *)
Record HyperliquidExchange := mkHyperliquid {
  hx_system : System;
  hx_made : list LiveFeed;
  hx_md_feeds : list nat;
  hx_map_coin_feed : gmap bytes nat;
  hx_pending_md_subscription : PerChannel (gset nat);
  hx_l2_ref_levels : gmap nat RefLevels;
  hx_use_live_feed : bool;
  hx_live_ws_base_url : bytes;
  hx_event_queue : list FeedEvent
}.

#[export] Instance HyperliquidExchange_eta : Eta HyperliquidExchange := fun x =>
  mkHyperliquid (hx_system x) (hx_made x) (hx_md_feeds x) (hx_map_coin_feed x) (hx_pending_md_subscription x)
    (hx_l2_ref_levels x) (hx_use_live_feed x) (hx_live_ws_base_url x) (hx_event_queue x).

Implicit Types x : HyperliquidExchange.

(** *** Construction *)

Definition read_coins (coins : J) : result (list bytes) :=
  if js_is_array coins then
    each (fun j l => let* coin := get_as js_get_string j in Ok (l ++ [coin])) (js_items coins) []
  else Throw BadJson.

(** [emplace] keeps the first feed of a coin. *)
Definition map_coin (coin : bytes) (feed : nat) (m : gmap bytes nat) : gmap bytes nat :=
  match m !! coin with Some _ => m | None => <[coin := feed]> m end.

Definition make_feed (coins : list bytes) x : nat * HyperliquidExchange :=
  let f := List.length (hx_made x) in
  (f, x <| hx_made ::= fun l => l ++ [new_feed (hx_live_ws_base_url x) coins] |> <| hx_md_feeds ::= fun l => l ++ [f] |>).

Definition configure_feed (feed_cfg : J) x : result HyperliquidExchange :=
  let* type := value js_get_string feed_cfg (str "type") [] in
  let* enabled := value js_get_bool feed_cfg (str "enabled") true in
  if negb enabled then Ok x
  else if bytes_eqb type (str "hyperliquid_live_ws") then
    let* base_url := value js_get_string feed_cfg (str "base_url") (hx_live_ws_base_url x) in
    let* coins := match js_find feed_cfg (str "coins") with Some coins => read_coins coins | None => Ok [] end in
    let '(f, x) := make_feed coins (x <| hx_use_live_feed := true |> <| hx_live_ws_base_url := base_url |>) in
    Ok (x <| hx_map_coin_feed ::= fun m => fold_left (fun m coin => map_coin coin f m) coins m |>)
  else Ok x.

Definition new_hyperliquid (config : J) (sys : System) : result HyperliquidExchange :=
  let x := mkHyperliquid sys [] [] ∅ (mkPer ∅ ∅ ∅) ∅ false (str "https://api.hyperliquid.xyz") [] in
  match js_find config (str "md_feeds") with
  | None => Ok x
  | Some md_feeds => each configure_feed (js_items md_feeds) x
  end.

(** *** Instruments *)

Definition find_coin x (coin : bytes) : option nat := getSymbol (sys_symbols (hx_system x)) coin (ex_venue (sys_exchange (hx_system x))).

Definition addSymbol (coin : bytes) x : result (nat * HyperliquidExchange) :=
  let sys := hx_system x in
  let* added := open_symbol HYPERLIQUID sys coin (storage (List.length (sm_symbols (sys_symbols sys)))) in
  Ok (fst added, x <| hx_system := snd added |>).

Definition find_or_add (coin : bytes) x : result (nat * HyperliquidExchange) :=
  match find_coin x coin with
  | Some i => Ok (i, x)
  | None => addSymbol coin x
  end.

(** A handler on one instrument. *)
Definition on_coin {A} (i : nat) (f : Desk -> result (Desk * A)) x : result (HyperliquidExchange * A) :=
  let* d := defined (desk_at (hx_system x) i) in
  let* r := f d in
  Ok (x <| hx_system ::= fun sys => put_desk sys (fst r) |>, snd r).

(** *** The SDK's callbacks *)

Definition push_feed_event (type : FeedEventType) (data : J) x : HyperliquidExchange :=
  x <| hx_event_queue ::= fun q => q ++ [mkFeedEvent type data] |>.

Definition onL2BookUpdate (msg : J) x : HyperliquidExchange := push_feed_event FEED_L2_BOOK msg x.

Definition onTradesUpdate (msg : J) x : HyperliquidExchange :=
  match js_find msg (str "data") with
  | Some data => push_feed_event FEED_TRADES data x
  | None => x
  end.

(** What is thrown here is logged. *)
Definition on_l2 (msg : J) x : HyperliquidExchange :=
  match js_find msg (str "data") with
  | None => x
  | Some data =>
      match js_find data (str "s") with
      | Some s => onL2BookUpdate s x
      | None =>
          match js_find data (str "c") ≫= js_get_string with
          | None => x
          | Some c => match decode_l2_diff c with Some diff => onL2BookUpdate diff x | None => x end
          end
      end
  end.

Definition onHyperliquidDisconnected x : HyperliquidExchange :=
  fold_left (fun x kv =>
    match find_coin x (fst kv) with
    | None => x
    | Some i => x <| hx_pending_md_subscription ::= fun p =>
                       set_channel TRADES (fun s => {[i]} ∪ s)
                         (set_channel L2 (fun s => {[i]} ∪ s) (set_channel L2_BOOK (fun s => {[i]} ∪ s) p)) |>
    end) (map_to_list (hx_map_coin_feed x)) x.

(** *** The queue *)

(** The end of both book handlers. *)
Definition finish_l2 (i : nat) (pending : PerChannel (gset nat)) (d : Desk) (ref : RefLevels) : Desk * (PerChannel (gset nat) * RefLevels) :=
  let '(pending, d) := finalizeL2Event i pending d in
  (clear_caches d, (pending, ref)).

Definition keep_l2 (i : nat) (r : HyperliquidExchange * (PerChannel (gset nat) * RefLevels)) : HyperliquidExchange :=
  (fst r) <| hx_pending_md_subscription := fst (snd r) |> <| hx_l2_ref_levels ::= <[i := snd (snd r)]> |>.

Definition processL2Snapshot (data : J) x : result HyperliquidExchange :=
  match js_find data (str "coin"), js_find data (str "levels") with
  | Some coin_json, Some levels_arr =>
      let* coin := get_as js_get_string coin_json in
      let* found := find_or_add coin x in
      let '(i, x) := found in
      if (js_size levels_arr <? 2)%nat then Ok x
      else
        let* event_time_ns := read_time (str "time") data in
        let* r := on_coin i (fun d =>
          let* s := apply_snapshot levels_arr event_time_ns d in
          Ok (finish_l2 i (hx_pending_md_subscription x) (fst s) (snd s))) x in
        Ok (keep_l2 i r)
  | _, _ => Ok x
  end.

Definition processL2Diff (data : J) x : result HyperliquidExchange :=
  match js_find data (str "c") with
  | None => Ok x
  | Some coin_json =>
      let* coin := get_as js_get_string coin_json in
      let* found := find_or_add coin x in
      let '(i, x) := found in
      let* levels_arr := const_at data (str "l") in
      if (js_size levels_arr <? 2)%nat then Ok x
      else
        let* event_time_ns := read_time (str "t") data in
        let* r := on_coin i (fun d =>
          let* s := apply_diff data levels_arr event_time_ns (d, default ([], []) (hx_l2_ref_levels x !! i)) in
          Ok (finish_l2 i (hx_pending_md_subscription x) (fst s) (snd s))) x in
        Ok (keep_l2 i r)
  end.

Definition processL2BookEvent (data : J) x : result HyperliquidExchange :=
  if contains data (str "levels") then processL2Snapshot data x
  else if contains data (str "l") && contains data (str "r") then processL2Diff data x
  else Ok x.

Definition processTradesEvent (data : J) x : result HyperliquidExchange :=
  if negb (js_is_array data) then Ok x
  else match js_items data with
       | [] => Ok x
       | first :: _ =>
           let* coin := value js_get_string first (str "coin") [] in
           if bool_decide (coin = []) then Ok x
           else match find_coin x coin with
                | None => Ok x
                | Some i =>
                    let* r := on_coin i (fun d =>
                      let* d := each process_trade (js_items data) d in
                      Ok (clear_caches (d <| d_world ::= populateL2Snapshot |>), tt)) x in
                    Ok (fst r)
                end
       end.

Definition process_event (evt : FeedEvent) x : result HyperliquidExchange :=
  match fe_type evt with
  | FEED_L2_BOOK => processL2BookEvent (fe_data evt) x
  | FEED_TRADES => processTradesEvent (fe_data evt) x
  end.

(** What the SDK hands over while it is polled. *)
Inductive Delivery := DeliverL2 (msg : J) | DeliverTrades (msg : J).

Definition deliver x (m : Delivery) : HyperliquidExchange :=
  match m with DeliverL2 msg => on_l2 msg x | DeliverTrades msg => onTradesUpdate msg x end.

Definition drainEventQueue (delivered : list Delivery) x : result HyperliquidExchange :=
  let x := fold_left deliver delivered x in
  let* x := each process_event (hx_event_queue x) x in
  Ok (x <| hx_event_queue := [] |>).

(** *** Requests *)

Definition add_coin_to (f : nat) (coin : bytes) x : HyperliquidExchange :=
  x <| hx_made ::= alter (addCoin coin) f |>.

(** The feed of a new coin: its own, or the first there is, or a new one. *)
Definition attach_coin (coin : bytes) x : HyperliquidExchange :=
  match hx_map_coin_feed x !! coin with
  | Some f => add_coin_to f coin x
  | None =>
      let '(f, x) := match hx_md_feeds x with
                     | f :: _ => (f, x)
                     | [] => let '(f, x) := make_feed [] x in (f, x <| hx_made ::= alter feed_start f |>)
                     end in
      (add_coin_to f coin x) <| hx_map_coin_feed ::= map_coin coin f |>
  end.

(** What the book or the tape can say now. *)
Definition answer_now (channel : HyperliquidChannel) (i : nat) x : result HyperliquidExchange :=
  let* r := on_coin i (fun d =>
    Ok (match channel with
        | TRADES => publishTradeSubscriptionResponse d (channel_code TRADES)
        | ch => answer_l2 ch d
        end, tt)) x in
  Ok (fst r).

(** A byte that is no channel indexes past the array of the live feed's subscriptions. *)
Definition handleMdSubscription (request : Request) (msg : MDSubscriptionMessage) x : result HyperliquidExchange :=
  let coin := view (req_symbol request) in
  let is_new := negb (bool_decide (is_Some (find_coin x coin))) in
  let* found := find_or_add coin x in
  let '(i, x) := found in
  let x := x <| hx_system ::= on_symbol (fun s => s <| sym_num_subscriptions ::= fun n => u16 (n + 1) |>) i |> in
  let channel := channel_of (mds_channel msg) in
  if hx_use_live_feed x then
    let* ch := defined channel in
    if is_new then
      let x := attach_coin coin x in
      match ch with
      | TRADES => answer_now TRADES i x
      | _ => Ok (x <| hx_pending_md_subscription ::= set_channel ch (fun s => {[i]} ∪ s) |>)
      end
    else if bool_decide (i ∈ at_channel (hx_pending_md_subscription x) ch) then Ok x
    else answer_now ch i x
  else match channel with
       | Some ch => answer_now ch i x
       | None => Ok x
       end.

(** What [fetch_sub] found. *)
Definition num_subscriptions x (i : nat) : Z :=
  match sm_symbols (sys_symbols (hx_system x)) !! i with
  | Some ins => sym_num_subscriptions (in_symbol ins)
  | None => 0
  end.

Definition handleMdUnsubscription (request : Request) x : HyperliquidExchange :=
  let coin := view (req_symbol request) in
  match find_coin x coin with
  | None => x
  | Some i =>
      let before := num_subscriptions x i in
      let x := x <| hx_system ::= on_symbol (fun s => s <| sym_num_subscriptions ::= fun n => u16 (n - 1) |>) i |> in
      if before =? 1 then x <| hx_map_coin_feed ::= delete coin |> else x
  end.

(** [processRequest] with the venue's handlers in place of the base class's. *)
Definition venue_request (request : Request) x : result HyperliquidExchange :=
  match req_body request with
  | ReqSubscribe msg => handleMdSubscription request msg x
  | ReqUnsubscribe _ => Ok (handleMdUnsubscription request x)
  | _ =>
      let* sys := defined (processRequest base_hooks (hx_system x) (Some request)) in
      Ok (x <| hx_system := sys |>)
  end.
End Venue.
Arguments HyperliquidExchange : clear implicits.
