(* ===== verification/HyperliquidLevels.v ===== *)
(** * What a Hyperliquid level does to an instrument

    A level the book does not have trades as an aggressor and rests what is left, ranked by
    its timestamp; a level it has is mirrored. Where nothing crosses it, either way the
    phantom liquidity at the price becomes the venue's, no trade is published, and client
    orders, every other price and the other side are as they were ([level_set]). *)

From S2P Require Import Prelude Types FixedString RingBuffer Orders Messages MarketData.
From S2P Require Import L3Interface L3Lemmas OrderBook OrderBookInv OrderBookOps.
From S2P Require Import Sweep MatchCommon MatchLemmas FifoEngine FifoProofs FifoOrders.
From S2P Require Import ProRata MatchingConfig MatchContract BookState Symbol SymbolProofs.
From S2P Require Import SymbolManager Exchange DeskState ExchangeProofs MarketProofs Reconcile.
From S2P Require Import CoinbaseFeed CoinbaseProofs HyperliquidExchange.

Section Levels.
Context {L3 Pool : Type} {l3ops : L3Ops L3} {laws : L3Laws L3} {timed : DefaultPriority L3} {poolops : ObjectPool Pool}
  {poollaws : PoolLaws Pool} {env : Environment}.
Abbreviation World := (World L3 Pool).
Abbreviation Desk := (Desk L3 Pool).
Implicit Types w : World.
Implicit Types d : Desk.

(** ** Resting by timestamp *)

Record rests_timed w (id : Z) (side : Side) (price : price_t) (q : qty_t) (ts : Z) w' : Prop := {
  rt_fine : fine w';
  rt_drawn : ids_drawn w';
  rt_levels : level_step (w_book w) (w_book w');
  rt_side : side_becomes (ob_l3 (w_book w)) (ob_l3 (w_book w')) side
    (levels_insert side price (mkL3Order id q ts) (getLevelsL3 (ob_l3 (w_book w)) side));
  rt_clients : ob_orders (w_book w') = ob_orders (w_book w) /\ ob_heap (w_book w') = ob_heap (w_book w);
  rt_glob : w_glob w' = w_glob w;
  rt_frames : w_md w' = w_md w /\ w_responses w' = w_responses w
}.

Lemma no_sequence (l3 : L3) : seq_accepted l3 0 = true.
Proof. done. Qed.

Lemma untimed_rests w id side price q ts :
  fine w -> ids_drawn w -> id ∉ book_ids (ob_l3 (w_book w)) -> id < g_next_order_id (w_glob w) ->
  book_side side -> price <> NULL_PRICE -> 0 < q -> ts <> 0 ->
  rests_timed w id side price q ts (rest_untimed id side price q ts w).
Proof.
  intros Hf Hd Hnin Hid Hs Hp Hq Ht. unfold rest_untimed. rewrite law_default_priority.
  destruct (phantom_add w id side price q ts ts 0 true Hf Hs (no_sequence _) Hnin Hq Ht Hp) as (P1 & P2 & P3 & P4 & P5 & P6).
  split; try done. by eapply (ids_drawn_after w _ id); [exact P6|exact Hd|exact Hid|].
Qed.

(** ** Nothing crosses *)

(** No order of the other side is within the price. *)
Definition clear_of w (side : Side) (price : price_t) : Prop :=
  Forall (fun x => within (opposite_side side) price x.1 = false) (queue w (opposite_side side)).

(** The engine stops at the best level. *)
Lemma clear_no_trade w side id price qty ts seq :
  fine w -> book_side side -> clear_of w side price -> 
  engine_match_feed FifoMatchingEngine w side id price qty ts seq = Some ([], qty, w).
Proof.
  intros Hf Hs Hc. change (engine_match_feed FifoMatchingEngine w side id price qty ts seq)
    with (fifo_match_feed w side id price qty ts seq). rewrite feed_match_side by done. unfold fifo_matchFeed, loop_fuel.
  unfold clear_of, queue in Hc. set (opp := opposite_side side) in *. cbn [while_loop]. unfold fifo_feed_step at 1.
  destruct (negb (0 <? qty)); [done|]. cbn [ctx_world new_context]. rewrite law_best.
  pose proof (book_side_ok _ opp (bi_l3 _ _ (fn_inv _ Hf)) (opposite_book_side _ Hs)) as [Hl _].
  destruct (getLevelsL3 (ob_l3 (w_book w)) opp) as [|l ls] eqn:E; [done|]. cbn [head].
  rewrite flat_cons in Hc. apply Forall_app in Hc as [Hc _]. apply Forall_cons in Hl as [(Hne & _) _].
  destruct (lv_orders l) as [|o os]; [done|]. cbn [map] in Hc. apply Forall_cons in Hc as [Hc _]. cbn [fst] in Hc.
  unfold within in Hc. apply negb_false_iff in Hc. by rewrite Hc.
Qed.

(** ** A level brought to a quantity *)

Definition phantoms w (side : Side) (p : price_t) : qty_t := phantom_qty (w_book w) (at_level p (queue w side)).

(** No trade is left that an update of this time or a later one has not seen. *)
Definition settled d (ts : time_t) : Prop :=
  forall t s p, ts <= t -> book_side s -> outstanding (sym_traded_qty_credit (d_symbol d)) s p t = 0.

Record sane_level d (side : Side) (price : price_t) (qty : qty_t) (ts : time_t) : Prop := {
  sl_print : sane_print d side price qty 0;
  sl_time : ts <> 0;
  sl_settled : settled d ts;
  sl_apart : phantoms (d_world d) (opposite_side side) price = 0;
  sl_clear : 0 < qty -> at_level price (queue (d_world d) side) = [] -> clear_of (d_world d) side price
}.

Record level_set d (side : Side) (price : price_t) (qty : qty_t) (ts : time_t) d' : Prop := {
  ls_handled : handled d d';
  ls_at : phantoms (d_world d') side price = qty;
  ls_else : forall p, p <> price -> at_level p (queue (d_world d') side) = at_level p (queue (d_world d) side);
  ls_other : queue (d_world d') (opposite_side side) = queue (d_world d) (opposite_side side);
  ls_clients : ob_orders (w_book (d_world d')) = ob_orders (w_book (d_world d))
    /\ ob_heap (w_book (d_world d')) = ob_heap (w_book (d_world d));
  ls_ranked : ranked (d_world d');
  ls_drew : drew_one (w_glob (d_world d)) (w_glob (d_world d'));
  ls_md : w_md (d_world d') = w_md (d_world d);
  ls_settled : settled d' ts
}.

Lemma phantoms_same w w' side p : ob_orders (w_book w') = ob_orders (w_book w) ->
  at_level p (queue w' side) = at_level p (queue w side) -> phantoms w' side p = phantoms w side p.
Proof. intros E Eq. unfold phantoms. rewrite Eq. by apply phantom_qty_clients. Qed.

(** A level the book has. *)
Lemma known_level_set d side price qty ts level :
  sane_level d side price qty ts -> getLevel (ob_l3 (w_book (d_world d))) side price = Some level ->
  level_set d side price qty ts (reconcilePhantomQty d side price qty ts 0 true).
Proof.
  intros [Hs Ht Hset Hc _] El. destruct (reconcile_mutates d side price qty ts 0 true level Hs El) as ([M1 M2 M3 _] & M5 & M6).
  set (d' := reconcilePhantomQty d side price qty ts 0 true) in *. pose proof M5 as [_ C2 C3 C4 C5 C6 _].
  pose proof (sp_side _ _ _ _ _ Hs) as Hsd. pose proof (sp_qty _ _ _ _ _ Hs) as Hq.
  pose proof (take_outstanding (sym_traded_qty_credit (d_symbol d)) side price ts) as Hto.
  assert (Hopp : opposite_phantoms (d_world d) side price = 0) by exact Hc.
  assert (Hw : wanted d side price qty ts = qty).
  { unfold wanted. destruct (takeTradedQty _ _ _ _) as [u c]. destruct Hto as (Hto & _). cbn [fst]. rewrite Hto by done. by rewrite Hset. }
  split; try done.
  - rewrite Hw, Hopp in C3. pose proof (md_level (d_world d') side price (dk_fine _ (hd_ok _ _ M1)) Hsd) as Hm.
    assert (Ho : opposite_phantoms (d_world d') side price = 0).
    { rewrite <- Hc. apply (phantoms_same (d_world d)); [apply C4|by rewrite C6]. }
    unfold phantoms. lia.
  - intros t s p Hle Hp. rewrite C2. destruct (takeTradedQty _ _ _ _) as [u c]. destruct Hto as (_ & _ & Hto). cbn [snd].
    rewrite Hto by done. case_match; [|by apply Hset]. rewrite Z.max_r by done. by apply Hset.
Qed.

(** A level it does not have. *)
Lemma new_level_rests d side price qty ts :
  sane_level d side price qty ts -> 0 < qty -> clear_of (d_world d) side price ->
  let n := g_next_order_id (w_glob (d_world d)) in
  exists d' w0, new_level side price qty ts d = Ok d' /\ d' = d <| d_world := rest_untimed n side price qty ts w0 |>
    /\ handled d d' /\ rests_timed w0 n side price qty ts (d_world d') /\ w_book w0 = w_book (d_world d)
    /\ w_md w0 = w_md (d_world d) /\ w_glob w0 = (w_glob (d_world d)) <| g_next_order_id := n + 1 |>.
Proof.
  intros [Hs Ht Hset _ _] Hq Hc n. destruct (number_drawn _ _ _ _ _ Hs) as (w0 & E & Eb & Em & Er & Eg & Hf & Hk & Hnin).
  pose proof Hs as [S1 S2 _ S4 S5 S6 S7 S8 S9].
  assert (Hc0 : clear_of w0 side price) by (unfold clear_of, queue; by rewrite Eb).
  exists (d <| d_world := rest_untimed n side price qty ts w0 |>), w0.
  unfold new_level. rewrite E. fold n. unfold match_incoming.
  change (sym_matching_engine (d_symbol (d <| d_world := w0 |>))) with (sym_matching_engine (d_symbol d)). rewrite S2.
  change (d_world (d <| d_world := w0 |>)) with w0. rewrite (clear_no_trade w0 side n price qty ts 0 Hf S6 Hc0). cbn. unfold rest_remainder. rewrite (proj2 (Z.ltb_lt 0 qty)) by done.
  split; [done|]. split; [done|].
  assert (Hr : rests_timed w0 n side price qty ts (rest_untimed n side price qty ts w0)).
  { apply untimed_rests; try done.
    - intros i Hi. rewrite Eg. cbn. rewrite Eb in Hi. pose proof (dk_ids _ S1 i Hi). unfold n. lia.
    - rewrite Eg. cbn. lia. }
  split; [|done]. pose proof Hr as [R1 R2 R3 R4 R5 R6 [R7 R8]]. apply world_handled; try done.
  - by rewrite <- Eb.
  - exists []. rewrite app_nil_r. exact (eq_trans R8 Er).
  - pose proof (f_equal g_next_order_id (eq_trans R6 Eg)) as H. cbn in H |- *. fold n. lia.
Qed.

(** The queue of the price once a phantom order joined it. *)
Lemma timed_queue w id side price q ts w' :
  fine w -> book_side side -> rests_timed w id side price q ts w' ->
  at_level price (queue w' side) = queue_insert (mkL3Order id q ts) (at_level price (queue w side))
  /\ (forall p, p <> price -> at_level p (queue w' side) = at_level p (queue w side))
  /\ queue w' (opposite_side side) = queue w (opposite_side side).
Proof.
  intros Hf Hs Hr. destruct (rt_side _ _ _ _ _ _ _ Hr) as [E Eo].
  destruct (at_level_insert side price (mkL3Order id q ts) (getLevelsL3 (ob_l3 (w_book w)) side)) as [I1 I2].
  { apply book_side_ok; [apply (bi_l3 _ _ (fn_inv _ Hf))|done]. }
  unfold queue. rewrite E, Eo. by split.
Qed.

Lemma ranked_timed w id side price q ts w' :
  fine w -> book_side side -> ts <> 0 -> ranked w -> rests_timed w id side price q ts w' -> ranked w'.
Proof.
  intros Hf Hs Ht Hk Hr. destruct (timed_queue _ _ _ _ _ _ _ Hf Hs Hr) as (Q1 & Q2 & Q3). intros s Hs'.
  assert (Hc : s = side \/ s = opposite_side side) by (destruct Hs as [-> | ->], Hs' as [-> | ->]; cbn; auto).
  destruct Hc as [->| ->]; [|rewrite Q3; by apply Hk]. apply at_levels_ranked. intros p.
  destruct (decide (p = price)) as [->|Hp]; [rewrite Q1|rewrite Q2 by done; by apply ranked_at].
  apply queue_insert_forall; [done|by apply ranked_at].
Qed.

Lemma new_level_set d side price qty ts :
  sane_level d side price qty ts -> 0 < qty -> clear_of (d_world d) side price -> phantoms (d_world d) side price = 0 ->
  exists d', new_level side price qty ts d = Ok d' /\ level_set d side price qty ts d'.
Proof.
  intros Hl Hq Hclear Hnone. destruct (new_level_rests d side price qty ts Hl Hq Hclear) as (d' & w0 & E & Ed & H1 & Hr & Eb & Em & Eg).
  set (n := g_next_order_id (w_glob (d_world d))) in *. pose proof Hl as [Hs Ht Hset _ _]. exists d'. split; [exact E|].
  pose proof (sp_side _ _ _ _ _ Hs) as Hsd.
  assert (Hf0 : fine w0) by (apply (fine_same (d_world d)); [done|apply Hs]).
  assert (Eq : forall s, queue w0 s = queue (d_world d) s) by (intros s; unfold queue; by rewrite Eb).
  destruct (timed_queue _ _ _ _ _ _ _ Hf0 Hsd Hr) as (Q1 & Q2 & Q3). rewrite !Eq in *.
  destruct (rt_clients _ _ _ _ _ _ _ Hr) as [O1 O2]. rewrite Eb in O1, O2.
  assert (Hown : findOrder (w_book (d_world d')) n = None).
  { unfold findOrder. rewrite O1. destruct (ob_orders _ !! n) as [x|] eqn:Ex; [|done]. exfalso.
    pose proof (dk_ids _ (sp_desk _ _ _ _ _ Hs) n (own_in_book None _ n x (fn_inv _ (dk_fine _ (sp_desk _ _ _ _ _ Hs))) Ex)). unfold n in *. lia. }
  split; try done.
  - unfold phantoms in *. rewrite Q1, phantom_qty_insert by exact Hown. rewrite (phantom_qty_clients (w_book (d_world d))) by exact O1.
    cbn [l3_quantity]. lia.
  - apply (ranked_timed w0 n side price qty ts); try done. intros s Hs'. rewrite Eq. by apply Hs.
  - rewrite (rt_glob _ _ _ _ _ _ _ Hr), Eg. split; cbn; [fold n; lia|lia|done].
  - rewrite (proj1 (rt_frames _ _ _ _ _ _ _ Hr)). done.
  - rewrite Ed. exact Hset.
Qed.

Lemma phantom_level_set d side price qty ts :
  sane_level d side price qty ts ->
  exists d', applyPhantomLevelUpdate side price qty ts d = Ok d' /\ level_set d side price qty ts d'.
Proof.
  intros Hl. pose proof Hl as [Hs Ht Hset _ _]. unfold applyPhantomLevelUpdate.
  pose proof (level_at (d_world d) side price (dk_fine _ (sp_desk _ _ _ _ _ Hs)) (sp_side _ _ _ _ _ Hs)) as Hlv.
  destruct (getLevel _ side price) as [level|] eqn:El.
  - eexists. split; [done|]. by eapply known_level_set.
  - destruct (qty <=? 0) eqn:E; bool_to_prop; [|apply new_level_set; try done; [by apply Hl|unfold phantoms; by rewrite Hlv]].
    exists d. split; [done|]. pose proof (sp_qty _ _ _ _ _ Hs). assert (qty = 0) as -> by lia. split; try done.
    + apply handled_refl, Hs.
    + unfold phantoms. by rewrite Hlv.
    + apply Hs.
    + split; [lia|lia|done].
Qed.
End Levels.
