(* ===== verification/HyperliquidMirror.v ===== *)
(** * The Hyperliquid mirror follows the venue

    [mirrors]: the phantom liquidity of an instrument's book is, price by price, what the venue
    shows. A diff keeps it so: removals name positions in the venue's previous price array,
    which the exchange keeps in step; what it changes is brought to its quantity, and since
    the venue's book is never crossed nothing trades on the way. A snapshot establishes it
    from whatever the book held. *)

From S2P Require Import Prelude Types FixedString RingBuffer Orders Messages MarketData L3Interface.
From S2P Require Import L3Lemmas OrderBook OrderBookInv OrderBookOps Sweep MatchCommon.
From S2P Require Import MatchLemmas FifoEngine FifoProofs FifoOrders ProRata MatchingConfig.
From S2P Require Import MatchContract BookState Symbol SymbolProofs SymbolManager Exchange.
From S2P Require Import DeskState ExchangeProofs MarketProofs Reconcile SystemProofs MessageParsers.
From S2P Require Import JsonAccess L2Diff CoinbaseFeed CoinbaseProofs HyperliquidExchange.
From S2P Require Import HyperliquidLevels.

(** What the venue shows at a price of a side. *)
Definition Shown : Type := Side -> price_t -> qty_t.

Definition qty_at (p : price_t) (l : L2Levels) : qty_t :=
  match List.find (fun x => fst x =? p) l with Some x => snd x | None => 0 end.

(** The venue's two sides, best first. *)
Abbreviation Held := (L2Levels * L2Levels)%type.

Definition side_of (h : Held) (s : Side) : L2Levels := match s with BUY => fst h | SELL => snd h | UNKNOWN_SIDE => [] end.

Definition with_side (h : Held) (s : Side) (l : L2Levels) : Held :=
  match s with BUY => (l, snd h) | SELL => (fst h, l) | UNKNOWN_SIDE => h end.

Definition shown_of (h : Held) : Shown := fun s p => qty_at p (side_of h s).

Definition update (shown : Shown) (s : Side) (p : price_t) (q : qty_t) : Shown :=
  fun s' p' => if bool_decide (s' = s) && (p' =? p) then q else shown s' p'.

(** ** Lists of levels *)

Lemma qty_at_absent p l : p ∉ map fst l -> qty_at p l = 0.
Proof.
  unfold qty_at. intros Hp. destruct (List.find _ l) as [x|] eqn:E; [|done]. apply find_some in E as [Hin E]. bool_to_prop.
  destruct Hp. rewrite <- E. by apply list_elem_of_fmap_2, list_elem_of_In.
Qed.

Lemma qty_at_in side p q l : best_first side l -> (p, q) ∈ l -> qty_at p l = q.
Proof.
  unfold qty_at. intros Hs Hin. destruct (List.find _ l) as [x|] eqn:E.
  - apply find_some in E as [Hx E]. bool_to_prop. apply list_elem_of_In in Hx.
    by rewrite (best_first_key side l x (p, q) Hs Hx Hin).
  - apply list_elem_of_In in Hin. apply (find_none _ _ E) in Hin. cbn in Hin. by rewrite Z.eqb_refl in Hin.
Qed.

Lemma qty_at_price p l : qty_at p l <> 0 -> p ∈ map fst l.
Proof. intros H. destruct (decide (p ∈ map fst l)) as [|Hn]; [done|]. by rewrite qty_at_absent in H. Qed.

Lemma qty_at_ext side l l' p : best_first side l -> best_first side l' ->
  (forall q, (p, q) ∈ l <-> (p, q) ∈ l') -> qty_at p l = qty_at p l'.
Proof.
  intros Hl Hl' He. destruct (decide (p ∈ map fst l)) as [Hp|Hn].
  - apply list_elem_of_fmap in Hp as ([p' q] & E & Hin). cbn in E. subst p'.
    rewrite (qty_at_in side p q l), (qty_at_in side p q l'); try done. by apply He.
  - rewrite !qty_at_absent; [done| |done]. intros ([p' q] & E & Hin)%list_elem_of_fmap. cbn in E. subst p'.
    apply Hn, (list_elem_of_fmap_2 fst _ (p, q)). by apply He.
Qed.

Lemma qty_at_drop side p h p' : best_first side h -> qty_at p' (drop_level p h) = if p' =? p then 0 else qty_at p' h.
Proof.
  intros Hs. destruct (drop_level_spec side p h Hs) as [D1 D2]. destruct (p' =? p) eqn:E; bool_to_prop.
  - subst. apply qty_at_absent. intros (x & -> & Hx)%list_elem_of_fmap. apply D2 in Hx. by destruct Hx.
  - apply (qty_at_ext side); try done. intros q. rewrite D2. cbn. naive_solver.
Qed.

Lemma qty_at_put side c h p' : best_first side h ->
  qty_at p' (put_level side c h) = if p' =? fst c then snd c else qty_at p' h.
Proof.
  intros Hs. destruct (put_level_spec side c h Hs) as [D1 D2]. destruct (p' =? fst c) eqn:E; bool_to_prop.
  - subst. apply (qty_at_in side); [done|]. rewrite <- surjective_pairing. apply D2. by left.
  - apply (qty_at_ext side); try done. intros q. rewrite D2. cbn. split; [|naive_solver].
    intros [Ec|[]]; [|done]. by rewrite <- Ec in E.
Qed.

Lemma shown_with h s l : book_side s -> forall s' p, book_side s' ->
  shown_of (with_side h s l) s' p = if bool_decide (s' = s) then qty_at p l else shown_of h s' p.
Proof. intros [-> | ->] s' p [-> | ->]; done. Qed.

Lemma side_with h s l : book_side s -> side_of (with_side h s l) s = l /\ side_of (with_side h s l) (opposite_side s) = side_of h (opposite_side s).
Proof. by intros [-> | ->]. Qed.

Lemma with_with h s l l' : with_side (with_side h s l) s l' = with_side h s l'.
Proof. by destruct s. Qed.

Lemma within_self s p : book_side s -> within s p p = true.
Proof.
  intros Hs. unfold within, beyond_limit, isPriceBetterOrEqual. destruct Hs as [-> | ->]; cbn; rewrite ?Z.leb_refl; by destruct (p =? NULL_PRICE).
Qed.

(** ** The venue's own book *)

Definition uncrossed (bids asks : L2Levels) : Prop := forall b a, b ∈ map fst bids -> a ∈ map fst asks -> b < a.

(** Sides in order, with prices that exist, and apart. *)
Record venue_book (h : Held) : Prop := {
  vb_sorted : forall s, book_side s -> best_first s (side_of h s);
  vb_priced : forall s p, book_side s -> p ∈ map fst (side_of h s) -> p <> NULL_PRICE;
  vb_uncrossed : uncrossed (fst h) (snd h)
}.

(** Its sides after a diff. *)
Definition diffed (h : Held) (l : Held) (r : list nat * list nat) : Held :=
  (take_diff BUY (fst h) (fst l) (fst r), take_diff SELL (snd h) (snd l) (snd r)).

Definition removed (h : Held) (r : list nat * list nat) (s : Side) : L2Levels :=
  fold_left (fun h p => drop_level p h)
    (resolve_removals (map fst (side_of h s)) (match s with BUY => fst r | _ => snd r end)) (side_of h s).

Lemma resolved_from ref rs p : p ∈ resolve_removals ref rs -> p ∈ ref.
Proof. unfold resolve_removals. intros (i & _ & Hi)%list_elem_of_omap. by eapply list_elem_of_lookup_2. Qed.

Lemma put_prices side cs : forall h, best_first side h ->
  let h' := fold_left (fun h c => put_level side c h) cs h in
  best_first side h' /\ forall p, p ∈ map fst h' <-> p ∈ map fst cs \/ p ∈ map fst h.
Proof.
  induction cs as [|c cs IH]; intros h Hh; cbn [fold_left map].
  { split; [done|]. intros p. split; [by right|by intros [?%elem_of_nil|]]. }
  destruct (put_level_spec side c h Hh) as [P1 P2]. destruct (IH _ P1) as [I1 I2]. split; [exact I1|].
  intros p. rewrite I2, elem_of_cons. assert (E : p ∈ map fst (put_level side c h) <-> p = fst c \/ p ∈ map fst h); [|tauto].
  rewrite !list_elem_of_fmap. setoid_rewrite P2. split.
  - intros (x & -> & [->|[Hx _]]); [by left|right; by exists x].
  - intros [->|(x & -> & Hx)]; [exists c; by split; [|left]|].
    destruct (decide (fst x = fst c)) as [E|E]; [exists c; split; [done|by left]|exists x; split; [done|by right]].
Qed.

Lemma drop_prices side ps h p : best_first side h ->
  p ∈ map fst (fold_left (fun h p => drop_level p h) ps h) -> p ∈ map fst h.
Proof.
  intros Hh (x & -> & Hx)%list_elem_of_fmap. apply (drop_levels_spec side ps h Hh) in Hx as [Hx _]. by apply list_elem_of_fmap_2.
Qed.

Lemma asks_beyond price p : price <> NULL_PRICE -> price < p -> within SELL price p = false.
Proof. intros Hp Hlt. unfold within, beyond_limit, isPriceBetterOrEqual. rewrite (proj2 (Z.eqb_neq _ _)) by done. cbn. lia. Qed.

Lemma bids_beyond price p : price <> NULL_PRICE -> p < price -> within BUY price p = false.
Proof. intros Hp Hlt. unfold within, beyond_limit, isPriceBetterOrEqual. rewrite (proj2 (Z.eqb_neq _ _)) by done. cbn. lia. Qed.

Section Mirror.
Context {L3 Pool : Type} {l3ops : L3Ops L3} {laws : L3Laws L3} {timed : DefaultPriority L3} {poolops : ObjectPool Pool}
  {poollaws : PoolLaws Pool} {env : Environment}.
Abbreviation World := (World L3 Pool).
Abbreviation Desk := (Desk L3 Pool).
Implicit Types w : World.
Implicit Types d : Desk.

(** ** The mirror of an instrument *)

(** With numbers for [n] more levels. *)
Record mirrors (ts : time_t) (n : Z) d (shown : Shown) : Prop := {
  mr_desk : desk_ok d;
  mr_fifo : sym_matching_engine (d_symbol d) = Some FifoMatchingEngine;
  mr_ranked : ranked (d_world d);
  mr_numbers : 0 <= g_next_order_id (w_glob (d_world d)) < 2 ^ 64 - n;
  mr_priorities : 0 <= g_next_priority (w_glob (d_world d)) < 2 ^ 64 - n;
  mr_trades : ids_in_width (w_glob (d_world d));
  mr_settled : settled d ts;
  mr_shown : forall s p, book_side s -> phantoms (d_world d) s p = shown s p
}.

Lemma mirrors_shows ts n d shown shown' :
  (forall s p, book_side s -> shown s p = shown' s p) -> mirrors ts n d shown -> mirrors ts n d shown'.
Proof. intros He [H1 H2 H3 H4 H5 H6 H7 H8]. split; try done. intros s p Hs. by rewrite H8, He. Qed.

(** Nothing published, and the client orders as they were. *)
Record quiet d d' : Prop := {
  qt_handled : handled d d';
  qt_clients : ob_orders (w_book (d_world d')) = ob_orders (w_book (d_world d))
    /\ ob_heap (w_book (d_world d')) = ob_heap (w_book (d_world d));
  qt_md : w_md (d_world d') = w_md (d_world d)
}.

Lemma quiet_refl d : desk_ok d -> quiet d d.
Proof. intros Hd. split; [by apply handled_refl|done|done]. Qed.

#[export] Instance quiet_trans : Transitive quiet.
Proof. intros d1 d2 d3 [A1 [A2 A2'] A3] [B1 [B2 B2'] B3]. split; [by etrans|split; congruence|congruence]. Qed.

(** No resting order of a client would trade with an order at the price. *)
Definition no_client_crosses d (side : Side) (price : price_t) : Prop := forall id x,
  ob_orders (w_book (d_world d)) !! id = Some x ->
  o_side (order_at (d_world d) x) = opposite_side side ->
  within (opposite_side side) price (o_price (order_at (d_world d) x)) = false.

Lemma quiet_clients d d' side price : quiet d d' -> no_client_crosses d side price -> no_client_crosses d' side price.
Proof. intros [_ [E1 E2] _] H id x. unfold order_at. rewrite E1, E2. apply H. Qed.

(** What rests on the other side is the venue's or a client's. *)
Lemma clear_from ts n d shown side price :
  mirrors ts n d shown -> book_side side ->
  (forall p, shown (opposite_side side) p <> 0 -> within (opposite_side side) price p = false) ->
  no_client_crosses d side price -> clear_of (d_world d) side price.
Proof.
  intros Hm Hs Hshown Hcl. pose proof (opposite_book_side _ Hs) as Ho. pose proof (dk_fine _ (mr_desk _ _ _ _ Hm)) as Hf.
  pose proof (bi_l3 _ _ (fn_inv _ Hf)) as Hok. apply Forall_forall. intros [p o] Hin. cbn [fst].
  destruct (findOrder (w_book (d_world d)) (l3_order_id o)) as [x|] eqn:Ex.
  - destruct (bi_own None _ (fn_inv _ Hf) _ x Ex) as (_ & Hs' & _ & p' & e & He & Eid & Ep).
    destruct (Ep eq_refl) as (Ep' & _).
    destruct (same_id_same (ob_l3 (w_book (d_world d))) _ _ p' p e o Hok Hs' Ho He Hin Eid) as (Es & Epp & _).
    rewrite <- Epp, Ep'. by apply (Hcl (l3_order_id o)).
  - apply Hshown. rewrite <- (mr_shown _ _ _ _ Hm) by done. apply at_level_in in Hin.
    destruct (level_orders (d_world d) (opposite_side side) p Hf Ho) as [Hpos _]. unfold phantoms.
    revert Hin Hpos. generalize (at_level p (queue (d_world d) (opposite_side side))). intros os Hin Hpos.
    induction Hpos as [|y os Hy Hpos IH]; [by apply elem_of_nil in Hin|].
    pose proof (phantom_qty_nonneg (w_book (d_world d)) os Hpos) as Hge. unfold phantom_qty in *. cbn [map zsum].
    apply elem_of_cons in Hin as [<-|Hin].
    + rewrite bool_decide_eq_true_2 by done. lia.
    + specialize (IH Hin). case_match; lia.
Qed.

Record level_fits d (shown : Shown) (side : Side) (price : price_t) (qty : qty_t) (ts : time_t) : Prop := {
  lf_side : book_side side;
  lf_price : price <> NULL_PRICE;
  lf_qty : 0 <= qty;
  lf_time : ts <> 0;
  lf_apart : shown (opposite_side side) price = 0;
  lf_clear : 0 < qty -> (forall p, shown (opposite_side side) p <> 0 -> within (opposite_side side) price p = false)
    /\ no_client_crosses d side price
}.

Lemma fits_sane ts n d shown side price qty : 0 <= n ->
  mirrors ts (n + 1) d shown -> level_fits d shown side price qty ts -> sane_level d side price qty ts.
Proof.
  intros Hn Hm [F1 F2 F3 F4 F5 F6]. pose proof Hm as [M1 M2 M3 M4 M5 M6 M7 M8]. split; try done.
  - split; try done; [split; [lia|done]|lia].
  - rewrite M8 by by apply opposite_book_side. exact F5.
  - intros Hq _. destruct (F6 Hq). by eapply clear_from.
Qed.

Lemma set_mirrors ts n d shown side price qty d' : 0 <= n -> book_side side ->
  mirrors ts (n + 1) d shown -> level_set d side price qty ts d' ->
  quiet d d' /\ mirrors ts n d' (update shown side price qty).
Proof.
  intros Hn Hs [M1 M2 M3 M4 M5 M6 M7 M8] [S1 S2 S3 S4 S5 S6 [G1 G2 G3] S8 S9]. split; [by split|]. split; try done.
  - apply S1.
  - destruct (dt_symbol _ _ (hd_step _ _ S1)) as (_ & _ & _ & E & _). by rewrite E.
  - lia.
  - lia.
  - by apply G3.
  - intros s p Hs'. unfold update. destruct (bool_decide_reflect (s = side)) as [->|Hne]; cbn [andb].
    + destruct (p =? price) eqn:E; bool_to_prop; [by subst|]. rewrite <- M8 by done.
      apply phantoms_same; [apply S5|by apply S3].
    + assert (s = opposite_side side) as -> by (destruct Hs as [-> | ->], Hs' as [-> | ->]; done).
      rewrite <- M8 by done. apply phantoms_same; [apply S5|by rewrite S4].
Qed.

Lemma level_mirrored ts n d shown side price qty : 0 <= n ->
  mirrors ts (n + 1) d shown -> level_fits d shown side price qty ts ->
  exists d', applyPhantomLevelUpdate side price qty ts d = Ok d' /\ quiet d d' /\ mirrors ts n d' (update shown side price qty).
Proof.
  intros Hn Hm Hf. destruct (phantom_level_set d side price qty ts (fits_sane _ _ _ _ _ _ _ Hn Hm Hf)) as (d' & E & Hl).
  exists d'. split; [exact E|]. by apply (set_mirrors ts n d shown side price qty); try done; apply Hf.
Qed.

(** ** The lists of a diff *)

Context {J : Type} {json : Json J} {items : JsonItems J} {reader : JsonReader J} {kinds : JsonKinds J}.

Definition reads_levels (price_key size_key : bytes) (levels : list J) (l : L2Levels) : Prop :=
  Forall2 (fun level pq => read_level price_key size_key level = Ok pq) levels l.

Definition reads_indices (indices : list J) (l : list nat) : Prop :=
  Forall2 (fun idx n => js_get_uint64 idx = Some (Z.of_nat n)) indices l.

Lemma indices_read indices l : reads_indices (js_items indices) l -> read_indices indices = Ok l.
Proof.
  unfold reads_indices, read_indices. generalize (js_items indices). intros js H.
  assert (G : forall acc, each (fun idx l => let* n := get_as js_get_uint64 idx in Ok (l ++ [Z.to_nat n])) js acc = Ok (acc ++ l)).
  { induction H as [|j n js l Hj H IH]; intros acc; [by rewrite app_nil_r|]. cbn [each]. unfold get_as at 1. rewrite Hj. cbn [rbind].
    rewrite Nat2Z.id, IH, <- app_assoc. done. }
  by rewrite G.
Qed.

(** Removals, one side. *)
Lemma removals_mirrored ts side ps : book_side side -> ts <> 0 -> forall n d h, 0 <= n ->
  mirrors ts (n + Z.of_nat (List.length ps)) d (shown_of h) -> best_first side (side_of h side) ->
  Forall (fun p => p <> NULL_PRICE /\ qty_at p (side_of h (opposite_side side)) = 0) ps ->
  let l := fold_left (fun h p => drop_level p h) ps (side_of h side) in
  exists d', each (remove_level side ts) ps (d, map fst (side_of h side)) = Ok (d', map fst l)
    /\ quiet d d' /\ mirrors ts n d' (shown_of (with_side h side l)).
Proof.
  intros Hs Ht. induction ps as [|p ps IH]; intros n d h Hn Hm Hb Hps l.
  { exists d. split; [done|]. split; [apply quiet_refl, Hm|]. rewrite Z.add_0_r in Hm.
    eapply mirrors_shows; [|exact Hm]. intros s q Hs'. rewrite shown_with by done. by case_bool_decide as E; [rewrite E|]. }
  apply Forall_cons in Hps as [[Hp Ha] Hps]. cbn [List.length] in Hm.
  assert (Hm' : mirrors ts (n + Z.of_nat (List.length ps) + 1) d (shown_of h)) by (by replace (n + _ + 1) with (n + Z.of_nat (S (List.length ps))) by lia).
  destruct (level_mirrored ts (n + Z.of_nat (List.length ps)) d (shown_of h) side p 0) as (d1 & E1 & Q1 & M1); [lia|exact Hm'|by split|].
  destruct (drop_level_spec side p _ Hb) as [Hb' _]. set (h1 := with_side h side (drop_level p (side_of h side))).
  destruct (side_with h side (drop_level p (side_of h side)) Hs) as [W1 W2]. fold h1 in W1, W2.
  destruct (IH n d1 h1 Hn) as (d' & E & Q & M).
  - eapply mirrors_shows; [|exact M1]. intros s q Hs'. unfold h1, update. rewrite shown_with by done.
    case_bool_decide as Es; [subst s; cbn [andb]; by rewrite (qty_at_drop side)|done].
  - by rewrite W1.
  - by rewrite W2.
  - rewrite W1 in E, M. exists d'. split; [|split; [by etrans|]].
    + cbn [each]. unfold remove_level at 1. cbn [fst snd]. rewrite E1. cbn [rbind]. by rewrite ref_erase_prices.
    + unfold h1 in M. rewrite with_with in M. exact M.
Qed.

(** What a change may be. *)
Record change_fits d (h : Held) (side : Side) (c : price_t * qty_t) : Prop := {
  cf_price : fst c <> NULL_PRICE;
  cf_qty : 0 <= snd c;
  cf_apart : Forall (fun x => within (opposite_side side) (fst c) (fst x) = false) (side_of h (opposite_side side));
  cf_clients : no_client_crosses d side (fst c)
}.

Lemma change_level_fits d h side c ts : book_side side -> ts <> 0 -> change_fits d h side c ->
  level_fits d (shown_of h) side (fst c) (snd c) ts.
Proof.
  intros Hs Ht [C1 C2 C3 C4]. rewrite Forall_forall in C3.
  assert (Hc : forall p, shown_of h (opposite_side side) p <> 0 -> within (opposite_side side) (fst c) p = false).
  { intros p Hp. apply qty_at_price in Hp. apply list_elem_of_fmap in Hp as (x & -> & Hx). by apply C3. }
  split; try done. destruct (decide (shown_of h (opposite_side side) (fst c) = 0)) as [|Hn]; [done|].
  pose proof (Hc _ Hn) as Hw. by rewrite within_self in Hw by by apply opposite_book_side.
Qed.

Lemma changes_mirrored ts side js cs : book_side side -> ts <> 0 -> reads_levels (str "p") (str "s") js cs ->
  forall n d h, 0 <= n ->
  mirrors ts (n + Z.of_nat (List.length cs)) d (shown_of h) -> best_first side (side_of h side) ->
  Forall (change_fits d h side) cs ->
  let l := fold_left (fun h c => put_level side c h) cs (side_of h side) in
  exists d', each (change_level side ts) js (d, map fst (side_of h side)) = Ok (d', map fst l)
    /\ quiet d d' /\ mirrors ts n d' (shown_of (with_side h side l)).
Proof.
  intros Hs Ht Hr. induction Hr as [|j c js cs Hj Hr IH]; intros n d h Hn Hm Hb Hcs l.
  { exists d. split; [done|]. split; [apply quiet_refl, Hm|]. rewrite Z.add_0_r in Hm.
    eapply mirrors_shows; [|exact Hm]. intros s q Hs'. rewrite shown_with by done. by case_bool_decide as E; [rewrite E|]. }
  apply Forall_cons in Hcs as [Hc Hcs]. cbn [List.length] in Hm.
  assert (Hm' : mirrors ts (n + Z.of_nat (List.length cs) + 1) d (shown_of h)) by (by replace (n + _ + 1) with (n + Z.of_nat (S (List.length cs))) by lia).
  destruct (level_mirrored ts (n + Z.of_nat (List.length cs)) d (shown_of h) side (fst c) (snd c)) as (d1 & E1 & Q1 & M1);
    [lia|exact Hm'|by apply change_level_fits|].
  destruct (put_level_spec side c _ Hb) as [Hb' _]. set (h1 := with_side h side (put_level side c (side_of h side))).
  destruct (side_with h side (put_level side c (side_of h side)) Hs) as [W1 W2]. fold h1 in W1, W2.
  destruct (IH n d1 h1 Hn) as (d' & E & Q & M).
  - eapply mirrors_shows; [|exact M1]. intros s q Hs'. unfold h1, update. rewrite shown_with by done.
    case_bool_decide as Es; [subst s; cbn [andb]; by rewrite (qty_at_put side)|done].
  - by rewrite W1.
  - eapply Forall_impl; [exact Hcs|]. intros x [C1 C2 C3 C4]. split; try done; [by rewrite W2|by eapply quiet_clients].
  - rewrite W1 in E, M. exists d'. split; [|split; [by etrans|]].
    + cbn [each]. unfold change_level at 1. rewrite Hj. cbn [rbind fst snd]. rewrite E1. cbn [rbind]. by rewrite ref_insert_prices.
    + unfold h1 in M. rewrite with_with in M. exact M.
Qed.

(** ** A diff *)

(** The changes of a diff: real prices and quantities, which would not trade with a client. *)
Definition change_ok d (side : Side) (c : price_t * qty_t) : Prop :=
  fst c <> NULL_PRICE /\ 0 <= snd c /\ no_client_crosses d side (fst c).

Lemma item_of (arr : J) l i j : js_is_array arr = true -> js_items arr = l -> l !! i = Some j -> item_at arr i = Ok j.
Proof. intros H <- Hj. unfold item_at. by rewrite H, Hj. Qed.

Record diff_read (data levels_arr : J) (l : Held) (r : list nat * list nat) : Prop := {
  df_removed : exists removed bids asks, js_find data (str "r") = Some removed /\ js_is_array removed = true
    /\ js_items removed = [bids; asks] /\ reads_indices (js_items bids) (fst r) /\ reads_indices (js_items asks) (snd r);
  df_changed : exists bids asks rest, js_is_array levels_arr = true /\ js_items levels_arr = bids :: asks :: rest
    /\ reads_levels (str "p") (str "s") (js_items bids) (fst l) /\ reads_levels (str "p") (str "s") (js_items asks) (snd l)
}.

(** How many levels a diff touches. *)
Definition touched (h : Held) (l : Held) (r : list nat * list nat) : Z :=
  Z.of_nat (List.length (resolve_removals (map fst (fst h)) (fst r))) + Z.of_nat (List.length (resolve_removals (map fst (snd h)) (snd r)))
  + Z.of_nat (List.length (fst l)) + Z.of_nat (List.length (snd l)).

Lemma removals_done ts n d h r rb ra : ts <> 0 -> 0 <= n -> venue_book h ->
  mirrors ts (n + Z.of_nat (List.length (resolve_removals (map fst (fst h)) (fst r)))
                + Z.of_nat (List.length (resolve_removals (map fst (snd h)) (snd r)))) d (shown_of h) ->
  reads_indices (js_items rb) (fst r) -> reads_indices (js_items ra) (snd r) ->
  let h' := (removed h r BUY, removed h r SELL) in
  exists d', (let* s := on_bids (apply_removals rb BUY ts) (d, (map fst (fst h), map fst (snd h))) in
              on_asks (apply_removals ra SELL ts) s) = Ok (d', (map fst (fst h'), map fst (snd h')))
    /\ quiet d d' /\ mirrors ts n d' (shown_of h').
Proof.
  intros Ht Hn [V1 V2 V3] Hm Hb Ha h'. destruct h as [bids asks]. cbn [fst snd] in *.
  set (pb := resolve_removals (map fst bids) (fst r)) in *. set (pa := resolve_removals (map fst asks) (snd r)) in *.
  pose proof (V1 BUY (or_introl eq_refl)) as S1. pose proof (V1 SELL (or_intror eq_refl)) as S2. cbn [side_of fst snd] in S1, S2.
  replace (n + Z.of_nat (List.length pb) + Z.of_nat (List.length pa)) with (n + Z.of_nat (List.length pa) + Z.of_nat (List.length pb)) in Hm by lia.
  destruct (removals_mirrored ts BUY pb (or_introl eq_refl) Ht (n + Z.of_nat (List.length pa)) d (bids, asks)) as (d1 & E1 & Q1 & M1); [lia|exact Hm|exact S1| |].
  { apply Forall_forall. intros p Hp%resolved_from. split; [by apply (V2 BUY); [left|]|]. apply qty_at_absent. intros Hp'. by pose proof (V3 p p Hp Hp'); lia. }
  destruct (removals_mirrored ts SELL pa (or_intror eq_refl) Ht n d1 (removed (bids, asks) r BUY, asks)) as (d2 & E2 & Q2 & M2); [lia|exact M1|exact S2| |].
  { apply Forall_forall. intros p Hp%resolved_from. split; [by apply (V2 SELL); [right|]|]. apply qty_at_absent. intros Hp'. apply (drop_prices BUY) in Hp'; [|exact S1].
    by pose proof (V3 p p Hp' Hp); lia. }
  exists d2. split; [|split; [by etrans|exact M2]].
  unfold on_bids, apply_removals at 1. cbn [fst snd]. rewrite (indices_read rb (fst r)) by done. cbn [rbind]. fold pb. cbn [side_of fst] in E1.
  rewrite E1. cbn [rbind fst snd]. unfold on_asks, apply_removals. cbn [fst snd]. rewrite (indices_read ra (snd r)) by done. cbn [rbind]. fold pa.
  cbn [side_of snd] in E2. rewrite E2. done.
Qed.

Lemma changes_done ts n d h l r jb ja : ts <> 0 -> 0 <= n -> venue_book h -> venue_book (diffed h l r) ->
  let h' := (removed h r BUY, removed h r SELL) in
  mirrors ts (n + Z.of_nat (List.length (fst l)) + Z.of_nat (List.length (snd l))) d (shown_of h') ->
  reads_levels (str "p") (str "s") (js_items jb) (fst l) -> reads_levels (str "p") (str "s") (js_items ja) (snd l) ->
  Forall (change_ok d BUY) (fst l) -> Forall (change_ok d SELL) (snd l) ->
  exists d', (let* s := on_bids (apply_changes jb BUY ts) (d, (map fst (fst h'), map fst (snd h'))) in
              on_asks (apply_changes ja SELL ts) s) = Ok (d', (map fst (fst (diffed h l r)), map fst (snd (diffed h l r))))
    /\ quiet d d' /\ mirrors ts n d' (shown_of (diffed h l r)).
Proof.
  intros Ht Hn Hv [C1 C2 C3] h' Hm Rb Ra Fb Fa. destruct h as [bids asks]. pose proof (vb_sorted _ Hv BUY (or_introl eq_refl)) as S1.
  pose proof (vb_sorted _ Hv SELL (or_intror eq_refl)) as S2. cbn [side_of fst snd] in S1, S2.
  destruct (drop_levels_spec BUY (resolve_removals (map fst bids) (fst r)) bids S1) as [B1 _].
  destruct (drop_levels_spec SELL (resolve_removals (map fst asks) (snd r)) asks S2) as [A1 _].
  destruct (put_prices BUY (fst l) _ B1) as [B2 B3]. destruct (put_prices SELL (snd l) _ A1) as [A2 A3].
  set (b1 := removed (bids, asks) r BUY) in *. set (a1 := removed (bids, asks) r SELL) in *.
  replace (n + _ + _) with (n + Z.of_nat (List.length (snd l)) + Z.of_nat (List.length (fst l))) in Hm by lia.
  rewrite Forall_forall in Fb, Fa.
  destruct (changes_mirrored ts BUY (js_items jb) (fst l) (or_introl eq_refl) Ht Rb (n + Z.of_nat (List.length (snd l))) d (b1, a1))
    as (d1 & E1 & Q1 & M1); [lia|exact Hm|exact B1| |].
  { apply Forall_forall. intros c Hc. destruct (Fb c Hc) as (F1 & F2 & F3). split; try done. apply Forall_forall. intros x Hx.
    apply asks_beyond; [done|]. apply C3; [apply B3; left; by apply list_elem_of_fmap_2|apply A3; right; by apply list_elem_of_fmap_2]. }
  destruct (changes_mirrored ts SELL (js_items ja) (snd l) (or_intror eq_refl) Ht Ra n d1 (fst (diffed (bids, asks) l r), a1))
    as (d2 & E2 & Q2 & M2); [lia|exact M1|exact A1| |].
  { apply Forall_forall. intros c Hc. destruct (Fa c Hc) as (F1 & F2 & F3). split; try done; [|by eapply quiet_clients].
    apply Forall_forall. intros x Hx. apply bids_beyond; [done|].
    apply C3; [by apply list_elem_of_fmap_2|apply A3; left; by apply list_elem_of_fmap_2]. }
  exists d2. split; [|split; [by etrans|exact M2]].
  unfold on_bids, apply_changes at 1. cbn [fst snd]. cbn [side_of fst] in E1. fold h' in E1. unfold h'. cbn [fst snd]. rewrite E1. cbn [rbind fst snd].
  unfold on_asks, apply_changes. cbn [fst snd]. cbn [side_of snd] in E2. rewrite E2. done.
Qed.

(** The time of the last update is not part of the mirror. *)
Lemma stamped ts n d shown t : mirrors ts n d shown ->
  let d' := desk_book d (fun b => setLastUpdate b t 0) in quiet d d' /\ mirrors ts n d' shown.
Proof.
  intros [M1 M2 M3 M4 M5 M6 M7 M8] d'. assert (H : handled d d').
  { apply (desk_book_handled d (setLastUpdate (w_book (d_world d)) t 0)); try done.
    - apply (fine_last_update (d_world d)). apply M1.
    - exists []. by rewrite app_nil_r.
    - apply M1. }
  split; [by split|]. split; try done. apply H.
Qed.

Lemma diff_applied ts n d h l r data levels_arr : ts <> 0 -> 0 <= n -> venue_book h -> venue_book (diffed h l r) ->
  mirrors ts (n + touched h l r) d (shown_of h) -> diff_read data levels_arr l r ->
  Forall (change_ok d BUY) (fst l) -> Forall (change_ok d SELL) (snd l) ->
  exists d', apply_diff data levels_arr ts (d, (map fst (fst h), map fst (snd h)))
    = Ok (d', (map fst (fst (diffed h l r)), map fst (snd (diffed h l r))))
    /\ quiet d d' /\ mirrors ts n d' (shown_of (diffed h l r)).
Proof.
  intros Ht Hn Hv Hv' Hm [(removed & rb & ra & R1 & R2 & R3 & R4 & R5) (jb & ja & rest & L1 & L2 & L3' & L4)] Fb Fa.
  set (m := n + Z.of_nat (List.length (fst l)) + Z.of_nat (List.length (snd l))).
  destruct (removals_done ts m d h r rb ra Ht ltac:(lia) Hv) as (d1 & E1 & Q1 & M1); try done.
  { replace (m + _ + _) with (n + touched h l r) by (unfold m, touched; lia). exact Hm. }
  destruct (changes_done ts n d1 h l r jb ja Ht Hn Hv Hv' M1 L3' L4) as (d2 & E2 & Q2 & M2).
  { eapply Forall_impl; [exact Fb|]. intros c (F1 & F2 & F3). split; [done|]. split; [done|]. by eapply quiet_clients. }
  { eapply Forall_impl; [exact Fa|]. intros c (F1 & F2 & F3). split; [done|]. split; [done|]. by eapply quiet_clients. }
  destruct (stamped ts n d2 _ ts M2) as [Q3 M3]. eexists. split; [|split; [etrans; [exact Q1|etrans; [exact Q2|exact Q3]]|exact M3]].
  unfold apply_diff. rewrite R1, R2. unfold js_size. rewrite R3. cbn [List.length Nat.eqb andb].
  rewrite (item_of removed _ 0 rb R2 R3), (item_of removed _ 1 ra R2 R3) by done.
  rewrite (item_of levels_arr _ 0 jb L1 L2), (item_of levels_arr _ 1 ja L1 L2) by done. cbn [rbind].
  destruct (on_bids (apply_removals rb BUY ts) _) as [s1|?|]; [|done|done]. cbn [rbind] in E1 |- *. rewrite E1. cbn [rbind].
  destruct (on_bids (apply_changes jb BUY ts) _) as [s2|?|]; [|done|done]. cbn [rbind] in E2 |- *. rewrite E2. done.
Qed.
End Mirror.

Section Snapshot.
Context {L3 Pool : Type} {l3ops : L3Ops L3} {laws : L3Laws L3} {timed : DefaultPriority L3} {poolops : ObjectPool Pool}
  {poollaws : PoolLaws Pool} {env : Environment}.
Abbreviation World := (World L3 Pool).
Abbreviation Desk := (Desk L3 Pool).
Implicit Types w : World.
Implicit Types d : Desk.

(** ** Clearing *)

Lemma clear_pool (b : OrderBook L3 Pool) : ob_pool (clearMDOrders b) = ob_pool b.
Proof.
  unfold clearMDOrders. destruct (l3_clear (ob_l3 b)) as [l3 evs]. destruct (l3_call b (l3, evs, true)) as [b1 r] eqn:E.
  assert (E1 : ob_pool b1 = ob_pool b) by (by rewrite <- (l3_call_pool b (l3, evs, true)), E).
    assert (G : forall l (b' : OrderBook L3 Pool), ob_pool (fold_left restore_order l b') = ob_pool b').
  { clear. induction l as [|s l IH]; intros b'; [done|]. cbn [fold_left]. rewrite IH. unfold restore_order.
    destruct s as [[[[[? ?] ?] ?] ?] ?]. apply l3_call_pool. }
  by rewrite G.
Qed.

(** Only client orders are left, each as it says itself. *)
Lemma cleared_entry d s p o : desk_ok d -> book_side s ->
  (p, o) ∈ queue (d_world (desk_book d clearMDOrders)) s ->
  exists x, ob_orders (w_book (d_world d)) !! l3_order_id o = Some x /\ p = o_price (order_at (d_world d) x)
    /\ l3_priority o = o_priority (order_at (d_world d) x) /\ o_priority (order_at (d_world d) x) <> 0.
Proof.
  intros Hd Hs Hin. destruct (clearMDOrders_inv (w_book (d_world d)) (fn_inv _ (dk_fine _ Hd))) as (B1 & B2 & B3 & B4 & _).
  set (b := clearMDOrders (w_book (d_world d))) in *. change (queue (d_world (desk_book d clearMDOrders)) s) with (flat (getLevelsL3 (ob_l3 b) s)) in Hin.
  pose proof (flat_in_book (ob_l3 b) s p o Hs Hin) as Hi. rewrite B4 in Hi.
  apply list_elem_of_fmap in Hi as ([id x] & E & Hx). apply elem_of_map_to_list in Hx. cbn in E. subst id. exists x. split; [done|].
  rewrite <- B2 in Hx. destruct (bi_own None b B1 _ x Hx) as (_ & Hs' & Hp & p' & e & He & Eid & Ev). destruct (Ev eq_refl) as (E1 & _ & E3).
  destruct (same_id_same (ob_l3 b) _ _ p' p e o (bi_l3 _ _ B1) Hs' Hs He Hin Eid) as (_ & <- & <-).
  unfold order_at. rewrite <- B3. done.
Qed.

Lemma cleared_mirrors ts n d :
  desk_ok d -> sym_matching_engine (d_symbol d) = Some FifoMatchingEngine -> settled d ts ->
  0 <= g_next_order_id (w_glob (d_world d)) < 2 ^ 64 - n -> 0 <= g_next_priority (w_glob (d_world d)) < 2 ^ 64 - n ->
  ids_in_width (w_glob (d_world d)) ->
  let d' := desk_book d clearMDOrders in
  kept d d' /\ mirrors ts n d' (fun _ _ => 0).
Proof.
  intros Hd He Hset Hn Hp Ht d'. pose proof (dk_fine _ Hd) as Hf.
  destruct (clearMDOrders_inv (w_book (d_world d)) (fn_inv _ Hf)) as (B1 & B2 & B3 & B4 & _).
  assert (Hf' : fine (d_world d')).
  { split; [exact B1| | |].
    - intros s Hs. apply Forall_forall. intros [p o] Hin. destruct (cleared_entry d s p o Hd Hs Hin) as (x & Hx & -> & _).
      destruct (bi_own None _ (fn_inv _ Hf) _ x Hx) as (_ & Hs' & _ & p' & e & He' & _ & Ev). destruct (Ev eq_refl) as (Ep & _).
      pose proof (fn_priced _ Hf _ Hs') as Hpr. unfold priced in Hpr. rewrite Forall_forall in Hpr. cbn [fst]. unfold order_at. rewrite <- Ep.
      by apply (Hpr (p', e)).
    - intros id x Hx. change (ob_orders (clearMDOrders (w_book (d_world d))) !! id = Some x) in Hx. rewrite B2 in Hx.
      unfold live. change (w_book (d_world d')) with (clearMDOrders (w_book (d_world d))). rewrite clear_pool. by apply (fn_live _ Hf id).
    - intros id x Hx. change (ob_orders (clearMDOrders (w_book (d_world d))) !! id = Some x) in Hx. rewrite B2 in Hx.
      change (order_at (d_world d') x) with (ob_heap (clearMDOrders (w_book (d_world d))) x). rewrite B3. by apply (fn_accounts _ Hf id). }
  assert (Hd' : desk_ok d').
  { split; [exact Hf'| |exact (dk_engine _ Hd)]. intros i Hi. change (i ∈ book_ids (ob_l3 (clearMDOrders (w_book (d_world d))))) in Hi.
    rewrite B4 in Hi. apply list_elem_of_fmap in Hi as ([id x] & -> & Hx). apply elem_of_map_to_list in Hx. cbn.
    apply (dk_ids _ Hd). by eapply own_in_book; [apply Hf|]. }
  split; [split; try done; by left|]. split; try done.
  - intros s Hs. apply Forall_forall. intros [p o] Hin. destruct (cleared_entry d s p o Hd Hs Hin) as (x & _ & _ & E & Hx).
    unfold ranked_order. cbn. by rewrite E.
  - intros s p Hs. unfold phantoms, phantom_qty. 
    assert (Hall : forall o, o ∈ at_level p (queue (d_world d') s) -> is_Some (findOrder (w_book (d_world d')) (l3_order_id o))).
    { intros o Ho%at_level_in. destruct (cleared_entry d s p o Hd Hs Ho) as (x & Hx & _). exists x. unfold findOrder.
      change (ob_orders (w_book (d_world d'))) with (ob_orders (clearMDOrders (w_book (d_world d)))). by rewrite B2. }
    revert Hall. generalize (at_level p (queue (d_world d') s)). induction l as [|o os IH]; intros Hall; [done|]. cbn [map zsum].
    rewrite IH by (intros o' Ho'; apply Hall; by right). destruct (Hall o) as [x Ex]; [by left|]. by rewrite bool_decide_eq_false_2 by (by rewrite Ex).
Qed.

(** ** Rebuilding *)

Lemma qty_at_snoc c l p : fst c ∉ map fst l -> qty_at p (l ++ [c]) = if p =? fst c then snd c else qty_at p l.
Proof.
  unfold qty_at. induction l as [|x l IH]; cbn [app map List.find].
  - intros _. rewrite (Z.eqb_sym p). by destruct (fst c =? p).
  - rewrite not_elem_of_cons. intros [Hne Hn]. destruct (fst x =? p) eqn:E; [|by apply IH]. bool_to_prop. subst.
    by rewrite (proj2 (Z.eqb_neq _ _)) by congruence.
Qed.

Context {J : Type} {json : Json J} {items : JsonItems J} {reader : JsonReader J} {kinds : JsonKinds J}.

(** One side of a snapshot, best first, on the part of it already in the book. *)
Lemma side_rebuilt ts side js l : book_side side -> ts <> 0 -> reads_levels (str "px") (str "sz") js l ->
  forall n d h, 0 <= n -> mirrors ts (n + Z.of_nat (List.length l)) d (shown_of h) ->
  NoDup (map fst (side_of h side ++ l)) -> Forall (fun c => 0 < snd c /\ change_fits d h side c) l ->
  exists d', each (snapshot_level side ts) js (d, map fst (side_of h side)) = Ok (d', map fst (side_of h side ++ l))
    /\ quiet d d' /\ mirrors ts n d' (shown_of (with_side h side (side_of h side ++ l))).
Proof.
  intros Hs Ht Hr. induction Hr as [|j c js l Hj Hr IH]; intros n d h Hn Hm Hnd Hl.
  { exists d. rewrite app_nil_r. split; [done|]. split; [apply quiet_refl, Hm|]. rewrite Z.add_0_r in Hm.
    eapply mirrors_shows; [|exact Hm]. intros s q Hs'. rewrite shown_with by done. by case_bool_decide as E; [rewrite E|]. }
  apply Forall_cons in Hl as [[Hq Hc] Hl]. cbn [List.length] in Hm.
  assert (Hm' : mirrors ts (n + Z.of_nat (List.length l) + 1) d (shown_of h)) by (by replace (n + _ + 1) with (n + Z.of_nat (S (List.length l))) by lia).
  assert (Hnew : fst c ∉ map fst (side_of h side)).
  { rewrite map_app in Hnd. apply NoDup_app in Hnd as (_ & H & _). intros Hin. apply (H _ Hin). by left. }
  pose proof (change_level_fits d h side c ts Hs Ht Hc) as Hf. pose proof (fits_sane ts (n + Z.of_nat (List.length l)) d _ side (fst c) (snd c) ltac:(lia) Hm' Hf) as Hsane.
  destruct (lf_clear _ _ _ _ _ _ Hf Hq) as [Hc1 Hc2].
  destruct (new_level_set d side (fst c) (snd c) ts Hsane Hq (clear_from _ _ _ _ _ _ Hm' Hs Hc1 Hc2)) as (d1 & E1 & L1).
  { rewrite (mr_shown _ _ _ _ Hm') by done. by apply qty_at_absent. }
  destruct (set_mirrors ts (n + Z.of_nat (List.length l)) d (shown_of h) side (fst c) (snd c) d1 ltac:(lia) Hs Hm' L1) as [Q1 M1].
  set (h1 := with_side h side (side_of h side ++ [c])).
  destruct (side_with h side (side_of h side ++ [c]) Hs) as [W1 W2]. fold h1 in W1, W2.
  destruct (IH n d1 h1 Hn) as (d' & E & Q & M).
  - eapply mirrors_shows; [|exact M1]. intros s q Hs'. unfold h1, update. rewrite shown_with by done.
    case_bool_decide as Es; [subst s; cbn [andb]; by rewrite qty_at_snoc|done].
  - by rewrite W1, <- app_assoc.
  - eapply Forall_impl; [exact Hl|]. intros x [Hx [C1 C2 C3 C4]]. split; [done|]. split; try done; [by rewrite W2|by eapply quiet_clients].
  - rewrite W1, <- app_assoc in E, M. cbn [app] in E, M. exists d'. split; [|split; [by etrans|]].
    + cbn [each]. unfold snapshot_level at 1. rewrite Hj. destruct c as [price qty]. cbn [rbind fst snd] in *.
      rewrite (proj2 (Z.leb_gt qty 0)), E1 by done. cbn [rbind]. rewrite map_app in E. exact E.
    + unfold h1 in M. rewrite with_with in M. exact M.
Qed.

(** A snapshot's two sides. *)
Definition snapshot_read (levels_arr : J) (h : Held) : Prop := exists bids asks rest,
  js_is_array levels_arr = true /\ js_items levels_arr = bids :: asks :: rest
  /\ reads_levels (str "px") (str "sz") (js_items bids) (fst h) /\ reads_levels (str "px") (str "sz") (js_items asks) (snd h).

Definition level_ok_for d (side : Side) (c : price_t * qty_t) : Prop := 0 < snd c /\ no_client_crosses d side (fst c).

Lemma snapshot_applied ts n d h levels_arr : ts <> 0 -> 0 <= n -> venue_book h ->
  mirrors ts (n + Z.of_nat (List.length (fst h)) + Z.of_nat (List.length (snd h))) d (fun _ _ => 0) ->
  snapshot_read levels_arr h -> Forall (level_ok_for d BUY) (fst h) -> Forall (level_ok_for d SELL) (snd h) ->
  exists d', (let* bids := item_at levels_arr 0 in
              let* b := process_side bids BUY ts (d, []) in
              let* asks := item_at levels_arr 1 in
              let* a := process_side asks SELL ts (fst b, []) in
              Ok (desk_book (fst a) (fun book => setLastUpdate book ts 0), (snd b, snd a)))
    = Ok (d', (map fst (fst h), map fst (snd h)))
    /\ quiet d d' /\ mirrors ts n d' (shown_of h).
Proof.
  intros Ht Hn [V1 V2 V3] Hm (jb & ja & rest & L1 & L2 & Rb & Ra) Fb Fa. destruct h as [bids asks]. cbn [fst snd] in *.
  pose proof (V1 BUY (or_introl eq_refl)) as S1. pose proof (V1 SELL (or_intror eq_refl)) as S2. cbn [side_of fst snd] in S1, S2.
  rewrite Forall_forall in Fb, Fa.
  replace (n + _ + _) with (n + Z.of_nat (List.length asks) + Z.of_nat (List.length bids)) in Hm by lia.
  destruct (side_rebuilt ts BUY (js_items jb) bids (or_introl eq_refl) Ht Rb (n + Z.of_nat (List.length asks)) d ([], []))
    as (d1 & E1 & Q1 & M1); [lia|by eapply mirrors_shows; [|exact Hm]; intros [] p []|by apply (best_first_nodup BUY)| |].
  { apply Forall_forall. intros c Hc. destruct (Fb c Hc) as [F1 F2]. split; [done|]. split; [|lia|constructor|done].
    apply (V2 BUY); [by left|by apply list_elem_of_fmap_2]. }
  destruct (side_rebuilt ts SELL (js_items ja) asks (or_intror eq_refl) Ht Ra n d1 (bids, []))
    as (d2 & E2 & Q2 & M2); [lia|exact M1|by apply (best_first_nodup SELL)| |].
  { apply Forall_forall. intros c Hc. destruct (Fa c Hc) as [F1 F2]. assert (Hp : fst c <> NULL_PRICE).
    { apply (V2 SELL); [by right|by apply list_elem_of_fmap_2]. }
    split; [done|]. split; [done|lia| |by eapply quiet_clients]. apply Forall_forall. intros x Hx. apply bids_beyond; [done|].
    apply V3; by apply list_elem_of_fmap_2. }
  destruct (stamped ts n d2 _ ts M2) as [Q3 M3]. eexists. split; [|split; [etrans; [exact Q1|etrans; [exact Q2|exact Q3]]|exact M3]].
  rewrite (item_of levels_arr _ 0 jb L1 L2), (item_of levels_arr _ 1 ja L1 L2) by done. cbn [rbind]. unfold process_side.
  cbn [side_of fst snd app map] in E1, E2. rewrite E1. cbn [rbind fst snd]. rewrite E2. done.
Qed.
End Snapshot.
