(* ===== verification/HyperliquidVenue.v ===== *)
(** * The Hyperliquid venue follows the venue it mirrors

    A message of the level channel leaves the process in order, the instrument's book
    mirroring the venue's, its price array in step and its subscribers answered
    ([l2_message_mirrored]); from the first snapshot of a coin on, whatever diffs follow, the
    book shows exactly the venue's levels ([hyperliquid_mirror_follows]). *)

From S2P Require Import Prelude Types FixedString RingBuffer Orders Messages MarketData.
From S2P Require Import L3Interface L3Lemmas OrderBook OrderBookInv OrderBookOps.
From S2P Require Import Sweep MatchCommon MatchLemmas FifoEngine FifoProofs FifoOrders.
From S2P Require Import ProRata MatchingConfig MatchContract BookState Symbol SymbolProofs.
From S2P Require Import SymbolManager Exchange DeskState ExchangeProofs MarketProofs Reconcile SystemProofs.
From S2P Require Import Instruments MessageParsers JsonAccess L2Diff HyperliquidPublisher CoinbaseFeed CoinbaseProofs.
From S2P Require Import HyperliquidExchange HyperliquidLevels HyperliquidMirror.

Section Published.
Context {L3 Pool : Type} {l3ops : L3Ops L3} {laws : L3Laws L3} {timed : DefaultPriority L3} {poolops : ObjectPool Pool}
  {poollaws : PoolLaws Pool} {env : Environment}.
Abbreviation World := (World L3 Pool).
Abbreviation Desk := (Desk L3 Pool).
Implicit Types w : World.
Implicit Types d : Desk.

(** ** What is published *)

(** The answer to the subscriptions of a channel, as the next frame. *)
Definition answer_frame (b : OrderBook L3 Pool) (ch : HyperliquidChannel) (frame : nat) : MarketDataUpdate :=
  mkMDUpdate (ob_symbol b) (ob_venue b) SUB_RESPONSE (PSubBook (channel_code ch) MDReject.NONE (book_snapshot b frame)).

Definition snapshot_frame (b : OrderBook L3 Pool) (frame : nat) : MarketDataUpdate :=
  mkMDUpdate (ob_symbol b) (ob_venue b) BOOK_SNAPSHOT (PSnapshot (book_snapshot b frame)).

(** First each channel that awaits its first snapshot, then - unless both did - the routine one. *)
Definition l2_frames (i : nat) (pending : PerChannel (gset nat)) (b : OrderBook L3 Pool) (frame : nat) : list MarketDataUpdate :=
  match bool_decide (i ∈ at_channel pending L2_BOOK), bool_decide (i ∈ at_channel pending L2) with
  | true, true => [answer_frame b L2_BOOK frame; answer_frame b L2 (S frame)]
  | true, false => [answer_frame b L2_BOOK frame; snapshot_frame b (S frame)]
  | false, true => [answer_frame b L2 frame; snapshot_frame b (S frame)]
  | false, false => [snapshot_frame b frame]
  end.

Definition settle (i : nat) (pending : PerChannel (gset nat)) : PerChannel (gset nat) :=
  mkPer (pc_l2book pending ∖ {[i]}) (pc_trades pending) (pc_l2 pending ∖ {[i]}).

Lemma take_absent (i : nat) (s : gset nat) : i ∉ s -> s ∖ {[i]} = s.
Proof. intros H. apply leibniz_equiv. set_solver. Qed.

Lemma finalize_frames i pending d :
  let '(pending', d') := finalizeL2Event i pending d in
  pending' = settle i pending
  /\ d' = d <| d_world ::= fun w => w <| w_md ::= fun q => q ++ l2_frames i pending (w_book (d_world d)) (List.length (w_md (d_world d))) |> |>.
Proof.
  unfold finalizeL2Event, l2_frames, settle. destruct pending as [a t b]. cbn [at_channel pc_l2book pc_l2 pc_trades].
  destruct d as [e p s [bk g r m]].
  destruct (bool_decide_reflect (i ∈ a)) as [Ha|Ha]; cbn [set_channel at_channel pc_l2book pc_l2 pc_trades];
    destruct (bool_decide_reflect (i ∈ b)) as [Hb|Hb]; rewrite ?(take_absent i a), ?(take_absent i b) by done; (split; [done|]);
    unfold answer_l2, populateL2Snapshot, populateL2SubscriptionResponse, publish_md; cbn;
    rewrite ?length_app; cbn; rewrite ?Nat.add_1_r, <- ?app_assoc; done.
Qed.

(** What both book handlers do last. *)
Lemma finished i pending d ref : desk_ok d ->
  let r := finish_l2 i pending d ref in
  kept d (fst r) /\ snd r = (settle i pending, ref)
  /\ ob_l3 (w_book (d_world (fst r))) = ob_l3 (w_book (d_world d))
  /\ ob_orders (w_book (d_world (fst r))) = ob_orders (w_book (d_world d)) /\ ob_heap (w_book (d_world (fst r))) = ob_heap (w_book (d_world d))
  /\ w_glob (d_world (fst r)) = w_glob (d_world d) /\ d_symbol (fst r) = d_symbol d
  /\ w_md (d_world (fst r)) = w_md (d_world d) ++ l2_frames i pending (w_book (d_world (fst r))) (List.length (w_md (d_world d))).
Proof.
  intros Hd r. unfold r, finish_l2. pose proof (finalize_frames i pending d) as H. destruct (finalizeL2Event i pending d) as [p' d'].
  destruct H as [-> ->]. cbn [fst snd]. split; [|done]. split; try done; [|by left].
  split; [|exact (dk_ids _ Hd)|exact (dk_engine _ Hd)].
  apply (fine_caches ((d_world d) <| w_md ::= fun q => q ++ l2_frames i pending (w_book (d_world d)) (List.length (w_md (d_world d))) |>) [] []). by apply (fine_same (d_world d)), Hd.
Qed.

Lemma finished_mirrors ts n i pending d ref shown :
  mirrors ts n d shown -> mirrors ts n (fst (finish_l2 i pending d ref)) shown.
Proof.
  intros Hm. destruct (finished i pending d ref (mr_desk _ _ _ _ Hm)) as (K & _ & E1 & E2 & E3 & E4 & E5 & _).
  destruct Hm as [M1 M2 M3 M4 M5 M6 M7 M8]. split; try (rewrite ?E4, ?E5; done).
  - apply K.
  - intros s Hs. unfold queue. rewrite E1. by apply M3.
  - unfold settled. rewrite E5. exact M7.
  - intros s p Hs. rewrite <- M8 by done. apply phantoms_same; [done|]. unfold queue. by rewrite E1.
Qed.

End Published.

Section Venue.
Context {L3 Pool : Type} {l3ops : L3Ops L3} {laws : L3Laws L3} {timed : DefaultPriority L3} {poolops : ObjectPool Pool}
  {poollaws : PoolLaws Pool} {env : Environment} {newbooks : NewBooks L3 Pool} {newlaws : NewBooksLaws L3 Pool}.
Context {J : Type} {json : Json J} {items : JsonItems J} {reader : JsonReader J} {kinds : JsonKinds J} {sdk : HyperliquidSdk J}.
Context (storage : nat -> list MDTrade).
Abbreviation World := (World L3 Pool).
Abbreviation Desk := (Desk L3 Pool).
Abbreviation System := (System L3 Pool).
Abbreviation HyperliquidExchange := (HyperliquidExchange L3 Pool J).
Implicit Types w : World.
Implicit Types d : Desk.
Implicit Types x : HyperliquidExchange.

(** ** What the venue says *)

(** The time of a message, in milliseconds under its key. *)
Definition dated (data : J) (key : bytes) (ts : Z) : Prop :=
  js_is_object data = true /\ exists v ms, js_find data key = Some v /\ js_get_uint64 v = Some ms /\ ts = to_milli_ns ms.

Definition named (data : J) (key coin : bytes) : Prop := exists v, js_find data key = Some v /\ js_get_string v = Some coin.

(** [data] takes the venue's book of the coin from [h] to [h'] and touches [k] levels, each at
    a price [P] allows. *)
Inductive says (coin : bytes) (ts : Z) (P : Side -> price_t -> Prop) (data : J) (h : Held) : Held -> Z -> Prop :=
| SaysSnapshot h' levels_arr :
    named data (str "coin") coin -> js_find data (str "levels") = Some levels_arr -> dated data (str "time") ts ->
    snapshot_read levels_arr h' ->
    Forall (fun c => 0 < snd c /\ P BUY (fst c)) (fst h') -> Forall (fun c => 0 < snd c /\ P SELL (fst c)) (snd h') ->
    says coin ts P data h h' (Z.of_nat (List.length (fst h')) + Z.of_nat (List.length (snd h')))
| SaysDiff l r levels_arr :
    js_find data (str "levels") = None -> named data (str "c") coin -> js_find data (str "l") = Some levels_arr ->
    dated data (str "t") ts -> diff_read data levels_arr l r ->
    Forall (fun c => fst c <> NULL_PRICE /\ 0 <= snd c /\ P BUY (fst c)) (fst l) ->
    Forall (fun c => fst c <> NULL_PRICE /\ 0 <= snd c /\ P SELL (fst c)) (snd l) ->
    says coin ts P data h (diffed h l r) (touched h l r).

Definition prices (h : Held) : RefLevels := (map fst (fst h), map fst (snd h)).

(** The outcome of a message. *)
Record followed (ts n : Z) x (i : nat) d (h' : Held) x' d' : Prop := {
  fw_ok : sys_ok (hx_system x');
  fw_names : sm_symbols_by_name (sys_symbols (hx_system x')) = sm_symbols_by_name (sys_symbols (hx_system x));
  fw_venue : ex_venue (sys_exchange (hx_system x')) = ex_venue (sys_exchange (hx_system x));
  fw_desk : desk_at (hx_system x') i = Some d';
  fw_others : forall j, j <> i -> sm_symbols (sys_symbols (hx_system x')) !! j = sm_symbols (sys_symbols (hx_system x)) !! j;
  fw_mirrors : mirrors ts n d' (shown_of h');
  fw_ref : hx_l2_ref_levels x' !! i = Some (prices h');
  fw_clients : ob_orders (w_book (d_world d')) = ob_orders (w_book (d_world d))
    /\ ob_heap (w_book (d_world d')) = ob_heap (w_book (d_world d));
  fw_pending : hx_pending_md_subscription x' = settle i (hx_pending_md_subscription x);
  fw_frames : sys_md (hx_system x') = sys_md (hx_system x)
    ++ l2_frames i (hx_pending_md_subscription x) (w_book (d_world d')) (List.length (sys_md (hx_system x)))
}.

(** The book of the instrument once the message's levels are in. *)
Lemma message_finished ts n x i d d1 h' :
  sys_ok (hx_system x) -> listed (hx_system x) i -> desk_at (hx_system x) i = Some d -> kept d d1 ->
  ob_orders (w_book (d_world d1)) = ob_orders (w_book (d_world d)) /\ ob_heap (w_book (d_world d1)) = ob_heap (w_book (d_world d)) ->
  w_md (d_world d1) = w_md (d_world d) -> mirrors ts n d1 (shown_of h') ->
  let f := finish_l2 i (hx_pending_md_subscription x) d1 (prices h') in
  let x' := keep_l2 i (x <| hx_system ::= fun sys => put_desk sys (fst f) |>, snd f) in
  followed ts n x i d h' x' (fst f).
Proof.
  intros Hok Hl Hd Hk [O1 O2] Hmd Hm f x'.
  destruct (finished i (hx_pending_md_subscription x) d1 (prices h') (mr_desk _ _ _ _ Hm)) as (K & E0 & _ & E2 & E3 & _ & _ & E6).
  fold f in K, E0, E2, E3, E6. assert (Hk' : kept d (fst f)) by (by etrans).
  destruct (desk_at_inv _ i d Hd) as (_ & Ep & _ & Ew). assert (Hp : d_pointer (fst f) = i) by (rewrite (kp_pointer _ _ Hk'); exact Ep).
  assert (Emd : w_md (d_world d1) = sys_md (hx_system x)) by (by rewrite Hmd, Ew).
  split; change (hx_system x') with (put_desk (hx_system x) (fst f)).
  - by eapply put_desk_kept.
  - done.
  - exact (put_desk_venue _ i d _ Hd Hk').
  - rewrite (put_desk_at _ d _ i i Hd Hp). by rewrite decide_True.
  - intros j Hne. rewrite (put_desk_lookup _ i d _ j Hd Hp). by rewrite decide_False.
  - by apply finished_mirrors.
  - unfold x', keep_l2. cbn. rewrite E0. cbn. by rewrite lookup_insert_eq.
  - by rewrite E2, E3.
  - unfold x', keep_l2. cbn. by rewrite E0.
  - cbn. by rewrite E6, Emd.
Qed.

Lemma find_of (j : J) key v : js_find j key = Some v -> contains j key = true.
Proof. intros E. unfold contains. rewrite E. by apply bool_decide_eq_true_2. Qed.

Lemma time_read data key ts : dated data key ts -> read_time key data = Ok ts.
Proof. intros (Ho & v & ms & Hf & Hg & ->). unfold read_time, value. by rewrite Ho, Hf, Hg. Qed.

Lemma snapshot_followed ts n x coin i d shown data levels_arr h :
  ts <> 0 -> 0 <= n -> sys_ok (hx_system x) -> find_coin x coin = Some i -> desk_at (hx_system x) i = Some d -> venue_book h ->
  mirrors ts (n + (Z.of_nat (List.length (fst h)) + Z.of_nat (List.length (snd h)))) d shown ->
  named data (str "coin") coin -> js_find data (str "levels") = Some levels_arr -> dated data (str "time") ts ->
  snapshot_read levels_arr h -> Forall (level_ok_for d BUY) (fst h) -> Forall (level_ok_for d SELL) (snd h) ->
  exists x' d', processL2BookEvent storage data x = Ok x' /\ followed ts n x i d h x' d'.
Proof.
  intros Ht Hn Hok Hi Hd Hv Hm (jcoin & Ec & Es) El Hdate Hr Fb Fa. pose proof Hm as [M1 M2 M3 M4 M5 M6 M7 _].
  destruct (cleared_mirrors ts _ d M1 M2 M7 M4 M5 M6) as [K0 M0].
  rewrite Z.add_assoc in M0. destruct (clearMDOrders_inv (w_book (d_world d)) (fn_inv _ (dk_fine _ M1))) as (_ & O1 & O2 & _).
  assert (Hcl : forall s p, no_client_crosses d s p -> no_client_crosses (desk_book d clearMDOrders) s p).
  { intros s p H id y. unfold order_at. change (w_book (d_world (desk_book d clearMDOrders))) with (clearMDOrders (w_book (d_world d))).
    rewrite O1, O2. apply H. }
  destruct (snapshot_applied ts n _ h levels_arr Ht Hn Hv M0 Hr) as (d1 & E1 & [Q1 [Q2 Q3] Q4] & M').
  { eapply Forall_impl; [exact Fb|]. intros c [F1 F2]. split; [done|by apply Hcl]. }
  { eapply Forall_impl; [exact Fa|]. intros c [F1 F2]. split; [done|by apply Hcl]. }
  do 2 eexists. split; [|eapply (message_finished ts n x i d d1 h Hok); try done].
  - unfold processL2BookEvent. rewrite (find_of _ _ _ El). unfold processL2Snapshot. rewrite Ec, El. unfold get_as. rewrite Es. cbn [rbind].
    unfold find_or_add. rewrite Hi. cbn [rbind]. destruct Hr as (jb & ja & rest & A1 & A2 & _). unfold js_size. rewrite A2. cbn [List.length Nat.ltb Nat.leb].
    rewrite (time_read _ _ _ Hdate). cbn [rbind]. unfold on_coin. rewrite Hd. cbn [defined rbind]. unfold apply_snapshot.
    rewrite E1. cbn [rbind fst snd]. done.
  - apply (so_books _ Hok coin). exact Hi.
  - etrans; [exact K0|by apply handled_kept].
  - rewrite Q2, Q3. done.
Qed.

Lemma diff_followed ts n x coin i d h data levels_arr l r :
  ts <> 0 -> 0 <= n -> sys_ok (hx_system x) -> find_coin x coin = Some i -> desk_at (hx_system x) i = Some d ->
  hx_l2_ref_levels x !! i = Some (prices h) -> venue_book h -> venue_book (diffed h l r) ->
  mirrors ts (n + touched h l r) d (shown_of h) ->
  js_find data (str "levels") = None -> named data (str "c") coin -> js_find data (str "l") = Some levels_arr ->
  dated data (str "t") ts -> diff_read data levels_arr l r ->
  Forall (change_ok d BUY) (fst l) -> Forall (change_ok d SELL) (snd l) ->
  exists x' d', processL2BookEvent storage data x = Ok x' /\ followed ts n x i d (diffed h l r) x' d'.
Proof.
  intros Ht Hn Hok Hi Hd Hpr Hv Hv' Hm Enone (jcoin & Ec & Es) El Hdate Hr Fb Fa.
  destruct (diff_applied ts n d h l r data levels_arr Ht Hn Hv Hv' Hm Hr Fb Fa) as (d1 & E1 & [Q1 Q2 Q4] & M').
  do 2 eexists. split; [|eapply (message_finished ts n x i d d1 _ Hok); try done].
  - pose proof Hr as [(jr & rb & ra & Er & _) (jb & ja & rest & A1 & A2 & _)].
    unfold processL2BookEvent. unfold contains at 1. rewrite Enone, bool_decide_eq_false_2 by (by intros []).
    rewrite (find_of _ _ _ El), (find_of _ _ _ Er). cbn [andb]. unfold processL2Diff, get_as. rewrite Ec, Es. cbn [rbind].
    unfold find_or_add. rewrite Hi. cbn [rbind]. unfold const_at. rewrite El. cbn [rbind]. unfold js_size. rewrite A2. cbn [List.length Nat.ltb Nat.leb].
    rewrite (time_read _ _ _ Hdate). cbn [rbind]. unfold on_coin. rewrite Hd. cbn [defined rbind]. rewrite Hpr. change (default ([], []) (Some (prices h))) with (prices h). unfold prices in *.
    rewrite E1. cbn [rbind fst snd]. done.
  - apply (so_books _ Hok coin). exact Hi.
  - by apply handled_kept.
Qed.

Lemma message_followed ts n k x coin i d h h' data :
  ts <> 0 -> 0 <= n -> sys_ok (hx_system x) -> find_coin x coin = Some i -> desk_at (hx_system x) i = Some d ->
  hx_l2_ref_levels x !! i = Some (prices h) -> venue_book h -> venue_book h' ->
  mirrors ts (n + k) d (shown_of h) -> says coin ts (no_client_crosses d) data h h' k ->
  exists x' d', processL2BookEvent storage data x = Ok x' /\ followed ts n x i d h' x' d'.
Proof.
  intros Ht Hn Hok Hi Hd Hpr Hv Hv' Hm Hs. destruct Hs.
  - by eapply snapshot_followed.
  - by eapply diff_followed.
Qed.

(** C11. A message of the level channel on a coin whose book mirrors the venue's, with clients
    resting where they would not trade with it: the handler returns, and the phantom
    liquidity at every price of the instrument is what the venue shows after the message -
    its snapshot, or its diff taken by a subscriber that resolves the removed positions
    against the levels it held. The client orders are untouched, nothing trades and no other
    instrument moves; the price array is again the venue's. Published is the answer on each
    of the two book channels that awaited its first snapshot, in channel order, and - unless
    both did - the routine snapshot, all of the new book; neither channel awaits any more. *)
Theorem l2_message_mirrored ts n k x coin i d h h' data :
  ts <> 0 -> 0 <= n -> sys_ok (hx_system x) -> find_coin x coin = Some i -> desk_at (hx_system x) i = Some d ->
  hx_l2_ref_levels x !! i = Some (prices h) -> venue_book h -> venue_book h' ->
  mirrors ts (n + k) d (shown_of h) -> says coin ts (no_client_crosses d) data h h' k ->
  exists x' d', processL2BookEvent storage data x = Ok x' /\ followed ts n x i d h' x' d'.
Proof.
  apply message_followed.
Qed.

(** ** From the first snapshot on *)

Lemma says_allowed coin ts (P Q : Side -> price_t -> Prop) data h h' k :
  (forall s p, P s p -> Q s p) -> says coin ts P data h h' k -> says coin ts Q data h h' k.
Proof.
  intros H [h'' arr H1 H2 H3 H4 H5 H6|l r arr H1 H2 H3 H4 H5 H6 H7].
  - eapply SaysSnapshot; try done; (eapply Forall_impl; [eassumption|]); intros c []; auto.
  - eapply SaysDiff; try done; (eapply Forall_impl; [eassumption|]); intros c (? & ? & ?); auto.
Qed.

(** No client has an order here. *)
Definition deserted d : Prop := ob_orders (w_book (d_world d)) = ∅.

Lemma deserted_clear d side price : deserted d -> no_client_crosses d side price.
Proof. intros E id x. rewrite E. by rewrite lookup_empty. Qed.

Lemma deserted_depth d s p : fine (d_world d) -> book_side s -> deserted d ->
  depth (w_book (d_world d)) s p = phantoms (d_world d) s p.
Proof.
  intros Hf Hs He. pose proof (book_side_ok _ s (bi_l3 _ _ (fn_inv _ Hf)) Hs) as Hok. unfold depth, phantoms, level_qty.
  unfold queue. rewrite (at_level_find s) by done. destruct (List.find _ _) as [l|] eqn:E; [|done].
  apply find_some in E as [Hin _]. pose proof (so_levels _ _ Hok) as Hl. rewrite Forall_forall in Hl.
  destruct (Hl l) as (_ & _ & ->); [by apply list_elem_of_In|]. unfold queue_total, phantom_qty. apply zsum_map_ext, Forall_forall. intros o _.
  unfold findOrder. rewrite He. by rewrite bool_decide_eq_true_2 by apply lookup_empty.
Qed.

(** What the venue says after the book [h], in time order. *)
Inductive speaks (coin : bytes) : Z -> Held -> list J -> Held -> Z -> Prop :=
| SpeaksNothing ts h : speaks coin ts h [] h 0
| SpeaksNext ts ts' h data h' k rest h'' m :
    ts <= ts' -> says coin ts' (fun _ _ => True) data h h' k -> venue_book h' -> 0 <= k -> 0 <= m ->
    speaks coin ts' h' rest h'' m -> speaks coin ts h (data :: rest) h'' (k + m).

Lemma mirrors_later ts ts' n n' d shown : ts <= ts' -> n' <= n -> mirrors ts n d shown -> mirrors ts' n' d shown.
Proof. intros Hle Hn [M1 M2 M3 M4 M5 M6 M7 M8]. split; try done; try lia. intros t s p Ht'. apply M7. lia. Qed.

Lemma followed_find ts n x i d h' x' d' coin : followed ts n x i d h' x' d' -> find_coin x' coin = find_coin x coin.
Proof. intros F. unfold find_coin, getSymbol. by rewrite (fw_names _ _ _ _ _ _ _ _ F), (fw_venue _ _ _ _ _ _ _ _ F). Qed.

Lemma speech_followed coin ts h msgs h' m : speaks coin ts h msgs h' m -> 0 < ts -> venue_book h -> forall x i d,
  sys_ok (hx_system x) -> find_coin x coin = Some i -> desk_at (hx_system x) i = Some d ->
  hx_l2_ref_levels x !! i = Some (prices h) -> deserted d -> mirrors ts m d (shown_of h) ->
  exists x' d' ts', each (processL2BookEvent storage) msgs x = Ok x' /\ sys_ok (hx_system x') /\ find_coin x' coin = Some i
    /\ desk_at (hx_system x') i = Some d' /\ hx_l2_ref_levels x' !! i = Some (prices h') /\ deserted d'
    /\ mirrors ts' 0 d' (shown_of h').
Proof.
  induction 1 as [ts h|ts ts' h data h' k rest h'' m Hle Hs Hv' Hk Hm0 Hr IH]; intros Ht Hv x i d Hok Hi Hd Hpr He Hm.
  { exists x, d, ts. done. }
  destruct (message_followed ts' m k x coin i d h h' data) as (x1 & d1 & E1 & F); try done; [lia| | |].
  - apply (mirrors_later ts ts' (k + m)); [done|lia|exact Hm].
  - eapply says_allowed; [|exact Hs]. intros s p _. by apply deserted_clear.
  - pose proof F as [F1 F2 F3 F4 F5 F6 F7 [F8 F8'] F9 F10].
    destruct (IH ltac:(lia) Hv' x1 i d1 F1) as (x' & d' & t & E & G); try done.
    + rewrite (followed_find _ _ _ _ _ _ _ _ coin F). exact Hi.
    + unfold deserted. by rewrite F8.
    + exists x', d', t. split; [|exact G]. cbn [each]. by rewrite E1.
Qed.

(** A snapshot of a coin never heard of. *)
Record first_snapshot (data : J) (coin : bytes) (ts : Z) (h : Held) : Prop := {
  fs_coin : named data (str "coin") coin;
  fs_time : dated data (str "time") ts;
  fs_levels : exists levels_arr, js_find data (str "levels") = Some levels_arr /\ snapshot_read levels_arr h;
  fs_quantities : Forall (fun c => 0 < snd c) (fst h) /\ Forall (fun c => 0 < snd c) (snd h)
}.

Record opened_venue x (n : Z) : Prop := {
  ov_ok : sys_ok (hx_system x);
  ov_venue : ex_venue (sys_exchange (hx_system x)) = HYPERLIQUID;
  ov_fifo : fifo_venue (sys_exchange (hx_system x));
  ov_numbers : 0 <= g_next_order_id (sys_glob (hx_system x)) < 2 ^ 64 - n;
  ov_priorities : 0 <= g_next_priority (sys_glob (hx_system x)) < 2 ^ 64 - n;
  ov_trades : ids_in_width (sys_glob (hx_system x))
}.

(** A newly opened instrument mirrors an empty venue. *)
Lemma opened_mirrors ts x n coin i sys' d : opened_venue x n -> opened HYPERLIQUID (hx_system x) coin i sys' d ->
  mirrors ts n d (fun _ _ => 0) /\ deserted d.
Proof.
  intros [O1 O2 O3 O4 O5 O6] [P1 P2 P3 P4 P5 P6 P7 P8 P9 P10 [s [P11 _]] P12].
  destruct (desk_at_inv _ _ _ P6) as (_ & _ & _ & Ew).
  assert (Eg : w_glob (d_world d) = sys_glob (hx_system x)) by (rewrite Ew; apply P2).
  assert (Eq : forall sd, book_side sd -> queue (d_world d) sd = []).
  { intros sd Hs. unfold queue. rewrite P11, new_book_levels by done. done. }
  split; [|unfold deserted; by rewrite P11]. split; rewrite ?Eg; try done.
  - by apply (so_desks _ P1 i).
  - intros sd Hs. rewrite Eq by done. constructor.
  - intros t sd p _ _. unfold outstanding, credits_of. rewrite P10. by destruct sd; cbn; rewrite ?lookup_empty.
  - intros sd p Hs. unfold phantoms. by rewrite Eq.
Qed.

Lemma first_followed x n coin ts data h : 0 < ts -> 0 <= n -> opened_venue x (n + (Z.of_nat (List.length (fst h)) + Z.of_nat (List.length (snd h)))) ->
  find_coin x coin = None -> venue_book h -> first_snapshot data coin ts h ->
  exists x' i d', processL2BookEvent storage data x = Ok x' /\ sys_ok (hx_system x') /\ find_coin x' coin = Some i
    /\ desk_at (hx_system x') i = Some d' /\ hx_l2_ref_levels x' !! i = Some (prices h) /\ deserted d' /\ mirrors ts n d' (shown_of h).
Proof.
  intros Ht Hn Ho Hi Hv [F1 F2 (arr & F3 & F4) [F5 F6]]. pose proof Ho as [O1 O2 O3 _ _ _].
  unfold find_coin in Hi. rewrite O2 in Hi.
  destruct (open_symbol_opens HYPERLIQUID (hx_system x) coin (storage (List.length (sm_symbols (sys_symbols (hx_system x))))) O1 O2 O3 Hi)
    as (i & sys' & d & Ea & Hop). destruct (opened_mirrors ts x _ coin i sys' d Ho Hop) as [Hm He].
  set (x1 := x <| hx_system := sys' |>). assert (Hi1 : find_coin x1 coin = Some i).
  { unfold find_coin. cbn. rewrite (od_venue _ _ _ _ _ _ Hop). exact (od_name _ _ _ _ _ _ Hop). }
  destruct (snapshot_followed ts n x1 coin i d (fun _ _ => 0) data arr h) as (x' & d' & E & F); try done.
  - lia.
  - exact (od_ok _ _ _ _ _ _ Hop).
  - exact (od_desk _ _ _ _ _ _ Hop).
  - eapply Forall_impl; [exact F5|]. intros c Hc. split; [done|by apply deserted_clear].
  - eapply Forall_impl; [exact F6|]. intros c Hc. split; [done|by apply deserted_clear].
  - pose proof F as [G1 G2 G3 G4 G5 G6 G7 [G8 G8'] G9 G10]. exists x', i, d'. split; [|split; [exact G1|split; [|split; [done|split; [done|split; [|done]]]]]].
    + revert E. unfold processL2BookEvent, processL2Snapshot. rewrite (find_of _ _ _ F3). destruct F1 as (jc & -> & Es). rewrite F3.
      unfold get_as. rewrite Es. cbn [rbind]. unfold find_or_add. rewrite Hi1. unfold find_coin at 1. rewrite O2, Hi. unfold addSymbol. rewrite Ea.
      done.
    + by rewrite (followed_find _ _ _ _ _ _ _ _ coin F).
    + unfold deserted. by rewrite G8.
Qed.

(** C12. A coin the exchange has never heard of, its first message a snapshot, then any number
    of snapshots and diffs in time order, the venue's book never crossed: all of them are
    processed, and the instrument's book then shows, at every price of both sides, exactly
    what a subscriber of the venue holds, which is also what the price array lists. *)
Theorem hyperliquid_mirror_follows x n coin ts first h0 msgs h :
  0 < ts -> 0 <= n -> opened_venue x (n + (Z.of_nat (List.length (fst h0)) + Z.of_nat (List.length (snd h0)))) ->
  find_coin x coin = None -> venue_book h0 -> first_snapshot first coin ts h0 -> speaks coin ts h0 msgs h n ->
  exists x' i d', each (processL2BookEvent storage) (first :: msgs) x = Ok x' /\ sys_ok (hx_system x')
    /\ find_coin x' coin = Some i /\ desk_at (hx_system x') i = Some d'
    /\ (forall s p, book_side s -> depth (w_book (d_world d')) s p = qty_at p (side_of h s))
    /\ hx_l2_ref_levels x' !! i = Some (prices h).
Proof.
  intros Ht Hn Ho Hi Hv Hf Hs. destruct (first_followed x n coin ts first h0 Ht Hn Ho Hi Hv Hf) as (x1 & i & d1 & E1 & A1 & A2 & A3 & A4 & A5 & A6).
  destruct (speech_followed coin ts h0 msgs h n Hs Ht Hv x1 i d1 A1 A2 A3 A4 A5 A6) as (x' & d' & t & E2 & B1 & B2 & B3 & B4 & B5 & B6).
  exists x', i, d'. split; [cbn [each]; by rewrite E1|]. split; [done|]. split; [done|]. split; [done|]. split; [|done].
  intros s p Hs'. rewrite deserted_depth; [by apply (mr_shown _ _ _ _ B6)|apply (mr_desk _ _ _ _ B6)|done|done].
Qed.
End Venue.
