(* ===== verification/HyperliquidTrades.v ===== *)
(** * Hyperliquid's trades, and who is ahead in a queue

    A print is replayed as an aggressor: what it fills is published and credited, what is
    left rests ranked by its timestamp ([trades_replayed]). Client orders rank by the order
    counter, which no timestamp in nanoseconds stays below: at its price a client's order is
    ahead of all liquidity that joined by timestamp, whoever came first
    ([client_before_venue]). *)

From S2P Require Import Prelude Types FixedString RingBuffer Orders Messages MarketData.
From S2P Require Import L3Interface L3Lemmas OrderBook OrderBookInv OrderBookOps.
From S2P Require Import Sweep MatchCommon MatchLemmas FifoEngine FifoProofs FifoOrders.
From S2P Require Import ProRata MatchingConfig MatchContract BookState Symbol SymbolProofs.
From S2P Require Import SymbolManager Exchange DeskState ExchangeProofs MarketProofs Reconcile SystemProofs.
From S2P Require Import Instruments MessageParsers JsonAccess L2Diff HyperliquidPublisher CoinbaseFeed CoinbaseProofs.
From S2P Require Import HyperliquidExchange HyperliquidLevels HyperliquidMirror HyperliquidVenue.

Section Trades.
Context {L3 Pool : Type} {l3ops : L3Ops L3} {laws : L3Laws L3} {timed : DefaultPriority L3} {poolops : ObjectPool Pool}
  {poollaws : PoolLaws Pool} {env : Environment} {newbooks : NewBooks L3 Pool}.
Context {J : Type} {json : Json J} {items : JsonItems J} {reader : JsonReader J} {kinds : JsonKinds J} {sdk : HyperliquidSdk J}.
Context (storage : nat -> list MDTrade).
Abbreviation World := (World L3 Pool).
Abbreviation Desk := (Desk L3 Pool).
Abbreviation HyperliquidExchange := (HyperliquidExchange L3 Pool J).
Implicit Types w : World.
Implicit Types d : Desk.
Implicit Types x : HyperliquidExchange.

(** ** One print *)

Record Print := mkPrint {
  pt_side : Side;
  pt_price : price_t;
  pt_qty : qty_t;
  pt_time : Z
}.

(** What is left of it is in the book, ranked by the time of the print, or nowhere. *)
Definition timed_remainder d (p : Print) (left : qty_t) d' : Prop :=
  let id := g_next_order_id (w_glob (d_world d)) in
  if left =? 0 then id ∉ book_ids (ob_l3 (w_book (d_world d')))
  else (pt_price p, mkL3Order id left (pt_time p)) ∈ queue (d_world d') (pt_side p).

Record replayed d (p : Print) (summaries : list TradeSummaryInfo) (left : qty_t) d' : Prop := {
  rp_handled : handled d d';
  rp_drew : drew_one (w_glob (d_world d)) (w_glob (d_world d'));
  rp_ranked : ranked (d_world d');
  rp_left : 0 <= left;
  rp_total : zsum (map ts_qty summaries) + left = pt_qty p;
  rp_published : traded_in (w_md (d_world d')) = traded_in (w_md (d_world d)) + zsum (map ts_qty summaries);
  rp_credited : sym_traded_qty_credit (d_symbol d')
    = credit_all (pt_side p) (pt_time p) (sym_traded_qty_credit (d_symbol d)) summaries;
  rp_remainder : timed_remainder d p left d'
}.

(** The engine's part, and the rest. *)
Lemma print_rests d p :
  sane_print d (pt_side p) (pt_price p) (pt_qty p) 0 -> pt_time p <> 0 ->
  let n := g_next_order_id (w_glob (d_world d)) in
  exists w0 w1 summaries left, nextOrderId (d_world d) = (n, w0)
    /\ engine_match_feed FifoMatchingEngine w0 (pt_side p) n (pt_price p) (pt_qty p) (pt_time p) 0 = Some (summaries, left, w1)
    /\ 0 <= left /\ zsum (map ts_qty summaries) + left = pt_qty p
    /\ let d' := rest_remainder n (pt_side p) (pt_price p) left (pt_time p) (d <| d_world := w1 |>) in
       handled d d' /\ drew_one (w_glob (d_world d)) (w_glob (d_world d')) /\ ranked (d_world d')
       /\ w_md (d_world d') = w_md (d_world d) /\ d_symbol d' = d_symbol d /\ timed_remainder d p left d'.
Proof.
  intros Hs Ht n. destruct (number_drawn _ _ _ _ _ Hs) as (w0 & E & Eb & Em & Er & Eg & Hf & Hk & Hnin).
  pose proof Hs as [S1 S2 _ S4 S5 S6 S7 S8 S9].
  assert (Ht0 : ids_in_width (w_glob w0)) by (rewrite Eg; apply S4).
  destruct (fifo_feeds w0 (pt_side p) n (pt_price p) (pt_qty p) (pt_time p) 0 Hf Hk Ht0 S6 S8) as (summaries & left & w1 & Em1 & Hm & Hk1); [done|].
  pose proof (st_counters _ _ (fo_stepped _ _ _ _ _ _ _ Hm)) as (C1 & C2 & _ & _ & C5). rewrite Eg in C1, C2. cbn in C1, C2.
  assert (H1 : handled d (d <| d_world := w1 |>)).
  { apply (feed_world_handled d w0 (pt_side p) (pt_qty p) 0 summaries left w1); try done. rewrite Eg. cbn. fold n. lia. }
  assert (D1 : drew_one (w_glob (d_world d)) (w_glob w1)) by (split; [fold n; lia|lia|intros H; by apply C5]).
  assert (Hnin1 : n ∉ book_ids (ob_l3 (w_book w1))) by (intros Hi; by apply Hnin, (fo_ids _ _ _ _ _ _ _ Hm)).
  exists w0, w1, summaries, left. split; [exact E|]. split; [exact Em1|]. split; [apply Hm|]. split; [apply Hm|].
  pose proof (fo_left _ _ _ _ _ _ _ Hm) as Hl. unfold rest_remainder, timed_remainder. fold n. cbv zeta.
  destruct (0 <? left) eqn:El; bool_to_prop.
  - rewrite (proj2 (Z.eqb_neq left 0)) by lia.
    pose proof (untimed_rests w1 n (pt_side p) (pt_price p) left (pt_time p) (dk_fine _ (hd_ok _ _ H1)) (dk_ids _ (hd_ok _ _ H1))
      Hnin1 ltac:(lia) S6 S7 El Ht) as Hr. pose proof Hr as [R1 R2 R3 R4 R5 R6 [R7 R8]].
    set (w2 := rest_untimed _ _ _ _ _ w1) in *. change ((d <| d_world := w1 |>) <| d_world ::= _ |>) with (d <| d_world := w2 |>).
    assert (H2 : handled (d <| d_world := w1 |>) (d <| d_world := w2 |>)).
    { change (d <| d_world := w2 |>) with ((d <| d_world := w1 |>) <| d_world := w2 |>). apply world_handled; [apply H1|done|done|done|done| |].
      - exists []. rewrite app_nil_r. exact R8.
      - exact (Z.eq_le_incl _ _ (f_equal g_next_order_id (eq_sym R6))). }
    split; [by etrans|]. cbn [d_world upd]. change (d_world (d <| d_world := w2 |>)) with w2. split; [by rewrite R6|].
    split; [by eapply ranked_timed; [apply H1|..]|]. split; [by rewrite R7, (fo_md _ _ _ _ _ _ _ Hm)|]. split; [done|].
    unfold queue. rewrite (proj1 R4), flat_levels_insert. by left.
  - assert (left = 0) as -> by lia. cbn [Z.eqb]. split; [done|]. split; [done|]. split; [done|].
    split; [exact (eq_trans (fo_md _ _ _ _ _ _ _ Hm) Em)|]. by split.
Qed.

Lemma print_replayed d p :
  sane_print d (pt_side p) (pt_price p) (pt_qty p) 0 -> pt_time p <> 0 ->
  exists summaries left d', replay_trade (pt_time p) (pt_side p) (pt_price p, pt_qty p) d = Ok d' /\ replayed d p summaries left d'.
Proof.
  intros Hs Ht. destruct (print_rests d p Hs Ht) as (w0 & w1 & summaries & left & E & Em & Hl & Htot & H1 & D1 & K1 & M1 & S1 & R1).
  set (n := g_next_order_id _) in *. set (d1 := rest_remainder n _ _ _ _ _) in *.
  destruct (credit_summaries (pt_side p) (pt_time p) summaries d1 (hd_ok _ _ H1)) as (C1 & C2 & C3 & C4 & C5).
  exists summaries, left, (fold_left (credit_summary (pt_side p) (pt_time p)) summaries d1). split.
  - unfold replay_trade. rewrite E. unfold match_incoming. change (sym_matching_engine (d_symbol (d <| d_world := w0 |>))) with (sym_matching_engine (d_symbol d)).
    rewrite (sp_fifo _ _ _ _ _ Hs). cbn [fst snd]. change (d_world (d <| d_world := w0 |>)) with w0. rewrite Em. done.
  - split; try done.
    + by etrans.
    + by rewrite C3.
    + intros s Hs'. unfold queue. rewrite C2. by apply K1.
    + by rewrite C4, M1.
    + by rewrite C5, S1.
    + revert R1. unfold timed_remainder, queue. by rewrite C2.
Qed.
(** ** A message of prints *)

(** The prints of a message, one after the other. *)
Inductive all_replayed : Desk -> list Print -> Desk -> Prop :=
| ReplayedNone d : all_replayed d [] d
| ReplayedNext d p ps summaries left d1 d' :
    replayed d p summaries left d1 -> all_replayed d1 ps d' -> all_replayed d (p :: ps) d'.

(** A print as the venue writes it. *)
Definition reads_print (trade : J) (p : Print) : Prop :=
  (exists v s, js_find trade (str "side") = Some v /\ js_get_string v = Some s
     /\ pt_side p = if bytes_eqb s (str "B") then BUY else SELL)
  /\ read_level (str "px") (str "sz") trade = Ok (pt_price p, pt_qty p)
  /\ dated trade (str "time") (pt_time p).

Definition print_ok (p : Print) : Prop := pt_price p <> NULL_PRICE /\ 0 <= pt_qty p /\ pt_time p <> 0.

(** An instrument ready for [n] prints. *)
Record tradable d (n : Z) : Prop := {
  td_desk : desk_ok d;
  td_fifo : sym_matching_engine (d_symbol d) = Some FifoMatchingEngine;
  td_ranked : ranked (d_world d);
  td_priorities : 0 <= g_next_priority (w_glob (d_world d)) < 2 ^ 64 - n;
  td_numbers : 0 <= g_next_order_id (w_glob (d_world d)) < 2 ^ 64 - n;
  td_trades : ids_in_width (w_glob (d_world d))
}.

Lemma tradable_print d n p : tradable d n -> 1 <= n -> book_side (pt_side p) -> print_ok p ->
  sane_print d (pt_side p) (pt_price p) (pt_qty p) 0.
Proof. intros [T1 T2 T3 T4 T5 T6] Hn Hs (P1 & P2 & _). split; try done; [split; [lia|done]|lia]. Qed.

Lemma tradable_next d n p summaries left d' : tradable d (n + 1) -> replayed d p summaries left d' -> tradable d' n.
Proof.
  intros [T1 T2 T3 T4 T5 T6] [[R1 [] _ _] [D1 D2 D3] R3 _ _ _ _ _]. split; try done; try lia; [|by apply D3].
  destruct dt_symbol as (_ & _ & _ & E & _). by rewrite E.
Qed.

Lemma trade_read trade p d : reads_print trade p ->
  process_trade trade d = replay_trade (pt_time p) (pt_side p) (pt_price p, pt_qty p) d /\ book_side (pt_side p).
Proof.
  intros ((v & s & E1 & E2 & E3) & E4 & E5). split; [|rewrite E3; destruct (bytes_eqb _ _); [by left|by right]].
  unfold process_trade, value at 1. rewrite (proj1 E5), E1, E2. cbn [rbind]. rewrite (time_read _ _ _ E5), E3.
  revert E4. unfold read_level. destruct (number_at trade (str "px")) as [px|e|]; [|done..]. cbn [rbind].
  destruct (number_at trade (str "sz")) as [sz|e|]; [|done..]. cbn [rbind].
  destruct (to_price_result px) as [a|e|]; [|done..]. cbn [rbind]. destruct (to_qty_result sz) as [b|e|]; [|done..]. cbn [rbind].
  intros [= -> ->]. done.
Qed.

Lemma prints_replayed trades prints : Forall2 reads_print trades prints -> Forall print_ok prints -> forall d,
  tradable d (Z.of_nat (List.length prints)) -> exists d', each process_trade trades d = Ok d' /\ all_replayed d prints d' /\ kept d d'.
Proof.
  induction 1 as [|t p ts ps Hp _ IH]; intros Hok d Hd. { exists d. split; [done|]. split; [constructor|]. apply handled_kept, handled_refl, Hd. }
  apply Forall_cons in Hok as [Hp1 Hok]. cbn [List.length] in Hd. rewrite Nat2Z.inj_succ in Hd. destruct (trade_read t p d Hp) as [E Hs].
  destruct (print_replayed d p) as (summaries & left & d1 & E1 & R); [by eapply (tradable_print d _ p Hd); [lia|..]|apply Hp1|].
  destruct (IH Hok d1 (tradable_next _ _ _ _ _ _ Hd R)) as (d' & E2 & R2 & K). exists d'. cbn [each]. rewrite E, E1. cbn [rbind].
  split; [done|]. split; [by econstructor|]. etrans; [apply handled_kept, (rp_handled _ _ _ _ _ R)|done].
Qed.

(** The desk after the routine snapshot. *)
Lemma snapshot_kept d : desk_ok d ->
  let d' := clear_caches (d <| d_world ::= populateL2Snapshot |>) in
  kept d d' /\ ob_l3 (w_book (d_world d')) = ob_l3 (w_book (d_world d)) /\ d_symbol d' = d_symbol d
  /\ w_md (d_world d') = w_md (d_world d) ++ [snapshot_frame (w_book (d_world d)) (List.length (w_md (d_world d)))].
Proof.
  intros Hd d'. pose proof (finished 0%nat (mkPer ∅ ∅ ∅) d ([], []) Hd) as (K & _ & E1 & _ & _ & _ & E5 & _).
  assert (E : d' = fst (finish_l2 0%nat (mkPer ∅ ∅ ∅) d ([], []))) by done. by rewrite E.
Qed.

(** ** Who is ahead *)

(** A level the venue opens rests behind every client order that joins its price later:
    the level is ranked by its time in nanoseconds and the client's order by the exchange's
    counter, so the client's order is first in the queue although it came second. *)
Lemma client_before_venue d side price qty ts y t seq last :
  sane_level d side price qty ts -> 0 < qty -> clear_of (d_world d) side price -> at_level price (queue (d_world d) side) = [] ->
  g_next_priority (w_glob (d_world d)) + 1 < ts ->
  exists d', new_level side price qty ts d = Ok d' /\
    let w := d_world d' in
    let client := order_at w y in
    (joinable (w_book w) y -> o_side client = side -> o_price client = price -> seq_accepted (ob_l3 (w_book w)) seq = true ->
     at_level price (queue (addOrder w y t seq last) side)
     = [mkL3Order (o_id client) (o_leaves_quantity client) (g_next_priority (w_glob w) + 1);
        mkL3Order (g_next_order_id (w_glob (d_world d))) qty ts]).
Proof.
  intros Hl Hq Hc He Hts. destruct (new_level_rests d side price qty ts Hl Hq Hc) as (d' & w0 & E & Ed & H1 & Hr & Eb & Em & Eg).
  pose proof Hl as [[S1 S2 S3 S4 S5 S6 S7 S8 S9] Ht _ _ _]. exists d'. split; [exact E|]. intros w client Hj Es Epr Ha.
  assert (Hf0 : fine w0) by (by apply (fine_same (d_world d)); [|apply S1]).
  destruct (timed_queue _ _ _ _ _ _ _ Hf0 S6 Hr) as (Q1 & _ & _). unfold queue at 2 in Q1. rewrite Eb in Q1. unfold queue in He. rewrite He in Q1.
  assert (Ew : w_glob w = (w_glob (d_world d)) <| g_next_order_id := g_next_order_id (w_glob (d_world d)) + 1 |>).
  { unfold w. by rewrite (rt_glob _ _ _ _ _ _ _ Hr). }
  assert (Hroom : roomy (w_glob w)) by (rewrite Ew; exact S4). pose proof (next_priority_room _ Hroom) as Ep. destruct Hroom as [Hroom _].
  assert (Eprio : g_next_priority (w_glob w) = g_next_priority (w_glob (d_world d))) by (by rewrite Ew).
  pose proof (fn_inv _ (dk_fine _ (hd_ok _ _ H1))) as Hb.
  destruct (addOrder_inv None w y t seq last Hb Hj Ha) as (_ & [Hside _] & _ & _); [rewrite Ep; lia|done|].
  fold client in Hside. rewrite Ep in Hside. cbn [o_id o_side o_price o_leaves_quantity upd] in Hside.
  change (o_side (client <| o_priority := g_next_priority (w_glob w) + 1 |>)) with (o_side client) in Hside.
  change (o_price (client <| o_priority := g_next_priority (w_glob w) + 1 |>)) with (o_price client) in Hside.
  rewrite Es, Epr in Hside. unfold queue. rewrite Hside.
  rewrite (proj1 (at_level_insert side price _ _ (book_side_ok _ side (bi_l3 _ _ Hb) S6))). unfold queue in Q1. etrans; [exact (f_equal (queue_insert _) Q1)|].
  cbn [queue_insert l3_priority]. rewrite (proj2 (Z.leb_gt _ _)) by lia. done.
Qed.
End Trades.
