(* ===== verification/HyperliquidSubscriptions.v ===== *)
(** * Subscribing to a coin

    A coin's first subscriber on a book channel waits for the venue's first snapshot and is
    answered with it ([hyperliquid_subscriber_served]). The wait is kept per channel, and only
    for the channel that opened the coin: who subscribes to the other book channel before
    that snapshot is answered at once, with the empty book ([hyperliquid_second_channel_empty]). *)

From S2P Require Import Prelude Types FixedString RingBuffer Orders Messages MarketData.
From S2P Require Import L3Interface L3Lemmas OrderBook OrderBookInv OrderBookOps.
From S2P Require Import Sweep MatchCommon MatchLemmas FifoEngine FifoProofs FifoOrders.
From S2P Require Import ProRata MatchingConfig MatchContract BookState Symbol SymbolProofs.
From S2P Require Import SymbolManager Exchange DeskState ExchangeProofs MarketProofs Reconcile SystemProofs.
From S2P Require Import Instruments MessageParsers JsonAccess L2Diff HyperliquidPublisher CoinbaseFeed CoinbaseProofs.
From S2P Require Import HyperliquidExchange HyperliquidLevels HyperliquidMirror HyperliquidVenue.

Section Subscriptions.
Context {L3 Pool : Type} {l3ops : L3Ops L3} {laws : L3Laws L3} {timed : DefaultPriority L3} {poolops : ObjectPool Pool}
  {poollaws : PoolLaws Pool} {env : Environment} {newbooks : NewBooks L3 Pool} {newlaws : NewBooksLaws L3 Pool}.
Context {J : Type} {json : Json J} {items : JsonItems J} {reader : JsonReader J} {kinds : JsonKinds J} {sdk : HyperliquidSdk J}.
Context (storage : nat -> list MDTrade).
Abbreviation Desk := (Desk L3 Pool).
Abbreviation HyperliquidExchange := (HyperliquidExchange L3 Pool J).
Implicit Types d : Desk.
Implicit Types x : HyperliquidExchange.

(** ** The feeds *)

(** Attaching a coin touches the feeds only. *)
Lemma attach_fields coin x :
  hx_system (attach_coin coin x) = hx_system x
  /\ hx_pending_md_subscription (attach_coin coin x) = hx_pending_md_subscription x
  /\ hx_l2_ref_levels (attach_coin coin x) = hx_l2_ref_levels x /\ hx_use_live_feed (attach_coin coin x) = hx_use_live_feed x
  /\ is_Some (hx_map_coin_feed (attach_coin coin x) !! coin).
Proof.
  unfold attach_coin. destruct (hx_map_coin_feed x !! coin) as [f|] eqn:E; [(do 4 (split; [done|])); exists f; exact E|].
  destruct (hx_md_feeds x) as [|f fs]; cbn; rewrite ?E; (do 4 (split; [done|])); unfold map_coin; rewrite E, lookup_insert_eq; by eexists.
Qed.

(** ** The first subscription *)

Definition counted (s : Symbol) : Symbol := s <| sym_num_subscriptions ::= fun n => u16 (n + 1) |>.

(** Whoever waits, waits for an instrument there is. *)
Definition waiting_listed x : Prop :=
  forall ch j, j ∈ at_channel (hx_pending_md_subscription x) ch -> is_Some (sm_symbols (sys_symbols (hx_system x)) !! j).

(** The exchange once a coin was opened for a subscriber of [ch]. *)
Record subscribed x (coin : bytes) (ch : HyperliquidChannel) x1 (i : nat) d : Prop := {
  sb_ok : sys_ok (hx_system x1);
  sb_venue : ex_venue (sys_exchange (hx_system x1)) = HYPERLIQUID;
  sb_coin : find_coin x1 coin = Some i;
  sb_desk : desk_at (hx_system x1) i = Some d;
  sb_symbol : ob_symbol (w_book (d_world d)) = assign 32 coin;
  sb_deserted : deserted d;
  sb_count : sym_num_subscriptions (d_symbol d) = 1;
  sb_globals : w_glob (d_world d) = sys_glob (hx_system x);
  sb_silent : sys_md (hx_system x1) = sys_md (hx_system x);
  sb_pending : hx_pending_md_subscription x1 = set_channel ch (fun s => {[i]} ∪ s) (hx_pending_md_subscription x);
  sb_new : sm_symbols (sys_symbols (hx_system x)) !! i = None;
  sb_live : hx_use_live_feed x1 = true;
  sb_feed : is_Some (hx_map_coin_feed x1 !! coin)
}.

Lemma counted_mirrors ts n d shown : mirrors ts n d shown -> mirrors ts n (d <| d_symbol ::= counted |>) shown.
Proof.
  intros [M1 M2 M3 M4 M5 M6 M7 M8]. split; try done. eapply desk_ok_same; [exact M1|done|done|done].
Qed.

Lemma subscription_opens x n request msg ch :
  opened_venue x n -> hx_use_live_feed x = true -> find_coin x (view (req_symbol request)) = None ->
  channel_of (mds_channel msg) = Some ch -> ch <> TRADES ->
  exists x1 i d, handleMdSubscription storage request msg x = Ok x1
    /\ subscribed x (view (req_symbol request)) ch x1 i d /\ (forall ts, mirrors ts n d (fun _ _ => 0)).
Proof.
  intros Ho Hlive Hn Hch Htr. set (coin := view (req_symbol request)) in *. pose proof Ho as [O1 O2 O3 O4 O5 O6].
  pose proof Hn as Hn0. unfold find_coin in Hn. rewrite O2 in Hn.
  destruct (open_symbol_opens HYPERLIQUID (hx_system x) coin (storage (List.length (sm_symbols (sys_symbols (hx_system x))))) O1 O2 O3 Hn)
    as (i & sys' & d & Ea & Hop). destruct (desk_at_inv _ _ _ (od_desk _ _ _ _ _ _ Hop)) as (Eins & Ep & Eex & Ew).
  pose proof (opened_mirrors 0 x n coin i sys' d Ho Hop) as [_ Hde]. pose proof Hop as [P1 P2 P3 P4 P5 P6 P7 P8 P9 P10 [s [P11 P11']] P12].
  set (d' := d <| d_symbol ::= counted |>).
  set (xa := x <| hx_system := put_desk sys' d' |>). set (xb := attach_coin coin xa).
  destruct (attach_fields coin xa) as (A1 & A2 & A3 & A4 & A5). fold xb in A1, A2, A3, A4, A5.
  set (x1 := xb <| hx_pending_md_subscription ::= set_channel ch (fun s => {[i]} ∪ s) |>). assert (B1 : hx_system x1 = put_desk sys' d') by exact A1.
  exists x1, i, d'.
  assert (Hd' : desk_at (put_desk sys' d') i = Some d') by (rewrite (put_desk_at sys' d d' i i P6 Ep); by rewrite decide_True).
  assert (Hd : desk_ok d) by (by apply (so_desks _ P1 i)).
  assert (Hk : kept d d') by (apply handled_kept, symbol_handled; done).
  split; [|split].
  - unfold handleMdSubscription. fold coin. rewrite Hn0. unfold find_or_add, addSymbol. rewrite Hn0, Ea. cbn [rbind fst snd].
    rewrite bool_decide_eq_false_2 by (by intros []). cbn [negb].
    change (hx_use_live_feed (x <| hx_system := sys' |> <| hx_system ::= _ |>)) with (hx_use_live_feed x). rewrite Hlive, Hch. cbn [defined rbind].
    assert (Ex : x <| hx_system := on_symbol counted i sys' |> = xa) by (by rewrite (on_symbol_put sys' i d counted P6)).
    unfold x1, xb. rewrite <- Ex. by destruct ch.
  - assert (Hl : listed sys' i) by (apply (so_books _ P1 coin); by rewrite P3).
    split; rewrite ?B1.
    + by apply (put_desk_kept sys' i d d').
    + rewrite <- P3. exact (put_desk_venue sys' i d d' P6 Hk).
    + unfold find_coin. rewrite B1. cbn. rewrite Eex, P3. exact P5.
    + exact Hd'.
    + cbn. by rewrite P11.
    + unfold deserted. cbn. by rewrite P11.
    + unfold d', counted. cbn. by rewrite P7.
    + cbn. rewrite Ew. apply P2.
    + cbn. rewrite Ew. cbn. apply P2.
    + exact (f_equal (set_channel ch (fun s => {[i]} ∪ s)) A2).
    + destruct (sm_symbols (sys_symbols (hx_system x)) !! i) as [ins|] eqn:E; [|done]. exfalso.
      pose proof (gr_old _ _ P2 _ _ E) as E2.
      destruct (proj1 (so_names _ P1 _ i) P5) as (ins' & Hi' & Ek). rewrite E2 in Hi'. injection Hi' as <-.
      unfold getSymbol in Hn. rewrite Ek in Hn. rewrite (proj2 (so_names _ O1 _ i)) in Hn; [done|]. by exists ins.
    + exact (eq_trans A4 Hlive).
    + exact A5.
  - intros ts. apply counted_mirrors. apply (opened_mirrors ts x n coin i sys' d Ho Hop).
Qed.

Definition book_channel (ch : HyperliquidChannel) : Prop := ch <> TRADES.

Lemma waits_alone x coin ch x1 i d : waiting_listed x -> subscribed x coin ch x1 i d -> forall c,
  i ∈ at_channel (hx_pending_md_subscription x1) c <-> c = ch.
Proof.
  intros Hw Hs c. rewrite (sb_pending _ _ _ _ _ _ Hs), at_set_channel. assert (Hn : forall c, i ∉ at_channel (hx_pending_md_subscription x) c).
  { intros c' Hc. apply Hw in Hc as [ins Hc]. by rewrite (sb_new _ _ _ _ _ _ Hs) in Hc. }
  case_bool_decide as Ec; [set_solver|]. split; [by intros []%Hn|done].
Qed.

(** What the first snapshot publishes to a subscriber of one channel. *)
Lemma frames_of_one (i : nat) (p : PerChannel (gset nat)) ch (b : OrderBook L3 Pool) frame : book_channel ch ->
  (forall c, i ∈ at_channel p c <-> c = ch) -> l2_frames i p b frame = [answer_frame b ch frame; snapshot_frame b (S frame)].
Proof.
  intros Hch Hp. unfold l2_frames. destruct ch; [|by destruct Hch|].
  - rewrite bool_decide_eq_true_2 by (by apply Hp). rewrite bool_decide_eq_false_2; [done|]. by intros H%Hp.
  - rewrite bool_decide_eq_false_2 by (by intros H%Hp). rewrite bool_decide_eq_true_2; [done|]. by apply Hp.
Qed.

(** C13. A subscriber of a coin the exchange has never heard of, on a book channel of the live
    venue: nothing is published until the venue's first snapshot of the coin; that snapshot
    then goes out twice, first as the answer to the subscriptions of exactly this channel and
    then as the routine snapshot, both showing the venue's book; nobody is waiting on the
    channel any more. *)
Theorem hyperliquid_subscriber_served x n request msg ch ts data h :
  0 < ts -> 0 <= n -> opened_venue x (n + (Z.of_nat (List.length (fst h)) + Z.of_nat (List.length (snd h)))) ->
  waiting_listed x -> hx_use_live_feed x = true -> find_coin x (view (req_symbol request)) = None ->
  channel_of (mds_channel msg) = Some ch -> book_channel ch ->
  venue_book h -> first_snapshot data (view (req_symbol request)) ts h ->
  exists x1 x2 i d, handleMdSubscription storage request msg x = Ok x1 /\ sys_md (hx_system x1) = sys_md (hx_system x)
    /\ processL2BookEvent storage data x1 = Ok x2 /\ sys_ok (hx_system x2)
    /\ find_coin x2 (view (req_symbol request)) = Some i /\ desk_at (hx_system x2) i = Some d
    /\ (forall s p, book_side s -> depth (w_book (d_world d)) s p = qty_at p (side_of h s))
    /\ (let frame := List.length (sys_md (hx_system x)) in
        sys_md (hx_system x2) = sys_md (hx_system x) ++ [answer_frame (w_book (d_world d)) ch frame; snapshot_frame (w_book (d_world d)) (S frame)])
    /\ i ∉ at_channel (hx_pending_md_subscription x2) ch.
Proof.
  intros Ht Hn Ho Hw Hlive Hi Hch Hbook Hv [F1 F2 (arr & F3 & F4) [F5 F6]]. set (coin := view (req_symbol request)) in *.
  destruct (subscription_opens x _ request msg ch Ho Hlive Hi Hch Hbook) as (x1 & i & d & E1 & Hs & Hm). fold coin in Hs.
  pose proof Hs as [S1 S2 S3 S4 S5 S6 S7 S8 S9 S10 S11 S12 S13].
  destruct (snapshot_followed storage ts n x1 coin i d (fun _ _ => 0) data arr h) as (x2 & d2 & E2 & F); try done; [lia| | |].
  { eapply Forall_impl; [exact F5|]. intros c Hc. split; [done|by apply deserted_clear]. }
  { eapply Forall_impl; [exact F6|]. intros c Hc. split; [done|by apply deserted_clear]. }
  pose proof F as [G1 G2 G3 G4 G5 G6 G7 [G8 G8'] G9 G10]. exists x1, x2, i, d2. do 3 (split; [done|]). split; [exact G1|].
  split; [by rewrite (followed_find _ _ _ _ _ _ _ _ coin F)|]. split; [exact G4|]. split; [|split].
  - intros s p Hs'. rewrite deserted_depth; [by apply (mr_shown _ _ _ _ G6)|apply (mr_desk _ _ _ _ G6)|done|by unfold deserted; rewrite G8].
  - rewrite G10, S9, (frames_of_one i _ ch); [done|done|by eapply waits_alone].
  - rewrite G9. unfold settle. destruct ch; cbn; [|by destruct Hbook|]; set_solver.
Qed.

(** C14. Who subscribes to the other book channel of that coin before the venue's first
    snapshot is not made to wait: the answer goes out at once, and the book it shows is
    empty; the first snapshot will be no answer on that channel. *)
Theorem hyperliquid_second_channel_empty x n request msg ch request' msg' ch' :
  opened_venue x n -> waiting_listed x -> hx_use_live_feed x = true -> find_coin x (view (req_symbol request)) = None ->
  channel_of (mds_channel msg) = Some ch -> book_channel ch ->
  view (req_symbol request') = view (req_symbol request) -> channel_of (mds_channel msg') = Some ch' -> book_channel ch' -> ch' <> ch ->
  exists x1 x2 i d, handleMdSubscription storage request msg x = Ok x1 /\ handleMdSubscription storage request' msg' x1 = Ok x2
    /\ find_coin x2 (view (req_symbol request)) = Some i /\ desk_at (hx_system x2) i = Some d
    /\ ob_symbol (w_book (d_world d)) = assign 32 (view (req_symbol request))
    /\ (forall s p, book_side s -> depth (w_book (d_world d)) s p = 0)
    /\ sys_md (hx_system x2) = sys_md (hx_system x) ++ [answer_frame (w_book (d_world d)) ch' (List.length (sys_md (hx_system x)))]
    /\ i ∉ at_channel (hx_pending_md_subscription x2) ch'.
Proof.
  intros Ho Hw Hlive Hi Hch Hbook Er Hch' Hbook' Hne. set (coin := view (req_symbol request)) in *.
  destruct (subscription_opens x _ request msg ch Ho Hlive Hi Hch Hbook) as (x1 & i & d & E1 & Hs & Hm). fold coin in Hs.
  pose proof (waits_alone _ _ _ _ _ _ Hw Hs ch') as Hwait. pose proof Hs as [S1 S2 S3 S4 S5 S6 S7 S8 S9 S10 S11 S12 S13].
  destruct (desk_at_inv _ _ _ S4) as (Eins & Ep & Eex & Ew). set (d' := d <| d_symbol ::= counted |>).
  assert (Hd : desk_ok d) by (by apply (so_desks _ S1 i)). specialize (Hm 0).
  set (d2 := answer_l2 ch' d'). set (sys1 := put_desk (hx_system x1) d').
  assert (Hd' : desk_at sys1 i = Some d') by (unfold sys1; rewrite (put_desk_at _ d d' i i S4 Ep); by rewrite decide_True).
  exists x1, (x1 <| hx_system := put_desk sys1 d2 |>), i, d2. split; [done|]. split.
  { unfold handleMdSubscription. rewrite Er. fold coin. unfold find_or_add. rewrite S3. cbn [rbind].
    rewrite bool_decide_eq_true_2 by (by eexists). cbn [negb].
    change (hx_use_live_feed (x1 <| hx_system ::= _ |>)) with (hx_use_live_feed x1). rewrite S12, Hch'. cbn [defined rbind].
    change (hx_pending_md_subscription (x1 <| hx_system ::= _ |>)) with (hx_pending_md_subscription x1).
    rewrite bool_decide_eq_false_2 by (by rewrite Hwait).
    assert (Ex : x1 <| hx_system := on_symbol counted i (hx_system x1) |> = x1 <| hx_system := sys1 |>) by (by rewrite (on_symbol_put _ i d counted S4)).
    etrans; [exact (f_equal (answer_now ch' i) Ex)|]. unfold answer_now, on_coin. change (hx_system (x1 <| hx_system := sys1 |>)) with sys1.
    rewrite Hd'. cbn [defined rbind fst snd]. by destruct ch'. }
  split. { unfold find_coin in *. cbn. rewrite Eex. exact S3. }
  split. { cbn. rewrite (put_desk_at sys1 d' d2 i i Hd' Ep). by rewrite decide_True. }
  split; [exact S5|]. split; [|split].
  - intros s p Hs'. change (w_book (d_world d2)) with (w_book (d_world d)). rewrite deserted_depth by (done || apply Hd).
    by apply (mr_shown _ _ _ _ Hm).
  - rewrite <- S9. change (w_md (d_world d) ++ [answer_frame (w_book (d_world d)) ch' (List.length (w_md (d_world d)))]
      = sys_md (hx_system x1) ++ [answer_frame (w_book (d_world d)) ch' (List.length (sys_md (hx_system x1)))]). by rewrite Ew.
  - cbn. by rewrite Hwait.
Qed.
End Subscriptions.
