(* ===== verification/HyperliquidSamples.v ===== *)
(** * A Hyperliquid venue at work

    A venue with no instruments yet and the messages of one coin: the theorems of the
    Hyperliquid venue applied to them. *)

From S2P Require Import Prelude Types FixedString RingBuffer Orders Messages MarketData L3Interface.
From S2P Require Import L3Lemmas L3Reference OrderBook OrderBookInv Concrete OrderBookOps.
From S2P Require Import Sweep MatchCommon MatchLemmas FifoEngine FifoProofs FifoOrders ProRata.
From S2P Require Import MatchingConfig MatchContract BookState Symbol SymbolProofs SymbolManager.
From S2P Require Import Exchange DeskState ExchangeProofs MarketProofs Reconcile SystemProofs.
From S2P Require Import Instruments MessageParsers JsonAccess L2Diff HyperliquidPublisher.
From S2P Require Import CoinbaseFeed CoinbaseProofs HyperliquidExchange HyperliquidLevels.
From S2P Require Import HyperliquidMirror HyperliquidVenue HyperliquidTrades.
From S2P Require Import HyperliquidSubscriptions.

#[local] Existing Instances doc_json doc_items doc_reader doc_kinds.

#[local] Instance doc_sdk : HyperliquidSdk Doc := { decode_l2_diff _ := None; subscription_id n := Z.of_nat n }.

(** ** The venue and its messages *)

Definition hl_storage : nat -> list MDTrade := fun _ => [].

Definition hl_system : System RefBook Z := no_instruments <| sys_exchange := sample_exchange <| ex_venue := HYPERLIQUID |> |>.

Definition hl_venue : HyperliquidExchange RefBook Z Doc := mkHyperliquid hl_system [] [] ∅ (mkPer ∅ ∅ ∅) ∅ true [] [].

Definition level_doc (price_key size_key price size : string) : Doc :=
  DObject [(str price_key, DText (str price)); (str size_key, DText (str size))].

(** Bids 100 and 99, ask 101. *)
Definition btc_snapshot : Doc := DObject
  [(str "coin", DText (str "BTC")); (str "time", DNumber 1000);
   (str "levels", DArray [DArray [level_doc "px" "sz" "100" "2"; level_doc "px" "sz" "99" "1"]; DArray [level_doc "px" "sz" "101" "3"]])].

(** The best bid removed, 98 and 102 added. *)
Definition btc_diff : Doc := DObject
  [(str "c", DText (str "BTC")); (str "t", DNumber 1001);
   (str "l", DArray [DArray [level_doc "p" "s" "98" "5"]; DArray [level_doc "p" "s" "102" "1"]]);
   (str "r", DArray [DArray [DNumber 0]; DArray []])].

Definition units (z : Z) : Z := z * 100000000.
Definition btc_held : (list (price_t * qty_t) * list (price_t * qty_t))%type :=
  ([(units 100, units 2); (units 99, units 1)], [(units 101, units 3)]).
Definition btc_changes : (list (price_t * qty_t) * list (price_t * qty_t))%type := ([(units 98, units 5)], [(units 102, units 1)]).
Definition btc_removed : (list nat * list nat)%type := ([0%nat], []).
Definition btc_later := diffed btc_held btc_changes btc_removed.

Example btc_later_is : btc_later = ([(units 99, units 1); (units 98, units 5)], [(units 101, units 3); (units 102, units 1)]).
Proof. vm_compute. reflexivity. Qed.

Lemma hl_system_ok : sys_ok hl_system.
Proof.
  split.
  - intros k i. cbn. rewrite lookup_empty. split; [done|]. by intros (ins & H & _).
  - intros name i H. unfold getSymbol in H. cbn in H. by rewrite lookup_empty in H.
  - intros i d H. done.
  - intros i H. by apply elem_of_nil in H.
Qed.

Lemma hl_venue_opened n : n < 2 ^ 63 -> opened_venue hl_venue n.
Proof.
  intros Hn. split; [exact hl_system_ok|done|split; [done|by right]| | |done]; cbn; lia.
Qed.

Ltac each_level := repeat match goal with H : _ ∈ _ :: _ |- _ => apply elem_of_cons in H as [->|H] | H : _ ∈ [] |- _ => by apply elem_of_nil in H end.

Ltac venue_in_order :=
  split; [intros s [-> | ->]; repeat constructor|intros s p [-> | ->] Hp; cbn in Hp; each_level; by vm_compute
         |intros b a Hb Ha; cbn in Hb, Ha; each_level; by vm_compute].

Lemma btc_held_book : venue_book btc_held.
Proof. venue_in_order. Qed.

Lemma btc_later_book : venue_book btc_later.
Proof. rewrite btc_later_is. venue_in_order. Qed.

Lemma btc_first : first_snapshot btc_snapshot (str "BTC") (to_milli_ns 1000) btc_held.
Proof.
  split.
  - eexists. split; reflexivity.
  - split; [reflexivity|]. do 2 eexists. repeat split.
  - eexists. split; [reflexivity|]. do 3 eexists. split; [reflexivity|]. split; [reflexivity|].
    split; repeat (constructor; [vm_compute; reflexivity|]); constructor.
  - split; repeat constructor.
Qed.

Lemma btc_says P : (forall s p, P s p) -> says (str "BTC") (to_milli_ns 1001) P btc_diff btc_held btc_later (touched btc_held btc_changes btc_removed).
Proof.
  intros HP. apply (SaysDiff _ _ P btc_diff btc_held btc_changes btc_removed (default btc_diff (js_find btc_diff (str "l")))).
  - reflexivity.
  - eexists. split; reflexivity.
  - reflexivity.
  - split; [reflexivity|]. do 2 eexists. repeat split.
  - split.
    + do 3 eexists. split; [reflexivity|]. split; [reflexivity|]. split; [reflexivity|]. split; repeat constructor.
    + do 3 eexists. split; [reflexivity|]. split; [reflexivity|].
      split; repeat (constructor; [vm_compute; reflexivity|]); constructor.
  - repeat constructor; [by vm_compute..|apply HP].
  - repeat constructor; [by vm_compute..|apply HP].
Qed.

Lemma btc_speaks : speaks (str "BTC") (to_milli_ns 1000) btc_held [btc_diff] btc_later (touched btc_held btc_changes btc_removed + 0).
Proof.
  eapply SpeaksNext with (ts' := to_milli_ns 1001); [by vm_compute|apply btc_says; done|exact btc_later_book|by vm_compute|done|constructor].
Qed.

(** The coin's snapshot, then its diff. *)
Lemma hyperliquid_mirror_follows_witness : exists x i d,
  each (processL2BookEvent hl_storage) [btc_snapshot; btc_diff] hl_venue = Ok x /\ desk_at (hx_system x) i = Some d
  /\ depth (w_book (d_world d)) BUY (units 100) = 0 /\ depth (w_book (d_world d)) SELL (units 101) = units 3.
Proof.
  destruct (hyperliquid_mirror_follows hl_storage hl_venue (touched btc_held btc_changes btc_removed + 0) (str "BTC") (to_milli_ns 1000)
    btc_snapshot btc_held [btc_diff] btc_later) as (x & i & d & E & _ & _ & Ed & Hq & _).
  - by vm_compute.
  - by vm_compute.
  - apply hl_venue_opened. by vm_compute.
  - by vm_compute.
  - exact btc_held_book.
  - exact btc_first.
  - exact btc_speaks.
  - exists x, i, d. split; [exact E|]. split; [exact Ed|]. rewrite (Hq BUY) by (by left). rewrite (Hq SELL) by (by right).
    split; vm_compute; reflexivity.
Defined.

(** The diff alone, on the book of the snapshot. *)
Lemma l2_message_mirrored_witness : exists x i d x' d',
  processL2BookEvent hl_storage btc_snapshot hl_venue = Ok x /\ desk_at (hx_system x) i = Some d
  /\ processL2BookEvent hl_storage btc_diff x = Ok x' /\ followed (to_milli_ns 1001) 0 x i d btc_later x' d'
  /\ phantoms (d_world d') BUY (units 98) = units 5.
Proof.
  destruct (first_followed hl_storage hl_venue (touched btc_held btc_changes btc_removed) (str "BTC") (to_milli_ns 1000) btc_snapshot btc_held)
    as (x & i & d & E & Hok & Hi & Hd & Hr & He & Hm).
  - by vm_compute.
  - by vm_compute.
  - apply hl_venue_opened. by vm_compute.
  - by vm_compute.
  - exact btc_held_book.
  - exact btc_first.
  - destruct (l2_message_mirrored hl_storage (to_milli_ns 1001) 0 (touched btc_held btc_changes btc_removed) x (str "BTC") i d btc_held btc_later btc_diff)
      as (x' & d' & E' & F).
    + by vm_compute.
    + by vm_compute.
    + exact Hok.
    + exact Hi.
    + exact Hd.
    + exact Hr.
    + exact btc_held_book.
    + exact btc_later_book.
    + apply (mirrors_later (to_milli_ns 1000) _ (touched btc_held btc_changes btc_removed)); [by vm_compute|by vm_compute|exact Hm].
    + apply btc_says. intros s p. by apply deserted_clear.
    + exists x, i, d, x', d'. split; [exact E|]. split; [exact Hd|]. split; [exact E'|]. split; [exact F|].
      rewrite (mr_shown _ _ _ _ (fw_mirrors _ _ _ _ _ _ _ _ F)) by (by left). vm_compute. reflexivity.
Defined.

(** ** Subscribing and trading *)

Definition btc_subscribe (ch : HyperliquidChannel) : Request :=
  mkRequest 6 (assign 32 (str "BTC")) 42 (ReqSubscribe (mkMDSubscription (channel_code ch) 7)).

Definition btc_channel (ch : HyperliquidChannel) : MDSubscriptionMessage := mkMDSubscription (channel_code ch) 7.

Lemma hl_waiting : waiting_listed hl_venue.
Proof. intros [] j Hj; cbn in Hj; by apply elem_of_empty in Hj. Qed.

(** Somebody on [l2Book], then the venue's snapshot. *)
Lemma hyperliquid_subscriber_served_witness : exists x1 x2 i d,
  handleMdSubscription hl_storage (btc_subscribe L2_BOOK) (btc_channel L2_BOOK) hl_venue = Ok x1
  /\ processL2BookEvent hl_storage btc_snapshot x1 = Ok x2 /\ desk_at (hx_system x2) i = Some d
  /\ sys_md (hx_system x2) = [answer_frame (w_book (d_world d)) L2_BOOK 0; snapshot_frame (w_book (d_world d)) 1]
  /\ depth (w_book (d_world d)) BUY (units 100) = units 2.
Proof.
  destruct (hyperliquid_subscriber_served hl_storage hl_venue 0 (btc_subscribe L2_BOOK) (btc_channel L2_BOOK) L2_BOOK (to_milli_ns 1000) btc_snapshot btc_held)
    as (x1 & x2 & i & d & E1 & _ & E2 & _ & _ & Hd & Hq & Hf & _).
  - by vm_compute.
  - by vm_compute.
  - apply hl_venue_opened. by vm_compute.
  - exact hl_waiting.
  - reflexivity.
  - by vm_compute.
  - reflexivity.
  - discriminate.
  - exact btc_held_book.
  - exact btc_first.
  - exists x1, x2, i, d. split; [exact E1|]. split; [exact E2|]. split; [exact Hd|]. split; [exact Hf|].
    rewrite (Hq BUY) by (by left). vm_compute. reflexivity.
Defined.

(** Somebody on [l2Book], somebody else on [l2]. *)
Lemma hyperliquid_second_channel_empty_witness : exists x1 x2 i d,
  handleMdSubscription hl_storage (btc_subscribe L2_BOOK) (btc_channel L2_BOOK) hl_venue = Ok x1
  /\ handleMdSubscription hl_storage (btc_subscribe L2) (btc_channel L2) x1 = Ok x2
  /\ desk_at (hx_system x2) i = Some d /\ sys_md (hx_system x2) = [answer_frame (w_book (d_world d)) L2 0].
Proof.
  destruct (hyperliquid_second_channel_empty hl_storage hl_venue 0 (btc_subscribe L2_BOOK) (btc_channel L2_BOOK) L2_BOOK
    (btc_subscribe L2) (btc_channel L2) L2) as (x1 & x2 & i & d & E1 & E2 & _ & Hd & _ & _ & Hf & _).
  - apply hl_venue_opened. by vm_compute.
  - exact hl_waiting.
  - reflexivity.
  - by vm_compute.
  - reflexivity.
  - discriminate.
  - reflexivity.
  - reflexivity.
  - discriminate.
  - discriminate.
  - exists x1, x2, i, d. split; [exact E1|]. split; [exact E2|]. split; [exact Hd|exact Hf].
Defined.

(** One of the three asked at 101 is bought. *)
Definition btc_print : Doc := DObject
  [(str "coin", DText (str "BTC")); (str "side", DText (str "B")); (str "px", DText (str "101")); (str "sz", DText (str "1")); (str "time", DNumber 1002)].

Definition btc_printed : Print := mkPrint BUY (units 101) (units 1) (to_milli_ns 1002).


(** ** A client behind the venue in time, ahead of it in the queue *)

Definition waiting_order : Order :=
  (default_order 0 0) <| o_id := 9000 |> <| o_side := BUY |> <| o_price := 90 |> <| o_leaves_quantity := 5 |>.

Definition client_desk : Desk RefBook Z := sample_desk <| d_world ::= fun w => set_order w 50 waiting_order |>.

Definition venue_first : Desk RefBook Z :=
  match new_level BUY 90 7 1000000 client_desk with Ok d => d | _ => client_desk end.

Lemma client_desk_ok : desk_ok client_desk.
Proof.
  split; [apply fine_check_sound; vm_compute; reflexivity|apply drawn_check_sound; vm_compute; reflexivity|by exists FifoMatchingEngine].
Qed.

Lemma waiting_joins : joinable (w_book (d_world venue_first)) 50.
Proof.
  split; [by left|by vm_compute| | |by vm_compute|by vm_compute].
  - intros Hin. assert (Hb : forallb (fun i => negb (i =? 9000)) (book_ids (ob_l3 (w_book (d_world venue_first)))) = true) by (vm_compute; reflexivity).
    rewrite forallb_forall in Hb. apply list_elem_of_In, Hb in Hin. by vm_compute in Hin.
  - intros id Hid. apply elem_of_map_to_list, list_elem_of_In in Hid.
    assert (Hb : forallb (fun kv => negb (kv.2 =? 50)) (map_to_list (ob_orders (w_book (d_world venue_first)))) = true) by (vm_compute; reflexivity).
    rewrite forallb_forall in Hb. apply Hb in Hid. by vm_compute in Hid.
Qed.

Lemma client_level : sane_level client_desk BUY 90 7 1000000.
Proof.
  split; [split|done| | |].
  - exact client_desk_ok.
  - reflexivity.
  - apply ranked_check_sound. vm_compute. reflexivity.
  - by vm_compute.
  - by vm_compute.
  - by left.
  - by vm_compute.
  - by vm_compute.
  - reflexivity.
  - intros t s p _ [-> | ->]; reflexivity.
  - vm_compute. reflexivity.
  - intros _ _. unfold clear_of. vm_compute. repeat constructor.
Qed.

(** The venue has seven at 90 when a client joins with five. *)
Lemma client_before_venue_witness :
  map (fun x => (l3_order_id x, l3_quantity x)) (at_level 90 (queue (addOrder (d_world venue_first) 50 2000000 0 true) BUY)) = [(9000, 5); (1010, 7)].
Proof.
  destruct (client_before_venue client_desk BUY 90 7 1000000 50 2000000 0 true) as (d' & E & H).
  - exact client_level.
  - done.
  - apply client_level; [done|]. vm_compute. reflexivity.
  - vm_compute. reflexivity.
  - vm_compute. reflexivity.
  - assert (Ed : venue_first = d') by (unfold venue_first; by rewrite E). rewrite <- Ed in H.
    cbv zeta in H. rewrite H; [vm_compute; reflexivity|exact waiting_joins|vm_compute; reflexivity|vm_compute; reflexivity|reflexivity].
Defined.
