(* ===== verification/HyperliquidRest.v ===== *)
(** * Hyperliquid's REST order gateway

    Models [src/venues/hyperliquid/hyperliquid_rest_order_gateway.cpp]: the actions of
    [POST /exchange]. The gateway keeps nothing between requests but its configuration, so a
    handler is an [Action] on the queues. The SDK's table of coins is [HyperliquidInfo]; the
    [/info] proxy and serving HTTP are outside. *)

From S2P Require Import Prelude Types FixedString Orders Messages MatchingConfig MdPublisher.
From S2P Require Import Decimals MessageParsers JsonAccess OrderStore RestGateway CoinbaseRest.

(** [info_.name_to_coin], once [load_meta] has run or failed. *)
Class HyperliquidInfo := name_to_coin : bytes -> option bytes.

(** [std::stoll]. *)
Definition stoll (text : bytes) : StdRead Z :=
  let '(s, l) := split_sign (skip_spaces text) in
  let ds := fst (span is_digit l) in
  let v := if s then - dec_value ds else dec_value ds in
  if bool_decide (ds = []) then InvalidArgument
  else if (v <? - 2 ^ 63) || (2 ^ 63 <=? v) then OutOfRange
  else Read v.

Section HyperliquidRest.
Context {J : Type} {json : Json J} {items : JsonItems J} {reader : JsonReader J} {kinds : JsonKinds J}.
Context {info : HyperliquidInfo} {env : GatewayEnv}.
Variable default_wallet : bytes.
Abbreviation Reply := (HttpReply J).
Abbreviation Status := (Out J).

(** ** Reading a document *)

Definition extract_wallet (header : bytes) (body : J) : result bytes :=
  match header with
  | [] => match js_find body (str "vaultAddress") with
          | Some v => if js_is_null v then Ok default_wallet
                      else match js_get_string v with Some s => Ok s | None => Throw BadJson end
          | None => Ok default_wallet
          end
  | hdr => Ok hdr
  end.

Definition coin_for_asset (asset_index : Z) : bytes := default [] (name_to_coin (str "@" ++ to_string_i64 asset_index)).

Definition asset_index (a : J) : Z := match get_number a with Some n => swrap 32 n | None => -1 end.

(** The coin of [a]; [None] is neither a known index nor a name. *)
Definition coin_of (a : J) : option bytes :=
  match coin_for_asset (asset_index a) with
  | [] => js_get_string a
  | coin => Some coin
  end.

(** ** Replies *)

Definition err_response (reason : bytes) : Reply :=
  mkReply BAD_REQUEST_400 (Text (flat_json [(str "status", str "err"); (str "response", reason)])).

(** Whatever is thrown, its [what] goes between these. *)
Definition PARSE_ERROR : Reply :=
  mkReply BAD_REQUEST_400
    (Around (str "{" ++ quoted (str "status") ++ str ":" ++ quoted (str "err") ++ str "," ++ quoted (str "response") ++ str ":"
               ++ quote :: str "parse error: ")
            (quote :: str "}")).

Definition error_status (reason : bytes) : Status := OObject [(str "error", OText reason)].
Definition success_status (v : Out J) : Status := OObject [(str "success", v)].
Definition resting_status (oid : Z) : Status := OObject [(str "resting", OObject [(str "oid", ONumber oid)])].

Definition ok_response (type : bytes) (statuses : list Status) : Reply :=
  mkReply OK_200
    (Document (OObject [(str "status", OText (str "ok"));
                        (str "response", OObject [(str "type", OText type);
                                                  (str "data", OObject [(str "statuses", OArray statuses)])])])).

(** The entries of an action, one after the other. *)
Definition for_each_entry (key type : bytes) (entry : J -> Action Transport Status) (action : J) : Action Transport Reply :=
  match js_find action key with
  | Some l =>
      if js_is_array l then each_in_turn entry (js_items l) ≫= fun statuses => mret (ok_response type statuses)
      else mret (err_response (str "missing " ++ key ++ str " array"))
  | None => mret (err_response (str "missing " ++ key ++ str " array"))
  end.

Definition with_transport {A} (f : Transport -> A * Transport) : Action Transport A := fun t =>
  let '(a, t) := f t in (Ok a, t).

(** ** Placing orders *)

(** A trigger is a limit order. *)
Definition time_in_force_of (order : J) : result TimeInForce :=
  match js_find order (str "t") ≫= fun t => js_find t (str "limit") with
  | Some limit =>
      let* tif := value js_get_string limit (str "tif") (str "Gtc") in
      Ok (if bytes_eqb tif (str "Ioc") then TimeInForce.IMMEDIATE_OR_CANCEL else TimeInForce.GOOD_TILL_CANCEL)
  | None => Ok TimeInForce.GOOD_TILL_CANCEL
  end.

(** The client's id, or one of the clock. *)
Definition cloid_of (order : J) (t : Transport) : bytes * Transport :=
  match js_find order (str "c") ≫= js_get_string with
  | Some cloid => (cloid, t)
  | None => let '(now, t) := now_ns t in (str "hl_" ++ to_string_i64 now, t)
  end.

Definition order_message (user_id cloid : bytes) (is_buy : bool) (tif : TimeInForce) (price : price_t) (qty : qty_t) : AddOrderMessage :=
  mkAddOrder (assign 37 user_id) (assign 37 cloid) (if is_buy then BUY else SELL) OrderType.LIMIT tif price qty
    NULL_PRICE NULL_PRICE 0.

(** Queue the order and wait for the first response that names its user and id as stored. *)
Definition place (user_id coin cloid : bytes) (is_buy : bool) (tif : TimeInForce) (price : price_t) (qty : qty_t) (t : Transport)
  : option OrderResponse * Transport :=
  let msg := order_message user_id cloid is_buy tif price qty in
  let response_read_index := initial_reading_index t in
  let '(_, t) := publish_request coin (fun _ => ReqAdd msg) t in
  wait_until (answers_create (view (add_user_id msg)) (view (add_client_order_id msg))) response_read_index t.

Definition order_status (resp : option OrderResponse) : result Status :=
  match resp with
  | None => Ok (error_status (str "timeout"))
  | Some r =>
      if bool_decide (r_order_status r = OrderStatus.REJECTED) then
        Ok (error_status (OrdReject.ord_reject_to_string (r_reject_reason r)))
      else match report_id r with
           | [] => Ok (resting_status 0)
           | oid_str => let* oid := std_result (stoll oid_str) in Ok (resting_status oid)
           end
  end.

Definition order_entry (user_id : bytes) (order : J) : Action Transport Status :=
  lift (const_at order (str "a")) ≫= fun a =>
  lift (value js_get_bool order (str "b") true) ≫= fun is_buy =>
  lift (value js_get_string order (str "p") (str "0")) ≫= fun price_str =>
  lift (value js_get_string order (str "s") (str "0")) ≫= fun size_str =>
  lift (value js_get_bool order (str "r") false) ≫= fun _ =>
  match coin_of a with
  | None => mret (error_status (str "unknown asset index " ++ to_string_i64 (asset_index a)))
  | Some coin =>
      lift (std_result (stod price_str)) ≫= fun price_d =>
      lift (std_result (stod size_str)) ≫= fun size_d =>
      lift (to_price_result price_d) ≫= fun price =>
      lift (to_qty_result size_d) ≫= fun qty =>
      lift (time_in_force_of order) ≫= fun tif =>
      with_transport (cloid_of order) ≫= fun cloid =>
      with_transport (place user_id coin cloid is_buy tif price qty) ≫= fun resp =>
      lift (order_status resp)
  end.

Definition process_order_action (action : J) (user_id : bytes) : Action Transport Reply :=
  for_each_entry (str "orders") (str "order") (order_entry user_id) action.

(** ** Cancelling and amending

    Nothing is waited for, and what the message does not set is left as the slot had it. *)

Definition cancel_order_message (user_id order_id : bytes) (slot : nat) : CancelOrderMessage :=
  mkCancelOrder (assign 37 user_id) (assign 37 order_id) (cxl_client_order_id (ge_cancel slot)).

Definition cancel_cloid_message (user_id cloid : bytes) (slot : nat) : CancelOrderMessage :=
  mkCancelOrder (assign 37 user_id) (cxl_order_id (ge_cancel slot)) (assign 37 cloid).

Definition modify_order_message (user_id order_id : bytes) (new_price : price_t) (new_qty : qty_t) (slot : nat) : ModifyOrderMessage :=
  mkModifyOrder (assign 37 user_id) (assign 37 order_id) (mod_client_order_id (ge_modify slot)) new_price new_qty.

Definition submit (coin : bytes) (body : nat -> RequestBody) (t : Transport) : Request * Transport := publish_request coin body t.

Definition order_number (cancel : J) : result Z := let* o := const_at cancel (str "o") in Ok (default 0 (get_number o)).

Definition cancel_entry (user_id : bytes) (cancel : J) : Action Transport Status :=
  lift (const_at cancel (str "a")) ≫= fun a =>
  lift (order_number cancel) ≫= fun oid =>
  match coin_of a with
  | None | Some [] => mret (error_status (str "unknown asset"))
  | Some coin =>
      with_transport (submit coin (fun slot => ReqCancel (cancel_order_message user_id (to_string_i64 oid) slot))) ≫= fun _ =>
      mret (success_status (ONumber oid))
  end.

Definition process_cancel_action (action : J) (user_id : bytes) : Action Transport Reply :=
  for_each_entry (str "cancels") (str "cancel") (cancel_entry user_id) action.

Definition cancel_cloid_entry (user_id : bytes) (cancel : J) : Action Transport Status :=
  lift (const_at cancel (str "a")) ≫= fun a =>
  lift (value js_get_string cancel (str "c") []) ≫= fun cloid =>
  match coin_of a, cloid with
  | None, _ | Some [], _ | _, [] => mret (error_status (str "invalid cancel request"))
  | Some coin, _ =>
      with_transport (submit coin (fun slot => ReqCancel (cancel_cloid_message user_id cloid slot))) ≫= fun _ =>
      mret (success_status (OText cloid))
  end.

Definition process_cancel_by_cloid_action (action : J) (user_id : bytes) : Action Transport Reply :=
  for_each_entry (str "cancels") (str "cancel") (cancel_cloid_entry user_id) action.

Definition modify_entry (user_id : bytes) (modify : J) : Action Transport Status :=
  lift (value get_number modify (str "oid") 0) ≫= fun oid =>
  match js_find modify (str "order") with
  | None => mret (error_status (str "missing order in modify"))
  | Some order =>
      lift (const_at order (str "a")) ≫= fun a =>
      lift (value js_get_string order (str "p") (str "0")) ≫= fun price_str =>
      lift (value js_get_string order (str "s") (str "0")) ≫= fun size_str =>
      match coin_of a with
      | None | Some [] => mret (error_status (str "unknown asset"))
      | Some coin =>
          lift (std_result (stod price_str)) ≫= fun price_d =>
          lift (to_price_result price_d) ≫= fun new_price =>
          lift (std_result (stod size_str)) ≫= fun size_d =>
          lift (to_qty_result size_d) ≫= fun new_qty =>
          with_transport (submit coin (fun slot => ReqModify (modify_order_message user_id (to_string_i64 oid) new_price new_qty slot)))
            ≫= fun _ =>
          mret (success_status (ONumber oid))
      end
  end.

Definition process_batch_modify_action (action : J) (user_id : bytes) : Action Transport Reply :=
  for_each_entry (str "modifies") (str "batchModify") (modify_entry user_id) action.

(** ** The route *)

Definition exchange_action (header : bytes) (body : J) : Action Transport Reply :=
  lift (extract_wallet header body) ≫= fun user_id =>
  match js_find body (str "action") with
  | None => mret (err_response (str "missing action"))
  | Some action =>
      lift (value js_get_string action (str "type") []) ≫= fun type =>
      if bytes_eqb type (str "order") then process_order_action action user_id
      else if bytes_eqb type (str "cancel") then process_cancel_action action user_id
      else if bytes_eqb type (str "cancelByCloid") then process_cancel_by_cloid_action action user_id
      else if bytes_eqb type (str "batchModify") then process_batch_modify_action action user_id
      else mret (err_response (str "unsupported action type: " ++ type))
  end.

(** [header] is what the wallet header reads as when the last chunk has come; the request it
    is read from is only valid until the route returns. *)
Definition handle_exchange (header : bytes) (chunks : list bytes) (t : Transport) : option (Reply * Transport) :=
  match js_parse (List.concat chunks) with
  | None => Some (PARSE_ERROR, t)
  | Some body =>
      match exchange_action header body t with
      | (Ok reply, t) => Some (reply, t)
      | (Throw _, t) => Some (PARSE_ERROR, t)
      | (Undefined, _) => None
      end
  end.
End HyperliquidRest.
