(* ===== verification/HyperliquidRestProofs.v ===== *)
(** * What Hyperliquid's clients are told

    Every entry of an action is accounted for, an order's status is the exchange's answer, and
    a cancellation by number does what a recycled slot of the request queue says. *)

From S2P Require Import Prelude Types FixedString RingBuffer Orders Messages MarketData.
From S2P Require Import L3Interface L3Lemmas OrderBook OrderBookInv OrderBookOps.
From S2P Require Import Sweep MatchCommon MatchLemmas FifoEngine FifoProofs FifoOrders.
From S2P Require Import ProRata MatchingConfig MatchContract BookState Symbol SymbolProofs.
From S2P Require Import SymbolManager Exchange DeskState L3Reference Concrete.
From S2P Require Import ExchangeProofs MarketProofs Reconcile SystemProofs.
From S2P Require Import MdPublisher Decimals MessageParsers JsonAccess OrderStore CoinbaseOrderJson RestGateway CoinbaseRest.
From S2P Require Import CoinbaseRestProofs HyperliquidRest.

(** ** What an action appends to the request queue *)

Definition value_of {A} (r : result A) : option A := match r with Ok a => Some a | _ => None end.

Definition appends {A} (P : option A -> list Request -> Prop) (m : Action Transport A) : Prop := forall t,
  exists q, tr_requests (snd (m t)) = tr_requests t ++ q /\ P (value_of (fst (m t))) q.

Lemma appends_ret {A} (P : option A -> list Request -> Prop) a : P (Some a) [] -> appends P (mret a).
Proof. intros H t. exists []. by rewrite app_nil_r. Qed.

Lemma appends_lift {A} (P : option A -> list Request -> Prop) (r : result A) : P (value_of r) [] -> appends P (lift r).
Proof. intros H t. exists []. by rewrite app_nil_r. Qed.

Lemma appends_try {A B} (P : option B -> list Request -> Prop) (r : result A) (k : A -> Action Transport B) :
  P None [] -> (forall a, r = Ok a -> appends P (k a)) -> appends P (lift r ≫= k).
Proof.
  intros H Hk t. unfold lift. rewrite bind_act. destruct r as [a| |]; [by apply Hk|exists []; by rewrite app_nil_r..].
Qed.

Lemma appends_then {A B} (P : option B -> list Request -> Prop) (f : Transport -> A * Transport) (k : A -> Action Transport B) :
  (forall t, exists q, tr_requests (snd (f t)) = tr_requests t ++ q
     /\ appends (fun b q' => P b (q ++ q')) (k (fst (f t)))) -> appends P (with_transport f ≫= k).
Proof.
  intros H t. unfold with_transport. rewrite bind_act. destruct (H t) as (q & E & Hk). destruct (f t) as [a t']. cbn in *.
  destruct (Hk t') as (q' & E' & Hp). exists (q ++ q'). split; [by rewrite E', E, app_assoc|done].
Qed.

(** What a publication appends is one request. *)
Lemma published {genv : GatewayEnv} coin body t : exists now tag,
  publish_request coin body t = (mkRequest now (assign 32 coin) tag (body (List.length (tr_requests t))),
                                 mkTransport (tr_requests t ++ [mkRequest now (assign 32 coin) tag (body (List.length (tr_requests t)))])
                                   (tr_responses t) (S (tr_clock t))).
Proof. by destruct t; eexists _, _. Qed.

(** Entries in turn: outcomes and requests side by side with the entries reached. *)
Lemma each_appends {A B} (P : A -> option B -> list Request -> Prop) (f : A -> Action Transport B) l :
  (forall x, appends (P x) (f x)) ->
  appends (fun ys q => exists outcomes qs, q = List.concat qs /\ Forall3 P (take (List.length outcomes) l) outcomes qs
    /\ match ys with
       | Some ys => outcomes = map Some ys /\ List.length ys = List.length l
       | None => exists before, outcomes = map Some before ++ [None]
       end) (each_in_turn f l).
Proof.
  intros Hf. induction l as [|x l IH]; cbn [each_in_turn]; intros t.
  - exists []. split; [by rewrite app_nil_r|]. exists [], []. by repeat constructor.
  - rewrite bind_act. destruct (Hf x t) as (q & E & Hp). destruct (f x t) as [[y|e|] t1]; cbn in E, Hp.
    + rewrite bind_act. destruct (IH t1) as (q' & E' & outcomes & qs & -> & H3 & Ho).
      destruct (each_in_turn f l t1) as [[ys|e|] t2]; cbn in E', Ho |- *; exists (q ++ List.concat qs);
        (split; [by rewrite E', E, app_assoc|]); exists (Some y :: outcomes), (q :: qs);
        (split; [done|]; split; [by constructor|]).
      * destruct Ho as [-> Ho]. by rewrite <- Ho.
      * destruct Ho as [before ->]. by exists (y :: before).
      * destruct Ho as [before ->]. by exists (y :: before).
    + exists q. split; [done|]. exists [None], [q]. cbn. rewrite take_0, app_nil_r. split; [done|].
      split; [by repeat constructor|by exists []].
    + exists q. split; [done|]. exists [None], [q]. cbn. rewrite take_0, app_nil_r. split; [done|].
      split; [by repeat constructor|by exists []].
Qed.

(** ** Every entry is accounted for *)

Section Entries.
Context {J : Type} {json : Json J} {items : JsonItems J} {reader : JsonReader J} {kinds : JsonKinds J}.
Context {info : HyperliquidInfo} {genv : GatewayEnv}.
Abbreviation Status := (Out J).

Inductive ActionKind := Orders | Cancels | CancelsByCloid | Modifies.

Definition entries_key (kind : ActionKind) : bytes :=
  match kind with Orders => str "orders" | Cancels | CancelsByCloid => str "cancels" | Modifies => str "modifies" end.

Definition response_type (kind : ActionKind) : bytes :=
  match kind with Orders => str "order" | Cancels | CancelsByCloid => str "cancel" | Modifies => str "batchModify" end.

Definition process (kind : ActionKind) (action : J) (user_id : bytes) : Action Transport (HttpReply J) :=
  match kind with
  | Orders => process_order_action action user_id
  | Cancels => process_cancel_action action user_id
  | CancelsByCloid => process_cancel_by_cloid_action action user_id
  | Modifies => process_batch_modify_action action user_id
  end.

(** A decimal text of an entry, in fixed point. *)
Definition decimal_of {A} (to : double -> result A) (j : J) (key : bytes) : result A :=
  let* text := value js_get_string j key (str "0") in let* d := std_result (stod text) in to d.

(** The request an entry asks for, and what its client is told of it if it is told anything. *)
Definition requested (kind : ActionKind) (user_id : bytes) (entry : J) (status : option Status) (body : RequestBody) : Prop :=
  match kind, body with
  | Orders, ReqAdd m =>
      add_user_id m = assign 37 user_id
      /\ decimal_of to_price_result entry (str "p") = Ok (add_price m)
      /\ decimal_of to_qty_result entry (str "s") = Ok (add_qty m)
      /\ value js_get_bool entry (str "b") true = Ok (bool_decide (add_side m = BUY))
      /\ exists resp, status = value_of (order_status resp)
           /\ forall r, resp = Some r -> user_of r = view (add_user_id m) /\ client_id_of r = view (add_client_order_id m)
  | Cancels, ReqCancel m => exists oid, order_number entry = Ok oid /\ status = Some (success_status (ONumber oid))
      /\ cxl_user_id m = assign 37 user_id /\ cxl_order_id m = assign 37 (to_string_i64 oid)
  | CancelsByCloid, ReqCancel m => exists cloid, cloid <> [] /\ value js_get_string entry (str "c") [] = Ok cloid
      /\ status = Some (success_status (OText cloid)) /\ cxl_user_id m = assign 37 user_id /\ cxl_client_order_id m = assign 37 cloid
  | Modifies, ReqModify m => exists oid order, value get_number entry (str "oid") 0 = Ok oid /\ js_find entry (str "order") = Some order
      /\ status = Some (success_status (ONumber oid)) /\ mod_user_id m = assign 37 user_id
      /\ mod_order_id m = assign 37 (to_string_i64 oid)
      /\ decimal_of to_price_result order (str "p") = Ok (mod_new_price m)
      /\ decimal_of to_qty_result order (str "s") = Ok (mod_new_qty m)
  | _, _ => False
  end.

(** The part of an entry that names the coin. *)
Definition coin_part (kind : ActionKind) (entry : J) : option J :=
  match kind with
  | Modifies => js_find entry (str "order") ≫= fun order => js_find order (str "a")
  | _ => js_find entry (str "a")
  end.

(** One entry: refused without a request, failed without one, or one request for its coin. *)
Definition accounted (kind : ActionKind) (user_id : bytes) (entry : J) (status : option Status) (queued : list Request) : Prop :=
  match queued with
  | [] => forall s, status = Some s -> exists reason, s = error_status reason
  | [request] => requested kind user_id entry status (req_body request)
      /\ exists coin, coin_part kind entry ≫= coin_of = Some coin /\ req_symbol request = assign 32 coin
  | _ => False
  end.

Lemma refused_entry kind user_id entry reason : appends (accounted kind user_id entry) (mret (error_status reason)).
Proof. apply appends_ret. intros s [= <-]. by eexists. Qed.

Lemma failed_entry kind user_id entry : accounted kind user_id entry None [].
Proof. done. Qed.

Lemma submits kind user_id entry coin body (k : Request -> Action Transport Status) (status : Status) :
  (forall request, k request = mret status) -> coin_part kind entry ≫= coin_of = Some coin ->
  (forall slot, requested kind user_id entry (Some status) (body slot)) ->
  appends (accounted kind user_id entry) (with_transport (submit coin body) ≫= k).
Proof.
  intros Hk Hc Hr. apply appends_then. intros t. change (submit coin body t) with (publish_request coin body t).
  destruct (published coin body t) as (now & tag & ->). cbn [fst snd tr_requests].
  eexists. split; [done|]. rewrite Hk. apply appends_ret. cbn. split; [apply Hr|]. by exists coin.
Qed.

Lemma const_at_find (j : J) key a : const_at j key = Ok a -> js_find j key = Some a.
Proof. unfold const_at. destruct (js_find j key); [by intros [= ->]|by case_match]. Qed.

Lemma cancel_accounted user_id entry : appends (accounted Cancels user_id entry) (cancel_entry user_id entry).
Proof.
  unfold cancel_entry. apply appends_try; [done|]. intros a Ha%const_at_find. apply appends_try; [done|]. intros oid Ho.
  destruct (coin_of a) as [[|c coin]|] eqn:Ec; [apply refused_entry| |apply refused_entry].
  apply (submits Cancels user_id entry (c :: coin) _ _ (success_status (ONumber oid))); [done|unfold coin_part; by rewrite Ha|].
  intros slot. by exists oid.
Qed.

Lemma cancel_cloid_accounted user_id entry : appends (accounted CancelsByCloid user_id entry) (cancel_cloid_entry user_id entry).
Proof.
  unfold cancel_cloid_entry. apply appends_try; [done|]. intros a Ha%const_at_find. apply appends_try; [done|]. intros cloid Hc.
  destruct (coin_of a) as [[|c coin]|] eqn:Ec; [apply refused_entry| |apply refused_entry].
  destruct cloid as [|x cloid]; [apply refused_entry|].
  apply (submits CancelsByCloid user_id entry (c :: coin) _ _ (success_status (OText (x :: cloid)))); [done|unfold coin_part; by rewrite Ha|].
  intros slot. by exists (x :: cloid).
Qed.

Lemma modify_accounted user_id entry : appends (accounted Modifies user_id entry) (modify_entry user_id entry).
Proof.
  unfold modify_entry. apply appends_try; [done|]. intros oid Ho.
  destruct (js_find entry (str "order")) as [order|] eqn:Eo; [|apply refused_entry].
  apply appends_try; [done|]. intros a Ha%const_at_find. apply appends_try; [done|]. intros price_str Hp. apply appends_try; [done|].
  intros size_str Hs. destruct (coin_of a) as [[|c coin]|] eqn:Ec; [apply refused_entry| |apply refused_entry].
  apply appends_try; [done|]. intros price_d Hpd. apply appends_try; [done|]. intros price Hpr.
  apply appends_try; [done|]. intros size_d Hsd. apply appends_try; [done|]. intros qty Hq.
  apply (submits Modifies user_id entry (c :: coin) _ _ (success_status (ONumber oid))); [done|unfold coin_part; rewrite Eo; cbn [mbind option_bind]; by rewrite Ha|].
  intros slot. exists oid, order. repeat (split; [done|]). unfold decimal_of. rewrite Hp, Hs. cbn. by rewrite Hpd, Hsd.
Qed.

Lemma cloid_requests order t : tr_requests (snd (cloid_of order t)) = tr_requests t.
Proof. unfold cloid_of. by destruct (js_find order (str "c") ≫= js_get_string). Qed.

(** The response an order waits for names its user and id. *)
Lemma place_appends user_id coin cloid is_buy tif price qty t :
  let msg := order_message user_id cloid is_buy tif price qty in
  exists request, req_body request = ReqAdd msg /\ req_symbol request = assign 32 coin
    /\ tr_requests (snd (place user_id coin cloid is_buy tif price qty t)) = tr_requests t ++ [request]
    /\ forall r, fst (place user_id coin cloid is_buy tif price qty t) = Some r ->
         user_of r = view (add_user_id msg) /\ client_id_of r = view (add_client_order_id msg).
Proof.
  intros msg. unfold place. fold msg. destruct (published coin (fun _ => ReqAdd msg) t) as (now & tag & ->).
  unfold wait_until, wait_for. destruct (await_response _ _ _ _) as [r q] eqn:E. eexists. split; [|split; [|split; [done|]]]; [done..|].
  cbn [fst]. intros r' ->. destruct (await_first _ _ _ _ _ _ E) as (_ & _ & _ & _ & _ & Hm & _).
  unfold answers_create in Hm. apply andb_true_iff in Hm. by rewrite !bytes_eqb_eq in Hm.
Qed.

Lemma order_accounted user_id entry : appends (accounted Orders user_id entry) (order_entry user_id entry).
Proof.
  unfold order_entry. apply appends_try; [done|]. intros a Ha%const_at_find. apply appends_try; [done|]. intros is_buy Hb.
  apply appends_try; [done|]. intros price_str Hp. apply appends_try; [done|]. intros size_str Hs. apply appends_try; [done|]. intros _ _.
  destruct (coin_of a) as [coin|] eqn:Ec; [|apply refused_entry].
  apply appends_try; [done|]. intros price_d Hpd. apply appends_try; [done|]. intros size_d Hsd.
  apply appends_try; [done|]. intros price Hpr. apply appends_try; [done|]. intros qty Hq. apply appends_try; [done|]. intros tif _.
  apply appends_then. intros t. exists []. split; [by rewrite cloid_requests, app_nil_r|]. generalize (fst (cloid_of entry t)). intros cloid.
  apply appends_then. clear t. intros t. destruct (place_appends user_id coin cloid is_buy tif price qty t) as (request & Er & Es & Eq & Hw).
  exists [request]. split; [done|]. apply appends_lift. rewrite app_nil_r. unfold accounted. cbn [app]. rewrite Er. split; [|exists coin; unfold coin_part; by rewrite Ha].
  split; [done|]. unfold decimal_of. rewrite Hp, Hs. cbn [rbind]. rewrite Hpd, Hsd. cbn [rbind]. split; [done|]. split; [done|].
  split; [rewrite Hb; by destruct is_buy|]. by eexists.
Qed.

(** An action of the exchange route works through its entries in order and skips none: an
    entry is refused without a request, or puts exactly one request on the queue, for the
    caller, for the coin it names and with the numbers it holds, and its status is that of this
    request - for an order, that of a response with its user and client order id. A reply with
    statuses has one for each entry, in order. If an entry fails the reply is an error, but the
    requests of the entries before it are queued. *)
Lemma hyperliquid_entries_accounted kind action user_id l t : js_find action (entries_key kind) = Some l -> js_is_array l = true ->
  exists outcomes queued, tr_requests (snd (process kind action user_id t)) = tr_requests t ++ List.concat queued
    /\ Forall3 (accounted kind user_id) (take (List.length outcomes) (js_items l)) outcomes queued
    /\ match fst (process kind action user_id t) with
       | Ok reply => exists statuses, reply = ok_response (response_type kind) statuses
           /\ outcomes = map Some statuses /\ List.length statuses = List.length (js_items l)
       | _ => exists before, outcomes = map Some before ++ [None]
       end.
Proof.
  intros Hl Ha. set (entry := match kind with Orders => order_entry user_id | Cancels => cancel_entry user_id
                                | CancelsByCloid => cancel_cloid_entry user_id | Modifies => modify_entry user_id end).
  assert (Ep : process kind action user_id = (each_in_turn entry (js_items l) ≫= fun statuses => mret (ok_response (response_type kind) statuses))).
  { unfold entry. destruct kind; unfold entries_key in Hl; unfold process, process_order_action, process_cancel_action, process_cancel_by_cloid_action,
      process_batch_modify_action, for_each_entry; by rewrite Hl, Ha. }
  assert (He : forall x, appends (accounted kind user_id x) (entry x)).
  { intros x. unfold entry. destruct kind; [apply order_accounted|apply cancel_accounted|apply cancel_cloid_accounted|apply modify_accounted]. }
  rewrite Ep, bind_act. destruct (each_appends _ entry (js_items l) He t) as (q & E & outcomes & qs & -> & H3 & Ho).
  exists outcomes, qs. destruct (each_in_turn entry (js_items l) t) as [[ys|e|] t']; cbn in E, Ho |- *; [|done..].
  split; [done|]. split; [done|]. exists ys. destruct Ho as [-> Ho]. done.
Qed.
End Entries.

(** ** An order's status is the exchange's answer *)

Lemma view_stops a k : (List.length (view (a ++ repeat NUL k)) <= List.length a)%nat.
Proof. induction a as [|c a IH]; cbn; [by rewrite view_zeros|]. case_bool_decide; cbn; lia. Qed.

(** Whatever is written into a field is read back within it. *)
Lemma stored_size n value : (0 < n)%nat -> (FixedString.size (assign n value) <= n - 1)%nat.
Proof.
  intros Hn. unfold FixedString.size, assign, copy_wire_field. cbn [fst]. etrans; [apply view_stops|]. rewrite length_take. lia.
Qed.

Section AtExchange.
Context {L3 Pool : Type} {l3ops : L3Ops L3} {laws : L3Laws L3} {poolops : ObjectPool Pool}
  {poollaws : PoolLaws Pool} {env : Environment}.
Context {J : Type} {json : Json J} {items : JsonItems J} {reader : JsonReader J} {kinds : JsonKinds J}.
Context {info : HyperliquidInfo} {genv : GatewayEnv}.

(** An entry with its terms: nothing in it is malformed. *)
Record reads (order : J) (coin cloid : bytes) (is_buy : bool) (tif : TimeInForce) (price : price_t) (qty : qty_t) : Prop := {
  rd_coin : exists a, const_at order (str "a") = Ok a /\ coin_of a = Some coin;
  rd_cloid : js_find order (str "c") ≫= js_get_string = Some cloid;
  rd_side : value js_get_bool order (str "b") true = Ok is_buy;
  rd_reduce : exists b, value js_get_bool order (str "r") false = Ok b;
  rd_tif : time_in_force_of order = Ok tif;
  rd_price : exists text d, value js_get_string order (str "p") (str "0") = Ok text /\ std_result (stod text) = Ok d
    /\ to_price_result d = Ok price;
  rd_qty : exists text d, value js_get_string order (str "s") (str "0") = Ok text /\ std_result (stod text) = Ok d
    /\ to_qty_result d = Ok qty
}.

Lemma order_entry_places order coin cloid is_buy tif price qty user_id t :
  reads order coin cloid is_buy tif price qty ->
  order_entry user_id order t
  = (order_status (fst (place user_id coin cloid is_buy tif price qty t)), snd (place user_id coin cloid is_buy tif price qty t)).
Proof.
  intros [(a & Ha & Hc) Hcl Hb (b & Hr) Ht (ps & pd & P1 & P2 & P3) (ss & sd & S1 & S2 & S3)].
  unfold order_entry. rewrite Ha, bind_lift, Hb, bind_lift, P1, bind_lift, S1, bind_lift, Hr, bind_lift, Hc, P2, bind_lift, S2, bind_lift,
    P3, bind_lift, S3, bind_lift, Ht, bind_lift.
  unfold with_transport. rewrite bind_act. unfold cloid_of. rewrite Hcl, bind_act. by destruct (place _ _ _ _ _ _ _ t).
Qed.

(** The request of an order, as it is queued. *)
Definition order_request (t : Transport) (coin : bytes) (msg : AddOrderMessage) : Request :=
  mkRequest (ge_clock (tr_clock t)) (assign 32 coin) (ge_request_tag (List.length (tr_requests t))) (ReqAdd msg).

Definition published_until (t : Transport) (request : Request) : list (list OrderResponse) :=
  ge_turns (tr_requests t ++ [request]) (tr_responses t).

Lemma place_answered t user_id coin cloid is_buy tif price qty r rest :
  let msg := order_message user_id cloid is_buy tif price qty in let request := order_request t coin msg in
  user_of r = view (add_user_id msg) -> client_id_of r = view (add_client_order_id msg) ->
  List.concat (published_until t request) = r :: rest ->
  exists t', place user_id coin cloid is_buy tif price qty t = (Some r, t') /\ tr_requests t' = tr_requests t ++ [request].
Proof.
  intros msg request Hu Hc Hp. unfold place. fold msg. destruct t as [reqs resps clock].
  unfold publish_request, now_ns, wait_until, wait_for. cbn [tr_requests tr_responses tr_clock upd fst snd].
  fold request. cbn [order_request] in *. unfold published_until in Hp. cbn [tr_requests tr_responses] in Hp.
  change (mkRequest _ _ _ _) with request. rewrite firstn_all. unfold initial_reading_index. cbn [tr_responses].
  assert (Hm : answers_create (view (add_user_id msg)) (view (add_client_order_id msg)) r = true)
    by (unfold answers_create; apply andb_true_iff; by rewrite !bytes_eqb_eq).
  destruct (await_next _ r rest (ge_turns (reqs ++ [request]) resps) resps Hm Hp) as (q' & ->). by eexists.
Qed.

(** C32. A client who places an order is told what the exchange did with it, whatever the length
    of the wallet and of the client order id: the handler waits for them as the request stores
    them. If the exchange publishes anything in time, its first response decides the status -
    the reason of a rejection, or the number at the start of the id under which the order was
    taken. An id that does not start with a number makes the whole reply a parse error,
    although the exchange has taken the order. *)
Theorem hyperliquid_order_follows_exchange (s : System L3 Pool) t user_id action order coin cloid is_buy tif price qty :
  sys_ok s -> (exists l, js_find action (str "orders") = Some l /\ js_is_array l = true /\ js_items l = [order]) ->
  reads order coin cloid is_buy tif price qty ->
  let msg := order_message user_id cloid is_buy tif price qty in let request := order_request t coin msg in
  sane_request s request -> tr_responses t = sys_responses s ->
  (forall s', processRequest base_hooks s (Some request) = Some s' ->
     exists later, sys_responses s' = sys_responses s ++ List.concat (published_until t request) ++ later
       /\ List.concat (published_until t request) <> []) ->
  exists s' r t', processRequest base_hooks s (Some request) = Some s' /\ first_answer s request msg r
    /\ sys_responses s' !! List.length (sys_responses s) = Some r
    /\ tr_requests t' = tr_requests t ++ [request]
    /\ process_order_action action user_id t
       = (if bool_decide (r_order_status r = OrderStatus.REJECTED)
          then Ok (ok_response (str "order") [error_status (OrdReject.ord_reject_to_string (r_reject_reason r))])
          else match report_id r with
               | [] => Ok (ok_response (str "order") [resting_status 0])
               | id => match stoll id with
                       | Read n => Ok (ok_response (str "order") [resting_status n])
                       | _ => Throw (RuntimeError [])
                       end
               end, t').
Proof.
  intros Hok (l & Hl & Ha & Hi) Hr msg request Hs Hresp Hpub.
  destruct (first_answered s request msg Hok Hs eq_refl) as (s' & r & rest & E & Er & Hur & Hcr & Hf); [by apply (stored_size 37); lia..|].
  destruct (Hpub s' E) as (later & Ep & Hne). rewrite Er in Ep. apply app_inv_head in Ep.
  destruct (List.concat (published_until t request)) as [|x more] eqn:El; [done|]. cbn in Ep. injection Ep as <- ->.
  destruct (place_answered t user_id coin cloid is_buy tif price qty r more Hur Hcr El) as (t' & Epl & Et).
  exists s', r, t'. split; [done|]. split; [done|]. split; [by rewrite Er, lookup_app_r, Nat.sub_diag by done|]. split; [done|].
  unfold process_order_action, for_each_entry. rewrite Hl, Ha, Hi. cbn [each_in_turn]. rewrite !bind_act.
  rewrite (order_entry_places _ _ _ _ _ _ _ _ _ Hr), Epl. cbn [fst snd]. unfold order_status.
  case_bool_decide; [done|]. destruct (report_id r); [done|]. by destruct (stoll _).
Qed.

(** C33. A cancellation by number is answered with success before the exchange has seen it, and
    its client order id is not written: it is what the recycled slot of the request queue still
    holds. The exchange looks an order up by client order id first, so unless those bytes happen
    to be empty, it cancels the order they name, whatever the number and whoever owns it, or
    refuses the request if they name none. *)
Theorem recycled_slot_is_cancelled (d : Desk L3 Pool) t user_id cancel a coin oid :
  desk_ok d -> const_at cancel (str "a") = Ok a -> coin_of a = Some coin -> coin <> [] -> order_number cancel = Ok oid ->
  let leftover := cxl_client_order_id (ge_cancel (List.length (tr_requests t))) in
  empty leftover = false ->
  exists request msg t', cancel_entry user_id cancel t = (Ok (success_status (ONumber oid)), t')
    /\ tr_requests t' = tr_requests t ++ [request] /\ req_body request = ReqCancel msg
    /\ cxl_order_id msg = assign 37 (to_string_i64 oid) /\ cxl_user_id msg = assign 37 user_id
    /\ let d' := handleCancelOrderRequest d request msg in
       match findOrderByClientOrderId (w_book (d_world d)) (view leftover) with
       | None => refused d d' OrdReject.UNKNOWN_ORDER (req_request_tag request)
       | Some x => exists id, findOrder (w_book (d_world d)) id = Some x /\ cancelled_by d (req_request_tag request) id x d'
       end.
Proof.
  intros Hd Ha Hc Hne Ho leftover He. unfold cancel_entry. rewrite Ha, bind_lift, Ho, bind_lift, Hc.
  destruct coin as [|c coin]; [done|]. unfold with_transport, submit. rewrite bind_act.
  destruct (published (c :: coin) (fun slot => ReqCancel (cancel_order_message user_id (to_string_i64 oid) slot)) t) as (now & tag & ->).
  eexists _, _, _. split; [done|]. split; [done|]. split; [done|]. split; [done|]. split; [done|].
  match goal with |- context [handleCancelOrderRequest d ?request ?msg] => destruct (cancel_order d request msg Hd) as [_ H] end.
  unfold find_for_request in H. cbn [cancel_order_message cxl_client_order_id] in H. fold leftover in H. by rewrite He in H.
Qed.
End AtExchange.

(** ** Witnesses: coins go by their names *)

#[export] Instance sample_coins : HyperliquidInfo := fun _ => None.

Definition sample_cancels : FlatJson :=
  JObject [(str "cancels", JObject [(str "0", JObject [(str "a", JString (str "BTC-USD")); (str "o", JInt 7)]);
                                    (str "1", JObject [(str "a", JInt 3); (str "o", JInt 8)])])].

Definition idle_transport : Transport := mkTransport [] [] 0.

Lemma hyperliquid_entries_accounted_witness :
  let l := default (JInt 0) (js_find sample_cancels (str "cancels")) in
  exists outcomes queued, tr_requests (snd (process Cancels sample_cancels (str "alice") idle_transport)) = List.concat queued
    /\ Forall3 (accounted Cancels (str "alice")) (take (List.length outcomes) (js_items l)) outcomes queued
    /\ outcomes = map Some [success_status (ONumber 7); error_status (str "unknown asset")].
Proof.
  intros l. destruct (hyperliquid_entries_accounted Cancels sample_cancels (str "alice") l idle_transport) as (outcomes & queued & E & H3 & H);
    [vm_compute; reflexivity|vm_compute; reflexivity|].
  exists outcomes, queued. split; [exact E|]. split; [exact H3|].
  destruct (fst (process Cancels sample_cancels (str "alice") idle_transport)) as [reply|e|] eqn:Er;
    [|vm_compute in Er; discriminate Er..].
  destruct H as (statuses & Es & -> & _). f_equal. assert (Er' : Ok reply = Ok (ok_response (str "cancel")
    [success_status (ONumber 7); error_status (str "unknown asset")])) by (rewrite <- Er; vm_compute; reflexivity).
  injection Er' as ->. by injection Es as <-.
Defined.

Definition sample_hl_order : FlatJson :=
  JObject [(str "a", JString (str "BTC-USD")); (str "b", JInt 1); (str "p", JString (str "100.25")); (str "s", JString (str "0.5"));
           (str "r", JInt 0); (str "t", JObject [(str "limit", JObject [(str "tif", JString (str "Ioc"))])]); (str "c", JString (str "o7"))].

Definition sample_order_action : FlatJson := JObject [(str "orders", JObject [(str "0", sample_hl_order)])].

Lemma sample_reads : reads sample_hl_order (str "BTC-USD") (str "o7") true TimeInForce.IMMEDIATE_OR_CANCEL 10025000000 50000000.
Proof.
  split; [eexists; split; vm_compute; reflexivity|vm_compute; reflexivity|vm_compute; reflexivity|eexists; vm_compute; reflexivity
    |vm_compute; reflexivity|eexists _, _; repeat split; vm_compute; reflexivity..].
Qed.

Lemma sample_turns_published request s' : processRequest base_hooks sample_system (Some request) = Some s' ->
  List.concat (published_until idle_transport request) = sys_responses s'.
Proof.
  intros E. unfold published_until. change (ge_turns ?a ?b) with (sample_turns a b). unfold sample_turns.
  cbn [idle_transport tr_requests tr_responses app last]. rewrite E. cbn. by rewrite app_nil_r.
Qed.

(** The sample exchange names the order by letters: it is taken, and its client is told of a parse error. *)
Lemma hyperliquid_order_follows_exchange_witness :
  let msg := order_message (str "alice") (str "o7") true TimeInForce.IMMEDIATE_OR_CANCEL 10025000000 50000000 in
  let request := order_request idle_transport (str "BTC-USD") msg in
  exists s' r t', processRequest base_hooks sample_system (Some request) = Some s' /\ first_answer sample_system request msg r
    /\ sys_responses s' !! 0%nat = Some r /\ tr_requests t' = [request]
    /\ process_order_action sample_order_action (str "alice") idle_transport = (Throw (RuntimeError []), t').
Proof.
  intros msg request. assert (Hs : sane_request sample_system request).
  { apply (sample_rest_sane request msg); [done|done|done|]. apply Nat.leb_le. vm_compute. reflexivity. }
  destruct (hyperliquid_order_follows_exchange sample_system idle_transport (str "alice") sample_order_action sample_hl_order
    (str "BTC-USD") (str "o7") true TimeInForce.IMMEDIATE_OR_CANCEL 10025000000 50000000 sample_system_ok) as (s' & r & t' & E & Hf & Hr & Ht & Ho).
  - by eexists.
  - exact sample_reads.
  - exact Hs.
  - reflexivity.
  - intros s' E. exists []. rewrite (sample_turns_published _ s' E), app_nil_r. split; [done|].
    destruct (first_answered sample_system request msg sample_system_ok Hs eq_refl) as (s1 & r & rest & E1 & Er & _);
      [by apply (stored_size 37); lia..|].
    assert (s1 = s') as -> by (apply (inj Some); etrans; [symmetry; exact E1|exact E]). by rewrite Er.
  - assert (El : List.length (sys_responses sample_system) = 0%nat) by (vm_compute; reflexivity). rewrite El in Hr.
    exists s', r, t'. split; [exact E|]. split; [exact Hf|]. split; [exact Hr|]. split; [rewrite Ht; reflexivity|].
    pose proof (f_equal fst Ho) as Ef. rewrite Ho. f_equal. etrans; [symmetry; exact Ef|]. vm_compute. reflexivity.
Defined.

(** Alice's order rests under her id; a slot that last cancelled it is given to mallory's
    cancellation of an order that never was. *)
Definition stale_env : GatewayEnv := {|
  ge_clock n := 1000 + Z.of_nat n;
  ge_request_tag n := 0;
  ge_modify n := mkModifyOrder (clear 37) (clear 37) (clear 37) 0 0;
  ge_cancel n := mkCancelOrder (clear 37) (clear 37) (assign 37 (str "o1"));
  ge_turns := fun _ _ => []
|}.

Definition o1_message : AddOrderMessage := sample_add (assign 37 (str "o1")) 100 20.

Definition sample_cancel_999 : FlatJson := JObject [(str "a", JString (str "BTC-USD")); (str "o", JInt 999)].

Lemma o1_rests :
  match handleNewOrderRequest sample_desk (sample_request (ReqAdd o1_message)) o1_message with
  | Some d => is_Some (findOrderByClientOrderId (w_book (d_world d)) (str "o1"))
  | None => False
  end.
Proof. vm_compute. by eexists. Qed.

Lemma recycled_slot_is_cancelled_witness : exists d request msg t' x id,
  handleNewOrderRequest sample_desk (sample_request (ReqAdd o1_message)) o1_message = Some d
  /\ cancel_entry (env := stale_env) (str "mallory") sample_cancel_999 idle_transport = (Ok (success_status (ONumber 999)), t')
  /\ tr_requests t' = [request] /\ req_body request = ReqCancel msg /\ cxl_user_id msg = assign 37 (str "mallory")
  /\ findOrderByClientOrderId (w_book (d_world d)) (str "o1") = Some x /\ findOrder (w_book (d_world d)) id = Some x
  /\ cancelled_by d (req_request_tag request) id x (handleCancelOrderRequest d request msg).
Proof.
  destruct (new_order sample_desk (sample_request (ReqAdd o1_message)) o1_message sample_desk_ok sample_sane_add) as (d & Ed & Hd & _).
  pose proof o1_rests as Ho. rewrite Ed in Ho. destruct Ho as [x Hx].
  destruct (recycled_slot_is_cancelled (genv := stale_env) d idle_transport (str "mallory") sample_cancel_999 (JString (str "BTC-USD")) (str "BTC-USD") 999)
    as (request & msg & t' & H1 & H2 & H3 & H4 & H5 & H6);
    [apply Hd|vm_compute; reflexivity|vm_compute; reflexivity|done|vm_compute; reflexivity|vm_compute; reflexivity|].
  assert (El : view (cxl_client_order_id (@ge_cancel stale_env 0)) = str "o1") by (vm_compute; reflexivity).
  cbn zeta in H6. change (List.length (tr_requests idle_transport)) with 0%nat in H6. rewrite El in H6. rewrite Hx in H6. destruct H6 as (id & Hi & Hc).
  exists d, request, msg, t', x, id. split; [exact Ed|]. split; [exact H1|]. split; [exact H2|]. split; [exact H3|].
  split; [exact H5|]. split; [exact Hx|]. split; [exact Hi|exact Hc].
Defined.
