(* ===== verification/CoinbaseReports.v ===== *)
(** * Coinbase's websocket order gateway

    Models [src/venues/coinbase/coinbase_ws_order_gateway.hpp] and [.cpp]: who is told of
    which order, and under which sequence number. A socket is the number that stands for its
    pointer, [clients_] maps users to such pointers, and what was sent over a connection is
    kept with the connection. A socket found in [clients_] that is no longer open is read
    after it was freed, which is [Undefined]; an exception that leaves a handler is a [Throw].
    A handler is given one reading of the clock for everything it builds. The names of
    Coinbase's statuses are the SDK's. *)

From S2P Require Import Prelude Types FixedString Timestamp Orders Messages MatchingConfig MdPublisher.
From S2P Require Import Decimals MessageParsers JsonAccess OrderStore CoinbaseOrderJson RestGateway CoinbaseRest.

(** The enumerators of [coinbase::OrderStatus] the code names, and their [to_string]. *)
Module CbStatus.
Inductive OrderStatus :=
  OPEN | PENDING | EDIT_QUEUED | CANCEL_QUEUED | CANCELLED | FILLED | EXPIRED | FAILED | UNKNOWN_ORDER_STATUS.
End CbStatus.

Class CbStatusText := cb_status_to_string : CbStatus.OrderStatus -> bytes.

Definition to_coinbase_order_status (status : OrderStatus) : CbStatus.OrderStatus :=
  match status with
  | OrderStatus.NEW => CbStatus.OPEN
  | OrderStatus.PENDING_NEW => CbStatus.PENDING
  | OrderStatus.PENDING_REPLACE => CbStatus.EDIT_QUEUED
  | OrderStatus.PENDING_CANCEL => CbStatus.CANCEL_QUEUED
  | OrderStatus.REPLACED => CbStatus.OPEN
  | OrderStatus.CANCELED => CbStatus.CANCELLED
  | OrderStatus.FILLED => CbStatus.FILLED
  | OrderStatus.PARTIALLY_FILLED => CbStatus.FILLED
  | OrderStatus.EXPIRED => CbStatus.EXPIRED
  | OrderStatus.REJECTED => CbStatus.FAILED
  | _ => CbStatus.UNKNOWN_ORDER_STATUS
  end.

(** ** Messages *)

(** No part of them is copied from a client's document. *)
Abbreviation Doc := (Out Empty_set).

Inductive WsMessage :=
  Stamped (channel timestamp : bytes) (sequence_num : Z) (events : Doc)
| Plain (d : Doc)
| PingFrame.

(** ** State *)

Record PerSocketData := mkPerSocket {
  ps_sub : bytes;
  ps_user_id : bytes;
  ps_seq_num : Z;
  ps_last_pong : Z;
  ps_authenticated : bool;
  ps_subscribed_heartbeat : bool;
  ps_sent : list WsMessage
}.

#[export] Instance PerSocketData_eta : Eta PerSocketData := fun s =>
  mkPerSocket (ps_sub s) (ps_user_id s) (ps_seq_num s) (ps_last_pong s) (ps_authenticated s) (ps_subscribed_heartbeat s) (ps_sent s).

Record OrderReports := mkReports {
  or_sockets : gmap Z PerSocketData;
  or_clients : gmap bytes Z;
  or_orders : OrderStore;
  or_response_read_index : nat;
  or_heartbeat_count : Z;
  or_heartbeat_start : option Z
}.

#[export] Instance OrderReports_eta : Eta OrderReports := fun g =>
  mkReports (or_sockets g) (or_clients g) (or_orders g) (or_response_read_index g) (or_heartbeat_count g) (or_heartbeat_start g).

(** [initial_reading_index]: what is published from now on. *)
Definition new_reports (responses : list OrderResponse) : OrderReports :=
  mkReports ∅ ∅ empty_store (List.length responses) 0 None.

(** ** Sending *)

Definition on_socket (f : PerSocketData -> PerSocketData) (g : OrderReports) (ws : Z) : result OrderReports :=
  match or_sockets g !! ws with
  | Some sd => Ok (g <| or_sockets ::= <[ws := f sd]> |>)
  | None => Undefined
  end.

Definition send (m : WsMessage) : OrderReports -> Z -> result OrderReports :=
  on_socket (fun sd => sd <| ps_sent ::= fun l => l ++ [m] |>).

(** [user_data->seq_num++] goes into the message. *)
Definition stamp (now : Z) (channel : bytes) (events : Doc) (sd : PerSocketData) : PerSocketData :=
  sd <| ps_sent ::= fun l => l ++ [Stamped channel (format_time_point now 9) (ps_seq_num sd) events] |>
     <| ps_seq_num ::= fun n => u64 (n + 1) |>.

Definition send_stamped (now : Z) (channel : bytes) (events : Doc) : OrderReports -> Z -> result OrderReports :=
  on_socket (stamp now channel events).

Definition error_message (message : Doc) : WsMessage :=
  Plain (OObject [(str "type", OText (str "error")); (str "message", message)]).

Definition send_error (error_msg : Doc) : OrderReports -> Z -> result OrderReports := send (error_message error_msg).

(** ** Connections *)

(** uWebSockets value-initialises the user data of a new socket. *)
Definition open_socket (g : OrderReports) (ws now : Z) : OrderReports :=
  g <| or_sockets ::= <[ws := mkPerSocket [] [] 0 now false false []]> |>.

Definition pong (g : OrderReports) (ws now : Z) : result OrderReports := on_socket (fun sd => sd <| ps_last_pong := now |>) g ws.

(** The socket is gone when its close handler returns. *)
Definition handle_close (g : OrderReports) (ws : Z) : result OrderReports :=
  match or_sockets g !! ws with
  | None => Undefined
  | Some sd =>
      let g := match ps_user_id sd with
               | [] => g
               | user_id => g <| or_clients ::= delete user_id |>
               end in
      Ok (g <| or_sockets ::= delete ws |>)
  end.

(** ** Subscribing *)

Section Reports.
Context {J : Type} {json : Json J} {reader : JsonReader J} {jwt : Jwt} {status_text : CbStatusText}.

(** [pong_timeout_], in seconds, and the rate the SDK's client is told. *)
Variable pong_timeout : Z.
Variable fee_rate : double.

Definition subscriptions (channel : string) (names : list bytes) : Doc :=
  OArray [OObject [(str "subscriptions", OObject [(str channel, OArray (map OText names))])]].

Definition orders_snapshot (now : Z) (orders : list Order) : Doc :=
  OArray [OObject [(str "type", OText (str "snapshot"));
                   (str "orders", OArray (map (order_to_json now) orders));
                   (str "positions", OObject [(str "perpetual_futures_positions", OArray []);
                                              (str "expiring_futures_positions", OArray [])])]].

Definition texts (l : list (string * string)) : list (bytes * Doc) := map (fun '(k, v) => (str k, OText (str v))) l.

(** The same for everybody. *)
Definition BALANCE_SUMMARY : Doc :=
  OArray [OObject
    [(str "type", OText (str "snapshot"));
     (str "fcm_balance_summary", OObject
       (texts [("futures_buying_power", "10000.00"); ("total_usd_balance", "3611.86"); ("cbi_usd_balance", "2051.75");
               ("cfm_usd_balance", "1560.11"); ("total_open_orders_hold_amount", "0"); ("unrealized_pnl", "0");
               ("daily_realized_pnl", "0"); ("initial_margin", "460.14"); ("available_margin", "5060.76");
               ("liquidation_threshold", "345.11"); ("liquidation_buffer_amount", "4715.66");
               ("liquidation_buffer_percentage", "1000")]%string
        ++ [(str "intraday_margin_window_measure", OObject
              (texts [("margin_window_type", "FCM_MARGIN_WINDOW_TYPE_INTRADAY"); ("margin_level", "MARGIN_LEVEL_TYPE_BASE");
                      ("initial_margin", "460.14"); ("maintenance_margin", "345.11");
                      ("liquidation_buffer_percentage", "1000"); ("total_hold", "0"); ("futures_buying_power", "10000.00")]%string));
            (str "overnight_margin_window_measure", OObject
              (texts [("margin_window_type", "FCM_MARGIN_WINDOW_TYPE_OVERNIGHT"); ("margin_level", "MARGIN_LEVEL_TYPE_BASE");
                      ("initial_margin", "1497.85"); ("maintenance_margin", "1318.11");
                      ("liquidation_buffer_percentage", "1000"); ("total_hold", "0"); ("futures_buying_power", "2293.45")]%string))]))]].

(** What a token says of the socket that sent it. Only a user without a socket gets one. *)
Definition identify (sub : bytes) (g : OrderReports) (ws : Z) : result OrderReports :=
  let user_id := after_last_slash sub in
  let* g := on_socket (fun sd => sd <| ps_sub := sub |> <| ps_user_id := user_id |> <| ps_authenticated := true |>) g ws in
  match or_clients g !! user_id with
  | Some _ => Ok g
  | None => let* g := on_socket (fun sd => sd <| ps_seq_num := 0 |>) g ws in Ok (g <| or_clients ::= <[user_id := ws]> |>)
  end.

Definition subscribe_channel (now : Z) (user_id channel : bytes) (g : OrderReports) (ws : Z) : result OrderReports :=
  if bytes_eqb channel (str "user") then
    let* g := send_stamped now (str "user") (orders_snapshot now (orders_of (or_orders g) user_id)) g ws in
    send_stamped now (str "subscriptions") (subscriptions "user" [user_id]) g ws
  else if bytes_eqb channel (str "heartbeats") then
    let* g := on_socket (fun sd => sd <| ps_subscribed_heartbeat := true |>) g ws in
    send_stamped now (str "subscriptions") (subscriptions "heartbeats" [str "heartbeats"]) g ws
  else if bytes_eqb channel (str "futures_balance_summary") then
    send_stamped now (str "futures_balance_summary") BALANCE_SUMMARY g ws
  else send_error (OText (str "channel `" ++ channel ++ str "` is not supported")) g ws.

(** Any exception between decoding the token and answering. *)
Definition refuse (g : OrderReports) (ws : Z) : result OrderReports :=
  let* g := send_error (OWhat (str "JWT decode error: ")) g ws in handle_close g ws.

Definition subscribe (now : Z) (msg : J) (token : bytes) (g : OrderReports) (ws : Z) : result OrderReports :=
  match jwt_subject token with
  | None => refuse g ws
  | Some sub =>
      let* g := identify sub g ws in
      match js_find msg (str "channel") ≫= js_get_string with
      | None => refuse g ws
      | Some channel => subscribe_channel now (after_last_slash sub) channel g ws
      end
  end.

Definition handle_message (now : Z) (message : bytes) (g : OrderReports) (ws : Z) : result OrderReports :=
  match js_parse message with
  | None => send_error (OWhat (str "Invalid JSON: ")) g ws
  | Some msg =>
      if bool_decide ((js_find msg (str "type") ≫= js_get_string) = Some (str "subscribe")) then
        match js_find msg (str "jwt") with
        | None => send_error (OText (str "Missing JWT token")) g ws
        | Some jwt => match js_get_string jwt with
                      | None => Throw BadJson
                      | Some token => subscribe now msg token g ws
                      end
        end
      else if negb (js_is_object msg) then Throw BadJson
      else match js_find msg (str "type") with
           | None => send_error (OText (str "type `` is not supported")) g ws
           | Some v => match js_get_string v with
                       | Some type => send_error (OText (str "type `" ++ type ++ str "` is not supported")) g ws
                       | None => Throw BadJson
                       end
           end
  end.

(** ** Reports *)

Definition order_report (response : OrderResponse) : Doc :=
  let filled_value := SFmul prec emax (to_price_double (r_avg_fill_price response)) (to_qty_double (r_cum_qty response)) in
  let fees := SFmul prec emax filled_value fee_rate in
  let identity := r_identity response in
  OArray [OObject [(str "type", OText (str "update")); (str "orders", OArray [OObject
    [text_member "avg_price" (to_price_string (r_avg_fill_price response));
     text_member "client_order_id" (view (id_client_order_id identity));
     text_member "completion_percentage"
       (if 0 <? r_qty response
        then double_to_string (SFmul prec emax (SFdiv prec emax (to_qty_double (r_cum_qty response)) (double_of_Z (r_qty response)))
                                 (double_of_Z 100))
        else double_to_string double_zero);
     text_member "contract_expiry_type" (str "UNKNOWN_CONTRACT_EXPIRY_TYPE");
     text_member "cumulative_quantity" (to_qty_string (r_cum_qty response));
     text_member "filled_value" (double_to_string filled_value);
     text_member "leaves_quantity" (to_qty_string (r_leaves_qty response));
     text_member "limit_price" (to_price_string (r_price response));
     text_member "number_of_fills"
       (to_string_i64 (if 0 <? r_last_qty response then Z.quot (r_cum_qty response) (r_last_qty response) else 0));
     text_member "order_id" (report_id response);
     text_member "order_side" (if bool_decide (r_side response = BUY) then str "BUY" else str "SELL");
     text_member "order_type" (OrderType.order_type_to_string (r_order_type response));
     text_member "post_only" (if r_post_only response then str "true" else str "false");
     text_member "product_id" (view (id_symbol identity));
     text_member "reject_reason" (OrdReject.ord_reject_to_string (r_reject_reason response));
     text_member "status" (cb_status_to_string (to_coinbase_order_status (r_order_status response)));
     text_member "time_in_force" (TimeInForce.time_in_force_to_string (r_time_in_force response));
     text_member "total_fees" (double_to_string fees);
     text_member "total_value_after_fees" (double_to_string (SFsub prec emax filled_value fees));
     text_member "trigger_status" (str "INVALID_ORDER_TYPE");
     text_member "creation_time" (format_timestamp_iso8601 (r_creation_time response) 9);
     text_member "end_time" (str "0001-01-01T00:00:00Z");
     text_member "start_time" (str "0001-01-01T00:00:00Z")]])]].

Definition handle_order_response (now : Z) (response : OrderResponse) (g : OrderReports) (ws : Z) : result OrderReports :=
  if bool_decide (r_order_status response = OrderStatus.PENDING_NEW) then Ok g
  else send_stamped now (str "user") (order_report response) g ws.

(** One response: it is recorded, then sent to its user's socket. *)
Definition process_response (now : Z) (response : OrderResponse) (g : OrderReports) : result OrderReports :=
  let g := g <| or_orders ::= fun s => store_apply now s response |> in
  match view (id_user_id (r_identity response)) with
  | [] => Ok g
  | user_id => match or_clients g !! user_id with
               | Some client_ws => handle_order_response now response g client_ws
               | None => Ok g
               end
  end.

Fixpoint process_responses (batch : nat) (now : Z) (responses : list OrderResponse) (g : OrderReports) : result OrderReports :=
  match batch with
  | O => Ok g
  | S batch =>
      match responses !! or_response_read_index g with
      | None => Ok g
      | Some response =>
          let* g := process_response now response (g <| or_response_read_index ::= S |>) in
          process_responses batch now responses g
      end
  end.

Definition MAX_BATCH : nat := 100.

Definition process_all_responses (now : Z) (responses : list OrderResponse) (g : OrderReports) : result OrderReports :=
  process_responses MAX_BATCH now responses g.

(** ** Heartbeats *)

Definition heartbeat (start now count : Z) : Doc :=
  OArray [OObject [(str "current_time", OText (format_heatbeat_timestamp start now)); (str "heartbeat_counter", ONumber count)]].

Definition beat (now : Z) (sd : PerSocketData) (g : OrderReports) (ws : Z) : result OrderReports :=
  let* g := if ps_subscribed_heartbeat sd then
              let start := default now (or_heartbeat_start g) in
              let g' := g <| or_heartbeat_start := Some start |> <| or_heartbeat_count ::= fun n => u64 (n + 1) |> in
              send_stamped now (str "heartbeats") (heartbeat start now (or_heartbeat_count g)) g' ws
            else Ok g in
  send PingFrame g ws.

Definition among (users : list bytes) (c : bytes * Z) : bool := bool_decide (fst c ∈ users).

(** The entry of the map its close handler erases. *)
Definition erased_by (sd : PerSocketData) : list bytes := match ps_user_id sd with [] => [] | user_id => [user_id] end.

(** The entries of the map from an iterator on, less those [gone] since. Closing a socket runs
    its close handler, and an iterator at the entry that erases is no longer one. *)
Fixpoint check_clients (steady now : Z) (gone : list bytes) (clients : list (bytes * Z)) (g : OrderReports) : result OrderReports :=
  match clients with
  | [] => Ok g
  | (user_id, ws) :: clients =>
      if among gone (user_id, ws) then check_clients steady now gone clients g
      else match or_sockets g !! ws with
           | None => Undefined
           | Some sd =>
               if pong_timeout <? Z.quot (steady - ps_last_pong sd) 1000000000 then
                 let next := List.find (fun c => negb (among gone c)) clients in
                 let* g := handle_close (g <| or_clients ::= delete user_id |>) ws in
                 if bool_decide (among (erased_by sd) <$> next = Some true) then Undefined
                 else check_clients steady now (erased_by sd ++ gone) clients g
               else let* g := beat now sd g ws in check_clients steady now gone clients g
           end
  end.

Definition check_heartbeats (steady now : Z) (g : OrderReports) : result OrderReports :=
  check_clients steady now [] (map_to_list (or_clients g)) g.
End Reports.
