(* ===== verification/CoinbaseReportsProofs.v ===== *)
(** * Who is told of which order

    What [CoinbaseReports] sends: every report goes to its user's socket, in order and
    numbered without a gap, and as long as a socket speaks for one user the map of clients
    only holds sockets that are open. Where one user has two sockets, or one socket two
    users, the theorems say what is lost. *)

From S2P Require Import Prelude Types FixedString Timestamp Orders Messages MatchingConfig MdPublisher.
From S2P Require Import Decimals MessageParsers JsonAccess OrderStore CoinbaseOrderJson RestGateway CoinbaseRest CoinbaseReports.

Section Reports.
Context {J : Type} {json : Json J} {reader : JsonReader J} {jwt : Jwt} {status_text : CbStatusText}.
Variables (pong_timeout : Z) (fee_rate : double).
Implicit Types g : OrderReports.
Implicit Types sd : PerSocketData.

(** ** Single steps *)

(** What a handler may do to the socket it is given: anything but change whose it is. *)
Definition same_user sd sd' : Prop := ps_user_id sd' = ps_user_id sd /\ (0 <= ps_seq_num sd < 2 ^ 64 -> 0 <= ps_seq_num sd' < 2 ^ 64).

#[local] Instance same_user_refl : Reflexive same_user.
Proof. by split. Qed.
#[local] Instance same_user_trans : Transitive same_user.
Proof. intros a b c [H1 H2] [H3 H4]. split; [congruence|auto]. Qed.

(** [g'] is [g] with the socket [ws] changed within [R]. *)
Definition only (R : PerSocketData -> PerSocketData -> Prop) (ws : Z) g g' : Prop :=
  or_clients g' = or_clients g /\ or_orders g' = or_orders g /\ or_response_read_index g' = or_response_read_index g
  /\ exists sd sd', or_sockets g !! ws = Some sd /\ or_sockets g' = <[ws := sd']> (or_sockets g) /\ R sd sd'.

Lemma on_socket_only f (R : PerSocketData -> PerSocketData -> Prop) g ws sd :
  or_sockets g !! ws = Some sd -> R sd (f sd) -> exists g', on_socket f g ws = Ok g' /\ only R ws g g'.
Proof.
  intros E H. unfold on_socket. rewrite E. eexists. split; [done|]. split; [done|]. split; [done|]. split; [done|].
  by exists sd, (f sd).
Qed.

Lemma only_open R ws g g' : only R ws g g' -> is_Some (or_sockets g' !! ws).
Proof. intros (_ & _ & _ & sd & sd' & _ & -> & _). rewrite lookup_insert_eq. by eexists. Qed.

Lemma only_trans R ws g1 g2 g3 : Transitive R -> only R ws g1 g2 -> only R ws g2 g3 -> only R ws g1 g3.
Proof.
  intros HR (C1 & O1 & I1 & a & b & A & B & H1) (C2 & O2 & I2 & b' & c & A' & B' & H2).
  split; [congruence|]. split; [congruence|]. split; [congruence|]. rewrite B, lookup_insert_eq in A'. injection A' as <-.
  exists a, c. split; [done|]. split; [by rewrite B', B, insert_insert_eq|by etrans].
Qed.

Lemma send_only m g ws : is_Some (or_sockets g !! ws) -> exists g', send m g ws = Ok g' /\ only same_user ws g g'.
Proof. intros [sd E]. by eapply on_socket_only. Qed.

Lemma stamp_same now channel events sd : same_user sd (stamp now channel events sd).
Proof. split; [done|]. intros _. cbn. unfold wrap. by apply Z.mod_pos_bound. Qed.

Lemma stamped_only now channel events g ws : is_Some (or_sockets g !! ws) ->
  exists g', send_stamped now channel events g ws = Ok g' /\ only same_user ws g g'.
Proof. intros [sd E]. eapply on_socket_only; [done|apply stamp_same]. Qed.

Lemma channel_only now user_id channel g ws : is_Some (or_sockets g !! ws) ->
  exists g', subscribe_channel now user_id channel g ws = Ok g' /\ only same_user ws g g'.
Proof.
  intros H. unfold subscribe_channel.
  destruct (bytes_eqb channel (str "user")); [|destruct (bytes_eqb channel (str "heartbeats")); [|destruct (bytes_eqb channel _)]].
  - destruct (stamped_only now (str "user") (orders_snapshot now (orders_of (or_orders g) user_id)) g ws H) as (g1 & -> & H1). cbn [rbind].
    destruct (stamped_only now (str "subscriptions") (subscriptions "user" [user_id]) g1 ws (only_open _ _ _ _ H1)) as (g2 & -> & H2).
    exists g2. split; [done|]. by eapply only_trans; [apply _|..].
  - destruct H as [sd E]. destruct (on_socket_only (fun sd => sd <| ps_subscribed_heartbeat := true |>) same_user g ws sd E) as (g1 & -> & H1); [done|].
    cbn [rbind]. destruct (stamped_only now (str "subscriptions") (subscriptions "heartbeats" [str "heartbeats"]) g1 ws (only_open _ _ _ _ H1))
      as (g2 & -> & H2). exists g2. split; [done|]. by eapply only_trans; [apply _|..].
  - by apply stamped_only.
  - by apply send_only.
Qed.

(** ** The registry *)

(** Each connection speaks for one user. *)
Variable who : Z -> bytes.

Record sound g : Prop := {
  sd_registered : forall u ws, or_clients g !! u = Some ws -> u = who ws /\ u <> [] /\ exists sd, or_sockets g !! ws = Some sd /\ ps_user_id sd = u;
  sd_identified : forall ws sd, or_sockets g !! ws = Some sd -> ps_user_id sd = [] \/ ps_user_id sd = who ws;
  sd_numbered : forall ws sd, or_sockets g !! ws = Some sd -> 0 <= ps_seq_num sd < 2 ^ 64
}.

Lemma only_sound ws g g' : only same_user ws g g' -> sound g -> sound g'.
Proof.
  intros (C & _ & _ & sd & sd' & E & E' & Hu & Hn) [R I N]. split; rewrite ?C, ?E'.
  - intros u ws' Hc. destruct (R u ws' Hc) as (-> & Hne & sd1 & E1 & E2). split; [done|]. split; [done|].
    destruct (decide (ws = ws')) as [<-|Hd]; [|rewrite lookup_insert_ne by done; by exists sd1].
    rewrite lookup_insert_eq. exists sd'. split; [done|]. congruence.
  - intros ws' sd1. rewrite lookup_insert_Some. intros [[<- <-]|[_ H1]]; [rewrite Hu|]; by eapply I.
  - intros ws' sd1. rewrite lookup_insert_Some. intros [[<- <-]|[_ H1]]; [apply Hn|]; by eapply N.
Qed.

Lemma reread_sound g g' : or_sockets g' = or_sockets g -> or_clients g' = or_clients g -> sound g -> sound g'.
Proof. intros E1 E2 [R I N]. split; rewrite ?E1, ?E2; done. Qed.

Definition forget_user (user_id : bytes) (m : gmap bytes Z) : gmap bytes Z :=
  match user_id with [] => m | _ => delete user_id m end.

Lemma forget_subseteq user_id m : forget_user user_id m ⊆ m.
Proof. destruct user_id; [done|apply delete_subseteq]. Qed.

Lemma less_sound g m : m ⊆ or_clients g -> sound g -> sound (g <| or_clients := m |>).
Proof. intros Hm [R I N]. split; [|exact I|exact N]. intros u ws H. apply R. by eapply lookup_weaken. Qed.

Lemma close_sound g ws sd : sound g -> or_sockets g !! ws = Some sd -> exists g', handle_close g ws = Ok g' /\ sound g'
  /\ or_sockets g' = delete ws (or_sockets g) /\ or_clients g' = forget_user (ps_user_id sd) (or_clients g).
Proof.
  intros [R I N] E. unfold handle_close. rewrite E. eexists. split; [done|].
  set (g1 := match ps_user_id sd with [] => _ | _ => _ end).
  assert (Hs : or_sockets g1 = or_sockets g) by (unfold g1; by destruct (ps_user_id sd)).
  assert (Hc : or_clients g1 = forget_user (ps_user_id sd) (or_clients g)) by (unfold g1; by destruct (ps_user_id sd)).
  split; [|cbn; by rewrite Hs]. split; cbn; rewrite Hs.
  - intros u ws'. rewrite Hc. intros H. pose proof (lookup_weaken _ _ _ _ H (forget_subseteq _ _)) as H'.
    destruct (R u ws' H') as (Hu & Hne & sd1 & E1 & E2). split; [done|]. split; [done|]. exists sd1. split; [|done].
    rewrite lookup_delete_ne; [done|]. intros ->. assert (sd1 = sd) as -> by congruence. unfold forget_user in H.
    destruct (ps_user_id sd) as [|c l] eqn:El; [congruence|]. rewrite <- E2 in H. by rewrite lookup_delete_eq in H.
  - intros ws' sd1 [_ H]%lookup_delete_Some. by eapply I.
  - intros ws' sd1 [_ H]%lookup_delete_Some. by eapply N.
Qed.

Lemma identify_sound sub g ws : sound g -> is_Some (or_sockets g !! ws) -> after_last_slash sub = who ws -> who ws <> [] ->
  exists g', identify sub g ws = Ok g' /\ sound g' /\ is_Some (or_sockets g' !! ws).
Proof.
  intros [R I N] [sd E] Hu Hne. unfold identify, on_socket. rewrite E, Hu. cbn [rbind]. set (sd1 := sd <| ps_sub := sub |> <| ps_user_id := who ws |> <| ps_authenticated := true |>).
  cbn [or_clients or_sockets upd]. assert (Hs : forall sd2, ps_user_id sd2 = who ws -> 0 <= ps_seq_num sd2 < 2 ^ 64 -> forall clients,
    (forall u w, clients !! u = Some w -> or_clients g !! u = Some w \/ u = who ws /\ w = ws) ->
    sound (g <| or_sockets ::= <[ws := sd2]> |> <| or_clients := clients |>)).
  { intros sd2 E2 N2 clients Hc. split; cbn.
    - intros u w [Hw|[-> ->]]%Hc; [|split; [done|split; [done|exists sd2; by rewrite lookup_insert_eq]]].
      destruct (R u w Hw) as (Hu' & Hn' & sd3 & E3 & E4). split; [done|]. split; [done|].
      destruct (decide (ws = w)) as [<-|Hd]; [exists sd2; rewrite lookup_insert_eq; split; [done|congruence]|].
      exists sd3. by rewrite lookup_insert_ne.
    - intros w sd3. rewrite lookup_insert_Some. intros [[<- <-]|[_ H]]; [by right|by eapply I].
    - intros w sd3. rewrite lookup_insert_Some. intros [[<- <-]|[_ H]]; [done|by eapply N]. }
  destruct (or_clients g !! who ws) as [w|] eqn:Ew.
  - eexists. split; [done|]. split; [|cbn; rewrite lookup_insert_eq; by eexists].
    eapply (reread_sound (g <| or_sockets ::= <[ws := sd1]> |> <| or_clients := or_clients g |>)); [done|done|].
    apply Hs; [done|exact (N ws sd E)|auto].
  - rewrite lookup_insert_eq. cbn [rbind]. eexists. split; [done|]. split; [|cbn; rewrite lookup_insert_eq; by eexists].
    eapply (reread_sound (g <| or_sockets ::= <[ws := sd1 <| ps_seq_num := 0 |>]> |> <| or_clients := <[who ws := ws]> (or_clients g) |>)).
    + cbn. by rewrite insert_insert_eq.
    + done.
    + apply Hs; [done|done|]. intros u w. rewrite lookup_insert_Some. intros [[<- <-]|[_ H]]; auto.
Qed.

(** ** What each event leaves *)

(** Nothing freed is touched, and what is left is sound; an exception ends the gateway. *)
Definition safe (r : result OrderReports) : Prop :=
  match r with Ok g => sound g | Throw _ => True | Undefined => False end.

(** The user a message's token speaks for. *)
Definition speaks_for (message : bytes) (user_id : bytes) : Prop := exists msg token sub,
  js_parse message = Some msg /\ js_find msg (str "jwt") ≫= js_get_string = Some token
  /\ jwt_subject token = Some sub /\ user_id = after_last_slash sub.

Lemma only_safe r ws g : sound g -> (exists g', r = Ok g' /\ only same_user ws g g') -> safe r.
Proof. intros Hg (g' & -> & H). by eapply only_sound. Qed.

Lemma refuse_safe g ws : sound g -> is_Some (or_sockets g !! ws) -> safe (refuse g ws).
Proof.
  intros Hg Ho. unfold refuse. destruct (send_only (error_message (OWhat (str "JWT decode error: "))) g ws Ho) as (g1 & E & H1).
  unfold send_error. rewrite E. cbn [rbind]. destruct (only_open _ _ _ _ H1) as [sd E1]. destruct (close_sound g1 ws sd (only_sound _ _ _ H1 Hg) E1) as (g2 & -> & H2 & _). exact H2.
Qed.

Lemma message_safe now message g ws : sound g -> is_Some (or_sockets g !! ws) ->
  (forall u, speaks_for message u -> u = who ws /\ u <> []) -> safe (handle_message now message g ws).
Proof.
  intros Hg Ho Hw. unfold handle_message. destruct (js_parse message) as [msg|] eqn:Ep; [|by apply (only_safe _ ws g), send_only].
  destruct (bool_decide _).
  - destruct (js_find msg (str "jwt")) as [v|] eqn:Ej; [|by apply (only_safe _ ws g), send_only].
    destruct (js_get_string v) as [token|] eqn:Et; [|done]. unfold subscribe.
    destruct (jwt_subject token) as [sub|] eqn:Es; [|by apply refuse_safe].
    destruct (Hw (after_last_slash sub)) as [Hu Hne]; [exists msg, token, sub; by rewrite Ej|].
    destruct (identify_sound sub g ws Hg Ho Hu) as (g1 & -> & H1 & O1); [congruence|]. cbn [rbind].
    destruct (js_find msg (str "channel") ≫= js_get_string) as [channel|]; [|by apply refuse_safe].
    by apply (only_safe _ ws g1), channel_only.
  - destruct (js_is_object msg); [|done]. cbn [negb]. destruct (js_find msg (str "type")) as [v|]; [|by apply (only_safe _ ws g), send_only].
    destruct (js_get_string v); [|done]. by apply (only_safe _ ws g), send_only.
Qed.

Lemma response_safe now response g : sound g -> safe (process_response fee_rate now response g).
Proof.
  intros Hg. unfold process_response. set (g1 := g <| or_orders ::= _ |>). assert (H1 : sound g1) by (by apply (reread_sound g)).
  destruct (view (id_user_id (r_identity response))) as [|c l] eqn:Eu; [exact H1|].
  destruct (or_clients g1 !! (c :: l)) as [ws|] eqn:Ec; [|exact H1]. unfold handle_order_response. case_bool_decide; [exact H1|].
  destruct (sd_registered _ H1 _ _ Ec) as (_ & _ & sd & E & _). apply (only_safe _ ws g1 H1), stamped_only. by exists sd.
Qed.

Lemma responses_safe batch now responses g : sound g -> safe (process_responses fee_rate batch now responses g).
Proof.
  revert g. induction batch as [|batch IH]; intros g Hg; cbn [process_responses]; [exact Hg|].
  destruct (responses !! or_response_read_index g) as [response|]; [|exact Hg].
  set (g0 := g <| or_response_read_index ::= S |>). pose proof (response_safe now response g0 (reread_sound g g0 eq_refl eq_refl Hg)) as H.
  destruct (process_response fee_rate now response g0) as [g1| |]; [by apply IH|done..].
Qed.

Lemma beat_safe now sd g ws : sound g -> is_Some (or_sockets g !! ws) ->
  exists g', beat now sd g ws = Ok g' /\ sound g' /\ or_clients g' = or_clients g.
Proof.
  intros Hg Ho. unfold beat. set (g1 := g <| or_heartbeat_start := _ |> <| or_heartbeat_count ::= _ |>).
  assert (H : exists g', (if ps_subscribed_heartbeat sd then send_stamped now (str "heartbeats")
            (heartbeat (default now (or_heartbeat_start g)) now (or_heartbeat_count g)) g1 ws else Ok g) = Ok g'
            /\ sound g' /\ or_clients g' = or_clients g /\ is_Some (or_sockets g' !! ws)).
  { destruct (ps_subscribed_heartbeat sd); [|by exists g].
    destruct (stamped_only now (str "heartbeats") (heartbeat (default now (or_heartbeat_start g)) now (or_heartbeat_count g)) g1 ws Ho)
      as (g' & -> & H'). exists g'. split; [done|]. split; [by eapply only_sound, (reread_sound g)|]. split; [by destruct H'|by eapply only_open]. }
  destruct H as (g2 & E & H2 & C2 & O2). cbv zeta. fold g1. rewrite E. cbn [rbind]. destruct (send_only PingFrame g2 ws O2) as (g3 & -> & H3).
  exists g3. split; [done|]. split; [by eapply only_sound|]. destruct H3 as [-> _]. done.
Qed.

Lemma clients_safe steady now clients gone g : sound g -> NoDup clients.*1 ->
  (forall u ws, (u, ws) ∈ clients -> u ∉ gone -> or_clients g !! u = Some ws) ->
  safe (check_clients pong_timeout steady now gone clients g).
Proof.
  revert gone g. induction clients as [|[u ws] clients IH]; intros gone g Hg Hd Hin; cbn [check_clients]; [exact Hg|].
  apply NoDup_cons in Hd as [Hu Hd]. destruct (among gone (u, ws)) eqn:Ea.
  { apply IH; [done|done|]. intros u' ws' H. apply Hin. by right. }
  assert (Hug : u ∉ gone) by (unfold among in Ea; by apply bool_decide_eq_false in Ea).
  destruct (sd_registered _ Hg u ws) as (_ & Hne & sd & E & Eu); [by apply Hin; [left|]|]. rewrite E. case_match.
  - set (g1 := g <| or_clients ::= delete u |>). assert (H1 : sound g1) by (by apply (less_sound g), Hg; apply delete_subseteq).
    destruct (close_sound g1 ws sd H1 E) as (g2 & -> & H2 & _ & C2). cbn [rbind].
    assert (Ee : erased_by sd = [u]) by (unfold erased_by; rewrite Eu; by destruct u). rewrite Ee.
    rewrite bool_decide_eq_false_2.
    + apply IH; [done|done|]. intros u' ws' H' Hg'. apply not_elem_of_cons in Hg' as [Hn Hg']. rewrite C2, Eu. unfold forget_user.
      destruct u as [|c l]; [done|]. cbn. rewrite !lookup_delete_ne by done. apply Hin; [by right|done].
    + intros Hnext. destruct (List.find _ clients) as [[u' ws']|] eqn:Ef; [|done]. cbn in Hnext. injection Hnext as Hnext.
      apply List.find_some in Ef as [Ef _]. apply list_elem_of_In in Ef. unfold among in Hnext. apply bool_decide_eq_true in Hnext.
      apply list_elem_of_singleton in Hnext. cbn in Hnext. subst u'. apply Hu. apply list_elem_of_fmap. by exists (u, ws').
  - destruct (beat_safe now sd g ws Hg) as (g1 & -> & H1 & C1); [by exists sd|]. cbn [rbind]. apply IH; [done|done|].
    intros u' ws' H'. rewrite C1. apply Hin. by right.
Qed.

(** ** Any sequence of events *)

Inductive Event :=
  Opened (ws now : Z)
| Message (ws now : Z) (message : bytes)
| Pong (ws now : Z)
| Closed (ws : Z)
| Responses (now : Z) (responses : list OrderResponse)
| Heartbeats (steady now : Z).

Definition happen (e : Event) (g : OrderReports) : result OrderReports :=
  match e with
  | Opened ws now => Ok (open_socket g ws now)
  | Message ws now message => handle_message now message g ws
  | Pong ws now => pong g ws now
  | Closed ws => handle_close g ws
  | Responses now responses => process_all_responses fee_rate now responses g
  | Heartbeats steady now => check_heartbeats pong_timeout steady now g
  end.

(** The events of open sockets, and tokens that speak for the connection's user. *)
Definition possible g (e : Event) : Prop :=
  match e with
  | Opened ws _ => or_sockets g !! ws = None
  | Message ws _ message => is_Some (or_sockets g !! ws) /\ forall u, speaks_for message u -> u = who ws /\ u <> []
  | Pong ws _ | Closed ws => is_Some (or_sockets g !! ws)
  | _ => True
  end.

Inductive reached : OrderReports -> Prop :=
| ReachedNew responses : reached (new_reports responses)
| ReachedStep g e g' : reached g -> possible g e -> happen e g = Ok g' -> reached g'.

Lemma event_safe g e : sound g -> possible g e -> safe (happen e g).
Proof.
  intros Hg Hp. destruct e as [ws now|ws now message|ws now|ws|now responses|steady now]; cbn [possible happen] in Hp |- *.
  - destruct Hg as [R I N]. split; cbn.
    + intros u w Hc. destruct (R u w Hc) as (Hu & Hne & sd & E & E2). split; [done|]. split; [done|]. exists sd.
      rewrite lookup_insert_ne; [done|]. congruence.
    + intros w sd. rewrite lookup_insert_Some. intros [[<- <-]|[_ H]]; [by left|by eapply I].
    + intros w sd. rewrite lookup_insert_Some. intros [[<- <-]|[_ H]]; [done|by eapply N].
  - destruct Hp as [Ho Hw]. by apply message_safe.
  - destruct Hp as [sd E]. apply (only_safe _ ws g Hg). by eapply on_socket_only.
  - destruct Hp as [sd E]. destruct (close_sound g ws sd Hg E) as (g' & -> & H & _). exact H.
  - by apply responses_safe.
  - apply clients_safe; [done|apply NoDup_fst_map_to_list|]. intros u ws H _. by apply elem_of_map_to_list.
Qed.

Lemma reached_sound g : reached g -> sound g.
Proof.
  induction 1 as [responses|g e g' Hr IH Hp E]; [|pose proof (event_safe g e IH Hp) as H; by rewrite E in H].
  split; intros ? ?; cbn; rewrite lookup_empty; discriminate.
Qed.

(** C31. As long as every connection only ever presents tokens of one user, whose name is not
    empty, the map of clients is sound whatever happens in whatever order - connections,
    messages of any content, pongs, closings, reports, heartbeats that cut connections off:
    its sockets are open and are their users', so no handler ever touches a socket that was
    freed. Only an exception the code does not catch can end the gateway. *)
Theorem clients_stay_open g e : reached g -> possible g e ->
  (forall u ws, or_clients g !! u = Some ws -> u = who ws /\ exists sd, or_sockets g !! ws = Some sd /\ ps_user_id sd = u)
  /\ happen e g <> Undefined.
Proof.
  intros Hr Hp. pose proof (reached_sound g Hr) as Hg. split.
  - intros u ws H. destruct (sd_registered _ Hg u ws H) as (H1 & _ & H2). by split.
  - intros E. pose proof (event_safe g e Hg Hp) as H. by rewrite E in H.
Qed.

(** ** Who is sent what *)

(** The reports sent to a socket: its user's, from the acceptance of the order on. *)
Definition reports_for (clients : gmap bytes Z) (ws : Z) (l : list OrderResponse) : list OrderResponse :=
  List.filter (fun r => negb (bool_decide (r_order_status r = OrderStatus.PENDING_NEW)) && bool_decide (clients !! user_of r = Some ws)) l.

(** They are sent in order and numbered on. *)
Definition told_reports (now : Z) (l : list OrderResponse) sd : PerSocketData :=
  sd <| ps_sent ::= fun sent => sent ++ imap (fun i r => Stamped (str "user") (format_time_point now 9)
                                                (u64 (ps_seq_num sd + Z.of_nat i)) (order_report fee_rate r)) l |>
     <| ps_seq_num ::= fun n => u64 (n + Z.of_nat (List.length l)) |>.

Lemma told_nothing now sd : 0 <= ps_seq_num sd < 2 ^ 64 -> told_reports now [] sd = sd.
Proof. destruct sd as [a b n c d e l]. cbn. intros H. unfold told_reports. cbn. rewrite app_nil_r, Z.add_0_r. unfold wrap. by rewrite Z.mod_small. Qed.

Lemma told_counts now l sd : (ps_seq_num (told_reports now l sd), List.length (ps_sent (told_reports now l sd)))
  = (u64 (ps_seq_num sd + Z.of_nat (List.length l)), (List.length (ps_sent sd) + List.length l)%nat).
Proof. unfold told_reports. cbn. by rewrite length_app, length_imap. Qed.

Lemma told_one_more now r l sd : 0 <= ps_seq_num sd < 2 ^ 64 ->
  told_reports now (r :: l) sd = told_reports now l (stamp now (str "user") (order_report fee_rate r) sd).
Proof.
  destruct sd as [a b n c d e sent]. intros H. cbn in H. unfold told_reports, stamp. cbn.
  assert (Hn : u64 n = n) by (unfold wrap; by apply Z.mod_small).
  assert (Hw : forall i, u64 (n + Z.of_nat (S i)) = u64 (u64 (n + 1) + Z.of_nat i)).
  { intros i. unfold wrap. rewrite Nat2Z.inj_succ, Zplus_mod_idemp_l. f_equal. lia. }
  rewrite Hw, <- app_assoc. cbn. rewrite Z.add_0_r. rewrite (imap_ext _ (fun i r0 => Stamped (str "user") (format_time_point now 9)
    (u64 (u64 (n + 1) + Z.of_nat i)) (order_report fee_rate r0))); [by rewrite Hn|].
  intros i x _. cbn. by rewrite Hw.
Qed.

Definition delivered (now : Z) (l : list OrderResponse) g g' : Prop :=
  or_orders g' = fold_left (store_apply now) l (or_orders g) /\ or_clients g' = or_clients g
  /\ forall ws sd, or_sockets g !! ws = Some sd -> or_sockets g' !! ws = Some (told_reports now (reports_for (or_clients g) ws l) sd).

Lemma response_delivered now r g : sound g ->
  exists g', process_response fee_rate now r g = Ok g' /\ delivered now [r] g g' /\ or_response_read_index g' = or_response_read_index g.
Proof.
  intros Hg. unfold process_response. set (g1 := g <| or_orders ::= _ |>).
  assert (Hnone : (forall ws, or_clients g !! user_of r = Some ws -> r_order_status r = OrderStatus.PENDING_NEW) -> delivered now [r] g g1).
  { intros H. split; [done|]. split; [done|]. intros ws sd E. change (or_sockets g1) with (or_sockets g). rewrite E. f_equal.
    assert (reports_for (or_clients g) ws [r] = []) as ->.
    { cbn. case_bool_decide as H1; [done|]. case_bool_decide as H2; [|done]. by destruct H1, (H ws). }
    symmetry. by apply told_nothing, (sd_numbered g Hg ws). }
  change (view (id_user_id (r_identity r))) with (user_of r). change (or_clients g1) with (or_clients g).
  destruct (or_clients g !! user_of r) as [ws|] eqn:Ec.
  - destruct (sd_registered g Hg _ _ Ec) as (_ & Hne & sd & E & _). destruct (user_of r) as [|c u] eqn:Eu; [done|].
    rewrite Ec. unfold handle_order_response. case_bool_decide as Hp; [exists g1; split; [done|]; split; [by apply Hnone|done]|].
    unfold send_stamped, on_socket. change (or_sockets g1) with (or_sockets g). rewrite E. eexists. split; [done|]. split; [|done].
    split; [done|]. split; [done|]. intros ws' sd'. cbn. rewrite Eu. rewrite (bool_decide_eq_false_2 _ Hp). cbn [negb andb].
    destruct (decide (ws = ws')) as [<-|Hd].
    + rewrite E. intros [= <-]. rewrite lookup_insert_eq, bool_decide_eq_true_2 by done. rewrite told_one_more by (by apply (sd_numbered g Hg ws)).
      rewrite told_nothing; [done|]. apply (proj2 (stamp_same now (str "user") (order_report fee_rate r) sd)). by apply (sd_numbered g Hg ws).
    + intros E'. rewrite lookup_insert_ne, bool_decide_eq_false_2 by congruence. rewrite E'. f_equal. symmetry.
      by apply told_nothing, (sd_numbered g Hg ws').
  - exists g1. split; [destruct (user_of r); [done|]; by rewrite Ec|]. split; [by apply Hnone|done].
Qed.

Lemma told_app now l l' sd : 0 <= ps_seq_num sd < 2 ^ 64 -> told_reports now (l ++ l') sd = told_reports now l' (told_reports now l sd).
Proof.
  revert sd. induction l as [|r l IH]; intros sd H; cbn [app]; [by rewrite told_nothing|].
  rewrite !told_one_more by done. apply IH. by apply (proj2 (stamp_same now (str "user") (order_report fee_rate r) sd)).
Qed.

Lemma delivered_app now l l' g g1 g2 : sound g -> delivered now l g g1 -> delivered now l' g1 g2 -> delivered now (l ++ l') g g2.
Proof.
  intros Hg (O1 & C1 & S1) (O2 & C2 & S2). split; [by rewrite O2, O1, fold_left_app|]. split; [congruence|]. intros ws sd E.
  rewrite (S2 ws _ (S1 ws sd E)), C1. f_equal. unfold reports_for. rewrite List.filter_app. symmetry. apply told_app. by apply (sd_numbered g Hg ws).
Qed.

Lemma batch_delivered batch now responses g : sound g -> let l := take batch (drop (or_response_read_index g) responses) in
  exists g', process_responses fee_rate batch now responses g = Ok g' /\ delivered now l g g'
    /\ or_response_read_index g' = (or_response_read_index g + List.length l)%nat.
Proof.
  revert g. induction batch as [|batch IH]; intros g Hg; cbn [process_responses].
  - exists g. split; [done|]. rewrite take_0. split; [|cbn; lia]. split; [done|]. split; [done|]. intros ws sd E. rewrite E. f_equal.
    symmetry. by apply told_nothing, (sd_numbered g Hg ws).
  - destruct (responses !! or_response_read_index g) as [r|] eqn:Er.
    + rewrite (drop_S _ _ _ Er). cbn [firstn]. set (g0 := g <| or_response_read_index ::= S |>).
      assert (H0 : sound g0) by (by apply (reread_sound g)). destruct (response_delivered now r g0 H0) as (g1 & E1 & D1 & I1).
      pose proof (response_safe now r g0 H0) as H1. rewrite E1 in H1 |- *. cbn [rbind]. destruct (IH g1 H1) as (g2 & E2 & D2 & I2).
      exists g2. split; [exact E2|]. rewrite I1 in I2, D2. change (or_response_read_index g0) with (S (or_response_read_index g)) in I2, D2.
      split; [|rewrite I2; cbn; lia]. exact (delivered_app now [r] _ g0 g1 g2 H0 D1 D2).
    + rewrite drop_ge by (by apply lookup_ge_None). rewrite take_nil. exists g. split; [done|]. split; [|cbn; lia]. split; [done|]. split; [done|].
      intros ws sd E. rewrite E. f_equal. symmetry. by apply told_nothing, (sd_numbered g Hg ws).
Qed.


(** ** Where one user has two sockets, or one socket two users *)

(** A subscription to [channel], accepted as [user_id]'s. *)
Definition subscribes (message user_id channel : bytes) : Prop := exists msg token sub,
  js_parse message = Some msg /\ js_find msg (str "type") ≫= js_get_string = Some (str "subscribe")
  /\ js_find msg (str "jwt") ≫= js_get_string = Some token /\ jwt_subject token = Some sub
  /\ user_id = after_last_slash sub /\ js_find msg (str "channel") ≫= js_get_string = Some channel.

Lemma subscription_accepted now message user_id channel g ws : subscribes message user_id channel -> is_Some (or_sockets g !! ws) ->
  exists g' sd', handle_message now message g ws = Ok g' /\ or_sockets g' = <[ws := sd']> (or_sockets g) /\ ps_user_id sd' = user_id
    /\ or_clients g' = match or_clients g !! user_id with Some _ => or_clients g | None => <[user_id := ws]> (or_clients g) end.
Proof.
  intros (msg & token & sub & E1 & E2 & E3 & E4 & -> & E5) [sd E]. unfold handle_message. rewrite E1, E2, bool_decide_eq_true_2 by done.
  destruct (js_find msg (str "jwt")) as [v|]; [|done]. cbn in E3. rewrite E3. unfold subscribe. rewrite E4.
  unfold identify. unfold on_socket at 1. rewrite E. cbn [rbind]. set (g1 := g <| or_sockets ::= _ |>).
  set (user_id := after_last_slash sub). assert (H : exists g2 sd2, (match or_clients g1 !! user_id with
      | Some _ => Ok g1
      | None => let* g := on_socket (fun sd => sd <| ps_seq_num := 0 |>) g1 ws in Ok (g <| or_clients ::= <[user_id := ws]> |>)
      end) = Ok g2 /\ or_sockets g2 = <[ws := sd2]> (or_sockets g) /\ ps_user_id sd2 = user_id
      /\ or_clients g2 = match or_clients g !! user_id with Some _ => or_clients g | None => <[user_id := ws]> (or_clients g) end).
  { change (or_clients g1) with (or_clients g). destruct (or_clients g !! user_id); [by eexists _, _|].
    unfold on_socket. cbn. rewrite lookup_insert_eq. cbn. eexists _, _. split; [done|]. split; [cbn; by rewrite insert_insert_eq|done]. }
  destruct H as (g2 & sd2 & -> & S2 & U2 & C2). cbn [rbind]. rewrite E5.
  destruct (channel_only now user_id channel g2 ws) as (g3 & E3' & (C3 & _ & _ & sd3 & sd4 & A & B & Hu & _)); [by rewrite S2, lookup_insert_eq|].
  exists g3, sd4. split; [exact E3'|]. rewrite S2, lookup_insert_eq in A. injection A as <-. rewrite S2, insert_insert_eq in B.
  split; [done|]. split; [congruence|]. by rewrite C3.
Qed.

(** A second connection of a user is served its snapshot but no report: those keep going
    to the first. And when it closes, the user is forgotten: the first connection, open and
    subscribed as it is, is never sent a report again. *)
Lemma second_socket_silences g user_id ws1 ws2 sd1 message channel now :
  or_clients g !! user_id = Some ws1 -> or_sockets g !! ws1 = Some sd1 -> ws2 <> ws1 -> is_Some (or_sockets g !! ws2) ->
  subscribes message user_id channel -> user_id <> [] ->
  exists g1 g2, handle_message now message g ws2 = Ok g1 /\ or_clients g1 = or_clients g
    /\ handle_close g1 ws2 = Ok g2 /\ or_sockets g2 !! ws1 = Some sd1
    /\ forall later r, user_of r = user_id ->
         process_response fee_rate later r g2 = Ok (g2 <| or_orders ::= fun s => store_apply later s r |>).
Proof.
  intros Hc E1 Hd Ho Hs Hne. destruct (subscription_accepted now message user_id channel g ws2 Hs Ho) as (g1 & sd2 & E & S1 & U1 & C1).
  rewrite Hc in C1. unfold handle_close. exists g1. eexists. split; [exact E|]. split; [exact C1|]. rewrite S1, lookup_insert_eq, U1.
  destruct user_id as [|c u]; [done|]. split; [done|]. cbn. split; [by rewrite S1, lookup_delete_ne, lookup_insert_ne by done|].
  intros later r Hr. unfold process_response. change (view (id_user_id (r_identity r))) with (user_of r). rewrite Hr. cbn.
  by rewrite lookup_delete_eq.
Qed.

(** A connection that presents a token of another user stays registered for the first when it
    closes: the next report for that user is sent to freed memory. *)
Lemma second_user_dangles g user1 user2 ws message channel now :
  or_clients g !! user1 = Some ws -> is_Some (or_sockets g !! ws) -> subscribes message user2 channel ->
  user1 <> [] -> user2 <> [] -> user1 <> user2 ->
  exists g1 g2, handle_message now message g ws = Ok g1 /\ handle_close g1 ws = Ok g2
    /\ forall later r, user_of r = user1 -> r_order_status r <> OrderStatus.PENDING_NEW -> process_response fee_rate later r g2 = Undefined.
Proof.
  intros Hc Ho Hs H1 H2 Hd. destruct (subscription_accepted now message user2 channel g ws Hs Ho) as (g1 & sd2 & E & S1 & U1 & C1).
  unfold handle_close. exists g1. eexists. split; [exact E|]. rewrite S1, lookup_insert_eq, U1. destruct user2 as [|c u]; [done|].
  split; [done|]. intros later r Hr Hp. unfold process_response. change (view (id_user_id (r_identity r))) with (user_of r). rewrite Hr. cbn.
  destruct user1 as [|c' u']; [done|]. rewrite lookup_delete_ne, C1 by done.
  assert (Hc1 : (match or_clients g !! (c :: u) with Some _ => or_clients g | None => <[c :: u := ws]> (or_clients g) end) !! (c' :: u') = Some ws).
  { destruct (or_clients g !! (c :: u)); [done|]. by rewrite lookup_insert_ne. }
  rewrite Hc1. unfold handle_order_response. rewrite bool_decide_eq_false_2 by done. unfold send_stamped, on_socket. cbn.
  by rewrite lookup_delete_eq.
Qed.
End Reports.

(** ** Witnesses *)

Definition subscribe_document (user : string) : FlatJson :=
  JObject [(str "type", JString (str "subscribe")); (str "jwt", JString (str "users/" ++ str user)); (str "channel", JString (str "user"))].

#[local] Instance ws_reader : JsonReader FlatJson := {
  js_parse t := Some (JObject [(str "type", JString (str "subscribe")); (str "jwt", JString (str "users/" ++ t)); (str "channel", JString (str "user"))]);
  js_is_null j := false;
  js_get_uint64 j := None
}.

#[local] Instance ws_jwt : Jwt := fun token => Some token.
#[local] Instance ws_status_text : CbStatusText := fun _ => str "OPEN".

Definition zero_rate : double := double_zero.

(** Alice's two connections, the first of them subscribed. *)
Definition alice_events : list Event := [Opened 1 0; Message 1 0 (str "alice"); Opened 2 0].
Definition of_alice (ws : Z) : bytes := str "alice".

Definition run (es : list Event) (g : OrderReports) : result OrderReports :=
  fold_left (fun r e => let* g := r in happen 60 zero_rate e g) es (Ok g).

Definition alice_reports : OrderReports := match run alice_events (new_reports []) with Ok g => g | _ => new_reports [] end.

Lemma alice_speaks u : speaks_for (str "alice") u -> u = str "alice" /\ u <> [].
Proof.
  intros (msg & token & sub & E1 & E2 & E3 & ->). injection E1 as <-. vm_compute in E2. injection E2 as <-. injection E3 as <-.
  split; [vm_compute; reflexivity|]. vm_compute. discriminate.
Qed.

Lemma alice_reached : reached 60 zero_rate of_alice alice_reports.
Proof.
  set (g1 := open_socket (new_reports []) 1 0). assert (R1 : reached 60 zero_rate of_alice g1).
  { apply (ReachedStep 60 zero_rate of_alice (new_reports []) (Opened 1 0)); [constructor|reflexivity|reflexivity]. }
  destruct (handle_message 0 (str "alice") g1 1) as [g2| |] eqn:E; [|vm_compute in E; discriminate E..].
  assert (R2 : reached 60 zero_rate of_alice g2).
  { apply (ReachedStep 60 zero_rate of_alice g1 (Message 1 0 (str "alice"))); [exact R1| |exact E].
    split; [by eexists|]. intros u H. by apply alice_speaks. }
  assert (E2 : run alice_events (new_reports []) = Ok (open_socket g2 2 0)).
  { unfold run, alice_events. cbn [fold_left rbind happen]. fold g1. rewrite E. reflexivity. }
  unfold alice_reports. rewrite E2. apply (ReachedStep 60 zero_rate of_alice g2 (Opened 2 0)); [exact R2| |reflexivity].
  assert (Hn : bool_decide (or_sockets g2 !! 2 = None) = true); [|by apply bool_decide_eq_true in Hn].
  assert (H : match handle_message 0 (str "alice") g1 1 with Ok g => bool_decide (or_sockets g !! 2 = None) | _ => false end = true)
    by (vm_compute; reflexivity). by rewrite E in H.
Qed.

Lemma clients_stay_open_witness :
  (forall u ws, or_clients alice_reports !! u = Some ws -> u = str "alice" /\ exists sd, or_sockets alice_reports !! ws = Some sd /\ ps_user_id sd = u)
  /\ happen 60 zero_rate (Heartbeats 100000000000 0) alice_reports <> Undefined.
Proof. exact (clients_stay_open 60 zero_rate of_alice alice_reports (Heartbeats 100000000000 0) alice_reached I). Defined.


Lemma second_socket_silences_witness : exists g1 g2 sd1, handle_message 0 (str "alice") alice_reports 2 = Ok g1
  /\ handle_close g1 2 = Ok g2 /\ or_sockets g2 !! 1 = Some sd1
  /\ process_response zero_rate 0 (sample_report ExecType.NEW OrderStatus.NEW 5) g2
     = Ok (g2 <| or_orders ::= fun s => store_apply 0 s (sample_report ExecType.NEW OrderStatus.NEW 5) |>).
Proof.
  destruct (or_sockets alice_reports !! 1) as [sd1|] eqn:E1; [|vm_compute in E1; discriminate E1].
  destruct (second_socket_silences zero_rate alice_reports (str "alice") 1 2 sd1 (str "alice") (str "user") 0) as (g1 & g2 & H1 & _ & H2 & H3 & H4).
  - vm_compute. reflexivity.
  - exact E1.
  - discriminate.
  - destruct (or_sockets alice_reports !! 2) eqn:E2; [by eexists|vm_compute in E2; discriminate E2].
  - eexists _, _, _. split; [reflexivity|]. split; [vm_compute; reflexivity|]. split; [vm_compute; reflexivity|]. split; [reflexivity|].
    split; vm_compute; reflexivity.
  - discriminate.
  - exists g1, g2, sd1. split; [exact H1|]. split; [exact H2|]. split; [exact H3|]. apply H4. vm_compute. reflexivity.
Defined.
